(* ===== verification/_CoqProject ===== *)
-Q . S2P
Prelude.v
Machine.v
GdbState.v
Trace.v
Step.v
Musb.v
Packet.v
Memory.v
Breakpoint.v
Dispatch.v
Gdbstub.v
Ecc.v
Storage.v
Ini.v
Settings.v
Entries.v
Fat.v
Soc.v
Log.v
Timer.v
Partial.v
Clock.v
Nand.v
Payload.v
Mmu.v
Pf.v
Oneshot.v
Cfw.v
Printf.v
Components.v
Sd.v
Ring.v
Ch374.v
Font.v
Fbcon.v
Resident.v
Lcd.v
Cardslot.v
Boot.v
Sysinfo.v
Opennboot.v
Battery.v
Flash.v
Doom.v
Doomsys.v
