(* ===== verification/Prelude.v ===== *)
(** * AIPC OS bare-metal firmware: a verification library

    The repository holds the firmware of a netbook with the Anyka AK7802 SoC:
    everything under [src/baremetal] runs on the ARM926 core without an
    operating system.  openNBOOT (in NAND) loads [BOOT.BIN] with the FAT reader
    or boots the stock image with the NAND reader; aipc-boot is the boot menu,
    with settings, Linux entries and ELF payloads on the card; cfw patches
    Windows CE in memory while it starts; gdbstub is a debug agent over USB.  All
    of them link the drivers of [lib].

    ** How the code is modelled

    Integers are [Z] with their wrap-around written out ([u8], [u16], [u32], [i32]
    below); buffers and strings are lists of bytes.  Code that touches hardware is
    written in the state monad of [Machine]: an access to an address in DDR is
    memory, every other access goes to an arbitrary [Device], so that a theorem
    about a driver holds for every answer of the hardware.  Code that only computes
    is plain functions with its statics passed explicitly.  Where the address of a
    buffer matters, the buffer is memory at a variable address ([Nand.NandLocals],
    [Sysinfo]), so that a store outside it is one; a static that is a list of its own is
    written through a bounds check ([Gdbstub.image_invariant]).  Loops that poll a
    register with a limit run exactly that limit ([spin], [spin_i]); other loops are
    structural, or have a fuel that a theorem shows to be enough
    ([Ini.ini_parse_lines], [Timer.timer_delay_ends], [Nand.load_image_order],
    [Storage.storage_read_content], [Payload.payload_list_sorted]).

    ** The files

    - this file: machine integers, byte lists, little-endian numbers, decimal
      digits, lemmas on bit operations;
    - [Machine]: the state monad, weakest preconditions ([wp], [gwp]) and step
      relations ([steps]), memory, the bus, devices and recorded accesses;
    - [Partial]: the same monad for code that may not return within its fuel, with
      the step relations [psteps];
    - [Clock]: what runs while the timer stands still, and how long a delay takes;
    - [Ring]: a ring of fixed size as the list of its contents.

    The debug agent, [src/baremetal/gdbstub]:
    - [GdbState]: the statics of trace.c, musb.c and rsp.c as records, and the
      interface [Transport] between the protocol and the USB driver;
    - [Trace] (trace.c): the log window and its rotation at start;
    - [Step] (step.c): the next pc of an instruction;
    - [Musb] (musb.c): the USB controller, its control and bulk endpoints;
    - [Packet], [Memory], [Breakpoint], [Dispatch] (rsp.c): numbers and replies;
      memory and registers; breakpoints, steps and stops; commands and framing;
    - [Gdbstub] (main.c): the image, as a transition system of polls, packets,
      runs of the target and traps.

    The drivers, [src/baremetal/lib]:
    - [Soc], [Log], [Timer] (soc.c, log.c, timer.c): registers, the boot log that
      survives from stage to stage, the extended counter; [Soc] has the record
      [boot] of the statics of the boot images.  The address of the log window is set
      by each Makefile: a definition is for any build ([LogBuild]), a theorem about one
      image for the build of that image;
    - [Ecc], [Nand] (ecc.c, nand.c): BCH positions; page reads, geometry probe and
      image loader;
    - [Sd] (sd.c): commands, blocks and DMA reads of the card, the shared pins;
    - [Fat] (fat.c): the reader of the boot ROM loader;
    - [Ch374] (ch374.c, aipc-boot/kbd.c): the USB host chip behind SPI, the keyboard
      reports and their ring of events, the keys of the menu;
    - [Font], [Fbcon] (font8x8_basic.h, fbcon.c): the console in a rectangle of a
      framebuffer;
    - [Lcd] (lcd.c, aipc-boot/fade.c): the display controller, its two framebuffers
      and the fade to black, with the order of all volatile accesses;
    - [Mmu] (mmu.c, and the map in aipc-boot/main.c): the section table;
    - [Pf] (pf.c and cfw/core/core.c): the patch finder and the stages of cfw.

    aipc-boot and cfw:
    - [Storage] (storage.c): the disk layer under FatFS and the files above it; the
      card driver and FatFS are the interfaces [Card] and [Volume], with the laws
      of [VolumeLaws], [ReadLaws] and [LoadLaws].  The laws are for paths that are
      [apart], let a failing call have done its work, and clip a seek at the end of
      the file, as ff.c does;
    - [Ini], [Settings], [Entries] (ini.c, settings.c, entries.c): the parser, the
      key table and the Linux entries;
    - [Payload] (payload.c): the payload list and the ELF loader, with the order of its
      stores and the state of the log at each;
    - [Cardslot] (card.c): the state machine of the card slot, over [Sd], [Timer],
      [Log] and [Storage];
    - [Boot] (boot.c): the tags for Linux, the mask of the firmware's components and
      the way to WinCE, over [Sd], [Nand], [Settings] and [Log];
    - [Sysinfo] (sysinfo.c): the version of the firmware and the kind of the first
      stage, over [Nand];
    - [Battery] (battery.c): the samples of the battery's voltage, over [Timer];
    - [Cfw] (nkpf/romimage.c, eboot/handoff.c), [Printf] (core/printf.c): the ROM
      image, the hand-off patch, the formatter and the panic message;
    - [Oneshot]: what a scan leaves when every callback runs at most once, shared by
      the components;
    - [Components] (components/*.c, core/header.c, eboot/eboot.c): the four
      components, the EBOOT stage and what the rewritten code does;
    - [Resident] (residents/nk/diag.c): the hooks that stay in WinCE and their panel.

    The first stage and its tool:
    - [Opennboot] ([src/baremetal/opennboot/main.c]): the start from the card or from the
      flash, over [Sd], [Fat], [Nand] and [Log];
    - [Flash] ([src/tools/opennboot/stub]): the stubs that read and write the flash, with a
      model of the chip behind the sequencer.

    The port of DOOM, [src/baremetal/doom/src]:
    - [Doom] (ch374_keyboard.c): the keys of the game, over [Ch374] and [Ring];
    - [Doomsys] (syscalls.c, doomgeneric_aipc.c): heap, WAD file and output for the C
      library, and the scaled picture.

    A definition has the name of the C function it follows; loops of a function
    have its name with a suffix such as [_loop].

    ** What the theorems show

    The whole agent: [Gdbstub.image_invariant] (array bounds and no forgotten step
    breakpoint in every reachable state), [Dispatch.dispatch_answers] (one
    well-formed answer per command), [Dispatch.rsp_feed_fragments] and
    [Dispatch.packet_delivery] (framing), the breakpoint life cycle in
    [Breakpoint], memory and register access and their round trips in [Memory],
    the control pipe and the bulk stream in [Musb], the decoder in [Step].

    Loading: [Nand.nand_load_frame] and [Payload.payload_load_safe] bound what a
    load can write, whatever the hardware or the file says, the corrections of the BCH
    engine and the closing of the log window included;
    [Nand.load_image_order], [Payload.payload_load_image],
    [Fat.fat_load_spec] and [Storage.storage_read_content] say what arrives, against
    reference definitions; [Ecc.ecc_apply_corrects] is the error correction.

    The card: [Sd.sd_memory_frame], [Sd.sd_read_blocks_dma] (what the DMA engine
    is told), [Sd.sd_polls_decide] (no endless wait) and [Sd.sd_release_restores]
    (the pads go back to the NAND controller), for every answer of the card.

    Files: [Storage.storage_save_safe], [Storage.storage_load_content],
    [Settings.settings_save_atomic] and [Settings.settings_roundtrip] are the
    persistence of settings under failures; [Ini.ini_parse_lines] and
    [Entries.entries_parse_spec] compare parsers with line-by-line readings.

    Patching: [Pf.pf_apply_scans] says what the rolling window compares, whatever the
    callbacks write; for callbacks that keep near their match that is the text before the
    scan ([callback_near] in [Pf]), and [Oneshot] does without;
    [Pf.pf_apply_once] and [Cfw.handoff_patch_unique] say that a scan that
    succeeds patched exactly the intended place, [Cfw.rom_code_range_in_place] that
    a code range is inside DDR.  [Components.eboot_main_patches] and
    [Components.nk_stage_patches] compose them: a stage that returns has made the
    enabled patches and nothing else, the second in the code that [Cfw.module_range]
    finds in the image; [Components.power_hold_keeps_pin] runs the
    rewritten code.  [Resident.resident_stays_in_panel] and [Resident.panel_rows_fit]
    are about what stays in WinCE.

    Starting a system: [Boot.wince_prepare_errors] and [Boot.wince_prepare_frame]
    (the result of every failure, and what is written),
    [Boot.cfw_mask_enables] (the mask that [Components.eboot_main] checks),
    [Boot.build_atags_parsed] (Linux reads the command line back),
    [Sysinfo.version_of_first], [Sysinfo.nboot_of_first] and
    [Sysinfo.sysinfo_read_safe], [Mmu.map_memory_translates].

    The user: [Ch374.process_report_tracks] (events are the changes),
    [Ch374.kbd_pop_next], [Ch374.ch374_safe] and [Ch374.ch374_chip_select] (any
    chip, any sequence of polls; on a running clock they return); [Cardslot.card_poll_reports] and
    [Cardslot.card_settles] (a card becomes ready or failed);
    [Fbcon.console_in_rectangle] and [Fbcon.putc_draws_glyph];
    [Lcd.fade_out_tearless] (no store into a frame that the controller shows or is about
    to show, as its registers were written) and [Lcd.dim_scales_channels].

    The first stage: [Opennboot.sd_try_boot_restores] composes the pads of [Sd] with the
    FAT reader and the log; [Flash.write_main_programs] and [Flash.read_main_harmless] say
    which erases and programs the tool makes the chip do.  Beside them
    [Battery.battery_mv_decides], and for the game [Doom.doom_keys_follow],
    [Doomsys.wad_is_a_file] and [Doomsys.draw_frame_doubles].

    Every theorem with hypotheses is applied at a concrete state in a lemma with
    its name and the suffix [_witness].

    ** Where the code and its documents differ

    A register shift by 0 in step.c is not the architecture's
    ([Step.shifted_reg_zero_differs]); a failed save can lose a content that only
    [path.new] holds ([Storage.storage_save_loses_lone_copy]); a key without a section
    can change its section ([Settings.settings_moves_sectionless]); a failed wait at
    the end of [sd_high_speed] leaves the clock raised; a key that is held when the
    keyboard is lost is never released ([Ch374.reconnect_releases_nothing]); a full
    row of SYSINTR numbers wraps its last character into the next one
    ([Resident.sysintr_plus_wraps]).

    ** Not modelled

    Assembly (vectors, hand-offs, cache and MMU switches) and the jumps it makes, and
    with them the functions that only call modelled ones and jump ([linux_load],
    [linux_enter] and [payload_call] of boot.c, [nkpf_main], [DG_Init]); the jump at the
    end of opennboot/main.c is the outcome of [Opennboot.boot_main].  FatFS and LVGL are
    interfaces; the menu ([ui*.c]) and the power screen (power.c) are calls of LVGL.
    Busy waits and the drain of the write buffer have no effect here.  The partial
    content of a destination buffer when a block transfer fails and the writes of the
    L2 DMA engine to DDR are outside the model.  Fonts of the menu, probes, the game
    itself and the host tools in Python are left out.  [Storage] and [Fat] use the card
    through [Card], whose fields have the names of sd.c; [Opennboot] makes [Sd] an
    instance, with one buffer for the sectors.  In [Boot] the entry of the firmware image
    is an argument; [Components.eboot_main] is what it runs. *)
From Stdlib Require Export ZArith Lia.
From stdpp Require Export base tactics numbers list gmap strings option.

#[global] Open Scope Z_scope.

(** ** Machine integers *)

Ltac zlia := Z.div_mod_to_equations; lia.

Definition u8 (v : Z) : Z := v mod 256.
Definition u16 (v : Z) : Z := v mod 65536.
Definition u32 (v : Z) : Z := v mod 4294967296.
Definition u64 (v : Z) : Z := v mod 18446744073709551616.

(** The value of the low 32 bits of [v] as a signed integer. *)
Definition i32 (v : Z) : Z :=
  let w := u32 v in if w <? 2147483648 then w else w - 4294967296.

(** [~v] on a 32-bit unsigned integer. *)
Definition not32 (v : Z) : Z := 4294967295 - u32 v.

Definition byte_ok (b : Z) : Prop := 0 <= b < 256.
Definition word_ok (w : Z) : Prop := 0 <= w < 4294967296.

(** C truth value of an integer. *)
Definition nonzero (v : Z) : bool := negb (v =? 0).
Definition b2z (b : bool) : Z := if b then 1 else 0.

Declare Scope aipc_scope.
Delimit Scope aipc_scope with aipc.
Notation "a .& b" := (Z.land a b) (at level 40, left associativity) : aipc_scope.
Notation "a .| b" := (Z.lor a b) (at level 50, left associativity) : aipc_scope.
Notation "a .^ b" := (Z.lxor a b) (at level 50, left associativity) : aipc_scope.
Notation "a .<< b" := (Z.shiftl a b) (at level 32, left associativity) : aipc_scope.
Notation "a .>> b" := (Z.shiftr a b) (at level 32, left associativity) : aipc_scope.
#[global] Open Scope aipc_scope.

Lemma u8_range v : byte_ok (u8 v).
Proof. unfold byte_ok, u8. apply Z.mod_pos_bound. lia. Qed.
Lemma u16_range v : 0 <= u16 v < 65536.
Proof. unfold u16. apply Z.mod_pos_bound. lia. Qed.
Lemma u32_range v : word_ok (u32 v).
Proof. unfold word_ok, u32. apply Z.mod_pos_bound. lia. Qed.
Lemma u8_id v : byte_ok v → u8 v = v.
Proof. unfold byte_ok, u8. intros. apply Z.mod_small. lia. Qed.
Lemma u16_id v : 0 <= v < 65536 → u16 v = v.
Proof. unfold u16. intros. apply Z.mod_small. lia. Qed.
Lemma u32_id v : word_ok v → u32 v = v.
Proof. unfold word_ok, u32. intros. apply Z.mod_small. lia. Qed.
Lemma u8_u8 v : u8 (u8 v) = u8 v.
Proof. apply u8_id, u8_range. Qed.
Lemma u32_u32 v : u32 (u32 v) = u32 v.
Proof. apply u32_id, u32_range. Qed.
Lemma i32_small v : 0 <= v < 2147483648 → i32 v = v.
Proof. intros Hv. unfold i32. rewrite u32_id by (unfold word_ok; lia). destruct (v <? 2147483648) eqn:E; lia. Qed.
Lemma i32_neg v : -2147483648 <= v < 0 → i32 (u32 v) = v.
Proof.
  intros Hv. unfold i32. rewrite u32_u32. replace (u32 v) with (v + 4294967296) by (unfold u32; zlia).
  destruct (v + 4294967296 <? 2147483648) eqn:E; lia.
Qed.

Create HintDb aipc.
Create Rewrite HintDb aipc.
#[export] Hint Resolve u8_range u16_range u32_range : aipc.
#[export] Hint Rewrite u8_u8 u32_u32 : aipc.

(** ** Byte strings *)

(** The bytes of a C string literal, without its terminator. *)
Fixpoint bytes_of (s : string) : list Z :=
  match s with
  | EmptyString => []
  | String c s' => Z.of_nat (Ascii.nat_of_ascii c) :: bytes_of s'
  end.
#[global] Arguments bytes_of s%_string.

(** Character constant. *)
Definition chr (s : string) : Z :=
  match s with String c _ => Z.of_nat (Ascii.nat_of_ascii c) | EmptyString => 0 end.
#[global] Arguments chr s%_string.

Definition zlen {A} (l : list A) : Z := Z.of_nat (length l).

(** Reads and writes of an array by integer index; out of range reads give 0
    and out of range writes do nothing, so the definitions that use them prove
    or test the bound. *)
Definition znth (l : list Z) (i : Z) : Z := nth (Z.to_nat i) l 0.
Definition zset {A} (l : list A) (i : Z) (v : A) : list A := <[Z.to_nat i := v]> l.
(** A store into an array whose bounds are in question: outside them the array
    grows, so that its length tells. *)
Definition zput {A} (l : list A) (i : Z) (v : A) : list A :=
  if (0 <=? i) && (i <? zlen l) then zset l i v else l ++ [v].
Lemma zput_in {A} (l : list A) i v : 0 <= i < zlen l → zput l i v = zset l i v.
Proof. intros Hi. unfold zput. by rewrite (proj2 (Z.leb_le _ _)), (proj2 (Z.ltb_lt _ _)) by lia. Qed.

Lemma bytes_of_ok s : Forall byte_ok (bytes_of s).
Proof.
  induction s as [|c s IH]; simpl; constructor; auto.
  unfold byte_ok. pose proof (Ascii.nat_ascii_bounded c). lia.
Qed.
#[export] Hint Resolve bytes_of_ok : aipc.

Lemma zlen_nonneg {A} (l : list A) : 0 <= zlen l.
Proof. unfold zlen. lia. Qed.
Lemma zlen_app {A} (l k : list A) : zlen (l ++ k) = zlen l + zlen k.
Proof. unfold zlen. rewrite length_app. lia. Qed.
Lemma zlen_cons {A} (x : A) l : zlen (x :: l) = 1 + zlen l.
Proof. unfold zlen. simpl. lia. Qed.
Lemma zlen_nil {A} : zlen (@nil A) = 0.
Proof. done. Qed.
#[export] Hint Rewrite @zlen_app @zlen_cons @zlen_nil : aipc.
#[export] Hint Resolve zlen_nonneg : aipc.

(** ** Little-endian words *)

Fixpoint le_join (l : list Z) : Z :=
  match l with
  | [] => 0
  | x :: l' => x + 256 * le_join l'
  end.

Fixpoint le_split (n : nat) (v : Z) : list Z :=
  match n with
  | O => []
  | S n' => u8 v :: le_split n' (v / 256)
  end.

Lemma le_split_length n v : length (le_split n v) = n.
Proof. revert v. induction n; intros; simpl; auto. Qed.
Lemma le_split_ok n v : Forall byte_ok (le_split n v).
Proof. revert v. induction n; intros; simpl; constructor; auto with aipc. Qed.
Lemma le_join_split n v : le_join (le_split n v) = v mod 256 ^ Z.of_nat n.
Proof.
  revert v. induction n as [|n IH]; intros v; simpl le_split; simpl le_join.
  - by rewrite Z.mod_1_r.
  - rewrite IH. unfold u8.
    rewrite Nat2Z.inj_succ, Z.pow_succ_r by lia.
    rewrite Z.rem_mul_r by lia. lia.
Qed.
Lemma le_split_join l : Forall byte_ok l → le_split (length l) (le_join l) = l.
Proof.
  induction 1 as [|x l Hx Hl IH]; simpl; [done|].
  unfold byte_ok in Hx. f_equal.
  - unfold u8. rewrite Z.add_mod, (Z.mul_comm 256), Z.mod_mul, Z.add_0_r by lia.
    rewrite Z.mod_mod by lia. apply Z.mod_small. lia.
  - replace ((x + 256 * le_join l) / 256) with (le_join l); [done|].
    rewrite (Z.mul_comm 256), Z.div_add by lia. rewrite Z.div_small by lia. lia.
Qed.
Lemma le_join_bound l : Forall byte_ok l → 0 <= le_join l < 256 ^ zlen l.
Proof.
  induction 1 as [|x l Hx Hl IH]; simpl; [done|].
  rewrite zlen_cons, Z.pow_add_r by (auto with aipc || lia).
  unfold byte_ok in Hx. lia.
Qed.

(** ** Loops

    [iter_pos p f s] runs [f] at most [p] times, until it answers [inr].  The
    recursion is on the binary representation of [p], so that a bound of
    twenty million spins is as cheap to write as a bound of ten. *)

Fixpoint iter_pos {St A} (p : positive) (f : St → St + A) (s : St) : St + A :=
  match p with
  | xH => f s
  | xO q => match iter_pos q f s with inl s' => iter_pos q f s' | r => r end
  | xI q =>
      match f s with
      | inl s0 => match iter_pos q f s0 with inl s' => iter_pos q f s' | r => r end
      | r => r
      end
  end.

Definition iter_z {St A} (n : Z) (f : St → St + A) (s : St) : St + A :=
  match n with Zpos p => iter_pos p f s | _ => inl s end.

Fixpoint iter_nat {St A} (n : nat) (f : St → St + A) (s : St) : St + A :=
  match n with
  | O => inl s
  | S n' => match f s with inl s' => iter_nat n' f s' | r => r end
  end.

Lemma iter_nat_add {St A} n m (f : St → St + A) s :
  iter_nat (n + m) f s =
  match iter_nat n f s with inl s' => iter_nat m f s' | r => r end.
Proof. revert s. induction n as [|n IH]; intros s; simpl; [done|]. by destruct (f s). Qed.

Lemma iter_pos_nat {St A} p (f : St → St + A) s :
  iter_pos p f s = iter_nat (Pos.to_nat p) f s.
Proof.
  revert s. induction p as [q IH|q IH|]; intros s; cbn [iter_pos].
  - rewrite Pos2Nat.inj_xI. simpl. destruct (f s) as [s0|]; [|done].
    rewrite Nat.add_0_r, iter_nat_add, IH. destruct (iter_nat _ f s0); auto.
  - rewrite Pos2Nat.inj_xO. simpl. rewrite Nat.add_0_r, iter_nat_add, IH.
    destruct (iter_nat _ f s); auto.
  - simpl. by destruct (f s).
Qed.

Lemma iter_z_nat {St A} n (f : St → St + A) s :
  iter_z n f s = iter_nat (Z.to_nat n) f s.
Proof. destruct n; simpl; auto. apply iter_pos_nat. Qed.

(** An invariant of the body is an invariant of the loop. *)
Lemma iter_nat_inv {St A} (P : St → Prop) (Q : A → Prop) n (f : St → St + A) s :
  (∀ s, P s → match f s with inl s' => P s' | inr a => Q a end) →
  P s → match iter_nat n f s with inl s' => P s' | inr a => Q a end.
Proof.
  intros Hf. revert s. induction n as [|n IH]; intros s Hs; simpl; [done|].
  specialize (Hf s Hs). destruct (f s); [by apply IH|done].
Qed.

(** ** Decimal output by repeated subtraction

    trace.c, rsp.c and lib/log.c have no division and share this algorithm:
    each power of ten is subtracted while it fits, leading zeros are skipped. *)

Definition pow10 : list Z :=
  [1000000000; 100000000; 10000000; 1000000; 100000; 10000; 1000; 100; 10; 1].

(** [while (v >= p) { v -= p; n++; }], at most [fuel] times. *)
Fixpoint count_sub (fuel : nat) (v p n : Z) : Z * Z :=
  match fuel with
  | O => (v, n)
  | S f => if p <=? v then count_sub f (u32 (v - p)) p (n + 1) else (v, n)
  end.

Fixpoint dec_loop (ps : list Z) (i v : Z) (started : bool) : list Z :=
  match ps with
  | [] => []
  | p :: ps' =>
      let '(v', n) := count_sub 10 v p 0 in
      let shown := nonzero n || started || (i =? 9) in
      (if shown then [chr "0" + n] else []) ++ dec_loop ps' (i + 1) v' (started || shown)
  end.

Definition dec_digits (v : Z) : list Z := dec_loop pow10 0 v false.

(** The number that a string of decimal digits denotes. *)
Definition dec_value (l : list Z) : Z := fold_left (λ acc c, acc * 10 + (c - chr "0")) l 0.
Definition is_dec (c : Z) : bool := (chr "0" <=? c) && (c <=? chr "9").

Lemma count_sub_spec f v p n :
  word_ok v → 0 < p → v < Z.of_nat f * p →
  count_sub f v p n = (v mod p, n + v / p).
Proof.
  revert v n. induction f as [|f IH]; intros v n Hv Hp Hf; [unfold word_ok in *; lia|].
  cbn [count_sub]. unfold word_ok in *. destruct (p <=? v) eqn:E.
  - apply Z.leb_le in E. rewrite u32_id by (unfold word_ok; lia).
    rewrite IH by (unfold word_ok; lia). f_equal.
    + rewrite <-(Z.mod_add (v - p) 1 p) by lia. f_equal. lia.
    + replace v with (v - p + 1 * p) at 2 by lia. rewrite Z.div_add by lia. lia.
  - apply Z.leb_gt in E. rewrite Z.mod_small, Z.div_small by lia. f_equal. lia.
Qed.

(** The digits that the loop emits from weight [10^k] on, once started, are the
    [k+1] decimal digits of [v]. *)
Lemma fold_dec_acc l acc :
  fold_left (λ a c, a * 10 + (c - chr "0")) l acc = acc * 10 ^ zlen l + dec_value l.
Proof.
  unfold dec_value. revert acc. induction l as [|c l IH]; intros acc; cbn [fold_left].
  - rewrite zlen_nil, Z.pow_0_r. lia.
  - rewrite IH, (IH (0 * 10 + _)), zlen_cons, Z.pow_add_r by (auto with aipc || lia). lia.
Qed.

Lemma dec_value_nonneg l : Forall (λ c, is_dec c = true) l → 0 <= dec_value l.
Proof.
  intros Hl. enough (∀ a, 0 <= a → 0 <= fold_left (λ acc c, acc * 10 + (c - chr "0")) l a) as H by (by apply H).
  induction Hl as [|c l Hc Hl IH]; intros a Ha; [done|]. cbn [fold_left]. apply IH.
  unfold is_dec in Hc. change (chr "0") with 48 in *. lia.
Qed.

Definition pow10_from (k : nat) : list Z := map (λ j, 10 ^ Z.of_nat j) (rev (seq 0 k)).

Lemma pow10_from_S k : pow10_from (S k) = 10 ^ Z.of_nat k :: pow10_from k.
Proof. unfold pow10_from. rewrite seq_S, rev_app_distr. done. Qed.

Lemma dec_loop_spec k v started :
  (k <= 10)%nat → word_ok v → v < 10 ^ Z.of_nat k →
  let l := dec_loop (pow10_from k) (10 - Z.of_nat k) v started in
  Forall (λ c, is_dec c = true) l ∧ dec_value l = v ∧
  (started = true → zlen l = Z.of_nat k) ∧
  (started = false → (0 < k)%nat →
     (∃ c l', l = c :: l' ∧ (c ≠ chr "0" ∨ l' = [])) ∧ zlen l <= Z.of_nat k).
Proof.
  revert v started. induction k as [|k IH]; intros v st Hk Hv Hlt.
  { cbn in Hlt. unfold word_ok in Hv. simpl. assert (v = 0) as -> by lia.
    repeat split; try done. lia. }
  cbv zeta. rewrite pow10_from_S. cbn [dec_loop].
  assert (0 < 10 ^ Z.of_nat k) as Hp by (apply Z.pow_pos_nonneg; lia).
  rewrite Nat2Z.inj_succ, Z.pow_succ_r in Hlt by lia.
  rewrite count_sub_spec by (done || lia).
  set (p := 10 ^ Z.of_nat k) in *. rewrite Z.add_0_l.
  pose proof (Z.mod_pos_bound v p Hp) as Hmb.
  assert (v = p * (v / p) + v mod p) as Hdm by (apply Z.div_mod; lia).
  unfold word_ok in Hv.
  assert (0 <= v / p <= 9) as Hq.
  { split; [apply Z.div_pos; lia|]. enough (v / p < 10) by lia.
    apply Z.div_lt_upper_bound; lia. }
  assert (word_ok (v mod p) ∧ v mod p < p) as [Hm Hmp] by (unfold word_ok; nia).
  replace (10 - Z.of_nat (S k) + 1) with (10 - Z.of_nat k) by lia.
  assert (is_dec (chr "0" + v / p) = true) as Hd
    by (unfold is_dec; change (chr "0") with 48; change (chr "9") with 57; lia).
  destruct (nonzero (v / p) || st || (10 - Z.of_nat (S k) =? 9)) eqn:Eshow; cbn [app].
  - rewrite orb_true_r.
    destruct (IH (v mod p) true ltac:(lia) Hm Hmp) as (HF & HV & HL & _).
    specialize (HL eq_refl). repeat split.
    + by constructor.
    + unfold dec_value. cbn [fold_left]. rewrite fold_dec_acc, HV, HL. fold p.
      change (chr "0") with 48. lia.
    + intros _. rewrite zlen_cons. lia.
    + eexists _, _. split; [done|].
      destruct (nonzero (v / p)) eqn:En.
      * left. unfold nonzero in En. apply negb_true_iff, Z.eqb_neq in En. lia.
      * subst st. cbn in Eshow. apply Z.eqb_eq in Eshow. assert (k = 0)%nat as -> by lia.
        right. done.
    + rewrite zlen_cons. lia.
  - apply orb_false_iff in Eshow as [Eshow E9]. apply orb_false_iff in Eshow as [En ->].
    unfold nonzero in En. apply negb_false_iff, Z.eqb_eq in En. cbn [orb].
    destruct (IH (v mod p) false ltac:(lia) Hm Hmp) as (HF & HV & _ & HL).
    apply Z.eqb_neq in E9. destruct (HL eq_refl) as [HL1 HL2]; [lia|].
    repeat split; try done; try lia.
Qed.

(** Decimal output denotes its argument, has digits only and no leading zero. *)
Lemma dec_digits_spec v :
  word_ok v →
  Forall (λ c, is_dec c = true) (dec_digits v) ∧ dec_value (dec_digits v) = v ∧
  (∃ c l, dec_digits v = c :: l ∧ (c ≠ chr "0" ∨ l = [])) ∧ zlen (dec_digits v) <= 10.
Proof.
  intros Hv. assert (v < 10 ^ Z.of_nat 10) as Hlt by (unfold word_ok in Hv; cbn; lia).
  pose proof (dec_loop_spec 10 v false ltac:(lia) Hv Hlt) as H.
  change (dec_loop (pow10_from 10) (10 - Z.of_nat 10) v false) with (dec_digits v) in H.
  cbv zeta in H. destruct H as (HF & HV & _ & HL). destruct (HL eq_refl) as [H1 H2]; [lia|].
  repeat split; auto.
Qed.

Lemma nonzero_false v : nonzero v = false → v = 0.
Proof. unfold nonzero. by intros ?%negb_false_iff%Z.eqb_eq. Qed.
Lemma nonzero_intro v : v ≠ 0 → nonzero v = true.
Proof. unfold nonzero. by intros ?%Z.eqb_neq%negb_true_iff. Qed.
Lemma nonzero_true v : nonzero v = true → v ≠ 0.
Proof. unfold nonzero. by intros ?%negb_true_iff%Z.eqb_neq. Qed.

(** ** Bit masks *)

(** A mask placed at bit [k] looks at the bits from [k] on. *)
Lemma land_shifted_mask w m k :
  0 <= k → Z.land w (Z.shiftl m k) = Z.shiftl (Z.land (Z.shiftr w k) m) k.
Proof.
  intros Hk. apply Z.bits_inj'. intros n Hn.
  rewrite Z.land_spec, !Z.shiftl_spec, Z.land_spec by done.
  destruct (Z_lt_le_dec n k).
  - rewrite !(Z.testbit_neg_r _ (n - k)) by lia. by rewrite andb_false_r.
  - rewrite Z.shiftr_spec by lia. by replace (n - k + k) with n by lia.
Qed.

Lemma land_mod v k : 0 <= k → Z.land v (2 ^ k - 1) = v mod 2 ^ k.
Proof. intros. rewrite <-Z.land_ones, Z.ones_equiv by done. done. Qed.

Lemma land_low v k m : 0 <= k → m = 2 ^ k - 1 → Z.land v m = v mod 2 ^ k.
Proof. intros ? ->. by apply land_mod. Qed.

(** [lor] of disjoint fields is concatenation. *)
Lemma lor_concat hi lo k :
  0 <= k → 0 <= lo < 2 ^ k → Z.lor (Z.shiftl hi k) lo = hi * 2 ^ k + lo.
Proof.
  intros Hk Hlo. rewrite <-Z.add_nocarry_lor.
  - by rewrite Z.shiftl_mul_pow2.
  - apply Z.bits_inj'. intros n Hn. rewrite Z.land_spec, Z.shiftl_spec, Z.bits_0 by done.
    destruct (Z_lt_le_dec n k).
    + by rewrite Z.testbit_neg_r by lia.
    + rewrite <-(Z.mod_small lo (2 ^ k)) by done.
      rewrite Z.mod_pow2_bits_high by lia. apply andb_false_r.
Qed.

Lemma land_byte_mask w k :
  0 <= k → Z.land w (Z.shiftl 255 k) = (w / 2 ^ k mod 256) * 2 ^ k.
Proof.
  intros Hk. rewrite land_shifted_mask, Z.shiftl_mul_pow2, Z.shiftr_div_pow2 by done.
  f_equal. by apply (land_low _ 8).
Qed.

(** The test of a single bit. *)
Lemma land_bit v k : 0 <= k → Z.land v (Z.shiftl 1 k) = b2z (Z.testbit v k) * 2 ^ k.
Proof.
  intros Hk. rewrite land_shifted_mask, Z.shiftl_mul_pow2 by done. f_equal.
  rewrite (land_low _ 1) by done. change (2 ^ 1) with 2.
  rewrite Zmod_odd, <-Z.bit0_odd, Z.shiftr_spec, Z.add_0_l by lia. done.
Qed.
Lemma nonzero_land_bit v k : 0 <= k → nonzero (Z.land v (Z.shiftl 1 k)) = Z.testbit v k.
Proof.
  intros Hk. rewrite land_bit by done. assert (0 < 2 ^ k) by (apply Z.pow_pos_nonneg; lia).
  unfold nonzero. destruct (Z.testbit v k); cbn; [|done].
  apply negb_true_iff, Z.eqb_neq. lia.
Qed.

Lemma land_byte_zero w k :
  0 <= k → (Z.land w (Z.shiftl 255 k) =? 0) = (w / 2 ^ k mod 256 =? 0).
Proof.
  intros Hk. rewrite land_byte_mask by done.
  assert (0 < 2 ^ k) by (apply Z.pow_pos_nonneg; lia).
  destruct (w / 2 ^ k mod 256 =? 0) eqn:E.
  - apply Z.eqb_eq in E. rewrite E. done.
  - apply Z.eqb_neq in E. apply Z.eqb_neq. pose proof (Z.mod_pos_bound (w / 2 ^ k) 256). nia.
Qed.

(** The first index of [lo, lo + n) where [f] answers. *)
Fixpoint find_first {A} (f : Z → option A) (lo : Z) (n : nat) : option A :=
  match n with
  | O => None
  | S n' => match f lo with Some a => Some a | None => find_first f (lo + 1) n' end
  end.

Lemma nth_zeros n i : nth i (replicate n 0) 0 = 0.
Proof. revert i. induction n; intros [|i]; simpl; auto. Qed.

Lemma find_first_none {A} (f : Z → option A) lo n :
  (∀ i, lo <= i < lo + Z.of_nat n → f i = None) → find_first f lo n = None.
Proof.
  revert lo. induction n as [|n IH]; intros lo H; [done|]. cbn [find_first].
  rewrite H by lia. apply IH. intros i Hi. apply H. lia.
Qed.

Lemma find_first_at {A} (f : Z → option A) lo n j a :
  lo <= j < lo + Z.of_nat n → (∀ i, lo <= i < j → f i = None) → f j = Some a →
  find_first f lo n = Some a.
Proof.
  revert lo. induction n as [|n IH]; intros lo Hj Hn Ha; [lia|]. cbn [find_first].
  destruct (decide (lo = j)) as [->|]; [by rewrite Ha|].
  rewrite Hn by lia. apply IH; [lia| |done]. intros i Hi. apply Hn. lia.
Qed.

(** Bits of a truncated value. *)
Lemma testbit_u32 v k : 0 <= k < 32 → Z.testbit (u32 v) k = Z.testbit v k.
Proof. intros. unfold u32. change 4294967296 with (2 ^ 32). apply Z.mod_pow2_bits_low. lia. Qed.
Lemma testbit_u8 v k : 0 <= k < 8 → Z.testbit (u8 v) k = Z.testbit v k.
Proof. intros. unfold u8. change 256 with (2 ^ 8). apply Z.mod_pow2_bits_low. lia. Qed.

(** Byte strings by computation. *)
Definition bytes_okb (l : list Z) : bool := forallb (λ b, (0 <=? b) && (b <? 256)) l.
Lemma bytes_okb_spec l : bytes_okb l = true → Forall byte_ok l.
Proof.
  unfold bytes_okb. rewrite forallb_forall. intros H. apply List.Forall_forall.
  intros b Hb. specialize (H b Hb). unfold byte_ok. lia.
Qed.

(** A word assembled from its bytes with shifts. *)
Lemma lor_bytes b0 b1 b2 b3 :
  byte_ok b0 → byte_ok b1 → byte_ok b2 → byte_ok b3 →
  u32 (b0 .<< (8 * 0)) .| u32 (b1 .<< (8 * 1)) .| u32 (b2 .<< (8 * 2)) .| u32 (b3 .<< (8 * 3)) =
  le_join [b0; b1; b2; b3].
Proof.
  unfold byte_ok. intros.
  assert (∀ b k, 0 <= b < 256 → 0 <= k <= 24 → u32 (b .<< k) = b .<< k) as Hu.
  { intros b k Hb Hk. apply u32_id. unfold word_ok. rewrite Z.shiftl_mul_pow2 by lia.
    assert (0 < 2 ^ k <= 2 ^ 24) by (split; [lia|apply Z.pow_le_mono_r; lia]).
    change (2 ^ 24) with 16777216 in *. nia. }
  assert (∀ a b k, 0 <= a < 2 ^ k → 0 <= k → a .| (b .<< k) = a + b * 2 ^ k) as Hl.
  { intros a b k Ha Hk. rewrite Z.lor_comm, lor_concat by done. lia. }
  rewrite !Hu by lia. change (8 * 0) with 0. rewrite Z.shiftl_0_r, (Hl b0) by (cbn; lia).
  rewrite (Hl _ b2) by (change (2 ^ (8 * 1)) with 256; change (2 ^ (8 * 2)) with 65536; lia).
  rewrite (Hl _ b3) by (change (2 ^ (8 * 1)) with 256; change (2 ^ (8 * 2)) with 65536;
                 change (2 ^ (8 * 3)) with 16777216; lia).
  change (2 ^ (8 * 1)) with 256. change (2 ^ (8 * 2)) with 65536.
  change (2 ^ (8 * 3)) with 16777216. cbn [le_join]. lia.
Qed.

Lemma lor_bytes_8 b0 b1 b2 b3 :
  byte_ok b0 → byte_ok b1 → byte_ok b2 → byte_ok b3 →
  b0 .| u32 (b1 .<< 8) .| u32 (b2 .<< 16) .| u32 (b3 .<< 24) = le_join [b0; b1; b2; b3].
Proof.
  intros. rewrite <-lor_bytes by done. change (8 * 0) with 0.
  rewrite Z.shiftl_0_r, (u32_id b0) by (unfold word_ok, byte_ok in *; lia). done.
Qed.
Lemma lor_bytes_small b0 b1 b2 b3 :
  byte_ok b0 → byte_ok b1 → byte_ok b2 → byte_ok b3 →
  b0 .| (b1 .<< 8) .| (b2 .<< 16) .| u32 (b3 .<< 24) = le_join [b0; b1; b2; b3].
Proof.
  intros. rewrite <-lor_bytes_8 by done. unfold byte_ok in *.
  rewrite (u32_id (b1 .<< 8)), (u32_id (b2 .<< 16))
    by (unfold word_ok; rewrite Z.shiftl_mul_pow2 by done; change (2 ^ 8) with 256; change (2 ^ 16) with 65536; lia).
  done.
Qed.

(** ** Arrays by integer index *)

Lemma znth_ok l i : Forall byte_ok l → byte_ok (znth l i).
Proof.
  intros Hl. unfold znth. destruct (nth_in_or_default (Z.to_nat i) l 0) as [H| ->]; [|done].
  rewrite List.Forall_forall in Hl. auto.
Qed.

Lemma znth_drop l i j : 0 <= i → 0 <= j → znth (drop (Z.to_nat i) l) j = znth l (i + j).
Proof.
  intros. unfold znth. rewrite Z2Nat.inj_add by done.
  generalize (Z.to_nat i) (Z.to_nat j). intros a b. revert l.
  induction a as [|a IH]; intros [|x l]; cbn; try done; first [by destruct b|apply IH].
Qed.

Lemma znth_take l n i : 0 <= i < n → znth (take (Z.to_nat n) l) i = znth l i.
Proof.
  intros Hi. unfold znth. rewrite <-(take_drop (Z.to_nat n) l) at 2.
  destruct (decide (Z.to_nat i < length (take (Z.to_nat n) l))%nat) as [Hlt|Hge].
  - by rewrite app_nth1.
  - rewrite length_take in Hge. rewrite !nth_overflow; [done|rewrite length_app, length_take, length_drop; lia|].
    rewrite length_take. lia.
Qed.

Lemma znth_app_l l k i : 0 <= i < zlen l → znth (l ++ k) i = znth l i.
Proof. intros Hi. unfold znth, zlen in *. by rewrite app_nth1 by lia. Qed.
Lemma znth_app_r l k i : zlen l <= i → znth (l ++ k) i = znth k (i - zlen l).
Proof.
  intros Hi. unfold znth, zlen in *. rewrite app_nth2 by lia. f_equal. lia.
Qed.
Lemma znth_zset_eq l i v : 0 <= i < zlen l → znth (zset l i v) i = v.
Proof.
  intros Hi. unfold znth, zset. rewrite nth_lookup, list_lookup_insert_eq; [done|]. unfold zlen in Hi. lia.
Qed.

Lemma znth_zset_ne l i j v : 0 <= i → 0 <= j → i ≠ j → znth (zset l i v) j = znth l j.
Proof. intros. unfold znth, zset. rewrite !nth_lookup, list_lookup_insert_ne; [done|lia]. Qed.

Lemma forallb_ext_in {A} (f g : A → bool) l : (∀ x, In x l → f x = g x) → forallb f l = forallb g l.
Proof.
  induction l as [|x l IH]; intros H; [done|]. cbn [forallb]. rewrite (H x) by by left.
  f_equal. apply IH. intros y Hy. apply H. by right.
Qed.

Lemma zlen_take {A} (l : list A) n : 0 <= n → zlen (take (Z.to_nat n) l) <= n.
Proof. intros. unfold zlen. rewrite length_take. lia. Qed.
Lemma take_short {A} (l : list A) n : zlen l <= n → take (Z.to_nat n) l = l.
Proof. unfold zlen. intros. apply firstn_all2. lia. Qed.
Lemma take_cut (l : list Z) n : zlen (take (Z.to_nat n) l) < n → take (Z.to_nat n) l = l.
Proof. unfold zlen. rewrite length_take. intros. apply firstn_all2. lia. Qed.
