(* ===== verification/Machine.v ===== *)
(** * Machine: the state monad, the bus, memory and devices

    Every image of the repository runs on the bare SoC: a C lvalue
    [*(volatile uint32_t * )addr] is a bus access.  An address inside DDR
    ([0x30000000, 0x34000000)) is memory; every other address is a device
    register, whose behaviour is not part of the sources and is therefore an
    instance of the class [Device], a parameter of all definitions.
    [log_device] wraps any device with a record of the accesses, so that the
    order of register accesses can be stated for every device. *)
From S2P Require Import Prelude.

(** ** A state monad *)

Definition M (S A : Type) : Type := S → A * S.

#[export] Instance M_ret S : MRet (M S) := λ A a s, (a, s).
#[export] Instance M_bind S : MBind (M S) := λ A B k m s, let '(a, s') := m s in k a s'.
#[export] Instance M_fmap S : FMap (M S) := λ A B f m s, let '(a, s') := m s in (f a, s').

Definition gets {S A} (f : S → A) : M S A := λ s, (f s, s).
Definition modify {S} (f : S → S) : M S unit := λ s, (tt, f s).
Definition skip {S} : M S unit := λ s, (tt, s).
Definition when {S} (c : bool) (m : M S unit) : M S unit := if c then m else skip.

(** [for (i = lo; i < lo + n; i++) body(i)] *)
Fixpoint for_range {S} (lo : Z) (n : nat) (body : Z → M S unit) : M S unit :=
  match n with
  | O => skip
  | Datatypes.S n' => body lo;; for_range (lo + 1) n' body
  end.
Definition for_to {S} (n : Z) (body : Z → M S unit) : M S unit :=
  for_range 0 (Z.to_nat n) body.

(** [for (i = 0; i < limit; i++) { if body answers Some a, leave with a }] *)
Definition spin {S A} (limit : Z) (body : M S (option A)) : M S (option A) := λ s,
  match iter_z limit (λ s, match body s with (None, s') => inl s' | (Some a, s') => inr (a, s') end) s with
  | inl s' => (None, s')
  | inr (a, s') => (Some a, s')
  end.

(** The same with the index available to the body. *)
Definition spin_i {S A} (limit : Z) (body : Z → M S (option A)) : M S (option A) := λ s,
  match iter_z limit (λ '(i, s), match body i s with
                                 | (None, s') => inl (i + 1, s')
                                 | (Some a, s') => inr (a, s') end) (0, s) with
  | inl (_, s') => (None, s')
  | inr (a, s') => (Some a, s')
  end.

(** ** Weakest preconditions *)

Definition wp {S A} (m : M S A) (Q : A → S → Prop) (s : S) : Prop :=
  Q (fst (m s)) (snd (m s)).

Section wp.
Context {S : Type}.
Implicit Types s : S.

Lemma wp_ret {A} (a : A) (Q : A → S → Prop) s : Q a s → wp (mret a) Q s.
Proof. done. Qed.
Lemma wp_skip (Q : unit → S → Prop) s : Q tt s → wp skip Q s.
Proof. done. Qed.
Lemma wp_gets {A} (f : S → A) (Q : A → S → Prop) s : Q (f s) s → wp (gets f) Q s.
Proof. done. Qed.
Lemma wp_modify f (Q : unit → S → Prop) s : Q tt (f s) → wp (modify f) Q s.
Proof. done. Qed.
Lemma wp_bind {A B} (m : M S A) (k : A → M S B) Q s :
  wp m (λ a s', wp (k a) Q s') s → wp (m ≫= k) Q s.
Proof. unfold wp, mbind, M_bind. by destruct (m s). Qed.
Lemma wp_bind_inv {A B} (m : M S A) (k : A → M S B) Q s :
  wp (m ≫= k) Q s → wp m (λ a s', wp (k a) Q s') s.
Proof. unfold wp, mbind, M_bind. by destruct (m s). Qed.
Lemma wp_when c (m : M S unit) Q s :
  (c = true → wp m Q s) → (c = false → Q tt s) → wp (when c m) Q s.
Proof. intros Ht Hf. destruct c; [by apply Ht|by apply Hf]. Qed.
Lemma wp_mono {A} (m : M S A) (Q Q' : A → S → Prop) s :
  wp m Q s → (∀ a s', Q a s' → Q' a s') → wp m Q' s.
Proof. unfold wp. auto. Qed.

Lemma wp_any {A} (m : M S A) (Q : A → S → Prop) s : (∀ a s', Q a s') → wp m Q s.
Proof. intros HQ. apply HQ. Qed.

(** The rule of a counted loop: [P i] holds before iteration [i]. *)
Lemma wp_for_range (P : Z → S → Prop) lo n body s :
  P lo s →
  (∀ i s, lo <= i < lo + Z.of_nat n → P i s → wp (body i) (λ _, P (i + 1)) s) →
  wp (for_range lo n body) (λ _, P (lo + Z.of_nat n)) s.
Proof.
  revert lo s. induction n as [|n IH]; intros lo s H0 Hb; cbn [for_range].
  - rewrite Z.add_0_r. done.
  - apply wp_bind. eapply wp_mono; [apply Hb; [lia|done]|].
    intros ? s' H1. cbn in H1.
    replace (lo + Z.of_nat (Datatypes.S n)) with (lo + 1 + Z.of_nat n) by lia.
    apply IH; [done|]. intros i s'' Hi. apply Hb. lia.
Qed.
End wp.

(** One step of a walk through a program. *)
Ltac wp_step :=
  lazymatch goal with
  | |- wp (mbind _ _) _ _ => apply wp_bind
  | |- wp (mret _) _ _ => apply wp_ret
  | |- wp skip _ _ => apply wp_skip
  | |- wp (gets _) _ _ => apply wp_gets
  | |- wp (modify _) _ _ => apply wp_modify
  | |- wp (when _ _) _ _ => apply wp_when; intros
  | |- wp (if ?c then _ else _) _ _ => destruct c eqn:?
  end.

(** A scan whose body reads but does not change the state. *)
Lemma spin_i_find {S A} n (body : Z → M S (option A)) (f : Z → option A) s :
  (∀ i, 0 <= i < n → body i s = (f i, s)) →
  spin_i n body s = (find_first f 0 (Z.to_nat n), s).
Proof.
  intros Hb. unfold spin_i. rewrite iter_z_nat.
  assert (∀ k i, 0 <= i → i + Z.of_nat k <= n →
    iter_nat k (λ '(i, s), match body i s with
                           | (None, s') => inl (i + 1, s')
                           | (Some a, s') => inr (a, s') end) (i, s) =
    match find_first f i k with Some a => inr (a, s) | None => inl (i + Z.of_nat k, s) end) as H.
  { induction k as [|k IH]; intros i Hi Hk; cbn [iter_nat find_first].
    - by rewrite Z.add_0_r.
    - rewrite Hb by lia. destruct (f i); [done|].
      rewrite IH by lia. destruct (find_first f (i + 1) k); [done|].
      f_equal; f_equal; lia. }
  destruct (Z_lt_le_dec 0 n).
  - rewrite H by lia. by destruct (find_first f 0 (Z.to_nat n)).
  - replace (Z.to_nat n) with O by lia. done.
Qed.

(** ** Relational invariants

    [steps R m]: every run of [m] relates its initial to its final state by
    the preorder [R].  Preservation of an invariant, frame properties and
    monotonicity of logs are all instances. *)

Definition steps {S A} (R : S → S → Prop) (m : M S A) : Prop := ∀ s, R s (snd (m s)).

Create HintDb steps.

Section steps.
Context {S : Type} (R : S → S → Prop) `{!PreOrder R}.

Lemma steps_ret {A} (a : A) : steps R (mret a).
Proof. intros s. cbn. reflexivity. Qed.
Lemma steps_skip : steps R skip.
Proof. intros s. cbn. reflexivity. Qed.
Lemma steps_gets {A} (f : S → A) : steps R (gets f).
Proof. intros s. cbn. reflexivity. Qed.
Lemma steps_bind {A B} (m : M S A) (k : A → M S B) :
  steps R m → (∀ a, steps R (k a)) → steps R (m ≫= k).
Proof.
  intros Hm Hk s. unfold mbind, M_bind. specialize (Hm s). destruct (m s) as [a s'].
  etransitivity; [exact Hm|apply Hk].
Qed.
Lemma steps_fmap {A B} (f : A → B) (m : M S A) : steps R m → steps R (f <$> m).
Proof. intros Hm s. unfold fmap, M_fmap. specialize (Hm s). by destruct (m s). Qed.
Lemma steps_when c m : steps R m → steps R (when c m).
Proof. destruct c; [done|]. intros _. apply steps_skip. Qed.
Lemma steps_if {A} (c : bool) (m k : M S A) : steps R m → steps R k → steps R (if c then m else k).
Proof. by destruct c. Qed.
Lemma steps_for lo n body : (∀ i, lo <= i → steps R (body i)) → steps R (for_range lo n body).
Proof.
  revert lo. induction n as [|n IH]; intros lo Hb; cbn [for_range].
  - apply steps_skip.
  - apply steps_bind; [apply Hb; lia|]. intros _. apply IH. intros. apply Hb. lia.
Qed.
Lemma steps_for_to n body : (∀ i, 0 <= i → steps R (body i)) → steps R (for_to n body).
Proof. intros. by apply steps_for. Qed.
Lemma steps_spin {A} n (body : M S (option A)) : steps R body → steps R (spin n body).
Proof.
  intros Hb s. unfold spin. rewrite iter_z_nat.
  pose proof (iter_nat_inv (λ s', R s s') (λ '(a, s'), R s s') (Z.to_nat n)
    (λ s, match body s with (None, s') => inl s' | (Some a, s') => inr (a, s') end) s) as H.
  match goal with |- context [iter_nat ?n ?f ?s] => destruct (iter_nat n f s) as [s'|[a s']] end;
    apply H; try reflexivity; clear H;
    intros s1 H1; specialize (Hb s1); destruct (body s1) as [[a'|] s2]; cbn in *;
    by etransitivity.
Qed.
Lemma steps_spin_i {A} n (body : Z → M S (option A)) :
  (∀ i, steps R (body i)) → steps R (spin_i n body).
Proof.
  intros Hb s. unfold spin_i. rewrite iter_z_nat.
  pose proof (iter_nat_inv (λ s', R s (snd s')) (λ '(a, s'), R s s') (Z.to_nat n)
    (λ '(i, s), match body i s with
                | (None, s') => inl (i + 1, s') | (Some a, s') => inr (a, s') end) (0, s)) as H.
  match goal with |- context [iter_nat ?n ?f ?s] =>
    destruct (iter_nat n f s) as [[i' s']|[a s']] end;
    apply H; try (cbn; reflexivity); clear H;
    intros [i1 s1] H1; specialize (Hb i1 s1); destruct (body i1 s1) as [[a'|] s2]; cbn in *;
    by etransitivity.
Qed.
End steps.

#[export] Hint Resolve steps_ret steps_skip steps_gets steps_bind steps_fmap steps_when steps_if
  steps_for steps_for_to steps_spin steps_spin_i : steps.

(** [steps_bind] with what is known of the intermediate result. *)
Lemma steps_bind_res {S A B} (R : S → S → Prop) `{!PreOrder R} (P : A → Prop) (m : M S A) (k : A → M S B) :
  steps R m → (∀ s, P (fst (m s))) → (∀ a, P a → steps R (k a)) → steps R (m ≫= k).
Proof.
  intros Hm HP Hk s. unfold mbind, M_bind. specialize (Hm s). specialize (HP s).
  destruct (m s) as [a s']. etransitivity; [exact Hm|by apply Hk].
Qed.

Lemma wp_steps {S A} (R : S → S → Prop) (m : M S A) (Q : A → S → Prop) s :
  steps R m → (∀ a s', R s s' → Q a s') → wp m Q s.
Proof. intros Hm HQ. apply HQ, Hm. Qed.

(** A counted loop whose body knows its bounds. *)
Lemma steps_for_lt {S} (R : S → S → Prop) `{!PreOrder R} lo n (body : Z → M S unit) :
  (∀ i, lo <= i < lo + Z.of_nat n → steps R (body i)) → steps R (for_range lo n body).
Proof.
  revert lo. induction n as [|n IH]; intros lo Hb; cbn [for_range]; [apply (steps_skip R)|].
  apply (steps_bind R); [apply Hb; lia|intros ?]. apply IH. intros i Hi. apply Hb. lia.
Qed.

(** Walk through a program, proving [steps] of its parts; [tac] for the leaves. *)
Ltac steps_walk tac :=
  repeat (intros; cbv zeta beta;
    lazymatch goal with
    | |- PreOrder _ => apply _
    | |- steps _ (mbind _ _) => apply steps_bind
    | |- steps _ (fmap _ _) => apply steps_fmap
    | |- steps _ (when _ _) => apply steps_when
    | |- steps _ (if ?c then _ else _) => first [apply steps_if | destruct c]
    | |- steps _ (for_to _ _) => apply steps_for_to
    | |- steps _ (for_range _ _ _) => apply steps_for
    | |- steps _ (spin _ _) => apply steps_spin
    | |- steps _ (spin_i _ _) => apply steps_spin_i
    | |- steps _ (match ?x with _ => _ end) => destruct x
    | |- steps _ _ => solve [tac]
    end).

(** ** Memory, devices and the bus *)

Inductive width := W8 | W16 | W32.

Definition nbytes (w : width) : nat :=
  match w with W8 => 1 | W16 => 2 | W32 => 4 end%nat.

Definition wtrunc (w : width) (v : Z) : Z :=
  match w with W8 => u8 v | W16 => u16 v | W32 => u32 v end.

Class Device (D : Type) := {
  dev_read : width → Z → D → Z * D;
  dev_write : width → Z → Z → D → D;
}.

(** The device of the examples: reads answer 0, writes do nothing. *)
Definition null_device : Device unit := {|
  dev_read _ _ d := (0, d);
  dev_write _ _ _ d := d;
|}.

Abbreviation mem := (gmap Z Z).

Definition mget (m : mem) (a : Z) : Z := u8 (default 0 (m !! a)).
Definition mset (m : mem) (a v : Z) : mem := <[a := u8 v]> m.

Fixpoint mset_list (m : mem) (a : Z) (l : list Z) : mem :=
  match l with
  | [] => m
  | x :: l' => mset_list (mset m a x) (a + 1) l'
  end.

Fixpoint mget_list (m : mem) (a : Z) (n : nat) : list Z :=
  match n with
  | O => []
  | S n' => mget m a :: mget_list m (a + 1) n'
  end.

Record machine (D : Type) := Machine { ram : mem; dev : D }.
Arguments Machine {D} _ _.
Arguments ram {D} _.
Arguments dev {D} _.

Definition DDR_BASE : Z := 0x30000000.
Definition DDR_END : Z := 0x34000000.
Definition in_ddr (a : Z) : bool := (DDR_BASE <=? a) && (a <? DDR_END).

Definition bus_read {D} `{!Device D} (w : width) (a : Z) (m : machine D) : Z * machine D :=
  if in_ddr a then (le_join (mget_list (ram m) a (nbytes w)), m)
  else let '(v, d) := dev_read w a (dev m) in (wtrunc w v, Machine (ram m) d).

Definition bus_write {D} `{!Device D} (w : width) (a v : Z) (m : machine D) : machine D :=
  if in_ddr a then Machine (mset_list (ram m) a (le_split (nbytes w) v)) (dev m)
  else Machine (ram m) (dev_write w a (wtrunc w v) (dev m)).

(** The static state of an image contains one machine. *)
Class HasMachine (S D : Type) := {
  machine_of : S → machine D;
  set_machine : machine D → S → S;
  machine_of_set m s : machine_of (set_machine m s) = m;
  set_machine_of s : set_machine (machine_of s) s = s;
  set_machine_set m m' s : set_machine m (set_machine m' s) = set_machine m s;
}.
#[export] Hint Mode HasMachine ! - : typeclass_instances.

Section bus.
Context {S D : Type} `{!HasMachine S D, !Device D}.

Definition rd (w : width) (a : Z) : M S Z := λ s,
  let '(v, m) := bus_read w a (machine_of s) in (v, set_machine m s).
Definition wr (w : width) (a v : Z) : M S unit := λ s,
  (tt, set_machine (bus_write w a v (machine_of s)) s).
Definition rmw (w : width) (a : Z) (f : Z → Z) : M S unit := v ← rd w a; wr w a (f v).

Lemma steps_rd (R : S → S → Prop) w a :
  (∀ m s, R s (set_machine m s)) → steps R (rd w a).
Proof. intros HR s. unfold rd. destruct (bus_read w a _). apply HR. Qed.
Lemma steps_wr (R : S → S → Prop) w a v :
  (∀ m s, R s (set_machine m s)) → steps R (wr w a v).
Proof. intros HR s. apply HR. Qed.
(** Register accesses leave memory alone. *)
Definition dev_frame (R : S → S → Prop) : Prop :=
  ∀ d s, R s (set_machine (Machine (ram (machine_of s)) d) s).
Lemma steps_rd_dev (R : S → S → Prop) w a :
  in_ddr a = false → dev_frame R → steps R (rd w a).
Proof. intros Ha HR s. unfold rd, bus_read. rewrite Ha. destruct (dev_read w a _). apply HR. Qed.
Lemma steps_wr_dev (R : S → S → Prop) w a v :
  in_ddr a = false → dev_frame R → steps R (wr w a v).
Proof. intros Ha HR s. unfold wr, bus_write. rewrite Ha. apply HR. Qed.
Lemma steps_rmw_dev (R : S → S → Prop) `{!PreOrder R} w a f :
  in_ddr a = false → dev_frame R → steps R (rmw w a f).
Proof.
  intros Ha HR. apply (steps_bind R); [by apply steps_rd_dev|intros ?; by apply steps_wr_dev].
Qed.
Lemma steps_rmw (R : S → S → Prop) `{!PreOrder R} w a f :
  (∀ m s, R s (set_machine m s)) → steps R (rmw w a f).
Proof. intros HR. unfold rmw. apply (steps_bind R); [by apply steps_rd|intros ?; by apply steps_wr]. Qed.
End bus.

Abbreviation rd8 := (rd W8).
Abbreviation rd16 := (rd W16).
Abbreviation rd32 := (rd W32).
Abbreviation wr8 := (wr W8).
Abbreviation wr16 := (wr W16).
Abbreviation wr32 := (wr W32).

#[export] Hint Resolve steps_rd steps_wr steps_rmw : steps.

(** *** Memory laws *)

Lemma mget_ok m a : byte_ok (mget m a).
Proof. apply u8_range. Qed.
#[export] Hint Resolve mget_ok : aipc.

Lemma mget_mset_eq m a v : mget (mset m a v) a = u8 v.
Proof. unfold mget, mset. rewrite lookup_insert_eq. apply u8_u8. Qed.
Lemma mget_mset_ne m a a' v : a ≠ a' → mget (mset m a v) a' = mget m a'.
Proof. intros. unfold mget, mset. by rewrite lookup_insert_ne. Qed.

Lemma mget_mset_list_out m a l a' :
  a' < a ∨ a + zlen l <= a' → mget (mset_list m a l) a' = mget m a'.
Proof.
  revert m a. induction l as [|x l IH]; intros m a Ha; simpl; [done|].
  rewrite zlen_cons in Ha. pose proof (zlen_nonneg l).
  rewrite IH by lia. apply mget_mset_ne. lia.
Qed.

Lemma mget_mset_list_in m a l i :
  (i < length l)%nat → mget (mset_list m a l) (a + Z.of_nat i) = u8 (nth i l 0).
Proof.
  revert m a i. induction l as [|x l IH]; intros m a i Hi; simpl in *; [lia|].
  destruct i as [|i].
  - rewrite Z.add_0_r, mget_mset_list_out, mget_mset_eq by lia. done.
  - replace (a + Z.of_nat (Datatypes.S i)) with (a + 1 + Z.of_nat i) by lia.
    apply IH. lia.
Qed.

Lemma mget_list_length m a n : length (mget_list m a n) = n.
Proof. revert a. induction n; intros; simpl; auto. Qed.
Lemma mget_list_ok m a n : Forall byte_ok (mget_list m a n).
Proof. revert a. induction n; intros; simpl; constructor; auto with aipc. Qed.
#[export] Hint Resolve mget_list_ok : aipc.

Lemma mget_list_ext m m' a n :
  (∀ x, a <= x < a + Z.of_nat n → mget m x = mget m' x) →
  mget_list m a n = mget_list m' a n.
Proof.
  revert a. induction n as [|n IH]; intros a H; simpl; [done|].
  rewrite (H a), (IH (a + 1)) by (try lia; intros; apply H; lia). done.
Qed.

Lemma mget_list_mset_list m a l :
  Forall byte_ok l → mget_list (mset_list m a l) a (length l) = l.
Proof.
  intros Hl. revert m a. induction Hl as [|x l Hx Hl IH]; intros m a; simpl; [done|].
  rewrite IH. f_equal.
  rewrite mget_mset_list_out by lia. rewrite mget_mset_eq. by apply u8_id.
Qed.

Lemma mget_list_app m a n k :
  mget_list m a (n + k) = mget_list m a n ++ mget_list m (a + Z.of_nat n) k.
Proof.
  revert a. induction n as [|n IH]; intros a; simpl.
  - by rewrite Z.add_0_r.
  - rewrite IH. by replace (a + 1 + Z.of_nat n) with (a + Z.of_nat (Datatypes.S n)) by lia.
Qed.

Lemma mset_list_app m a l k :
  mset_list m a (l ++ k) = mset_list (mset_list m a l) (a + zlen l) k.
Proof.
  revert m a. induction l as [|x l IH]; intros m a; simpl.
  - by rewrite Z.add_0_r.
  - rewrite IH, zlen_cons. by replace (a + (1 + zlen l)) with (a + 1 + zlen l) by lia.
Qed.

Lemma mget_mset_list m a l x :
  mget (mset_list m a l) x =
  if (a <=? x) && (x <? a + zlen l) then u8 (nth (Z.to_nat (x - a)) l 0) else mget m x.
Proof.
  destruct ((a <=? x) && (x <? a + zlen l)) eqn:E.
  - replace x with (a + Z.of_nat (Z.to_nat (x - a))) at 1 by lia.
    apply mget_mset_list_in. unfold zlen in E. lia.
  - apply mget_mset_list_out. lia.
Qed.

Lemma mget_list_nth m a n i : (i < n)%nat → nth i (mget_list m a n) 0 = mget m (a + Z.of_nat i).
Proof.
  revert a i. induction n as [|n IH]; intros a i Hi; [lia|].
  destruct i as [|i]; cbn [mget_list nth]; [by rewrite Z.add_0_r|].
  rewrite IH by lia. f_equal. lia.
Qed.

(** Copying a word copies its four bytes. *)
Lemma mget_word_copy m a b x :
  mget (mset_list m b (le_split 4 (le_join (mget_list m a 4)))) x =
  if (b <=? x) && (x <? b + 4) then mget m (x - b + a) else mget m x.
Proof.
  rewrite mget_mset_list. unfold zlen. rewrite le_split_length. change (Z.of_nat 4) with 4.
  destruct ((b <=? x) && (x <? b + 4)) eqn:E; [|done].
  rewrite (le_split_join _ (mget_list_ok m a 4) : le_split 4 (le_join (mget_list m a 4)) = _).
  rewrite mget_list_nth by lia. rewrite u8_id by apply mget_ok. f_equal. lia.
Qed.

Lemma wtrunc_range w v : 0 <= wtrunc w v < 256 ^ Z.of_nat (nbytes w).
Proof. destruct w; cbn; [apply u8_range|apply u16_range|apply u32_range]. Qed.

Lemma rd_range {S D} `{!Device D, !HasMachine S D} w a (s : S) :
  0 <= fst (rd w a s) < 256 ^ Z.of_nat (nbytes w).
Proof.
  unfold rd, bus_read. destruct (in_ddr a).
  - cbn. pose proof (le_join_bound _ (mget_list_ok (ram (machine_of s)) a (nbytes w))) as H.
    unfold zlen in H. by rewrite mget_list_length in H.
  - destruct (dev_read w a _). cbn. apply wtrunc_range.
Qed.

(** *** Recording device *)

Inductive io := IoRd (w : width) (a v : Z) | IoWr (w : width) (a v : Z).

Record logged (D : Type) := Logged { base_dev : D; iolog : list io }.
Arguments Logged {D} _ _.
Arguments base_dev {D} _.
Arguments iolog {D} _.

#[export] Instance log_device {D} `{!Device D} : Device (logged D) := {|
  dev_read w a l := let '(v, d) := dev_read w a (base_dev l) in
                    (v, Logged d (iolog l ++ [IoRd w a (wtrunc w v)]));
  dev_write w a v l := Logged (dev_write w a v (base_dev l)) (iolog l ++ [IoWr w a v]);
|}.

Definition is_wr (e : io) : bool := match e with IoWr _ _ _ => true | _ => false end.
Definition writes (l : list io) : list io := List.filter is_wr l.

Lemma writes_app l k : writes (l ++ k) = writes l ++ writes k.
Proof. apply List.filter_app. Qed.

(** *** Replaying the accesses on an observer

    [gwp step m Q c s]: every run of [m] from [s] makes accesses that take an
    observer of the bus from [c] to a state that, with the result and the final
    state, satisfies [Q].  The observer is an abstract model of the peripheral
    that [step]s on each access; the device itself is arbitrary. *)
Section replay.
Context {S D C : Type} `{!Device D, !HasMachine S (logged D)} (step : C → io → C).
Implicit Types (s : S) (c : C).

Definition log_of (s : S) : list io := iolog (dev (machine_of s)).
Definition replay (c : C) (l : list io) : C := fold_left step l c.

Definition gwp {A} (m : M S A) (Q : A → C → S → Prop) (c : C) (s : S) : Prop :=
  ∃ l, log_of (snd (m s)) = log_of s ++ l ∧ Q (fst (m s)) (replay c l) (snd (m s)).

Lemma gwp_quiet {A} (m : M S A) Q c s :
  log_of (snd (m s)) = log_of s → Q (fst (m s)) c (snd (m s)) → gwp m Q c s.
Proof. intros Hl HQ. exists []. by rewrite app_nil_r. Qed.
Lemma gwp_ret {A} (a : A) Q c s : Q a c s → gwp (mret a) Q c s.
Proof. intros. by apply gwp_quiet. Qed.
Lemma gwp_skip Q c s : Q tt c s → gwp skip Q c s.
Proof. intros. by apply gwp_quiet. Qed.
Lemma gwp_gets {A} (f : S → A) Q c s : Q (f s) c s → gwp (gets f) Q c s.
Proof. intros. by apply gwp_quiet. Qed.
Lemma gwp_modify f Q c s : log_of (f s) = log_of s → Q tt c (f s) → gwp (modify f) Q c s.
Proof. intros. by apply gwp_quiet. Qed.
Lemma gwp_bind {A B} (m : M S A) (k : A → M S B) Q c s :
  gwp m (λ a c', gwp (k a) Q c') c s → gwp (m ≫= k) Q c s.
Proof.
  intros (l & Hl & l' & Hl' & HQ). unfold gwp, mbind, M_bind in *.
  destruct (m s) as [a s']; cbn in *. exists (l ++ l').
  unfold replay in *. rewrite fold_left_app. split; [|done].
  rewrite Hl', Hl. by rewrite app_assoc.
Qed.
Lemma gwp_mono {A} (m : M S A) (Q Q' : A → C → S → Prop) c s :
  gwp m Q c s → (∀ a c' s', Q a c' s' → Q' a c' s') → gwp m Q' c s.
Proof. intros (l & Hl & HQ) HQQ. exists l. auto. Qed.
Lemma gwp_when b m Q c s :
  (b = true → gwp m Q c s) → (b = false → Q tt c s) → gwp (when b m) Q c s.
Proof. intros Ht Hf. destruct b; [by apply Ht|by apply gwp_skip, Hf]. Qed.

Lemma gwp_wr w a v Q c s :
  in_ddr a = false →
  (∀ m, ram m = ram (machine_of s) → Q tt (step c (IoWr w a (wtrunc w v))) (set_machine m s)) →
  gwp (wr w a v) Q c s.
Proof.
  intros Ha HQ. exists [IoWr w a (wtrunc w v)]. split.
  - unfold wr, log_of, bus_write. rewrite Ha. cbn. by rewrite machine_of_set.
  - cbn. apply HQ. unfold bus_write. by rewrite Ha.
Qed.
Lemma gwp_rd w a Q c s :
  in_ddr a = false →
  (∀ v m, ram m = ram (machine_of s) → Q v (step c (IoRd w a v)) (set_machine m s)) →
  gwp (rd w a) Q c s.
Proof.
  intros Ha HQ. unfold gwp, rd, log_of, bus_read. rewrite Ha. cbn.
  destruct (dev_read w a _) as [v d]. cbn. rewrite machine_of_set. cbn.
  eexists. split; [done|]. cbn. by apply HQ.
Qed.
Lemma gwp_for_range (I : Z → C → S → Prop) lo n body c s :
  I lo c s →
  (∀ i c s, lo <= i < lo + Z.of_nat n → I i c s → gwp (body i) (λ _, I (i + 1)) c s) →
  gwp (for_range lo n body) (λ _, I (lo + Z.of_nat n)) c s.
Proof.
  revert lo c s. induction n as [|n IH]; intros lo c s H0 Hb; cbn [for_range].
  - rewrite Z.add_0_r. by apply gwp_skip.
  - apply gwp_bind. eapply gwp_mono; [apply Hb; [lia|done]|].
    intros ? c' s' H1. cbn in H1.
    replace (lo + Z.of_nat (Datatypes.S n)) with (lo + 1 + Z.of_nat n) by lia.
    apply IH; [done|]. intros i c'' s'' Hi. apply Hb. lia.
Qed.
Lemma gwp_for_to (I : Z → C → S → Prop) n body c s :
  0 <= n → I 0 c s →
  (∀ i c s, 0 <= i < n → I i c s → gwp (body i) (λ _, I (i + 1)) c s) →
  gwp (for_to n body) (λ _, I n) c s.
Proof.
  intros Hn H0 Hb. unfold for_to.
  pose proof (gwp_for_range I 0 (Z.to_nat n) body c s H0) as H.
  rewrite Z.add_0_l, Z2Nat.id in H by done. apply H. intros. apply Hb; [lia|done].
Qed.
Lemma gwp_spin {A} (I : C → S → Prop) (P : A → Prop) n (body : M S (option A)) c s :
  I c s →
  (∀ c s, I c s → gwp body (λ a c' s', I c' s' ∧ ∀ x, a = Some x → P x) c s) →
  gwp (spin n body) (λ a c' s', I c' s' ∧ ∀ x, a = Some x → P x) c s.
Proof.
  intros H0 Hb. unfold gwp, spin. rewrite iter_z_nat.
  pose proof (iter_nat_inv
    (λ s', ∃ l, log_of s' = log_of s ++ l ∧ I (replay c l) s')
    (λ '(a, s'), ∃ l, log_of s' = log_of s ++ l ∧ I (replay c l) s' ∧ P a) (Z.to_nat n)
    (λ s, match body s with (None, s') => inl s' | (Some a, s') => inr (a, s') end) s) as H.
  assert (∃ l, log_of s = log_of s ++ l ∧ I (replay c l) s) as Hs
    by (exists []; by rewrite app_nil_r).
  cbn beta in H. specialize (λ Hf, H Hf Hs).
  match goal with |- context [iter_nat ?n ?f ?s] => destruct (iter_nat n f s) as [s'|[a s']] end;
    cbn; destruct H as (l & Hl & HI).
  1, 3: intros s1 (l & Hl & HI); destruct (Hb _ _ HI) as (l1 & Hl1 & HI1 & HP);
    destruct (body s1) as [[a'|] s2]; cbn in *; exists (l ++ l1);
    unfold replay in *; rewrite fold_left_app, Hl1, Hl, app_assoc; auto.
  - exists l. split_and!; auto. by intros ? [=].
  - destruct HI as [HI HP]. exists l. split_and!; auto. by intros ? [= <-].
Qed.
End replay.

Ltac gwp_step :=
  lazymatch goal with
  | |- gwp _ (mbind _ _) _ _ _ => apply gwp_bind
  | |- gwp _ (mret _) _ _ _ => apply gwp_ret
  | |- gwp _ skip _ _ _ => apply gwp_skip
  | |- gwp _ (gets _) _ _ _ => apply gwp_gets
  | |- gwp _ (modify _) _ _ _ => apply gwp_modify; [reflexivity|]
  | |- gwp _ (when _ _) _ _ _ => apply gwp_when; intros
  | |- gwp _ (wr _ _ _) _ _ _ => apply gwp_wr; [reflexivity|intros]
  | |- gwp _ (rd _ _) _ _ _ => apply gwp_rd; [reflexivity|intros]
  end.

(** ** Accesses to DDR *)

Lemma in_ddr_true a : DDR_BASE <= a < DDR_END → in_ddr a = true.
Proof. unfold in_ddr. lia. Qed.
Lemma in_ddr_false a : a < DDR_BASE ∨ DDR_END <= a → in_ddr a = false.
Proof. unfold in_ddr. lia. Qed.

Section ddr.
Context {S D : Type} `{!Device D, !HasMachine S D}.

Lemma wp_rd_ddr w a (Q : Z → S → Prop) s :
  in_ddr a = true → Q (le_join (mget_list (ram (machine_of s)) a (nbytes w))) s →
  wp (rd w a) Q s.
Proof. intros Ha HQ. unfold wp, rd, bus_read. rewrite Ha. cbn. by rewrite set_machine_of. Qed.

Lemma wp_wr_ddr w a v (Q : unit → S → Prop) s :
  in_ddr a = true →
  Q tt (set_machine (Machine (mset_list (ram (machine_of s)) a (le_split (nbytes w) v))
                             (dev (machine_of s))) s) →
  wp (wr w a v) Q s.
Proof. intros Ha HQ. unfold wp, wr, bus_write. by rewrite Ha. Qed.
End ddr.
