(* ===== verification/GdbState.v ===== *)
(** * GdbState: the static variables of the gdbstub image

    One record per source file of [src/baremetal/gdbstub] (trace.c, musb.c,
    rsp.c), with the names of the C variables, and the record [stub] of the
    whole image, which also contains the machine (memory and devices).  The
    buffers [g_cmd] and [g_out] are lists whose length is [g_cmd_len] and
    [g_out_len]. *)
From S2P Require Import Prelude Machine.

(** trace.c: the write position and the end of the live log. *)
Record trace_st := TraceSt {
  g_put : Z;
  g_end : Z;
}.

Definition set_g_put (v : Z) (s : trace_st) : trace_st :=
  TraceSt v (g_end s).
Definition set_g_end (v : Z) (s : trace_st) : trace_st :=
  TraceSt (g_put s) v.

(** musb.c *)
Record musb_st := MusbSt {
  g_ep0_buf : list Z;
  g_ep0_remaining : Z;
  g_ep0_offset : Z;
  g_ep0_out_remaining : Z;
  g_ep0_out_offset : Z;
  g_line_coding : list Z;
  g_line_state : Z;
  g_events : Z;
  g_ep0_chunks : Z;
  g_high_speed : Z;
  g_bulk_maxp : Z;
  g_stat_reset : Z;
  g_stat_setup : Z;
  g_stat_stall : Z;
  g_stat_out : Z;
  g_stat_in : Z;
  g_stat_txdrop : Z;
  g_rx_buf : list Z;
}.

Definition set_g_ep0_buf (v : list Z) (s : musb_st) : musb_st :=
  MusbSt v (g_ep0_remaining s) (g_ep0_offset s) (g_ep0_out_remaining s) (g_ep0_out_offset s) (g_line_coding s) (g_line_state s) (g_events s) (g_ep0_chunks s) (g_high_speed s) (g_bulk_maxp s) (g_stat_reset s) (g_stat_setup s) (g_stat_stall s) (g_stat_out s) (g_stat_in s) (g_stat_txdrop s) (g_rx_buf s).
Definition set_g_ep0_remaining (v : Z) (s : musb_st) : musb_st :=
  MusbSt (g_ep0_buf s) v (g_ep0_offset s) (g_ep0_out_remaining s) (g_ep0_out_offset s) (g_line_coding s) (g_line_state s) (g_events s) (g_ep0_chunks s) (g_high_speed s) (g_bulk_maxp s) (g_stat_reset s) (g_stat_setup s) (g_stat_stall s) (g_stat_out s) (g_stat_in s) (g_stat_txdrop s) (g_rx_buf s).
Definition set_g_ep0_offset (v : Z) (s : musb_st) : musb_st :=
  MusbSt (g_ep0_buf s) (g_ep0_remaining s) v (g_ep0_out_remaining s) (g_ep0_out_offset s) (g_line_coding s) (g_line_state s) (g_events s) (g_ep0_chunks s) (g_high_speed s) (g_bulk_maxp s) (g_stat_reset s) (g_stat_setup s) (g_stat_stall s) (g_stat_out s) (g_stat_in s) (g_stat_txdrop s) (g_rx_buf s).
Definition set_g_ep0_out_remaining (v : Z) (s : musb_st) : musb_st :=
  MusbSt (g_ep0_buf s) (g_ep0_remaining s) (g_ep0_offset s) v (g_ep0_out_offset s) (g_line_coding s) (g_line_state s) (g_events s) (g_ep0_chunks s) (g_high_speed s) (g_bulk_maxp s) (g_stat_reset s) (g_stat_setup s) (g_stat_stall s) (g_stat_out s) (g_stat_in s) (g_stat_txdrop s) (g_rx_buf s).
Definition set_g_ep0_out_offset (v : Z) (s : musb_st) : musb_st :=
  MusbSt (g_ep0_buf s) (g_ep0_remaining s) (g_ep0_offset s) (g_ep0_out_remaining s) v (g_line_coding s) (g_line_state s) (g_events s) (g_ep0_chunks s) (g_high_speed s) (g_bulk_maxp s) (g_stat_reset s) (g_stat_setup s) (g_stat_stall s) (g_stat_out s) (g_stat_in s) (g_stat_txdrop s) (g_rx_buf s).
Definition set_g_line_coding (v : list Z) (s : musb_st) : musb_st :=
  MusbSt (g_ep0_buf s) (g_ep0_remaining s) (g_ep0_offset s) (g_ep0_out_remaining s) (g_ep0_out_offset s) v (g_line_state s) (g_events s) (g_ep0_chunks s) (g_high_speed s) (g_bulk_maxp s) (g_stat_reset s) (g_stat_setup s) (g_stat_stall s) (g_stat_out s) (g_stat_in s) (g_stat_txdrop s) (g_rx_buf s).
Definition set_g_line_state (v : Z) (s : musb_st) : musb_st :=
  MusbSt (g_ep0_buf s) (g_ep0_remaining s) (g_ep0_offset s) (g_ep0_out_remaining s) (g_ep0_out_offset s) (g_line_coding s) v (g_events s) (g_ep0_chunks s) (g_high_speed s) (g_bulk_maxp s) (g_stat_reset s) (g_stat_setup s) (g_stat_stall s) (g_stat_out s) (g_stat_in s) (g_stat_txdrop s) (g_rx_buf s).
Definition set_g_events (v : Z) (s : musb_st) : musb_st :=
  MusbSt (g_ep0_buf s) (g_ep0_remaining s) (g_ep0_offset s) (g_ep0_out_remaining s) (g_ep0_out_offset s) (g_line_coding s) (g_line_state s) v (g_ep0_chunks s) (g_high_speed s) (g_bulk_maxp s) (g_stat_reset s) (g_stat_setup s) (g_stat_stall s) (g_stat_out s) (g_stat_in s) (g_stat_txdrop s) (g_rx_buf s).
Definition set_g_ep0_chunks (v : Z) (s : musb_st) : musb_st :=
  MusbSt (g_ep0_buf s) (g_ep0_remaining s) (g_ep0_offset s) (g_ep0_out_remaining s) (g_ep0_out_offset s) (g_line_coding s) (g_line_state s) (g_events s) v (g_high_speed s) (g_bulk_maxp s) (g_stat_reset s) (g_stat_setup s) (g_stat_stall s) (g_stat_out s) (g_stat_in s) (g_stat_txdrop s) (g_rx_buf s).
Definition set_g_high_speed (v : Z) (s : musb_st) : musb_st :=
  MusbSt (g_ep0_buf s) (g_ep0_remaining s) (g_ep0_offset s) (g_ep0_out_remaining s) (g_ep0_out_offset s) (g_line_coding s) (g_line_state s) (g_events s) (g_ep0_chunks s) v (g_bulk_maxp s) (g_stat_reset s) (g_stat_setup s) (g_stat_stall s) (g_stat_out s) (g_stat_in s) (g_stat_txdrop s) (g_rx_buf s).
Definition set_g_bulk_maxp (v : Z) (s : musb_st) : musb_st :=
  MusbSt (g_ep0_buf s) (g_ep0_remaining s) (g_ep0_offset s) (g_ep0_out_remaining s) (g_ep0_out_offset s) (g_line_coding s) (g_line_state s) (g_events s) (g_ep0_chunks s) (g_high_speed s) v (g_stat_reset s) (g_stat_setup s) (g_stat_stall s) (g_stat_out s) (g_stat_in s) (g_stat_txdrop s) (g_rx_buf s).
Definition set_g_stat_reset (v : Z) (s : musb_st) : musb_st :=
  MusbSt (g_ep0_buf s) (g_ep0_remaining s) (g_ep0_offset s) (g_ep0_out_remaining s) (g_ep0_out_offset s) (g_line_coding s) (g_line_state s) (g_events s) (g_ep0_chunks s) (g_high_speed s) (g_bulk_maxp s) v (g_stat_setup s) (g_stat_stall s) (g_stat_out s) (g_stat_in s) (g_stat_txdrop s) (g_rx_buf s).
Definition set_g_stat_setup (v : Z) (s : musb_st) : musb_st :=
  MusbSt (g_ep0_buf s) (g_ep0_remaining s) (g_ep0_offset s) (g_ep0_out_remaining s) (g_ep0_out_offset s) (g_line_coding s) (g_line_state s) (g_events s) (g_ep0_chunks s) (g_high_speed s) (g_bulk_maxp s) (g_stat_reset s) v (g_stat_stall s) (g_stat_out s) (g_stat_in s) (g_stat_txdrop s) (g_rx_buf s).
Definition set_g_stat_stall (v : Z) (s : musb_st) : musb_st :=
  MusbSt (g_ep0_buf s) (g_ep0_remaining s) (g_ep0_offset s) (g_ep0_out_remaining s) (g_ep0_out_offset s) (g_line_coding s) (g_line_state s) (g_events s) (g_ep0_chunks s) (g_high_speed s) (g_bulk_maxp s) (g_stat_reset s) (g_stat_setup s) v (g_stat_out s) (g_stat_in s) (g_stat_txdrop s) (g_rx_buf s).
Definition set_g_stat_out (v : Z) (s : musb_st) : musb_st :=
  MusbSt (g_ep0_buf s) (g_ep0_remaining s) (g_ep0_offset s) (g_ep0_out_remaining s) (g_ep0_out_offset s) (g_line_coding s) (g_line_state s) (g_events s) (g_ep0_chunks s) (g_high_speed s) (g_bulk_maxp s) (g_stat_reset s) (g_stat_setup s) (g_stat_stall s) v (g_stat_in s) (g_stat_txdrop s) (g_rx_buf s).
Definition set_g_stat_in (v : Z) (s : musb_st) : musb_st :=
  MusbSt (g_ep0_buf s) (g_ep0_remaining s) (g_ep0_offset s) (g_ep0_out_remaining s) (g_ep0_out_offset s) (g_line_coding s) (g_line_state s) (g_events s) (g_ep0_chunks s) (g_high_speed s) (g_bulk_maxp s) (g_stat_reset s) (g_stat_setup s) (g_stat_stall s) (g_stat_out s) v (g_stat_txdrop s) (g_rx_buf s).
Definition set_g_stat_txdrop (v : Z) (s : musb_st) : musb_st :=
  MusbSt (g_ep0_buf s) (g_ep0_remaining s) (g_ep0_offset s) (g_ep0_out_remaining s) (g_ep0_out_offset s) (g_line_coding s) (g_line_state s) (g_events s) (g_ep0_chunks s) (g_high_speed s) (g_bulk_maxp s) (g_stat_reset s) (g_stat_setup s) (g_stat_stall s) (g_stat_out s) (g_stat_in s) v (g_rx_buf s).
Definition set_g_rx_buf (v : list Z) (s : musb_st) : musb_st :=
  MusbSt (g_ep0_buf s) (g_ep0_remaining s) (g_ep0_offset s) (g_ep0_out_remaining s) (g_ep0_out_offset s) (g_line_coding s) (g_line_state s) (g_events s) (g_ep0_chunks s) (g_high_speed s) (g_bulk_maxp s) (g_stat_reset s) (g_stat_setup s) (g_stat_stall s) (g_stat_out s) (g_stat_in s) (g_stat_txdrop s) v.

(** rsp.h, [struct arm_regs]. *)
Record arm_regs := ArmRegs {
  r_low : list Z;  (** r0 to r12 *)
  r_sp : Z;
  r_lr : Z;
  r_pc : Z;
  r_cpsr : Z;
}.

Definition set_r_low (v : list Z) (s : arm_regs) : arm_regs :=
  ArmRegs v (r_sp s) (r_lr s) (r_pc s) (r_cpsr s).
Definition set_r_sp (v : Z) (s : arm_regs) : arm_regs :=
  ArmRegs (r_low s) v (r_lr s) (r_pc s) (r_cpsr s).
Definition set_r_lr (v : Z) (s : arm_regs) : arm_regs :=
  ArmRegs (r_low s) (r_sp s) v (r_pc s) (r_cpsr s).
Definition set_r_pc (v : Z) (s : arm_regs) : arm_regs :=
  ArmRegs (r_low s) (r_sp s) (r_lr s) v (r_cpsr s).
Definition set_r_cpsr (v : Z) (s : arm_regs) : arm_regs :=
  ArmRegs (r_low s) (r_sp s) (r_lr s) (r_pc s) v.

(** One slot of [g_bp] in rsp.c. *)
Record bp_slot := BpSlot { bp_addr : Z; bp_saved : Z; bp_active : bool }.

(** [enum { ST_IDLE, ST_BODY, ST_CSUM1, ST_CSUM2 }] *)
Inductive fstate := ST_IDLE | ST_BODY | ST_CSUM1 | ST_CSUM2.
#[export] Instance fstate_eq_dec : EqDecision fstate.
Proof. solve_decision. Defined.

(** rsp.c *)
Record rsp_st := RspSt {
  g_regs : arm_regs;
  g_cmd : list Z;
  g_out : list Z;
  g_body_start : Z;
  g_state : fstate;
  g_sum : Z;
  g_csum_hi : Z;
  g_traced : Z;
  g_last_sig : Z;
  g_bp : list bp_slot;
  g_step_addr : Z;
  g_step_saved : Z;
  g_step_active : bool;
}.

Definition set_g_regs (v : arm_regs) (s : rsp_st) : rsp_st :=
  RspSt v (g_cmd s) (g_out s) (g_body_start s) (g_state s) (g_sum s) (g_csum_hi s) (g_traced s) (g_last_sig s) (g_bp s) (g_step_addr s) (g_step_saved s) (g_step_active s).
Definition set_g_cmd (v : list Z) (s : rsp_st) : rsp_st :=
  RspSt (g_regs s) v (g_out s) (g_body_start s) (g_state s) (g_sum s) (g_csum_hi s) (g_traced s) (g_last_sig s) (g_bp s) (g_step_addr s) (g_step_saved s) (g_step_active s).
Definition set_g_out (v : list Z) (s : rsp_st) : rsp_st :=
  RspSt (g_regs s) (g_cmd s) v (g_body_start s) (g_state s) (g_sum s) (g_csum_hi s) (g_traced s) (g_last_sig s) (g_bp s) (g_step_addr s) (g_step_saved s) (g_step_active s).
Definition set_g_body_start (v : Z) (s : rsp_st) : rsp_st :=
  RspSt (g_regs s) (g_cmd s) (g_out s) v (g_state s) (g_sum s) (g_csum_hi s) (g_traced s) (g_last_sig s) (g_bp s) (g_step_addr s) (g_step_saved s) (g_step_active s).
Definition set_g_state (v : fstate) (s : rsp_st) : rsp_st :=
  RspSt (g_regs s) (g_cmd s) (g_out s) (g_body_start s) v (g_sum s) (g_csum_hi s) (g_traced s) (g_last_sig s) (g_bp s) (g_step_addr s) (g_step_saved s) (g_step_active s).
Definition set_g_sum (v : Z) (s : rsp_st) : rsp_st :=
  RspSt (g_regs s) (g_cmd s) (g_out s) (g_body_start s) (g_state s) v (g_csum_hi s) (g_traced s) (g_last_sig s) (g_bp s) (g_step_addr s) (g_step_saved s) (g_step_active s).
Definition set_g_csum_hi (v : Z) (s : rsp_st) : rsp_st :=
  RspSt (g_regs s) (g_cmd s) (g_out s) (g_body_start s) (g_state s) (g_sum s) v (g_traced s) (g_last_sig s) (g_bp s) (g_step_addr s) (g_step_saved s) (g_step_active s).
Definition set_g_traced (v : Z) (s : rsp_st) : rsp_st :=
  RspSt (g_regs s) (g_cmd s) (g_out s) (g_body_start s) (g_state s) (g_sum s) (g_csum_hi s) v (g_last_sig s) (g_bp s) (g_step_addr s) (g_step_saved s) (g_step_active s).
Definition set_g_last_sig (v : Z) (s : rsp_st) : rsp_st :=
  RspSt (g_regs s) (g_cmd s) (g_out s) (g_body_start s) (g_state s) (g_sum s) (g_csum_hi s) (g_traced s) v (g_bp s) (g_step_addr s) (g_step_saved s) (g_step_active s).
Definition set_g_bp (v : list bp_slot) (s : rsp_st) : rsp_st :=
  RspSt (g_regs s) (g_cmd s) (g_out s) (g_body_start s) (g_state s) (g_sum s) (g_csum_hi s) (g_traced s) (g_last_sig s) v (g_step_addr s) (g_step_saved s) (g_step_active s).
Definition set_g_step_addr (v : Z) (s : rsp_st) : rsp_st :=
  RspSt (g_regs s) (g_cmd s) (g_out s) (g_body_start s) (g_state s) (g_sum s) (g_csum_hi s) (g_traced s) (g_last_sig s) (g_bp s) v (g_step_saved s) (g_step_active s).
Definition set_g_step_saved (v : Z) (s : rsp_st) : rsp_st :=
  RspSt (g_regs s) (g_cmd s) (g_out s) (g_body_start s) (g_state s) (g_sum s) (g_csum_hi s) (g_traced s) (g_last_sig s) (g_bp s) (g_step_addr s) v (g_step_active s).
Definition set_g_step_active (v : bool) (s : rsp_st) : rsp_st :=
  RspSt (g_regs s) (g_cmd s) (g_out s) (g_body_start s) (g_state s) (g_sum s) (g_csum_hi s) (g_traced s) (g_last_sig s) (g_bp s) (g_step_addr s) (g_step_saved s) v.

(** The image. *)
Record stub (D : Type) := Stub {
  st_mach : machine D;
  st_trace : trace_st;
  st_musb : musb_st;
  st_rsp : rsp_st;
}.
Arguments Stub {D} _ _ _ _.
Arguments st_mach {D} _.
Arguments st_trace {D} _.
Arguments st_musb {D} _.
Arguments st_rsp {D} _.

Definition set_st_mach {D : Type} (v : machine D) (s : stub D) : stub D :=
  Stub v (st_trace s) (st_musb s) (st_rsp s).
Definition set_st_trace {D : Type} (v : trace_st) (s : stub D) : stub D :=
  Stub (st_mach s) v (st_musb s) (st_rsp s).
Definition set_st_musb {D : Type} (v : musb_st) (s : stub D) : stub D :=
  Stub (st_mach s) (st_trace s) v (st_rsp s).
Definition set_st_rsp {D : Type} (v : rsp_st) (s : stub D) : stub D :=
  Stub (st_mach s) (st_trace s) (st_musb s) v.

#[export] Instance stub_machine D : HasMachine (stub D) D.
Proof.
  refine {| machine_of := st_mach; set_machine := set_st_mach |}; by intros ? *; try destruct s.
Defined.

Section access.
Context {D : Type}.
Definition getT {A} (f : trace_st → A) : M (stub D) A := gets (λ s, f (st_trace s)).
Definition getU {A} (f : musb_st → A) : M (stub D) A := gets (λ s, f (st_musb s)).
Definition getR {A} (f : rsp_st → A) : M (stub D) A := gets (λ s, f (st_rsp s)).
Definition updT (f : trace_st → trace_st) : M (stub D) unit :=
  modify (λ s, set_st_trace (f (st_trace s)) s).
Definition updU (f : musb_st → musb_st) : M (stub D) unit :=
  modify (λ s, set_st_musb (f (st_musb s)) s).
Definition updR (f : rsp_st → rsp_st) : M (stub D) unit :=
  modify (λ s, set_st_rsp (f (st_rsp s)) s).
End access.

(** How a call ends: it returns, or [rsp_resume] has branched to the target
    program and the call never returns. *)
Inductive ctl := Returned | Resumed.
#[export] Instance ctl_eq_dec : EqDecision ctl.
Proof. solve_decision. Defined.

(** Only the USB driver and the devices have moved: the frame of the bulk
    transport, on which the protocol layer relies. *)
Definition usb_only {D} (s s' : stub D) : Prop :=
  st_rsp s' = st_rsp s ∧ st_trace s' = st_trace s ∧ ram (st_mach s') = ram (st_mach s).

#[export] Instance usb_only_preorder D : PreOrder (@usb_only D).
Proof.
  split; [done|]. intros s1 s2 s3 (H1 & H2 & H3) (H4 & H5 & H6). split_and!; congruence.
Qed.

(** The bulk transport of the protocol layer ([musb_bulk_send]): its operation,
    with the address and the bytes of the buffer, and its frame. *)
Class Transport (D : Type) := {
  bulk_send : Z → list Z → M (stub D) unit;
  bulk_send_frame al data s : usb_only s (snd (bulk_send al data s));
}.

(** Concrete images, for the examples: an empty log, devices that do nothing. *)
Definition example_regs (pc cpsr : Z) : arm_regs := ArmRegs (replicate 13 0) 0x30100000 0 pc cpsr.
Definition example_stub {D} (d : D) (m : mem) (u : musb_st) (r : rsp_st) : stub D :=
  Stub (Machine m d) (TraceSt 0x301C0000 0x301CFFFF) u r.
Definition null_transport : Transport unit :=
  {| bulk_send _ _ := mret tt; bulk_send_frame _ _ s := conj eq_refl (conj eq_refl eq_refl) |}.
Definition example_musb : musb_st := MusbSt [] 0 0 0 0 [] 0 0 0 0 64 0 0 0 0 0 0 [].
Definition example_rsp (g : arm_regs) (pl : list bp_slot) : rsp_st :=
  RspSt g [] [] 0 ST_IDLE 0 0 0 5 pl 0 0 false.
