(* ===== verification/Trace.v ===== *)
(** * Trace: the log of the gdbstub ([src/baremetal/gdbstub/trace.c])

    The live log is a linear window of DDR at [TRACE_BASE]; [trace_init] moves
    the log of the previous run to [TRACE_PREV].  Theorems: no operation
    writes outside the window, output is appended, and the length that
    [trace_prev_used] finds from the terminator is the length that the
    previous run had written. *)
From S2P Require Import Prelude Machine GdbState.

Definition TRACE_BASE : Z := 0x301C0000.
Definition TRACE_PREV : Z := 0x301D0000.
Definition TRACE_SIZE : Z := 0x00010000.

Section Trace.
Context {D : Type} `{!Device D}.
Abbreviation St := (stub D).

Definition trace_init : M St unit :=
  for_to (TRACE_SIZE / 4) (λ i,
    live ← rd32 (TRACE_BASE + 4 * i);
    wr32 (TRACE_PREV + 4 * i) live;;
    wr32 (TRACE_BASE + 4 * i) 0);;
  updT (set_g_put TRACE_BASE);;
  updT (set_g_end (TRACE_BASE + TRACE_SIZE - 1)).

Definition trace_putc (c : Z) : M St unit :=
  put ← getT g_put;
  fin ← getT g_end;
  when (put <? fin) (wr8 put c;; updT (set_g_put (put + 1))).

(** A C string: the walk stops at a NUL byte or at the end of the list. *)
Fixpoint trace_puts (s : list Z) : M St unit :=
  match s with
  | [] => skip
  | c :: s' => if c =? 0 then skip else trace_putc c;; trace_puts s'
  end.

Definition digit_upper (d : Z) : Z := znth (bytes_of "0123456789ABCDEF") d.

Fixpoint trace_hex (value : Z) (digits : nat) : M St unit :=
  match digits with
  | O => skip
  | S i => trace_putc (digit_upper ((value .>> (Z.of_nat i * 4)) .& 0xF));; trace_hex value i
  end.

Fixpoint trace_puts_raw (s : list Z) : M St unit :=
  match s with
  | [] => skip
  | c :: s' => trace_putc c;; trace_puts_raw s'
  end.

Definition trace_dec (value : Z) : M St unit := trace_puts_raw (dec_digits value).

Definition trace_used : M St Z := put ← getT g_put; mret (put - TRACE_BASE).

(** The first zero byte of a word, if any. *)
Definition first_zero (i w : Z) : option Z :=
  if (w .& 0x000000FF) =? 0 then Some (i * 4)
  else if (w .& 0x0000FF00) =? 0 then Some (i * 4 + 1)
  else if (w .& 0x00FF0000) =? 0 then Some (i * 4 + 2)
  else if (w .& 0xFF000000) =? 0 then Some (i * 4 + 3)
  else None.

Definition trace_prev_used : M St Z :=
  r ← spin_i (TRACE_SIZE / 4) (λ i, w ← rd32 (TRACE_PREV + 4 * i); mret (first_zero i w));
  mret (default TRACE_SIZE r).

Definition trace_reg (name : list Z) (value : Z) : M St unit :=
  trace_puts name;;
  trace_puts (bytes_of "=0x");;
  trace_hex value 8;;
  trace_putc 10.


(** ** Correctness *)

(** After [trace_init] the write position is inside the window. *)
Definition trace_ok (s : St) : Prop :=
  TRACE_BASE <= g_put (st_trace s) <= g_end (st_trace s) ∧
  g_end (st_trace s) = TRACE_BASE + TRACE_SIZE - 1.

(** The bytes written so far. *)
Definition log_text (s : St) : list Z :=
  mget_list (ram (st_mach s)) TRACE_BASE (Z.to_nat (g_put (st_trace s) - TRACE_BASE)).

(** Reference: append as much of [l] as there is room for. *)
Definition trace_append (l : list Z) (s : St) : St :=
  let put := g_put (st_trace s) in
  let l' := take (Z.to_nat (g_end (st_trace s) - put)) l in
  set_st_trace (set_g_put (put + zlen l') (st_trace s))
    (set_st_mach (Machine (mset_list (ram (st_mach s)) put l') (dev (st_mach s))) s).

Fixpoint hex_upper (v : Z) (n : nat) : list Z :=
  match n with
  | O => []
  | S i => digit_upper ((v .>> (Z.of_nat i * 4)) .& 0xF) :: hex_upper v i
  end.

Lemma trace_append_nil s : trace_append [] s = s.
Proof.
  unfold trace_append. rewrite take_nil. cbn. rewrite Z.add_0_r.
  by destruct s as [[? ?] [? ?] ? ?].
Qed.

Lemma trace_append_ok l s : trace_ok s → trace_ok (trace_append l s).
Proof.
  unfold trace_ok, trace_append. cbn. intros [H1 H2].
  unfold zlen. rewrite length_take. lia.
Qed.

Lemma trace_append_app l k s :
  trace_ok s → trace_append (l ++ k) s = trace_append k (trace_append l s).
Proof.
  intros [Hp _]. unfold trace_append at 1 3. cbn.
  set (put := g_put (st_trace s)) in *. set (e := g_end (st_trace s)) in *.
  rewrite take_app. set (l' := take (Z.to_nat (e - put)) l).
  assert (Z.to_nat (e - put) - length l = Z.to_nat (e - (put + zlen l')))%nat as ->.
  { unfold l', zlen. rewrite length_take. lia. }
  rewrite mset_list_app, zlen_app, Z.add_assoc. done.
Qed.

Lemma trace_putc_run c s : trace_ok s → trace_putc c s = (tt, trace_append [c] s).
Proof.
  intros [Hp He]. unfold trace_putc, getT, gets, mbind, M_bind, when, trace_append. cbn.
  set (put := g_put (st_trace s)) in *. set (e := g_end (st_trace s)) in *.
  destruct (put <? e) eqn:E.
  - apply Z.ltb_lt in E. unfold wr, bus_write.
    rewrite in_ddr_true by (unfold TRACE_BASE, TRACE_SIZE, DDR_BASE, DDR_END in *; lia).
    destruct (Z.to_nat (e - put)) as [|n] eqn:En; [lia|]. cbn.
    rewrite take_nil. unfold mset. by rewrite u8_u8.
  - apply Z.ltb_ge in E. replace (Z.to_nat (e - put)) with O by lia. cbn.
    rewrite Z.add_0_r. by destruct s as [[? ?] [? ?] ? ?].
Qed.

Lemma trace_puts_raw_run l s : trace_ok s → trace_puts_raw l s = (tt, trace_append l s).
Proof.
  revert s. induction l as [|c l IH]; intros s Hs; cbn [trace_puts_raw].
  - by rewrite trace_append_nil.
  - unfold mbind, M_bind. rewrite trace_putc_run by done.
    rewrite IH by by apply trace_append_ok.
    rewrite <-trace_append_app by done. done.
Qed.

Lemma trace_hex_run v n s : trace_ok s → trace_hex v n s = (tt, trace_append (hex_upper v n) s).
Proof.
  revert s. induction n as [|n IH]; intros s Hs; cbn [trace_hex hex_upper].
  - by rewrite trace_append_nil.
  - unfold mbind, M_bind. rewrite trace_putc_run by done.
    rewrite IH by by apply trace_append_ok.
    rewrite <-trace_append_app by done. done.
Qed.

Lemma trace_puts_run l s :
  Forall (λ c, c ≠ 0) l → trace_puts l s = trace_puts_raw l s.
Proof.
  intros Hl. revert s. induction Hl as [|c l Hc Hl IH]; intros s; cbn; [done|].
  rewrite (proj2 (Z.eqb_neq c 0)) by done. unfold mbind, M_bind.
  destruct (trace_putc c s). apply IH.
Qed.

(** *** The window *)

Lemma trace_append_outside l s a :
  trace_ok s → a < TRACE_BASE ∨ TRACE_BASE + TRACE_SIZE - 1 <= a →
  mget (ram (st_mach (trace_append l s))) a = mget (ram (st_mach s)) a.
Proof.
  intros [Hp He] Ha. unfold trace_append. cbn. apply mget_mset_list_out.
  unfold zlen. rewrite length_take. lia.
Qed.

Lemma trace_append_text l s :
  trace_ok s → Forall byte_ok l →
  log_text (trace_append l s) =
    log_text s ++ take (Z.to_nat (TRACE_BASE + TRACE_SIZE - 1 - g_put (st_trace s))) l.
Proof.
  intros [Hp He] Hl. unfold log_text, trace_append. cbn.
  rewrite He. set (put := g_put (st_trace s)) in *.
  set (l' := take _ l).
  assert (Forall byte_ok l') as Hl' by (by apply Forall_take).
  replace (Z.to_nat (put + zlen l' - TRACE_BASE))
    with (Z.to_nat (put - TRACE_BASE) + length l')%nat by (unfold zlen; lia).
  rewrite mget_list_app. f_equal.
  - apply mget_list_ext. intros x Hx. apply mget_mset_list_out. lia.
  - replace (TRACE_BASE + Z.of_nat (Z.to_nat (put - TRACE_BASE))) with put by lia.
    by apply mget_list_mset_list.
Qed.

Lemma digit_upper_ok d : byte_ok (digit_upper d).
Proof.
  unfold digit_upper, znth. destruct (nth_in_or_default (Z.to_nat d) (bytes_of "0123456789ABCDEF") 0) as [H| ->].
  - pose proof (bytes_of_ok "0123456789ABCDEF") as HF. rewrite List.Forall_forall in HF. auto.
  - done.
Qed.
Lemma hex_upper_ok v n : Forall byte_ok (hex_upper v n).
Proof. induction n; cbn [hex_upper]; constructor; auto using digit_upper_ok. Qed.

(** Relations that ignore bus accesses and the log. *)
Class Quiet (R : St → St → Prop) := {
  quiet_preorder :: PreOrder R;
  quiet_rd w a : steps R (rd w a);
  quiet_wr w a v : steps R (wr w a v);
  quiet_trace t s : R s (set_st_trace t s);
}.

Lemma quiet_intro (R : St → St → Prop) :
  PreOrder R → (∀ m s, R s (set_machine m s)) → (∀ t s, R s (set_st_trace t s)) → Quiet R.
Proof. split; auto; intros; [by apply steps_rd|by apply steps_wr]. Qed.

Section quiet.
Context (R : St → St → Prop) `{!Quiet R}.
Lemma quiet_updT f : steps R (updT f).
Proof. intros s. apply quiet_trace. Qed.
Lemma quiet_rmw w a f : steps R (rmw w a f).
Proof. apply steps_bind; [apply _|apply quiet_rd|intros; apply quiet_wr]. Qed.
Ltac quiet := steps_walk ltac:(first [apply quiet_updT|apply quiet_rd|apply quiet_wr|apply quiet_rmw
  |apply steps_ret; apply _|apply steps_skip; apply _|apply steps_gets; apply _|assumption]).
Lemma quiet_putc c : steps R (trace_putc c).
Proof. unfold trace_putc, getT. quiet. Qed.
Ltac quiet ::= steps_walk ltac:(first [apply quiet_putc|apply steps_skip; apply _|assumption]).
Lemma quiet_raw l : steps R (trace_puts_raw l).
Proof. induction l; cbn [trace_puts_raw]; quiet. Qed.
Lemma quiet_puts l : steps R (trace_puts l).
Proof. induction l; cbn [trace_puts]; quiet. Qed.
Lemma quiet_hex v n : steps R (trace_hex v n).
Proof. induction n; cbn [trace_hex]; quiet. Qed.
Lemma quiet_dec v : steps R (trace_dec v).
Proof. apply quiet_raw. Qed.
Lemma quiet_reg n v : steps R (trace_reg n v).
Proof.
  unfold trace_reg.
  steps_walk ltac:(auto using quiet_puts, quiet_hex, quiet_putc).
Qed.
End quiet.

(** What every output function does to the rest of the image: nothing. *)
Definition logs (s s' : St) : Prop :=
  trace_ok s →
  trace_ok s' ∧ dev (st_mach s') = dev (st_mach s) ∧ st_musb s' = st_musb s ∧ st_rsp s' = st_rsp s ∧
  ∀ a, a < TRACE_BASE ∨ TRACE_BASE + TRACE_SIZE - 1 <= a →
       mget (ram (st_mach s')) a = mget (ram (st_mach s)) a.

#[export] Instance logs_preorder : PreOrder logs.
Proof.
  split.
  - by intros s Hs.
  - intros s1 s2 s3 H12 H23 H1. destruct (H12 H1) as (H2 & Hd & Hu & Hr & Hm).
    destruct (H23 H2) as (H3 & Hd' & Hu' & Hr' & Hm').
    split_and!; try congruence; try done. intros a Ha. by rewrite Hm', Hm.
Qed.

Lemma steps_logs_putc c : steps logs (trace_putc c).
Proof.
  intros s Hs. rewrite trace_putc_run by done. cbn [snd].
  split_and!; try done; [by apply trace_append_ok|]. intros. by apply trace_append_outside.
Qed.
Lemma steps_logs_raw l : steps logs (trace_puts_raw l).
Proof. induction l; cbn; eauto using steps_logs_putc with steps typeclass_instances. Qed.
Lemma steps_logs_puts l : steps logs (trace_puts l).
Proof.
  induction l; cbn; [eauto with steps typeclass_instances|].
  destruct (_ =? 0); eauto using steps_logs_putc with steps typeclass_instances.
Qed.
Lemma steps_logs_hex v n : steps logs (trace_hex v n).
Proof. induction n; cbn; eauto using steps_logs_putc with steps typeclass_instances. Qed.
Lemma steps_logs_dec v : steps logs (trace_dec v).
Proof. apply steps_logs_raw. Qed.
Lemma steps_logs_reg n v : steps logs (trace_reg n v).
Proof.
  unfold trace_reg.
  eauto using steps_logs_putc, steps_logs_puts, steps_logs_hex with steps typeclass_instances.
Qed.

(** [trace_reg name v] appends the text [name=0xVVVVVVVV] and a newline, cut at the end of
    the window, and changes nothing else: no byte outside the window, no
    device register, no variable of the USB or protocol layers. *)
Theorem trace_reg_appends name v s :
  trace_ok s → Forall (λ c, c ≠ 0) name → Forall byte_ok name →
  let s' := snd (trace_reg name v s) in
  let room := Z.to_nat (TRACE_BASE + TRACE_SIZE - 1 - g_put (st_trace s)) in
  log_text s' = log_text s ++ take room (name ++ bytes_of "=0x" ++ hex_upper v 8 ++ [10]) ∧
  trace_ok s' ∧
  (∀ a, a < TRACE_BASE ∨ TRACE_BASE + TRACE_SIZE - 1 <= a →
        mget (ram (st_mach s')) a = mget (ram (st_mach s)) a) ∧
  dev (st_mach s') = dev (st_mach s) ∧ st_musb s' = st_musb s ∧ st_rsp s' = st_rsp s.
Proof.
  intros Hok Hnz Hby. cbv zeta.
  assert (snd (trace_reg name v s) =
    trace_append (name ++ bytes_of "=0x" ++ hex_upper v 8 ++ [10]) s) as ->.
  { unfold trace_reg, mbind, M_bind.
    rewrite trace_puts_run, trace_puts_raw_run by done.
    rewrite trace_puts_run by (repeat constructor; done).
    rewrite trace_puts_raw_run by by apply trace_append_ok.
    rewrite trace_hex_run by by repeat apply trace_append_ok.
    rewrite trace_putc_run by by repeat apply trace_append_ok.
    rewrite !trace_append_app by by repeat apply trace_append_ok. done. }
  split; [apply trace_append_text; [done|]|].
  { rewrite !Forall_app. repeat split; auto using hex_upper_ok with aipc. by repeat constructor. }
  split; [by apply trace_append_ok|]. split; [intros; by apply trace_append_outside|done].
Qed.


(** *** The log of the previous run *)

Lemma trace_init_spec s :
  let s' := snd (trace_init s) in
  (∀ a, mget (ram (st_mach s')) a =
    if (TRACE_PREV <=? a) && (a <? TRACE_PREV + TRACE_SIZE)
    then mget (ram (st_mach s)) (a - TRACE_PREV + TRACE_BASE)
    else if (TRACE_BASE <=? a) && (a <? TRACE_BASE + TRACE_SIZE) then 0
    else mget (ram (st_mach s)) a) ∧
  dev (st_mach s') = dev (st_mach s) ∧ st_musb s' = st_musb s ∧ st_rsp s' = st_rsp s ∧
  st_trace s' = TraceSt TRACE_BASE (TRACE_BASE + TRACE_SIZE - 1).
Proof.
  cbv zeta.
  pose (P := λ i (s' : St), (∀ a, mget (ram (st_mach s')) a =
    if (TRACE_PREV <=? a) && (a <? TRACE_PREV + 4 * i)
    then mget (ram (st_mach s)) (a - TRACE_PREV + TRACE_BASE)
    else if (TRACE_BASE <=? a) && (a <? TRACE_BASE + 4 * i) then 0
    else mget (ram (st_mach s)) a) ∧
  dev (st_mach s') = dev (st_mach s) ∧ st_musb s' = st_musb s ∧ st_rsp s' = st_rsp s).
  enough (wp trace_init (λ _ s', P 16384 s' ∧
            st_trace s' = TraceSt TRACE_BASE (TRACE_BASE + TRACE_SIZE - 1)) s) as H.
  { destruct H as [(H1 & H2 & H3 & H4) H5]. split_and!; assumption. }
  unfold trace_init, for_to.
  apply wp_bind. eapply wp_mono.
  { apply (wp_for_range P 0 (Z.to_nat (TRACE_SIZE / 4))).
    - split_and!; [|done..]. intros a.
      rewrite !Z.mul_0_r, !Z.add_0_r.
      destruct ((TRACE_PREV <=? a) && (a <? TRACE_PREV)) eqn:E1; [lia|].
      destruct ((TRACE_BASE <=? a) && (a <? TRACE_BASE)) eqn:E2; [lia|]. done.
    - intros i s1 Hi (Hm & Hd & Hu & Hr).
      change (TRACE_SIZE / 4) with 16384 in Hi.
      apply wp_bind, wp_rd_ddr; [apply in_ddr_true; unfold TRACE_BASE, DDR_BASE, DDR_END; lia|].
      apply wp_bind, wp_wr_ddr; [apply in_ddr_true; unfold TRACE_PREV, DDR_BASE, DDR_END; lia|].
      apply wp_wr_ddr; [apply in_ddr_true; unfold TRACE_BASE, DDR_BASE, DDR_END; lia|].
      split_and!; [|done..]. intros a. cbn [machine_of stub_machine st_mach set_machine set_st_mach ram nbytes].
      change (le_split 4 0) with (replicate 4 0).
      rewrite mget_mset_list, nth_zeros. change (zlen (replicate 4 0)) with 4.
      change (u8 0) with 0.
      rewrite mget_word_copy, !Hm.
      unfold TRACE_BASE, TRACE_PREV in *.
      repeat match goal with |- context [if ?c then _ else _] => destruct c eqn:? end;
        try lia; f_equal; lia. }
  intros [] s1 HP. cbn. done.
Qed.


(** The live log is well formed: text without NUL bytes, zeros behind it. *)
Definition live_ok (s : St) : Prop :=
  trace_ok s ∧
  (∀ a, TRACE_BASE <= a < g_put (st_trace s) → mget (ram (st_mach s)) a ≠ 0) ∧
  (∀ a, g_put (st_trace s) <= a < TRACE_BASE + TRACE_SIZE → mget (ram (st_mach s)) a = 0).

Lemma trace_append_live l s :
  live_ok s → Forall (λ c, 0 < c < 256) l → live_ok (trace_append l s).
Proof.
  intros (Hok & Hnz & Hz) Hl. split; [by apply trace_append_ok|].
  destruct Hok as [Hp He]. unfold trace_append. cbn.
  set (put := g_put (st_trace s)) in *. set (l' := take _ l).
  assert (Forall (λ c, 0 < c < 256) l') as Hl' by (by apply Forall_take).
  pose proof (zlen_nonneg l').
  split; intros a Ha; rewrite mget_mset_list;
    destruct ((put <=? a) && (a <? put + zlen l')) eqn:E; try lia; [|apply Hnz; lia|apply Hz; lia].
  rewrite List.Forall_forall in Hl'.
  assert (0 < nth (Z.to_nat (a - put)) l' 0 < 256) as Hb.
  { apply Hl', nth_In. unfold zlen in E. lia. }
  rewrite u8_id by (unfold byte_ok; lia). lia.
Qed.

Lemma first_zero_bytes i b0 b1 b2 b3 :
  byte_ok b0 → byte_ok b1 → byte_ok b2 → byte_ok b3 →
  first_zero i (le_join [b0; b1; b2; b3]) =
  if b0 =? 0 then Some (i * 4) else if b1 =? 0 then Some (i * 4 + 1)
  else if b2 =? 0 then Some (i * 4 + 2) else if b3 =? 0 then Some (i * 4 + 3) else None.
Proof.
  unfold byte_ok. intros. unfold first_zero.
  rewrite (land_byte_zero _ 0), (land_byte_zero _ 8), (land_byte_zero _ 16), (land_byte_zero _ 24) by lia.
  cbn [le_join]. change (2 ^ 0) with 1. change (2 ^ 8) with 256. change (2 ^ 16) with 65536.
  change (2 ^ 24) with 16777216.
  set (w := b0 + _).
  assert (w / 1 mod 256 = b0 ∧ w / 256 mod 256 = b1 ∧ w / 65536 mod 256 = b2 ∧
          w / 16777216 mod 256 = b3) as (-> & -> & -> & ->) by (unfold w; zlia).
  done.
Qed.

(** The same over four consecutive bytes of memory. *)
Lemma first_zero_none i m a :
  (∀ k, 0 <= k < 4 → mget m (a + k) ≠ 0) → first_zero i (le_join (mget_list m a 4)) = None.
Proof.
  intros Hk. cbn [mget_list]. rewrite first_zero_bytes by apply mget_ok.
  pose proof (Hk 0) as H0. pose proof (Hk 1) as H1.
  pose proof (Hk 2) as H2. pose proof (Hk 3) as H3. clear Hk.
  rewrite Z.add_0_r in H0. rewrite <-!Z.add_assoc. change (1 + (1 + 1)) with 3. change (1 + 1) with 2.
  rewrite !(proj2 (Z.eqb_neq _ _)) by auto with lia. done.
Qed.

Lemma first_zero_some i m a j :
  0 <= j < 4 → (∀ k, 0 <= k < j → mget m (a + k) ≠ 0) → mget m (a + j) = 0 →
  first_zero i (le_join (mget_list m a 4)) = Some (i * 4 + j).
Proof.
  intros Hj Hk H0. cbn [mget_list]. rewrite first_zero_bytes by apply mget_ok.
  rewrite <-!Z.add_assoc. change (1 + (1 + 1)) with 3. change (1 + 1) with 2.
  assert (j = 0 ∨ j = 1 ∨ j = 2 ∨ j = 3) as [-> |[-> |[-> | ->]]] by lia;
    repeat match goal with
    | |- context [mget m a =? 0] =>
        first [ rewrite Z.add_0_r in H0; rewrite H0
              | rewrite (proj2 (Z.eqb_neq (mget m a) 0)) by (rewrite <-(Z.add_0_r a); apply Hk; lia) ]
    | |- context [mget m (a + ?k) =? 0] =>
        first [ rewrite H0 | rewrite (proj2 (Z.eqb_neq (mget m (a + k)) 0)) by (apply Hk; lia) ]
    end; cbn; f_equal; lia.
Qed.

Lemma prev_word_in_ddr i : 0 <= i < 16384 → in_ddr (TRACE_PREV + 4 * i) = true.
Proof. intros. apply in_ddr_true. unfold TRACE_PREV, DDR_BASE, DDR_END. lia. Qed.

(** The next run finds the log of the previous one.  After [trace_init] of the
    new run, whatever it has itself logged since, [trace_prev_used] answers the
    length [trace_used] of the previous run, and the bytes at [TRACE_PREV] are
    the text of the previous run. *)
Theorem trace_prev_survives s l :
  live_ok s →
  let s1 := trace_append l (snd (trace_init s)) in
  trace_prev_used s1 = (fst (trace_used s), s1) ∧
  mget_list (ram (st_mach s1)) TRACE_PREV (Z.to_nat (fst (trace_used s))) = log_text s.
Proof.
  intros (Hok & Hnz & Hz). cbv zeta.
  destruct (trace_init_spec s) as (Hm & _ & _ & _ & Ht).
  set (s0 := snd (trace_init s)) in *. clearbody s0. set (s1 := trace_append l s0).
  assert (trace_ok s0) as Hok0
    by (split; rewrite Ht; cbn; unfold TRACE_BASE, TRACE_SIZE; lia).
  destruct Hok as [Hp He].
  assert (∀ i, 0 <= i < TRACE_SIZE →
    mget (ram (st_mach s1)) (TRACE_PREV + i) = mget (ram (st_mach s)) (TRACE_BASE + i)) as Hprev.
  { intros i Hi. unfold s1. rewrite trace_append_outside;
      [|exact Hok0|unfold TRACE_BASE, TRACE_PREV, TRACE_SIZE in *; lia].
    rewrite Hm. replace ((_ <=? _) && _) with true by (symmetry; unfold TRACE_SIZE in *; lia).
    f_equal. lia. }
  clearbody s1.
  unfold trace_used, getT, gets, mbind, M_bind, mret, M_ret. cbn [fst].
  set (u := g_put (st_trace s) - TRACE_BASE).
  assert (0 <= u < TRACE_SIZE) as Hu by (unfold u; lia).
  split.
  - unfold trace_prev_used, mbind at 1, M_bind at 1.
    rewrite (spin_i_find _ _ (λ i, first_zero i (le_join (mget_list (ram (st_mach s1)) (TRACE_PREV + 4 * i) 4)))).
    2: { intros i Hi. unfold mbind, M_bind, rd, bus_read.
         rewrite prev_word_in_ddr by exact Hi.
         cbn [fst snd]. by rewrite set_machine_of. }
    rewrite (find_first_at _ 0 _ (u / 4) u); [done| | |].
    + change (TRACE_SIZE / 4) with 16384. unfold TRACE_SIZE in Hu. zlia.
    + intros i Hi. apply first_zero_none. intros k Hk.
      rewrite <-Z.add_assoc, Hprev by (unfold TRACE_SIZE in *; zlia).
      apply Hnz. unfold u in *. zlia.
    + replace (Some u) with (Some (u / 4 * 4 + u mod 4)) by (f_equal; zlia).
      apply first_zero_some; [zlia| |].
      * intros k Hk. rewrite <-Z.add_assoc, Hprev by (unfold TRACE_SIZE in *; zlia).
        apply Hnz. unfold u in *. zlia.
      * rewrite <-Z.add_assoc, <-Z.div_mod, Hprev by lia. apply Hz. unfold u in *. lia.
  - unfold log_text. fold u.
    assert (∀ n k, 0 <= k → k + Z.of_nat n <= TRACE_SIZE →
      mget_list (ram (st_mach s1)) (TRACE_PREV + k) n =
      mget_list (ram (st_mach s)) (TRACE_BASE + k) n) as H.
    { induction n as [|n IH]; intros k Hk Hn; cbn [mget_list]; [done|].
      rewrite Hprev, <-!Z.add_assoc, IH by lia. done. }
    specialize (H (Z.to_nat u) 0). rewrite !Z.add_0_r in H. apply H; lia.
Qed.

End Trace.

#[export] Hint Resolve steps_logs_putc steps_logs_raw steps_logs_puts steps_logs_hex steps_logs_dec
  steps_logs_reg : steps.
#[export] Hint Resolve quiet_updT quiet_rd quiet_wr quiet_rmw quiet_putc quiet_raw quiet_puts quiet_hex
  quiet_dec quiet_reg : steps.

(** The leaves of a [steps_walk] for a [Quiet] relation. *)
Ltac quiet_leaf :=
  first [ apply quiet_updT | apply quiet_rd | apply quiet_wr | apply quiet_rmw | apply quiet_putc
        | apply quiet_puts | apply quiet_hex | apply quiet_dec | apply quiet_reg
        | apply steps_ret | apply steps_skip | apply steps_gets ]; apply _.

(** ** Witnesses: the theorems at concrete states *)

#[local] Existing Instance null_device.

Definition example_trace : stub unit :=
  example_stub tt ∅ example_musb (example_rsp (example_regs 0x30000100 0x13) []).

Lemma example_trace_ok : trace_ok example_trace.
Proof. unfold trace_ok, example_trace, example_stub. cbn. unfold TRACE_BASE, TRACE_SIZE. lia. Qed.

Lemma trace_reg_appends_witness :
  let s := example_trace in
  let s' := snd (trace_reg (bytes_of "pc") 0x30000100 s) in
  let room := Z.to_nat (TRACE_BASE + TRACE_SIZE - 1 - g_put (st_trace s)) in
  log_text s' = log_text s ++ take room (bytes_of "pc" ++ bytes_of "=0x" ++ hex_upper 0x30000100 8 ++ [10]) ∧
  trace_ok s' ∧
  (∀ a, a < TRACE_BASE ∨ TRACE_BASE + TRACE_SIZE - 1 <= a →
        mget (ram (st_mach s')) a = mget (ram (st_mach s)) a) ∧
  dev (st_mach s') = dev (st_mach s) ∧ st_musb s' = st_musb s ∧ st_rsp s' = st_rsp s.
Proof.
  apply (trace_reg_appends (bytes_of "pc") 0x30000100 example_trace).
  - apply example_trace_ok.
  - by repeat constructor.
  - apply bytes_of_ok.
Defined.

Lemma trace_prev_survives_witness :
  let s := trace_append (bytes_of "hello") example_trace in
  let s1 := trace_append (bytes_of "new") (snd (trace_init s)) in
  trace_prev_used s1 = (fst (trace_used s), s1) ∧
  mget_list (ram (st_mach s1)) TRACE_PREV (Z.to_nat (fst (trace_used s))) = log_text s.
Proof.
  apply (trace_prev_survives (trace_append (bytes_of "hello") example_trace) (bytes_of "new")).
  apply trace_append_live.
  - split; [apply example_trace_ok|]. unfold example_trace, example_stub. cbn [g_put st_trace st_mach ram].
    split; intros a Ha; [unfold TRACE_BASE in Ha; lia|done].
  - repeat constructor.
Defined.
