(* ===== verification/Step.v ===== *)
(** * Step: where execution goes next ([src/baremetal/gdbstub/step.c])

    The core has no single-step bit, so the stub decodes the instruction at
    [g_regs.pc] and computes the next pc.  Definitions follow step.c function
    by function; theorems relate them to the ARM condition, shifter, branch
    and block-load definitions. *)
From S2P Require Import Prelude Machine GdbState.

Definition CPSR_T : Z := 1 .<< 5.

(** [v & ~3u] *)
Definition align4 (v : Z) : Z := v .& 0xFFFFFFFC.

Definition bit (v n : Z) : Z := (v .>> n) .& 1.

(** r15 reads as pc+8. *)
Definition reg (g : arm_regs) (n : Z) : Z :=
  if n =? 15 then u32 (r_pc g + 8)
  else if n =? 14 then r_lr g
  else if n =? 13 then r_sp g
  else znth (r_low g) n.

Definition cond_true (cond cpsr : Z) : bool :=
  let n := nonzero (bit cpsr 31) in
  let z := nonzero (bit cpsr 30) in
  let c := nonzero (bit cpsr 29) in
  let v := nonzero (bit cpsr 28) in
  match cond with
  | 0x0 => z
  | 0x1 => negb z
  | 0x2 => c
  | 0x3 => negb c
  | 0x4 => n
  | 0x5 => negb n
  | 0x6 => v
  | 0x7 => negb v
  | 0x8 => c && negb z
  | 0x9 => negb c || z
  | 0xA => eqb n v
  | 0xB => negb (eqb n v)
  | 0xC => negb z && eqb n v
  | 0xD => z || negb (eqb n v)
  | _ => true
  end.

(** A shift amount of zero means 32 for LSR and ASR, and RRX for ROR. *)
Definition shifted (rm type amount carry : Z) : Z :=
  match type with
  | 0 => if 32 <=? amount then 0 else u32 (rm .<< amount)
  | 1 => if (amount =? 0) || (32 <=? amount) then 0 else rm .>> amount
  | 2 => if (amount =? 0) || (32 <=? amount)
         then (if nonzero (rm .& 0x80000000) then 0xFFFFFFFF else 0)
         else u32 (i32 rm .>> amount)
  | _ => if amount =? 0 then u32 (carry .<< 31) .| (rm .>> 1)
         else let amount := amount .& 31 in
              if amount =? 0 then rm
              else (rm .>> amount) .| u32 (rm .<< (32 - amount))
  end.

Definition operand2 (g : arm_regs) (insn cpsr : Z) : Z :=
  let carry := bit cpsr 29 in
  if nonzero (insn .& (1 .<< 25)) then
    let imm := insn .& 0xFF in
    let rot := ((insn .>> 8) .& 0xF) * 2 in
    if nonzero rot then (imm .>> rot) .| u32 (imm .<< (32 - rot)) else imm
  else
    let rm := reg g (insn .& 0xF) in
    let type := (insn .>> 5) .& 3 in
    let amount :=
      if nonzero (insn .& (1 .<< 4)) then reg g ((insn .>> 8) .& 0xF) .& 0xFF
      else (insn .>> 7) .& 0x1F in
    shifted rm type amount carry.

(** [!carry] *)
Definition lnotz (v : Z) : Z := b2z (v =? 0).

Definition alu (op a b carry : Z) : Z :=
  match op with
  | 0x0 => a .& b
  | 0x1 => a .^ b
  | 0x2 => u32 (a - b)
  | 0x3 => u32 (b - a)
  | 0x4 => u32 (a + b)
  | 0x5 => u32 (a + b + carry)
  | 0x6 => u32 (a - b - lnotz carry)
  | 0x7 => u32 (b - a - lnotz carry)
  | 0xC => a .| b
  | 0xD => b
  | 0xE => a .& not32 b
  | _ => not32 b
  end.

(** [while (v) { v &= v - 1; n++; }]: at most one iteration per set bit. *)
Fixpoint popcount_loop (fuel : nat) (v n : Z) : Z :=
  match fuel with
  | O => n
  | S f => if v =? 0 then n else popcount_loop f (v .& u32 (v - 1)) (n + 1)
  end.
Definition popcount (v : Z) : Z := popcount_loop 33 v 0.

(** ** Word alignment *)

Lemma align4_eq v : align4 v = 4 * (v / 4 mod 2 ^ 30).
Proof.
  unfold align4. change 0xFFFFFFFC with (Z.shiftl (2 ^ 30 - 1) 2).
  rewrite land_shifted_mask, (land_low _ 30), Z.shiftl_mul_pow2, Z.shiftr_div_pow2 by done.
  change (2 ^ 2) with 4. lia.
Qed.
Lemma align4_ok v : word_ok (align4 v) ∧ align4 v mod 4 = 0.
Proof. rewrite align4_eq. change (2 ^ 30) with 1073741824. unfold word_ok. zlia. Qed.
Lemma align4_id v : word_ok v → v mod 4 = 0 → align4 v = v.
Proof. intros. rewrite align4_eq. change (2 ^ 30) with 1073741824. unfold word_ok in *. zlia. Qed.

(** ** Condition codes *)

(** The N, Z, C and V flags of [cpsr] are those that [CMP a, b] sets. *)
Definition cmp_flags (a b cpsr : Z) : Prop :=
  bit cpsr 31 = b2z (i32 (a - b) <? 0) ∧
  bit cpsr 30 = b2z (u32 (a - b) =? 0) ∧
  bit cpsr 29 = b2z (b <=? a) ∧
  bit cpsr 28 = b2z ((i32 a - i32 b <? -2147483648) || (2147483647 <? i32 a - i32 b)).

Lemma nonzero_b2z c : nonzero (b2z c) = c.
Proof. by destruct c. Qed.

(** After [CMP a, b], the fourteen condition codes are the unsigned and
    signed comparisons of [a] and [b] that the architecture defines. *)
Theorem cond_true_after_cmp a b cpsr :
  word_ok a → word_ok b → cmp_flags a b cpsr →
  cond_true 0x0 cpsr = (a =? b) ∧ cond_true 0x1 cpsr = negb (a =? b) ∧
  cond_true 0x2 cpsr = (b <=? a) ∧ cond_true 0x3 cpsr = (a <? b) ∧
  cond_true 0x8 cpsr = (b <? a) ∧ cond_true 0x9 cpsr = (a <=? b) ∧
  cond_true 0xA cpsr = (i32 b <=? i32 a) ∧ cond_true 0xB cpsr = (i32 a <? i32 b) ∧
  cond_true 0xC cpsr = (i32 b <? i32 a) ∧ cond_true 0xD cpsr = (i32 a <=? i32 b) ∧
  cond_true 0xE cpsr = true.
Proof.
  intros Ha Hb (HN & HZ & HC & HV). unfold cond_true. rewrite HN, HZ, HC, HV, !nonzero_b2z.
  assert ((u32 (a - b) =? 0) = (a =? b)) as -> by (unfold word_ok, u32 in *; zlia).
  assert (eqb (i32 (a - b) <? 0)
    ((i32 a - i32 b <? -2147483648) || (2147483647 <? i32 a - i32 b)) = (i32 b <=? i32 a)) as ->.
  { unfold i32. rewrite (u32_id a), (u32_id b) by done. unfold word_ok, u32 in *.
    repeat match goal with |- context [if ?c then _ else _] => destruct c eqn:? end;
      match goal with |- eqb ?x ?y = ?z => destruct x eqn:?, y eqn:?, z eqn:? end; try done; zlia. }
  assert ((a =? b) = (i32 a =? i32 b)) as HE.
  { unfold i32. rewrite (u32_id a), (u32_id b) by done. unfold word_ok in *.
    repeat match goal with |- context [if ?c then _ else _] => destruct c eqn:? end; lia. }
  split_and!; try done; try lia; rewrite ?HE; lia.
Qed.

(** ** The barrel shifter *)

(** The architecture's shifts by a register, of which the low byte counts. *)
Definition arm_shift_reg (rm type amount : Z) : Z :=
  if amount =? 0 then rm else
  match type with
  | 0 => if amount <? 32 then u32 (rm * 2 ^ amount) else 0
  | 1 => if amount <? 32 then rm / 2 ^ amount else 0
  | 2 => u32 (i32 rm / 2 ^ Z.min amount 32)
  | _ => let k := amount mod 32 in
         (* rotate right *) (rm / 2 ^ k) + (rm mod 2 ^ k) * 2 ^ (32 - k) * b2z (negb (k =? 0))
  end.

Lemma ror_bits rm k :
  word_ok rm → 0 < k < 32 →
  (rm .>> k) .| u32 (rm .<< (32 - k)) = rm / 2 ^ k + (rm mod 2 ^ k) * 2 ^ (32 - k).
Proof.
  unfold word_ok. intros Hrm Hk.
  assert (u32 (rm .<< (32 - k)) = (rm mod 2 ^ k) * 2 ^ (32 - k)) as ->.
  { unfold u32. rewrite Z.shiftl_mul_pow2 by lia.
    change 4294967296 with (2 ^ 32). replace (2 ^ 32) with (2 ^ k * 2 ^ (32 - k))
      by (rewrite <-Z.pow_add_r by lia; f_equal; lia).
    apply Z.mul_mod_distr_r; apply Z.pow_nonzero; lia. }
  rewrite Z.shiftr_div_pow2 by lia.
  rewrite Z.lor_comm, <-(Z.shiftl_mul_pow2 _ (32 - k)), lor_concat, Z.shiftl_mul_pow2; try lia.
  split; [apply Z.div_pos; [lia|apply Z.pow_pos_nonneg; lia]|].
  apply Z.div_lt_upper_bound; [apply Z.pow_pos_nonneg; lia|].
  rewrite <-Z.pow_add_r by lia. replace (k + (32 - k)) with 32 by lia.
  change (2 ^ 32) with 4294967296. lia.
Qed.

(** For every nonzero amount, the shift by a register is the architecture's. *)
Lemma shifted_reg_nonzero rm type amount carry :
  word_ok rm → 0 < amount < 256 → 0 <= type < 4 →
  shifted rm type amount carry = arm_shift_reg rm type amount.
Proof.
  intros Hrm Ha Ht. unfold shifted, arm_shift_reg.
  rewrite (proj2 (Z.eqb_neq amount 0)) by lia. cbn [orb].
  assert (type = 0 ∨ type = 1 ∨ type = 2 ∨ type = 3) as [-> | [-> | [-> | ->]]] by lia.
  - destruct (32 <=? amount) eqn:E, (amount <? 32) eqn:E'; try lia.
    by rewrite Z.shiftl_mul_pow2 by lia.
  - destruct (32 <=? amount) eqn:E, (amount <? 32) eqn:E'; try lia.
    by rewrite Z.shiftr_div_pow2 by lia.
  - destruct (32 <=? amount) eqn:E.
    + rewrite Z.min_r by lia. change 0x80000000 with (Z.shiftl 1 31).
      rewrite nonzero_land_bit by lia. unfold i32. rewrite (u32_id rm) by done. unfold word_ok in Hrm.
      rewrite Z.testbit_eqb by lia. change (2 ^ 31) with 2147483648. change (2 ^ 32) with 4294967296.
      destruct (rm / 2147483648 mod 2 =? 1) eqn:E1, (rm <? 2147483648) eqn:E2; try zlia;
        unfold u32; zlia.
    + rewrite Z.min_l by lia. by rewrite Z.shiftr_div_pow2 by lia.
  - rewrite (land_low amount 5 31) by done. change (2 ^ 5) with 32.
    pose proof (Z.mod_pos_bound amount 32).
    destruct (amount mod 32 =? 0) eqn:E.
    + apply Z.eqb_eq in E. rewrite E. change (2 ^ 0) with 1. rewrite Z.div_1_r. cbn. lia.
    + rewrite ror_bits by (done || lia). cbn. lia.
Qed.

(** A shift by a register whose low byte is 0 must leave the operand alone.
    The code shifts by 32 instead: LSR gives 0 and ASR the sign. *)
Theorem shifted_reg_zero_differs rm carry :
  word_ok rm → rm ≠ 0 →
  shifted rm 1 0 carry = 0 ∧ arm_shift_reg rm 1 0 = rm ∧ shifted rm 1 0 carry ≠ arm_shift_reg rm 1 0.
Proof. intros Hrm H0. repeat split. cbn. congruence. Qed.

(** ** Population count *)

(** Number of set bits among the low [n]. *)
Fixpoint bit_count (n : nat) (v : Z) : Z :=
  match n with
  | O => 0
  | S n' => b2z (Z.odd v) + bit_count n' (v / 2)
  end.

Lemma land_clear_lowest v :
  0 < v → Z.land v (v - 1) = if Z.odd v then v - 1 else 2 * Z.land (v / 2) (v / 2 - 1).
Proof.
  intros Hv. pose proof (Z.div_mod v 2 ltac:(lia)) as Hd. rewrite Zmod_odd in Hd.
  apply Z.bits_inj'. intros n Hn. destruct (Z.odd v) eqn:E.
  - rewrite Z.land_spec. destruct (decide (n = 0)) as [->|].
    + rewrite !Z.bit0_odd, E, Z.odd_sub, E. done.
    + replace n with (Z.succ (n - 1)) by lia.
      replace v with (2 * (v / 2) + 1) at 1 by lia. rewrite Z.testbit_odd_succ by lia.
      replace (v - 1) with (2 * (v / 2)) by lia. rewrite Z.testbit_even_succ by lia.
      apply andb_diag.
  - rewrite Z.land_spec. destruct (decide (n = 0)) as [->|].
    + rewrite !Z.bit0_odd, E. cbn. by rewrite Z.odd_mul.
    + replace n with (Z.succ (n - 1)) by lia.
      replace v with (2 * (v / 2)) at 1 by lia. rewrite !Z.testbit_even_succ by lia.
      replace (v - 1) with (2 * (v / 2 - 1) + 1) by lia. rewrite Z.testbit_odd_succ by lia.
      by rewrite Z.land_spec.
Qed.

Lemma bit_count_nonneg n v : 0 <= bit_count n v.
Proof. revert v. induction n as [|n IH]; intros v; cbn; [lia|]. specialize (IH (v / 2)). destruct (Z.odd v); cbn; lia. Qed.

Lemma bit_count_clear n v :
  0 < v < 2 ^ Z.of_nat n → bit_count n (Z.land v (v - 1)) = bit_count n v - 1.
Proof.
  revert v. induction n as [|n IH]; intros v Hv; [cbn in Hv; lia|].
  rewrite Nat2Z.inj_succ, Z.pow_succ_r in Hv by lia.
  rewrite land_clear_lowest by lia. cbn [bit_count].
  pose proof (Z.div_mod v 2 ltac:(lia)) as Hd. rewrite Zmod_odd in Hd.
  destruct (Z.odd v) eqn:E; cbn [b2z].
  - rewrite Z.odd_sub, E. cbn. replace ((v - 1) / 2) with (v / 2) by zlia. lia.
  - rewrite Z.odd_mul. cbn. rewrite (Z.mul_comm 2), Z.div_mul, IH by lia. lia.
Qed.

Lemma bit_count_pos n v : 0 < v < 2 ^ Z.of_nat n → 0 < bit_count n v.
Proof.
  intros Hv. pose proof (bit_count_clear n v Hv). pose proof (bit_count_nonneg n (Z.land v (v - 1))). lia.
Qed.

Lemma popcount_loop_spec f v n :
  0 <= v < 65536 → bit_count 16 v <= Z.of_nat f →
  popcount_loop f v n = n + bit_count 16 v.
Proof.
  revert v n. induction f as [|f IH]; intros v n Hv Hf.
  - cbn [popcount_loop]. pose proof (bit_count_nonneg 16 v). lia.
  - cbn [popcount_loop]. destruct (v =? 0) eqn:E.
    + apply Z.eqb_eq in E as ->. change (bit_count 16 0) with 0. lia.
    + apply Z.eqb_neq in E. rewrite u32_id by (unfold word_ok; lia).
      assert (0 <= Z.land v (v - 1) < 65536) as Hl.
      { split; [apply Z.land_nonneg; lia|]. change 65536 with (2 ^ 16).
        destruct (decide (Z.land v (v - 1) = 0)) as [->|Hne]; [done|].
        assert (0 <= Z.land v (v - 1)) by (apply Z.land_nonneg; lia).
        apply Z.log2_lt_pow2; [lia|]. eapply Z.le_lt_trans; [apply Z.log2_land; lia|].
        apply Z.min_lt_iff. left. apply Z.log2_lt_pow2; lia. }
      rewrite IH; rewrite ?(bit_count_clear 16 v) by (change (2 ^ Z.of_nat 16) with 65536; lia); lia.
Qed.

(** The register list of a block transfer, in ascending order. *)
Definition reg_list (insn : Z) : list nat := List.filter (λ i, Z.testbit insn (Z.of_nat i)) (seq 0 16).

Lemma bit_count_filter n v lo :
  bit_count n (v / 2 ^ Z.of_nat lo) =
  zlen (List.filter (λ i, Z.testbit v (Z.of_nat i)) (seq lo n)).
Proof.
  revert lo. induction n as [|n IH]; intros lo; cbn [bit_count seq List.filter]; [done|].
  rewrite Z.div_div by (try apply Z.pow_nonzero; lia).
  rewrite (Z.mul_comm _ 2), <-Z.pow_succ_r, <-Nat2Z.inj_succ, IH by lia.
  rewrite <-Z.bit0_odd, <-Z.shiftr_div_pow2, Z.shiftr_spec, Z.add_0_l by lia.
  destruct (Z.testbit v (Z.of_nat lo)); cbn [b2z]; rewrite ?zlen_cons; lia.
Qed.

(** The count of the code is the length of the register list. *)
Lemma popcount_reg_list insn : popcount (insn .& 0xFFFF) = zlen (reg_list insn).
Proof.
  rewrite (land_low _ 16) by done. change (2 ^ 16) with 65536.
  pose proof (Z.mod_pos_bound insn 65536 ltac:(lia)) as Hb.
  assert (∀ n v, bit_count n v <= Z.of_nat n) as Hle.
  { induction n as [|n IH]; intros v; cbn [bit_count]; [lia|].
    specialize (IH (v / 2)). destruct (Z.odd v); cbn [b2z]; lia. }
  unfold popcount. rewrite popcount_loop_spec, Z.add_0_l; [|lia|specialize (Hle 16%nat (insn mod 65536)); lia].
  rewrite <-(Z.div_1_r (insn mod 65536)). change 1 with (2 ^ Z.of_nat 0).
  rewrite bit_count_filter. unfold reg_list. f_equal. apply filter_ext_in.
  intros i Hi. apply in_seq in Hi. apply (Z.mod_pow2_bits_low insn 16). lia.
Qed.

Section Step.
Context {D : Type} `{!Device D}.

Definition load32 (addr : Z) : M (stub D) Z := rd32 addr.

(** [None] is the return value 0: the next pc is not decidable. *)
Definition arm_next_pc : M (stub D) (option Z) :=
  g ← getR g_regs;
  let pc := r_pc g in
  let cpsr := r_cpsr g in
  if nonzero (cpsr .& CPSR_T) then mret None else
  insn ← load32 pc;
  let cond := insn .>> 28 in
  (* only BLX(imm) branches in the unconditional space, into Thumb *)
  if cond =? 0xF then mret None else
  if negb (cond_true cond cpsr) then mret (Some (u32 (pc + 4))) else
  (* B and BL *)
  if (insn .& 0x0E000000) =? 0x0A000000 then
    let off := i32 (insn .<< 8) .>> 6 in
    mret (Some (u32 (pc + 8 + off)))
  (* BX and BLX register *)
  else if (insn .& 0x0FFFFFD0) =? 0x012FFF10 then
    let target := reg g (insn .& 0xF) in
    if nonzero (target .& 1) then mret None else mret (Some (align4 target))
  (* load with pc as the destination *)
  else if ((insn .& 0x0C100000) =? 0x04100000) && (((insn .>> 12) .& 0xF) =? 15) then
    let base := reg g ((insn .>> 16) .& 0xF) in
    let off :=
      if nonzero (insn .& (1 .<< 25)) then
        shifted (reg g (insn .& 0xF)) ((insn .>> 5) .& 3) ((insn .>> 7) .& 0x1F) (bit cpsr 29)
      else insn .& 0xFFF in
    let addr :=
      if nonzero (insn .& (1 .<< 24)) then
        (if nonzero (insn .& (1 .<< 23)) then u32 (base + off) else u32 (base - off))
      else base in
    v ← load32 addr;
    mret (Some (align4 v))
  (* block load with pc in the list *)
  else if ((insn .& 0x0E100000) =? 0x08100000) && nonzero (insn .& (1 .<< 15)) then
    let base := reg g ((insn .>> 16) .& 0xF) in
    let count := popcount (insn .& 0xFFFF) in
    let up := nonzero (insn .& (1 .<< 23)) in
    let pre := nonzero (insn .& (1 .<< 24)) in
    let addr :=
      if up then u32 (base + (count - 1) * 4 + (if pre then 4 else 0))
      else u32 (base - (if pre then 4 else 0)) in
    v ← load32 addr;
    mret (Some (align4 v))
  (* data processing with pc as the destination; the compares write nothing *)
  else if ((insn .& 0x0C000000) =? 0) && (((insn .>> 12) .& 0xF) =? 15) then
    let op := (insn .>> 21) .& 0xF in
    if (0x8 <=? op) && (op <=? 0xB) then mret (Some (u32 (pc + 4)))
    else mret (Some (align4 (alu op (reg g ((insn .>> 16) .& 0xF)) (operand2 g insn cpsr)
                                 (bit cpsr 29))))
  else mret (Some (u32 (pc + 4))).


(** The word of memory at [a]. *)
Definition mem_word (s : stub D) (a : Z) : Z := le_join (mget_list (ram (st_mach s)) a 4).

Lemma rd32_ddr a s : in_ddr a = true → rd32 a s = (mem_word s a, s).
Proof. intros Ha. unfold rd, bus_read. rewrite Ha. cbn. by destruct s. Qed.

Lemma mem_word_ok s a : word_ok (mem_word s a).
Proof.
  unfold mem_word. pose proof (le_join_bound _ (mget_list_ok (ram (st_mach s)) a 4)) as H.
  unfold zlen in H. rewrite mget_list_length in H. exact H.
Qed.

Lemma rd32_ok a (s : stub D) : word_ok (fst (rd32 a s)).
Proof.
  unfold rd, bus_read. destruct (in_ddr a) eqn:E.
  - cbn. exact (mem_word_ok s a).
  - destruct (dev_read _ _ _). cbn. apply u32_range.
Qed.

(** Two masked equations that disagree on bit [k]. *)
Local Ltac bit_conflict H1 H2 k :=
  exfalso;
  apply (f_equal (λ x, Z.testbit x k)) in H1; apply (f_equal (λ x, Z.testbit x k)) in H2;
  rewrite Z.land_spec in H1, H2; cbn in H1, H2;
  rewrite ?andb_true_r in H1; rewrite ?andb_true_r in H2; congruence.

(** Whenever the stub answers a next pc, it is a word-aligned 32-bit address,
    so planting a breakpoint word there touches exactly one instruction. *)
Theorem arm_next_pc_aligned s n :
  r_pc (g_regs (st_rsp s)) mod 4 = 0 → fst (arm_next_pc s) = Some n →
  word_ok n ∧ n mod 4 = 0.
Proof.
  intros Hpc.
  assert (wp arm_next_pc (λ o _, ∀ n, o = Some n → word_ok n ∧ n mod 4 = 0) s) as H; [|apply H].
  unfold arm_next_pc, load32, getR. repeat (cbv zeta; first [wp_step | apply wp_any; intros ? ?]);
    intros k Hk; try discriminate; injection Hk as <-; try apply align4_ok;
    try (unfold word_ok, u32; zlia).
  unfold word_ok, u32, i32, u32.
  rewrite Z.shiftl_mul_pow2, Z.shiftr_div_pow2 by lia.
  change (2 ^ 8) with 256. change (2 ^ 6) with 64. destruct (_ <? _); zlia.
Qed.

(** The encoding of an unconditional branch at [pc] to [target], as
    cfw/components/diag.c builds it. *)
Definition branch_insn (pc target : Z) : Z :=
  0xEA000000 .| ((u32 (target - pc - 8) .>> 2) .& 0x00FFFFFF).

(** Decoding a branch is the inverse of encoding it, for every target within
    the 26-bit range of the instruction. *)
Theorem branch_next_pc s pc target :
  r_pc (g_regs (st_rsp s)) = pc → nonzero (r_cpsr (g_regs (st_rsp s)) .& CPSR_T) = false →
  in_ddr pc = true → word_ok target → pc mod 4 = 0 → target mod 4 = 0 →
  -33554432 <= target - pc - 8 < 33554432 →
  mem_word s pc = branch_insn pc target →
  arm_next_pc s = (Some target, s).
Proof.
  intros <- HT Hin Ht Hp4 Ht4 Hd Hw.
  unfold arm_next_pc, load32, getR, gets, mbind, M_bind, mret, M_ret.
  set (g := g_regs (st_rsp s)) in *. rewrite HT, rd32_ddr, Hw by done.
  set (d := target - r_pc g - 8) in *.
  set (x := u32 d / 4 mod 16777216).
  assert (0 <= x < 16777216) as Hx by (apply Z.mod_pos_bound; lia).
  assert (branch_insn (r_pc g) target = 0xEA000000 + x) as ->.
  { unfold branch_insn. fold d. rewrite (land_low _ 24) by done.
    rewrite Z.shiftr_div_pow2 by lia. change (2 ^ 24) with 16777216. change (2 ^ 2) with 4. fold x.
    change 0xEA000000 with (Z.shiftl 0xEA 24) at 1. rewrite lor_concat by first [lia|exact Hx]. done. }
  assert ((0xEA000000 + x) .>> 28 = 0xE) as -> by (rewrite Z.shiftr_div_pow2 by lia; zlia).
  change (0xE =? 0xF) with false. change (cond_true 0xE (r_cpsr g)) with true. cbn [negb].
  assert ((0xEA000000 + x) .& 0x0E000000 = 0x0A000000) as ->.
  { change 0x0E000000 with (Z.shiftl 0xE 24). rewrite land_shifted_mask by lia.
    replace ((0xEA000000 + x) .>> 24) with 0xEA by (rewrite Z.shiftr_div_pow2 by lia; zlia). done. }
  change (0x0A000000 =? 0x0A000000) with true. cbv iota. f_equal. f_equal.
  rewrite Z.shiftl_mul_pow2, Z.shiftr_div_pow2 by lia. change (2 ^ 8) with 256. change (2 ^ 6) with 64.
  assert (i32 ((0xEA000000 + x) * 256) / 64 = d) as ->.
  { assert (∃ e, d = 4 * e) as [e He] by (exists (d / 4); unfold d; zlia).
    assert (x = if e <? 0 then e + 16777216 else e) as Hxe.
    { unfold x, u32. destruct (e <? 0) eqn:E; zlia. }
    assert (u32 ((0xEA000000 + x) * 256) = x * 256) as Hu by (unfold u32; zlia).
    unfold i32. rewrite Hu. destruct (e <? 0) eqn:E, (x * 256 <? 2147483648) eqn:E'; zlia. }
  unfold d. replace (r_pc g + 8 + (target - r_pc g - 8)) with target by lia. by apply u32_id.
Qed.

(** The lowest address of a block transfer and the address of register [r]. *)
Definition ldm_start (insn base : Z) : Z :=
  let size := 4 * zlen (reg_list insn) in
  match Z.testbit insn 23, Z.testbit insn 24 with
  | true, false => base               (* increment after *)
  | true, true => base + 4            (* increment before *)
  | false, false => base - size + 4   (* decrement after *)
  | false, true => base - size        (* decrement before *)
  end.
Definition ldm_slot (insn base : Z) (r : nat) : Z :=
  ldm_start insn base + 4 * zlen (List.filter (λ i, Z.testbit insn (Z.of_nat i)) (seq 0 r)).

(** In all four addressing modes, a block load with pc in its list continues
    at the word that the architecture assigns to r15: registers occupy
    ascending addresses from the start address of the transfer. *)
Theorem ldm_next_pc s insn :
  let g := g_regs (st_rsp s) in
  let base := reg g ((insn .>> 16) .& 0xF) in
  nonzero (r_cpsr g .& CPSR_T) = false → in_ddr (r_pc g) = true → mem_word s (r_pc g) = insn →
  insn .>> 28 ≠ 0xF → cond_true (insn .>> 28) (r_cpsr g) = true →
  insn .& 0x0E100000 = 0x08100000 → Z.testbit insn 15 = true →
  arm_next_pc s = (v ← rd32 (u32 (ldm_slot insn base 15)); mret (Some (align4 v))) s.
Proof.
  cbv zeta. set (g := g_regs (st_rsp s)). intros HT Hin Hw HF Hc Hop H15.
  unfold arm_next_pc, load32, getR, gets. unfold mbind at 1 2, M_bind at 1 2. fold g.
  rewrite HT, rd32_ddr, Hw, (proj2 (Z.eqb_neq _ _) HF), Hc by done. cbn [negb].
  destruct (_ =? 0x0A000000) eqn:E1; [apply Z.eqb_eq in E1; bit_conflict Hop E1 25|].
  destruct (_ =? 0x012FFF10) eqn:E2; [apply Z.eqb_eq in E2; bit_conflict Hop E2 27|].
  destruct ((insn .& 0x0C100000) =? 0x04100000) eqn:E3; [apply Z.eqb_eq in E3; bit_conflict Hop E3 27|].
  cbn [andb]. rewrite (proj2 (Z.eqb_eq _ _) Hop), !nonzero_land_bit, H15 by lia. cbn [andb].
  assert (zlen (List.filter (λ i, Z.testbit insn (Z.of_nat i)) (seq 0 15)) = popcount (insn .& 0xFFFF) - 1) as Hn.
  { rewrite popcount_reg_list. unfold reg_list. change 16%nat with (15 + 1)%nat.
    rewrite seq_app, List.filter_app, zlen_app.
    assert (List.filter (λ i, Z.testbit insn (Z.of_nat i)) (seq (0 + 15) 1) = [15%nat]) as ->; [|by rewrite Z.add_simpl_r].
    cbn [seq List.filter]. change (Z.of_nat (0 + 15)) with 15. by rewrite H15. }
  unfold ldm_slot, ldm_start. rewrite Hn, <-popcount_reg_list.
  set (count := popcount _). set (base := reg _ _).
  destruct (Z.testbit insn 23), (Z.testbit insn 24);
    match goal with |- (mbind _ (rd32 ?a)) s = (mbind _ (rd32 ?b)) s => replace a with b by (f_equal; lia) end; done.
Qed.

End Step.

(** ** Witnesses: the theorems at concrete states *)

#[local] Existing Instance null_device.

Lemma cond_true_after_cmp_witness :
  cmp_flags 3 5 0x80000000 ∧ cond_true 0x3 0x80000000 = (3 <? 5).
Proof.
  assert (cmp_flags 3 5 0x80000000) as H by (vm_compute; auto).
  split; [exact H|]. apply (cond_true_after_cmp 3 5 0x80000000); [done|done|exact H].
Defined.

Lemma shifted_reg_zero_differs_witness : shifted 8 1 0 0 ≠ arm_shift_reg 8 1 0.
Proof. apply (shifted_reg_zero_differs 8 0); [done|lia]. Defined.

(** [B .+24] at 0x30000100. *)
Definition example_step (insn : Z) (r0 : Z) : stub unit :=
  example_stub tt (mset_list ∅ 0x30000100 (le_split 4 insn)) example_musb
    (example_rsp (ArmRegs (r0 :: replicate 12 0) 0 0 0x30000100 0x13) []).

Lemma arm_next_pc_aligned_witness :
  word_ok 0x30000120 ∧ 0x30000120 mod 4 = 0.
Proof.
  apply (arm_next_pc_aligned (example_step (branch_insn 0x30000100 0x30000120) 0) 0x30000120);
    vm_compute; reflexivity.
Defined.

Lemma branch_next_pc_witness :
  let s := example_step (branch_insn 0x30000100 0x30000040) 0 in arm_next_pc s = (Some 0x30000040, s).
Proof.
  apply (branch_next_pc _ 0x30000100 0x30000040); try reflexivity; try done; vm_compute; intuition discriminate.
Defined.

(** [LDMIA r0, {r1, pc}] *)
Lemma ldm_next_pc_witness :
  let s := example_step 0xE8908002 0x30000200 in
  arm_next_pc s = (v ← rd32 0x30000204; mret (Some (align4 v))) s.
Proof.
  apply (ldm_next_pc (example_step 0xE8908002 0x30000200) 0xE8908002); try reflexivity; vm_compute; discriminate.
Defined.
