(* ===== verification/Musb.v ===== *)
(** * Musb: the USB device controller ([src/baremetal/gdbstub/musb.c])

    Control endpoint, descriptors, bulk transmit and receive, event polling.
    The controller itself is the [Device] of the image.  [rsp_feed], which
    handle_bulk_out calls and which itself calls [musb_bulk_send], is an
    argument; Gdbstub.v ties the knot. *)
From S2P Require Import Prelude Machine GdbState Trace.

(** ** Registers ([musb.h]) *)

Definition CLK_CON1 : Z := 0x0800000C.
Definition INT_STAT : Z := 0x080000CC.
Definition MULFUN_CON1 : Z := 0x08000058.
Definition CLK_CON1_UDC_GATE : Z := 0x8000.
Definition CLK_CON1_USB_RESET : Z := 0x80000000.
Definition L2CTR_ASSIGN_REG1 : Z := 0x2002C090.
Definition USB : Z := 0x70000000.
Definition USB_FADDR : Z := USB + 0x00.
Definition USB_POWER : Z := USB + 0x01.
Definition USB_INTRTX1 : Z := USB + 0x02.
Definition USB_INTRRX1 : Z := USB + 0x04.
Definition USB_INTRTX1E : Z := USB + 0x06.
Definition USB_INTRRX1E : Z := USB + 0x08.
Definition USB_INTRUSB : Z := USB + 0x0A.
Definition USB_INTRUSBE : Z := USB + 0x0B.
Definition USB_INDEX : Z := USB + 0x0E.
Definition USB_TXMAXP : Z := USB + 0x10.
Definition USB_CSR0_TXCSR1 : Z := USB + 0x12.
Definition USB_TXCSR2 : Z := USB + 0x13.
Definition USB_RXMAXP : Z := USB + 0x14.
Definition USB_RXCSR1 : Z := USB + 0x16.
Definition USB_COUNT0_RXCOUNT : Z := USB + 0x18.
Definition USB_FIFO_EP0 : Z := USB + 0x20.
Definition USB_FIFO_EP2 : Z := USB + 0x28.
Definition USB_EP0_TX_COUNT : Z := USB + 0x330.
Definition USB_EP2_TX_COUNT : Z := USB + 0x334.
Definition USB_FORBID_WRITE : Z := USB + 0x338.
Definition USB_START_PRE_READ : Z := USB + 0x33C.
Definition USB_MODE_STATUS : Z := USB + 0x344.
Definition MODE_FORCE_FS : Z := 1.
Definition L2_EP2_TX : Z := 0x48000000.
Definition L2_EP3_RX : Z := 0x48000200.
Definition L2_EP0 : Z := 0x48001500.
Definition INTRUSB_RESET : Z := 4.
Definition POWER_HSMODE : Z := 0x10.
Definition POWER_HSENAB : Z := 0x20.
Definition CSR0_RXPKTRDY : Z := 0x01.
Definition CSR0_TXPKTRDY : Z := 0x02.
Definition CSR0_SENTSTALL : Z := 0x04.
Definition CSR0_DATAEND : Z := 0x08.
Definition CSR0_SETUPEND : Z := 0x10.
Definition CSR0_SENDSTALL : Z := 0x20.
Definition CSR0_SERVICED_RX : Z := 0x40.
Definition CSR0_SERVICED_SETUP : Z := 0x80.
Definition TXCSR1_TXPKTRDY : Z := 0x01.
Definition TXCSR1_UNDERRUN : Z := 0x04.
Definition TXCSR1_SENTSTALL : Z := 0x20.
Definition TXCSR1_CLRDATATOG : Z := 0x40.
Definition RXCSR1_RXPKTRDY : Z := 0x01.
Definition RXCSR1_CLRDATATOG : Z := 0x80.
Definition EP_NOTIFY : Z := 1.
Definition EP_BULK_IN : Z := 2.
Definition EP_BULK_OUT : Z := 3.
Definition NOTIFY_MAXP : Z := 16.
Definition EP0_MAXP : Z := 64.
Definition EP0_STAGE : Z := 64.
Definition EP0_BUF_SIZE : Z := 128.
Definition BULK_MAXP_HS : Z := 512.
Definition BULK_MAXP_FS : Z := 64.
Definition TX_WAIT_LIMIT : Z := 0x00200000.

Definition VENDOR_ID : Z := 0x1209.
Definition PRODUCT_ID : Z := 0x0001.
Definition TRACE_EVENT_LIMIT : Z := 200.
Definition TRACE_CHUNK_LIMIT : Z := 40.

(** ** Descriptors *)

Definition device_desc : list Z :=
  [18; 1; 0x00; 0x02; 0x02; 0x00; 0x00; EP0_MAXP;
   VENDOR_ID .& 0xFF; VENDOR_ID .>> 8; PRODUCT_ID .& 0xFF; PRODUCT_ID .>> 8;
   0x00; 0x01; 0; 1; 2; 1].

Definition qualifier_desc : list Z :=
  [10; 6; 0x00; 0x02; 0x02; 0x00; 0x00; EP0_MAXP; 1; 0].

Definition string_langid : list Z := [4; 3; 0x09; 0x04].

(** ['a', 0, 'b', 0, ...] *)
Definition utf16 (l : list Z) : list Z := flat_map (λ c, [c; 0]) l.

Definition string_product : list Z := [26; 3] ++ utf16 (bytes_of "aipc gdbstub").
Definition string_serial : list Z := [10; 3] ++ utf16 (bytes_of "0001").

Definition config_desc : list Z :=
  [9; 2; 67; 0; 2; 1; 0; 0xC0; 0x01;
   9; 4; 0; 0; 1; 0x02; 0x02; 0x01; 0;
   5; 0x24; 0x00; 0x10; 0x01;
   5; 0x24; 0x01; 0x00; 1;
   4; 0x24; 0x02; 0x02;
   5; 0x24; 0x06; 0; 1;
   7; 5; 0x80 .| EP_NOTIFY; 3; NOTIFY_MAXP; 0; 9;
   9; 4; 1; 0; 2; 0x0A; 0x00; 0x00; 0;
   7; 5; EP_BULK_OUT; 2; 0; 0; 0;
   7; 5; 0x80 .| EP_BULK_IN; 2; 0; 0; 0].

Definition CFG_BULK_OUT_MAXP : Z := 57.
Definition CFG_BULK_IN_MAXP : Z := 64.
Definition CDC_SET_LINE_CODING : Z := 0x20.
Definition CDC_GET_LINE_CODING : Z := 0x21.
Definition CDC_SET_CONTROL_LINE_STATE : Z := 0x22.
Definition CDC_SEND_BREAK : Z := 0x23.

(** The initial values of the static variables. *)
Definition musb_st0 : musb_st :=
  MusbSt (replicate 128 0) 0 0 0 0 [0x00; 0xC2; 0x01; 0x00; 0; 0; 8] 0 0 0 0 BULK_MAXP_FS
         0 0 0 0 0 0 (replicate 128 0).

(** [pack_le(p, avail)], [p] being the list from the pointer on. *)
Definition pack_le (p : list Z) (avail : Z) : Z :=
  let byte k := u32 ((if k <? avail then znth p k else 0) .<< (8 * k)) in
  byte 0 .| byte 1 .| byte 2 .| byte 3.

(** [load_le(p, avail)]; [al] is the address of [p]. *)
Definition load_le (al : Z) (p : list Z) (avail : Z) : Z :=
  if (4 <=? avail) && negb (nonzero (al .& 3)) then le_join (take 4 p) else pack_le p avail.

Section Musb.
Context {D : Type} `{!Device D}.
Abbreviation St := (stub D).

Definition traceable : M St bool := e ← getU g_events; mret (e <? TRACE_EVENT_LIMIT).

Definition latch_speed (power : Z) : M St unit :=
  let hs := if nonzero (power .& POWER_HSMODE) then 1 else 0 in
  updU (set_g_high_speed hs);;
  updU (set_g_bulk_maxp (if nonzero hs then BULK_MAXP_HS else BULK_MAXP_FS)).

Definition musb_init : M St unit :=
  rmw W32 CLK_CON1 (λ x, x .& not32 CLK_CON1_UDC_GATE);;
  rmw W32 CLK_CON1 (λ x, x .| CLK_CON1_USB_RESET);;
  rmw W32 CLK_CON1 (λ x, x .& not32 CLK_CON1_USB_RESET);;
  rmw W32 MULFUN_CON1 (λ x, x .& not32 7);;
  rmw W32 MULFUN_CON1 (λ x, x .| 6);;
  v ← rd32 L2CTR_ASSIGN_REG1;
  wr32 L2CTR_ASSIGN_REG1 (v .& not32 0x3F);;
  wr32 L2CTR_ASSIGN_REG1 ((v .& not32 0x3F) .| 8);;
  rmw W32 USB_MODE_STATUS (λ x, x .& not32 MODE_FORCE_FS);;
  wr8 USB_POWER POWER_HSENAB;;
  p ← rd8 USB_POWER;
  latch_speed p;;
  v1 ← rd32 CLK_CON1; trace_reg (bytes_of "clk_con1") v1;;
  v2 ← rd32 MULFUN_CON1; trace_reg (bytes_of "mulfun_con1") v2;;
  v3 ← rd32 L2CTR_ASSIGN_REG1; trace_reg (bytes_of "l2_assign1") v3;;
  v4 ← rd32 USB_MODE_STATUS; trace_reg (bytes_of "mode_status") v4;;
  v5 ← rd8 USB_POWER; trace_reg (bytes_of "power") v5.

Definition configure_endpoint (ep maxp : Z) (is_tx : bool) : M St unit :=
  wr8 USB_INDEX ep;;
  if is_tx then
    wr8 USB_TXCSR2 0x20;;
    wr16 USB_TXMAXP maxp
  else
    wr8 USB_TXCSR2 0;;
    wr16 USB_RXMAXP maxp;;
    rmw W8 USB_RXCSR1 (λ x, x .& not32 RXCSR1_RXPKTRDY).

Definition handle_bus_reset : M St unit :=
  power ← rd8 USB_POWER;
  latch_speed power;;
  wr8 USB_FADDR 0;;
  wr8 USB_POWER POWER_HSENAB;;
  wr8 USB_INTRUSBE 0xF7;;
  wr8 USB_INTRTX1E 0x05;;
  wr8 USB_INTRRX1E 0x0A;;
  configure_endpoint EP_BULK_IN 512 true;;
  configure_endpoint EP_BULK_OUT 512 false;;
  wr8 USB_INDEX 0;;
  updU (set_g_ep0_remaining 0);;
  updU (set_g_ep0_offset 0);;
  updU (set_g_ep0_out_remaining 0);;
  updU (λ u, set_g_stat_reset (u32 (g_stat_reset u + 1)) u);;
  t ← traceable;
  when t (
    trace_puts (bytes_of "bus reset, power=");;
    trace_hex power 2;;
    hs ← getU g_high_speed;
    trace_puts ((if nonzero hs then bytes_of " HIGH speed" else bytes_of " full speed") ++ [10])).

Definition ep0_stall : M St unit :=
  wr8 USB_INDEX 0;;
  wr8 USB_CSR0_TXCSR1 (CSR0_SENDSTALL .| CSR0_SERVICED_RX);;
  updU (λ u, set_g_stat_stall (u32 (g_stat_stall u + 1)) u).

(** [*(u32_alias * )(src + i)], [src] the list from the pointer on. *)
Definition src_word (src : list Z) (i : Z) : Z := le_join (take 4 (drop (Z.to_nat i) src)).

(** [for (i = 0; i < n; i += 4)] *)
Definition for_words (n : Z) (body : Z → M St unit) : M St unit :=
  for_to ((n + 3) / 4) (λ k, body (4 * k)).

(** The packet of ep0_send_chunk, from FORBID_WRITE to FORBID_WRITE. *)
Definition ep0_packet (src : list Z) (count : Z) (last : bool) : M St unit :=
  rmw W32 USB_FORBID_WRITE (λ x, x .| 1);;
  (if last then
     for_to count (λ _, wr8 USB_FIFO_EP0 0);;
     for_words EP0_STAGE (λ i, wr32 (L2_EP0 + i) (src_word src i))
   else
     for_words EP0_STAGE (λ i, wr32 (L2_EP0 + i) (src_word src i);; wr32 USB_FIFO_EP0 0));;
  wr32 USB_EP0_TX_COUNT count;;
  rmw W32 USB_START_PRE_READ (λ x, x .| 1);;
  wr8 USB_CSR0_TXCSR1 CSR0_TXPKTRDY;;
  when last (wr8 USB_CSR0_TXCSR1 CSR0_DATAEND);;
  rmw W32 USB_FORBID_WRITE (λ x, x .& not32 1).

(** Its trace output. *)
Definition ep0_trace_chunk (count : Z) (last : bool) : M St unit :=
  chunks ← getU g_ep0_chunks;
  when (chunks <? TRACE_CHUNK_LIMIT) (
    updU (set_g_ep0_chunks (chunks + 1));;
    trace_puts (bytes_of "ep0 tx ");;
    trace_dec count;;
    trace_puts (if last then bytes_of " last" else bytes_of " more");;
    trace_puts (bytes_of " csr=");;
    csr ← rd8 USB_CSR0_TXCSR1;
    trace_hex csr 2;;
    trace_puts (bytes_of " cnt=");;
    cnt ← rd32 USB_EP0_TX_COUNT;
    trace_hex cnt 8;;
    trace_puts [10]).

Definition ep0_send_chunk : M St unit :=
  off ← getU g_ep0_offset;
  buf ← getU g_ep0_buf;
  remaining ← getU g_ep0_remaining;
  let src := drop (Z.to_nat off) buf in
  let count := if EP0_MAXP <? remaining then EP0_MAXP else remaining in
  let last := remaining <=? EP0_MAXP in
  wr8 USB_INDEX 0;;
  if negb (nonzero remaining) then
    updU (set_g_ep0_offset 0);;
    wr8 USB_CSR0_TXCSR1 (CSR0_SERVICED_RX .| CSR0_DATAEND)
  else
    ep0_packet src count last;;
    ep0_trace_chunk count last;;
    if last then
      updU (set_g_ep0_remaining 0);;
      updU (set_g_ep0_offset 0)
    else
      updU (set_g_ep0_remaining (remaining - count));;
      updU (set_g_ep0_offset (off + count)).

Definition ep0_fill (data : list Z) (len wLength : Z) : M St unit :=
  let len := if wLength <? len then wLength else len in
  let len := if EP0_BUF_SIZE <? len then EP0_BUF_SIZE else len in
  for_to EP0_BUF_SIZE (λ i,
    updU (λ u, set_g_ep0_buf (zset (g_ep0_buf u) i (if i <? len then znth data i else 0)) u));;
  updU (set_g_ep0_remaining len);;
  updU (set_g_ep0_offset 0).

Definition ep0_start : M St unit :=
  wr8 USB_INDEX 0;;
  wr8 USB_CSR0_TXCSR1 CSR0_SERVICED_RX;;
  ep0_send_chunk.

Definition ep0_queue (data : list Z) (len wLength : Z) : M St unit :=
  ep0_fill data len wLength;;
  ep0_start.

Definition ep0_queue_config (type bulk_maxp wLength : Z) : M St unit :=
  let patch i v := updU (λ u, set_g_ep0_buf (zset (g_ep0_buf u) i (u8 v)) u) in
  ep0_fill config_desc (zlen config_desc) wLength;;
  patch 1 type;;
  patch CFG_BULK_IN_MAXP bulk_maxp;;
  patch (CFG_BULK_IN_MAXP + 1) (bulk_maxp .>> 8);;
  patch CFG_BULK_OUT_MAXP bulk_maxp;;
  patch (CFG_BULK_OUT_MAXP + 1) (bulk_maxp .>> 8);;
  ep0_start.

Definition ep0_status : M St unit :=
  updU (set_g_ep0_remaining 0);;
  updU (set_g_ep0_offset 0);;
  wr8 USB_INDEX 0;;
  wr8 USB_CSR0_TXCSR1 (CSR0_SERVICED_RX .| CSR0_DATAEND).

Definition ep0_expect_out (wLength : Z) : M St unit :=
  updU (set_g_ep0_remaining 0);;
  updU (set_g_ep0_offset 0);;
  updU (set_g_ep0_out_remaining wLength);;
  updU (set_g_ep0_out_offset 0);;
  wr8 USB_INDEX 0;;
  wr8 USB_CSR0_TXCSR1 CSR0_SERVICED_RX.

(** [for (i = 0; i < count && g_ep0_out_offset < 7; i++)]; [n] bounds the
    iterations, [count] being at most 127. *)
Fixpoint line_coding_loop (n : nat) (i : Z) : M St unit :=
  match n with
  | O => skip
  | Datatypes.S n' =>
      off ← getU g_ep0_out_offset;
      if off <? 7 then
        b ← rd8 (L2_EP0 + i);
        updU (λ u, set_g_line_coding (zset (g_line_coding u) off b) u);;
        updU (set_g_ep0_out_offset (off + 1));;
        line_coding_loop n' (i + 1)
      else skip
  end.

Definition handle_ep0_out : M St unit :=
  wr8 USB_INDEX 0;;
  c ← rd32 USB_COUNT0_RXCOUNT;
  let count := c .& 0x7F in
  line_coding_loop (Z.to_nat count) 0;;
  r ← getU g_ep0_out_remaining;
  let r' := if r <=? count then 0 else r - count in
  updU (set_g_ep0_out_remaining r');;
  wr8 USB_CSR0_TXCSR1 (if nonzero r' then CSR0_SERVICED_RX else CSR0_SERVICED_RX .| CSR0_DATAEND).

Definition handle_class_setup (bRequest wValue wLength : Z) : M St unit :=
  if bRequest =? CDC_SET_LINE_CODING then
    if nonzero wLength then ep0_expect_out wLength else ep0_status
  else if bRequest =? CDC_GET_LINE_CODING then
    lc ← getU g_line_coding;
    ep0_queue lc 7 wLength
  else if bRequest =? CDC_SET_CONTROL_LINE_STATE then
    updU (set_g_line_state wValue);;
    ep0_status
  else if bRequest =? CDC_SEND_BREAK then ep0_status
  else ep0_stall.

Definition get_descriptor (wValue wLength : Z) : M St unit :=
  let queue d := ep0_queue d (zlen d) wLength in
  let ty := wValue .>> 8 in
  if ty =? 1 then queue device_desc
  else if ty =? 2 then maxp ← getU g_bulk_maxp; ep0_queue_config 2 maxp wLength
  else if ty =? 3 then
    let idx := wValue .& 0xFF in
    if idx =? 0 then queue string_langid
    else if idx =? 1 then queue string_product
    else if idx =? 2 then queue string_serial
    else ep0_stall
  else if ty =? 6 then queue qualifier_desc
  else if ty =? 7 then
    hs ← getU g_high_speed;
    ep0_queue_config 7 (if nonzero hs then BULK_MAXP_FS else BULK_MAXP_HS) wLength
  else ep0_stall.

Definition handle_setup : M St unit :=
  let le16 a := lo ← rd8 a; hi ← rd8 (a + 1); mret (u16 (lo .| (hi .<< 8))) in
  bmRequestType ← rd8 (L2_EP0 + 0);
  bRequest ← rd8 (L2_EP0 + 1);
  wValue ← le16 (L2_EP0 + 2);
  wIndex ← le16 (L2_EP0 + 4);
  wLength ← le16 (L2_EP0 + 6);
  updU (λ u, set_g_stat_setup (u32 (g_stat_setup u + 1)) u);;
  t ← traceable;
  when t (
    trace_puts (bytes_of "setup ");;
    trace_hex bmRequestType 2;;
    trace_puts (bytes_of " ");;
    trace_hex bRequest 2;;
    trace_puts (bytes_of " v");;
    trace_hex wValue 4;;
    trace_puts (bytes_of " i");;
    trace_hex wIndex 4;;
    trace_puts (bytes_of " l");;
    trace_hex wLength 4;;
    trace_puts [10]);;
  if (bmRequestType .& 0x60) =? 0x20 then handle_class_setup bRequest wValue wLength
  else if nonzero (bmRequestType .& 0x60) then ep0_stall
  else if bRequest =? 0 then ep0_queue [1; 0] 2 wLength
  else if bRequest =? 5 then
    ep0_status;;
    spin 10000 (x ← rd8 USB_INTRTX1; mret (if nonzero (x .& 0x01) then Some tt else None));;
    wr8 USB_FADDR (wValue .& 0x7F);;
    t' ← traceable;
    when t' (trace_reg (bytes_of "faddr") (wValue .& 0x7F))
  else if bRequest =? 6 then get_descriptor wValue wLength
  else if bRequest =? 8 then ep0_queue [1] 1 wLength
  else if bRequest =? 9 then
    wr8 USB_INDEX EP_BULK_IN;;
    wr8 USB_CSR0_TXCSR1 TXCSR1_CLRDATATOG;;
    wr8 USB_INDEX EP_BULK_OUT;;
    wr8 USB_RXCSR1 RXCSR1_CLRDATATOG;;
    wr8 USB_INDEX 0;;
    ep0_status
  else if (bRequest =? 1) || (bRequest =? 3) || (bRequest =? 11) then ep0_status
  else if bRequest =? 10 then ep0_queue [0] 1 wLength
  else ep0_stall.

Definition bulk_tx_wait : M St bool :=
  wr8 USB_INDEX EP_BULK_IN;;
  r ← spin TX_WAIT_LIMIT (
        x ← rd8 USB_CSR0_TXCSR1;
        mret (if nonzero (x .& TXCSR1_TXPKTRDY) then None else Some tt));
  match r with
  | Some _ => mret true
  | None => updU (λ u, set_g_stat_txdrop (u32 (g_stat_txdrop u + 1)) u);; mret false
  end.

(** One packet of musb_bulk_send: the body of its loop after the wait. *)
Definition send_packet (al : Z) (data : list Z) (count : Z) : M St unit :=
  let word i := load_le (al + i) (drop (Z.to_nat i) data) (count - i) in
  wr8 USB_INDEX EP_BULK_IN;;
  rmw W32 USB_FORBID_WRITE (λ x, x .| 2);;
  (if nonzero (count .& 3) then
     for_to count (λ _, wr8 USB_FIFO_EP2 0);;
     for_words count (λ i, wr32 (L2_EP2_TX + i) (word i))
   else
     for_words count (λ i, wr32 (L2_EP2_TX + i) (word i);; wr32 USB_FIFO_EP2 0));;
  wr32 USB_EP2_TX_COUNT count;;
  rmw W32 USB_START_PRE_READ (λ x, x .| 2);;
  wr8 USB_CSR0_TXCSR1 TXCSR1_TXPKTRDY;;
  rmw W32 USB_FORBID_WRITE (λ x, x .& not32 2).

(** The size of the next packet. *)
Definition packet_size (maxp len : Z) : Z :=
  let count := if maxp <? len then maxp else len in
  if (count =? len) && (count =? maxp) then count - 1 else count.

(** [al] is the address of [data]; [fuel] bounds the number of packets. *)
Fixpoint bulk_send_loop (fuel : nat) (al : Z) (data : list Z) : M St unit :=
  match fuel with
  | O => skip
  | Datatypes.S fuel' =>
      if nonzero (zlen data) then
        maxp ← getU g_bulk_maxp;
        let count := packet_size maxp (zlen data) in
        ok ← bulk_tx_wait;
        if (ok : bool) then
          send_packet al data count;;
          updU (λ u, set_g_stat_in (u32 (g_stat_in u + 1)) u);;
          bulk_send_loop fuel' (al + count) (drop (Z.to_nat count) data)
        else skip
      else skip
  end.

(** Every packet carries at least one byte, so the length is enough fuel
    ([bulk_packets_fuel]). *)
Definition musb_bulk_send (al : Z) (data : list Z) : M St unit :=
  bulk_send_loop (length data) al data.

(** The loop that fills [g_rx_buf], [n] words from the byte [i] on. *)
Fixpoint rx_words (n : nat) (i : Z) : M St unit :=
  match n with
  | O => skip
  | Datatypes.S n' =>
      w ← rd32 (L2_EP3_RX + i);
      updU (λ u, set_g_rx_buf (zput (g_rx_buf u) (i .>> 2) w) u);;
      rx_words n' (i + 4)
  end.

(** [rsp_feed] gets the first [count] bytes of the words. *)
Definition handle_bulk_out (rsp_feed : list Z → M St ctl) : M St ctl :=
  wr8 USB_INDEX EP_BULK_OUT;;
  c ← rd32 USB_COUNT0_RXCOUNT;
  let count := c .& 0xFFFF in
  let count := if BULK_MAXP_HS <? count then BULK_MAXP_HS else count in
  rx_words (Z.to_nat ((count + 3) / 4)) 0;;
  wr8 USB_INDEX EP_BULK_OUT;;
  rmw W8 USB_RXCSR1 (λ x, x .& not32 RXCSR1_RXPKTRDY);;
  updU (λ u, set_g_stat_out (u32 (g_stat_out u + 1)) u);;
  buf ← getU g_rx_buf;
  rsp_feed (take (Z.to_nat count) (flat_map (le_split 4) buf)).

Definition bump_events : M St unit := updU (λ u, set_g_events (u32 (g_events u + 1)) u).

(** The EP0 branch of musb_poll. *)
Definition poll_ep0 : M St unit :=
  bump_events;;
  wr8 USB_INDEX 0;;
  csr ← rd8 USB_CSR0_TXCSR1;
  t ← traceable;
  when t (trace_reg (bytes_of "ep0 evt csr") csr);;
  if nonzero (csr .& CSR0_SETUPEND) then
    updU (set_g_ep0_out_remaining 0);;
    wr8 USB_CSR0_TXCSR1 CSR0_SERVICED_SETUP
  else if nonzero (csr .& CSR0_SENTSTALL) then
    wr8 USB_CSR0_TXCSR1 (csr .& not32 CSR0_SENTSTALL)
  else if nonzero (csr .& CSR0_RXPKTRDY) then
    r ← getU g_ep0_out_remaining;
    if nonzero r then handle_ep0_out else handle_setup
  else if negb (nonzero (csr .& CSR0_TXPKTRDY)) then
    r ← getU g_ep0_remaining;
    when (nonzero r) ep0_send_chunk
  else skip.

(** The bulk IN branch of musb_poll. *)
Definition poll_bulk_in : M St unit :=
  bump_events;;
  wr8 USB_INDEX EP_BULK_IN;;
  csr ← rd8 USB_CSR0_TXCSR1;
  if nonzero (csr .& TXCSR1_UNDERRUN) then wr8 USB_CSR0_TXCSR1 TXCSR1_TXPKTRDY
  else when (nonzero (csr .& TXCSR1_SENTSTALL))
         (wr8 USB_CSR0_TXCSR1 (csr .& not32 TXCSR1_SENTSTALL)).

(** The bulk OUT branch of musb_poll. *)
Definition poll_bulk_out (rsp_feed : list Z → M St ctl) : M St ctl :=
  bump_events;;
  wr8 USB_INDEX EP_BULK_OUT;;
  csr ← rd8 USB_RXCSR1;
  if nonzero (csr .& RXCSR1_RXPKTRDY) then handle_bulk_out rsp_feed else mret Returned.

Definition musb_poll (rsp_feed : list Z → M St ctl) : M St ctl :=
  intrrx ← rd8 USB_INTRRX1;
  intrtx ← rd8 USB_INTRTX1;
  intrusb ← rd8 USB_INTRUSB;
  if nonzero (intrusb .& INTRUSB_RESET) then
    bump_events;;
    handle_bus_reset;;
    mret Returned
  else
    when (nonzero (intrtx .& 0x01)) poll_ep0;;
    when (nonzero (intrtx .& 0x04)) poll_bulk_in;;
    if nonzero (intrrx .& 0x08) then poll_bulk_out rsp_feed else mret Returned.

Definition musb_activity : M St Z :=
  gets (λ s, let u := st_musb s in
    u32 (g_stat_reset u + g_stat_setup u + g_stat_stall u + g_stat_out u + g_stat_in u +
         g_stat_txdrop u)).

Definition musb_report : M St unit :=
  let field (name : string) (f : musb_st → Z) : M St unit :=
    v ← getU f; trace_reg (bytes_of name) v in
  trace_puts (bytes_of "--- counters ---" ++ [10]);;
  field "events" g_events;;
  field "resets" g_stat_reset;;
  field "setups" g_stat_setup;;
  field "stalls" g_stat_stall;;
  field "bulk_out" g_stat_out;;
  field "bulk_in" g_stat_in;;
  field "tx_drops" g_stat_txdrop;;
  field "high_speed" g_high_speed;;
  field "bulk_maxp" g_bulk_maxp;;
  field "line_state" g_line_state;;
  v1 ← rd8 USB_FADDR; trace_reg (bytes_of "faddr") v1;;
  v2 ← rd8 USB_POWER; trace_reg (bytes_of "power") v2;;
  v3 ← rd32 USB_MODE_STATUS; trace_reg (bytes_of "mode_status") v3;;
  v4 ← rd32 INT_STAT; trace_reg (bytes_of "int_stat") v4.

End Musb.

(** ** The transmit protocol

    An observer of the register writes of one IN endpoint, after the protocol
    that the head comment of musb.c states: forbid writes, fill the L2 window
    and advance the FIFO pointer, set TX_COUNT, start the pre-read, raise
    TxPktRdy, allow writes.  Any other order puts it in [TxDead]; so does a
    TxPktRdy while the FIFO pointer differs from TX_COUNT, because the wire
    length follows the pointer.  A packet is the first [to_count] bytes of the
    window at the moment of TxPktRdy. *)

Inductive tx_stage := TxIdle | TxOpen | TxCounted | TxArmed | TxSent | TxDead.

Record tx_port := TxPort {
  tp_ep : Z; tp_bit : Z; tp_rdy : Z; tp_fifo : Z; tp_count : Z; tp_win : Z; tp_size : Z;
}.
Definition bulk_in_port : tx_port :=
  TxPort EP_BULK_IN 1 0 USB_FIFO_EP2 USB_EP2_TX_COUNT L2_EP2_TX 512.
Definition ep0_port : tx_port := TxPort 0 0 1 USB_FIFO_EP0 USB_EP0_TX_COUNT L2_EP0 64.

Record tx_obs := TxObs {
  to_stage : tx_stage; to_index : Z; to_mem : mem; to_fifo : Z; to_count : Z;
  to_sent : list (list Z);
}.

Definition tx_step (p : tx_port) (c : tx_obs) (e : io) : tx_obs :=
  let 'TxObs st ix m f n out := c in
  match e with
  | IoRd _ _ _ => c
  | IoWr w a v =>
      if a =? USB_INDEX then TxObs st v m f n out
      else if a =? USB_FORBID_WRITE then
        match Z.testbit v (tp_bit p), st with
        | true, TxIdle => TxObs TxOpen ix m 0 n out
        | false, (TxSent | TxIdle) => TxObs TxIdle ix m f n out
        | _, _ => TxObs TxDead ix m f n out
        end
      else if (tp_win p <=? a) && (a <? tp_win p + tp_size p) then
        match st with
        | TxOpen => TxObs TxOpen ix (mset_list m a (le_split (nbytes w) v)) f n out
        | _ => TxObs TxDead ix m f n out
        end
      else if a =? tp_fifo p then
        match st with
        | TxOpen => TxObs TxOpen ix m (f + Z.of_nat (nbytes w)) n out
        | _ => TxObs TxDead ix m f n out
        end
      else if a =? tp_count p then
        match st with
        | TxOpen => TxObs TxCounted ix m f v out
        | _ => TxObs TxDead ix m f n out
        end
      else if (a =? USB_START_PRE_READ) && Z.testbit v (tp_bit p) then
        match st with
        | TxCounted => TxObs TxArmed ix m f n out
        | _ => TxObs TxDead ix m f n out
        end
      else if (a =? USB_CSR0_TXCSR1) && (ix =? tp_ep p) && Z.testbit v (tp_rdy p) then
        match st with
        | TxArmed => if f =? n then TxObs TxSent ix m f n (out ++ [mget_list m (tp_win p) (Z.to_nat n)])
                     else TxObs TxDead ix m f n out
        | _ => TxObs TxDead ix m f n out
        end
      else c
  end.

(** *** Words of the staging window *)

Definition word_bytes (p : list Z) (avail : Z) : list Z :=
  map (λ k, if k <? avail then znth p k else 0) [0; 1; 2; 3].


Lemma word_bytes_ok p avail : Forall byte_ok p → Forall byte_ok (word_bytes p avail).
Proof.
  intros Hp. unfold word_bytes. apply Forall_fmap, Forall_forall. intros k _. cbn.
  destruct (k <? avail); [by apply znth_ok|done].
Qed.

Lemma pack_le_bytes p avail : Forall byte_ok p → pack_le p avail = le_join (word_bytes p avail).
Proof.
  intros Hp. unfold pack_le, word_bytes. cbn [map].
  apply lor_bytes; destruct (_ <? avail); try (by apply znth_ok); done.
Qed.

Lemma load_le_fast p : 4 <= zlen p → le_join (take 4 p) = le_join (word_bytes p 4).
Proof.
  unfold zlen. intros Hl. destruct p as [|b0 [|b1 [|b2 [|b3 p]]]]; cbn in Hl; try lia. done.
Qed.

Lemma load_le_bytes al p avail :
  Forall byte_ok p → avail <= zlen p → load_le al p avail = le_join (word_bytes p avail).
Proof.
  intros Hp Ha. unfold load_le. destruct ((4 <=? avail) && _) eqn:E; [|by apply pack_le_bytes].
  apply andb_true_iff in E as [E%Z.leb_le _]. rewrite load_le_fast by lia. f_equal.
  unfold word_bytes. cbn [map]. rewrite !(proj2 (Z.ltb_lt _ avail)) by lia. done.
Qed.

(** The word load of [load_le] and the byte-by-byte [pack_le] agree, so the
    alignment of the buffer does not change what is sent. *)
Theorem load_le_pack_le al p avail :
  Forall byte_ok p → avail <= zlen p → load_le al p avail = pack_le p avail.
Proof. intros. rewrite load_le_bytes, pack_le_bytes by done. done. Qed.

(** *** One packet *)

Definition port_ok (p : tx_port) : Prop := tp_win p + tp_size p <= USB ∧ DDR_END <= tp_win p.

(** The first [cnt] bytes of the window at [win] are those of [data]. *)
Definition filled (win : Z) (m : mem) (data : list Z) (cnt : Z) : Prop :=
  ∀ j, 0 <= j < cnt → mget m (win + j) = znth data j.

Lemma filled_list win m data cnt :
  0 <= cnt <= zlen data → filled win m data cnt →
  mget_list m win (Z.to_nat cnt) = take (Z.to_nat cnt) data.
Proof.
  intros Hc Hf. unfold zlen in Hc. apply (nth_ext _ _ 0 0).
  - rewrite mget_list_length, length_take. lia.
  - rewrite mget_list_length. intros i Hi. rewrite mget_list_nth by done.
    rewrite Hf by lia. unfold znth. rewrite Nat2Z.id.
    rewrite <-(take_drop (Z.to_nat cnt) data) at 1. rewrite app_nth1; [done|].
    rewrite length_take. lia.
Qed.

Lemma filled_word win m data count k v :
  0 <= k →
  (∀ j, 0 <= j < 4 → 4 * k + j < count → nth (Z.to_nat j) (le_split 4 v) 0 = znth data (4 * k + j)) →
  filled win m data (Z.min (4 * k) count) →
  filled win (mset_list m (win + 4 * k) (le_split 4 v)) data (Z.min (4 * (k + 1)) count).
Proof.
  intros Hk Hv Hf j Hj. rewrite mget_mset_list. unfold zlen. rewrite le_split_length.
  change (Z.of_nat 4) with 4.
  destruct ((win + 4 * k <=? win + j) && (win + j <? win + 4 * k + 4)) eqn:E; [|apply Hf; lia].
  replace (win + j - (win + 4 * k)) with (j - 4 * k) by lia.
  rewrite Hv by lia. rewrite u8_id; [f_equal; lia|].
  rewrite <-Hv by lia. pose proof (le_split_ok 4 v) as Hok. rewrite List.Forall_forall in Hok.
  apply Hok, nth_In. rewrite le_split_length. lia.
Qed.

Lemma tx_step_win p ix m f n out a v :
  port_ok p → tp_win p <= a < tp_win p + tp_size p →
  tx_step p (TxObs TxOpen ix m f n out) (IoWr W32 a v) =
  TxObs TxOpen ix (mset_list m a (le_split 4 v)) f n out.
Proof.
  unfold port_ok. intros [Hp _] Ha. cbn [tx_step].
  rewrite !(proj2 (Z.eqb_neq a _)) by (unfold USB_INDEX, USB_FORBID_WRITE; lia).
  replace ((tp_win p <=? a) && _) with true by lia. done.
Qed.

Lemma nth_word_bytes p avail j :
  0 <= j < 4 → j < avail → nth (Z.to_nat j) (word_bytes p avail) 0 = znth p j.
Proof.
  intros Hj Ha. assert (j = 0 ∨ j = 1 ∨ j = 2 ∨ j = 3) as [-> |[-> |[-> | ->]]] by lia;
    unfold word_bytes; cbn [map];
    cbv [Z.to_nat Pos.to_nat Pos.iter_op Nat.add nth].
  all: by rewrite (proj2 (Z.ltb_lt _ avail)) by lia.
Qed.


(** A word of [data] as [load_le] fetches it. *)
Lemma load_le_nth al data count k j :
  Forall byte_ok data → 0 <= k → 0 <= j < 4 → 4 * k + j < count → count <= zlen data →
  nth (Z.to_nat j)
    (le_split 4 (u32 (load_le (al + 4 * k) (drop (Z.to_nat (4 * k)) data) (count - 4 * k)))) 0 =
  znth data (4 * k + j).
Proof.
  intros Hd Hk Hj Hc Hl.
  assert (Forall byte_ok (drop (Z.to_nat (4 * k)) data)) as Hdd by by apply Forall_drop.
  rewrite load_le_bytes by (try done; unfold zlen in *; rewrite length_drop; lia).
  pose proof (word_bytes_ok _ (count - 4 * k) Hdd) as Hw.
  rewrite u32_id by (pose proof (le_join_bound _ Hw) as Hb; exact Hb).
  rewrite (le_split_join _ Hw : le_split 4 _ = _).
  rewrite nth_word_bytes, znth_drop by lia. done.
Qed.

(** *** The control pipe *)

Section ep0.
Context {D : Type} `{!Device D}.
Abbreviation St := (stub D).

Definition ep0_ok (u : musb_st) : Prop :=
  length (g_ep0_buf u) = 128%nat ∧ Forall byte_ok (g_ep0_buf u) ∧
  (g_ep0_offset u = 0 ∨ g_ep0_offset u = 64) ∧
  0 <= g_ep0_remaining u ∧ g_ep0_offset u + g_ep0_remaining u <= 128.

(** The abstract state of the control pipe: the bytes still to be sent. *)
Definition ep0_pending (u : musb_st) : list Z :=
  take (Z.to_nat (g_ep0_remaining u)) (drop (Z.to_nat (g_ep0_offset u)) (g_ep0_buf u)).

Lemma ep0_pending_len u : ep0_ok u → zlen (ep0_pending u) = g_ep0_remaining u.
Proof.
  intros (Hl & _ & Ho & Hr & Hb). unfold zlen, ep0_pending. rewrite length_take, length_drop. lia.
Qed.


(** The reply to a request of [wLength] bytes. *)
Definition reply_of (data : list Z) (wLength : Z) : list Z :=
  take (Z.to_nat (Z.min wLength EP0_BUF_SIZE)) data.


Lemma ep0_fill_spec data wLength (s : St) :
  length (g_ep0_buf (st_musb s)) = 128%nat → Forall byte_ok data → 0 <= wLength →
  let s' := snd (ep0_fill data (zlen data) wLength s) in
  ep0_ok (st_musb s') ∧ ep0_pending (st_musb s') = reply_of data wLength ∧
  st_mach s' = st_mach s ∧ st_trace s' = st_trace s.
Proof.
  intros Hl Hd Hw. cbv zeta. unfold ep0_fill.
  set (len1 := if wLength <? zlen data then wLength else zlen data).
  set (len := if EP0_BUF_SIZE <? len1 then EP0_BUF_SIZE else len1).
  assert (len = Z.min (zlen data) (Z.min wLength 128)) as Hlen.
  { unfold len, len1, EP0_BUF_SIZE.
    destruct (wLength <? zlen data) eqn:?, (128 <? _) eqn:?; lia. }
  clearbody len. pose proof (zlen_nonneg data) as Hdl.
  set (f := λ i, if i <? len then znth data i else 0).
  enough (wp (for_to EP0_BUF_SIZE (λ i, updU (λ u, set_g_ep0_buf (zset (g_ep0_buf u) i (f i)) u));;
              updU (set_g_ep0_remaining len);; updU (set_g_ep0_offset 0))
    (λ _ s', ep0_ok (st_musb s') ∧ ep0_pending (st_musb s') = reply_of data wLength ∧
             st_mach s' = st_mach s ∧ st_trace s' = st_trace s) s) as H by exact H.
  apply wp_bind. eapply wp_mono.
  { apply (wp_for_range (λ i s', length (g_ep0_buf (st_musb s')) = 128%nat ∧
      (∀ j, 0 <= j < i → znth (g_ep0_buf (st_musb s')) j = f j) ∧
      st_mach s' = st_mach s ∧ st_trace s' = st_trace s)).
    - split_and!; [done| |done..]. lia.
    - intros i s1 Hi (Hl1 & Hj1 & Hm1 & Ht1). apply wp_modify.
      cbn [st_musb set_st_musb g_ep0_buf set_g_ep0_buf st_mach st_trace]. unfold EP0_BUF_SIZE in Hi.
      split_and!; [by unfold zset; rewrite length_insert| |done..].
      intros j Hj. destruct (Z.eq_dec i j) as [->|].
      + apply znth_zset_eq. unfold zlen. lia.
      + rewrite znth_zset_ne by lia. apply Hj1. lia. }
  cbn beta. intros _ s1 (Hl1 & Hj & Hm & Ht). change (0 + _) with 128 in Hj.
  do 2 (apply wp_bind, wp_modify || apply wp_modify). cbn.
  split_and!; try done.
  - unfold ep0_ok; cbn; split_and!; try lia; try by left.
    apply List.Forall_nth. intros i d Hi. rewrite (nth_indep _ _ 0) by done. rewrite Hl1 in Hi.
    specialize (Hj (Z.of_nat i) ltac:(lia)). unfold znth in Hj. rewrite Nat2Z.id in Hj. rewrite Hj.
    unfold f. destruct (Z.of_nat i <? len); [by apply znth_ok|done].
  - unfold ep0_pending, reply_of, EP0_BUF_SIZE. cbn. change (Z.to_nat 0) with 0%nat. rewrite drop_0.
    apply (nth_ext _ _ 0 0); rewrite !length_take; [unfold zlen in *; lia|].
    intros i Hi. rewrite Hl1 in Hi.
    assert (∀ n l, (i < n)%nat → nth i (take n l) 0 = nth i l 0) as Ht'.
    { intros n l Hn. pose proof (znth_take l (Z.of_nat n) (Z.of_nat i) ltac:(lia)) as H.
      unfold znth in H. by rewrite !Nat2Z.id in H. }
    rewrite !Ht' by (unfold zlen in *; lia).
    specialize (Hj (Z.of_nat i) ltac:(lia)). unfold znth in Hj. rewrite Nat2Z.id in Hj. rewrite Hj.
    unfold f. rewrite (proj2 (Z.ltb_lt _ _)) by lia. unfold znth. by rewrite Nat2Z.id.
Qed.

End ep0.

Section tx.
Context {D : Type} `{!Device D}.
Abbreviation SL := (stub (logged D)).

(** Only the device has moved. *)
Definition dev_only (s s' : SL) : Prop :=
  st_musb s' = st_musb s ∧ st_trace s' = st_trace s ∧ st_rsp s' = st_rsp s ∧
  ram (st_mach s') = ram (st_mach s).

Lemma dev_only_refl s : dev_only s s.
Proof. done. Qed.
Lemma dev_only_set s m s' :
  ram m = ram (machine_of s') → dev_only s s' → dev_only s (set_machine m s').
Proof. intros Hm (H1 & H2 & H3 & H4). split_and!; cbn in *; congruence. Qed.
Lemma dev_only_trans s s' s'' : dev_only s s' → dev_only s' s'' → dev_only s s''.
Proof. intros (? & ? & ? & ?) (? & ? & ? & ?). split_and!; congruence. Qed.

(** Fill the window and advance the FIFO pointer to [count], in either of the
    two ways of the source. *)
Lemma gwp_fill p word data count stage ix m n out s :
  port_ok p → 0 <= count <= stage → stage <= tp_size p → stage mod 4 = 0 →
  USB <= tp_fifo p → in_ddr (tp_fifo p) = false → tp_fifo p ≠ USB_INDEX → tp_fifo p ≠ USB_FORBID_WRITE →
  (∀ k j, 0 <= k → 0 <= j < 4 → 4 * k + j < count →
     nth (Z.to_nat j) (le_split 4 (u32 (word (4 * k)))) 0 = znth data (4 * k + j)) →
  let bytewise := for_to count (λ _, wr8 (tp_fifo p) 0);;
                  for_words stage (λ i, wr32 (tp_win p + i) (word i)) in
  let wordwise := for_words stage (λ i, wr32 (tp_win p + i) (word i);; wr32 (tp_fifo p) 0) in
  let Q := (λ (f : Z) (_ : unit) c' s', ∃ m', c' = TxObs TxOpen ix m' f n out ∧
               filled (tp_win p) m' data count ∧ dev_only s s') in
  gwp (tx_step p) bytewise (Q count) (TxObs TxOpen ix m 0 n out) s ∧
  gwp (tx_step p) wordwise (Q stage) (TxObs TxOpen ix m 0 n out) s.
Proof.
  intros Hp Hc Hs H4 Hf Hfd Hfi Hff Hw. cbv zeta.
  assert (∀ k, 0 <= k < (stage + 3) / 4 → tp_win p <= tp_win p + 4 * k < tp_win p + tp_size p) as Hk
    by (intros; zlia).
  assert (∀ a, tp_win p <= a → in_ddr a = false) as Hd
    by (intros; apply in_ddr_false; destruct Hp; lia).
  assert (∀ w m f, tx_step p (TxObs TxOpen ix m f n out) (IoWr w (tp_fifo p) 0) =
                   TxObs TxOpen ix m (f + Z.of_nat (nbytes w)) n out) as Hpoke.
  { intros w m' f. cbn [tx_step]. rewrite !(proj2 (Z.eqb_neq _ _)) by done.
    replace ((tp_win p <=? tp_fifo p) && _) with false by (destruct Hp; lia).
    by rewrite Z.eqb_refl. }
  assert (4 * ((stage + 3) / 4) = stage) as H4s by zlia.
  split.
  - apply gwp_bind. eapply gwp_mono.
    { apply (gwp_for_to _ (λ i c s', c = TxObs TxOpen ix m i n out ∧ dev_only s s')); [lia|done|].
      intros i c s1 Hi [-> Hs1]. apply gwp_wr; [done|]. intros m1 Hm1. rewrite Hpoke.
      split; [done|by apply dev_only_set]. }
    intros _ c1 s1 [-> Hs1]. unfold for_words. eapply gwp_mono.
    { apply (gwp_for_to _ (λ k c s', ∃ m', c = TxObs TxOpen ix m' count n out ∧
        filled (tp_win p) m' data (Z.min (4 * k) count) ∧ dev_only s s')); [zlia| |].
      - exists m. split_and!; [done| |done]. intros j Hj. lia.
      - intros k c s2 Hk2 (m2 & -> & Hm2 & Hs2). apply gwp_wr; [apply Hd; specialize (Hk k); lia|].
        intros m3 Hm3. rewrite tx_step_win by auto. eexists. split_and!; [done| |by apply dev_only_set].
        apply filled_word; [lia| |done]. intros. apply Hw; lia. }
    intros _ c2 s2 (m2 & -> & Hm2 & Hs2). exists m2. split_and!; [done| |done].
    rewrite H4s, Z.min_r in Hm2 by lia. done.
  - unfold for_words. eapply gwp_mono.
    { apply (gwp_for_to _ (λ k c s', ∃ m', c = TxObs TxOpen ix m' (4 * k) n out ∧
        filled (tp_win p) m' data (Z.min (4 * k) count) ∧ dev_only s s')); [zlia| |].
      - exists m. split_and!; [done| |done]. intros j Hj. lia.
      - intros k c s2 Hk2 (m2 & -> & Hm2 & Hs2). apply gwp_bind, gwp_wr; [apply Hd; specialize (Hk k); lia|].
        intros m3 Hm3. rewrite tx_step_win by auto. apply gwp_wr; [done|]. intros m4 Hm4. rewrite Hpoke.
        cbn [nbytes]. replace (4 * k + Z.of_nat 4) with (4 * (k + 1)) by lia.
        eexists. split_and!; [done| |do 2 (apply dev_only_set; [done|]); done].
        apply filled_word; [lia| |done]. intros. apply Hw; lia. }
    intros _ c2 s2 (m2 & -> & Hm2 & Hs2). exists m2. rewrite H4s in *. split_and!; [done| |done].
    rewrite Z.min_r in Hm2 by lia. done.
Qed.

(** The register accesses around the fill. *)
Lemma gwp_reg w a v (Q : unit → tx_obs → SL → Prop) p c c' s0 s :
  in_ddr a = false → tx_step p c (IoWr w a (wtrunc w v)) = c' → dev_only s0 s →
  (∀ s', dev_only s0 s' → Q tt c' s') → gwp (tx_step p) (wr w a v) Q c s.
Proof. intros Ha <- Hs HQ. apply gwp_wr; [done|]. intros. by apply HQ, dev_only_set. Qed.
Lemma gwp_rmw w a f (Q : unit → tx_obs → SL → Prop) p c c' s0 s :
  in_ddr a = false → (∀ v, tx_step p c (IoWr w a (wtrunc w (f v))) = c') → dev_only s0 s →
  (∀ s', dev_only s0 s' → Q tt c' s') → gwp (tx_step p) (rmw w a f) Q c s.
Proof.
  intros Ha Hc Hs HQ. apply gwp_bind, gwp_rd; [done|]. intros v m Hm.
  replace (tx_step p c (IoRd w a v)) with c by by destruct c.
  eapply gwp_reg; eauto using dev_only_set.
Qed.
Lemma gwp_rd_reg w a (Q : Z → tx_obs → SL → Prop) p c s0 s :
  in_ddr a = false → dev_only s0 s →
  (∀ v s', dev_only s0 s' → Q v c s') → gwp (tx_step p) (rd w a) Q c s.
Proof.
  intros Ha Hs HQ. apply gwp_rd; [done|]. intros v m Hm.
  replace (tx_step p c (IoRd w a v)) with c by by destruct c. by apply HQ, dev_only_set.
Qed.

Lemma mask_set b v : 0 <= b < 32 → Z.testbit (u32 (v .| (1 .<< b))) b = true.
Proof.
  intros Hb. rewrite testbit_u32, Z.lor_spec, Z.shiftl_spec, Z.sub_diag by lia. apply orb_true_r.
Qed.
Lemma mask_clear b v : 0 <= b < 32 → Z.testbit (u32 (v .& not32 (1 .<< b))) b = false.
Proof.
  intros Hb. rewrite testbit_u32, Z.land_spec by lia.
  assert (Z.testbit (not32 (1 .<< b)) b = false) as ->; [|apply andb_false_r].
  unfold not32. rewrite u32_id.
  - replace (4294967295 - 1 .<< b) with (Z.ldiff (Z.ones 32) (1 .<< b)).
    { rewrite Z.ldiff_spec, Z.shiftl_spec, Z.sub_diag by lia. apply andb_false_r. }
    symmetry. apply Z.sub_nocarry_ldiff, Z.bits_inj'. intros n Hn.
    rewrite Z.ldiff_spec, Z.bits_0, Z.shiftl_spec by lia.
    destruct (Z.eq_dec n b) as [->|]; [by rewrite Z.testbit_ones_nonneg, (proj2 (Z.ltb_lt b 32)), andb_false_r by lia|].
    destruct (Z_lt_le_dec n b); [by rewrite Z.testbit_neg_r by lia|].
    by rewrite (Z.bits_above_log2 1) by (cbn; lia).
  - unfold word_ok. rewrite Z.shiftl_mul_pow2 by lia.
    assert (2 ^ b <= 2 ^ 31) by (apply Z.pow_le_mono_r; lia).
    change (2 ^ 31) with 2147483648 in *. lia.
Qed.

(** The transitions of the observer that the protocol uses. *)
Lemma step_index p st ix m f n out v :
  tx_step p (TxObs st ix m f n out) (IoWr W8 USB_INDEX v) = TxObs st v m f n out.
Proof. done. Qed.
Lemma step_open p ix m f n out v :
  0 <= tp_bit p < 32 →
  tx_step p (TxObs TxIdle ix m f n out) (IoWr W32 USB_FORBID_WRITE (u32 (v .| (1 .<< tp_bit p)))) =
  TxObs TxOpen ix m 0 n out.
Proof. intros. cbn [tx_step]. change (_ =? USB_INDEX) with false. rewrite Z.eqb_refl, mask_set by done. done. Qed.
Lemma step_close p ix m f n out v :
  0 <= tp_bit p < 32 →
  tx_step p (TxObs TxSent ix m f n out) (IoWr W32 USB_FORBID_WRITE (u32 (v .& not32 (1 .<< tp_bit p)))) =
  TxObs TxIdle ix m f n out.
Proof. intros. cbn [tx_step]. change (_ =? USB_INDEX) with false. rewrite Z.eqb_refl, mask_clear by done. done. Qed.
Lemma step_count p ix m f n out v :
  p = bulk_in_port ∨ p = ep0_port →
  tx_step p (TxObs TxOpen ix m f n out) (IoWr W32 (tp_count p) v) = TxObs TxCounted ix m f v out.
Proof. by intros [-> | ->]. Qed.
Lemma step_arm p ix m f n out v :
  p = bulk_in_port ∨ p = ep0_port →
  tx_step p (TxObs TxCounted ix m f n out)
    (IoWr W32 USB_START_PRE_READ (u32 (v .| (1 .<< tp_bit p)))) = TxObs TxArmed ix m f n out.
Proof.
  intros Hp. assert (Z.testbit (u32 (v .| (1 .<< tp_bit p))) (tp_bit p) = true) as H
    by (apply mask_set; by destruct Hp as [-> | ->]).
  cbn [tx_step]. rewrite H. by destruct Hp as [-> | ->].
Qed.

Lemma step_ready p ix m n out w v :
  p = bulk_in_port ∨ p = ep0_port → ix = tp_ep p → v = 1 .<< tp_rdy p →
  tx_step p (TxObs TxArmed ix m n n out) (IoWr w USB_CSR0_TXCSR1 v) =
  TxObs TxSent ix m n n (out ++ [mget_list m (tp_win p) (Z.to_nat n)]).
Proof.
  intros [-> | ->] -> ->; unfold tx_step; rewrite (Z.eqb_refl n); done.
Qed.

Lemma for_words_round n (body : Z → M SL unit) : for_words n body = for_words (4 * ((n + 3) / 4)) body.
Proof. unfold for_words. f_equal. zlia. Qed.

Lemma gwp_send_packet al data count ix m f n out s :
  0 < count <= 512 → count <= zlen data → Forall byte_ok data →
  gwp (tx_step bulk_in_port) (send_packet al data count)
    (λ _ c' s', dev_only s s' ∧ ∃ m',
       c' = TxObs TxIdle EP_BULK_IN m' count count (out ++ [take (Z.to_nat count) data]))
    (TxObs TxIdle ix m f n out) s.
Proof.
  intros Hc Hl Hd. unfold send_packet.
  apply gwp_bind. eapply gwp_reg; [done|apply step_index|apply dev_only_refl|]. intros s1 Hs1.
  apply gwp_bind. eapply gwp_rmw; [done|intros v; exact (step_open bulk_in_port _ _ _ _ _ _ ltac:(done))|exact Hs1|].
  intros s2 Hs2.
  pose (word := λ i, load_le (al + i) (drop (Z.to_nat i) data) (count - i)).
  assert (∀ k j, 0 <= k → 0 <= j < 4 → 4 * k + j < count →
    nth (Z.to_nat j) (le_split 4 (u32 (word (4 * k)))) 0 = znth data (4 * k + j)) as Hw
    by (intros; unfold word; apply load_le_nth; lia || done).
  apply gwp_bind.
  apply (gwp_mono _ _ (λ _ c' s', ∃ m', c' = TxObs TxOpen EP_BULK_IN m' count n out ∧
    filled L2_EP2_TX m' data count ∧ dev_only s2 s')).
  { assert (port_ok bulk_in_port) as Hp by done.
    rewrite !(for_words_round count).
    set (stage := 4 * ((count + 3) / 4)).
    destruct (gwp_fill bulk_in_port word data count stage EP_BULK_IN m n out s2) as [Hb Hwd];
      [done|unfold stage; zlia|unfold stage; cbn; zlia|unfold stage; zlia|done..|].
    destruct (nonzero (count .& 3)) eqn:E; [exact Hb|].
    assert (stage = count) as Hst.
    { unfold nonzero in E. apply negb_false_iff, Z.eqb_eq in E.
      rewrite (land_low _ 2) in E by done. change (2 ^ 2) with 4 in E. unfold stage. zlia. }
    rewrite Hst in Hwd |- *. exact Hwd. }
  intros _ c3 s3 (m3 & -> & Hm3 & Hs3). pose proof (dev_only_trans _ _ _ Hs2 Hs3) as Hs3'.
  apply gwp_bind. eapply gwp_reg; [done|apply (step_count bulk_in_port); by left|exact Hs3'|].
  intros s4 Hs4. cbn [wtrunc]. rewrite u32_id by (unfold word_ok; lia).
  apply gwp_bind. eapply gwp_rmw; [done|intros v; apply (step_arm bulk_in_port); by left|exact Hs4|].
  intros s5 Hs5.
  apply gwp_bind. eapply gwp_reg with
    (c' := TxObs TxSent EP_BULK_IN m3 count count (out ++ [take (Z.to_nat count) data]));
    [done| |exact Hs5|].
  { rewrite <-(filled_list _ _ _ _ (conj (Z.lt_le_incl _ _ (proj1 Hc)) Hl) Hm3).
    apply (step_ready bulk_in_port); first [by left|done]. }
  intros s6 Hs6.
  eapply gwp_rmw; [done|intros v; exact (step_close bulk_in_port _ _ _ _ _ _ ltac:(done))|exact Hs6|].
  intros s7 Hs7. split; [done|]. by exists m3.
Qed.

(** *** A transfer *)

Lemma gwp_bulk_tx_wait c ix m f n out s :
  c = TxObs TxIdle ix m f n out →
  gwp (tx_step bulk_in_port) bulk_tx_wait
    (λ (ok : bool) c' s', c' = TxObs TxIdle EP_BULK_IN m f n out ∧
       (if ok then dev_only s s'
        else ∃ s1, dev_only s s1 ∧
             s' = set_st_musb (set_g_stat_txdrop (u32 (g_stat_txdrop (st_musb s1) + 1)) (st_musb s1)) s1)) c s.
Proof.
  intros ->. unfold bulk_tx_wait.
  apply gwp_bind. eapply gwp_reg; [done|apply step_index|apply dev_only_refl|]. intros s1 Hs1.
  apply gwp_bind. eapply gwp_mono.
  { apply (gwp_spin _ (λ c' s', c' = TxObs TxIdle EP_BULK_IN m f n out ∧ dev_only s s') (λ _, True)); [done|].
    intros c2 s2 [-> Hs2]. apply gwp_bind. eapply gwp_rd_reg; [done|exact Hs2|].
    intros v s3 Hs3. by apply gwp_ret. }
  cbn. intros [[]|] c4 s4 [[-> Hs4] _]; [by apply gwp_ret|].
  apply gwp_bind, gwp_modify; [done|]. apply gwp_ret. split; [done|]. by exists s4.
Qed.

Lemma packet_size_bound maxp len :
  2 <= maxp → 0 < len → 0 < packet_size maxp len <= Z.min maxp len.
Proof.
  intros. unfold packet_size. destruct (maxp <? len) eqn:E;
    [destruct ((maxp =? len) && _) eqn:E2|destruct ((len =? len) && (len =? maxp)) eqn:E2]; lia.
Qed.

Lemma packet_size_end maxp len :
  0 < maxp → 0 < len → packet_size maxp len = len → len < maxp.
Proof.
  intros. unfold packet_size in *. destruct (maxp <? len) eqn:E;
    [destruct ((maxp =? len) && _) eqn:E2|destruct ((len =? len) && (len =? maxp)) eqn:E2]; lia.
Qed.

(** The sizes of the packets for [len] bytes: full packets while more than one is
    left, then the rest; a rest that is full itself goes a byte short, and
    its last byte alone, so that the transfer ends with a short packet. *)
Definition wire_sizes (maxp len : Z) : list Z :=
  if len <=? 0 then []
  else
    let q := (len - 1) / maxp in
    let r := len - q * maxp in
    replicate (Z.to_nat q) maxp ++ (if r =? maxp then [maxp - 1; 1] else [r]).

Lemma wire_sizes_next maxp len :
  2 <= maxp → 0 < len → wire_sizes maxp len = packet_size maxp len :: wire_sizes maxp (len - packet_size maxp len).
Proof.
  intros Hm Hl. unfold packet_size. destruct (Z.ltb_spec maxp len) as [H|H].
  - rewrite (proj2 (Z.eqb_neq maxp len)) by lia. cbn [andb]. unfold wire_sizes.
    rewrite !(proj2 (Z.leb_gt _ _)) by lia. cbv zeta.
    assert ((len - 1) / maxp = (len - maxp - 1) / maxp + 1) as ->.
    { rewrite <-Z.div_add by lia. f_equal. lia. }
    assert (0 <= (len - maxp - 1) / maxp) by (apply Z.div_pos; lia). rewrite Z2Nat.inj_add, Nat.add_1_r by lia. cbn [replicate app].
    replace (len - ((len - maxp - 1) / maxp + 1) * maxp) with (len - maxp - (len - maxp - 1) / maxp * maxp) by lia. done.
  - unfold wire_sizes. rewrite (proj2 (Z.leb_gt len 0)) by lia. cbv zeta. rewrite (Z.div_small (len - 1)) by lia. cbn [Z.to_nat replicate app].
    rewrite Z.mul_0_l, Z.sub_0_r, Z.eqb_refl. cbn [andb]. destruct (Z.eqb_spec len maxp) as [->|Hne].
    + replace (maxp - (maxp - 1)) with 1 by lia. cbn [Z.leb Z.compare]. rewrite Z.div_small by lia. cbn [Z.to_nat replicate app].
      change (1 - 0 * maxp) with 1. by rewrite (proj2 (Z.eqb_neq 1 maxp)) by lia.
    + by rewrite Z.sub_diag.
Qed.

(** The packets [pkts] carry [sent]; the host sees the end of a transfer at a
    packet that is not full. *)
Definition carries (maxp : Z) (sent : list Z) (pkts : list (list Z)) : Prop :=
  concat pkts = sent ∧ Forall (λ p, 0 < zlen p <= maxp) pkts.
Definition short_end (maxp : Z) (pkts : list (list Z)) : Prop :=
  ∀ l p, pkts = l ++ [p] → zlen p < maxp.

(** The statement of the transfer theorem, for a loop with enough fuel. *)
Definition transfer_done (data : list Z) (out : list (list Z)) (s : SL) (c' : tx_obs) (s' : SL) : Prop :=
  let maxp := g_bulk_maxp (st_musb s) in
  to_stage c' = TxIdle ∧ g_bulk_maxp (st_musb s') = maxp ∧
  ∃ pkts rest, to_sent c' = out ++ pkts ∧ data = concat pkts ++ rest ∧
    carries maxp (concat pkts) pkts ∧ map zlen pkts `prefix_of` wire_sizes maxp (zlen data) ∧
    (rest = [] ∧ map zlen pkts = wire_sizes maxp (zlen data) ∧ short_end maxp pkts ∧ g_stat_txdrop (st_musb s') = g_stat_txdrop (st_musb s) ∨
     g_stat_txdrop (st_musb s') = u32 (g_stat_txdrop (st_musb s) + 1)).

Lemma gwp_bulk_loop fuel al data ix m f n out s :
  (length data <= fuel)%nat → Forall byte_ok data → 2 <= g_bulk_maxp (st_musb s) <= 512 →
  gwp (tx_step bulk_in_port) (bulk_send_loop fuel al data)
    (λ _ c' s', transfer_done data out s c' s') (TxObs TxIdle ix m f n out) s.
Proof.
  revert al data ix m f n out s.
  induction fuel as [|fuel IH]; intros al data ix m f n out s Hf Hd Hm; cbn [bulk_send_loop].
  { destruct data; cbn in Hf; [|lia]. apply gwp_skip. split_and!; [done..|].
    exists [], []. rewrite app_nil_r. split_and!; [done..| |]; [apply prefix_nil|]. left. split_and!; [done|done| |done].
    intros l p Hl. by destruct l. }
  destruct (nonzero (zlen data)) eqn:E.
  2: { unfold nonzero in E. apply negb_false_iff, Z.eqb_eq in E. destruct data; [|done].
    apply gwp_skip. split_and!; [done..|].
    exists [], []. rewrite app_nil_r. split_and!; [done..| |]; [apply prefix_nil|]. left. split_and!; [done|done| |done].
    intros l p Hl. by destruct l. }
  assert (0 < zlen data) as Hlen.
  { unfold nonzero in E. apply negb_true_iff, Z.eqb_neq in E. pose proof (zlen_nonneg data). lia. }
  clear E. apply gwp_bind, gwp_gets. set (maxp := g_bulk_maxp (st_musb s)) in *.
  pose proof (packet_size_bound maxp (zlen data) ltac:(lia) Hlen) as Hb.
  pose proof (packet_size_end maxp (zlen data) ltac:(lia) Hlen) as He.
  pose proof (wire_sizes_next maxp (zlen data) ltac:(lia) Hlen) as Hw.
  cbv zeta. set (count := packet_size maxp (zlen data)) in *. clearbody count.
  apply gwp_bind. eapply gwp_mono; [by eapply gwp_bulk_tx_wait|].
  cbn beta. intros [] c1 s1 [-> Hs1].
  2: { apply gwp_skip. destruct Hs1 as (s2 & (Hu & _) & ->). split_and!; [done|by cbn; rewrite Hu|].
    exists [], data. rewrite app_nil_r. split_and!; [done..| |]; [apply prefix_nil|]. right. cbn. by rewrite Hu. }
  apply gwp_bind. eapply gwp_mono; [apply gwp_send_packet; (done || lia)|].
  cbn beta. intros _ c2 s2 [Hs2 (m2 & ->)]. pose proof (dev_only_trans _ _ _ Hs1 Hs2) as (Hu & _).
  apply gwp_bind, gwp_modify; [done|].
  set (s3 := set_st_musb _ s2).
  assert (g_bulk_maxp (st_musb s3) = maxp ∧ g_stat_txdrop (st_musb s3) = g_stat_txdrop (st_musb s))
    as [Hm3 Hd3] by (cbn; by rewrite Hu). clearbody s3.
  set (pk := take (Z.to_nat count) data).
  assert (zlen pk = count) as Hpk by (unfold pk, zlen in *; rewrite length_take; lia).
  eapply gwp_mono; [apply IH; [unfold zlen in *; rewrite length_drop; lia|by apply Forall_drop|by rewrite Hm3]|].
  cbn beta. intros _ c4 s4 (Hst & Hmx & pkts & rest & Hsent & Hdata & (_ & Hsz) & Hpre & Hend).
  rewrite Hm3, Hd3 in *. split_and!; [done..|].
  assert (zlen (drop (Z.to_nat count) data) = zlen data - count) as Hdrop by (unfold zlen in *; rewrite length_drop; lia).
  change (g_bulk_maxp (st_musb s)) with maxp. rewrite Hdrop in *. exists (pk :: pkts), rest. rewrite Hsent, <-app_assoc. split_and!; [done| | | |].
  - cbn. rewrite <-app_assoc, <-Hdata. unfold pk. by rewrite take_drop.
  - split; [done|]. constructor; [lia|done].
  - rewrite Hw. cbn [map]. rewrite Hpk. by apply prefix_cons.
  - destruct Hend as [(-> & Heq & Hsh & Ht)|Ht]; [left|by right]. split_and!; [done|rewrite Hw; cbn [map]; by rewrite Hpk, Heq| |done].
    intros [|q l] p Hl; injection Hl as <- Hl; [|by apply (Hsh l)].
    subst pkts. rewrite Hpk. apply (f_equal zlen) in Hdata. cbn in Hdata.
    rewrite Hdrop, zlen_nil in Hdata. lia.
Qed.

(** C34: the bulk IN transfer.  For every device, the register writes of
    [musb_bulk_send] follow the transmit protocol of the controller, and the
    packets that reach the wire carry the data in order and have the sizes of
    [wire_sizes]: all are full but the last one or two, and the last is short,
    so that the host's request completes.  If the endpoint stays busy for a
    whole wait, a prefix was sent, in packets of these sizes, and the drop
    counter has moved. *)
Theorem musb_bulk_send_stream al data ix m f n out s :
  Forall byte_ok data → 2 <= g_bulk_maxp (st_musb s) <= 512 →
  gwp (tx_step bulk_in_port) (musb_bulk_send al data)
    (λ _ c' s', transfer_done data out s c' s') (TxObs TxIdle ix m f n out) s.
Proof. intros. by apply gwp_bulk_loop. Qed.

(** *** Control transfers, device to host *)

Lemma gwp_logs {A} (m : M SL A) (Q : A → tx_obs → SL → Prop) p c s :
  steps logs m → trace_ok s →
  (∀ a s', trace_ok s' → st_musb s' = st_musb s → Q a c s') → gwp (tx_step p) m Q c s.
Proof.
  intros Hm Hs HQ. destruct (Hm s Hs) as (Hok & Hd & Hu & _).
  apply gwp_quiet; [|by apply HQ]. unfold log_of. cbn. by rewrite Hd.
Qed.

Lemma dev_only_trace s s' : dev_only s s' → trace_ok s → trace_ok s'.
Proof. intros (_ & Ht & _) [H1 H2]. unfold trace_ok. by rewrite Ht. Qed.

Lemma src_word_nth src k j :
  Forall byte_ok src → 0 <= k → 0 <= j < 4 → 4 * k + 4 <= zlen src →
  nth (Z.to_nat j) (le_split 4 (u32 (src_word src (4 * k)))) 0 = znth src (4 * k + j).
Proof.
  intros Hs Hk Hj Hl. unfold src_word.
  assert (Forall byte_ok (drop (Z.to_nat (4 * k)) src)) as Hd by by apply Forall_drop.
  rewrite load_le_fast by (unfold zlen in *; rewrite length_drop; lia).
  pose proof (word_bytes_ok _ 4 Hd) as Hw.
  rewrite u32_id by (pose proof (le_join_bound _ Hw) as Hb; exact Hb).
  rewrite (le_split_join _ Hw : le_split 4 _ = _), nth_word_bytes, znth_drop by lia. done.
Qed.

Lemma step_csr_other p st ix m f n out w v :
  p = bulk_in_port ∨ p = ep0_port → Z.testbit v (tp_rdy p) = false →
  tx_step p (TxObs st ix m f n out) (IoWr w USB_CSR0_TXCSR1 v) = TxObs st ix m f n out.
Proof. intros [-> | ->] Hv; unfold tx_step; rewrite Hv, !andb_false_r; done. Qed.

Lemma gwp_ep0_packet src data count (last : bool) m f n out s :
  Forall byte_ok src → 64 <= zlen src → 0 < count <= 64 → data = take (Z.to_nat count) src →
  (last = false → count = 64) →
  gwp (tx_step ep0_port) (ep0_packet src count last)
    (λ _ c' s', dev_only s s' ∧ to_stage c' = TxIdle ∧ to_index c' = 0 ∧ to_sent c' = out ++ [data])
    (TxObs TxIdle 0 m f n out) s.
Proof.
  intros Hsb Hsrc Hc Hdata Hlast.
  assert (zlen data = count) as Hdl by (rewrite Hdata; unfold zlen in *; rewrite length_take; lia).
  unfold ep0_packet.
  apply gwp_bind. eapply gwp_rmw; [done|intros v; exact (step_open ep0_port _ _ _ _ _ _ ltac:(done))
                                  |apply dev_only_refl|].
  intros s2 Hs2.
  assert (∀ k j, 0 <= k → 0 <= j < 4 → 4 * k + j < count →
    nth (Z.to_nat j) (le_split 4 (u32 (src_word src (4 * k)))) 0 = znth data (4 * k + j)) as Hw.
  { intros k j Hk Hj Hkj. rewrite src_word_nth, Hdata, znth_take by (done || zlia). done. }
  apply gwp_bind.
  apply (gwp_mono _ _ (λ _ c' s', ∃ m', c' = TxObs TxOpen 0 m' count n out ∧
    filled L2_EP0 m' data count ∧ dev_only s2 s')).
  { destruct (gwp_fill ep0_port (src_word src) data count EP0_STAGE 0 m n out s2) as [Hbw Hww];
      [done|unfold EP0_STAGE; lia|done..|].
    destruct last; [exact Hbw|]. rewrite Hlast by done. rewrite Hlast in Hww by done. exact Hww. }
  intros _ c3 s3 (m3 & -> & Hm3 & Hs3). pose proof (dev_only_trans _ _ _ Hs2 Hs3) as Hs3'.
  apply gwp_bind. eapply gwp_reg; [done|apply (step_count ep0_port); by right|exact Hs3'|].
  intros s4 Hs4. cbn [wtrunc]. rewrite u32_id by (unfold word_ok; lia).
  apply gwp_bind. eapply gwp_rmw; [done|intros v; apply (step_arm ep0_port); by right|exact Hs4|].
  intros s5 Hs5.
  apply gwp_bind. eapply gwp_reg with (c' := TxObs TxSent 0 m3 count count (out ++ [data]));
    [done| |exact Hs5|].
  { assert (data = mget_list m3 L2_EP0 (Z.to_nat count)) as ->.
    { rewrite (filled_list _ _ data) by (done || lia). rewrite take_ge; [done|]. unfold zlen in Hdl. lia. }
    apply (step_ready ep0_port); by first [by right|done]. }
  intros s6 Hs6. apply gwp_bind, gwp_when; intros _.
  - eapply gwp_reg; [done|apply (step_csr_other ep0_port); by first [by right|done]|exact Hs6|].
    intros s7 Hs7. eapply gwp_rmw; [done|intros v; exact (step_close ep0_port _ _ _ _ _ _ ltac:(done))|exact Hs7|].
    done.
  - eapply gwp_rmw; [done|intros v; exact (step_close ep0_port _ _ _ _ _ _ ltac:(done))|exact Hs6|]. done.
Qed.

Lemma gwp_ep0_trace count last p c s :
  trace_ok s →
  gwp (tx_step p) (ep0_trace_chunk count last)
    (λ _ c' s', c' = c ∧ trace_ok s' ∧
       ∃ k, st_musb s' = set_g_ep0_chunks k (st_musb s)) c s.
Proof.
  intros Hs. unfold ep0_trace_chunk. apply gwp_bind, gwp_gets, gwp_when; intros _.
  2: { split_and!; [done..|]. exists (g_ep0_chunks (st_musb s)). by destruct (st_musb s). }
  apply gwp_bind, gwp_modify; [done|]. set (s1 := set_st_musb _ s).
  assert (trace_ok s1) as H1 by exact Hs.
  assert (∃ k, st_musb s1 = set_g_ep0_chunks k (st_musb s)) as Hk by by eexists.
  clearbody s1. do 4 (apply gwp_bind; eapply gwp_logs;
    [eauto with steps|eassumption|]; intros _ ? ? Hu; rewrite <-Hu in Hk; clear Hu).
  apply gwp_bind. eapply gwp_rd_reg; [done|apply dev_only_refl|]. intros v1 s6 Hs6.
  pose proof (dev_only_trace _ _ Hs6 ltac:(eassumption)) as H6.
  assert (∃ k, st_musb s6 = set_g_ep0_chunks k (st_musb s)) as Hk6
    by (destruct Hs6 as [-> _]; exact Hk).
  do 2 (apply gwp_bind; eapply gwp_logs;
    [eauto with steps|eassumption|]; intros _ ? ? Hu; rewrite <-Hu in Hk6; clear Hu).
  apply gwp_bind. eapply gwp_rd_reg; [done|apply dev_only_refl|]. intros v2 s9 Hs9.
  pose proof (dev_only_trace _ _ Hs9 ltac:(eassumption)) as H9.
  assert (∃ k, st_musb s9 = set_g_ep0_chunks k (st_musb s)) as Hk9
    by (destruct Hs9 as [-> _]; exact Hk6).
  apply gwp_bind. eapply gwp_logs; [eauto with steps|eassumption|]. intros _ s10 H10 Hu.
  eapply gwp_logs; [eauto with steps|eassumption|]. intros _ s11 H11 Hu'.
  rewrite Hu', Hu. done.
Qed.

(** One packet of a control transfer.  [ep0_send_chunk] follows the transmit
    protocol, puts the next at most 64 pending bytes on the wire and removes
    them from the pending bytes; with nothing pending it only completes the
    status stage.  The 64 bytes it stages are inside the buffer. *)
Lemma gwp_ep0_send_chunk ix m f n out s :
  ep0_ok (st_musb s) → trace_ok s →
  let pending := ep0_pending (st_musb s) in
  gwp (tx_step ep0_port) ep0_send_chunk
    (λ _ c' s', ep0_ok (st_musb s') ∧ trace_ok s' ∧ to_stage c' = TxIdle ∧ to_index c' = 0 ∧
       ep0_pending (st_musb s') = drop 64 pending ∧
       to_sent c' = out ++ (if pending is [] then [] else [take 64 pending]))
    (TxObs TxIdle ix m f n out) s.
Proof.
  intros Hok Htr. cbv zeta. pose proof (ep0_pending_len _ Hok) as Hpl.
  destruct Hok as (Hl & Hby & Ho & Hr & Hb). unfold ep0_send_chunk.
  do 3 (apply gwp_bind, gwp_gets). cbv zeta.
  set (u := st_musb s) in *. set (off := g_ep0_offset u) in *. set (r := g_ep0_remaining u) in *.
  set (src := drop (Z.to_nat off) (g_ep0_buf u)).
  assert (64 <= zlen src) as Hsrc by (unfold src, zlen; rewrite length_drop; lia).
  assert (Forall byte_ok src) as Hsb by by apply Forall_drop.
  set (count := if EP0_MAXP <? r then EP0_MAXP else r).
  assert (count = Z.min 64 r) as Hc by (unfold count, EP0_MAXP; destruct (64 <? r) eqn:?; lia).
  clearbody count.
  apply gwp_bind. eapply gwp_reg; [done|apply step_index|apply dev_only_refl|]. intros s1 Hs1.
  change (u8 0) with 0.
  assert (st_musb s1 = u) as Hu1 by apply Hs1.
  destruct (negb (nonzero r)) eqn:E.
  { unfold nonzero in E. rewrite negb_involutive in E. apply Z.eqb_eq in E.
    apply gwp_bind, gwp_modify; [done|]. apply gwp_wr; [done|]. intros m2 Hm2.
    rewrite step_csr_other by (by right || done).
    assert (ep0_pending u = []) as ->
      by (unfold ep0_pending; fold r; by rewrite E).
    rewrite drop_nil, app_nil_r. refine (conj _ (conj _ (conj _ (conj _ (conj _ _))))); try done.
    - cbn. rewrite Hu1. unfold ep0_ok. cbn. fold r. rewrite E. split_and!; try done; by left.
    - by apply (dev_only_trace s s1).
    - cbn. rewrite Hu1. unfold ep0_pending. cbn. fold r. by rewrite E. }
  unfold nonzero in E. rewrite negb_involutive in E. apply Z.eqb_neq in E.
  set (pending := ep0_pending u) in *.
  assert (pending ≠ []) as Hne by (intros H; rewrite H, zlen_nil in Hpl; lia).
  assert (length pending = Z.to_nat r) as Hln by (unfold zlen in Hpl; lia).
  apply gwp_bind. eapply gwp_mono.
  { apply (gwp_ep0_packet _ (take 64 pending)); [done..|lia| |intros El; unfold EP0_MAXP in El; lia].
    unfold pending, ep0_pending. fold off r src. rewrite take_take. f_equal. lia. }
  cbn beta. intros _ c2 s2 (Hs2 & Hst2 & Hix2 & Hout2). pose proof (dev_only_trans _ _ _ Hs1 Hs2) as Hs2'.
  apply gwp_bind. eapply gwp_mono; [apply gwp_ep0_trace; by apply (dev_only_trace s s2)|].
  cbn beta. intros _ c3 s3 (-> & Htr3 & k & Hu3). destruct Hs2' as [Hu2 _]. rewrite Hu2 in Hu3. fold u in Hu3.
  destruct (r <=? EP0_MAXP) eqn:El; unfold EP0_MAXP in El;
    (apply gwp_bind, gwp_modify; [done|]; apply gwp_modify; [done|]);
    (refine (conj _ (conj _ (conj _ (conj _ (conj _ _))))); [| |done|done| |by rewrite Hout2; destruct pending]); try done;
    cbn; rewrite Hu3; unfold ep0_ok, ep0_pending; cbn; fold off r.
  - split_and!; try done; by left.
  - rewrite (drop_ge pending) by lia. done.
  - split_and!; try done; lia.
  - unfold pending, ep0_pending. fold off r. rewrite skipn_firstn_comm, drop_drop. f_equal; [lia|f_equal; lia].
Qed.

Lemma gwp_ep0_queue data wLength ix m f n out s :
  ep0_ok (st_musb s) → trace_ok s → Forall byte_ok data → 0 <= wLength →
  let reply := reply_of data wLength in
  gwp (tx_step ep0_port) (ep0_queue data (zlen data) wLength)
    (λ _ c' s', ep0_ok (st_musb s') ∧ trace_ok s' ∧ to_stage c' = TxIdle ∧ to_index c' = 0 ∧
       ep0_pending (st_musb s') = drop 64 reply ∧
       to_sent c' = out ++ (if reply is [] then [] else [take 64 reply]))
    (TxObs TxIdle ix m f n out) s.
Proof.
  intros (Hl & _) Htr Hd Hw. cbv zeta.
  destruct (ep0_fill_spec data wLength s Hl Hd Hw) as (Hok & Hp & Hm & Ht).
  apply gwp_bind, gwp_quiet; [unfold log_of; cbn; by rewrite Hm|].
  set (s1 := snd _) in *. clearbody s1.
  assert (trace_ok s1) as Htr1 by (destruct Htr; split; by rewrite Ht).
  apply gwp_bind. eapply gwp_reg; [done|apply step_index|apply dev_only_refl|]. intros s2 Hs2.
  apply gwp_bind. eapply gwp_reg; [done|apply step_csr_other; [by right|done]|exact Hs2|]. intros s3 Hs3.
  pose proof (dev_only_trace _ _ Hs3 Htr1) as Htr3. destruct Hs3 as [Hu3 _]. rewrite <-Hu3 in Hok, Hp.
  eapply gwp_mono; [apply gwp_ep0_send_chunk; done|]. cbn beta.
  intros _ c4 s4 (? & ? & ? & ? & ? & ?). rewrite <-Hp. done.
Qed.

(** The endpoint-0 interrupts after a request, each handled as in musb_poll. *)
Fixpoint ep0_pump (n : nat) : M SL unit :=
  match n with
  | O => skip
  | Datatypes.S n' =>
      r ← getU g_ep0_remaining;
      when (nonzero r) ep0_send_chunk;;
      ep0_pump n'
  end.

(** The packets of a control transfer. *)
Fixpoint ep0_packets (k : nat) (l : list Z) : list (list Z) :=
  match k, l with
  | Datatypes.S k', _ :: _ => take 64 l :: ep0_packets k' (drop 64 l)
  | _, _ => []
  end.

Lemma gwp_ep0_pump k ix m f n out s :
  ep0_ok (st_musb s) → trace_ok s →
  gwp (tx_step ep0_port) (ep0_pump k)
    (λ _ c' s', ep0_ok (st_musb s') ∧ to_stage c' = TxIdle ∧
       to_sent c' = out ++ ep0_packets k (ep0_pending (st_musb s)))
    (TxObs TxIdle ix m f n out) s.
Proof.
  revert ix m f n out s. induction k as [|k IH]; intros ix m f n out s Hok Htr; cbn [ep0_pump ep0_packets].
  { apply gwp_skip. by rewrite app_nil_r. }
  apply gwp_bind, gwp_gets, gwp_bind. pose proof (ep0_pending_len _ Hok) as Hl. apply gwp_when; intros E.
  - eapply gwp_mono; [by apply gwp_ep0_send_chunk|]. cbn beta.
    intros _ [st2 ix2 m2 f2 n2 o2] s2 (Hok2 & Htr2 & Hst & _ & Hp & Hout). cbn in Hst, Hout. subst st2 o2.
    eapply gwp_mono; [by apply IH|]. cbn beta. intros _ c3 s3 (Hok3 & Hst3 & Hout3).
    rewrite Hout3, Hp, <-app_assoc. destruct (ep0_pending (st_musb s)); [|done].
    unfold nonzero in E. apply negb_true_iff, Z.eqb_neq in E. by rewrite zlen_nil in Hl.
  - unfold nonzero in E. apply negb_false_iff, Z.eqb_eq in E. rewrite E in Hl.
    assert (ep0_pending (st_musb s) = []) as Hp by (destruct (ep0_pending _); [done|rewrite zlen_cons in Hl; pose proof (zlen_nonneg l); lia]).
    eapply gwp_mono; [by apply IH|]. rewrite Hp. cbn beta. intros _ c3 s3 (Hok3 & Hst3 & ->).
    by destruct k.
Qed.

(** A control request is answered with the requested prefix of the data, in
    packets of at most 64 bytes.  [ep0_queue] and two endpoint interrupts put
    the whole reply on the wire, with the transmit protocol respected for
    every device; further interrupts send nothing. *)
Theorem ep0_queue_replies data wLength k ix m f n out s :
  ep0_ok (st_musb s) → trace_ok s → Forall byte_ok data → 0 <= wLength → (1 <= k)%nat →
  gwp (tx_step ep0_port) (ep0_queue data (zlen data) wLength;; ep0_pump k)
    (λ _ c' s', ep0_ok (st_musb s') ∧ to_stage c' = TxIdle ∧
       ∃ pkts, to_sent c' = out ++ pkts ∧ concat pkts = reply_of data wLength ∧
               Forall (λ p, 0 < zlen p <= EP0_MAXP) pkts)
    (TxObs TxIdle ix m f n out) s.
Proof.
  intros Hok Htr Hd Hw Hk. apply gwp_bind. eapply gwp_mono; [by apply gwp_ep0_queue|]. cbn beta.
  intros _ [st2 ix2 m2 f2 n2 o2] s2 (Hok2 & Htr2 & Hst & _ & Hp & Hout). cbn in Hst, Hout. subst st2 o2.
  eapply gwp_mono; [by apply gwp_ep0_pump|]. cbn beta. intros _ c3 s3 (Hok3 & Hst3 & Hout3).
  split; [done|]. split; [done|]. rewrite Hp, <-app_assoc in Hout3. eexists. split; [exact Hout3|].
  set (reply := reply_of data wLength) in *.
  assert (length reply <= 128)%nat as Hr
    by (unfold reply, reply_of, EP0_BUF_SIZE; rewrite length_take; lia).
  destruct k as [|k]; [lia|]. clearbody reply.
  assert (∀ l : list Z, l ≠ [] → 0 < zlen (take 64 l) <= EP0_MAXP) as Hsz.
  { intros [|x l] Hl; [done|]. unfold zlen, EP0_MAXP. rewrite length_take. cbn [length]. lia. }
  destruct reply as [|b reply]; [by rewrite drop_nil; cbn|]. cbn [app concat].
  destruct (drop 64 (b :: reply)) as [|b' l] eqn:E; cbn [ep0_packets concat app].
  - rewrite <-(take_drop 64 (b :: reply)) at 2. rewrite E. split; [done|]. constructor; [by apply Hsz|done].
  - assert (drop 64 (b' :: l) = []) as Hdd.
    { rewrite <-E, drop_drop. apply drop_ge. lia. }
    rewrite Hdd. replace (ep0_packets k []) with (@nil (list Z)) by by destruct k.
    split; [|repeat constructor; by apply Hsz].
    cbn [concat]. rewrite app_nil_r, (take_ge (b' :: l)), <-E, take_drop; [done|].
    assert (length (drop 64 (b' :: l)) = 0%nat) as H by by rewrite Hdd.
    rewrite length_drop in H. lia.
Qed.
End tx.


(** ** The invariant of the driver *)

Section invariant.
Context {D : Type} `{!Device D}.
Abbreviation St := (stub D).

Definition musb_ok (u : musb_st) : Prop :=
  ep0_ok u ∧ length (g_line_coding u) = 7%nat ∧ Forall byte_ok (g_line_coding u) ∧
  0 <= g_ep0_out_offset u <= 7 ∧ (g_bulk_maxp u = BULK_MAXP_FS ∨ g_bulk_maxp u = BULK_MAXP_HS) ∧
  zlen (g_rx_buf u) = BULK_MAXP_HS / 4.

Lemma musb_st0_ok : musb_ok musb_st0.
Proof.
  assert (Forall byte_ok (replicate 128 0)) as Hr by by apply Forall_replicate.
  refine (conj (conj _ (conj Hr (conj _ (conj _ _)))) (conj _ (conj _ (conj _ (conj _ _)))));
    try done; try (by left). by repeat constructor.
Qed.

Definition keeps_musb (s s' : St) : Prop := musb_ok (st_musb s) → musb_ok (st_musb s').

#[export] Instance keeps_musb_quiet : Quiet keeps_musb.
Proof.
  apply quiet_intro; [split|..].
  - by intros s Hs.
  - intros s1 s2 s3 H12 H23 H. by apply H23, H12.
  - by intros m s Hs.
  - by intros t s Hs.
Qed.

Lemma keeps_updU f : (∀ u, musb_ok u → musb_ok (f u)) → steps keeps_musb (updU f).
Proof. intros Hf s Hs. by apply Hf. Qed.

Ltac keeps_upd :=
  apply keeps_updU; intros ? ((? & ? & Hoff & ? & ?) & ? & ? & ? & Hmax & ?);
  unfold musb_ok, ep0_ok; cbn;
  split_and!; try assumption; try (by left); try (by right); try lia;
  try (destruct Hoff; lia).

Ltac keeps_leaf :=
  first [ assumption
        | solve [auto with keeps]
        | quiet_leaf
        | keeps_upd ].
Ltac keeps := unfold getU, getT; steps_walk ltac:(keeps_leaf).

Lemma keeps_latch_speed p : steps keeps_musb (latch_speed p).
Proof.
  unfold latch_speed. generalize (nonzero (p .& POWER_HSMODE)). intros []; keeps.
Qed.
Hint Resolve keeps_latch_speed : keeps.
Lemma keeps_traceable : steps keeps_musb traceable.
Proof. unfold traceable. keeps. Qed.
Hint Resolve keeps_traceable : keeps.
Lemma keeps_musb_init : steps keeps_musb musb_init.
Proof. unfold musb_init. keeps. Qed.
Lemma keeps_bus_reset : steps keeps_musb handle_bus_reset.
Proof. unfold handle_bus_reset, configure_endpoint. keeps. Qed.
Lemma keeps_ep0_stall : steps keeps_musb ep0_stall.
Proof. unfold ep0_stall. keeps. Qed.
Lemma keeps_ep0_status : steps keeps_musb ep0_status.
Proof. unfold ep0_status. keeps. Qed.
Lemma keeps_ep0_expect_out w : steps keeps_musb (ep0_expect_out w).
Proof. unfold ep0_expect_out. keeps. Qed.
Hint Resolve keeps_bus_reset keeps_ep0_stall keeps_ep0_status keeps_ep0_expect_out : keeps.

(** Nothing of the driver changes but the trace budget. *)
Definition chunks_only (s s' : St) : Prop := ∃ k, st_musb s' = set_g_ep0_chunks k (st_musb s).
#[export] Instance chunks_only_quiet : Quiet chunks_only.
Proof.
  assert (∀ u, u = set_g_ep0_chunks (g_ep0_chunks u) u) as Hid by by intros [].
  apply quiet_intro; [split|..].
  - intros s. eexists. apply Hid.
  - intros s1 s2 s3 [k1 H1] [k2 H2]. exists k2. by rewrite H2, H1.
  - intros m s. eexists. apply Hid.
  - intros t s. eexists. apply Hid.
Qed.
Lemma chunks_ep0_packet src count last : steps chunks_only (ep0_packet src count last).
Proof. unfold ep0_packet, for_words. steps_walk ltac:(quiet_leaf). Qed.
Lemma chunks_ep0_trace count last : steps chunks_only (ep0_trace_chunk count last).
Proof.
  unfold ep0_trace_chunk, getU. steps_walk ltac:(first [quiet_leaf|intros s; by eexists]).
Qed.

Lemma keeps_ep0_send_chunk : steps keeps_musb ep0_send_chunk.
Proof.
  intros s Hs. change (wp ep0_send_chunk (λ _ s', musb_ok (st_musb s')) s).
  unfold ep0_send_chunk, getU. do 3 (apply wp_bind, wp_gets).
  cbv zeta. apply wp_bind, (wp_steps chunks_only); [quiet_leaf|]. intros _ s1 [k1 Hu1].
  destruct Hs as ((Hl & Hb & Hoff & Hr & Hor) & Hlc).
  destruct (negb (nonzero _)) eqn:E; [|destruct (_ <=? EP0_MAXP) eqn:El].
  - apply wp_bind, wp_modify, (wp_steps chunks_only); [quiet_leaf|]. intros _ s2 [k2 Hu2].
    rewrite Hu2. cbn. rewrite Hu1. split; [|exact Hlc].
    unfold nonzero in E. rewrite negb_involutive in E. apply Z.eqb_eq in E.
    unfold ep0_ok. cbn. rewrite E. split_and!; try done. by left.
  - apply wp_bind, (wp_steps chunks_only); [apply chunks_ep0_packet|]. intros _ s2 [k2 Hu2].
    apply wp_bind, (wp_steps chunks_only); [apply chunks_ep0_trace|]. intros _ s3 [k3 Hu3].
    apply wp_bind, wp_modify, wp_modify. cbn. rewrite Hu3, Hu2, Hu1. split; [|exact Hlc].
    unfold ep0_ok. cbn. split_and!; try done. by left.
  - apply wp_bind, (wp_steps chunks_only); [apply chunks_ep0_packet|]. intros _ s2 [k2 Hu2].
    apply wp_bind, (wp_steps chunks_only); [apply chunks_ep0_trace|]. intros _ s3 [k3 Hu3].
    apply wp_bind, wp_modify, wp_modify. cbn. rewrite Hu3, Hu2, Hu1. split; [|exact Hlc].
    unfold EP0_MAXP in *. rewrite (proj2 (Z.ltb_lt 64 _)) by lia.
    unfold ep0_ok. cbn. split_and!; try done; lia.
Qed.
Hint Resolve keeps_ep0_send_chunk : keeps.

Lemma keeps_ep0_fill data w :
  Forall byte_ok data → 0 <= w → steps keeps_musb (ep0_fill data (zlen data) w).
Proof.
  intros Hd Hw s ((Hl & _) & Hlc).
  destruct (ep0_fill_spec data w s Hl Hd Hw) as (Hok & _).
  split; [exact Hok|].
  enough (steps (λ s s' : St, g_line_coding (st_musb s') = g_line_coding (st_musb s) ∧
    g_ep0_out_offset (st_musb s') = g_ep0_out_offset (st_musb s) ∧
    g_bulk_maxp (st_musb s') = g_bulk_maxp (st_musb s) ∧ g_rx_buf (st_musb s') = g_rx_buf (st_musb s)) (ep0_fill data (zlen data) w)) as Hf.
  { destruct (Hf s) as (-> & -> & -> & ->). exact Hlc. }
  assert (PreOrder (λ s s' : St, g_line_coding (st_musb s') = g_line_coding (st_musb s) ∧
    g_ep0_out_offset (st_musb s') = g_ep0_out_offset (st_musb s) ∧
    g_bulk_maxp (st_musb s') = g_bulk_maxp (st_musb s) ∧ g_rx_buf (st_musb s') = g_rx_buf (st_musb s))).
  { split; [done|]. intros ? ? ? (H1 & H2 & H3 & H4) (-> & -> & -> & ->). done. }
  unfold ep0_fill. steps_walk ltac:(by intros ?).
Qed.

Lemma keeps_ep0_start : steps keeps_musb ep0_start.
Proof. unfold ep0_start. keeps. Qed.
Hint Resolve keeps_ep0_start : keeps.
Lemma keeps_ep0_queue data w :
  Forall byte_ok data → 0 <= w → steps keeps_musb (ep0_queue data (zlen data) w).
Proof. intros. unfold ep0_queue. pose proof (keeps_ep0_fill data w). keeps. Qed.

Lemma Forall_zset l i v : Forall byte_ok l → byte_ok v → Forall byte_ok (zset l i v).
Proof. intros. unfold zset. by apply Forall_insert. Qed.
Lemma keeps_patch i v : byte_ok v →
  steps keeps_musb (updU (D := D) (λ u, set_g_ep0_buf (zset (g_ep0_buf u) i v) u)).
Proof.
  intros Hv. apply keeps_updU. intros u ((? & ? & ? & ?) & ?). split; [|done].
  unfold ep0_ok. cbn. split_and!; try tauto; [by unfold zset; rewrite length_insert|by apply Forall_zset].
Qed.
Lemma config_desc_ok : Forall byte_ok config_desc.
Proof. by apply bytes_okb_spec. Qed.
Lemma keeps_ep0_queue_config t m w : 0 <= w → steps keeps_musb (ep0_queue_config t m w).
Proof.
  intros Hw. unfold ep0_queue_config. pose proof (keeps_ep0_fill config_desc w config_desc_ok Hw).
  cbv zeta. apply steps_bind; [apply _|done|intros _].
  do 5 (apply steps_bind; [apply _|apply keeps_patch, u8_range|intros _]). apply keeps_ep0_start.
Qed.
Hint Resolve keeps_ep0_queue_config : keeps.

Lemma keeps_queue_bytes data w :
  bytes_okb data = true → 0 <= w → steps keeps_musb (ep0_queue data (zlen data) w).
Proof. intros. apply keeps_ep0_queue; [by apply bytes_okb_spec|done]. Qed.

Lemma keeps_line_coding n i : steps keeps_musb (line_coding_loop n i).
Proof.
  revert i. induction n as [|n IH]; intros i; cbn [line_coding_loop]; [keeps|].
  intros s Hs. change (wp (off ← getU g_ep0_out_offset;
    if off <? 7 then
      b ← rd8 (L2_EP0 + i);
      updU (λ u, set_g_line_coding (zset (g_line_coding u) off b) u);;
      updU (set_g_ep0_out_offset (off + 1));;
      line_coding_loop n (i + 1)
    else skip) (λ _ s', musb_ok (st_musb s')) s).
  apply wp_bind, wp_gets. destruct (_ <? 7) eqn:E; [|by apply wp_skip].
  apply wp_bind. pose proof (rd_range W8 (L2_EP0 + i) s) as Hb.
  assert (st_musb (snd (rd8 (L2_EP0 + i) s)) = st_musb s) as Hu
    by (unfold rd; by destruct (bus_read W8 (L2_EP0 + i) (machine_of s))).
  unfold wp at 1. destruct (rd8 (L2_EP0 + i) s) as [b s1]. cbn [fst snd] in *.
  do 2 apply wp_bind, wp_modify. apply (wp_steps keeps_musb); [apply IH|]. intros _ s2 H2. apply H2.
  cbn. rewrite Hu. destruct Hs as (? & ? & ? & ? & ? & ?).
  split_and!; cbn; try done; try lia; [by unfold zset; rewrite length_insert|by apply Forall_zset].
Qed.
Hint Resolve keeps_line_coding : keeps.

Lemma keeps_ep0_out : steps keeps_musb handle_ep0_out.
Proof. unfold handle_ep0_out. keeps. Qed.

Lemma keeps_class_setup r v w : 0 <= w → steps keeps_musb (handle_class_setup r v w).
Proof.
  intros Hw. unfold handle_class_setup.
  apply steps_if; [apply steps_if; auto with keeps|].
  apply steps_if; [|keeps].
  intros s Hs. cbn. destruct Hs as (Ho & Hl & Hb & Hr).
  assert (zlen (g_line_coding (st_musb s)) = 7) as H7 by (unfold zlen; lia).
  rewrite <-H7. by apply keeps_ep0_queue.
Qed.

Lemma keeps_get_descriptor v w : 0 <= w → steps keeps_musb (get_descriptor v w).
Proof.
  intros Hw. unfold get_descriptor, getU.
  steps_walk ltac:(idtac; lazymatch goal with
    | |- steps _ (ep0_queue _ _ _) => by apply keeps_queue_bytes
    | |- steps _ (ep0_queue_config _ _ _) => by apply keeps_ep0_queue_config
    | _ => keeps_leaf end).
Qed.

Lemma keeps_setup : steps keeps_musb handle_setup.
Proof.
  unfold handle_setup. cbv zeta.
  do 4 (apply steps_bind; [apply _|keeps|intros ?]).
  apply (steps_bind_res _ (λ w, 0 <= w)); [keeps|intros s|intros wLength Hw].
  { unfold mbind, M_bind. destruct (rd8 _ s) as [lo s1]. destruct (rd8 _ s1) as [hi s2]. cbn. apply u16_range. }
  steps_walk ltac:(idtac; lazymatch goal with
    | |- steps _ (handle_class_setup _ _ _) => by apply keeps_class_setup
    | |- steps _ (get_descriptor _ _) => by apply keeps_get_descriptor
    | |- steps _ (ep0_queue ?d _ _) => by apply (keeps_queue_bytes d)
    | |- steps _ ep0_stall => apply keeps_ep0_stall
    | |- steps _ ep0_status => apply keeps_ep0_status
    | |- steps _ traceable => apply keeps_traceable
    | _ => keeps_leaf end).
Qed.

Lemma keeps_bulk_tx_wait : steps keeps_musb bulk_tx_wait.
Proof. unfold bulk_tx_wait. keeps. Qed.
Lemma keeps_send_packet al data count : steps keeps_musb (send_packet al data count).
Proof. unfold send_packet, for_words. keeps. Qed.
Lemma keeps_bulk_send al data : steps keeps_musb (musb_bulk_send al data).
Proof.
  unfold musb_bulk_send. generalize (length data). intros fuel. revert al data.
  induction fuel as [|fuel IH]; intros al data; cbn [bulk_send_loop]; [keeps|].
  steps_walk ltac:(first [apply keeps_bulk_tx_wait|apply keeps_send_packet|apply IH|keeps_leaf]).
Qed.

(** The loop stays inside [g_rx_buf] for a count that is clamped to its size. *)
Lemma keeps_rx_words n i : 0 <= i → i + 4 * Z.of_nat n <= BULK_MAXP_HS → steps keeps_musb (rx_words n i).
Proof.
  unfold BULK_MAXP_HS. revert i. induction n as [|n IH]; intros i Hi Hn; cbn [rx_words]; [keeps|].
  apply (steps_bind keeps_musb); [quiet_leaf|intros w]. apply (steps_bind keeps_musb); [|intros _; apply IH; lia].
  apply keeps_updU. intros u (H1 & H2 & H3 & H4 & H5 & H6). unfold BULK_MAXP_HS in H6. change (512 / 4) with 128 in H6.
  rewrite zput_in; [|rewrite H6, Z.shiftr_div_pow2 by done; change (2 ^ 2) with 4; zlia].
  split_and!; try done; [apply H4..|]. cbn [g_rx_buf set_g_rx_buf]. unfold zlen, zset in *. by rewrite length_insert.
Qed.
Lemma rx_count_fits c :
  let count := c .& 0xFFFF in
  0 + 4 * Z.of_nat (Z.to_nat (((if BULK_MAXP_HS <? count then BULK_MAXP_HS else count) + 3) / 4)) <= BULK_MAXP_HS.
Proof.
  intros count. assert (0 <= count) by (apply Z.land_nonneg; by right). unfold BULK_MAXP_HS.
  destruct (512 <? count) eqn:E; [done|]. apply Z.ltb_ge in E. rewrite Z2Nat.id by zlia. zlia.
Qed.

Lemma keeps_bump : steps keeps_musb bump_events.
Proof. unfold bump_events. keeps. Qed.
Lemma keeps_stat_out : steps keeps_musb (updU (D := D) (λ u, set_g_stat_out (u32 (g_stat_out u + 1)) u)).
Proof. keeps. Qed.
Lemma keeps_poll_ep0 : steps keeps_musb poll_ep0.
Proof.
  unfold poll_ep0.
  steps_walk ltac:(idtac; lazymatch goal with
    | |- steps _ bump_events => apply keeps_bump
    | |- steps _ handle_ep0_out => apply keeps_ep0_out
    | |- steps _ handle_setup => apply keeps_setup
    | |- steps _ ep0_send_chunk => apply keeps_ep0_send_chunk
    | |- steps _ traceable => apply keeps_traceable
    | _ => keeps_leaf end).
Qed.
Lemma keeps_report : steps keeps_musb musb_report.
Proof. unfold musb_report. keeps. Qed.
End invariant.

(** ** The driver implements the transport *)

Section transport.
Context {D : Type} `{!Device D}.
Abbreviation St := (stub D).

Lemma usb_only_dev : dev_frame (@usb_only D).
Proof. by intros d s. Qed.

Ltac usb_leaf :=
  first [ apply steps_rd_dev; [reflexivity|apply usb_only_dev]
        | apply steps_wr_dev; [reflexivity|apply usb_only_dev]
        | apply steps_rmw_dev; [apply _|reflexivity|apply usb_only_dev]
        | apply steps_ret; apply _ | apply steps_skip; apply _ | apply steps_gets; apply _
        | by intros ? ].

Lemma usb_window_write i v : 0 <= i → steps (@usb_only D) (wr32 (L2_EP2_TX + i) v).
Proof.
  intros. apply steps_wr_dev; [|apply usb_only_dev].
  apply in_ddr_false. unfold L2_EP2_TX, DDR_END. lia.
Qed.
Lemma usb_send_packet al data count : steps (@usb_only D) (send_packet al data count).
Proof.
  unfold send_packet, for_words.
  steps_walk ltac:(first [apply usb_window_write; lia|usb_leaf]).
Qed.
Lemma usb_bulk_send al data : steps (@usb_only D) (musb_bulk_send al data).
Proof.
  unfold musb_bulk_send. generalize (length data). intros fuel. revert al data.
  induction fuel as [|fuel IH]; intros al data; cbn [bulk_send_loop]; [usb_leaf|].
  unfold bulk_tx_wait. steps_walk ltac:(first [apply usb_send_packet|apply IH|usb_leaf]).
Qed.

#[export] Instance musb_transport : Transport D := {|
  bulk_send := musb_bulk_send;
  bulk_send_frame al data s := usb_bulk_send al data s;
|}.
End transport.

(** ** Witnesses: the theorems at concrete states *)

#[local] Existing Instance null_device.

Lemma load_le_pack_le_witness : load_le 0 [1; 2; 3; 4; 5] 5 = pack_le [1; 2; 3; 4; 5] 5.
Proof. apply load_le_pack_le; [by repeat constructor|done]. Defined.

Definition example_usb : stub (logged unit) :=
  example_stub (Logged tt []) ∅ musb_st0 (example_rsp (example_regs 0x30000100 0x13) []).

Lemma musb_bulk_send_stream_witness :
  gwp (tx_step bulk_in_port) (musb_bulk_send 0 (bytes_of "$OK#9a"))
    (λ _ c' s', transfer_done (bytes_of "$OK#9a") [] example_usb c' s')
    (TxObs TxIdle 0 ∅ 0 0 []) example_usb.
Proof. apply musb_bulk_send_stream; [apply bytes_of_ok|]. split; vm_compute; discriminate. Defined.

Lemma ep0_queue_replies_witness :
  gwp (tx_step ep0_port) (ep0_queue device_desc (zlen device_desc) 8;; ep0_pump 1)
    (λ _ c' s', ep0_ok (st_musb s') ∧ to_stage c' = TxIdle ∧
       ∃ pkts, to_sent c' = [] ++ pkts ∧ concat pkts = reply_of device_desc 8 ∧
               Forall (λ p, 0 < zlen p <= EP0_MAXP) pkts)
    (TxObs TxIdle 0 ∅ 0 0 []) example_usb.
Proof.
  apply ep0_queue_replies; [apply musb_st0_ok| |apply bytes_okb_spec; reflexivity|done|lia].
  unfold trace_ok, example_usb, example_stub. cbn. unfold TRACE_BASE, TRACE_SIZE. lia.
Defined.
