(* ===== verification/Packet.v ===== *)
(** * Packet: numbers, replies and queries of the protocol layer

    The first half of [src/baremetal/gdbstub/rsp.c]: hexadecimal and decimal
    numbers, the reply buffer [g_out] with its framing, queries, monitor output.
    A pair of C pointers [(p, end)] into the command buffer is the list of the
    bytes from [p] to [end].  The bulk transport is the interface [Transport]
    of GdbState.v. *)
From S2P Require Import Prelude Machine GdbState Trace Step.

Definition PACKET_SIZE : Z := 0x2000.
Definition CMD_SIZE : Z := PACKET_SIZE.
Definition OUT_SIZE : Z := PACKET_SIZE + 16.
Definition MD32_MAX : Z := 0x100.
Definition MONITOR_CHUNK : Z := (PACKET_SIZE - 8) / 2.

Definition NOT_HEX : Z := 0xFFFFFFFF.

Definition hexval (c : Z) : Z :=
  if (chr "0" <=? c) && (c <=? chr "9") then c - chr "0"
  else if (chr "a" <=? c) && (c <=? chr "f") then c - chr "a" + 10
  else if (chr "A" <=? c) && (c <=? chr "F") then c - chr "A" + 10
  else NOT_HEX.

Definition hexdigit (v : Z) : Z := u8 (if v <? 10 then chr "0" + v else chr "a" + v - 10).

(** [(hexval(p[0]) << 4) | hexval(p[1])], a 32-bit value. *)
Definition hexpair (c0 c1 : Z) : Z := u32 (hexval c0 .<< 4) .| hexval c1.

Fixpoint parse_hex_from (v : Z) (p : list Z) : Z * list Z :=
  match p with
  | [] => (v, [])
  | c :: p' =>
      let d := hexval c in
      if d =? NOT_HEX then (v, p) else parse_hex_from (u32 (v .<< 4) .| d) p'
  end.
Definition parse_hex (p : list Z) : Z * list Z := parse_hex_from 0 p.

Fixpoint parse_dec_from (v : Z) (p : list Z) : Z * list Z :=
  match p with
  | [] => (v, [])
  | c :: p' =>
      if (chr "0" <=? c) && (c <=? chr "9") then parse_dec_from (u32 (u32 (v * 10) + (c - chr "0"))) p'
      else (v, p)
  end.
Definition parse_dec (p : list Z) : Z * list Z := parse_dec_from 0 p.

(** Length of [s] when [p] starts with it, 0 otherwise. *)
Fixpoint starts (p s : list Z) : bool :=
  match s, p with
  | [], _ => true
  | _, [] => false
  | c :: s', x :: p' => (x =? c) && starts p' s'
  end.
Definition prefix (p s : list Z) : Z := if starts p s then zlen s else 0.

(** [equals(p, len, s)] *)
Fixpoint equals (p : list Z) (len : nat) (s : list Z) : bool :=
  match len with
  | O => match s with [] => true | _ => false end
  | Datatypes.S len' =>
      match s, p with
      | c :: s', x :: p' => (x =? c) && equals p' len' s'
      | _, _ => false
      end
  end.

(** A C string in which a quote stands for a double quote. *)
Definition quoted (s : string) : list Z := map (λ c, if c =? 39 then 34 else c) (bytes_of s).

Definition target_xml : list Z :=
  quoted "<?xml version='1.0'?>" ++
  quoted "<!DOCTYPE target SYSTEM 'gdb-target.dtd'>" ++
  quoted "<target version='1.0'>" ++
  quoted "<architecture>arm</architecture>" ++
  quoted "<feature name='org.gnu.gdb.arm.core'>" ++
  quoted "<reg name='r0' bitsize='32'/>" ++
  quoted "<reg name='r1' bitsize='32'/>" ++
  quoted "<reg name='r2' bitsize='32'/>" ++
  quoted "<reg name='r3' bitsize='32'/>" ++
  quoted "<reg name='r4' bitsize='32'/>" ++
  quoted "<reg name='r5' bitsize='32'/>" ++
  quoted "<reg name='r6' bitsize='32'/>" ++
  quoted "<reg name='r7' bitsize='32'/>" ++
  quoted "<reg name='r8' bitsize='32'/>" ++
  quoted "<reg name='r9' bitsize='32'/>" ++
  quoted "<reg name='r10' bitsize='32'/>" ++
  quoted "<reg name='r11' bitsize='32'/>" ++
  quoted "<reg name='r12' bitsize='32'/>" ++
  quoted "<reg name='sp' bitsize='32' type='data_ptr'/>" ++
  quoted "<reg name='lr' bitsize='32'/>" ++
  quoted "<reg name='pc' bitsize='32' type='code_ptr'/>" ++
  quoted "<reg name='cpsr' bitsize='32' regnum='25'/>" ++
  quoted "</feature>" ++
  quoted "</target>".

(** The byte after the one at which a scan stopped. *)
Definition skip_char (c : Z) (p : list Z) : list Z :=
  match p with x :: p' => if x =? c then p' else p | [] => [] end.
Fixpoint skip_spaces (p : list Z) : list Z :=
  match p with x :: p' => if x =? chr " " then skip_spaces p' else p | [] => [] end.

Section Packet.
Context {D : Type} `{!Device D, !Transport D}.
Abbreviation St := (stub D).

Definition out_ch (c : Z) : M St unit :=
  out ← getR g_out;
  when (zlen out <? OUT_SIZE) (updR (set_g_out (out ++ [u8 c]))).

Fixpoint out_str (s : list Z) : M St unit :=
  match s with
  | [] => skip
  | c :: s' => out_ch c;; out_str s'
  end.

Definition out_byte (b : Z) : M St unit :=
  out_ch (hexdigit (b .>> 4));;
  out_ch (hexdigit (b .& 0xF)).

(** The two loops of [out_hex]; [n] is [shift / 4]. *)
Fixpoint hex_skip (n : nat) (v : Z) : nat :=
  match n with
  | O => O
  | Datatypes.S n' => if nonzero ((v .>> (4 * Z.of_nat n)) .& 0xF) then n else hex_skip n' v
  end.
Fixpoint out_hex_from (n : nat) (v : Z) : M St unit :=
  out_ch (hexdigit ((v .>> (4 * Z.of_nat n)) .& 0xF));;
  match n with O => skip | Datatypes.S n' => out_hex_from n' v end.
Definition out_hex (v : Z) : M St unit := out_hex_from (hex_skip 7 v) v.

(** One word store, without the bound of [out_ch]. *)
Definition out_pair (b0 b1 : Z) : M St unit :=
  let w := hexdigit (b0 .>> 4) .| (hexdigit (b0 .& 0xF) .<< 8) .|
           (hexdigit (b1 .>> 4) .<< 16) .| u32 (hexdigit (b1 .& 0xF) .<< 24) in
  updR (λ r, set_g_out (g_out r ++ le_split 4 w) r).

Definition out_word (v : Z) : M St unit :=
  for_to 4 (λ i, out_byte (u8 (v .>> (8 * i)))).

Definition out_begin_ack (ack : bool) : M St unit :=
  updR (set_g_out []);;
  when ack (out_ch (chr "+"));;
  out_ch (chr "$");;
  updR (λ r, set_g_body_start (zlen (g_out r)) r).

Definition out_begin : M St unit := out_begin_ack true.

(** The buffer [g_out] is aligned to a word. *)
Definition g_out_addr : Z := 0.

Definition send_out : M St unit :=
  out ← getR g_out;
  bulk_send g_out_addr out.

Definition out_finish : M St unit :=
  out ← getR g_out;
  start ← getR g_body_start;
  let sum := fold_left (λ acc b, u32 (acc + b)) (drop (Z.to_nat start) out) 0 in
  out_ch (chr "#");;
  out_byte (u8 sum);;
  send_out.

Definition handle_query (p : list Z) : M St unit :=
  let xfer := bytes_of "qXfer:features:read:target.xml:" in
  let at_ i c := znth p i =? chr c in
  if starts p (bytes_of "qSupported") then
    out_str (bytes_of "PacketSize=");;
    out_hex PACKET_SIZE;;
    out_str (bytes_of ";qXfer:features:read+;vContSupported+")
  else if starts p xfer then
    let '(off, q) := parse_hex (drop (length xfer) p) in
    let total := zlen target_xml in
    let '(len, _) := parse_hex (skip_char (chr ",") q) in
    if total <=? off then out_str (bytes_of "l")
    else
      let n := total - off in
      let n := if len <? n then len else n in
      let n := if PACKET_SIZE - 16 <? n then PACKET_SIZE - 16 else n in
      out_ch (if off + n <? total then chr "m" else chr "l");;
      for_to n (λ i, out_ch (znth target_xml (off + i)))
  else if (8 <=? zlen p) && at_ 1 "A" && at_ 2 "t" && at_ 3 "t" then out_str (bytes_of "1")
  else if (zlen p =? 2) && at_ 1 "C" then out_str (bytes_of "QC1")
  else if (12 <=? zlen p) && at_ 1 "f" && at_ 2 "T" then out_str (bytes_of "m1")
  else if (12 <=? zlen p) && at_ 1 "s" && at_ 2 "T" then out_str (bytes_of "l")
  else skip.

(** [send_output], the text being [len] bytes at [addr]. *)
Definition send_output (addr len : Z) (ack : bool) : M St unit :=
  out_begin_ack ack;;
  out_ch (chr "O");;
  for_to len (λ i, b ← rd8 (u32 (addr + i)); out_byte b);;
  out_finish.

Fixpoint out_text (s : list Z) : M St unit :=
  match s with
  | [] => skip
  | c :: s' => out_byte c;; out_text s'
  end.

Definition send_text (s : list Z) (ack : bool) : M St unit :=
  out_begin_ack ack;;
  out_text s;;
  out_finish.

(** The loop of [send_region]; answers whether the final packet acknowledges. *)
Fixpoint send_chunks (fuel : nat) (base off len : Z) (ack : bool) : M St bool :=
  match fuel with
  | O => mret ack
  | Datatypes.S fuel' =>
      if off <? len then
        let chunk := if MONITOR_CHUNK <? len - off then MONITOR_CHUNK else len - off in
        send_output (base + off) chunk ack;;
        send_chunks fuel' base (off + chunk) len false
      else mret ack
  end.

(** Every chunk has at least one byte. *)
Definition send_region (base len : Z) : M St unit :=
  ack ← send_chunks (Z.to_nat len) base 0 len true;
  out_begin_ack ack;;
  out_str (bytes_of "OK");;
  out_finish.

Definition mon_ch (c : Z) : M St unit := out_byte (u8 c).
Fixpoint mon_str (s : list Z) : M St unit :=
  match s with
  | [] => skip
  | c :: s' => mon_ch c;; mon_str s'
  end.
Fixpoint mon_digits (k : nat) (v : Z) : M St unit :=
  match k with
  | O => skip
  | Datatypes.S k' => mon_ch (hexdigit ((v .>> (Z.of_nat k' * 4)) .& 0xF));; mon_digits k' v
  end.
Definition mon_word (v : Z) : M St unit :=
  mon_str (bytes_of "0x");;
  mon_digits 8 v.
Definition mon_dec (v : Z) : M St unit := mon_str (dec_digits v).

Definition monitor_md32 (p : list Z) : M St unit :=
  let p := skip_spaces p in
  if (zlen p <? 2) || negb (znth p 0 =? chr "0") || negb (znth p 1 =? chr "x") then
    send_text (bytes_of "md32: address must be hex with an 0x prefix" ++ [10]) true
  else
    let '(a, p) := parse_hex (drop 2 p) in
    let addr := a .& not32 3 in
    let '(count, _) := parse_dec (skip_spaces p) in
    let count := if nonzero count then count else 4 in
    out_begin_ack true;;
    when (MD32_MAX <? count) (
      mon_str (bytes_of "clamped to ");;
      mon_dec MD32_MAX;;
      mon_str (bytes_of " words" ++ [10]));;
    let count := if MD32_MAX <? count then MD32_MAX else count in
    for_to count (λ i,
      when (negb (nonzero (i .& 3))) (
        mon_word (u32 (addr + i * 4));;
        mon_ch (chr ":"));;
      mon_ch (chr " ");;
      w ← rd32 (u32 (addr + i * 4));
      mon_word w;;
      when (((i .& 3) =? 3) || (i + 1 =? count)) (mon_ch 10));;
    out_finish.

(** The command of [qRcmd], at most [n] bytes of it. *)
Fixpoint hex_bytes (n : nat) (p : list Z) : list Z :=
  match n, p with
  | Datatypes.S n', c0 :: c1 :: p' => u8 (hexpair c0 c1) :: hex_bytes n' p'
  | _, _ => []
  end.

Definition handle_monitor (p : list Z) : M St unit :=
  let cmd := hex_bytes 63 p in
  let n := length cmd in
  if (5 <? Z.of_nat n) && equals cmd 5 (bytes_of "md32 ") then monitor_md32 (drop 5 cmd)
  else if equals cmd n (bytes_of "trace") then
    used ← trace_used; send_region TRACE_BASE used
  else if equals cmd n (bytes_of "oldtrace") then
    used ← trace_prev_used; send_region TRACE_PREV used
  else send_text (bytes_of "commands: trace, oldtrace, md32 0x<addr> [<words>]" ++ [10]) true.

(** First action of a vCont; 0 if there is none. *)
Fixpoint vcont_skip (p : list Z) : list Z :=
  match p with
  | c :: p' => if c =? chr ";" then p' else vcont_skip p'
  | [] => []
  end.
Definition vcont_action (p : list Z) : Z :=
  match vcont_skip p with c :: _ => c | [] => 0 end.

End Packet.

(** ** Numbers *)

(** The text of a byte string, two digits per byte. *)
Definition hex_text (l : list Z) : list Z :=
  flat_map (λ b, [hexdigit (b .>> 4); hexdigit (b .& 0xF)]) l.

Fixpoint hex_digits (n : nat) (v : Z) : list Z :=
  hexdigit ((v .>> (4 * Z.of_nat n)) .& 0xF) ::
  match n with O => [] | Datatypes.S n' => hex_digits n' v end.

(** What [out_hex] prints. *)
Definition hex_number (v : Z) : list Z := hex_digits (hex_skip 7 v) v.

Lemma digit_cases (P : Z → Prop) :
  P 0 → P 1 → P 2 → P 3 → P 4 → P 5 → P 6 → P 7 → P 8 → P 9 → P 10 → P 11 → P 12 → P 13 →
  P 14 → P 15 → ∀ d, 0 <= d < 16 → P d.
Proof.
  intros. assert (d = 0 ∨ d = 1 ∨ d = 2 ∨ d = 3 ∨ d = 4 ∨ d = 5 ∨ d = 6 ∨ d = 7 ∨ d = 8 ∨ d = 9 ∨
    d = 10 ∨ d = 11 ∨ d = 12 ∨ d = 13 ∨ d = 14 ∨ d = 15) by lia.
  repeat match goal with H : _ ∨ _ |- _ => destruct H; [by subst|] end. by subst.
Qed.

Lemma hexval_hexdigit d : 0 <= d < 16 → hexval (hexdigit d) = d.
Proof. revert d. by apply digit_cases. Qed.
Lemma hexdigit_range d : 0 <= d < 16 → 48 <= hexdigit d <= 102.
Proof. revert d. by apply digit_cases. Qed.

Lemma hexval_range c : hexval c = NOT_HEX ∨ 0 <= hexval c < 16.
Proof.
  unfold hexval.
  change (chr "0") with 48. change (chr "9") with 57. change (chr "a") with 97.
  change (chr "f") with 102. change (chr "A") with 65. change (chr "F") with 70.
  repeat (case_match; [right; lia|]). by left.
Qed.

Lemma nibbles b : byte_ok b → 0 <= b .>> 4 < 16 ∧ 0 <= b .& 0xF < 16 ∧ b = (b .>> 4) * 16 + (b .& 0xF).
Proof.
  unfold byte_ok. intros. rewrite Z.shiftr_div_pow2, (land_low _ 4) by done.
  change (2 ^ 4) with 16. zlia.
Qed.

Lemma hexpair_byte b : byte_ok b → hexpair (hexdigit (b .>> 4)) (hexdigit (b .& 0xF)) = b.
Proof.
  intros Hb. destruct (nibbles b Hb) as (Hh & Hl & Heq). unfold hexpair.
  rewrite !hexval_hexdigit, u32_id by (done || (unfold word_ok; rewrite Z.shiftl_mul_pow2 by done; lia)).
  rewrite lor_concat by done. change (2 ^ 4) with 16. lia.
Qed.

(** Reading a hex text back, as qRcmd and M do. *)
Lemma hex_bytes_text n l : Forall byte_ok l → hex_bytes n (hex_text l) = take n l.
Proof.
  intros Hl. revert n. induction Hl as [|b l Hb Hl IH]; intros [|n]; try done.
  cbn [hex_text flat_map app hex_bytes take]. rewrite hexpair_byte, u8_id by done.
  f_equal. apply IH.
Qed.

Lemma parse_hex_step acc d p :
  0 <= d < 16 → 0 <= acc → acc * 16 + d < 4294967296 →
  parse_hex_from acc (hexdigit d :: p) = parse_hex_from (acc * 16 + d) p.
Proof.
  intros Hd Ha Hb. cbn [parse_hex_from]. rewrite hexval_hexdigit by done.
  rewrite (proj2 (Z.eqb_neq _ _)) by (unfold NOT_HEX; lia).
  rewrite u32_id by (unfold word_ok; rewrite Z.shiftl_mul_pow2 by done; lia).
  by rewrite lor_concat.
Qed.

Lemma parse_hex_digits n v p :
  word_ok v → parse_hex_from (v / 16 ^ (Z.of_nat n + 1)) (hex_digits n v ++ p) = parse_hex_from v p.
Proof.
  intros Hv. unfold word_ok in Hv.
  assert (∀ k acc q, acc = v / 16 ^ (Z.of_nat k + 1) →
    parse_hex_from acc (hexdigit ((v .>> (4 * Z.of_nat k)) .& 0xF) :: q) =
    parse_hex_from (v / 16 ^ Z.of_nat k) q) as Hstep.
  { intros k acc q ->. rewrite Z.shiftr_div_pow2, (land_low _ 4) by lia.
    rewrite Z.pow_mul_r by lia. change (2 ^ 4) with 16.
    assert (0 < 16 ^ Z.of_nat k) as Hp by (apply Z.pow_pos_nonneg; lia).
    rewrite Z.pow_add_r, Z.pow_1_r, <-Z.div_div by lia.
    assert (0 <= v / 16 ^ Z.of_nat k <= v) as Hq
      by (split; [apply Z.div_pos; lia|apply Z.div_le_upper_bound; nia]).
    set (x := v / 16 ^ Z.of_nat k) in *. clearbody x.
    rewrite parse_hex_step by (try zlia). f_equal. zlia. }
  induction n as [|n IH].
  - cbn [hex_digits app]. rewrite Hstep by done. by rewrite Z.pow_0_r, Z.div_1_r.
  - cbn [hex_digits app]. rewrite Hstep by done.
    replace (Z.of_nat (Datatypes.S n)) with (Z.of_nat n + 1) by lia. exact IH.
Qed.

Lemma hex_skip_bound n v :
  word_ok v → v < 16 ^ (Z.of_nat n + 1) → v < 16 ^ (Z.of_nat (hex_skip n v) + 1).
Proof.
  intros Hv. unfold word_ok in Hv. induction n as [|n IH]; intros Hb; [done|].
  cbn [hex_skip]. destruct (nonzero _) eqn:E; [done|]. apply IH.
  unfold nonzero in E. apply negb_false_iff, Z.eqb_eq in E.
  rewrite Z.shiftr_div_pow2, (land_low _ 4) in E by lia.
  rewrite Z.pow_mul_r in E by lia. change (2 ^ 4) with 16 in E.
  replace (Z.of_nat (Datatypes.S n)) with (Z.of_nat n + 1) in * by lia.
  rewrite (Z.pow_add_r _ (Z.of_nat n + 1)), Z.pow_1_r in Hb by lia.
  set (p := 16 ^ (Z.of_nat n + 1)) in *.
  assert (0 < p) by (apply Z.pow_pos_nonneg; lia).
  assert (v / p < 16) by (apply Z.div_lt_upper_bound; lia).
  assert (v / p = 0) as Hz by (pose proof (Z.div_pos v p); zlia).
  apply Z.div_small_iff in Hz; lia.
Qed.

(** A text after a number: nothing that continues the number. *)
Definition no_hex (p : list Z) : Prop := match p with c :: _ => hexval c = NOT_HEX | [] => True end.
Definition no_dec (p : list Z) : Prop := match p with c :: _ => is_dec c = false | [] => True end.

Lemma parse_hex_stop v p : no_hex p → parse_hex_from v p = (v, p).
Proof. destruct p as [|c p]; [done|]. cbn. by intros ->. Qed.

Lemma parse_hex_number v p : word_ok v → no_hex p → parse_hex (hex_number v ++ p) = (v, p).
Proof.
  intros Hv Hp. unfold parse_hex, hex_number.
  assert (v < 16 ^ (Z.of_nat 7 + 1)) as Hb by (unfold word_ok in Hv; cbn; lia).
  pose proof (hex_skip_bound 7 v Hv Hb) as Hs. set (n := hex_skip 7 v) in *. clearbody n.
  replace 0 with (v / 16 ^ (Z.of_nat n + 1)) by (apply Z.div_small; unfold word_ok in Hv; lia).
  rewrite parse_hex_digits by done. by apply parse_hex_stop.
Qed.

Lemma parse_dec_fold l a p :
  Forall (λ c, is_dec c = true) l → no_dec p →
  parse_dec_from (u32 a) (l ++ p) = (u32 (fold_left (λ a c, a * 10 + (c - chr "0")) l a), p).
Proof.
  intros Hl Hp. revert a. induction Hl as [|c l Hc Hl IH]; intros a.
  - destruct p as [|c p]; [done|]. cbn [app parse_dec_from fold_left no_dec] in *.
    unfold is_dec in Hp. by rewrite Hp.
  - cbn [app parse_dec_from fold_left]. unfold is_dec in Hc. rewrite Hc, <-IH. f_equal.
    unfold u32. by rewrite Z.mul_mod_idemp_l, Z.add_mod_idemp_l by done.
Qed.

(** Numbers survive the wire.  The stub reads back every 32-bit number that it
    prints, in hexadecimal ([out_hex], parse_hex) and in decimal (the decimal
    printer, parse_dec), whatever other text follows. *)
Theorem number_roundtrip v p :
  word_ok v →
  (no_hex p → parse_hex (hex_number v ++ p) = (v, p)) ∧
  (no_dec p → parse_dec (dec_digits v ++ p) = (v, p)).
Proof.
  intros Hv. split; intros Hp; [by apply parse_hex_number|].
  destruct (dec_digits_spec v Hv) as (Hd & Hval & _).
  unfold parse_dec. change 0 with (u32 0). rewrite parse_dec_fold by done.
  unfold dec_value in Hval. by rewrite Hval, u32_id.
Qed.

(** ** The reply buffer *)

(** The sum of the packet format. *)
Definition checksum (l : list Z) : Z := u8 (foldr Z.add 0 l).

(** A packet, and the one that also acknowledges the command. *)
Definition frame (ack : bool) (body : list Z) : list Z :=
  (if ack then [chr "+"] else []) ++ chr "$" :: body ++ chr "#" :: hex_text [checksum body].

Section out.
Context {D : Type} `{!Device D, !Transport D}.
Abbreviation St := (stub D).

Definition out_of (s : St) : list Z := g_out (st_rsp s).

(** Append to the reply buffer. *)
Definition out_put (l : list Z) (s : St) : St := set_st_rsp (set_g_out (out_of s ++ l) (st_rsp s)) s.

(** [m] prints exactly [l]. *)
Definition prints (m : M St unit) (l : list Z) (s : St) : Prop :=
  zlen (out_of s) + zlen l <= OUT_SIZE → m s = (tt, out_put l s).

Lemma out_put_nil s : out_put [] s = s.
Proof. unfold out_put. rewrite app_nil_r. by destruct s as [? ? ? []]. Qed.
Lemma out_put_app l k s : out_put k (out_put l s) = out_put (l ++ k) s.
Proof. unfold out_put, out_of. cbn. by rewrite <-app_assoc. Qed.
Lemma out_of_put l s : out_of (out_put l s) = out_of s ++ l.
Proof. done. Qed.

Lemma prints_skip s : prints skip [] s.
Proof. intros _. by rewrite out_put_nil. Qed.
Lemma prints_bind m (k : unit → M St unit) l l' s :
  prints m l s → prints (k tt) l' (out_put l s) → prints (m ≫= k) (l ++ l') s.
Proof.
  intros Hm Hk Hs. rewrite zlen_app in Hs. pose proof (zlen_nonneg l'). pose proof (zlen_nonneg l).
  unfold mbind, M_bind. rewrite Hm by lia. rewrite Hk, out_put_app; [done|].
  rewrite out_of_put, zlen_app. lia.
Qed.
Lemma prints_ch c s : prints (out_ch c) [u8 c] s.
Proof.
  intros Hs. change (zlen [u8 c]) with 1 in Hs. unfold out_ch, getR, gets, mbind, M_bind. fold (out_of s).
  rewrite (proj2 (Z.ltb_lt _ _)) by lia. done.
Qed.
Lemma prints_str l s : Forall byte_ok l → prints (out_str l) l s.
Proof.
  intros Hl. revert s. induction Hl as [|c l Hc Hl IH]; intros s; [apply prints_skip|].
  cbn [out_str]. apply (prints_bind _ _ [c]); [|apply IH].
  rewrite <-(u8_id c) at 2 by done. apply prints_ch.
Qed.
Lemma hexdigit_ok d : u8 (hexdigit d) = hexdigit d.
Proof. unfold hexdigit. apply u8_u8. Qed.
Lemma prints_digit d s : prints (out_ch (hexdigit d)) [hexdigit d] s.
Proof. rewrite <-(hexdigit_ok d) at 2. apply prints_ch. Qed.
Lemma prints_byte b s : prints (out_byte b) (hex_text [b]) s.
Proof.
  unfold out_byte. apply (prints_bind _ _ [hexdigit (b .>> 4)] [hexdigit (b .& 0xF)]); apply prints_digit.
Qed.
Lemma prints_text l s : prints (out_text l) (hex_text l) s.
Proof.
  revert s. induction l as [|c l IH]; intros s; [apply prints_skip|]. cbn [out_text].
  apply (prints_bind _ _ (hex_text [c])); [apply prints_byte|apply IH].
Qed.
Lemma prints_hex_from n v s : prints (out_hex_from n v) (hex_digits n v) s.
Proof.
  revert s. induction n as [|n IH]; intros s; cbn [out_hex_from hex_digits];
    (apply (prints_bind _ _ [_]); [apply prints_digit|]);
    [apply prints_skip|apply IH].
Qed.
Lemma prints_hex v s : prints (out_hex v) (hex_number v) s.
Proof. apply prints_hex_from. Qed.

(** Two bytes at a time, without the bound. *)
Lemma out_pair_run b0 b1 s :
  byte_ok b0 → byte_ok b1 → out_pair b0 b1 s = (tt, out_put (hex_text [b0; b1]) s).
Proof.
  intros H0 H1. unfold out_pair, updR, modify. f_equal. unfold out_put. f_equal. unfold set_g_out, out_of.
  f_equal. f_equal.
  destruct (nibbles b0 H0) as (Ha & Hb & _). destruct (nibbles b1 H1) as (Hc & Hd & _).
  pose proof (hexdigit_range _ Ha). pose proof (hexdigit_range _ Hb).
  pose proof (hexdigit_range _ Hc). pose proof (hexdigit_range _ Hd).
  cbn [hex_text flat_map app].
  set (x0 := hexdigit (b0 .>> 4)) in *. set (x1 := hexdigit (b0 .& 15)) in *.
  set (x2 := hexdigit (b1 .>> 4)) in *. set (x3 := hexdigit (b1 .& 15)) in *.
  rewrite lor_bytes_small by (unfold byte_ok; lia).
  apply (le_split_join [x0; x1; x2; x3]). repeat constructor; unfold byte_ok; lia.
Qed.

(** *** Packets *)

Lemma fold_sum l a : fold_left (λ acc b, u32 (acc + b)) l (u32 a) = u32 (a + foldr Z.add 0 l).
Proof.
  revert a. induction l as [|b l IH]; intros a; cbn [fold_left foldr]; [by rewrite Z.add_0_r|].
  replace (u32 (u32 a + b)) with (u32 (a + b)); [rewrite IH; f_equal; lia|].
  unfold u32. by rewrite Z.add_mod_idemp_l.
Qed.

(** A reply under construction: its acknowledgement and its body so far. *)
Definition open_reply (ack : bool) (body : list Z) (s : St) : Prop :=
  out_of s = (if ack then [chr "+"] else []) ++ chr "$" :: body ∧
  g_body_start (st_rsp s) = (if ack then 2 else 1).

Lemma out_begin_run ack (s : St) :
  out_begin_ack ack s =
  (tt, set_st_rsp (set_g_body_start (if ack then 2 else 1)
                    (set_g_out ((if ack then [chr "+"] else []) ++ [chr "$"]) (st_rsp s))) s).
Proof. by destruct ack. Qed.

Lemma out_begin_open ack (s : St) : open_reply ack [] (snd (out_begin_ack ack s)).
Proof. rewrite out_begin_run. by destruct ack. Qed.

(** [out_finish] sends the packet of the body, whole. *)
Lemma out_finish_run ack body s :
  open_reply ack body s → zlen body <= PACKET_SIZE →
  out_finish s =
  (tt, snd (bulk_send g_out_addr (frame ack body)
              (out_put (chr "#" :: hex_text [checksum body]) s))).
Proof.
  intros [Ho Hb] Hfit. unfold out_finish, getR, gets, mbind at 1 2, M_bind at 1 2.
  fold (out_of s). rewrite Ho, Hb.
  replace (drop (Z.to_nat _) _) with body by by destruct ack.
  change 0 with (u32 0). rewrite fold_sum, Z.add_0_l.
  assert (u8 (u32 (foldr Z.add 0 body)) = checksum body) as Hc.
  { unfold u8, u32, checksum, u8. generalize (foldr Z.add 0 body). intros x. zlia. }
  rewrite Hc.
  assert (prints (out_ch (chr "#");; out_byte (checksum body))
    (chr "#" :: hex_text [checksum body]) s) as Hp
    by (apply (prints_bind _ _ [_]); [apply prints_ch|apply prints_byte]).
  assert (zlen (out_of s) + zlen (chr "#" :: hex_text [checksum body]) <= OUT_SIZE) as Hz.
  { rewrite Ho. destruct ack; unfold OUT_SIZE, zlen in *; cbn [length app hex_text flat_map]; lia. }
  specialize (Hp Hz). unfold mbind, M_bind in Hp |- *.
  destruct (out_ch (chr "#") s) as [[] s1]. rewrite Hp. unfold send_out, getR, gets, mbind, M_bind.
  fold (out_of (out_put (chr "#" :: hex_text [checksum body]) s)).
  rewrite out_of_put, Ho.
  replace (((if ack then [chr "+"] else []) ++ chr "$" :: body) ++ chr "#" :: hex_text [checksum body])
    with (frame ack body) by (unfold frame; by rewrite <-app_assoc).
  by destruct (bulk_send _ _ _) as [[] ?].
Qed.

(** *** How much an operation prints *)

(** [m] appends at most [n] bytes to the reply and keeps its start. *)
Definition adds {A} (n : Z) (m : M St A) : Prop := ∀ s, ∃ l,
  out_of (snd (m s)) = out_of s ++ l ∧ zlen l <= n ∧
  g_body_start (st_rsp (snd (m s))) = g_body_start (st_rsp s).

Lemma adds_mono {A} n n' (m : M St A) : adds n m → n <= n' → adds n' m.
Proof. intros Hm Hn s. destruct (Hm s) as (l & H1 & H2 & H3). exists l. split_and!; try done. lia. Qed.
Lemma adds_quiet {A} (m : M St A) :
  (∀ s, g_out (st_rsp (snd (m s))) = g_out (st_rsp s) ∧
        g_body_start (st_rsp (snd (m s))) = g_body_start (st_rsp s)) → adds 0 m.
Proof. intros Hm s. destruct (Hm s). exists []. rewrite app_nil_r. split_and!; done. Qed.
Lemma adds_bind {A B} n1 n2 n (m : M St A) (k : A → M St B) :
  adds n1 m → (∀ a, adds n2 (k a)) → n1 + n2 <= n → adds n (m ≫= k).
Proof.
  intros Hm Hk Hn s. destruct (Hm s) as (l & H1 & H2 & H3). unfold mbind, M_bind.
  destruct (m s) as [a s1]. cbn [snd] in *. destruct (Hk a s1) as (l' & H1' & H2' & H3').
  exists (l ++ l'). rewrite zlen_app. split_and!; [by rewrite H1', H1, <-app_assoc|lia|congruence].
Qed.
Lemma adds_if {A} n (c : bool) (m k : M St A) : adds n m → adds n k → adds n (if c then m else k).
Proof. by destruct c. Qed.
Lemma adds_skip : adds 0 skip.
Proof. by apply adds_quiet. Qed.
Lemma adds_ret {A} (a : A) : adds 0 (mret a).
Proof. by apply adds_quiet. Qed.
Lemma adds_getR {A} (f : rsp_st → A) : adds 0 (getR f).
Proof. by apply adds_quiet. Qed.
Lemma adds_rd w a : adds 0 (rd w a).
Proof. apply adds_quiet. intros s. unfold rd. by destruct (bus_read w a _). Qed.
Lemma adds_wr w a v : adds 0 (wr w a v).
Proof. by apply adds_quiet. Qed.
Lemma adds_when n c m : 0 <= n → adds n m → adds n (when c m).
Proof. intros Hn Hm. destruct c; [done|]. by apply (adds_mono 0), Hn; apply adds_skip. Qed.
Lemma adds_for k n body : 0 <= n → (∀ i, adds n (body i)) → adds (n * Z.max 0 k) (for_to k body).
Proof.
  intros Hn Hb. unfold for_to. generalize 0 at 2. intros lo.
  replace (Z.max 0 k) with (Z.of_nat (Z.to_nat k)) by lia.
  revert lo. induction (Z.to_nat k) as [|j IH]; intros lo; cbn [for_range].
  - rewrite Z.mul_0_r. apply adds_skip.
  - eapply adds_bind; [apply Hb|intros; apply IH|lia].
Qed.
Lemma adds_ch c : adds 1 (out_ch c).
Proof.
  intros s. unfold out_ch, getR, gets, mbind, M_bind.
  destruct (_ <? _); [exists [u8 c]|exists []]; rewrite ?app_nil_r; done.
Qed.
Lemma adds_str l : adds (zlen l) (out_str l).
Proof.
  induction l as [|c l IH]; [apply adds_skip|]. cbn [out_str].
  eapply adds_bind; [apply adds_ch|intros; apply IH|]. rewrite zlen_cons. lia.
Qed.
Lemma adds_byte b : adds 2 (out_byte b).
Proof. unfold out_byte. eapply adds_bind; [apply adds_ch|intros; apply adds_ch|lia]. Qed.
Lemma adds_text l : adds (2 * zlen l) (out_text l).
Proof.
  induction l as [|c l IH]; [apply adds_skip|]. cbn [out_text].
  eapply adds_bind; [apply adds_byte|intros; apply IH|]. rewrite zlen_cons. lia.
Qed.
Lemma adds_hex v : adds 8 (out_hex v).
Proof.
  assert (∀ n, adds (Z.of_nat n + 1) (out_hex_from n v)) as H.
  { induction n as [|n IH]; cbn [out_hex_from].
    - eapply adds_bind; [apply adds_ch|intros; apply adds_skip|lia].
    - eapply adds_bind; [apply adds_ch|intros; apply IH|lia]. }
  unfold out_hex. eapply adds_mono; [apply H|].
  enough (∀ n, (hex_skip n v <= n)%nat) as Hn by (specialize (Hn 7%nat); lia).
  induction n as [|n IH]; [done|]. cbn [hex_skip]. destruct (nonzero _); lia.
Qed.
Lemma adds_word v : adds 8 (out_word v).
Proof. unfold out_word. eapply adds_mono; [apply (adds_for 4 2); [lia|intros; apply adds_byte]|done]. Qed.

(** An operation on a reply under construction. *)
Lemma adds_open {A} n (m : M St A) ack body s :
  adds n m → open_reply ack body s →
  ∃ l, open_reply ack (body ++ l) (snd (m s)) ∧ zlen l <= n.
Proof.
  intros Hm [Ho Hb]. destruct (Hm s) as (l & H1 & H2 & H3). exists l. split; [|done].
  split; [|congruence]. rewrite H1, Ho. destruct ack; cbn; by rewrite <-?app_assoc.
Qed.

(** The queries answer with at most a packet. *)
Lemma adds_query p : adds PACKET_SIZE (handle_query p).
Proof.
  unfold handle_query. cbv zeta. repeat apply adds_if;
    try (eapply adds_mono; [apply adds_str|done]); try (eapply adds_mono; [apply adds_skip|done]).
  - eapply adds_bind; [apply adds_str|intros|]; [eapply adds_bind; [apply adds_hex|intros; apply adds_str|]|];
      [reflexivity|done].
  - destruct (parse_hex _) as [off q]. destruct (parse_hex _) as [len q'].
    apply adds_if; [eapply adds_mono; [apply adds_str|done]|].
    eapply adds_bind; [apply adds_ch|intros; apply (adds_for _ 1); [lia|intros; apply adds_ch]|].
    assert (∀ n, (if PACKET_SIZE - 16 <? n then PACKET_SIZE - 16 else n) <= PACKET_SIZE - 16) as Hn
      by (intros n; destruct (_ <? n) eqn:E; lia).
    match goal with |- _ + 1 * Z.max 0 (if _ <? ?n then _ else _) <= _ => specialize (Hn n) end.
    unfold PACKET_SIZE in *. lia.
Qed.
End out.


(** ** What is sent *)

(** A transport that keeps what it sent: the wire. *)
Class Wire (D : Type) `{!Device D, !Transport D} := {
  wire : D → list (list Z);
  wire_send al l (s : stub D) :
    wire (dev (st_mach (snd (bulk_send al l s)))) = wire (dev (st_mach s)) ++ [l];
  wire_read w a d : wire (snd (dev_read w a d)) = wire d;
  wire_write w a v d : wire (dev_write w a v d) = wire d;
}.

(** Any device with a transport that records. *)
Record tap (D : Type) := Tap { tap_dev : D; tap_sent : list (list Z) }.
Arguments Tap {D} _ _.
Arguments tap_dev {D} _.
Arguments tap_sent {D} _.

Section tap.
Context {D : Type} `{!Device D}.

#[export] Instance tap_device : Device (tap D) := {|
  dev_read w a t := let '(v, d) := dev_read w a (tap_dev t) in (v, Tap d (tap_sent t));
  dev_write w a v t := Tap (dev_write w a v (tap_dev t)) (tap_sent t);
|}.

Definition tap_send (al : Z) (l : list Z) : M (stub (tap D)) unit :=
  modify (λ s, let m := st_mach s in
    set_st_mach (Machine (ram m) (Tap (tap_dev (dev m)) (tap_sent (dev m) ++ [l]))) s).

#[export] Instance tap_transport : Transport (tap D).
Proof. by refine {| bulk_send := tap_send |}. Defined.

#[export] Instance tap_wire : Wire (tap D).
Proof.
  refine {| wire := tap_sent |}; try done.
  intros w a d. cbn. by destruct (dev_read w a (tap_dev d)).
Defined.
End tap.

(** The packets that answer one command: the first acknowledges it, and every
    body is within the advertised packet size. *)
Definition replies (msgs : list (list Z)) : Prop := ∃ b bs,
  msgs = frame true b :: map (frame false) bs ∧ Forall (λ b, zlen b <= PACKET_SIZE) (b :: bs).

Section sent.
Context {D : Type} `{!Device D, !Transport D, !Wire D}.
Abbreviation St := (stub D).

Definition sent (s : St) : list (list Z) := wire (dev (st_mach s)).
Definition silent (s s' : St) : Prop := sent s' = sent s.

#[export] Instance silent_quiet : Quiet silent.
Proof.
  split; [split|..].
  - done.
  - intros s1 s2 s3 H12 H23. unfold silent in *. congruence.
  - intros w a s. unfold silent, sent, rd, bus_read. cbn. destruct (in_ddr a); [done|].
    pose proof (wire_read w a (dev (st_mach s))) as H. by destruct (dev_read w a _).
  - intros w a v s. unfold silent, sent, wr, bus_write. cbn. destruct (in_ddr a); [done|].
    apply wire_write.
  - done.
Qed.
Lemma silent_updR f : steps silent (updR f).
Proof. by intros s. Qed.

Lemma silent_ch c : steps silent (out_ch c).
Proof. unfold out_ch, getR. steps_walk ltac:(first [quiet_leaf|apply silent_updR]). Qed.
Lemma silent_str l : steps silent (out_str l).
Proof. induction l; cbn [out_str]; steps_walk ltac:(first [quiet_leaf|apply silent_ch|assumption]). Qed.
Lemma silent_byte b : steps silent (out_byte b).
Proof. unfold out_byte. steps_walk ltac:(apply silent_ch). Qed.
Lemma silent_text l : steps silent (out_text l).
Proof. induction l; cbn [out_text]; steps_walk ltac:(first [quiet_leaf|apply silent_byte|assumption]). Qed.
Lemma silent_mon l : steps silent (mon_str l).
Proof. induction l; cbn [mon_str]; steps_walk ltac:(first [quiet_leaf|apply silent_byte|assumption]). Qed.
Lemma silent_hex v : steps silent (out_hex v).
Proof.
  unfold out_hex. induction (hex_skip 7 v); cbn [out_hex_from];
    steps_walk ltac:(first [quiet_leaf|apply silent_ch|assumption]).
Qed.
Lemma silent_mon_word v : steps silent (mon_word v).
Proof.
  unfold mon_word. apply steps_bind; [apply _|apply silent_mon|intros _].
  generalize 8%nat. intros n. induction n; cbn [mon_digits]; steps_walk ltac:(first [quiet_leaf|apply silent_byte|assumption]).
Qed.
Lemma silent_query p : steps silent (handle_query p).
Proof.
  unfold handle_query.
  steps_walk ltac:(first [quiet_leaf|apply silent_str|apply silent_hex|apply silent_ch]).
Qed.

(** One packet around [m]. *)
Lemma packet_around ack (m : M St unit) s :
  (∀ s, open_reply ack [] s → ∃ body, open_reply ack body (snd (m s)) ∧ zlen body <= PACKET_SIZE) →
  steps silent m →
  ∃ body, sent (snd ((out_begin_ack ack;; m;; out_finish) s)) = sent s ++ [frame ack body] ∧
          zlen body <= PACKET_SIZE.
Proof.
  intros Hm Hs. unfold mbind, M_bind.
  pose proof (out_begin_open ack s) as Ho.
  assert (sent (snd (out_begin_ack ack s)) = sent s) as Hb by (rewrite out_begin_run; done).
  destruct (out_begin_ack ack s) as [[] s1]. cbn [snd] in *.
  destruct (Hm s1 Ho) as (body & Ho2 & Hl). specialize (Hs s1).
  destruct (m s1) as [[] s2]. cbn [snd app] in *.
  exists body. split; [|done].
  rewrite (out_finish_run ack body) by done. cbn [snd]. unfold sent.
  rewrite wire_send. cbn. unfold silent, sent in Hs, Hb. congruence.
Qed.
Lemma packet_sent n ack (m : M St unit) s :
  adds n m → steps silent m → n <= PACKET_SIZE →
  ∃ body, sent (snd ((out_begin_ack ack;; m;; out_finish) s)) = sent s ++ [frame ack body] ∧
          zlen body <= PACKET_SIZE.
Proof.
  intros Hm Hs Hn. apply packet_around; [|done]. intros s1 Ho.
  destruct (adds_open n m ack [] s1 Hm Ho) as (body & Ho2 & Hl). exists body. split; [done|lia].
Qed.

End sent.

(** The leaves of a [steps_walk] for [silent]. *)
Ltac silent_leaf :=
  lazymatch goal with
  | |- steps _ (mon_str _) => apply silent_mon
  | |- steps _ (mon_word _) => apply silent_mon_word
  | |- steps _ (out_byte _) => apply silent_byte
  | |- steps _ (out_ch _) => apply silent_ch
  | |- steps _ (out_str _) => apply silent_str
  | |- steps _ (updR _) => apply silent_updR
  | |- _ => quiet_leaf
  end.

(** ** Monitor commands *)

Section monitor.
Context {D : Type} `{!Device D, !Transport D, !Wire D}.
Abbreviation St := (stub D).

Lemma bind_assoc {A B C} (m : M St A) (k : A → M St B) (h : B → M St C) :
  ∀ s, ((m ≫= k) ≫= h) s = (m ≫= λ a, k a ≫= h) s.
Proof. intros s. unfold mbind, M_bind. by destruct (m s). Qed.

Lemma adds_mon l : adds (2 * zlen l) (mon_str (D := D) l).
Proof.
  induction l as [|c l IH]; [apply adds_skip|]. cbn [mon_str].
  eapply adds_bind; [apply adds_byte|intros; apply IH|]. rewrite zlen_cons. lia.
Qed.
Lemma adds_mon_word v : adds 20 (mon_word (D := D) v).
Proof.
  unfold mon_word. eapply adds_bind; [apply adds_mon|intros _|].
  - assert (∀ k, adds (2 * Z.of_nat k) (mon_digits (D := D) k v)) as H.
    { induction k as [|k IH]; [apply adds_skip|]. cbn [mon_digits].
      eapply adds_bind; [apply adds_byte|intros; apply IH|lia]. }
    apply (H 8%nat).
  - done.
Qed.

(** A loop whose iterations print different amounts. *)
Lemma adds_for_sum (G : Z → Z) k body :
  0 <= k → G 0 = 0 → (∀ i, 0 <= i < k → adds (G (i + 1) - G i) (body i)) →
  adds (G k) (for_to (S := St) k body).
Proof.
  intros Hk H0 Hb. unfold for_to.
  assert (∀ n lo, 0 <= lo → lo + Z.of_nat n <= k →
    adds (G (lo + Z.of_nat n) - G lo) (for_range lo n body)) as H.
  { induction n as [|n IH]; intros lo Hlo Hn; cbn [for_range].
    - eapply adds_mono; [apply adds_skip|]. rewrite Z.add_0_r. lia.
    - eapply adds_bind; [apply Hb; lia|intros; apply IH; lia|].
      replace (lo + Z.of_nat (Datatypes.S n)) with (lo + 1 + Z.of_nat n) by lia. lia. }
  eapply adds_mono; [apply H; lia|]. rewrite Z2Nat.id by done. rewrite Z.add_0_l. lia.
Qed.

(** The output of md32 between its packet brackets. *)
Definition md32_body (addr count : Z) : M St unit :=
  when (MD32_MAX <? count) (
    mon_str (bytes_of "clamped to ");;
    mon_dec MD32_MAX;;
    mon_str (bytes_of " words" ++ [10]));;
  let count := if MD32_MAX <? count then MD32_MAX else count in
  for_to count (λ i,
    when (negb (nonzero (i .& 3))) (
      mon_word (u32 (addr + i * 4));;
      mon_ch (chr ":"));;
    mon_ch (chr " ");;
    w ← rd32 (u32 (addr + i * 4));
    mon_word w;;
    when (((i .& 3) =? 3) || (i + 1 =? count)) (mon_ch 10)).

Lemma adds_md32 addr count : adds PACKET_SIZE (md32_body addr count).
Proof.
  unfold md32_body. cbv zeta.
  eapply (adds_bind 42); [| |]; [| |instantiate (1 := 7200); done].
  - apply adds_when; [done|]. eapply adds_bind; [apply adds_mon|intros _|].
    + eapply adds_bind; [apply adds_mon|intros _; apply adds_mon|]. reflexivity.
    + done.
  - intros _. set (n := if MD32_MAX <? count then MD32_MAX else count).
    assert (n <= 256) as Hn by (unfold n, MD32_MAX; destruct (256 <? count) eqn:?; lia). clearbody n.
    destruct (Z_lt_le_dec n 0) as [Hneg|Hpos].
    { unfold for_to. replace (Z.to_nat n) with O by lia. eapply adds_mono; [apply adds_skip|done]. }
    set (G := λ k, 22 * k + 22 * ((k + 3) / 4) + 2 * (k / 4) + (if k =? n then 2 else 0)).
    destruct (Z.eq_dec n 0) as [->|Hn0]; [eapply adds_mono; [apply adds_skip|done]|].
    apply (adds_mono (G n)); [|unfold G; rewrite Z.eqb_refl; zlia].
    apply adds_for_sum; [done|unfold G; by rewrite (proj2 (Z.eqb_neq 0 n))|].
    intros i Hi. rewrite (land_low i 2) by done. change (2 ^ 2) with 4.
    apply (adds_bind (if i mod 4 =? 0 then 22 else 0)
             (22 + if (i mod 4 =? 3) || (i + 1 =? n) then 2 else 0)).
    + unfold nonzero. rewrite negb_involutive. destruct (_ =? 0); [|apply adds_skip].
      eapply adds_bind; [apply adds_mon_word|intros; apply adds_byte|done].
    + intros _. eapply adds_bind; [apply adds_byte|intros _|].
      { eapply adds_bind; [apply adds_rd|intros w|].
        - eapply adds_bind; [apply adds_mon_word|intros _|].
          + instantiate (1 := if (i mod 4 =? 3) || (i + 1 =? n) then 2 else 0).
            destruct (_ || _); [apply adds_byte|apply adds_skip].
          + reflexivity.
        - reflexivity. }
      lia.
    + unfold G. rewrite (proj2 (Z.eqb_neq i n)) by lia.
      destruct (i mod 4 =? 0) eqn:E0, (i mod 4 =? 3) eqn:E3, (i + 1 =? n) eqn:En; cbn [orb]; zlia.
Qed.

Lemma silent_md32 addr count : steps silent (md32_body addr count).
Proof.
  unfold md32_body, mon_dec, mon_ch.
  steps_walk ltac:(idtac; silent_leaf).
Qed.

Lemma monitor_md32_eq p s :
  monitor_md32 p s =
  let p := skip_spaces p in
  if (zlen p <? 2) || negb (znth p 0 =? chr "0") || negb (znth p 1 =? chr "x") then
    send_text (bytes_of "md32: address must be hex with an 0x prefix" ++ [10]) true s
  else
    let '(a, p) := parse_hex (drop 2 p) in
    let '(count, _) := parse_dec (skip_spaces p) in
    (out_begin_ack true;; md32_body (a .& not32 3) (if nonzero count then count else 4);; out_finish) s.
Proof.
  unfold monitor_md32. cbv zeta. destruct (_ || _); [done|].
  destruct (parse_hex _) as [a q]. destruct (parse_dec _) as [c q'].
  unfold mbind, M_bind. destruct (out_begin_ack true s) as [[] s1]. unfold md32_body, mbind, M_bind.
  by destruct (when _ _ s1) as [[] s2].
Qed.

Lemma sent_text_packet l ack s :
  2 * zlen l <= PACKET_SIZE →
  ∃ body, sent (snd (send_text l ack s)) = sent s ++ [frame ack body] ∧ zlen body <= PACKET_SIZE.
Proof. intros Hl. apply (packet_sent (2 * zlen l)); [apply adds_text|apply silent_text|done]. Qed.

Lemma sent_output addr len ack s :
  len <= MONITOR_CHUNK →
  ∃ body, sent (snd (send_output addr len ack s)) = sent s ++ [frame ack body] ∧ zlen body <= PACKET_SIZE.
Proof.
  intros Hl. unfold send_output.
  set (m := out_ch (chr "O");; for_to len (λ i, b ← rd8 (u32 (addr + i)); out_byte b)).
  destruct (packet_sent (1 + 2 * Z.max 0 len) ack m s) as (body & H & Hb).
  - eapply adds_bind; [apply adds_ch|intros _; apply (adds_for _ 2); [done|]|reflexivity].
    intros i. eapply adds_bind; [apply adds_rd|intros; apply adds_byte|done].
  - unfold m. steps_walk ltac:(first [apply silent_ch|apply silent_byte|quiet_leaf]).
  - unfold MONITOR_CHUNK, PACKET_SIZE in *. change ((0x2000 - 8) / 2) with 4092 in Hl. lia.
  - exists body. split; [|done]. rewrite <-H. unfold m, mbind, M_bind.
    destruct (out_begin_ack ack s) as [[] s1]. by destruct (out_ch (chr "O") s1) as [[] s2].
Qed.

(** The packets of a region: chunks, then OK. *)
Definition run_of (ack : bool) (bs : list (list Z)) : list (list Z) :=
  match bs with [] => [] | b :: bs' => frame ack b :: map (frame false) bs' end.

Lemma sent_chunks fuel base off len ack s :
  ∃ bs, sent (snd (send_chunks fuel base off len ack s)) = sent s ++ run_of ack bs ∧
    Forall (λ b, zlen b <= PACKET_SIZE) bs ∧
    fst (send_chunks fuel base off len ack s) = (if bs is [] then ack else false).
Proof.
  revert off ack s. induction fuel as [|fuel IH]; intros off ack s; cbn [send_chunks].
  { exists []. by rewrite app_nil_r. }
  destruct (off <? len) eqn:E; [|exists []; by rewrite app_nil_r].
  set (chunk := if MONITOR_CHUNK <? len - off then MONITOR_CHUNK else len - off).
  assert (chunk <= MONITOR_CHUNK) as Hc by (unfold chunk; destruct (MONITOR_CHUNK <? len - off) eqn:?; lia).
  destruct (sent_output (base + off) chunk ack s Hc) as (b & Hs & Hb).
  unfold mbind, M_bind. destruct (send_output _ _ _ s) as [[] s1]. cbn [snd] in Hs.
  destruct (IH (off + chunk) false s1) as (bs & Hs2 & Hbs & Hr).
  exists (b :: bs). rewrite Hs2, Hs, <-app_assoc, Hr. split_and!; [|by constructor|by destruct bs].
  f_equal. cbn. f_equal. by destruct bs.
Qed.

Lemma sent_region base len s :
  ∃ msgs, sent (snd (send_region base len s)) = sent s ++ msgs ∧ replies msgs.
Proof.
  unfold send_region, mbind at 1, M_bind at 1.
  destruct (sent_chunks (Z.to_nat len) base 0 len true s) as (bs & Hs & Hbs & Hr).
  destruct (send_chunks _ _ _ _ _ s) as [ack s1]. cbn [fst snd] in *.
  destruct (packet_sent 2 ack (out_str (bytes_of "OK")) s1) as (b & H2 & Hb);
    [apply (adds_str (bytes_of "OK"))|apply silent_str|done|].
  eexists. split; [rewrite H2, Hs, <-app_assoc; reflexivity|].
  destruct bs as [|b0 bs]; subst ack.
  - exists b, []. split; [done|by repeat constructor].
  - exists b0, (bs ++ [b]). cbn. rewrite map_app. split; [done|].
    inversion Hbs; subst. constructor; [done|]. apply Forall_app. split; [done|by repeat constructor].
Qed.

Lemma sent_monitor p s :
  ∃ msgs, sent (snd (handle_monitor p s)) = sent s ++ msgs ∧ replies msgs.
Proof.
  assert (∀ b, zlen b <= PACKET_SIZE → replies [frame true b]) as Hone
    by (intros b Hb; exists b, []; split; [done|by repeat constructor]).
  assert (∀ l (s : St), 2 * zlen l <= PACKET_SIZE →
    ∃ msgs, sent (snd (send_text l true s)) = sent s ++ msgs ∧ replies msgs) as Htext.
  { intros l s' Hl. destruct (sent_text_packet l true s' Hl) as (b & H & Hb). eauto. }
  unfold handle_monitor. cbv zeta. destruct (_ && _); [|destruct (equals _ _ _); [|destruct (equals _ _ _)]].
  - rewrite monitor_md32_eq. cbv zeta. destruct (_ || _); [by apply Htext|].
    destruct (parse_hex _) as [a q]. destruct (parse_dec _) as [c q'].
    destruct (packet_sent PACKET_SIZE true (md32_body (a .& not32 3) (if nonzero c then c else 4)) s)
      as (b & H & Hb); [apply adds_md32|apply silent_md32|done|]. eauto.
  - apply sent_region.
  - unfold mbind at 1, M_bind at 1.
    assert (steps silent (trace_prev_used (D := D))) as Hp
      by (unfold trace_prev_used; steps_walk ltac:(quiet_leaf)).
    specialize (Hp s). destruct (trace_prev_used s) as [u s1]. cbn [snd] in Hp.
    destruct (sent_region TRACE_PREV u s1) as (msgs & H & Hm). exists msgs. by rewrite H, Hp.
  - by apply Htext.
Qed.
End monitor.

(** ** Witnesses: the theorems at concrete states *)

Lemma number_roundtrip_witness :
  parse_hex (hex_number 0x30100000 ++ [chr ","]) = (0x30100000, [chr ","]).
Proof. by apply (number_roundtrip 0x30100000 [chr ","]). Defined.
