(* ===== verification/Memory.v ===== *)
(** * Memory: memory and register access by the debugger

    [read_memory], [write_memory_hex], [write_memory_bin], [read_regs] and
    [write_regs] of [src/baremetal/gdbstub/rsp.c]. *)
From S2P Require Import Prelude Machine GdbState Trace Step Packet.

(** The registers in the order of [struct arm_regs]. *)
Definition regs_list (g : arm_regs) : list Z :=
  map (λ i, nth i (r_low g) 0) (seq 0 13) ++ [r_sp g; r_lr g; r_pc g; r_cpsr g].
Definition regs_of_list (l : list Z) : arm_regs :=
  ArmRegs (take 13 l) (znth l 13) (znth l 14) (znth l 15) (znth l 16).

Section Memory.
Context {D : Type} `{!Device D, !Transport D}.
Abbreviation St := (stub D).

Definition read_byte (a : Z) : M St Z := rd8 (u32 a).

(** [while (i < len && (g_out_len & 3))] *)
Fixpoint read_align (fuel : nat) (addr len i : Z) : M St Z :=
  match fuel with
  | O => mret i
  | Datatypes.S fuel' =>
      out ← getR g_out;
      if (i <? len) && nonzero (zlen out .& 3) then
        b ← read_byte (addr + i);
        out_byte b;;
        read_align fuel' addr len (i + 1)
      else mret i
  end.

(** [while (i + 2 <= len)] *)
Fixpoint read_pairs (fuel : nat) (addr len i : Z) : M St Z :=
  match fuel with
  | O => mret i
  | Datatypes.S fuel' =>
      if i + 2 <=? len then
        b0 ← read_byte (addr + i);
        b1 ← read_byte (addr + i + 1);
        out_pair b0 b1;;
        read_pairs fuel' addr len (i + 2)
      else mret i
  end.

(** [while (i < len)] *)
Fixpoint read_rest (fuel : nat) (addr len i : Z) : M St unit :=
  match fuel with
  | O => skip
  | Datatypes.S fuel' =>
      if i <? len then
        b ← read_byte (addr + i);
        out_byte b;;
        read_rest fuel' addr len (i + 1)
      else skip
  end.

(** Each loop advances [i] towards [len], so [len] iterations are enough. *)
Definition read_memory (p : list Z) : M St unit :=
  let '(addr, p) := parse_hex p in
  let '(len, _) := parse_hex (skip_char (chr ",") p) in
  let len := if (OUT_SIZE - 16) / 2 <? len then (OUT_SIZE - 16) / 2 else len in
  let fuel := Z.to_nat len in
  i ← read_align fuel addr len 0;
  i ← read_pairs fuel addr len i;
  read_rest fuel addr len i.

(** [for (i = 0; i < len && p + 1 < end; i++, p += 2)]; [p] gets shorter, so
    its length is enough fuel. *)
Fixpoint write_hex_loop (fuel : nat) (addr len i : Z) (p : list Z) : M St unit :=
  match fuel, p with
  | Datatypes.S fuel', c0 :: c1 :: p' =>
      if i <? len then
        wr8 (u32 (addr + i)) (u8 (hexpair c0 c1));;
        write_hex_loop fuel' addr len (i + 1) p'
      else skip
  | _, _ => skip
  end.

Definition write_memory_hex (p : list Z) : M St unit :=
  let '(addr, p) := parse_hex p in
  let '(len, p) := parse_hex (skip_char (chr ",") p) in
  let p := skip_char (chr ":") p in
  write_hex_loop (length p) addr len 0 p;;
  out_str (bytes_of "OK").

Definition ESC : Z := 0x7D.

(** [while (i < len && p < end)]; every iteration consumes a byte of [p]. *)
Fixpoint write_bin_loop (fuel : nat) (addr len i : Z) (p : list Z) : M St unit :=
  match fuel, p with
  | Datatypes.S fuel', b :: p1 =>
      if i <? len then
        let fast :=
          negb (nonzero (u32 (addr + i) .& 3)) && (u32 (i + 4) <=? len) && (4 <=? zlen p) &&
          forallb (λ c, negb (c =? ESC)) (take 4 p) in
        if fast then
          wr32 (u32 (addr + i))
            (znth p 0 .| u32 (znth p 1 .<< 8) .| u32 (znth p 2 .<< 16) .| u32 (znth p 3 .<< 24));;
          write_bin_loop fuel' addr len (i + 4) (drop 4 p)
        else
          match b =? ESC, p1 with
          | true, e :: p2 =>
              wr8 (u32 (addr + i)) (e .^ 0x20);;
              write_bin_loop fuel' addr len (i + 1) p2
          | _, _ =>
              wr8 (u32 (addr + i)) b;;
              write_bin_loop fuel' addr len (i + 1) p1
          end
      else skip
  | _, _ => skip
  end.

Definition write_memory_bin (p : list Z) : M St unit :=
  let '(addr, p) := parse_hex p in
  let '(len, p) := parse_hex (skip_char (chr ",") p) in
  let p := skip_char (chr ":") p in
  write_bin_loop (length p) addr len 0 p;;
  out_str (bytes_of "OK").

Fixpoint out_words (l : list Z) : M St unit :=
  match l with
  | [] => skip
  | v :: l' => out_word v;; out_words l'
  end.

Definition read_regs : M St unit :=
  g ← getR g_regs;
  out_words (regs_list g).

(** The inner loop of [write_regs]: up to four hex pairs, low byte first. *)
Fixpoint parse_reg (n : nat) (j : Z) (v : Z) (p : list Z) : Z * list Z :=
  match n, p with
  | Datatypes.S n', c0 :: c1 :: p' =>
      parse_reg n' (j + 1) (v .| u32 (hexpair c0 c1 .<< (8 * j))) p'
  | _, _ => (v, p)
  end.
Fixpoint parse_regs (n : nat) (p : list Z) : list Z :=
  match n with
  | O => []
  | Datatypes.S n' => let '(v, p') := parse_reg 4 0 0 p in v :: parse_regs n' p'
  end.

Definition write_regs (p : list Z) : M St unit :=
  updR (set_g_regs (regs_of_list (parse_regs 17 p)));;
  out_str (bytes_of "OK").

End Memory.

(** ** Reading memory *)

Lemma hex_text_app l k : hex_text (l ++ k) = hex_text l ++ hex_text k.
Proof. apply flat_map_app. Qed.
Lemma hex_text_len l : zlen (hex_text l) = 2 * zlen l.
Proof. unfold zlen. induction l; cbn [hex_text flat_map app length] in *; [done|]. unfold hex_text in IHl. lia. Qed.

Section read.
Context {D : Type} `{!Device D, !Transport D}.
Abbreviation St := (stub D).

(** Reading memory only reads the bus and extends the reply. *)
Lemma steps_read_memory (R : St → St → Prop) `{!PreOrder R} p :
  (∀ a, steps R (rd8 a)) →
  (∀ f, (∀ r, ∃ l, f r = set_g_out l r) → steps R (updR f)) →
  steps R (read_memory p).
Proof.
  intros Hrd Hupd.
  assert (∀ b, steps R (out_byte b)) as Hb.
  { intros b. unfold out_byte, out_ch, getR. steps_walk ltac:(idtac; lazymatch goal with
      | |- steps _ (updR _) => apply Hupd; intros; by eexists
      | |- steps _ skip => apply steps_skip; apply _
      | _ => apply steps_gets; apply _ end). }
  assert (∀ b c, steps R (out_pair b c)) as Hp by (intros; apply Hupd; intros; by eexists).
  unfold read_memory. destruct (parse_hex p) as [a q]. destruct (parse_hex _) as [l q']. cbv zeta.
  generalize (if (OUT_SIZE - 16) / 2 <? l then (OUT_SIZE - 16) / 2 else l). intros len.
  assert (∀ f i, steps R (read_align f a len i) ∧ steps R (read_pairs f a len i) ∧
                 steps R (read_rest f a len i)) as H.
  { induction f as [|f IH]; intros i; cbn [read_align read_pairs read_rest]; unfold getR, read_byte;
      (split; [|split]); steps_walk ltac:(first [apply Hb|apply Hp|apply Hrd|apply IH
        |apply steps_skip; apply _|apply steps_ret; apply _|apply steps_gets; apply _]). }
  repeat (apply steps_bind; [apply _|apply H|intros]). apply H.
Qed.

(** Reference: [n] byte accesses in ascending order. *)
Fixpoint read_bytes (n : nat) (a : Z) : M St (list Z) :=
  match n with
  | O => mret []
  | Datatypes.S n' => b ← read_byte a; l ← read_bytes n' (a + 1); mret (b :: l)
  end.

Lemma read_byte_put a l s :
  read_byte a (out_put l s) = let '(b, s1) := read_byte a s in (b, out_put l s1).
Proof. unfold read_byte, rd. cbn. by destruct (bus_read W8 (u32 a) (st_mach s)). Qed.
Lemma read_byte_rsp a s : st_rsp (snd (read_byte a s)) = st_rsp s.
Proof. unfold read_byte, rd. cbn. by destruct (bus_read W8 (u32 a) (st_mach s)). Qed.
Lemma read_byte_ok a s : byte_ok (fst (read_byte a s)).
Proof. apply (rd_range W8). Qed.

Lemma read_bytes_put n a l s :
  read_bytes n a (out_put l s) = let '(b, s1) := read_bytes n a s in (b, out_put l s1).
Proof.
  revert a s. induction n as [|n IH]; intros a s; cbn [read_bytes]; [done|].
  unfold mbind, M_bind, mret, M_ret. rewrite read_byte_put.
  destruct (read_byte a s) as [b s1]. rewrite IH. by destruct (read_bytes n (a + 1) s1).
Qed.
Lemma read_bytes_rsp n a s : st_rsp (snd (read_bytes n a s)) = st_rsp s.
Proof.
  revert a s. induction n as [|n IH]; intros a s; cbn [read_bytes]; [done|].
  unfold mbind, M_bind, mret, M_ret. pose proof (read_byte_rsp a s).
  destruct (read_byte a s) as [b s1]. specialize (IH (a + 1) s1).
  destruct (read_bytes n (a + 1) s1). cbn in *. congruence.
Qed.
Lemma read_bytes_ok n a s : Forall byte_ok (fst (read_bytes n a s)) ∧ length (fst (read_bytes n a s)) = n.
Proof.
  revert a s. induction n as [|n IH]; intros a s; cbn [read_bytes]; [done|].
  unfold mbind, M_bind, mret, M_ret. pose proof (read_byte_ok a s).
  destruct (read_byte a s) as [b s1]. destruct (IH (a + 1) s1) as [H1 H2].
  destruct (read_bytes n (a + 1) s1). cbn in *. split; [by constructor|congruence].
Qed.
Lemma read_bytes_add n k a s :
  read_bytes (n + k) a s =
  let '(l, s1) := read_bytes n a s in
  let '(l', s2) := read_bytes k (a + Z.of_nat n) s1 in (l ++ l', s2).
Proof.
  revert a s. induction n as [|n IH]; intros a s; cbn [read_bytes Nat.add].
  - unfold mret, M_ret. rewrite Z.add_0_r. by destruct (read_bytes k a s).
  - unfold mbind, M_bind, mret, M_ret. destruct (read_byte a s) as [b s1]. rewrite IH.
    destruct (read_bytes n (a + 1) s1) as [l s2].
    replace (a + 1 + Z.of_nat n) with (a + Z.of_nat (Datatypes.S n)) by lia.
    by destruct (read_bytes k _ s2).
Qed.

(** [m] reads [n] bytes at [a], prints them and answers [r]. *)
Definition dumps {A} (m : M St A) (n : nat) (a : Z) (r : A) (s : St) : Prop :=
  m s = let '(l, s1) := read_bytes n a s in (r, out_put (hex_text l) s1).

(** One byte printed, then the rest. *)
Lemma dumps_cons {A} (k : M St A) n a r s :
  zlen (out_of s) + 2 <= OUT_SIZE →
  (∀ s', zlen (out_of s') = zlen (out_of s) + 2 → dumps k n (a + 1) r s') →
  dumps (b ← read_byte a; out_byte b;; k) (Datatypes.S n) a r s.
Proof.
  intros Hfit Hk. unfold dumps. cbn [read_bytes].
  unfold mbind, M_bind, mret, M_ret. pose proof (read_byte_rsp a s) as Hr.
  destruct (read_byte a s) as [b s1]. cbn [snd] in Hr.
  assert (out_of s1 = out_of s) as Ho by (unfold out_of; by rewrite Hr).
  assert (zlen (hex_text [b]) = 2) as H2 by done.
  rewrite prints_byte by (rewrite Ho, H2; lia).
  rewrite Hk by (rewrite out_of_put, zlen_app, Ho, H2; done).
  rewrite read_bytes_put. destruct (read_bytes n (a + 1) s1) as [l s2].
  by rewrite out_put_app, <-hex_text_app.
Qed.
Lemma dumps_nil {A} a (r : A) s : dumps (mret r) 0 a r s.
Proof. unfold dumps. cbn. by rewrite out_put_nil. Qed.

Lemma dumps_rest fuel addr len i s :
  0 <= len - i <= Z.of_nat fuel → zlen (out_of s) + 2 * (len - i) <= OUT_SIZE →
  dumps (read_rest fuel addr len i) (Z.to_nat (len - i)) (addr + i) tt s.
Proof.
  revert i s. induction fuel as [|fuel IH]; intros i s Hf Hfit; cbn [read_rest].
  { replace (Z.to_nat (len - i)) with O by lia. apply dumps_nil. }
  destruct (i <? len) eqn:E.
  - replace (Z.to_nat (len - i)) with (Datatypes.S (Z.to_nat (len - (i + 1)))) by lia.
    apply dumps_cons; [lia|]. intros s' Hs'.
    replace (addr + i + 1) with (addr + (i + 1)) by lia. apply IH; lia.
  - replace (Z.to_nat (len - i)) with O by lia. apply dumps_nil.
Qed.

Lemma dumps_pairs fuel addr len i s :
  0 <= len - i <= Z.of_nat fuel →
  dumps (read_pairs fuel addr len i) (Z.to_nat (2 * ((len - i) / 2))) (addr + i)
    (i + 2 * ((len - i) / 2)) s.
Proof.
  revert i s. induction fuel as [|fuel IH]; intros i s Hf; cbn [read_pairs].
  { replace (len - i) with 0 by lia. change (2 * (0 / 2)) with 0. rewrite Z.add_0_r. apply dumps_nil. }
  destruct (i + 2 <=? len) eqn:E.
  - replace (Z.to_nat (2 * ((len - i) / 2)))
      with (Datatypes.S (Datatypes.S (Z.to_nat (2 * ((len - (i + 2)) / 2))))) by zlia.
    replace (i + 2 * ((len - i) / 2)) with (i + 2 + 2 * ((len - (i + 2)) / 2)) by zlia.
    unfold dumps. cbn [read_bytes]. unfold mbind, M_bind, mret, M_ret.
    pose proof (read_byte_ok (addr + i) s) as H0. destruct (read_byte (addr + i) s) as [b0 s1].
    pose proof (read_byte_ok (addr + i + 1) s1) as H1. destruct (read_byte (addr + i + 1) s1) as [b1 s2].
    cbn [fst] in *. rewrite out_pair_run by done. rewrite IH by lia. rewrite read_bytes_put.
    replace (addr + i + 1 + 1) with (addr + (i + 2)) by lia.
    destruct (read_bytes _ (addr + (i + 2)) s2) as [l s3]. by rewrite out_put_app, <-hex_text_app.
  - replace (2 * ((len - i) / 2)) with 0 by zlia. rewrite Z.add_0_r. apply dumps_nil.
Qed.

Lemma dumps_align fuel addr len i s :
  0 <= len - i <= Z.of_nat fuel → zlen (out_of s) + 2 * (len - i) <= OUT_SIZE →
  ∃ k, (0 <= k <= len - i) ∧
    dumps (read_align fuel addr len i) (Z.to_nat k) (addr + i) (i + k) s.
Proof.
  revert i s. induction fuel as [|fuel IH]; intros i s Hf Hfit; cbn [read_align].
  { exists 0. split; [lia|]. rewrite Z.add_0_r. apply dumps_nil. }
  unfold dumps, getR, gets, mbind at 1, M_bind at 1. fold (out_of s).
  destruct ((i <? len) && _) eqn:E.
  2: { exists 0. split; [lia|]. rewrite Z.add_0_r. apply dumps_nil. }
  pose proof (read_byte_rsp (addr + i) s) as Hr.
  set (s' := out_put (hex_text [fst (read_byte (addr + i) s)]) (snd (read_byte (addr + i) s))).
  assert (zlen (out_of s') = zlen (out_of s) + 2) as Hs'.
  { unfold s'. rewrite out_of_put, zlen_app. unfold out_of at 1. by rewrite Hr. }
  destruct (IH (i + 1) s') as (k & Hk & Hd); [lia|lia|].
  exists (k + 1). split; [lia|].
  replace (Z.to_nat (k + 1)) with (Datatypes.S (Z.to_nat k)) by lia.
  replace (i + (k + 1)) with (i + 1 + k) by lia. cbn [read_bytes].
  unfold dumps in Hd. unfold mbind, M_bind, mret, M_ret. subst s'.
  replace (addr + (i + 1)) with (addr + i + 1) in Hd by lia.
  destruct (read_byte (addr + i) s) as [b s1]. cbn [fst snd] in *.
  rewrite prints_byte by (change (zlen (hex_text [b])) with 2; unfold out_of; rewrite Hr; fold (out_of s); lia).
  rewrite Hd. rewrite read_bytes_put. destruct (read_bytes (Z.to_nat k) _ s1) as [l s2].
  by rewrite out_put_app, <-hex_text_app.
Qed.

(** The byte count of an [m] packet, cut to what a reply can hold. *)
Definition read_len (len : Z) : Z := Z.min len (PACKET_SIZE / 2).

Lemma read_memory_run p addr len q q' s :
  parse_hex p = (addr, q) → parse_hex (skip_char (chr ",") q) = (len, q') → 0 <= len →
  zlen (out_of s) <= 2 →
  dumps (read_memory p) (Z.to_nat (read_len len)) addr tt s.
Proof.
  intros Hp Hq Hlen Ho. unfold read_memory. rewrite Hp, Hq. cbv zeta.
  replace (if (OUT_SIZE - 16) / 2 <? len then (OUT_SIZE - 16) / 2 else len) with (read_len len)
    by (unfold read_len; change ((OUT_SIZE - 16) / 2) with 4096; change (PACKET_SIZE / 2) with 4096;
        destruct (4096 <? len) eqn:E; lia).
  assert (0 <= read_len len <= 4096) as Hl
    by (unfold read_len, PACKET_SIZE; change (0x2000 / 2) with 4096; lia).
  set (n := read_len len) in *. clearbody n. unfold OUT_SIZE, PACKET_SIZE.
  destruct (dumps_align (Z.to_nat n) addr n 0 s) as (k & Hk & Ha);
    [lia|unfold OUT_SIZE, PACKET_SIZE; lia|].
  unfold dumps in *. unfold mbind, M_bind. rewrite Z.add_0_r, Z.add_0_l in Ha. rewrite Ha.
  pose proof (read_bytes_ok (Z.to_nat k) addr s) as [_ Hl1]. pose proof (read_bytes_rsp (Z.to_nat k) addr s) as Hr1.
  destruct (read_bytes (Z.to_nat k) addr s) as [l1 s1] eqn:E1. cbn [fst snd] in *.
  rewrite dumps_pairs by lia. rewrite read_bytes_put.
  set (j := 2 * ((n - k) / 2)).
  pose proof (read_bytes_ok (Z.to_nat j) (addr + k) s1) as [_ Hl2].
  pose proof (read_bytes_rsp (Z.to_nat j) (addr + k) s1) as Hr2.
  destruct (read_bytes (Z.to_nat j) (addr + k) s1) as [l2 s2] eqn:E2. cbn [fst snd] in *.
  rewrite out_put_app, <-hex_text_app.
  rewrite dumps_rest; [|unfold j; zlia|].
  2: { rewrite out_of_put, zlen_app, hex_text_len, zlen_app. unfold out_of. rewrite Hr2, Hr1.
       fold (out_of s). unfold zlen at 2 3. rewrite Hl1, Hl2. unfold OUT_SIZE, PACKET_SIZE, j. zlia. }
  rewrite read_bytes_put.
  replace (Z.to_nat n) with (Z.to_nat k + (Z.to_nat j + Z.to_nat (n - (k + j))))%nat by (unfold j; zlia).
  rewrite read_bytes_add, E1, read_bytes_add. rewrite Z2Nat.id, E2 by lia.
  rewrite (Z2Nat.id j) by (unfold j; zlia).
  replace (addr + k + j) with (addr + (k + j)) by lia.
  destruct (read_bytes _ (addr + (k + j)) s2) as [l3 s3].
  by rewrite out_put_app, <-hex_text_app, app_assoc.
Qed.
End read.

(** ** Writing memory *)

(** The decoding of the binary payload of an [X] packet. *)
Fixpoint unescape (p : list Z) : list Z :=
  match p with
  | [] => []
  | b :: p1 =>
      if b =? ESC then
        match p1 with e :: p2 => u8 (e .^ 0x20) :: unescape p2 | [] => [b] end
      else b :: unescape p1
  end.

(** The encoding that the debugger applies. *)
Definition needs_escape (b : Z) : bool :=
  (b =? chr "#") || (b =? chr "$") || (b =? ESC) || (b =? chr "*").
Definition escape (l : list Z) : list Z :=
  flat_map (λ b, if needs_escape b then [ESC; b .^ 0x20] else [b]) l.

Lemma unescape_escape l : Forall byte_ok l → unescape (escape l) = l.
Proof.
  intros Hl. induction Hl as [|b l Hb Hl IH]; [done|]. cbn [escape flat_map].
  destruct (needs_escape b) eqn:E; cbn [app unescape].
  - rewrite Z.eqb_refl. rewrite Z.lxor_assoc, Z.lxor_nilpotent, Z.lxor_0_r, u8_id by done.
    f_equal. exact IH.
  - assert (b =? ESC = false) as ->; [|f_equal; exact IH].
    unfold needs_escape in E. destruct (b =? ESC); [|done]. by rewrite !orb_true_r in E.
Qed.

Lemma unescape_plain p n :
  forallb (λ c, negb (c =? ESC)) (take n p) = true →
  unescape p = take n p ++ unescape (drop n p).
Proof.
  revert p. induction n as [|n IH]; intros [|b p] H; try done.
  cbn [take forallb] in H. apply andb_true_iff in H as [Hb H]. apply negb_true_iff in Hb.
  cbn [unescape take drop app]. rewrite Hb, IH by done. done.
Qed.

Lemma hex_bytes_fuel n m p :
  (length p <= n)%nat → (length p <= m)%nat → hex_bytes n p = hex_bytes m p.
Proof.
  revert m p. induction n as [|n IH]; intros [|m] [|c0 [|c1 p]] Hn Hm; cbn in *; try done; try lia.
  f_equal. apply IH; lia.
Qed.

Section write.
Context {D : Type} `{!Device D, !Transport D}.
Abbreviation St := (stub D).

(** Store a list of bytes. *)
Definition put_ram (a : Z) (l : list Z) (s : St) : St :=
  set_st_mach (Machine (mset_list (ram (st_mach s)) a l) (dev (st_mach s))) s.

Definition in_ddr_range (a n : Z) : Prop := DDR_BASE <= a ∧ a + n <= DDR_END.

Lemma put_ram_nil a s : put_ram a [] s = s.
Proof. unfold put_ram. cbn. by destruct s as [[? ?] ? ? ?]. Qed.
Lemma put_ram_app a l k s : put_ram (a + zlen l) k (put_ram a l s) = put_ram a (l ++ k) s.
Proof. unfold put_ram. cbn. by rewrite mset_list_app. Qed.
Lemma put_ram_out a l k s : put_ram a l (out_put k s) = out_put k (put_ram a l s).
Proof. done. Qed.

Lemma wr8_ddr a v s : in_ddr_range a 1 → wr8 (u32 a) v s = (tt, put_ram a [u8 v] s).
Proof.
  intros [H1 H2]. unfold DDR_BASE, DDR_END in *. rewrite u32_id by (unfold word_ok; lia).
  unfold wr, bus_write. by rewrite in_ddr_true by (unfold DDR_BASE, DDR_END; lia).
Qed.
Lemma wr32_ddr a v s : in_ddr_range a 4 → wr32 (u32 a) v s = (tt, put_ram a (le_split 4 v) s).
Proof.
  intros [H1 H2]. unfold DDR_BASE, DDR_END in *. rewrite u32_id by (unfold word_ok; lia).
  unfold wr, bus_write. by rewrite in_ddr_true by (unfold DDR_BASE, DDR_END; lia).
Qed.

(** [m] stores [l] at [a] and does nothing else. *)
Definition stores (m : M St unit) (a : Z) (l : list Z) (s : St) : Prop := m s = (tt, put_ram a l s).

Lemma stores_nil a s : stores skip a [] s.
Proof. unfold stores. by rewrite put_ram_nil. Qed.
Lemma stores_app m k a b l l' s :
  stores m a l s → b = a + zlen l → stores k b l' (put_ram a l s) → stores (m;; k) a (l ++ l') s.
Proof.
  intros Hm -> Hk. unfold stores, mbind, M_bind in *. rewrite Hm, Hk. by rewrite put_ram_app.
Qed.

Lemma stores_hex fuel addr len i p s :
  (length p <= fuel)%nat → in_ddr_range (addr + i) (len - i) →
  stores (write_hex_loop fuel addr len i p) (addr + i) (take (Z.to_nat (len - i)) (hex_bytes (length p) p)) s.
Proof.
  revert i p s. induction fuel as [|fuel IH]; intros i p s Hf Hd.
  { destruct p; [|cbn in Hf; lia]. cbn [length hex_bytes]; rewrite take_nil. apply stores_nil. }
  destruct p as [|c0 [|c1 p]]; cbn [write_hex_loop length];
    try (cbn [hex_bytes]; rewrite take_nil; apply stores_nil).
  change (hex_bytes (Datatypes.S ?n) (c0 :: c1 :: p)) with (u8 (hexpair c0 c1) :: hex_bytes n p).
  destruct (i <? len) eqn:E.
  - replace (Z.to_nat (len - i)) with (Datatypes.S (Z.to_nat (len - (i + 1)))) by lia.
    cbn [take]. apply (stores_app _ _ _ (addr + (i + 1)) [u8 (hexpair c0 c1)]).
    + unfold stores. rewrite wr8_ddr by (destruct Hd; split; lia). by rewrite u8_u8.
    + change (zlen [_]) with 1. lia.
    + rewrite (hex_bytes_fuel _ (length p)) by lia. apply IH; [cbn in Hf; lia|]. destruct Hd; split; lia.
  - replace (Z.to_nat (len - i)) with O by lia. apply stores_nil.
Qed.

Lemma word_of_bytes p :
  Forall byte_ok p → 4 <= zlen p →
  le_split 4 (znth p 0 .| u32 (znth p 1 .<< 8) .| u32 (znth p 2 .<< 16) .| u32 (znth p 3 .<< 24)) = take 4 p.
Proof.
  unfold zlen. intros Hp Hl. destruct p as [|b0 [|b1 [|b2 [|b3 p]]]]; cbn [length] in Hl; try lia.
  repeat match goal with H : Forall _ (_ :: _) |- _ => inversion H; clear H; subst end.
  change (znth _ 0) with b0. change (znth _ 1) with b1. change (znth _ 2) with b2. change (znth _ 3) with b3.
  rewrite lor_bytes_8 by done.
  apply (le_split_join [b0; b1; b2; b3]). repeat (apply List.Forall_cons; [assumption|]). constructor.
Qed.

Lemma stores_bin fuel addr len i p s :
  (length p <= fuel)%nat → Forall byte_ok p → 0 <= i → in_ddr_range (addr + i) (len - i) → in_ddr_range addr len →
  stores (write_bin_loop fuel addr len i p) (addr + i) (take (Z.to_nat (len - i)) (unescape p)) s.
Proof.
  revert i p s. induction fuel as [|fuel IH]; intros i p s Hf Hp Hi Hd Ha.
  { destruct p; [|cbn in Hf; lia]. cbn [unescape]; rewrite take_nil. apply stores_nil. }
  destruct p as [|b p1]; [cbn [unescape]; rewrite take_nil; apply stores_nil|].
  destruct Hd as [Hd1 Hd2]. destruct Ha as [Ha1 Ha2].
  cbn [write_bin_loop]. destruct (i <? len) eqn:E.
  2: { replace (Z.to_nat (len - i)) with O by lia. apply stores_nil. }
  destruct (_ && _ && _ && _) eqn:Efast.
  - apply andb_true_iff in Efast as [Efast Hesc]. apply andb_true_iff in Efast as [Efast H4].
    apply andb_true_iff in Efast as [_ Hlen].
    unfold DDR_BASE, DDR_END in *. rewrite u32_id in Hlen by (unfold word_ok; lia).
    rewrite (unescape_plain _ 4) by done.
    rewrite firstn_app, (take_ge (take 4 (b :: p1))) by (rewrite length_take; lia).
    apply (stores_app _ _ _ (addr + (i + 4))).
    + unfold stores. rewrite wr32_ddr by (split; unfold DDR_BASE, DDR_END; lia).
      rewrite word_of_bytes by (done || lia). done.
    + assert (zlen (take 4 (b :: p1)) = 4) as -> by (unfold zlen in *; rewrite length_take; lia). lia.
    + replace (Z.to_nat (len - i) - length (take 4 (b :: p1)))%nat with (Z.to_nat (len - (i + 4)))
        by (unfold zlen in H4; rewrite length_take; lia).
      apply IH; [rewrite length_drop; cbn in *; lia|by apply Forall_drop|lia| |];
        split; unfold DDR_BASE, DDR_END; lia.
  - inversion Hp as [|? ? Hb Hp1]; subst.
    replace (Z.to_nat (len - i)) with (Datatypes.S (Z.to_nat (len - (i + 1)))) by lia.
    assert (∀ v q, (length q <= fuel)%nat → Forall byte_ok q →
      stores (wr8 (u32 (addr + i)) v;; write_bin_loop fuel addr len (i + 1) q) (addr + i)
        ([u8 v] ++ take (Z.to_nat (len - (i + 1))) (unescape q)) s) as Hone.
    { intros v q Hq Hqb. apply (stores_app _ _ _ (addr + (i + 1))).
      - unfold stores. by rewrite wr8_ddr by (split; lia).
      - change (zlen [_]) with 1. lia.
      - apply IH; try done; try lia; split; lia. }
    cbn [length] in Hf. cbn [unescape]. destruct (b =? ESC) eqn:Eb.
    + destruct p1 as [|e p2]; cbn [take].
      * specialize (Hone b [] ltac:(cbn; lia) Hp1). rewrite u8_id in Hone by done. by rewrite take_nil in Hone |- *.
      * inversion Hp1; subst. apply (Hone (e .^ 0x20) p2); [cbn in Hf; lia|done].
    + cbn [take]. specialize (Hone b p1 ltac:(lia) Hp1). by rewrite u8_id in Hone.
Qed.

Lemma read_bytes_ddr n a s :
  in_ddr_range a (Z.of_nat n) → read_bytes n a s = (mget_list (ram (st_mach s)) a n, s).
Proof.
  revert a. induction n as [|n IH]; intros a [H1 H2]; [done|]. cbn [read_bytes mget_list].
  unfold mbind, M_bind, mret, M_ret.
  assert (read_byte a s = (mget (ram (st_mach s)) a, s)) as ->.
  { unfold read_byte, rd, bus_read. unfold DDR_BASE, DDR_END in *.
    rewrite u32_id by (unfold word_ok; lia). rewrite in_ddr_true by (unfold DDR_BASE, DDR_END; lia).
    cbn. f_equal; [lia|]. by destruct s as [[? ?] ? ? ?]. }
  rewrite IH by (split; lia). done.
Qed.
End write.


(** ** The memory commands as the debugger writes them *)

Lemma no_hex_comma l : no_hex (chr "," :: l).
Proof. done. Qed.
Lemma no_hex_colon l : no_hex (chr ":" :: l).
Proof. done. Qed.

(** Arguments of [m], [M] and [X]. *)
Definition m_args (addr len : Z) : list Z := hex_number addr ++ chr "," :: hex_number len.
Definition w_args (addr len : Z) (payload : list Z) : list Z :=
  hex_number addr ++ chr "," :: hex_number len ++ chr ":" :: payload.

Section commands.
Context {D : Type} `{!Device D, !Transport D}.
Abbreviation St := (stub D).

Lemma m_args_parse addr len :
  word_ok addr → word_ok len →
  parse_hex (m_args addr len) = (addr, chr "," :: hex_number len) ∧
  parse_hex (skip_char (chr ",") (chr "," :: hex_number len)) = (len, []).
Proof.
  intros Ha Hl. split; [by apply parse_hex_number|]. cbn [skip_char]. rewrite Z.eqb_refl.
  rewrite <-(app_nil_r (hex_number len)). by apply parse_hex_number.
Qed.
Lemma w_args_parse addr len p :
  word_ok addr → word_ok len →
  parse_hex (w_args addr len p) = (addr, chr "," :: hex_number len ++ chr ":" :: p) ∧
  parse_hex (skip_char (chr ",") (chr "," :: hex_number len ++ chr ":" :: p)) = (len, chr ":" :: p) ∧
  skip_char (chr ":") (chr ":" :: p) = p.
Proof.
  intros Ha Hl. split; [by apply parse_hex_number|]. cbn [skip_char]. rewrite !Z.eqb_refl.
  split; [by apply parse_hex_number|done].
Qed.

(** [m] reads memory one byte at a time in ascending order, whatever the
    device answers and however it reacts, and prints the bytes in
    hexadecimal.  The word stores into the reply buffer and the alignment
    preamble change nothing, and a request larger than a reply is cut. *)
Theorem read_memory_bytewise addr len (s : St) :
  word_ok addr → word_ok len → zlen (out_of s) <= 2 →
  read_memory (m_args addr len) s =
    let '(l, s1) := read_bytes (Z.to_nat (Z.min len (PACKET_SIZE / 2))) addr s in
    (tt, out_put (hex_text l) s1).
Proof.
  intros Ha Hl Ho. destruct (m_args_parse addr len Ha Hl) as [H1 H2].
  apply (read_memory_run _ _ _ _ _ s H1 H2); [apply Hl|done].
Qed.

Lemma ok_fits (s : St) : zlen (out_of s) <= 2 →
  out_str (bytes_of "OK") s = (tt, out_put (bytes_of "OK") s).
Proof.
  intros Ho. apply prints_str; [apply bytes_of_ok|].
  change (zlen (bytes_of "OK")) with 2. unfold OUT_SIZE, PACKET_SIZE. lia.
Qed.

Lemma write_hex_run addr l (s : St) :
  Forall byte_ok l → in_ddr_range addr (zlen l) → zlen (out_of s) <= 2 →
  write_memory_hex (w_args addr (zlen l) (hex_text l)) s =
  (tt, out_put (bytes_of "OK") (put_ram addr l s)).
Proof.
  intros Hl Hd Ho. pose proof Hd as [Hd1 Hd2]. pose proof (zlen_nonneg l).
  unfold DDR_BASE, DDR_END in *.
  destruct (w_args_parse addr (zlen l) (hex_text l)) as (H1 & H2 & H3); [unfold word_ok; lia..|].
  unfold write_memory_hex. rewrite H1, H2, H3. unfold mbind, M_bind.
  pose proof (stores_hex (length (hex_text l)) addr (zlen l) 0 (hex_text l) s) as Hs.
  rewrite Z.add_0_r, Z.sub_0_r in Hs. unfold stores in Hs. rewrite Hs by done.
  rewrite hex_bytes_text by done.
  pose proof (hex_text_len l) as Hlen. unfold zlen in *. rewrite !take_ge by (rewrite ?length_take; lia).
  by apply ok_fits.
Qed.

Lemma write_bin_run addr l (s : St) :
  Forall byte_ok l → in_ddr_range addr (zlen l) → zlen (out_of s) <= 2 →
  write_memory_bin (w_args addr (zlen l) (escape l)) s =
  (tt, out_put (bytes_of "OK") (put_ram addr l s)).
Proof.
  intros Hl Hd Ho. pose proof Hd as [Hd1 Hd2]. pose proof (zlen_nonneg l).
  unfold DDR_BASE, DDR_END in *.
  destruct (w_args_parse addr (zlen l) (escape l)) as (H1 & H2 & H3); [unfold word_ok; lia..|].
  unfold write_memory_bin. rewrite H1, H2, H3. unfold mbind, M_bind.
  assert (Forall byte_ok (escape l)) as He.
  { clear -Hl. induction Hl as [|b l Hb Hl IH]; [done|]. cbn [escape flat_map].
    apply Forall_app. split; [|exact IH]. destruct (needs_escape b); [|by apply Forall_singleton].
    constructor; [done|]. constructor; [|done].
    unfold byte_ok in *. split.
    - apply Z.lxor_nonneg. lia.
    - destruct (Z.eq_dec (b .^ 32) 0) as [->|Hz]; [done|].
      apply (Z.log2_lt_cancel _ (2 ^ 8)). change (Z.log2 (2 ^ 8)) with 8.
      assert (0 <= b .^ 32) by (apply Z.lxor_nonneg; lia).
      pose proof (Z.log2_lxor b 32 ltac:(lia) ltac:(lia)) as Hx. change (Z.log2 32) with 5 in Hx.
      assert (Z.log2 b <= 7) by (change 7 with (Z.log2 255); apply Z.log2_le_mono; lia). lia. }
  pose proof (stores_bin (length (escape l)) addr (zlen l) 0 (escape l) s) as Hs.
  rewrite Z.add_0_r, Z.sub_0_r in Hs. unfold stores in Hs. rewrite Hs by done.
  rewrite unescape_escape by done.
  unfold zlen. rewrite take_ge by lia. by apply ok_fits.
Qed.

(** What the debugger writes to DDR with [M] or [X] is what is stored: both
    encodings, including the escapes of [X] and its word stores, store exactly
    the given bytes at the given address and answer OK. *)
Theorem write_memory_stores addr l (s : St) :
  Forall byte_ok l → in_ddr_range addr (zlen l) → zlen (out_of s) <= 2 →
  write_memory_hex (w_args addr (zlen l) (hex_text l)) s =
    (tt, out_put (bytes_of "OK") (put_ram addr l s)) ∧
  write_memory_bin (w_args addr (zlen l) (escape l)) s =
    (tt, out_put (bytes_of "OK") (put_ram addr l s)).
Proof. intros. split; [by apply write_hex_run|by apply write_bin_run]. Qed.

(** Memory written with [X] reads back with [m]. *)
Theorem write_read_roundtrip addr l (s s1 : St) :
  Forall byte_ok l → in_ddr_range addr (zlen l) → zlen l <= PACKET_SIZE / 2 →
  zlen (out_of s) <= 2 → zlen (out_of s1) <= 2 →
  st_mach s1 = st_mach (snd (write_memory_bin (w_args addr (zlen l) (escape l)) s)) →
  read_memory (m_args addr (zlen l)) s1 = (tt, out_put (hex_text l) s1).
Proof.
  intros Hl Hd Hlen Ho Ho1 Hm. rewrite write_bin_run in Hm by done. cbn [snd] in Hm.
  pose proof Hd as [Hd1 Hd2]. pose proof (zlen_nonneg l). unfold DDR_BASE, DDR_END in *.
  destruct (m_args_parse addr (zlen l)) as [H1 H2]; [unfold word_ok; lia..|].
  rewrite (read_memory_run _ _ _ _ _ s1 H1 H2) by (done || lia).
  unfold read_len. rewrite Z.min_l by done.
  replace (Z.to_nat (zlen l)) with (length l) by (unfold zlen; lia).
  rewrite read_bytes_ddr by done. rewrite Hm. cbn. by rewrite mget_list_mset_list.
Qed.
End commands.


(** ** Registers *)

(** The register block of [g] and [G]. *)
Definition regs_text (g : arm_regs) : list Z := hex_text (flat_map (le_split 4) (regs_list g)).

Definition regs_ok (g : arm_regs) : Prop := length (r_low g) = 13%nat ∧ Forall word_ok (regs_list g).

Lemma parse_reg_word v p :
  word_ok v → parse_reg 4 0 0 (hex_text (le_split 4 v) ++ p) = (v, p).
Proof.
  intros Hv. pose proof (le_split_ok 4 v) as Hok.
  pose proof (le_join_split 4 v) as Hj. change (256 ^ Z.of_nat 4) with 4294967296 in Hj.
  rewrite Z.mod_small in Hj by exact Hv.
  destruct (le_split 4 v) as [|b0 [|b1 [|b2 [|b3 [|]]]]] eqn:E; try (by apply (f_equal length) in E; rewrite le_split_length in E).
  repeat match goal with H : Forall _ (_ :: _) |- _ => inversion H; clear H; subst end.
  cbn [hex_text flat_map app parse_reg]. rewrite !hexpair_byte by done. f_equal.
  rewrite Z.lor_0_l. change (0 + 1) with 1. change (1 + 1) with 2. change (2 + 1) with 3.
  by rewrite lor_bytes by done.
Qed.

Lemma parse_regs_text l p :
  Forall word_ok l → parse_regs (length l) (hex_text (flat_map (le_split 4) l) ++ p) = l.
Proof.
  induction 1 as [|v l Hv Hl IH]; [done|].
  change (flat_map (le_split 4) (v :: l)) with (le_split 4 v ++ flat_map (le_split 4) l).
  rewrite hex_text_app, <-app_assoc. cbn [length parse_regs]. by rewrite parse_reg_word, IH.
Qed.

Section regs.
Context {D : Type} `{!Device D, !Transport D}.
Abbreviation St := (stub D).

Lemma prints_word v (s : St) : word_ok v → prints (out_word v) (hex_text (le_split 4 v)) s.
Proof.
  intros Hv. unfold word_ok in Hv.
  assert (le_split 4 v = [u8 (v .>> (8 * 0)); u8 (v .>> (8 * 1)); u8 (v .>> (8 * 2)); u8 (v .>> (8 * 3))]) as ->.
  { rewrite !Z.shiftr_div_pow2 by lia. cbn [le_split].
    change (2 ^ (8 * 0)) with 1. change (2 ^ (8 * 1)) with 256. change (2 ^ (8 * 2)) with (256 * 256).
    change (2 ^ (8 * 3)) with (256 * (256 * 256)). rewrite Z.div_1_r, !Z.div_div by lia. done. }
  unfold out_word, for_to. change (Z.to_nat 4) with 4%nat. cbn [for_range].
  change (0 + 1) with 1. change (1 + 1) with 2. change (2 + 1) with 3.
  change (hex_text [?a; ?b; ?c; ?d]) with (hex_text [a] ++ hex_text [b] ++ hex_text [c] ++ hex_text [d] ++ []).
  do 4 (apply prints_bind; [apply prints_byte|]). apply prints_skip.
Qed.
Lemma prints_words l (s : St) :
  Forall word_ok l → prints (out_words l) (hex_text (flat_map (le_split 4) l)) s.
Proof.
  intros Hl. revert s. induction Hl as [|v l Hv Hl IH]; intros s; [apply prints_skip|].
  change (flat_map (le_split 4) (v :: l)) with (le_split 4 v ++ flat_map (le_split 4) l).
  rewrite hex_text_app. cbn [out_words]. apply prints_bind; [by apply prints_word|apply IH].
Qed.

(** [G] undoes [g].  The register block that [g] prints has 17 words; [G] of
    that block sets exactly these registers, whatever they were, and answers
    OK. *)
Theorem registers_roundtrip (s s1 : St) :
  regs_ok (g_regs (st_rsp s)) → zlen (out_of s) <= 2 → zlen (out_of s1) <= 2 →
  let text := regs_text (g_regs (st_rsp s)) in
  read_regs s = (tt, out_put text s) ∧ zlen text = 136 ∧
  write_regs text s1 =
    (tt, out_put (bytes_of "OK") (set_st_rsp (set_g_regs (g_regs (st_rsp s)) (st_rsp s1)) s1)).
Proof.
  intros [Hlow Hok] Ho Ho1. cbv zeta. set (g := g_regs (st_rsp s)) in *.
  assert (length (regs_list g) = 17%nat) as H17 by done.
  assert (zlen (regs_text g) = 136) as Hlen.
  { unfold regs_text. rewrite hex_text_len.
    assert (∀ l, length (flat_map (le_split 4) l) = (4 * length l)%nat) as Hf.
    { induction l as [|v l IH]; [done|].
      change (flat_map (le_split 4) (v :: l)) with (le_split 4 v ++ flat_map (le_split 4) l).
      rewrite length_app, le_split_length, IH. cbn [length]. lia. }
    unfold zlen. rewrite Hf, H17. done. }
  split_and!; [|done|].
  - apply (prints_words (regs_list g)); [done|]. fold (regs_text g). rewrite Hlen.
    unfold OUT_SIZE, PACKET_SIZE. lia.
  - assert (regs_of_list (parse_regs 17 (regs_text g)) = g) as Hg.
    { rewrite <-H17. unfold regs_text. rewrite <-(app_nil_r (hex_text _)), parse_regs_text by done.
      destruct g as [low sp lr pc cpsr]. cbn in Hlow.
      do 13 (destruct low as [|? low]; [done|]). by destruct low. }
    unfold write_regs, updR, modify, mbind, M_bind. rewrite Hg. by apply ok_fits.
Qed.
End regs.

(** ** Witnesses: the theorems at concrete states *)

#[local] Existing Instance null_device.
#[local] Existing Instance null_transport.

Definition example_mem : stub unit :=
  example_stub tt ∅ example_musb (example_rsp (example_regs 0x30000100 0x13) []).

Lemma read_memory_bytewise_witness :
  read_memory (m_args 0x30000001 7) example_mem =
    let '(l, s1) := read_bytes 7 0x30000001 example_mem in (tt, out_put (hex_text l) s1).
Proof. by apply (read_memory_bytewise 0x30000001 7 example_mem). Defined.

Definition example_bytes : list Z := [0x7D; 0x23; 0; 0xFF; 0x24; 0x2A].

Lemma example_range : in_ddr_range 0x30000102 (zlen example_bytes).
Proof. unfold in_ddr_range. change (zlen example_bytes) with 6. unfold DDR_BASE, DDR_END. lia. Qed.

Lemma write_memory_stores_witness :
  write_memory_hex (w_args 0x30000102 6 (hex_text example_bytes)) example_mem =
    (tt, out_put (bytes_of "OK") (put_ram 0x30000102 example_bytes example_mem)) ∧
  write_memory_bin (w_args 0x30000102 6 (escape example_bytes)) example_mem =
    (tt, out_put (bytes_of "OK") (put_ram 0x30000102 example_bytes example_mem)).
Proof.
  apply (write_memory_stores 0x30000102 example_bytes example_mem);
    [by apply bytes_okb_spec|apply example_range|done].
Defined.

Lemma write_read_roundtrip_witness :
  read_memory (m_args 0x30000102 6)
    (set_st_rsp (st_rsp example_mem)
       (snd (write_memory_bin (w_args 0x30000102 6 (escape example_bytes)) example_mem))) =
  (tt, out_put (hex_text example_bytes)
    (set_st_rsp (st_rsp example_mem)
       (snd (write_memory_bin (w_args 0x30000102 6 (escape example_bytes)) example_mem)))).
Proof.
  apply (write_read_roundtrip 0x30000102 example_bytes example_mem);
    [by apply bytes_okb_spec|apply example_range|done..].
Defined.

Lemma registers_roundtrip_witness :
  let text := regs_text (g_regs (st_rsp example_mem)) in
  read_regs example_mem = (tt, out_put text example_mem) ∧ zlen text = 136 ∧
  write_regs text example_mem =
    (tt, out_put (bytes_of "OK")
       (set_st_rsp (set_g_regs (g_regs (st_rsp example_mem)) (st_rsp example_mem)) example_mem)).
Proof.
  apply (registers_roundtrip example_mem example_mem); [|done|done].
  unfold regs_ok. by repeat constructor.
Defined.
