(* ===== verification/Breakpoint.v ===== *)
(** * Breakpoint: breakpoints, stepping, resuming and stop replies

    The breakpoint table [g_bp], the single-step breakpoint, [do_step],
    [resume] and the stop reply of [rsp_trapped] of
    [src/baremetal/gdbstub/rsp.c].  [rsp_resume], which restores the registers
    and branches to the target, ends the call: its result is [Resumed]. *)
From S2P Require Import Prelude Machine GdbState Trace Step Packet.

Definition BP_INSN : Z := 0xE7FFDEFE.
Definition BP_MAX : Z := 16.
Definition SIG_ILL : Z := 4.
Definition SIG_TRAP : Z := 5.
Definition SIG_BUS : Z := 10.
Definition SIG_SEGV : Z := 11.

Definition bp_empty : bp_slot := BpSlot 0 0 false.

(** The initial values of the static variables. *)
Definition rsp_st0 (g : arm_regs) : rsp_st :=
  RspSt g [] [] 0 ST_IDLE 0 0 0 SIG_TRAP (replicate 16 bp_empty) 0 0 false.

(** The active slot of an address: its index and saved word. *)
Fixpoint bp_find (addr : Z) (l : list bp_slot) (i : nat) : option (nat * Z) :=
  match l with
  | [] => None
  | b :: l' => if bp_active b && (bp_addr b =? addr) then Some (i, bp_saved b) else bp_find addr l' (Datatypes.S i)
  end.

Fixpoint bp_free (l : list bp_slot) (i : nat) : option nat :=
  match l with
  | [] => None
  | b :: l' => if bp_active b then bp_free l' (Datatypes.S i) else Some i
  end.

Section Breakpoint.
Context {D : Type} `{!Device D, !Transport D}.
Abbreviation St := (stub D).

Definition VEC_UNDEF : Z := 0x30000004.
Definition VEC_PABORT : Z := 0x3000000C.
Definition VEC_DABORT : Z := 0x30000010.
Definition VEC_LITERAL : Z := 0x30000800.

(** [bp_undef], [bp_pabort], [bp_dabort] are the addresses of the handlers of bp.S. *)
Definition bp_install (bp_undef bp_pabort bp_dabort : Z) : M St unit :=
  wr32 VEC_LITERAL bp_undef;;
  wr32 (VEC_LITERAL + 4) bp_pabort;;
  wr32 (VEC_LITERAL + 8) bp_dabort;;
  wr32 VEC_UNDEF 0xE59FF7F4;;
  wr32 VEC_PABORT 0xE59FF7F0;;
  wr32 VEC_DABORT 0xE59FF7F0.

Definition bp_lookup (addr : Z) : M St bool :=
  l ← getR g_bp;
  mret (match bp_find addr l 0 with Some _ => true | None => false end).

Definition bp_set (addr : Z) : M St bool :=
  found ← bp_lookup addr;
  if (found : bool) then mret true
  else
    l ← getR g_bp;
    match bp_free l 0 with
    | Some i =>
        saved ← rd32 addr;
        updR (λ r, set_g_bp (<[i := BpSlot addr saved true]> (g_bp r)) r);;
        wr32 addr BP_INSN;;
        mret true
    | None => mret false
    end.

Definition bp_clear (addr : Z) : M St bool :=
  l ← getR g_bp;
  match bp_find addr l 0 with
  | Some (i, saved) =>
      wr32 addr saved;;
      updR (λ r, set_g_bp (<[i := BpSlot addr saved false]> (g_bp r)) r);;
      mret true
  | None => mret true
  end.

(** [p] starts with the command letter. *)
Definition handle_breakpoint (p : list Z) : M St unit :=
  let set := znth p 0 =? chr "Z" in
  match drop 1 p with
  | t :: p' =>
      if t =? chr "0" then
        let '(addr, _) := parse_hex (skip_char (chr ",") p') in
        ok ← (if set then bp_set addr else bp_clear addr);
        out_str (if (ok : bool) then bytes_of "OK" else bytes_of "E01")
      else skip
  | [] => skip
  end.

(** The acknowledgement that precedes a resumption. *)
Definition send_ack : M St unit :=
  updR (set_g_out []);;
  out_ch (chr "+");;
  send_out.

Definition rsp_resume_here : M St ctl :=
  send_ack;;
  mret Resumed.

Definition resume (p : list Z) : M St ctl :=
  when (nonzero (zlen p)) (updR (λ r, set_g_regs (set_r_pc (fst (parse_hex p)) (g_regs r)) r));;
  send_ack;;
  trace_puts (bytes_of "resume pc=0x");;
  g ← getR g_regs;
  trace_hex (r_pc g) 8;;
  trace_puts [10];;
  mret Resumed.

Definition do_step : M St ctl :=
  r ← arm_next_pc;
  match r with
  | None =>
      out_begin;;
      out_str (bytes_of "E01");;
      out_finish;;
      mret Returned
  | Some next =>
      g ← getR g_regs;
      if next =? r_pc g then
        out_begin;;
        out_ch (chr "S");;
        out_byte (u8 SIG_TRAP);;
        out_finish;;
        mret Returned
      else
        found ← bp_lookup next;
        when (negb found) (
          updR (set_g_step_addr next);;
          saved ← rd32 next;
          updR (set_g_step_saved saved);;
          wr32 next BP_INSN;;
          updR (set_g_step_active true));;
        trace_puts (bytes_of "step to 0x");;
        trace_hex next 8;;
        trace_puts [10];;
        rsp_resume_here
  end.

(** [rsp_trapped] up to its polling loop. *)
Definition rsp_trapped_stop (sig : Z) : M St unit :=
  r ← gets st_rsp;
  let pc := r_pc (g_regs r) in
  let sig := if g_step_active r && (pc =? g_step_addr r) then SIG_TRAP else sig in
  when (g_step_active r) (
    wr32 (g_step_addr r) (g_step_saved r);;
    updR (set_g_step_active false));;
  found ← bp_lookup pc;
  let sig := if (found : bool) then SIG_TRAP else sig in
  updR (set_g_last_sig sig);;
  trace_puts (bytes_of "trap sig=");;
  trace_dec sig;;
  trace_puts (bytes_of " pc=0x");;
  trace_hex pc 8;;
  trace_puts (bytes_of " cpsr=0x");;
  trace_hex (r_cpsr (g_regs r)) 8;;
  trace_puts [10];;
  out_begin_ack false;;
  out_ch (chr "S");;
  out_byte (u8 sig);;
  out_finish.

End Breakpoint.

(** ** The breakpoint table *)

(** The planted words of a table: address and original content. *)
Definition actives (l : list bp_slot) : list (Z * Z) :=
  omap (λ b, if bp_active b then Some (bp_addr b, bp_saved b) else None) l.

Lemma bp_find_some addr l i j v :
  bp_find addr l i = Some (j, v) → ∃ k, j = (i + k)%nat ∧ l !! k = Some (BpSlot addr v true).
Proof.
  revert i. induction l as [|b l IH]; intros i H; [done|]. cbn [bp_find] in H.
  destruct (bp_active b && (bp_addr b =? addr)) eqn:E.
  - injection H as <- <-. exists 0%nat. apply andb_true_iff in E as [Ea Eb%Z.eqb_eq].
    split; [lia|]. cbn. destruct b. cbn in *. by subst.
  - destruct (IH _ H) as (k & -> & Hk). exists (Datatypes.S k). split; [lia|done].
Qed.

Lemma bp_find_none addr l i : bp_find addr l i = None → ∀ v, (addr, v) ∉ actives l.
Proof.
  revert i. induction l as [|b l IH]; intros i H v Hin; [by apply elem_of_nil in Hin|].
  cbn [bp_find] in H. destruct (bp_active b && (bp_addr b =? addr)) eqn:E; [done|].
  unfold actives in Hin. cbn [omap list_omap] in Hin. destruct (bp_active b) eqn:Ea; [|by eapply IH].
  apply elem_of_cons in Hin as [Heq|Hin]; [|by eapply IH].
  injection Heq as -> _. cbn in E. by rewrite Z.eqb_refl in E.
Qed.

Lemma bp_find_is_some addr l i v : (addr, v) ∈ actives l → bp_find addr l i ≠ None.
Proof. intros Hin H. by eapply bp_find_none in H. Qed.

Lemma bp_free_some l i j : bp_free l i = Some j → ∃ k b, j = (i + k)%nat ∧ l !! k = Some b ∧ bp_active b = false.
Proof.
  revert i. induction l as [|b l IH]; intros i H; [done|]. cbn [bp_free] in H. destruct (bp_active b) eqn:E.
  - destruct (IH _ H) as (k & b' & -> & Hk & Hb). exists (Datatypes.S k), b'. split; [lia|done].
  - injection H as <-. exists 0%nat, b. split; [lia|done].
Qed.

Lemma bp_free_none l i : bp_free l i = None → length (actives l) = length l.
Proof.
  revert i. induction l as [|b l IH]; intros i H; [done|]. cbn [bp_free] in H.
  unfold actives. cbn [omap list_omap]. destruct (bp_active b); [|done]. cbn [length]. f_equal. by eapply IH.
Qed.

Lemma actives_insert l k b a v :
  l !! k = Some b → bp_active b = false →
  actives (<[k := BpSlot a v true]> l) ≡ₚ (a, v) :: actives l.
Proof.
  revert k. induction l as [|b' l IH]; intros [|k] Hk Hb; try done.
  - injection Hk as ->. unfold actives. cbn. by rewrite Hb.
  - unfold actives in *. cbn in *. destruct (bp_active b'); [|by apply IH].
    etransitivity; [apply perm_skip; by apply IH|apply perm_swap].
Qed.

Lemma actives_delete l k a v :
  l !! k = Some (BpSlot a v true) → actives l ≡ₚ (a, v) :: actives (<[k := BpSlot a v false]> l).
Proof.
  revert k. induction l as [|b' l IH]; intros [|k] Hk; try done.
  - injection Hk as ->. done.
  - unfold actives in *. cbn in *. destruct (bp_active b'); [|by apply IH].
    etransitivity; [apply perm_skip; by apply IH|apply perm_swap].
Qed.

(** ** Memory without breakpoints *)

(** A word that can be planted: aligned, in DDR, outside of the log. *)
Definition plantable (a : Z) : Prop :=
  a mod 4 = 0 ∧ DDR_BASE <= a ∧ a + 4 <= DDR_END ∧ (a + 4 <= TRACE_BASE ∨ TRACE_BASE + TRACE_SIZE <= a).

(** The content of memory if every planted word were restored. *)
Definition restore (pl : list (Z * Z)) (m : mem) : mem :=
  foldr (λ p m, mset_list m (p.1) (le_split 4 (p.2))) m pl.

Definition planted_ok (pl : list (Z * Z)) : Prop :=
  NoDup (pl.*1) ∧ ∀ p, p ∈ pl → plantable (p.1) ∧ word_ok (p.2).

Definition covers (x : Z) (p : Z * Z) : Prop := p.1 <= x < p.1 + 4.

Lemma restore_out pl m x : (∀ p, p ∈ pl → ¬ covers x p) → mget (restore pl m) x = mget m x.
Proof.
  induction pl as [|p pl IH]; intros H; [done|]. cbn [restore foldr]. fold (restore pl m).
  rewrite mget_mset_list_out, IH; [done| |].
  - intros q Hq. apply H. by apply elem_of_cons; right.
  - unfold zlen. rewrite le_split_length. specialize (H p ltac:(apply elem_of_cons; by left)).
    unfold covers in H. lia.
Qed.

Lemma planted_disjoint pl p q x :
  planted_ok pl → p ∈ pl → q ∈ pl → covers x p → covers x q → p.1 = q.1.
Proof.
  intros [_ Hok] Hp Hq Hxp Hxq. destruct (Hok p Hp) as [(Hp4 & _) _]. destruct (Hok q Hq) as [(Hq4 & _) _].
  unfold covers in *. zlia.
Qed.

Lemma planted_cons p pl : planted_ok (p :: pl) → planted_ok pl ∧ p.1 ∉ pl.*1.
Proof.
  intros [Hnd Hok]. cbn in Hnd. apply list.NoDup_cons in Hnd as [Hn Hnd]. split; [|done].
  split; [done|]. intros q Hq. apply Hok. by apply elem_of_cons; right.
Qed.

Lemma restore_in pl m p x :
  planted_ok pl → p ∈ pl → covers x p →
  mget (restore pl m) x = u8 (nth (Z.to_nat (x - p.1)) (le_split 4 (p.2)) 0).
Proof.
  induction pl as [|q pl IH]; intros Hok Hp Hx; [by apply elem_of_nil in Hp|].
  cbn [restore foldr]. fold (restore pl m).
  destruct (planted_cons q pl Hok) as [Hok' Hn].
  rewrite mget_mset_list. unfold zlen. rewrite le_split_length. change (Z.of_nat 4) with 4.
  apply elem_of_cons in Hp as [->|Hp].
  - unfold covers in Hx. replace ((q.1 <=? x) && (x <? q.1 + 4)) with true by lia. done.
  - destruct ((q.1 <=? x) && (x <? q.1 + 4)) eqn:E; [|by apply IH].
    exfalso. apply Hn. apply list_elem_of_fmap. exists p. split; [|done].
    apply (planted_disjoint (q :: pl) q p x Hok); [by apply elem_of_cons; left|by apply elem_of_cons; right| |done].
    unfold covers. lia.
Qed.

Lemma covers_dec x (pl : list (Z * Z)) : {p | p ∈ pl ∧ covers x p} + {∀ p, p ∈ pl → ¬ covers x p}.
Proof.
  induction pl as [|q pl [(p & Hp & Hx)|Hn]].
  - right. intros p Hp. by apply elem_of_nil in Hp.
  - left. exists p. split; [by apply elem_of_cons; right|done].
  - destruct (decide (q.1 <= x ∧ x < q.1 + 4)) as [Hx|Hx].
    + left. exists q. split; [by apply elem_of_cons; left|done].
    + right. intros p [->|Hp]%elem_of_cons; [done|by apply Hn].
Qed.

(** Planting a word, or removing it, does not change the original memory. *)
Lemma restore_plant pl pl' m m' a :
  pl' ≡ₚ (a, le_join (mget_list m a 4)) :: pl → planted_ok pl' →
  (∀ x, x < a ∨ a + 4 <= x → mget m' x = mget m x) →
  ∀ x, mget (restore pl' m') x = mget (restore pl m) x.
Proof.
  intros Hperm Hok Hm x.
  assert (planted_ok ((a, le_join (mget_list m a 4)) :: pl)) as Hok2.
  { destruct Hok as [Hnd Hok]. split; [by rewrite <-Hperm|]. intros p Hp. apply Hok. by rewrite Hperm. }
  destruct (planted_cons _ _ Hok2) as [Hokpl Hn].
  destruct (covers_dec x pl') as [(p & Hp & Hx)|Hno].
  - rewrite (restore_in pl' m' p x) by done.
    rewrite Hperm in Hp. apply elem_of_cons in Hp as [->|Hp]; [|by rewrite (restore_in pl m p x)].
    cbn [fst snd]. unfold covers in Hx. cbn in Hx.
    rewrite (le_split_join _ (mget_list_ok m a 4) : le_split 4 _ = _), mget_list_nth by lia.
    rewrite u8_id by apply mget_ok. replace (a + Z.of_nat (Z.to_nat (x - a))) with x by lia.
    symmetry. apply restore_out. intros q Hq Hxq. apply Hn. apply list_elem_of_fmap. exists q. split; [|done].
    apply (planted_disjoint _ (a, le_join (mget_list m a 4)) q x Hok2); [by apply elem_of_cons; left|by apply elem_of_cons; right| |done].
    unfold covers. cbn. lia.
  - rewrite !restore_out.
    + apply Hm. specialize (Hno (a, le_join (mget_list m a 4))).
      destruct (decide (a <= x ∧ x < a + 4)); [|lia]. exfalso. apply Hno; [|done].
      rewrite Hperm. by apply elem_of_cons; left.
    + intros q Hq. apply Hno. rewrite Hperm. by apply elem_of_cons; right.
    + done.
Qed.

Section table.
Context {D : Type} `{!Device D, !Transport D}.
Abbreviation St := (stub D).

(** Everything planted: the table and the single-step breakpoint. *)
Definition planted_in (r : rsp_st) : list (Z * Z) :=
  actives (g_bp r) ++ (if g_step_active r then [(g_step_addr r, g_step_saved r)] else []).
Definition planted (s : St) : list (Z * Z) := planted_in (st_rsp s).

(** The memory of the program being debugged. *)
Definition original (s : St) : mem := restore (planted s) (ram (st_mach s)).

Definition bp_ok (s : St) : Prop :=
  length (g_bp (st_rsp s)) = 16%nat ∧ planted_ok (planted s) ∧
  ∀ p, p ∈ planted s → mem_word s (p.1) = BP_INSN.

Lemma plantable_ddr a : plantable a → in_ddr a = true.
Proof. intros (_ & H1 & H2 & _). apply in_ddr_true. unfold DDR_BASE, DDR_END in *. lia. Qed.

Lemma plantable_wr a v (s : St) :
  plantable a →
  wr32 a v s = (tt, set_st_mach (Machine (mset_list (ram (st_mach s)) a (le_split 4 v)) (dev (st_mach s))) s).
Proof. intros Ha. unfold wr, bus_write. by rewrite plantable_ddr. Qed.

Lemma word_outside m a v x : x < a ∨ a + 4 <= x → mget (mset_list m a (le_split 4 v)) x = mget m x.
Proof. intros Hx. apply mget_mset_list_out. unfold zlen. rewrite le_split_length. lia. Qed.

Lemma word_at m a v : word_ok v → le_join (mget_list (mset_list m a (le_split 4 v)) a 4) = v.
Proof.
  intros Hv. rewrite <-(le_split_length 4 v) at 2. rewrite mget_list_mset_list by apply le_split_ok.
  rewrite le_join_split. change (256 ^ Z.of_nat 4) with 4294967296. by apply Z.mod_small.
Qed.
Lemma word_other m a b v :
  b mod 4 = 0 → a mod 4 = 0 → a ≠ b →
  mget_list (mset_list m a (le_split 4 v)) b 4 = mget_list m b 4.
Proof. intros. apply mget_list_ext. intros x Hx. apply word_outside. zlia. Qed.

(** One word more is planted in [s'] than in [s]: the common part of setting a
    breakpoint, of stepping, and, read backwards, of removing either. *)
Lemma plant_original (s s' : St) a :
  planted s' ≡ₚ (a, mem_word s a) :: planted s → planted_ok (planted s') →
  (∀ x, x < a ∨ a + 4 <= x → mget (ram (st_mach s')) x = mget (ram (st_mach s)) x) →
  ∀ x, mget (original s') x = mget (original s) x.
Proof. intros. by eapply restore_plant. Qed.

Lemma plant_ok (s s' : St) a :
  bp_ok s → plantable a → a ∉ (planted s).*1 → length (g_bp (st_rsp s')) = 16%nat →
  planted s' ≡ₚ (a, mem_word s a) :: planted s →
  ram (st_mach s') = mset_list (ram (st_mach s)) a (le_split 4 BP_INSN) →
  bp_ok s' ∧ (∀ x, mget (original s') x = mget (original s) x) ∧
  (∀ b, b ∈ (planted s').*1 ↔ b = a ∨ b ∈ (planted s).*1).
Proof.
  intros (Hlen & [Hnd Hok] & Hbp) Ha Hn Hlen' Hp Hm.
  assert (planted_ok (planted s')) as Hok'.
  { split.
    - rewrite Hp. cbn. by apply list.NoDup_cons.
    - intros p. rewrite Hp. intros [->|Hin]%elem_of_cons; [|by apply Hok].
      split; [done|apply mem_word_ok]. }
  split_and!.
  - split; [done|]. split; [done|]. intros p. rewrite Hp. unfold mem_word. rewrite Hm.
    intros [->|Hin]%elem_of_cons; cbn [fst]; [by apply word_at|].
    rewrite word_other; [by apply Hbp|apply Hok, Hin|apply Ha|].
    intros ->. apply Hn. apply list_elem_of_fmap. by exists p.
  - apply (plant_original s s' a); [done..|]. intros x Hx. rewrite Hm. by apply word_outside.
  - intros b. rewrite Hp. cbn. by rewrite elem_of_cons.
Qed.

(** Reading it backwards: [s] has the word [v] at [a] planted, [s'] does not. *)
Lemma unplant_ok (s s' : St) a v :
  bp_ok s → length (g_bp (st_rsp s')) = 16%nat →
  planted s ≡ₚ (a, v) :: planted s' →
  ram (st_mach s') = mset_list (ram (st_mach s)) a (le_split 4 v) →
  bp_ok s' ∧ (∀ x, mget (original s') x = mget (original s) x) ∧
  (∀ b, b ∈ (planted s').*1 ↔ b ≠ a ∧ b ∈ (planted s).*1).
Proof.
  intros (Hlen & Hpok & Hbp) Hlen' Hp Hm.
  assert (planted_ok ((a, v) :: planted s')) as Hpok2.
  { destruct Hpok as [Hnd Hok]. split; [by rewrite <-Hp|]. intros p Hin. apply Hok. by rewrite Hp. }
  destruct (planted_cons _ _ Hpok2) as [Hpok' Hn]. cbn in Hn.
  destruct Hpok2 as [_ Hok2]. destruct (Hok2 (a, v) ltac:(apply elem_of_cons; by left)) as [Ha Hv]. cbn in Ha, Hv.
  split_and!.
  - split; [done|]. split; [done|]. intros p Hin. unfold mem_word. rewrite Hm, word_other.
    + apply Hbp. rewrite Hp. apply elem_of_cons. by right.
    + apply Hpok', Hin.
    + apply Ha.
    + intros ->. apply Hn. apply list_elem_of_fmap. by exists p.
  - intros x. symmetry. revert x. apply (plant_original s' s a).
    + unfold mem_word. rewrite Hm, word_at by done. done.
    + done.
    + intros x Hx. rewrite Hm. symmetry. by apply word_outside.
  - intros b. rewrite Hp. cbn. rewrite elem_of_cons. split; [|by intros [? [|]]].
    intros Hb. split; [|by right]. intros ->. by apply Hn.
Qed.

Lemma lookup_false (s : St) a v : fst (bp_lookup a s) = false → (a, v) ∉ actives (g_bp (st_rsp s)).
Proof.
  unfold bp_lookup, getR, gets, mbind, M_bind. cbn.
  destruct (bp_find a _ 0) as [|] eqn:E; [done|]. intros _. by eapply bp_find_none.
Qed.

Lemma not_planted (s : St) a :
  g_step_active (st_rsp s) = false → fst (bp_lookup a s) = false → a ∉ (planted s).*1.
Proof.
  intros Hst Hl [p [-> Hin]]%list_elem_of_fmap. unfold planted, planted_in in Hin.
  rewrite Hst, app_nil_r in Hin. destruct p as [a v]. by apply (lookup_false s a v) in Hl.
Qed.

(** Setting a breakpoint.  [bp_set] plants the word unless the table of 16 is
    full, adds exactly that address to the planted ones, and leaves the memory
    of the program, as it would be with every breakpoint removed, as it was;
    a second request for the same address changes nothing. *)
Theorem bp_set_ok (s : St) a :
  bp_ok s → g_step_active (st_rsp s) = false → plantable a →
  let '(r, s') := bp_set a s in
  bp_ok s' ∧ (∀ x, mget (original s') x = mget (original s) x) ∧
  dev (st_mach s') = dev (st_mach s) ∧
  if r then ∀ b, b ∈ (planted s').*1 ↔ b = a ∨ b ∈ (planted s).*1
  else s' = s ∧ length (planted s) = 16%nat.
Proof.
  intros Hok Hst Ha. pose proof (not_planted s a Hst) as Hnp.
  unfold bp_set, mbind at 1, M_bind at 1.
  assert (∀ b, snd (bp_lookup b s) = s) as Hs by done. specialize (Hs a).
  destruct (bp_lookup a s) as [found s0] eqn:El. cbn [fst snd] in *. subst s0. destruct found.
  { cbn. split_and!; try done. intros b. split; [by right|]. intros [->|]; [|done].
    unfold bp_lookup, getR, gets, mbind, M_bind in El. cbn in El.
    destruct (bp_find a (g_bp (st_rsp s)) 0) as [[j v]|] eqn:Ef; [|done].
    apply bp_find_some in Ef as (k & _ & Hk).
    apply list_elem_of_fmap. exists (a, v). split; [done|]. apply elem_of_app. left.
    apply actives_delete in Hk. rewrite Hk. apply elem_of_cons. by left. }
  specialize (Hnp eq_refl). unfold getR, gets, mbind at 1, M_bind at 1.
  destruct (bp_free (g_bp (st_rsp s)) 0) as [i|] eqn:Ef.
  - apply bp_free_some in Ef as (k & b & -> & Hk & Hb). cbn [Nat.add].
    unfold mbind, M_bind. rewrite rd32_ddr by by apply plantable_ddr.
    unfold updR, modify. rewrite plantable_wr by done. unfold mret, M_ret.
    set (s' := set_st_mach _ _).
    destruct (plant_ok s s' a) as (H1 & H2 & H3); try done.
    + cbn. rewrite length_insert. apply Hok.
    + unfold planted, planted_in. cbn. rewrite Hst, !app_nil_r. by eapply actives_insert.
  - cbn. split_and!; try done. unfold planted, planted_in. rewrite Hst, app_nil_r.
    rewrite (bp_free_none _ _ Ef). apply Hok.
Qed.

(** Removing a breakpoint.  [bp_clear] always answers success, removes
    exactly that address from the planted ones and leaves the memory of the
    program as it was; for a planted address the original word is back. *)
Theorem bp_clear_ok (s : St) a :
  bp_ok s → g_step_active (st_rsp s) = false →
  let '(r, s') := bp_clear a s in
  r = true ∧ bp_ok s' ∧ (∀ x, mget (original s') x = mget (original s) x) ∧
  dev (st_mach s') = dev (st_mach s) ∧
  (∀ b, b ∈ (planted s').*1 ↔ b ≠ a ∧ b ∈ (planted s).*1) ∧
  (∀ v, (a, v) ∈ planted s → mem_word s' a = v).
Proof.
  intros Hok Hst. unfold bp_clear, getR, gets, mbind at 1, M_bind at 1.
  destruct (bp_find a (g_bp (st_rsp s)) 0) as [[j v]|] eqn:Ef.
  - apply bp_find_some in Ef as (k & -> & Hk). cbn [Nat.add].
    pose proof (actives_delete _ _ _ _ Hk) as Hperm.
    assert (plantable a ∧ word_ok v) as [Ha Hv].
    { destruct Hok as (_ & [_ Hok] & _). apply (Hok (a, v)). unfold planted, planted_in.
      rewrite Hst, app_nil_r, Hperm. apply elem_of_cons. by left. }
    unfold mbind, M_bind. rewrite plantable_wr by done. unfold updR, modify, mret, M_ret.
    set (s' := set_st_rsp _ _).
    destruct (unplant_ok s s' a v) as (H1 & H2 & H3); try done.
    + cbn. rewrite length_insert. apply Hok.
    + unfold planted, planted_in. cbn. by rewrite Hst, !app_nil_r.
    + split_and!; try done. intros v' Hin. change (le_join (mget_list (mset_list (ram (st_mach s)) a (le_split 4 v)) a 4) = v'). rewrite word_at by done.
      destruct Hok as (_ & [Hnd _] & _). unfold planted, planted_in in Hnd, Hin.
      rewrite Hst, app_nil_r, Hperm in Hnd, Hin. cbn in Hnd. apply list.NoDup_cons in Hnd as [Hn _].
      apply elem_of_cons in Hin as [Heq|Hin]; [by injection Heq|].
      exfalso. apply Hn. apply list_elem_of_fmap. by exists (a, v').
  - cbn. assert (∀ v, (a, v) ∉ planted s) as Hn.
    { intros v Hin. unfold planted, planted_in in Hin. rewrite Hst, app_nil_r in Hin.
      by eapply bp_find_none. }
    split_and!; try done.
    + intros b. split; [|by intros [_ ?]]. intros Hb. split; [|done]. intros ->.
      apply list_elem_of_fmap in Hb as ([b' v] & -> & Hin). by eapply Hn.
    + intros v Hin. by apply Hn in Hin.
Qed.
End table.

(** ** Stepping and trapping *)

Section step.
Context {D : Type} `{!Device D, !Transport D}.
Abbreviation St := (stub D).

Definition in_log (x : Z) : Prop := TRACE_BASE <= x < TRACE_BASE + TRACE_SIZE.

(** The variables of this part. *)
Definition stop_vars (r : rsp_st) :=
  (g_regs r, g_bp r, g_step_addr r, g_step_saved r, g_step_active r, g_last_sig r).

(** Output, logging and transport: no breakpoint and no memory but the log. *)
Definition talks (s s' : St) : Prop := trace_ok s →
  trace_ok s' ∧ stop_vars (st_rsp s') = stop_vars (st_rsp s) ∧
  ∀ x, ¬ in_log x → mget (ram (st_mach s')) x = mget (ram (st_mach s)) x.

#[export] Instance talks_preorder : PreOrder talks.
Proof.
  split; [by intros s Hs|]. intros s1 s2 s3 H12 H23 H1.
  destruct (H12 H1) as (H2 & Hp & Hm). destruct (H23 H2) as (H3 & Hp' & Hm').
  split_and!; try congruence; try done. intros x Hx. by rewrite Hm', Hm.
Qed.

Lemma talks_logs {A} (m : M St A) : steps logs m → steps talks m.
Proof.
  intros Hm s Hs. destruct (Hm s Hs) as (H1 & _ & _ & Hr & Hmem). rewrite Hr.
  split_and!; try done. intros x Hx. apply Hmem. unfold in_log in Hx. lia.
Qed.
Lemma talks_send al l : steps talks (bulk_send al l).
Proof.
  intros s Hs. destruct (bulk_send_frame al l s) as (Hr & Ht & Hm). unfold trace_ok.
  by rewrite Hr, Ht, Hm.
Qed.
Lemma talks_out l : steps talks (updR (D := D) (set_g_out l)).
Proof. by intros s Hs. Qed.
Lemma talks_outf (f : rsp_st → list Z) : steps talks (updR (D := D) (λ r, set_g_out (f r) r)).
Proof. by intros s Hs. Qed.
Lemma talks_start (f : rsp_st → Z) : steps talks (updR (D := D) (λ r, set_g_body_start (f r) r)).
Proof. by intros s Hs. Qed.
Lemma talks_ch c : steps talks (out_ch c).
Proof.
  unfold out_ch, getR. apply steps_bind; [apply _|apply steps_gets; apply _|intros l].
  apply steps_when; [apply _|apply talks_out].
Qed.
Ltac talks_leaf :=
  lazymatch goal with
  | |- steps _ (out_ch _) => apply talks_ch
  | |- steps _ (updR (set_g_out _)) => apply talks_out
  | |- steps _ (updR _) => first [apply talks_start|apply talks_outf]
  | |- steps _ (bulk_send _ _) => apply talks_send
  | |- steps _ (trace_puts _) => apply talks_logs, steps_logs_puts
  | |- steps _ (trace_hex _ _) => apply talks_logs, steps_logs_hex
  | |- steps _ (trace_dec _) => apply talks_logs, steps_logs_dec
  | |- steps _ (gets _) => apply steps_gets; apply _
  | |- steps _ (mret _) => apply steps_ret; apply _
  | |- steps _ skip => apply steps_skip; apply _
  end.
Ltac talks := unfold getR; steps_walk ltac:(idtac; talks_leaf).
Lemma talks_byte b : steps talks (out_byte b).
Proof. unfold out_byte. talks. Qed.
Lemma talks_str l : steps talks (out_str l).
Proof. induction l; cbn [out_str]; [talks|]. apply steps_bind; [apply _|apply talks_ch|by intros _]. Qed.
Lemma talks_begin ack : steps talks (out_begin_ack ack).
Proof. unfold out_begin_ack. talks. Qed.
Lemma talks_finish : steps talks out_finish.
Proof.
  unfold out_finish, send_out, out_byte. talks.
Qed.
Lemma talks_ack : steps talks send_ack.
Proof. unfold send_ack, send_out. talks. Qed.

Lemma talks_bp_ok (s s' : St) :
  trace_ok s → bp_ok s → talks s s' →
  bp_ok s' ∧ ∀ x, ¬ in_log x → mget (original s') x = mget (original s) x.
Proof.
  intros Ht (Hlen & Hpok & Hbp) Hs. destruct (Hs Ht) as (_ & Hv & Hm).
  injection Hv as Hr Hb Hsa Hsv Hst Hsig.
  assert (planted s' = planted s) as Hp by (unfold planted, planted_in; by rewrite Hb, Hsa, Hsv, Hst).
  split.
  - split; [congruence|]. rewrite Hp. split; [done|]. intros p Hin. rewrite <-(Hbp p Hin).
    unfold mem_word. f_equal. apply mget_list_ext. intros x Hx. apply Hm.
    destruct Hpok as [_ Hok]. destruct (Hok p Hin) as [(_ & _ & _ & Ha) _]. unfold in_log. lia.
  - intros x Hx. unfold original. rewrite Hp. destruct (covers_dec x (planted s)) as [(p & Hin & Hc)|Hn].
    + by rewrite !(restore_in _ _ p).
    + rewrite !restore_out by done. by apply Hm.
Qed.

(** C10: a single step.  When the next pc is decided and is not the current one,
    [do_step] acknowledges and resumes with a breakpoint planted at the next
    pc, and the memory of the program outside of the log is what it was with
    all breakpoints removed. *)
Theorem do_step_plants (s : St) next :
  bp_ok s → g_step_active (st_rsp s) = false → trace_ok s →
  arm_next_pc s = (Some next, s) → next ≠ r_pc (g_regs (st_rsp s)) → plantable next →
  let '(r, s') := do_step s in
  r = Resumed ∧ bp_ok s' ∧ g_regs (st_rsp s') = g_regs (st_rsp s) ∧
  (∀ b, b ∈ (planted s').*1 ↔ b = next ∨ b ∈ (planted s).*1) ∧
  (∀ x, ¬ in_log x → mget (original s') x = mget (original s) x).
Proof.
  intros Hok Hst Htr Hnext Hne Ha. pose proof (not_planted s next Hst) as Hnp.
  set (plant := when (negb (fst (bp_lookup next s))) (
          updR (set_g_step_addr next);;
          saved ← rd32 next;
          updR (set_g_step_saved saved);;
          wr32 next BP_INSN;;
          updR (set_g_step_active true))).
  set (tail := trace_puts (bytes_of "step to 0x");; trace_hex next 8;; trace_puts [10];; rsp_resume_here).
  assert (do_step s = (plant;; tail) s) as ->.
  { unfold do_step, mbind at 1, M_bind at 1. rewrite Hnext. unfold getR, gets, mbind at 1, M_bind at 1.
    rewrite (proj2 (Z.eqb_neq _ _)) by done. unfold plant. unfold mbind at 1, M_bind at 1.
    assert (bp_lookup next s = (fst (bp_lookup next s), s)) as -> by done. done. }
  assert (steps talks tail) as Htail.
  { unfold tail, rsp_resume_here. talks. apply talks_ack. }
  assert (∃ s1, plant s = (tt, s1) ∧ bp_ok s1 ∧ g_regs (st_rsp s1) = g_regs (st_rsp s) ∧ trace_ok s1 ∧
    (∀ x, mget (original s1) x = mget (original s) x) ∧
    (∀ b, b ∈ (planted s1).*1 ↔ b = next ∨ b ∈ (planted s).*1)) as (s1 & Hs1 & Hok1 & Hr1 & Ht1 & Ho1 & Hp1).
  { unfold plant. destruct (fst (bp_lookup next s)) eqn:El; cbn [negb when].
    - exists s. split_and!; try done. intros b. split; [by right|]. intros [->|]; [|done].
      destruct (decide (next ∈ (planted s).*1)) as [|Hn]; [done|]. exfalso.
      unfold bp_lookup, getR, gets, mbind, M_bind in El. cbn in El.
      destruct (bp_find next (g_bp (st_rsp s)) 0) as [[j v]|] eqn:Ef; [|done].
      apply bp_find_some in Ef as (k & _ & Hk). apply Hn, list_elem_of_fmap. exists (next, v). split; [done|].
      apply elem_of_app. left. apply actives_delete in Hk. rewrite Hk. apply elem_of_cons. by left.
    - specialize (Hnp eq_refl). unfold mbind, M_bind, updR, modify.
      rewrite rd32_ddr by by apply plantable_ddr. rewrite plantable_wr by done.
      set (s1 := set_st_rsp _ _). exists s1. split; [done|].
      destruct (plant_ok s s1 next) as (H1 & H2 & H3); try done.
      + apply Hok.
      + unfold planted, planted_in. cbn. rewrite Hst, app_nil_r.
        unfold mem_word. cbn. apply Permutation_app_comm. }
  unfold mbind, M_bind. rewrite Hs1. specialize (Htail s1).
  destruct (talks_bp_ok s1 _ Ht1 Hok1 Htail) as [Hok2 Ho2].
  destruct (Htail Ht1) as (_ & Hv2 & _). injection Hv2 as Hr2 Hb2 Hsa2 Hsv2 Hst2 Hsig2.
  assert (planted (snd (tail s1)) = planted s1) as Hp2
    by (unfold planted, planted_in; by rewrite Hb2, Hsa2, Hsv2, Hst2).
  assert (fst (tail s1) = Resumed) as Hres.
  { unfold tail, rsp_resume_here, mbind, M_bind. by repeat case_match. }
  destruct (tail s1) as [r s2]. cbn [fst snd] in *. rewrite Hp2. split_and!; try done; try congruence.
  intros x Hx. rewrite Ho2 by done. apply Ho1.
Qed.

(** The signal that a trap reports. *)
Definition stop_signal (s : St) (sig : Z) : Z :=
  if bool_decide (r_pc (g_regs (st_rsp s)) ∈ (planted s).*1) then SIG_TRAP else sig.

Lemma lookup_planted (s : St) a :
  g_step_active (st_rsp s) = false → fst (bp_lookup a s) = bool_decide (a ∈ (planted s).*1).
Proof.
  intros Hst. pose proof (not_planted s a Hst) as Hn.
  destruct (fst (bp_lookup a s)) eqn:E; symmetry; [|apply bool_decide_eq_false; auto].
  apply bool_decide_eq_true. unfold bp_lookup, getR, gets, mbind, M_bind in E. cbn in E.
  destruct (bp_find a (g_bp (st_rsp s)) 0) as [[j v]|] eqn:Ef; [|done].
  apply bp_find_some in Ef as (k & _ & Hk). apply list_elem_of_fmap. exists (a, v). split; [done|].
  apply elem_of_app. left. apply actives_delete in Hk. rewrite Hk. apply elem_of_cons. by left.
Qed.

(** The step breakpoint is taken back. *)
Definition unstep (s : St) : M St unit :=
  when (g_step_active (st_rsp s)) (
    wr32 (g_step_addr (st_rsp s)) (g_step_saved (st_rsp s));;
    updR (set_g_step_active false)).

Lemma unstep_ok (s : St) :
  bp_ok s →
  ∃ s1, unstep s s = (tt, s1) ∧ bp_ok s1 ∧ g_step_active (st_rsp s1) = false ∧
    (∀ x, mget (original s1) x = mget (original s) x) ∧
    g_regs (st_rsp s1) = g_regs (st_rsp s) ∧ st_trace s1 = st_trace s ∧ g_bp (st_rsp s1) = g_bp (st_rsp s).
Proof.
  intros Hok. unfold unstep. destruct (g_step_active (st_rsp s)) eqn:Est; cbn [when].
  2: { exists s. by split_and!. }
  assert (planted s ≡ₚ (g_step_addr (st_rsp s), g_step_saved (st_rsp s)) :: actives (g_bp (st_rsp s))) as Hp.
  { unfold planted, planted_in. rewrite Est. apply Permutation_app_comm. }
  assert (plantable (g_step_addr (st_rsp s))) as Ha.
  { destruct Hok as (_ & [_ Hok] & _). apply (Hok (g_step_addr (st_rsp s), g_step_saved (st_rsp s))).
    rewrite Hp. apply elem_of_cons. by left. }
  unfold mbind, M_bind, updR, modify. rewrite plantable_wr by done.
  set (s1 := set_st_rsp _ _). exists s1. split; [done|].
  destruct (unplant_ok s s1 (g_step_addr (st_rsp s)) (g_step_saved (st_rsp s))) as (H1 & H2 & H3); try done.
  - apply Hok.
  - unfold planted, planted_in at 2. cbn. by rewrite app_nil_r.
Qed.

(** A trap.  [rsp_trapped] takes the step breakpoint back and no other, so
    that only breakpoints of the table remain planted and the memory of the
    program outside of the log is unchanged; it remembers SIG_TRAP if the
    program stopped at any planted address, and the signal of the exception
    otherwise. *)
Theorem trap_removes_step (s : St) sig :
  bp_ok s → trace_ok s →
  let s' := snd (rsp_trapped_stop sig s) in
  bp_ok s' ∧ g_step_active (st_rsp s') = false ∧ planted s' = actives (g_bp (st_rsp s)) ∧
  g_regs (st_rsp s') = g_regs (st_rsp s) ∧
  g_last_sig (st_rsp s') = stop_signal s sig ∧
  (∀ x, ¬ in_log x → mget (original s') x = mget (original s) x).
Proof.
  intros Hok Htr. cbv zeta. destruct (unstep_ok s Hok) as (s1 & Hs1 & Hok1 & Hst1 & Ho1 & Hr1 & Ht1 & Hb1).
  set (pc := r_pc (g_regs (st_rsp s))).
  set (sig1 := if g_step_active (st_rsp s) && (pc =? g_step_addr (st_rsp s)) then SIG_TRAP else sig).
  set (sig2 := if fst (bp_lookup pc s1) then SIG_TRAP else sig1).
  set (tail := trace_puts (bytes_of "trap sig=");; trace_dec sig2;; trace_puts (bytes_of " pc=0x");;
    trace_hex pc 8;; trace_puts (bytes_of " cpsr=0x");; trace_hex (r_cpsr (g_regs (st_rsp s))) 8;;
    trace_puts [10];; out_begin_ack false;; out_ch (chr "S");; out_byte (u8 sig2);; out_finish).
  assert (rsp_trapped_stop sig s = (updR (set_g_last_sig sig2);; tail) s1) as ->.
  { unfold rsp_trapped_stop, mbind at 1, M_bind at 1, gets. fold pc.
    unfold mbind at 1, M_bind at 1. fold (unstep s). rewrite Hs1.
    unfold mbind at 1, M_bind at 1. assert (bp_lookup pc s1 = (fst (bp_lookup pc s1), s1)) as -> by done. done. }
  assert (trace_ok s1) as Htr1 by (unfold trace_ok; by rewrite Ht1).
  assert (sig2 = stop_signal s sig) as Hsig.
  { unfold sig2, sig1, stop_signal. rewrite lookup_planted by done. fold pc.
    unfold planted, planted_in. rewrite Hst1, Hb1, app_nil_r, fmap_app.
    destruct (g_step_active (st_rsp s)); cbn [andb fmap list_fmap app]; [|by rewrite app_nil_r].
    destruct (decide (pc ∈ (actives (g_bp (st_rsp s))).*1)) as [H|H].
    - rewrite !bool_decide_eq_true_2; [done|apply elem_of_app; by left|done].
    - rewrite (bool_decide_eq_false_2 (pc ∈ (actives (g_bp (st_rsp s))).*1)) by done.
      destruct (pc =? g_step_addr (st_rsp s)) eqn:E.
      + rewrite bool_decide_eq_true_2; [done|]. apply elem_of_app. right. apply list_elem_of_singleton. by apply Z.eqb_eq.
      + rewrite bool_decide_eq_false_2; [done|]. intros [?|Hin]%elem_of_app; [done|].
        apply list_elem_of_singleton in Hin. cbn in Hin. apply Z.eqb_neq in E. congruence. }
  clearbody sig2. rewrite <-Hsig.
  set (s2 := set_st_rsp (set_g_last_sig sig2 (st_rsp s1)) s1).
  change ((updR (set_g_last_sig sig2);; tail) s1) with (tail s2).
  assert (steps talks tail) as Htail.
  { unfold tail. steps_walk ltac:(idtac; lazymatch goal with
      | |- steps _ (out_begin_ack _) => apply talks_begin
      | |- steps _ (out_byte _) => apply talks_byte
      | |- steps _ out_finish => apply talks_finish
      | _ => talks_leaf end). }
  clearbody tail.
  assert (bp_ok s2) as Hok2 by exact Hok1. assert (trace_ok s2) as Htr2 by exact Htr1.
  specialize (Htail s2). destruct (talks_bp_ok s2 _ Htr2 Hok2 Htail) as [Hok3 Ho3].
  destruct (Htail Htr2) as (_ & Hv3 & _). injection Hv3 as Hr3 Hb3 Hsa3 Hsv3 Hst3 Hsig3.
  split_and!; try done.
  - by rewrite Hst3.
  - unfold planted, planted_in. rewrite Hb3, Hst3. cbn. by rewrite Hst1, app_nil_r, Hb1.
  - by rewrite Hr3.
  - intros x Hx. rewrite Ho3 by done. apply Ho1.
Qed.
End step.

(** ** Witnesses: the theorems at concrete states *)

#[local] Existing Instance null_device.
#[local] Existing Instance null_transport.

Definition example_bp : stub unit :=
  example_stub tt (mset_list ∅ 0x30000100 (le_split 4 (branch_insn 0x30000100 0x30000120))) example_musb
    (rsp_st0 (example_regs 0x30000100 0x13)).

Lemma example_bp_ok : bp_ok example_bp.
Proof.
  split; [done|]. split; [|intros p Hp; by apply elem_of_nil in Hp].
  split; [by apply list.NoDup_nil|]. intros p Hp. by apply elem_of_nil in Hp.
Qed.
Lemma example_plantable : plantable 0x30000120.
Proof. unfold plantable, DDR_BASE, DDR_END, TRACE_BASE, TRACE_SIZE. split; [done|lia]. Qed.

Lemma bp_set_ok_witness : bp_ok (snd (bp_set 0x30000120 example_bp)).
Proof.
  pose proof (bp_set_ok example_bp 0x30000120 example_bp_ok eq_refl example_plantable) as H.
  destruct (bp_set 0x30000120 example_bp) as [r s']. apply H.
Defined.

Lemma bp_clear_ok_witness : fst (bp_clear 0x30000120 example_bp) = true.
Proof.
  pose proof (bp_clear_ok example_bp 0x30000120 example_bp_ok eq_refl) as H.
  destruct (bp_clear 0x30000120 example_bp) as [r s']. apply H.
Defined.

Lemma do_step_plants_witness :
  fst (do_step example_bp) = Resumed ∧ bp_ok (snd (do_step example_bp)).
Proof.
  assert (trace_ok example_bp) as Ht
    by (unfold trace_ok, example_bp, example_stub; cbn; unfold TRACE_BASE, TRACE_SIZE; lia).
  assert (arm_next_pc example_bp = (Some 0x30000120, example_bp)) as Hn by (vm_compute; reflexivity).
  pose proof (do_step_plants example_bp 0x30000120 example_bp_ok eq_refl Ht Hn ltac:(discriminate) example_plantable) as H.
  destruct (do_step example_bp) as [r s']. destruct H as (H1 & H2 & _). by split.
Defined.

Lemma trap_removes_step_witness :
  bp_ok (snd (rsp_trapped_stop SIG_ILL example_bp)) ∧
  g_last_sig (st_rsp (snd (rsp_trapped_stop SIG_ILL example_bp))) = stop_signal example_bp SIG_ILL.
Proof.
  assert (trace_ok example_bp) as Ht
    by (unfold trace_ok, example_bp, example_stub; cbn; unfold TRACE_BASE, TRACE_SIZE; lia).
  pose proof (trap_removes_step example_bp SIG_ILL example_bp_ok Ht) as H. cbv zeta in H.
  destruct H as (H1 & _ & _ & _ & H2 & _). by split.
Defined.
