(* ===== verification/Dispatch.v ===== *)
(** * Dispatch: commands and framing

    [dispatch], [feed_byte], [feed_body] and [rsp_feed] of
    [src/baremetal/gdbstub/rsp.c]. *)
From S2P Require Import Prelude Machine GdbState Trace Step Packet Memory Breakpoint.

Definition TRACE_CMD_LIMIT : Z := 60.

Section Dispatch.
Context {D : Type} `{!Device D, !Transport D}.
Abbreviation St := (stub D).

(** The first 24 bytes of the command, for the log. *)
Definition trace_cmd (cmd : list Z) : M St unit :=
  traced ← getR g_traced;
  when (traced <? TRACE_CMD_LIMIT) (
    updR (set_g_traced (traced + 1));;
    trace_puts (bytes_of "cmd ");;
    trace_puts (take 24 cmd);;
    trace_puts [10]).

(** The commands that are answered with one packet: the switch of [dispatch]. *)
Definition command (cmd : list Z) : M St unit :=
  let c := znth cmd 0 in
  let args := drop 1 cmd in
  if c =? chr "?" then
    sig ← getR g_last_sig;
    out_ch (chr "S");;
    out_byte (u8 sig)
  else if c =? chr "g" then read_regs
  else if c =? chr "G" then write_regs args
  else if c =? chr "m" then read_memory args
  else if c =? chr "M" then write_memory_hex args
  else if c =? chr "X" then write_memory_bin args
  else if c =? chr "q" then handle_query cmd
  else if c =? chr "v" then
    when (nonzero (prefix cmd (bytes_of "vCont?"))) (out_str (bytes_of "vCont;c;C;s;S"))
  else if (c =? chr "Z") || (c =? chr "z") then handle_breakpoint cmd
  else if (c =? chr "H") || (c =? chr "D") || (c =? chr "k") then out_str (bytes_of "OK")
  else skip.

(** From [qRcmd] on. *)
Definition dispatch_packet (cmd : list Z) : M St ctl :=
  let n := prefix cmd (bytes_of "qRcmd,") in
  if nonzero n then
    handle_monitor (drop (Z.to_nat n) cmd);;
    mret Returned
  else
    out_begin;;
    command cmd;;
    out_finish;;
    mret Returned.

Definition dispatch : M St ctl :=
  cmd ← getR g_cmd;
  trace_cmd cmd;;
  let c := znth cmd 0 in
  if negb (nonzero (zlen cmd)) then
    out_begin;;
    out_finish;;
    mret Returned
  else if (c =? chr "c") || (c =? chr "C") then resume (drop 1 cmd)
  else if (c =? chr "s") && (zlen cmd =? 1) then do_step
  else if nonzero (prefix cmd (bytes_of "vCont;")) then
    let act := vcont_action (drop 5 cmd) in
    if (act =? chr "c") || (act =? chr "C") then resume []
    else if (act =? chr "s") || (act =? chr "S") then do_step
    else dispatch_packet cmd
  else dispatch_packet cmd.

(** [feed_byte]: framing outside of a body. *)
Definition feed_byte (c : Z) : M St ctl :=
  st ← getR g_state;
  match st with
  | ST_IDLE =>
      when (c =? chr "$") (
        updR (set_g_cmd []);;
        updR (set_g_sum 0);;
        updR (set_g_state ST_BODY));;
      mret Returned
  | ST_CSUM1 =>
      updR (set_g_csum_hi c);;
      updR (set_g_state ST_CSUM2);;
      mret Returned
  | _ =>
      updR (set_g_state ST_IDLE);;
      hi ← getR g_csum_hi;
      sum ← getR g_sum;
      if hexpair hi c =? (sum .& 0xFF) then dispatch
      else
        updR (set_g_out []);;
        out_ch (chr "-");;
        send_out;;
        mret Returned
  end.

(** The loop of [feed_body]: the new buffer and sum, the number of bytes
    consumed, and whether the command was too long. *)
Fixpoint body_loop (data cmd : list Z) (sum : Z) : list Z * Z * nat * bool :=
  match data with
  | [] => (cmd, sum, O, false)
  | c :: data' =>
      if c =? chr "#" then (cmd, sum, O, false)
      else if CMD_SIZE <=? zlen cmd then (cmd, sum, O, true)
      else
        let '(cmd', sum', i, over) := body_loop data' (cmd ++ [c]) (u32 (sum + c)) in
        (cmd', sum', Datatypes.S i, over)
  end.

Definition feed_body (data : list Z) : M St nat :=
  cmd ← getR g_cmd;
  sum ← getR g_sum;
  let '(cmd', sum', i, over) := body_loop data cmd sum in
  when over (updR (set_g_state ST_IDLE));;
  updR (set_g_cmd cmd');;
  updR (set_g_sum sum');;
  mret i.

(** Every two iterations consume a byte ([rsp_feed_eq]). *)
Fixpoint feed_loop (fuel : nat) (data : list Z) : M St ctl :=
  match fuel, data with
  | Datatypes.S fuel', c :: data' =>
      st ← getR g_state;
      if negb (bool_decide (st = ST_BODY)) then
        r ← feed_byte c;
        match r with Resumed => mret Resumed | Returned => feed_loop fuel' data' end
      else
        n ← feed_body data;
        st' ← getR g_state;
        match bool_decide (st' = ST_BODY), drop n data with
        | true, _ :: rest =>              (* stopped on '#' *)
            updR (set_g_state ST_CSUM1);;
            feed_loop fuel' rest
        | _, rest => feed_loop fuel' rest
        end
  | _, _ => mret Returned
  end.

Definition rsp_feed (data : list Z) : M St ctl := feed_loop (2 * length data) data.

End Dispatch.

(** ** Framing as an automaton over bytes *)

Section automaton.
Context {D : Type} `{!Device D, !Transport D}.
Abbreviation St := (stub D).

(** Reference: one byte at a time. *)
Definition feed1 (c : Z) : M St ctl :=
  st ← getR g_state;
  match st with
  | ST_BODY =>
      cmd ← getR g_cmd;
      sum ← getR g_sum;
      if c =? chr "#" then updR (set_g_state ST_CSUM1);; mret Returned
      else if CMD_SIZE <=? zlen cmd then updR (set_g_state ST_IDLE);; feed_byte c
      else updR (λ r, set_g_sum (u32 (sum + c)) (set_g_cmd (cmd ++ [c]) r));; mret Returned
  | _ => feed_byte c
  end.

Fixpoint feed_all (l : list Z) : M St ctl :=
  match l with
  | [] => mret Returned
  | c :: l' =>
      r ← feed1 c;
      match r with Resumed => mret Resumed | Returned => feed_all l' end
  end.

Definition with_body (st : fstate) (cmd : list Z) (sum : Z) (s : St) : St :=
  set_st_rsp (set_g_state st (set_g_sum sum (set_g_cmd cmd (st_rsp s)))) s.

Lemma with_body_id s : with_body (g_state (st_rsp s)) (g_cmd (st_rsp s)) (g_sum (st_rsp s)) s = s.
Proof. by destruct s as [? ? ? []]. Qed.

Lemma feed1_body c cmd sum s :
  feed1 c (with_body ST_BODY cmd sum s) =
  if c =? chr "#" then (Returned, with_body ST_CSUM1 cmd sum s)
  else if CMD_SIZE <=? zlen cmd then feed_byte c (with_body ST_IDLE cmd sum s)
  else (Returned, with_body ST_BODY (cmd ++ [c]) (u32 (sum + c)) s).
Proof.
  unfold feed1, getR, gets, mbind, M_bind. cbn [with_body st_rsp set_st_rsp g_state set_g_state g_cmd g_sum set_g_sum set_g_cmd].
  destruct (c =? chr "#"); [done|]. by destruct (CMD_SIZE <=? zlen cmd).
Qed.
Lemma feed1_other c s : g_state (st_rsp s) ≠ ST_BODY → feed1 c s = feed_byte c s.
Proof. intros H. unfold feed1, getR, gets, mbind, M_bind. by destruct (g_state (st_rsp s)) eqn:E. Qed.

(** A run of a body, up to its end or the end of the buffer. *)
Lemma feed_all_body data cmd sum s :
  let '(cmd', sum', i, over) := body_loop data cmd sum in
  feed_all data (with_body ST_BODY cmd sum s) =
  if (over : bool) then feed_all (drop i data) (with_body ST_IDLE cmd' sum' s)
  else match drop i data with
       | [] => (Returned, with_body ST_BODY cmd' sum' s)
       | _ :: rest => feed_all rest (with_body ST_CSUM1 cmd' sum' s)
       end.
Proof.
  revert cmd sum. induction data as [|c data IH]; intros cmd sum; cbn [body_loop feed_all]; [done|].
  unfold mbind at 1, M_bind at 1. rewrite feed1_body.
  destruct (c =? chr "#") eqn:Ec; [done|].
  destruct (CMD_SIZE <=? zlen cmd) eqn:Ef.
  - cbn [drop feed_all]. unfold mbind at 1, M_bind at 1. by rewrite feed1_other.
  - specialize (IH (cmd ++ [c]) (u32 (sum + c))).
    destruct (body_loop data (cmd ++ [c]) (u32 (sum + c))) as [[[cmd' sum'] i] over]. exact IH.
Qed.

Lemma body_loop_bound data cmd sum :
  let '(_, _, i, over) := body_loop data cmd sum in
  (i <= length data)%nat ∧ ((over : bool) = true → (i < length data)%nat) ∧ (over = false → i = 0%nat → data = [] ∨ ∃ l, data = chr "#" :: l).
Proof.
  revert cmd sum. induction data as [|c data IH]; intros cmd sum; cbn [body_loop length].
  { split; [lia|]. split; [done|]. by left. }
  destruct (c =? chr "#") eqn:Ec.
  { split; [lia|]. split; [done|]. apply Z.eqb_eq in Ec as ->. right. by eexists. }
  destruct (CMD_SIZE <=? zlen cmd); [split; [lia|]; split; [lia|done]|].
  specialize (IH (cmd ++ [c]) (u32 (sum + c))).
  destruct (body_loop data (cmd ++ [c]) (u32 (sum + c))) as [[[cmd' sum'] i] over].
  destruct IH as (H1 & H2 & H3). split_and!; [lia|intros Ho; specialize (H2 Ho); lia|lia].
Qed.

Lemma feed_body_run data s :
  g_state (st_rsp s) = ST_BODY →
  let '(cmd', sum', i, over) := body_loop data (g_cmd (st_rsp s)) (g_sum (st_rsp s)) in
  feed_body data s = (i, with_body (if (over : bool) then ST_IDLE else ST_BODY) cmd' sum' s).
Proof.
  intros Hst. unfold feed_body, getR, gets, mbind, M_bind.
  destruct (body_loop data _ _) as [[[cmd' sum'] i] over].
  destruct s as [? ? ? []]. cbn in Hst. subst. by destruct over.
Qed.

(** Fuel that is certainly enough. *)
Definition feed_need (st : fstate) (n : nat) : nat :=
  match st with ST_BODY => 2 * n | _ => 2 * n - 1 end.

Lemma feed_loop_eq fuel data s :
  (feed_need (g_state (st_rsp s)) (length data) <= fuel)%nat → feed_loop fuel data s = feed_all data s.
Proof.
  revert data s. induction fuel as [|fuel IH]; intros data s Hf.
  { destruct data as [|c data]; [done|]. exfalso. cbn in Hf. destruct (g_state (st_rsp s)); cbn in Hf; lia. }
  destruct data as [|c data]; [done|]. cbn [feed_loop].
  unfold mbind at 1, M_bind at 1. change (getR g_state s) with (g_state (st_rsp s), s). cbv beta iota.
  destruct (g_state (st_rsp s)) eqn:Est;
    [rewrite bool_decide_eq_false_2 by done|rewrite bool_decide_eq_true_2 by done
    |rewrite bool_decide_eq_false_2 by done|rewrite bool_decide_eq_false_2 by done]; cbn [negb].
  1, 3, 4: cbn [feed_all]; unfold mbind at 1 2, M_bind at 1 2; rewrite feed1_other by (by rewrite Est);
    destruct (feed_byte c s) as [[] s1]; [|done]; apply IH; cbn [length] in Hf;
    unfold feed_need in *; destruct (g_state (st_rsp s1)); lia.
  pose proof (feed_all_body (c :: data) (g_cmd (st_rsp s)) (g_sum (st_rsp s)) s) as Hall.
  pose proof (body_loop_bound (c :: data) (g_cmd (st_rsp s)) (g_sum (st_rsp s))) as Hb.
  pose proof (feed_body_run (c :: data) s Est) as Hrun.
  assert (with_body ST_BODY (g_cmd (st_rsp s)) (g_sum (st_rsp s)) s = s) as Hid
    by (rewrite <-Est; apply with_body_id).
  rewrite Hid in Hall. clear Hid.
  destruct (body_loop (c :: data) _ _) as [[[cmd' sum'] i] over] eqn:El.
  unfold mbind at 1, M_bind at 1. rewrite Hrun. rewrite Hall.
  destruct Hb as (Hb1 & Hb2 & Hb3). unfold feed_need in Hf.
  assert (length (drop i (c :: data)) = length (c :: data) - i)%nat as Hdl by apply length_drop.
  destruct over.
  - specialize (Hb2 eq_refl). cbn [with_body]. unfold getR, gets, mbind at 1, M_bind at 1. cbn.
    apply IH. unfold feed_need. cbn [with_body st_rsp set_st_rsp g_state set_g_state]. rewrite Hdl. cbn [length] in *. lia.
  - unfold mbind at 1, M_bind at 1.
    change (getR g_state (with_body ST_BODY cmd' sum' s)) with (ST_BODY, with_body ST_BODY cmd' sum' s).
    cbv beta iota. rewrite bool_decide_eq_true_2 by done.
    destruct (drop i (c :: data)) as [|h rest] eqn:Edrop; [by destruct fuel|].
    unfold updR, modify, mbind at 1, M_bind at 1. cbn [length] in *.
    change (feed_loop fuel rest (with_body ST_CSUM1 cmd' sum' s) = feed_all rest (with_body ST_CSUM1 cmd' sum' s)).
    apply IH. unfold feed_need. cbn [with_body st_rsp set_st_rsp g_state set_g_state]. lia.
Qed.

Lemma rsp_feed_eq data s : rsp_feed data s = feed_all data s.
Proof. apply feed_loop_eq. unfold feed_need. destruct (g_state (st_rsp s)); lia. Qed.

Lemma feed_all_app a b s :
  feed_all (a ++ b) s =
  (r ← feed_all a; match r with Resumed => mret Resumed | Returned => feed_all b end) s.
Proof.
  revert s. induction a as [|c a IH]; intros s; cbn [app feed_all]; [done|].
  unfold mbind, M_bind in *. destruct (feed1 c s) as [[] s1]; [apply IH|done].
Qed.

(** C3: the parser does not depend on how the stream is cut into USB packets.
    Feeding two pieces is feeding their concatenation; the copying of bodies in
    runs is the automaton that takes one byte at a time, and it always returns
    or resumes the target. *)
Theorem rsp_feed_fragments a b (s : St) :
  rsp_feed (a ++ b) s =
  (r ← rsp_feed a; match r with Resumed => mret Resumed | Returned => rsp_feed b end) s ∧
  rsp_feed a s = feed_all a s.
Proof.
  split; [|apply rsp_feed_eq]. rewrite rsp_feed_eq, feed_all_app. unfold mbind, M_bind.
  rewrite rsp_feed_eq. destruct (feed_all a s) as [[] s1]; [|done]. by rewrite rsp_feed_eq.
Qed.
End automaton.

(** ** Delivery of packets *)

Section delivery.
Context {D : Type} `{!Device D, !Transport D}.
Abbreviation St := (stub D).

Lemma feed_all_bodies body cmd sum (s : St) :
  Forall (λ c, c ≠ chr "#") body → zlen cmd + zlen body <= CMD_SIZE →
  feed_all body (with_body ST_BODY cmd (u32 sum) s) =
  (Returned, with_body ST_BODY (cmd ++ body) (u32 (sum + foldr Z.add 0 body)) s).
Proof.
  intros Hb. revert cmd sum. induction Hb as [|c body Hc Hb IH]; intros cmd sum Hl; cbn [feed_all foldr].
  { by rewrite app_nil_r, Z.add_0_r. }
  rewrite zlen_cons in Hl. pose proof (zlen_nonneg body).
  unfold mbind, M_bind. rewrite feed1_body, (proj2 (Z.eqb_neq _ _)), (proj2 (Z.leb_gt _ _)) by (done || lia).
  replace (u32 (u32 sum + c)) with (u32 (sum + c)) by (unfold u32; by rewrite Z.add_mod_idemp_l).
  rewrite IH by (rewrite zlen_app; change (zlen [c]) with 1; lia).
  by rewrite <-app_assoc, Z.add_assoc.
Qed.

(** Leading bytes outside of a packet. *)
Lemma feed_all_idle l (s : St) :
  g_state (st_rsp s) = ST_IDLE → Forall (λ c, c ≠ chr "$") l → feed_all l s = (Returned, s).
Proof.
  intros Hst Hl. induction Hl as [|c l Hc Hl IH]; cbn [feed_all]; [done|].
  unfold mbind, M_bind. rewrite feed1_other by by rewrite Hst.
  assert (feed_byte c s = (Returned, s)) as ->; [|done].
  unfold feed_byte, getR, gets, mbind, M_bind. rewrite Hst.
  by rewrite (proj2 (Z.eqb_neq _ _)).
Qed.

(** The state in which a complete packet is judged. *)
Definition received (body : list Z) (hi : Z) (s : St) : St :=
  set_st_rsp (set_g_state ST_IDLE (set_g_csum_hi hi
    (set_g_sum (u32 (foldr Z.add 0 body)) (set_g_cmd body (st_rsp s))))) s.

Lemma feed_packet junk body hi lo (s : St) :
  g_state (st_rsp s) = ST_IDLE → Forall (λ c, c ≠ chr "$") junk →
  Forall (λ c, c ≠ chr "#") body → zlen body <= CMD_SIZE →
  feed_all (junk ++ chr "$" :: body ++ [chr "#"; hi; lo]) s =
  (if hexpair hi lo =? checksum body then dispatch
   else updR (set_g_out []);; out_ch (chr "-");; send_out;; mret Returned) (received body hi s).
Proof.
  intros Hst Hj Hb Hl. rewrite feed_all_app. unfold mbind at 1, M_bind at 1.
  rewrite feed_all_idle by done. cbn [app feed_all]. unfold mbind at 1, M_bind at 1.
  assert (feed1 (chr "$") s = (Returned, with_body ST_BODY [] (u32 0) s)) as ->.
  { rewrite feed1_other by by rewrite Hst. unfold feed_byte, getR, gets, mbind, M_bind. by rewrite Hst. }
  rewrite feed_all_app. unfold mbind at 1, M_bind at 1. rewrite feed_all_bodies by done.
  cbn [app feed_all]. rewrite Z.add_0_l. unfold mbind at 1, M_bind at 1. rewrite feed1_body.
  change (chr "#" =? chr "#") with true. cbv iota.
  unfold mbind at 1, M_bind at 1. rewrite feed1_other by done.
  set (s2 := with_body ST_CSUM1 body (u32 (foldr Z.add 0 body)) s).
  assert (feed_byte hi s2 =
    (Returned, set_st_rsp (set_g_state ST_CSUM2 (set_g_csum_hi hi (st_rsp s2))) s2)) as -> by done.
  unfold mbind at 1, M_bind at 1. rewrite feed1_other by done.
  set (s3 := set_st_rsp _ s2).
  assert (feed_byte lo s3 =
    (if hexpair hi lo =? (u32 (foldr Z.add 0 body) .& 0xFF) then dispatch
     else updR (set_g_out []);; out_ch (chr "-");; send_out;; mret Returned) (received body hi s)) as ->.
  { reflexivity. }
  assert (u32 (foldr Z.add 0 body) .& 0xFF = checksum body) as ->.
  { rewrite (land_low _ 8) by done. unfold checksum, u8, u32. change (2 ^ 8) with 256.
    generalize (foldr Z.add 0 body). intros x. zlia. }
  match goal with |- _ = ?x => destruct x as [[] s4] end; done.
Qed.

Lemma nak_run (s : St) :
  (updR (set_g_out []);; out_ch (chr "-");; send_out;; mret Returned) s =
  (Returned, snd (bulk_send g_out_addr [chr "-"] (out_put [chr "-"]
     (set_st_rsp (set_g_out [] (st_rsp s)) s)))).
Proof.
  unfold mbind at 1, M_bind at 1. change (updR (set_g_out []) s) with (tt, set_st_rsp (set_g_out [] (st_rsp s)) s).
  set (s1 := set_st_rsp _ s). unfold mbind at 1, M_bind at 1.
  rewrite prints_ch by done. unfold send_out, mbind, M_bind.
  change (getR g_out (out_put [u8 (chr "-")] s1)) with ([chr "-"], out_put [chr "-"] s1).
  change (out_put [u8 (chr "-")] s1) with (out_put [chr "-"] s1). cbv beta iota.
  by destruct (bulk_send _ _ _) as [[] ?].
Qed.

(** Delivery.  A packet with a correct checksum, after any bytes that are
    not a packet start, runs the command exactly once with exactly its body;
    one with a wrong checksum runs nothing and is answered with a single nak.
    Both leave the parser waiting for the next packet. *)
Theorem packet_delivery junk body hi lo (s : St) :
  g_state (st_rsp s) = ST_IDLE → Forall (λ c, c ≠ chr "$") junk →
  Forall (λ c, c ≠ chr "#") body → zlen body <= CMD_SIZE →
  (rsp_feed (junk ++ frame false body) s =
     dispatch (received body (hexdigit (checksum body .>> 4)) s)) ∧
  (hexpair hi lo ≠ checksum body →
     rsp_feed (junk ++ chr "$" :: body ++ [chr "#"; hi; lo]) s =
     (Returned, snd (bulk_send g_out_addr [chr "-"] (out_put [chr "-"]
        (set_st_rsp (set_g_out [] (st_rsp (received body hi s))) s))))).
Proof.
  intros Hst Hj Hb Hl. split.
  - rewrite rsp_feed_eq.
    change (frame false body) with (chr "$" :: body ++
      [chr "#"; hexdigit (checksum body .>> 4); hexdigit (checksum body .& 0xF)]).
    rewrite feed_packet by done. rewrite hexpair_byte by apply u8_range. by rewrite Z.eqb_refl.
  - intros Hne. rewrite rsp_feed_eq, feed_packet by done. rewrite (proj2 (Z.eqb_neq _ _)) by done.
    exact (nak_run (received body hi s)).
Qed.
End delivery.

(** ** Every command is answered *)

Section answers.
Context {D : Type} `{!Device D, !Transport D, !Wire D}.
Abbreviation St := (stub D).

Lemma silent_read_bytes n a : steps silent (read_bytes (D := D) n a).
Proof. revert a. induction n; intros a; cbn [read_bytes]; unfold read_byte; steps_walk ltac:(first [quiet_leaf|by auto]). Qed.

Lemma silent_hex_loop f a l i p : steps silent (write_hex_loop (D := D) f a l i p).
Proof.
  revert i p. induction f as [|f IH]; intros i [|c0 [|c1 p]]; cbn [write_hex_loop];
    steps_walk ltac:(first [quiet_leaf|apply IH]).
Qed.
Lemma silent_bin_loop f a l i p : steps silent (write_bin_loop (D := D) f a l i p).
Proof.
  revert i p. induction f as [|f IH]; intros i [|b p]; cbn [write_bin_loop]; cbv zeta;
    steps_walk ltac:(first [quiet_leaf|apply IH]).
Qed.
Lemma adds_hex_loop f a l i p : adds (D := D) 0 (write_hex_loop f a l i p).
Proof.
  revert i p. induction f as [|f IH]; intros i [|c0 [|c1 p]]; cbn [write_hex_loop]; try apply adds_skip.
  apply adds_if; [|apply adds_skip]. eapply adds_bind; [apply adds_wr|intros; apply IH|done].
Qed.
Lemma adds_bin_loop f a l i p : adds (D := D) 0 (write_bin_loop f a l i p).
Proof.
  revert i p. induction f as [|f IH]; intros i [|b p]; cbn [write_bin_loop]; try apply adds_skip.
  apply adds_if; [|apply adds_skip]. cbv zeta. apply adds_if.
  - eapply adds_bind; [apply adds_wr|intros; apply IH|done].
  - destruct (b =? ESC); [destruct p|]; (eapply adds_bind; [apply adds_wr|intros; apply IH|done]).
Qed.

Lemma silent_ok : steps silent (out_str (D := D) (bytes_of "OK")).
Proof. apply silent_str. Qed.

(** The commands other than [m]. *)
Definition is_m (cmd : list Z) : bool := znth cmd 0 =? chr "m".

Lemma silent_words l : steps silent (out_words (D := D) l).
Proof.
  induction l as [|v l IH]; cbn [out_words]; [steps_walk ltac:(quiet_leaf)|].
  apply steps_bind; [apply _| |by intros]. unfold out_word. steps_walk ltac:(apply silent_byte).
Qed.
Lemma adds_words l : adds (D := D) (8 * zlen l) (out_words l).
Proof.
  induction l as [|v l IH]; cbn [out_words]; [apply adds_skip|].
  eapply adds_bind; [apply adds_word|intros; apply IH|]. rewrite zlen_cons. lia.
Qed.

Lemma silent_read p : steps silent (read_memory (D := D) p).
Proof.
  apply steps_read_memory; [apply _|intros; apply quiet_rd; apply _|]. intros f Hf. apply silent_updR.
Qed.

Lemma parse_hex_nonneg p : 0 <= fst (parse_hex p).
Proof.
  unfold parse_hex. assert (∀ v, 0 <= v → 0 <= fst (parse_hex_from v p)) as H; [|by apply H].
  induction p as [|c p IH]; intros v Hv; cbn [parse_hex_from]; [done|].
  destruct (hexval c =? NOT_HEX) eqn:E; [done|]. apply IH.
  apply Z.lor_nonneg. split; [apply u32_range|]. destruct (hexval_range c) as [H|H]; [|lia].
  rewrite H in E. done.
Qed.

Lemma read_open p ack s :
  open_reply (D := D) ack [] s →
  ∃ body, open_reply ack body (snd (read_memory p s)) ∧ zlen body <= PACKET_SIZE.
Proof.
  intros [Ho Hb].
  destruct (parse_hex p) as [a q] eqn:Ep. destruct (parse_hex (skip_char (chr ",") q)) as [l q'] eqn:Eq.
  assert (zlen (out_of s) <= 2) as Ho2 by (rewrite Ho; by destruct ack).
  assert (0 <= l) as Hl by (pose proof (parse_hex_nonneg (skip_char (chr ",") q)) as H; by rewrite Eq in H).
  pose proof (read_memory_run p a l q q' s Ep Eq Hl Ho2) as Hd. unfold dumps in Hd. rewrite Hd.
  pose proof (read_bytes_rsp (Z.to_nat (read_len l)) a s) as Hr.
  destruct (read_bytes_ok (Z.to_nat (read_len l)) a s) as [_ Hn].
  destruct (read_bytes _ a s) as [bytes s1]. cbn [fst snd] in *.
  exists (hex_text bytes). split.
  - split; [|by cbn; rewrite Hr]. rewrite out_of_put. unfold out_of in *. rewrite Hr, Ho.
    destruct ack; done.
  - rewrite hex_text_len. unfold zlen. rewrite Hn. unfold read_len, PACKET_SIZE.
    change (0x2000 / 2) with 4096. lia.
Qed.

Lemma silent_bp_lookup a : steps silent (bp_lookup (D := D) a).
Proof. by intros s. Qed.
Lemma silent_breakpoint p : steps silent (handle_breakpoint (D := D) p).
Proof.
  unfold handle_breakpoint, bp_set, bp_clear, getR.
  steps_walk ltac:(first [quiet_leaf|apply silent_bp_lookup|apply silent_updR|apply silent_str]).
Qed.
Lemma adds_upd (f : rsp_st → rsp_st) :
  (∀ r, g_out (f r) = g_out r ∧ g_body_start (f r) = g_body_start r) → adds (D := D) 0 (updR f).
Proof. intros Hf. apply adds_quiet. intros s. apply Hf. Qed.
Lemma adds_breakpoint p : adds (D := D) PACKET_SIZE (handle_breakpoint p).
Proof.
  unfold handle_breakpoint. cbv zeta.
  destruct (drop 1 p) as [|t p']; [eapply adds_mono; [apply adds_skip|done]|].
  apply adds_if; [|eapply adds_mono; [apply adds_skip|done]].
  destruct (parse_hex _) as [a q].
  apply (adds_bind 0 3); [| |done].
  - apply adds_if.
    + unfold bp_set. apply (adds_bind 0 0); [by apply adds_quiet| |done]. intros found.
      destruct found; [apply adds_ret|].
      apply (adds_bind 0 0); [apply adds_getR| |done]. intros l.
      destruct (bp_free l 0); [|apply adds_ret].
      apply (adds_bind 0 0); [apply adds_rd| |done]. intros v.
      apply (adds_bind 0 0); [by apply adds_upd| |done]. intros _.
      apply (adds_bind 0 0); [apply adds_wr|intros; apply adds_ret|done].
    + unfold bp_clear. apply (adds_bind 0 0); [apply adds_getR| |done]. intros l.
      destruct (bp_find a l 0) as [[i v]|]; [|apply adds_ret].
      apply (adds_bind 0 0); [apply adds_wr| |done]. intros _.
      apply (adds_bind 0 0); [by apply adds_upd|intros; apply adds_ret|done].
  - intros ok. destruct ok; [eapply adds_mono; [apply adds_str|done]|apply (adds_str (bytes_of "E01"))].
Qed.

Lemma adds_command cmd : is_m cmd = false → adds (D := D) PACKET_SIZE (command cmd).
Proof.
  intros Hm. unfold command. cbv zeta. unfold is_m in Hm. rewrite Hm.
  assert (∀ l, zlen l <= PACKET_SIZE → adds (D := D) PACKET_SIZE (out_str l)) as Hstr
    by (intros l Hl; eapply adds_mono; [apply adds_str|done]).
  repeat lazymatch goal with |- adds _ (if _ then _ else _) => apply adds_if end.
  all: try lazymatch goal with |- adds _ (out_str _) => by apply Hstr end.
  - apply (adds_bind 0 3); [apply adds_getR| |done]. intros sig.
    apply (adds_bind 1 2); [apply adds_ch|intros; apply adds_byte|done].
  - unfold read_regs. apply (adds_bind 0 136); [apply adds_getR| |done].
    intros g. eapply adds_mono; [apply adds_words|done].
  - unfold write_regs. apply (adds_bind 0 2); [by apply adds_upd|intros; apply (adds_str (bytes_of "OK"))|done].
  - unfold write_memory_hex. destruct (parse_hex _) as [a q]. destruct (parse_hex _) as [l q'].
    apply (adds_bind 0 2); [apply adds_hex_loop|intros; apply (adds_str (bytes_of "OK"))|done].
  - unfold write_memory_bin. destruct (parse_hex _) as [a q]. destruct (parse_hex _) as [l q'].
    apply (adds_bind 0 2); [apply adds_bin_loop|intros; apply (adds_str (bytes_of "OK"))|done].
  - apply adds_query.
  - apply adds_when; [done|by apply Hstr].
  - apply adds_breakpoint.
  - eapply adds_mono; [apply adds_skip|done].
Qed.

Lemma command_m cmd : is_m cmd = true → command (D := D) cmd = read_memory (drop 1 cmd).
Proof. unfold is_m. intros Em%Z.eqb_eq. unfold command. cbv zeta. by rewrite Em. Qed.

Lemma command_open cmd s :
  open_reply (D := D) true [] s →
  ∃ body, open_reply true body (snd (command cmd s)) ∧ zlen body <= PACKET_SIZE.
Proof.
  intros Ho. destruct (is_m cmd) eqn:Em.
  - rewrite command_m by done. by apply read_open.
  - destruct (adds_open _ _ true [] s (adds_command cmd Em) Ho) as (l & H1 & H2). eauto.
Qed.

Lemma silent_command cmd : steps silent (command (D := D) cmd).
Proof.
  unfold command, read_regs, write_regs, write_memory_hex, write_memory_bin, getR.
  steps_walk ltac:(idtac; lazymatch goal with
    | |- steps _ (read_memory _) => apply silent_read
    | |- steps _ (handle_query _) => apply silent_query
    | |- steps _ (handle_breakpoint _) => apply silent_breakpoint
    | |- steps _ (out_words _) => apply silent_words
    | |- steps _ (write_hex_loop _ _ _ _ _) => apply silent_hex_loop
    | |- steps _ (write_bin_loop _ _ _ _ _) => apply silent_bin_loop
    | _ => silent_leaf end).
Qed.

(** What a command is answered with. *)
Definition answers (r : ctl) (msgs : list (list Z)) : Prop :=
  match r with Returned => replies msgs | Resumed => msgs = [[chr "+"]] end.

Definition answered (m : M St ctl) (s : St) : Prop :=
  ∃ msgs, sent (snd (m s)) = sent s ++ msgs ∧ answers (fst (m s)) msgs.

Lemma answered_silent {A} (m : M St A) (k : A → M St ctl) s :
  steps silent m → (∀ a s', answered (k a) s') → answered (m ≫= k) s.
Proof.
  intros Hm Hk. specialize (Hm s). unfold answered, mbind, M_bind. destruct (m s) as [a s1].
  destruct (Hk a s1) as (msgs & H1 & H2). exists msgs. unfold silent in Hm. cbn [snd] in Hm. by rewrite H1, Hm.
Qed.

Lemma answered_packet (m : M St unit) s :
  (∀ s, open_reply true [] s → ∃ body, open_reply true body (snd (m s)) ∧ zlen body <= PACKET_SIZE) →
  steps silent m → answered (out_begin;; m;; out_finish;; mret Returned) s.
Proof.
  intros Hm Hs. destruct (packet_around true m s Hm Hs) as (body & H & Hl).
  exists [frame true body]. unfold out_begin, mbind, M_bind in *.
  destruct (out_begin_ack true s) as [[] s1]. destruct (m s1) as [[] s2].
  destruct (out_finish s2) as [[] s3]. split; [exact H|].
  exists body, []. split; [done|]. by apply list.Forall_singleton.
Qed.
Lemma answered_adds n (m : M St unit) s :
  adds n m → steps silent m → n <= PACKET_SIZE → answered (out_begin;; m;; out_finish;; mret Returned) s.
Proof.
  intros Hm Hs Hn. apply answered_packet; [|done]. intros s1 Ho.
  destruct (adds_open n m true [] s1 Hm Ho) as (body & Ho2 & Hl). exists body. split; [done|lia].
Qed.

(** The acknowledgement of a resumption, then only silence. *)
Lemma sent_ack s : sent (snd (send_ack s)) = sent s ++ [[chr "+"]].
Proof.
  unfold send_ack. unfold mbind at 1, M_bind at 1.
  change (updR (set_g_out []) s) with (tt, set_st_rsp (set_g_out [] (st_rsp s)) s). cbv beta iota.
  unfold mbind, M_bind. rewrite prints_ch by done. cbv beta iota.
  unfold send_out, mbind, M_bind, getR, gets. cbv beta iota. unfold sent. rewrite wire_send. done.
Qed.
Lemma answered_resume (k : M St unit) s :
  steps silent k → answered (send_ack;; k;; mret Resumed) s.
Proof.
  intros Hk. exists [[chr "+"]]. pose proof (sent_ack s) as H. unfold mbind, M_bind.
  destruct (send_ack s) as [[] s1]. cbn [snd] in H. specialize (Hk s1). destruct (k s1) as [[] s2].
  split; [|done]. cbn in *. unfold silent in Hk. congruence.
Qed.

Lemma answered_eq (m m' : M St ctl) s : m s = m' s → answered m' s → answered m s.
Proof. unfold answered. by intros ->. Qed.
Lemma seq_assoc3 {A} (a b c : M St unit) (k : M St A) s :
  (a;; b;; c;; k) s = (a;; (b;; c);; k) s.
Proof. unfold mbind, M_bind. destruct (a s) as [[] s1]. by destruct (b s1) as [[] s2]. Qed.
Lemma seq_assoc_resume (a b d : M St unit) {B} (g : M St B) (c : B → M St unit) s :
  (a;; b;; x ← g; c x;; d;; mret Resumed) s = (a;; (b;; x ← g; c x;; d);; mret Resumed) s.
Proof.
  unfold mbind, M_bind. destruct (a s) as [[] s1]. destruct (b s1) as [[] s2].
  destruct (g s2) as [x s3]. by destruct (c x s3) as [[] s4].
Qed.
Lemma seq_skip (a : M St unit) s : (a;; mret Resumed) s = (a;; skip;; mret Resumed) s.
Proof. unfold mbind, M_bind. by destruct (a s) as [[] s1]. Qed.
Lemma seq_skip2 (a c : M St unit) (k : M St ctl) s : (a;; c;; k) s = (a;; skip;; c;; k) s.
Proof. unfold mbind, M_bind. by destruct (a s) as [[] s1]. Qed.

Lemma answered_do_resume p s : answered (resume p) s.
Proof.
  unfold resume. apply answered_silent; [steps_walk ltac:(idtac; silent_leaf)|intros [] s1].
  eapply answered_eq; [apply seq_assoc_resume|]. apply answered_resume.
  unfold getR. steps_walk ltac:(quiet_leaf).
Qed.

Lemma answered_trap_now s :
  answered (out_begin;; out_ch (chr "S");; out_byte (u8 SIG_TRAP);; out_finish;; mret Returned) s.
Proof.
  eapply answered_eq; [apply seq_assoc3|]. apply (answered_adds 3); [| |done].
  - apply (adds_bind 1 2); [apply adds_ch|intros; apply adds_byte|done].
  - steps_walk ltac:(idtac; silent_leaf).
Qed.

Lemma silent_next_pc : steps silent (arm_next_pc (D := D)).
Proof. unfold arm_next_pc, load32, getR. steps_walk ltac:(quiet_leaf). Qed.

Lemma answered_step s : answered do_step s.
Proof.
  unfold do_step. apply answered_silent; [apply silent_next_pc|].
  intros [next|] s1.
  2: { apply (answered_adds 3); [apply (adds_str (bytes_of "E01"))|apply silent_str|done]. }
  apply answered_silent; [apply steps_gets; apply _|]. intros g s2.
  destruct (next =? r_pc g); [apply answered_trap_now|].
  apply answered_silent; [apply silent_bp_lookup|]. intros found s3.
  do 4 (apply answered_silent; [steps_walk ltac:(idtac; silent_leaf)|intros [] ?]).
  unfold rsp_resume_here. eapply answered_eq; [apply seq_skip|]. apply answered_resume, steps_skip. apply _.
Qed.

(** C2: every command is answered, exactly once.  Whatever the bytes of the
    command, the stub sends at least one packet, of which the first and no
    other acknowledges the command, all well formed with a correct checksum
    and a body within the advertised packet size; or it resumes the target
    after a bare acknowledgement.  No reply is cut by the reply buffer. *)
Theorem dispatch_answers (s : St) : answered dispatch s.
Proof.
  unfold dispatch. apply answered_silent; [unfold getR; steps_walk ltac:(quiet_leaf)|]. intros cmd s1.
  apply answered_silent; [unfold trace_cmd, getR; steps_walk ltac:(idtac; silent_leaf)|]. intros [] s2.
  assert (∀ s, answered (dispatch_packet cmd) s) as Hp.
  { intros s3. unfold dispatch_packet. cbv zeta. destruct (nonzero _).
    - destruct (sent_monitor (drop (Z.to_nat (prefix cmd (bytes_of "qRcmd,"))) cmd) s3) as (msgs & H1 & H2).
      exists msgs. unfold mbind, M_bind. by destruct (handle_monitor _ s3) as [[] s4].
    - apply answered_packet; [apply command_open|apply silent_command]. }
  cbv zeta. destruct (negb _).
  { eapply answered_eq; [apply seq_skip2|].
    apply (answered_adds 0); [apply adds_skip|apply steps_skip; apply _|done]. }
  destruct (_ || _); [apply answered_do_resume|].
  destruct (_ && _); [apply answered_step|].
  destruct (nonzero _); [|apply Hp].
  destruct (_ || _); [apply answered_do_resume|].
  destruct (_ || _); [apply answered_step|apply Hp].
Qed.
End answers.

(** ** Witnesses: the theorems at concrete states *)

#[local] Existing Instance null_device.
#[local] Existing Instance null_transport.

Definition example_feed : stub unit :=
  example_stub tt ∅ example_musb (rsp_st0 (example_regs 0x30000100 0x13)).

Lemma packet_delivery_witness :
  rsp_feed ([3] ++ frame false (bytes_of "m30000000,4")) example_feed =
    dispatch (received (bytes_of "m30000000,4")
      (hexdigit (checksum (bytes_of "m30000000,4") .>> 4)) example_feed).
Proof.
  destruct (packet_delivery [3] (bytes_of "m30000000,4") 0 0 example_feed eq_refl) as [H _];
    [by repeat constructor|by repeat constructor|done|exact H].
Defined.
