(* ===== verification/Gdbstub.v ===== *)
(** * Gdbstub: the image ([src/baremetal/gdbstub/main.c], [rsp_trapped])

    The packet parser is connected to the USB driver: the driver's poll feeds
    the parser, and the parser sends through the driver.  [gstep] is the whole
    system: the polling loop of [gdbstub_main], the one of [rsp_trapped], and
    the target program between a resumption and a trap.  The invariant of the
    statics of all files holds in every reachable state, and no single-step
    breakpoint is planted while the stub polls. *)
From S2P Require Import Prelude Machine GdbState Trace Step Musb Packet Memory Breakpoint Dispatch.

Definition REPORT_INTERVAL : Z := 0x00200000.
Definition REPORT_LIMIT : Z := 40.

(** The local variables of [gdbstub_main]. *)
Record main_vars := MainVars { ticks : Z; reports : Z; last_activity : Z }.
Definition main_vars0 : main_vars := MainVars 0 0 0xFFFFFFFF.

Section Main.
Context {D : Type} `{!Device D}.
Abbreviation St := (stub D).

(** [musb_poll()] of the image. *)
Definition poll : M St ctl := musb_poll rsp_feed.

(** [gdbstub_main] up to its loop.  [cpsr] and [sp] are the processor's. *)
Definition main_init (cpsr sp bp_undef bp_pabort bp_dabort : Z) : M St unit :=
  trace_init;;
  trace_puts (bytes_of "aipc gdbstub stage 2" ++ [10]);;
  trace_reg (bytes_of "cpsr") cpsr;;
  trace_reg (bytes_of "sp") sp;;
  bp_install bp_undef bp_pabort bp_dabort;;
  musb_init;;
  trace_puts (bytes_of "musb up, polling" ++ [10]).

(** One iteration of its loop. *)
Definition main_step (v : main_vars) : M St (ctl * main_vars) :=
  r ← poll;
  match r with
  | Resumed => mret (Resumed, v)
  | Returned =>
      let t := u32 (ticks v + 1) in
      if REPORT_INTERVAL <=? t then
        activity ← musb_activity;
        if negb (activity =? last_activity v) && (reports v <? REPORT_LIMIT) then
          musb_report;;
          mret (Returned, MainVars 0 (u32 (reports v + 1)) activity)
        else mret (Returned, MainVars 0 (reports v) (last_activity v))
      else mret (Returned, MainVars t (reports v) (last_activity v))
  end.

(** What the exception entry of bp.S stores in [g_regs], then [rsp_trapped] up
    to its loop. *)
Definition trap (g : arm_regs) (sig : Z) : M St unit :=
  updR (set_g_regs g);;
  rsp_trapped_stop sig.

(** The image, polling in [gdbstub_main] or in [rsp_trapped], or the target. *)
Inductive gmode := Polling (v : main_vars) | Trapped | Running.

Inductive gstep : gmode * St → gmode * St → Prop :=
  | g_main v v' s s' :
      main_step v s = (Returned, v', s') → gstep (Polling v, s) (Polling v', s')
  | g_main_resume v v' s s' :
      main_step v s = (Resumed, v', s') → gstep (Polling v, s) (Running, s')
  | g_trapped s s' : poll s = (Returned, s') → gstep (Trapped, s) (Trapped, s')
  | g_trapped_resume s s' : poll s = (Resumed, s') → gstep (Trapped, s) (Running, s')
  | g_target m s : gstep (Running, s) (Running, set_st_mach m s)
  | g_trap g sig s :
      length (r_low g) = 13%nat → sig ∈ [SIG_ILL; SIG_SEGV; SIG_BUS] →
      gstep (Running, s) (Trapped, snd (trap g sig s)).

Inductive greach : gmode * St → Prop :=
  | g_init cpsr sp u p d m t g :
      length (r_low g) = 13%nat →
      greach (Polling main_vars0,
              snd (main_init cpsr sp u p d (Stub m t musb_st0 (rsp_st0 g))))
  | g_step c c' : greach c → gstep c c' → greach c'.

(** ** The invariant *)

(** Bounds of the arrays of rsp.c. *)
Definition rsp_ok (r : rsp_st) : Prop :=
  length (g_bp r) = 16%nat ∧ length (r_low (g_regs r)) = 13%nat ∧
  zlen (g_cmd r) <= CMD_SIZE ∧ zlen (g_out r) <= OUT_SIZE.

Definition stub_ok (s : St) : Prop := musb_ok (st_musb s) ∧ rsp_ok (st_rsp s) ∧ trace_ok s.
Definition safe (s s' : St) : Prop := stub_ok s → stub_ok s'.

#[export] Instance safe_preorder : PreOrder safe.
Proof. split; [by intros s ?|]. intros s1 s2 s3 H12 H23 H. by apply H23, H12. Qed.

Lemma safe_rd w a : steps safe (rd (S := St) w a).
Proof. apply steps_rd. by intros m s ?. Qed.
Lemma safe_wr w a v : steps safe (wr (S := St) w a v).
Proof. apply steps_wr. by intros m s ?. Qed.
Lemma safe_updR f : (∀ r, rsp_ok r → rsp_ok (f r)) → steps safe (updR (D := D) f).
Proof. intros Hf s (Hu & Hr & Ht). split; [done|]. split; [by apply Hf|done]. Qed.
Lemma safe_logs {A} (m : M St A) : steps logs m → steps safe m.
Proof.
  intros Hm s (Hu & Hr & Ht). destruct (Hm s Ht) as (Ht' & _ & Hu' & Hr' & _).
  unfold stub_ok. by rewrite Hu', Hr'.
Qed.
Lemma safe_bulk_send al data : steps safe (bulk_send (D := D) al data).
Proof.
  intros s (Hu & Hr & Ht). destruct (bulk_send_frame al data s) as (Hr' & Ht' & _).
  split; [by apply (keeps_bulk_send al data s)|]. unfold trace_ok. by rewrite Hr', Ht'.
Qed.

Ltac safe_leaf :=
  lazymatch goal with
  | |- steps _ (updR _) =>
      apply safe_updR; intros ? (? & ? & ? & ?); unfold rsp_ok; cbn; split_and!; try assumption; try done
  | |- steps _ (rd _ _) => apply safe_rd
  | |- steps _ (wr _ _ _) => apply safe_wr
  | |- steps _ (bulk_send _ _) => apply safe_bulk_send
  | |- steps _ (trace_puts _) => apply safe_logs, steps_logs_puts
  | |- steps _ (trace_hex _ _) => apply safe_logs, steps_logs_hex
  | |- steps _ (trace_dec _) => apply safe_logs, steps_logs_dec
  | |- steps _ (trace_reg _ _) => apply safe_logs, steps_logs_reg
  | |- steps _ skip => apply steps_skip; apply _
  | |- steps _ (mret _) => apply steps_ret; apply _
  | |- steps _ (gets _) => apply steps_gets; apply _
  | |- steps _ (getR _) => apply steps_gets; apply _
  | |- steps _ (getT _) => apply steps_gets; apply _
  end.

Ltac safe_walk tac := unfold getR, getT; steps_walk ltac:(idtac; first [tac | safe_leaf]).

Lemma safe_out_ch c : steps safe (out_ch c).
Proof.
  intros s (Hu & (Hb & Hg & Hc & Ho) & Ht). unfold out_ch, getR, gets, mbind, M_bind, when.
  destruct (zlen (g_out (st_rsp s)) <? OUT_SIZE) eqn:E; [|done].
  split; [exact Hu|]. split; [|exact Ht]. split; [exact Hb|]. split; [exact Hg|]. split; [exact Hc|].
  cbn. rewrite zlen_app. change (zlen [u8 c]) with 1. lia.
Qed.
Lemma safe_out_str l : steps safe (out_str l).
Proof. induction l; cbn [out_str]; safe_walk ltac:(first [apply safe_out_ch|assumption]). Qed.
Lemma safe_out_byte b : steps safe (out_byte b).
Proof. unfold out_byte. safe_walk ltac:(apply safe_out_ch). Qed.
Lemma safe_out_hex v : steps safe (out_hex v).
Proof.
  unfold out_hex. generalize (hex_skip 7 v). intros n.
  induction n; cbn [out_hex_from]; safe_walk ltac:(first [apply safe_out_ch|assumption]).
Qed.
Lemma safe_begin ack : steps safe (out_begin_ack ack).
Proof. unfold out_begin_ack. safe_walk ltac:(apply safe_out_ch). Qed.
Lemma safe_send : steps safe send_out.
Proof. unfold send_out. safe_walk fail. Qed.
Lemma safe_finish : steps safe out_finish.
Proof.
  unfold out_finish. safe_walk ltac:(first [apply safe_out_ch|apply safe_out_byte|apply safe_send]).
Qed.

Ltac out_leaf :=
  idtac; lazymatch goal with
  | |- steps _ (out_ch _) => apply safe_out_ch
  | |- steps _ (out_str _) => apply safe_out_str
  | |- steps _ (out_byte _) => apply safe_out_byte
  | |- steps _ (out_hex _) => apply safe_out_hex
  | |- steps _ (out_begin_ack _) => apply safe_begin
  | |- steps _ out_begin => apply safe_begin
  | |- steps _ out_finish => apply safe_finish
  | |- steps _ send_out => apply safe_send
  end.

Lemma safe_query p : steps safe (handle_query p).
Proof. unfold handle_query. cbv zeta. safe_walk ltac:(out_leaf). Qed.
Lemma safe_text l ack : steps safe (send_text l ack).
Proof.
  unfold send_text. assert (∀ l, steps safe (out_text (D := D) l)) as H
    by (clear l; induction l; cbn [out_text]; safe_walk ltac:(first [out_leaf|assumption])).
  safe_walk ltac:(first [out_leaf|apply H]).
Qed.
Lemma safe_region base len : steps safe (send_region base len).
Proof.
  unfold send_region.
  assert (∀ f off ack, steps safe (send_chunks (D := D) f base off len ack)) as H.
  { intros f. induction f as [|f IH]; intros off ack; cbn [send_chunks]; unfold send_output;
      safe_walk ltac:(first [out_leaf|apply IH]). }
  safe_walk ltac:(first [out_leaf|apply H]).
Qed.
Lemma safe_mon_str l : steps safe (mon_str l).
Proof. induction l; cbn [mon_str]; unfold mon_ch; safe_walk ltac:(first [out_leaf|assumption]). Qed.
Lemma safe_mon_word v : steps safe (mon_word v).
Proof.
  unfold mon_word. assert (∀ k, steps safe (mon_digits (D := D) k v)) as H
    by (intros k; induction k; cbn [mon_digits]; unfold mon_ch; safe_walk ltac:(first [out_leaf|assumption])).
  safe_walk ltac:(first [apply H|apply safe_mon_str]).
Qed.
Lemma safe_monitor p : steps safe (handle_monitor p).
Proof.
  unfold handle_monitor, monitor_md32, mon_dec, mon_ch, trace_used, trace_prev_used. cbv zeta.
  safe_walk ltac:(first [out_leaf|apply safe_text|apply safe_region|apply safe_mon_str|apply safe_mon_word]).
Qed.

(** The reply buffer is all that reading memory changes of the statics. *)
Definition out_only (s s' : St) : Prop :=
  (∃ l, st_rsp s' = set_g_out l (st_rsp s)) ∧ st_musb s' = st_musb s ∧ st_trace s' = st_trace s.

#[export] Instance out_only_preorder : PreOrder out_only.
Proof.
  split.
  - intros s. split; [|done]. exists (g_out (st_rsp s)). by destruct s as [? ? ? []].
  - intros s1 s2 s3 ([l1 H1] & H2 & H3) ([l2 H4] & H5 & H6). split; [|split; congruence].
    exists l2. by rewrite H4, H1.
Qed.

Lemma out_only_rd w a : steps out_only (rd (S := St) w a).
Proof.
  apply steps_rd. intros m s. split; [|done]. exists (g_out (st_rsp s)). by destruct s as [? ? ? []].
Qed.
Lemma out_only_upd f : (∀ r, ∃ l, f r = set_g_out l r) → steps out_only (updR (D := D) f).
Proof. intros Hf s. split; [apply Hf|done]. Qed.
Lemma read_memory_out_only p : steps out_only (read_memory p).
Proof. apply steps_read_memory; [apply _|intros; apply out_only_rd|apply out_only_upd]. Qed.

(** Under an open reply the read fits the buffer ([read_open]). *)
Lemma safe_read_memory p s :
  stub_ok s → open_reply true [] s → stub_ok (snd (read_memory p s)).
Proof.
  intros (Hu & (Hb & Hg & Hc & _) & Ht) Ho.
  destruct (read_open p true s Ho) as (body & [Ho' _] & Hl).
  destruct (read_memory_out_only p s) as ([l Hr] & Hu' & Ht').
  unfold stub_ok, rsp_ok, trace_ok. rewrite Hu', Ht'. unfold out_of in Ho'. rewrite Ho', Hr.
  split; [done|]. split; [|done]. split; [done|]. split; [done|]. split; [done|].
  unfold zlen, OUT_SIZE, PACKET_SIZE in *. cbn [length app]. lia.
Qed.

Lemma parse_regs_length n p : length (parse_regs n p) = n.
Proof.
  revert p. induction n as [|n IH]; intros p; cbn [parse_regs]; [done|].
  destruct (parse_reg 4 0 0 p). cbn. by rewrite IH.
Qed.
Lemma safe_regs p : length (r_low (regs_of_list (parse_regs 17 p))) = 13%nat.
Proof. cbn [regs_of_list r_low]. by rewrite length_take, parse_regs_length. Qed.

Lemma safe_command cmd : is_m cmd = false → steps safe (command cmd).
Proof.
  intros Hm. unfold is_m in Hm. unfold command. cbv zeta. rewrite Hm.
  assert (∀ l, steps safe (out_words (D := D) l)) as Hw
    by (induction l; cbn [out_words]; unfold out_word; safe_walk ltac:(first [out_leaf|assumption])).
  assert (∀ f a l i p, steps safe (write_hex_loop (D := D) f a l i p)) as Hh.
  { intros f. induction f as [|f IH]; intros a l i [|c0 [|c1 p]]; cbn [write_hex_loop];
      safe_walk ltac:(apply IH). }
  assert (∀ f a l i p, steps safe (write_bin_loop (D := D) f a l i p)) as Hx.
  { intros f. induction f as [|f IH]; intros a l i [|b p]; cbn [write_bin_loop]; cbv zeta;
      safe_walk ltac:(apply IH). }
  unfold read_regs, write_regs, write_memory_hex, write_memory_bin, handle_breakpoint, bp_set, bp_clear, bp_lookup.
  safe_walk ltac:(idtac; lazymatch goal with
    | |- steps _ (out_words _) => apply Hw
    | |- steps _ (write_hex_loop _ _ _ _ _) => apply Hh
    | |- steps _ (write_bin_loop _ _ _ _ _) => apply Hx
    | |- steps _ (handle_query _) => apply safe_query
    | |- steps _ (updR (set_g_regs _)) => apply safe_updR; intros ? (? & _ & ?); split; [done|]; split; [apply safe_regs|done]
    | |- steps _ (updR (λ _, set_g_bp _ _)) =>
        apply safe_updR; intros ? (? & ?); unfold rsp_ok; cbn; rewrite length_insert; by split
    | _ => out_leaf end).
Qed.

Lemma safe_dispatch_packet cmd : steps safe (dispatch_packet cmd).
Proof.
  unfold dispatch_packet. cbv zeta. destruct (nonzero _); [safe_walk ltac:(apply safe_monitor)|].
  destruct (is_m cmd) eqn:Em; [|safe_walk ltac:(first [out_leaf|by apply safe_command])].
  intros s Hs. rewrite command_m by done. unfold out_begin, mbind, M_bind.
  pose proof (safe_begin true s Hs) as Hs1. pose proof (out_begin_open true s) as Ho.
  destruct (out_begin_ack true s) as [[] s1]. cbn [snd] in *.
  pose proof (safe_read_memory (drop 1 cmd) s1 Hs1 Ho) as Hs2.
  destruct (read_memory _ s1) as [[] s2]. pose proof (safe_finish s2 Hs2) as Hs3.
  by destruct (out_finish s2) as [[] s3].
Qed.

Lemma safe_resume p : steps safe (resume p).
Proof.
  unfold resume, send_ack. safe_walk ltac:(first [out_leaf
    |lazymatch goal with |- steps _ (updR (set_g_out _)) => idtac end;
     apply safe_updR; intros ? (? & ? & ? & ?); by split_and!
    |lazymatch goal with |- steps _ (updR _) => idtac end;
     apply safe_updR; intros ? (? & ? & ? & ?); by split_and!]).
Qed.

Lemma safe_step : steps safe do_step.
Proof.
  unfold do_step, rsp_resume_here, send_ack, bp_lookup.
  assert (steps safe (arm_next_pc (D := D))) as Hn
    by (unfold arm_next_pc, load32; safe_walk fail).
  safe_walk ltac:(first [apply Hn|out_leaf
    |lazymatch goal with |- steps _ (updR _) => idtac end;
     apply safe_updR; intros ? (? & ? & ? & ?); by split_and!]).
Qed.

Lemma safe_dispatch : steps safe dispatch.
Proof.
  unfold dispatch, trace_cmd. cbv zeta.
  safe_walk ltac:(first [apply safe_resume|apply safe_step|apply safe_dispatch_packet|out_leaf]).
Qed.

(** The framing automaton. *)
Lemma safe_feed_byte c : steps safe (feed_byte c).
Proof. unfold feed_byte. safe_walk ltac:(first [out_leaf|apply safe_dispatch]). Qed.

Lemma safe_feed1 c : steps safe (feed1 c).
Proof.
  intros s Hs. destruct (decide (g_state (st_rsp s) = ST_BODY)) as [Hst|Hst].
  2: { rewrite feed1_other by done. by apply safe_feed_byte. }
  rewrite <-(with_body_id s), Hst, feed1_body.
  destruct Hs as (Hu & (Hb & Hg & Hc & Ho) & Ht).
  destruct (c =? chr "#"); [done|]. destruct (CMD_SIZE <=? zlen _) eqn:E; [by apply safe_feed_byte|].
  split; [done|]. split; [|done]. split; [done|]. split; [done|]. split; [|done].
  cbn. rewrite zlen_app. change (zlen [c]) with 1. lia.
Qed.

Lemma safe_feed l : steps safe (rsp_feed l).
Proof.
  intros s. rewrite rsp_feed_eq. revert s. change (steps safe (feed_all (D := D) l)).
  induction l as [|c l IH]; cbn [feed_all]; [safe_walk fail|].
  safe_walk ltac:(first [apply safe_feed1|exact IH]).
Qed.

(** *** The driver leaves the protocol layer alone *)

Definition driver_frame (s s' : St) : Prop :=
  st_rsp s' = st_rsp s ∧ (trace_ok s → trace_ok s').
#[export] Instance driver_frame_preorder : PreOrder driver_frame.
Proof. split; [done|]. intros s1 s2 s3 [H1 H2] [H3 H4]. split; [congruence|auto]. Qed.

Definition same_rsp (s s' : St) : Prop := st_rsp s' = st_rsp s.
#[export] Instance same_rsp_quiet : Quiet same_rsp.
Proof. apply quiet_intro; [split; [done|intros ? ? ? H1 H2; unfold same_rsp in *; congruence]|done..]. Qed.
Lemma frame_logs {A} (m : M St A) : steps same_rsp m → steps logs m → steps driver_frame m.
Proof. intros Hr Hm s. split; [apply Hr|]. intros Ht. by destruct (Hm s Ht). Qed.
Lemma frame_rd w a : steps driver_frame (rd (S := St) w a).
Proof. apply steps_rd. by intros m s. Qed.
Lemma frame_wr w a v : steps driver_frame (wr (S := St) w a v).
Proof. apply steps_wr. by intros m s. Qed.

Ltac frame_leaf :=
  idtac; lazymatch goal with
  | |- steps _ (updU _) => intros ?; split; [done|by intros]
  | |- steps _ (rd _ _) => apply frame_rd
  | |- steps _ (wr _ _ _) => apply frame_wr
  | |- steps _ (rmw _ _ _) => apply steps_bind; [apply _|apply frame_rd|intros; apply frame_wr]
  | |- steps _ (trace_puts _) => apply frame_logs; [apply (quiet_puts same_rsp)|apply steps_logs_puts]
  | |- steps _ (trace_hex _ _) => apply frame_logs; [apply (quiet_hex same_rsp)|apply steps_logs_hex]
  | |- steps _ (trace_dec _) => apply frame_logs; [apply (quiet_dec same_rsp)|apply steps_logs_dec]
  | |- steps _ (trace_reg _ _) => apply frame_logs; [apply (quiet_reg same_rsp)|apply steps_logs_reg]
  | |- steps _ skip => apply steps_skip; apply _
  | |- steps _ (mret _) => apply steps_ret; apply _
  | |- steps _ (gets _) => apply steps_gets; apply _
  | |- steps _ (getU _) => apply steps_gets; apply _
  end.

Lemma frame_send_chunk : steps driver_frame ep0_send_chunk.
Proof.
  unfold ep0_send_chunk, ep0_packet, ep0_trace_chunk, for_words. cbv zeta. steps_walk ltac:(frame_leaf).
Qed.
Lemma frame_queue d l w : steps driver_frame (ep0_queue d l w).
Proof.
  unfold ep0_queue, ep0_fill, ep0_start. cbv zeta. steps_walk ltac:(first [apply frame_send_chunk|frame_leaf]).
Qed.
Lemma frame_queue_config t m w : steps driver_frame (ep0_queue_config t m w).
Proof.
  unfold ep0_queue_config, ep0_fill, ep0_start. cbv zeta.
  steps_walk ltac:(first [apply frame_send_chunk|frame_leaf]).
Qed.
Lemma frame_setup : steps driver_frame handle_setup.
Proof.
  unfold handle_setup, get_descriptor, handle_class_setup, ep0_expect_out, ep0_status, ep0_stall, traceable.
  cbv zeta. steps_walk ltac:(idtac; lazymatch goal with
    | |- steps _ (ep0_queue _ _ _) => apply frame_queue
    | |- steps _ (ep0_queue_config _ _ _) => apply frame_queue_config
    | _ => frame_leaf end).
Qed.
Lemma frame_ep0_out : steps driver_frame handle_ep0_out.
Proof.
  unfold handle_ep0_out. cbv zeta.
  assert (∀ n i, steps driver_frame (line_coding_loop (D := D) n i)) as H.
  { intros n. induction n as [|n IH]; intros i; cbn [line_coding_loop]; steps_walk ltac:(first [apply IH|frame_leaf]). }
  steps_walk ltac:(first [apply H|frame_leaf]).
Qed.
Lemma frame_poll_ep0 : steps driver_frame poll_ep0.
Proof.
  unfold poll_ep0, bump_events, traceable. cbv zeta.
  steps_walk ltac:(first [frame_leaf|apply frame_send_chunk|apply frame_ep0_out|apply frame_setup]).
Qed.

Lemma frame_bus_reset : steps driver_frame handle_bus_reset.
Proof.
  unfold handle_bus_reset, latch_speed, configure_endpoint, traceable. cbv zeta. steps_walk ltac:(frame_leaf).
Qed.

Lemma safe_driver {A} (m : M St A) : steps keeps_musb m → steps driver_frame m → steps safe m.
Proof.
  intros Hk Hf s (Hu & Hr & Ht). destruct (Hf s) as [Hr' Ht'].
  split; [by apply (Hk s)|]. rewrite Hr'. split; [done|by apply Ht'].
Qed.

(** ** Every poll keeps the invariant *)

Lemma safe_init cpsr sp u p d :
  ∀ s, musb_ok (st_musb s) → rsp_ok (st_rsp s) → stub_ok (snd (main_init cpsr sp u p d s)).
Proof.
  intros s Hu Hr. unfold main_init, mbind at 1, M_bind at 1.
  destruct (trace_init_spec s) as (_ & _ & Hu' & Hr' & Ht').
  assert (stub_ok (snd (trace_init s))) as Hs.
  { split; [by rewrite Hu'|]. split; [by rewrite Hr'|]. unfold trace_ok. rewrite Ht'. cbn.
    unfold TRACE_BASE, TRACE_SIZE. lia. }
  clear -Hs. destruct (trace_init s) as [[] s1]. cbn [snd] in Hs. revert s1 Hs.
  match goal with |- ∀ s1, _ → stub_ok (snd (?m s1)) => change (steps safe m) end.
  assert (steps safe (musb_init (D := D))) as Hi.
  { apply safe_driver; [apply keeps_musb_init|]. unfold musb_init, latch_speed. cbv zeta.
    steps_walk ltac:(frame_leaf). }
  unfold bp_install. safe_walk ltac:(apply Hi).
Qed.

Lemma safe_poll : steps safe poll.
Proof.
  unfold poll, musb_poll, poll_bulk_out, handle_bulk_out.
  assert (steps safe (bump_events (D := D))) as Hb
    by (apply safe_driver; [apply keeps_bump|unfold bump_events; frame_leaf]).
  assert (∀ n i, 0 <= i → i + 4 * Z.of_nat n <= BULK_MAXP_HS → steps safe (rx_words (D := D) n i)) as Hx.
  { intros n i Hi Hn. apply safe_driver; [by apply keeps_rx_words|]. clear Hi Hn. revert i.
    induction n as [|n IH]; intros i; cbn [rx_words]; steps_walk ltac:(first [apply IH|frame_leaf]). }
  safe_walk ltac:(idtac; lazymatch goal with
    | |- steps _ bump_events => apply Hb
    | |- steps _ (rx_words _ _) => apply Hx; [done|apply rx_count_fits]
    | |- steps _ (getU _) => apply steps_gets; apply _
    | |- steps _ (rsp_feed _) => apply safe_feed
    | |- steps _ handle_bus_reset => apply safe_driver; [apply keeps_bus_reset|apply frame_bus_reset]
    | |- steps _ poll_ep0 => apply safe_driver; [apply keeps_poll_ep0|apply frame_poll_ep0]
    | |- steps _ (updU _) => apply safe_driver; [apply keeps_stat_out|frame_leaf]
    | |- steps _ (rmw _ _ _) => apply steps_bind; [apply _|apply safe_rd|intros; apply safe_wr]
    | |- steps _ poll_bulk_in => unfold poll_bulk_in; safe_walk ltac:(apply Hb)
    end).
Qed.

Lemma safe_main v : steps safe (main_step v).
Proof.
  unfold main_step, musb_activity, poll. fold poll. cbv zeta.
  assert (steps safe (musb_report (D := D))) as Hr.
  { apply safe_driver; [apply keeps_report|]. unfold musb_report. cbv zeta. steps_walk ltac:(frame_leaf). }
  safe_walk ltac:(first [apply safe_poll|apply Hr]).
Qed.

Lemma safe_trap g sig : length (r_low g) = 13%nat → steps safe (trap g sig).
Proof.
  intros Hg. unfold trap, rsp_trapped_stop, bp_lookup. cbv zeta.
  safe_walk ltac:(first [out_leaf
    |lazymatch goal with |- steps _ (updR _) => idtac end;
     apply safe_updR; intros ? (? & ? & ? & ?); by split_and!]).
Qed.

(** ** No step breakpoint while the stub polls *)

Definition same_step (s s' : St) : Prop := g_step_active (st_rsp s') = g_step_active (st_rsp s).
#[export] Instance same_step_quiet : Quiet same_step.
Proof.
  apply quiet_intro; [split; [done|intros ? ? ? H1 H2; unfold same_step in *; congruence]|done..].
Qed.

Ltac step_leaf :=
  idtac; lazymatch goal with
  | |- steps _ (updR _) => intros ?; done
  | |- steps _ (updU _) => intros ?; done
  | |- steps _ (bulk_send ?a ?l) =>
      intros s0; destruct (bulk_send_frame a l s0) as (Hframe & _); unfold same_step; by rewrite Hframe
  | |- _ => quiet_leaf
  end.
Ltac step_walk tac := unfold getR, getT; steps_walk ltac:(idtac; first [tac | step_leaf]).

Lemma step_out_ch c : steps same_step (out_ch c).
Proof. unfold out_ch. step_walk fail. Qed.
Lemma step_out_byte b : steps same_step (out_byte b).
Proof. unfold out_byte. step_walk ltac:(apply step_out_ch). Qed.
Lemma step_out_str l : steps same_step (out_str l).
Proof. induction l; cbn [out_str]; step_walk ltac:(first [apply step_out_ch|assumption]). Qed.
Lemma step_mon_str l : steps same_step (mon_str l).
Proof. induction l; cbn [mon_str]; unfold mon_ch; step_walk ltac:(first [apply step_out_byte|assumption]). Qed.
Lemma step_begin ack : steps same_step (out_begin_ack ack).
Proof. unfold out_begin_ack. step_walk ltac:(apply step_out_ch). Qed.
Lemma step_finish : steps same_step out_finish.
Proof. unfold out_finish, send_out. step_walk ltac:(first [apply step_out_ch|apply step_out_byte]). Qed.

Ltac step_out_leaf :=
  idtac; lazymatch goal with
  | |- steps _ (out_ch _) => apply step_out_ch
  | |- steps _ (out_str _) => apply step_out_str
  | |- steps _ (out_byte _) => apply step_out_byte
  | |- steps _ (mon_str _) => apply step_mon_str
  | |- steps _ (out_begin_ack _) => apply step_begin
  | |- steps _ out_begin => apply step_begin
  | |- steps _ out_finish => apply step_finish
  end.

Lemma step_monitor p : steps same_step (handle_monitor p).
Proof.
  assert (∀ k v, steps same_step (mon_digits (D := D) k v)) as Hd
    by (intros k v; induction k; cbn [mon_digits]; unfold mon_ch; step_walk ltac:(first [step_out_leaf|assumption])).
  assert (∀ l ack, steps same_step (send_text (D := D) l ack)) as Ht.
  { intros l ack. unfold send_text.
    assert (steps same_step (out_text (D := D) l)) as H
      by (induction l; cbn [out_text]; step_walk ltac:(first [step_out_leaf|assumption])).
    step_walk ltac:(first [step_out_leaf|apply H]). }
  assert (∀ f b o l ack, steps same_step (send_chunks (D := D) f b o l ack)) as Hc.
  { intros f b o l. revert o. induction f as [|f IH]; intros o ack; cbn [send_chunks]; unfold send_output;
      step_walk ltac:(first [step_out_leaf|apply IH]). }
  unfold handle_monitor, monitor_md32, mon_dec, mon_word, mon_ch, trace_used, trace_prev_used, send_region. cbv zeta.
  step_walk ltac:(idtac; lazymatch goal with
    | |- steps _ (mon_digits _ _) => apply Hd
    | |- steps _ (send_text _ _) => apply Ht
    | |- steps _ (send_chunks _ _ _ _ _) => apply Hc
    | _ => step_out_leaf end).
Qed.

Lemma step_command cmd : steps same_step (command cmd).
Proof.
  unfold command. cbv zeta.
  assert (∀ l, steps same_step (out_words (D := D) l)) as Hw
    by (induction l; cbn [out_words]; unfold out_word; step_walk ltac:(first [step_out_leaf|assumption])).
  assert (∀ f a l i p, steps same_step (write_hex_loop (D := D) f a l i p)) as Hh.
  { intros f. induction f as [|f IH]; intros a l i [|c0 [|c1 p]]; cbn [write_hex_loop]; step_walk ltac:(apply IH). }
  assert (∀ f a l i p, steps same_step (write_bin_loop (D := D) f a l i p)) as Hx.
  { intros f. induction f as [|f IH]; intros a l i [|b p]; cbn [write_bin_loop]; cbv zeta; step_walk ltac:(apply IH). }
  assert (∀ v, steps same_step (out_hex (D := D) v)) as Hox.
  { intros v. unfold out_hex. generalize (hex_skip 7 v). intros n.
    induction n; cbn [out_hex_from]; step_walk ltac:(first [step_out_leaf|assumption]). }
  assert (∀ p, steps same_step (read_memory (D := D) p)) as Hr.
  { intros p. apply steps_read_memory; [apply _|intros; quiet_leaf|]. intros f Hf s.
    unfold same_step. cbn. by destruct (Hf (st_rsp s)) as [l ->]. }
  unfold read_regs, write_regs, write_memory_hex, write_memory_bin, handle_breakpoint, handle_query,
    bp_set, bp_clear, bp_lookup. cbv zeta.
  step_walk ltac:(idtac; lazymatch goal with
    | |- steps _ (out_words _) => apply Hw
    | |- steps _ (out_hex _) => apply Hox
    | |- steps _ (read_memory _) => apply Hr
    | |- steps _ (write_hex_loop _ _ _ _ _) => apply Hh
    | |- steps _ (write_bin_loop _ _ _ _ _) => apply Hx
    | _ => step_out_leaf end).
Qed.

(** A call that returns leaves no step breakpoint behind. *)
Definition returns_clean (m : M St ctl) : Prop :=
  ∀ s, g_step_active (st_rsp s) = false → fst (m s) = Returned → g_step_active (st_rsp (snd (m s))) = false.

Lemma clean_step (m : M St ctl) : steps same_step m → returns_clean m.
Proof. intros Hm s Hs _. by rewrite (Hm s). Qed.
Lemma clean_bind {A} (m : M St A) (k : A → M St ctl) :
  steps same_step m → (∀ a, returns_clean (k a)) → returns_clean (m ≫= k).
Proof.
  intros Hm Hk s Hs. unfold mbind, M_bind. specialize (Hm s). destruct (m s) as [a s1].
  apply Hk. cbn in Hm. unfold same_step in Hm. by rewrite Hm.
Qed.
Lemma clean_resumed (m : M St unit) : returns_clean (m;; mret Resumed).
Proof. intros s _. unfold mbind, M_bind. by destruct (m s). Qed.
Lemma clean_seq (m k : M St ctl) :
  returns_clean m → returns_clean k →
  returns_clean (r ← m; match r with Resumed => mret Resumed | Returned => k end).
Proof.
  intros Hm Hk s Hs. unfold mbind, M_bind. specialize (Hm s Hs). destruct (m s) as [[] s1]; [|done].
  apply Hk. by apply Hm.
Qed.

Lemma step_ack : steps same_step send_ack.
Proof. unfold send_ack, send_out. step_walk ltac:(step_out_leaf). Qed.

Lemma clean_resume p : returns_clean (resume p).
Proof.
  unfold resume. apply clean_bind; [step_walk fail|intros _]. apply clean_bind; [apply step_ack|intros _].
  apply clean_bind; [step_leaf|intros _]. apply clean_bind; [step_walk fail|intros g].
  apply clean_bind; [step_leaf|intros _]. apply clean_resumed.
Qed.

Lemma resumed_seq {A} (m : M St A) (k : A → M St ctl) :
  (∀ a s, fst (k a s) = Resumed) → ∀ s, fst ((m ≫= k) s) = Resumed.
Proof. intros Hk s. unfold mbind, M_bind. destruct (m s). apply Hk. Qed.

Lemma clean_do_step : returns_clean do_step.
Proof.
  unfold do_step. apply clean_bind; [unfold arm_next_pc, load32; step_walk fail|]. intros [next|].
  2: apply clean_step; step_walk ltac:(step_out_leaf).
  apply clean_bind; [step_walk fail|intros g]. destruct (next =? r_pc g).
  - apply clean_step. step_walk ltac:(step_out_leaf).
  - intros s _ Hret. exfalso.
    match type of Hret with fst (?m s) = _ => assert (∀ s, fst (m s) = Resumed) as H end.
    { clear. do 5 (apply resumed_seq; intros ?).
      unfold rsp_resume_here. apply resumed_seq. by intros. }
    rewrite H in Hret. discriminate.
Qed.

Lemma clean_dispatch : returns_clean dispatch.
Proof.
  unfold dispatch. apply clean_bind; [step_walk fail|intros cmd].
  apply clean_bind; [unfold trace_cmd; step_walk fail|intros _]. cbv zeta.
  assert (returns_clean (dispatch_packet (D := D) cmd)) as Hp.
  { apply clean_step. unfold dispatch_packet. cbv zeta.
    step_walk ltac:(idtac; lazymatch goal with
      | |- steps _ (handle_monitor _) => apply step_monitor
      | |- steps _ (command _) => apply step_command
      | _ => step_out_leaf end). }
  repeat lazymatch goal with
  | |- returns_clean (if ?c then _ else _) => destruct c
  | |- returns_clean (resume _) => apply clean_resume
  | |- returns_clean do_step => apply clean_do_step
  | |- returns_clean (dispatch_packet _) => exact Hp
  | |- _ => apply clean_step; step_walk ltac:(step_out_leaf)
  end.
Qed.

Lemma clean_feed_byte c : returns_clean (feed_byte c).
Proof.
  unfold feed_byte. apply clean_bind; [step_walk fail|intros st].
  assert (returns_clean (updR (D := D) (set_g_state ST_IDLE);;
    hi ← getR g_csum_hi; sum ← getR g_sum;
    if hexpair hi c =? (sum .& 0xFF) then dispatch
    else updR (set_g_out []);; out_ch (chr "-");; send_out;; mret Returned)) as H.
  { do 3 (apply clean_bind; [step_walk fail|intros ?]). destruct (_ =? _); [apply clean_dispatch|].
    apply clean_step. unfold send_out. step_walk ltac:(step_out_leaf). }
  destruct st; [apply clean_step; step_walk fail|exact H|apply clean_step; step_walk fail|exact H].
Qed.

Lemma clean_feed l : returns_clean (rsp_feed l).
Proof.
  intros s. rewrite rsp_feed_eq. revert s. change (returns_clean (feed_all (D := D) l)).
  induction l as [|c l IH]; cbn [feed_all]; [apply clean_step; step_walk fail|].
  intros s Hs. unfold mbind, M_bind.
  assert (g_step_active (st_rsp (snd (feed1 c s))) = false ∨ fst (feed1 c s) = Resumed) as Hc.
  { assert (returns_clean (feed1 (D := D) c)) as H1.
    { unfold feed1. apply clean_bind; [step_walk fail|intros st]. destruct st; try apply clean_feed_byte.
      do 2 (apply clean_bind; [step_walk fail|intros ?]).
      destruct (c =? chr "#"); [apply clean_step; step_walk fail|].
      destruct (CMD_SIZE <=? _); [|apply clean_step; step_walk fail].
      apply clean_bind; [step_walk fail|intros _]. apply clean_feed_byte. }
    specialize (H1 s Hs). destruct (fst (feed1 c s)); [left; by apply H1|by right]. }
  destruct (feed1 c s) as [[] s1]; [|done]. cbn in Hc. destruct Hc as [Hc|Hc]; [by apply IH|done].
Qed.

Lemma frame_same_step {A} (m : M St A) : steps driver_frame m → steps same_step m.
Proof. intros Hm s. destruct (Hm s) as [Hr _]. unfold same_step. by rewrite Hr. Qed.

Lemma clean_poll : returns_clean poll.
Proof.
  unfold poll, musb_poll. do 3 (apply clean_bind; [step_leaf|intros ?]).
  destruct (nonzero _).
  { apply clean_step. unfold bump_events. step_walk ltac:(idtac; lazymatch goal with
      | |- steps _ handle_bus_reset => apply frame_same_step, frame_bus_reset end). }
  apply clean_bind; [apply steps_when; [apply _|apply frame_same_step, frame_poll_ep0]|intros _].
  apply clean_bind; [unfold poll_bulk_in, bump_events; step_walk fail|intros _].
  destruct (nonzero _); [|apply clean_step; step_walk fail].
  unfold poll_bulk_out, bump_events. do 3 (apply clean_bind; [step_leaf|intros ?]).
  destruct (nonzero _); [|apply clean_step; step_walk fail].
  unfold handle_bulk_out.
  assert (∀ n i, steps same_step (rx_words (D := D) n i)) as Hx.
  { intros n. induction n as [|n IH]; intros i; cbn [rx_words]; step_walk ltac:(apply IH). }
  do 2 (apply clean_bind; [step_leaf|intros ?]). cbv zeta.
  apply clean_bind; [apply Hx|intros _]. do 3 (apply clean_bind; [step_leaf|intros ?]).
  apply clean_bind; [apply steps_gets; apply _|intros buf]. apply clean_feed.
Qed.

(** What the mode says of the step breakpoint. *)
Definition step_idle (c : gmode * St) : Prop :=
  match fst c with Running => True | _ => g_step_active (st_rsp (snd c)) = false end.

Lemma clean_main v s r v' s' :
  main_step v s = (r, v', s') → g_step_active (st_rsp s) = false → r = Returned →
  g_step_active (st_rsp s') = false.
Proof.
  intros Hm Hs ->. unfold main_step in Hm. unfold mbind at 1, M_bind at 1 in Hm.
  pose proof (clean_poll s Hs) as Hp. destruct (poll s) as [[] s1]; [|done]. specialize (Hp eq_refl).
  cbn [snd] in Hp. rewrite <-Hp.
  match type of Hm with ?k s1 = _ => assert (steps same_step k) as Hk end.
  { cbv zeta. unfold musb_activity. step_walk ltac:(idtac; lazymatch goal with
      | |- steps _ musb_report => apply frame_same_step; unfold musb_report; cbv zeta; steps_walk ltac:(frame_leaf)
      end). }
  specialize (Hk s1). rewrite Hm in Hk. exact Hk.
Qed.

Lemma trap_idle g sig s : g_step_active (st_rsp (snd (trap g sig s))) = false.
Proof.
  unfold trap, rsp_trapped_stop. unfold mbind at 1 2, M_bind at 1 2. cbv beta iota zeta.
  change (updR (set_g_regs g) s) with (tt, set_st_rsp (set_g_regs g (st_rsp s)) s). cbv beta iota.
  set (s0 := set_st_rsp (set_g_regs g (st_rsp s)) s).
  unfold gets. cbv beta iota. unfold mbind at 1, M_bind at 1.
  assert (g_step_active (st_rsp (snd (when (g_step_active (st_rsp s0))
    (wr32 (g_step_addr (st_rsp s0)) (g_step_saved (st_rsp s0));; updR (set_g_step_active false)) s0))) = false) as H.
  { destruct (g_step_active (st_rsp s0)) eqn:E; [done|exact E]. }
  destruct (when _ _ s0) as [[] s1]. cbn [snd] in H. rewrite <-H.
  match goal with |- context [snd (?k s1)] => assert (steps same_step k) as Hk end.
  { unfold bp_lookup. step_walk ltac:(step_out_leaf). }
  apply (Hk s1).
Qed.

Lemma init_idle cpsr sp u p d s :
  g_step_active (st_rsp s) = false → g_step_active (st_rsp (snd (main_init cpsr sp u p d s))) = false.
Proof.
  intros <-. assert (steps same_step (main_init cpsr sp u p d)) as H; [|apply (H s)].
  unfold main_init, bp_install, trace_init, musb_init, latch_speed. cbv zeta. step_walk fail.
Qed.

Lemma idle_polling v (s : St) :
  stub_ok s → g_step_active (st_rsp s) = false → stub_ok (snd (Polling v, s)) ∧ step_idle (Polling v, s).
Proof. by intros. Qed.

Lemma init_ok cpsr sp u p d s :
  musb_ok (st_musb s) → rsp_ok (st_rsp s) → g_step_active (st_rsp s) = false →
  stub_ok (snd (Polling main_vars0, snd (main_init cpsr sp u p d s))) ∧
  step_idle (Polling main_vars0, snd (main_init cpsr sp u p d s)).
Proof.
  intros Hu Hr Hs. exact (idle_polling _ _ (safe_init cpsr sp u p d s Hu Hr) (init_idle cpsr sp u p d s Hs)).
Qed.

Lemma step_ok c c' : gstep c c' → stub_ok (snd c) ∧ step_idle c → stub_ok (snd c') ∧ step_idle c'.
Proof.
  intros Hstep [IHok IHidle].
  destruct Hstep as [v v' s s' Hm|v v' s s' Hm|s s' Hp|s s' Hp|m s|g sig s Hg Hsig];
    unfold step_idle in *; cbn [fst snd] in *.
  - pose proof (safe_main v s IHok) as H. rewrite Hm in H. split; [exact H|].
    exact (clean_main v s Returned v' s' Hm IHidle eq_refl).
  - pose proof (safe_main v s IHok) as H. rewrite Hm in H. split; [exact H|exact I].
  - pose proof (safe_poll s IHok) as H. pose proof (clean_poll s IHidle) as Hc.
    rewrite Hp in H, Hc. split; [exact H|exact (Hc eq_refl)].
  - pose proof (safe_poll s IHok) as H. rewrite Hp in H. split; [exact H|exact I].
  - split; [exact IHok|exact I].
  - split; [by apply (safe_trap g sig)|apply trap_idle].
Qed.

(** C1: the image never leaves its invariant.  From power-on, through any
    interleaving of polls, packets, runs of the target and traps (a trap is
    taken while the target runs), on any devices: the indices and lengths of
    the control pipe, the line coding, the words of the receive buffer, the
    command and reply buffers, the breakpoint table and the log stay within
    their arrays, and no single-step breakpoint is planted while the stub
    polls.  The statics are a part of the state of their own: that the memory
    writes of the debugger or of the target hit them is outside the model. *)
Theorem image_invariant c : greach c → stub_ok (snd c) ∧ step_idle c.
Proof.
  induction 1 as [cpsr sp u p d m t g Hg|c c' _ IH Hstep].
  - apply init_ok; [apply musb_st0_ok| |reflexivity]. split; [reflexivity|]. split; [exact Hg|]. done.
  - exact (step_ok c c' Hstep IH).
Qed.

End Main.

(** ** Witnesses: the theorems at concrete states *)

#[local] Existing Instance null_device.

Lemma image_invariant_witness :
  let c := (Polling main_vars0,
            snd (main_init 0xD3 0x301FFFF0 0x30200100 0x30200118 0x30200130
                   (Stub (Machine ∅ tt) (TraceSt 0 0) musb_st0 (rsp_st0 (example_regs 0 0))))) in
  stub_ok (snd c) ∧ step_idle c.
Proof. intros c. apply (image_invariant c). by apply g_init. Defined.
