(* ===== verification/Ecc.v ===== *)
(** * Ecc: error positions of the BCH engine ([src/baremetal/lib/ecc.c])

    A position register holds a one-hot segment selector and a 9-bit position;
    [ecc_locate] turns it into a byte index and a bit mask, [ecc_apply] flips
    the located bits in the chunk and its tag, two buffers in memory that it writes
    through pointers.  [locate_to_reg] is the inverse that the unit test of the
    repository writes from the closed form. *)
From S2P Require Import Prelude Machine.

Definition seg_base : list Z := [-112; 16; 144; 272; 400].

(** [while ((sel & (1u << i)) == 0u) i++;], [sel] a nonzero 10-bit value. *)
Fixpoint lowest_bit (fuel : nat) (sel i : Z) : Z :=
  match fuel with
  | O => i
  | S f => if nonzero (sel .& (1 .<< i)) then i else lowest_bit f sel (i + 1)
  end.

(** The byte index and the mask, or [None] for the result -1. *)
Definition ecc_locate (reg : Z) : option (Z * Z) :=
  let sel := (reg .>> 9) .& 0x3FF in
  if (sel =? 0) || nonzero (sel .& u32 (sel - 1)) then None
  else
    let i := lowest_bit 10 sel 0 in
    let base := nth (Z.to_nat (i .>> 1)) seg_base 0 in
    let parity := (0x2AA .>> i) .& 1 in
    let r := 2 * (reg .& 0x1FF) + parity - 4 in
    let '(r, base) := if r <? 0 then (r + 8, base - 1) else (r, base) in
    let idx := base + (r .>> 3) in
    if idx <? 0 then None
    else Some (u32 idx, u8 (1 .<< (Z.lnot r .& 7))).

Section Ecc.
Context {S D : Type} `{!HasMachine S D, !Device D}.

(** [data] and [tag] are the addresses of the buffers, [applied] the corrections so far. *)
Fixpoint ecc_apply_loop (regs : list Z) (data tag tag_len applied : Z) : M S Z :=
  match regs with
  | [] => mret (if nonzero applied then 0 else -1)
  | reg :: regs' =>
      if reg =? 0 then ecc_apply_loop regs' data tag tag_len applied
      else
        match ecc_locate reg with
        | None => mret (-1)
        | Some (byte, mask) =>
            if byte <? 512 then
              rmw W8 (data + byte) (λ v, v .^ mask);; ecc_apply_loop regs' data tag tag_len (applied + 1)
            else if byte - 512 <? tag_len then
              rmw W8 (tag + (byte - 512)) (λ v, v .^ mask);; ecc_apply_loop regs' data tag tag_len (applied + 1)
            else mret (-1)
        end
  end.
Definition ecc_apply (regs : list Z) (data tag tag_len : Z) : M S Z := ecc_apply_loop regs data tag tag_len 0.
End Ecc.

(** ** The inverse of the unit test *)

(** [while ((mask & (1u << (7 - bit_msb))) == 0) bit_msb++;] *)
Fixpoint msb_offset (fuel : nat) (mask k : Z) : Z :=
  match fuel with
  | O => k
  | S f => if nonzero (mask .& (1 .<< (7 - k))) then k else msb_offset f mask (k + 1)
  end.

Definition locate_to_reg (byte mask : Z) : option Z :=
  let off := byte * 8 + msb_offset 8 mask 0 in
  find_first (λ pair,
    let v := off - 8 * nth (Z.to_nat pair) seg_base 0 + 4 in
    if v <? 0 then None
    else
      let parity := v .& 1 in
      let pos := v .>> 1 in
      if 511 <? pos then None
      else Some (((1 .<< (2 * pair + parity)) .<< 9) .| pos)) 0 5.

(** ** Locating *)

(** The registers of the ten selectors. *)
Definition all_regs : list Z :=
  flat_map (λ i, map (λ pos, (2 ^ Z.of_nat i) * 512 + Z.of_nat pos) (seq 0 512)) (seq 0 10).

(** The positions of a chunk and its tag: byte and bit number. *)
Definition all_bits : list (Z * Z) :=
  flat_map (λ b, map (λ k, (Z.of_nat b, 2 ^ Z.of_nat k)) (seq 0 8)) (seq 0 516).

(** The closed form undoes the decoding of [reg], and the decoding the closed form. *)
Definition reg_ok (reg : Z) : bool :=
  match ecc_locate reg with
  | None => true
  | Some (byte, mask) => (515 <? byte) || bool_decide (locate_to_reg byte mask = Some reg)
  end.
Definition bit_ok (p : Z * Z) : bool :=
  match locate_to_reg (fst p) (snd p) with
  | Some reg => (1 <=? reg) && (reg <? 524288) && bool_decide (ecc_locate reg = Some p)
  | None => false
  end.

Lemma regs_checked : forallb reg_ok all_regs = true.
Proof. vm_compute. reflexivity. Qed.
Lemma bits_checked : forallb bit_ok all_bits = true.
Proof. vm_compute. reflexivity. Qed.

Lemma in_all_bits byte k : 0 <= byte < 516 → 0 <= k < 8 → In (byte, 2 ^ k) all_bits.
Proof.
  intros. apply in_flat_map. exists (Z.to_nat byte). split; [apply in_seq; lia|].
  apply in_map_iff. exists (Z.to_nat k). split; [|apply in_seq; lia]. by rewrite !Z2Nat.id by lia.
Qed.
Lemma bit_ok_all byte k :
  0 <= byte < 516 → 0 <= k < 8 →
  ∃ reg, locate_to_reg byte (2 ^ k) = Some reg ∧ 0 < reg < 524288 ∧ ecc_locate reg = Some (byte, 2 ^ k).
Proof.
  intros Hb Hk. pose proof (proj1 (forallb_forall bit_ok all_bits) bits_checked _ (in_all_bits byte k Hb Hk)) as H.
  unfold bit_ok in H. cbn [fst snd] in H. destruct (locate_to_reg byte (2 ^ k)) as [reg|]; [|done].
  exists reg. apply andb_true_iff in H as [[H1%Z.leb_le H2%Z.ltb_lt]%andb_true_iff H3%bool_decide_eq_true].
  split; [done|]. split; [lia|done].
Qed.

(** A selector that is accepted has one bit. *)
Lemma one_hot sel :
  0 <= sel < 1024 → sel ≠ 0 → sel .& u32 (sel - 1) = 0 → ∃ i, (i < 10)%nat ∧ sel = 2 ^ Z.of_nat i.
Proof.
  intros Hs Hz Ha.
  assert (forallb (λ n, let s := Z.of_nat n in
    (s =? 0) || nonzero (s .& u32 (s - 1)) || existsb (λ i, s =? 2 ^ Z.of_nat i) (seq 0 10)) (seq 0 1024) = true) as H
    by (vm_compute; reflexivity).
  rewrite forallb_forall in H. specialize (H (Z.to_nat sel)).
  rewrite Z2Nat.id in H by lia. assert (In (Z.to_nat sel) (seq 0 1024)) as Hin by (apply in_seq; lia).
  specialize (H Hin). cbv zeta in H. rewrite Ha in H. rewrite (proj2 (Z.eqb_neq sel 0)) in H by done. cbn [orb nonzero] in H.
  change (nonzero 0) with false in H. cbn [orb] in H. apply existsb_exists in H as (i & Hi & He).
  apply in_seq in Hi. apply Z.eqb_eq in He. exists i. split; [lia|done].
Qed.

Lemma locate_low reg : 0 <= reg → ecc_locate reg = ecc_locate (reg mod 2 ^ 19).
Proof.
  intros Hr. unfold ecc_locate.
  assert ((reg mod 2 ^ 19) .& 0x1FF = reg .& 0x1FF) as ->.
  { rewrite !(land_low _ 9) by done. rewrite <-Znumtheory.Zmod_div_mod; [done|lia|lia|].
    exists (2 ^ 10). reflexivity. }
  assert (((reg mod 2 ^ 19) .>> 9) .& 0x3FF = (reg .>> 9) .& 0x3FF) as ->; [|done].
  rewrite !(land_low _ 10), !Z.shiftr_div_pow2 by done.
  change (2 ^ 19) with 524288. change (2 ^ 9) with 512. change (2 ^ 10) with 1024. zlia.
Qed.

Lemma locate_in_regs reg p :
  0 <= reg → ecc_locate reg = Some p → In (reg mod 2 ^ 19) all_regs.
Proof.
  intros Hr Hl. rewrite locate_low in Hl by done. set (x := reg mod 2 ^ 19) in *.
  assert (0 <= x < 524288) as Hx by (apply Z.mod_pos_bound; lia). clearbody x.
  unfold ecc_locate in Hl.
  assert ((x .>> 9) .& 0x3FF = x / 512) as He.
  { rewrite (land_low _ 10), Z.shiftr_div_pow2 by done. change (2 ^ 10) with 1024. change (2 ^ 9) with 512. zlia. }
  rewrite He in Hl. destruct ((x / 512 =? 0) || _) eqn:E; [done|].
  apply orb_false_iff in E as [E1%Z.eqb_neq E2]. unfold nonzero in E2. apply negb_false_iff, Z.eqb_eq in E2.
  destruct (one_hot (x / 512)) as (i & Hi & Hp); [zlia|done|done|].
  unfold all_regs. apply in_flat_map. exists i. split; [apply in_seq; lia|].
  apply in_map_iff. exists (Z.to_nat (x mod 512)). split; [|apply in_seq; zlia].
  rewrite <-Hp, Z2Nat.id by zlia. zlia.
Qed.

(** [ecc_locate] is the inverse of the closed form.  Every bit of the chunk
    and its tag has a register that locates it, and a register that locates a
    bit there is, up to the bits above the selector that are ignored, the one
    of the closed form: no two registers name the same bit. *)
Theorem ecc_locate_inverse :
  (∀ byte k, 0 <= byte < 516 → 0 <= k < 8 →
     ∃ reg, locate_to_reg byte (2 ^ k) = Some reg ∧ 0 < reg < 524288 ∧ ecc_locate reg = Some (byte, 2 ^ k)) ∧
  (∀ reg byte mask, word_ok reg → ecc_locate reg = Some (byte, mask) → byte < 516 →
     locate_to_reg byte mask = Some (reg mod 2 ^ 19)).
Proof.
  split; [apply bit_ok_all|].
  intros reg byte mask [Hr _] Hl Hb. pose proof (locate_in_regs reg _ Hr Hl) as Hin.
  rewrite locate_low in Hl by done.
  pose proof (proj1 (forallb_forall reg_ok all_regs) regs_checked _ Hin) as H.
  unfold reg_ok in H. rewrite Hl in H. rewrite (proj2 (Z.ltb_ge 515 byte)) in H by lia.
  by apply bool_decide_eq_true in H.
Qed.

(** ** Correcting *)

(** The bit [k] of byte [b] of the chunk, as the correction flips it. *)
Definition flip (p : Z * Z) (c : list Z * list Z) : list Z * list Z :=
  let '(b, k) := p in
  let '(data, tag) := c in
  if b <? 512 then (zset data b (znth data b .^ 2 ^ k), tag)
  else (data, zset tag (b - 512) (znth tag (b - 512) .^ 2 ^ k)).

Definition chunk_bit (p : Z * Z) : Prop := 0 <= fst p < 516 ∧ 0 <= snd p < 8.
Definition chunk_ok (c : list Z * list Z) : Prop := length (fst c) = 512%nat ∧ length (snd c) = 4%nat.

(** The registers that the engine reports for a list of bits: one register each,
    and unused registers read 0. *)
Inductive reports : list (Z * Z) → list Z → Prop :=
  | reports_nil : reports [] []
  | reports_unused ps regs : reports ps regs → reports ps (0 :: regs)
  | reports_bit b k reg ps regs :
      locate_to_reg b (2 ^ k) = Some reg → reports ps regs → reports ((b, k) :: ps) (reg :: regs).

Definition xor_at (i m : Z) (l : list Z) : list Z := zset l i (znth l i .^ m).

Lemma xor_at_twice l i m : 0 <= i < zlen l → xor_at i m (xor_at i m l) = l.
Proof.
  intros Hi. unfold xor_at. rewrite znth_zset_eq by done. rewrite Z.lxor_assoc, Z.lxor_nilpotent, Z.lxor_0_r.
  unfold zset, znth. rewrite list_insert_insert_eq, nth_lookup. apply list_insert_id.
  destruct (lookup_lt_is_Some_2 l (Z.to_nat i)) as [x Hx]; [unfold zlen in Hi; lia|]. by rewrite Hx.
Qed.
Lemma xor_at_comm l i m j n :
  0 <= i < zlen l → 0 <= j < zlen l → xor_at i m (xor_at j n l) = xor_at j n (xor_at i m l).
Proof.
  intros Hi Hj. unfold xor_at. destruct (decide (i = j)) as [->|Hne].
  - rewrite !znth_zset_eq by done. unfold zset. rewrite !list_insert_insert_eq. f_equal.
    rewrite !Z.lxor_assoc. f_equal. apply Z.lxor_comm.
  - rewrite !znth_zset_ne by lia. unfold zset. apply list_insert_insert_ne. lia.
Qed.

Lemma flip_eq b k data tag :
  flip (b, k) (data, tag) =
  if b <? 512 then (xor_at b (2 ^ k) data, tag) else (data, xor_at (b - 512) (2 ^ k) tag).
Proof. done. Qed.
Lemma flip_ok p c : chunk_ok c → chunk_ok (flip p c).
Proof.
  destruct p as [b k], c as [data tag]. unfold chunk_ok, flip, zset. cbn [fst snd].
  destruct (b <? 512); cbn [fst snd]; by rewrite length_insert.
Qed.
Lemma flips_ok ps c : chunk_ok c → chunk_ok (foldr flip c ps).
Proof. intros Hc. induction ps; [done|]. by apply flip_ok. Qed.
Lemma flip_twice p c : chunk_bit p → chunk_ok c → flip p (flip p c) = c.
Proof.
  destruct p as [b k], c as [data tag]. unfold chunk_bit, chunk_ok. cbn [fst snd]. intros [Hb _] [Hd Ht].
  rewrite flip_eq. destruct (b <? 512) eqn:E; rewrite flip_eq, E, xor_at_twice; try done; unfold zlen; lia.
Qed.
Lemma flip_comm p q c : chunk_bit p → chunk_bit q → chunk_ok c → flip p (flip q c) = flip q (flip p c).
Proof.
  destruct p as [b k], q as [b' k'], c as [data tag]. unfold chunk_bit, chunk_ok. cbn [fst snd].
  intros [Hb _] [Hb' _] [Hd Ht]. rewrite !flip_eq.
  destruct (b <? 512) eqn:E, (b' <? 512) eqn:E'; rewrite !flip_eq, ?E, ?E'; try done;
    f_equal; apply xor_at_comm; unfold zlen; lia.
Qed.
Lemma flip_flips p ps c :
  chunk_bit p → Forall chunk_bit ps → chunk_ok c → flip p (foldr flip c ps) = foldr flip (flip p c) ps.
Proof.
  intros Hp Hps Hc. induction Hps as [|q ps Hq Hps IH]; cbn [foldr]; [done|].
  by rewrite flip_comm, IH by (done || by apply flips_ok).
Qed.

Lemma reported_reg b k reg :
  chunk_bit (b, k) → locate_to_reg b (2 ^ k) = Some reg → 0 < reg ∧ ecc_locate reg = Some (b, 2 ^ k).
Proof.
  intros [Hb Hk] Hr. destruct (bit_ok_all b k Hb Hk) as (reg' & Hr' & Hpos & Hl).
  rewrite Hr in Hr'. injection Hr' as <-. split; [lia|done].
Qed.

(** *** In memory *)

Section memory.
Context {S D : Type} `{!HasMachine S D, !Device D} (data tag : Z).
Hypothesis data_ddr : ∀ i, 0 <= i < 512 → in_ddr (data + i) = true.
Hypothesis tag_ddr : ∀ i, 0 <= i < 4 → in_ddr (tag + i) = true.
Hypothesis apart : tag + 4 <= data ∨ data + 512 <= tag.

(** The two buffers of a state. *)
Definition buffers (s : S) : list Z * list Z := (mget_list (ram (machine_of s)) data 512, mget_list (ram (machine_of s)) tag 4).
Lemma buffers_ok (s : S) : chunk_ok (buffers s).
Proof. split; apply mget_list_length. Qed.

Lemma lxor_byte a b : byte_ok a → byte_ok b → byte_ok (a .^ b).
Proof.
  unfold byte_ok. intros Ha Hb. assert (0 <= a .^ b) as H0 by (apply Z.lxor_nonneg; lia). split; [done|].
  destruct (Z.eq_dec (a .^ b) 0) as [->|Hn]; [done|]. apply (Z.log2_lt_pow2 _ 8); [lia|].
  pose proof (Z.log2_lxor a b ltac:(lia) ltac:(lia)) as Hl.
  assert (∀ x, 0 <= x < 256 → Z.log2 x < 8) as Hlog; [|pose proof (Hlog a Ha); pose proof (Hlog b Hb); lia].
  intros x Hx. destruct (Z.eq_dec x 0) as [->|]; [done|]. apply Z.log2_lt_pow2; [lia|]. exact (proj2 Hx).
Qed.

(** One byte of a buffer changes. *)
Lemma xor_in_memory a i m (s : S) : in_ddr (a + i) = true → byte_ok m →
  ∃ s', rmw W8 (a + i) (λ v, v .^ m) s = (tt, s') ∧ dev (machine_of s') = dev (machine_of s) ∧
    ∀ x, mget (ram (machine_of s')) x = if x =? a + i then mget (ram (machine_of s)) x .^ m else mget (ram (machine_of s)) x.
Proof.
  intros Ha Hm. unfold rmw, rd, wr, mbind, M_bind, bus_read. rewrite Ha. cbn [nbytes mget_list le_join]. rewrite Z.mul_0_r, Z.add_0_r.
  eexists. split; [done|]. unfold bus_write. rewrite Ha, !machine_of_set. cbn [dev ram nbytes le_split mset_list]. split; [done|].
  intros x. destruct (Z.eqb_spec x (a + i)) as [->|Hne]; [|by apply mget_mset_ne].
  rewrite mget_mset_eq. change (u8 (u8 (mget (ram (machine_of s)) (a + i) .^ m)) = mget (ram (machine_of s)) (a + i) .^ m).
  rewrite u8_u8. apply u8_id. apply lxor_byte; [apply mget_ok|done].
Qed.
Lemma xor_list m m' a n i v :
  0 <= i < Z.of_nat n → (∀ x, mget m' x = if x =? a + i then mget m x .^ v else mget m x) →
  mget_list m' a n = xor_at i v (mget_list m a n).
Proof.
  intros Hi Hm. assert (length (xor_at i v (mget_list m a n)) = n) as Hlen by (unfold xor_at, zset; by rewrite length_insert, mget_list_length).
  apply (nth_ext _ _ 0 0); [by rewrite Hlen, mget_list_length|]. rewrite mget_list_length. intros k Hk.
  rewrite mget_list_nth, Hm by done. unfold xor_at. destruct (Z.eqb_spec (a + Z.of_nat k) (a + i)) as [E|E].
  - assert (Z.of_nat k = i) as <- by lia. pose proof (znth_zset_eq (mget_list m a n) (Z.of_nat k) (znth (mget_list m a n) (Z.of_nat k) .^ v)) as H.
    unfold znth at 1 in H. rewrite Nat2Z.id in H. rewrite H by (unfold zlen; rewrite mget_list_length; lia).
    unfold znth. by rewrite Nat2Z.id, mget_list_nth.
  - pose proof (znth_zset_ne (mget_list m a n) i (Z.of_nat k) (znth (mget_list m a n) i .^ v)) as H.
    unfold znth at 1 in H. rewrite Nat2Z.id in H. rewrite H by lia. unfold znth. by rewrite Nat2Z.id, mget_list_nth.
Qed.

(** A correction in memory is one of the lists. *)
Lemma flip_in_memory b k (s : S) : chunk_bit (b, k) →
  ∃ s', rmw W8 (if b <? 512 then data + b else tag + (b - 512)) (λ v, v .^ 2 ^ k) s = (tt, s') ∧
    buffers s' = flip (b, k) (buffers s) ∧ dev (machine_of s') = dev (machine_of s) ∧
    ∀ x, ¬ (data <= x < data + 512) → ¬ (tag <= x < tag + 4) → mget (ram (machine_of s')) x = mget (ram (machine_of s)) x.
Proof.
  intros [Hb Hk]. cbn [fst snd] in *. assert (byte_ok (2 ^ k)) as Hm.
  { unfold byte_ok. assert (2 ^ k < 2 ^ 8) by (apply Z.pow_lt_mono_r; lia). change (2 ^ 8) with 256 in *. pose proof (Z.pow_nonneg 2 k). lia. }
  unfold buffers. rewrite flip_eq. destruct (Z.ltb_spec b 512).
  - destruct (xor_in_memory data b (2 ^ k) s) as (s' & -> & Hd & Hx); [apply data_ddr; lia|done|]. exists s'. split; [done|].
    split_and!; [|done|intros x H1 H2; rewrite Hx, (proj2 (Z.eqb_neq _ _)); [done|lia]].
    f_equal; [apply (xor_list _ _ data 512 b (2 ^ k)); [lia|done]|]. apply mget_list_ext. intros x Hx'. rewrite Hx, (proj2 (Z.eqb_neq _ _)); [done|lia].
  - destruct (xor_in_memory tag (b - 512) (2 ^ k) s) as (s' & -> & Hd & Hx); [apply tag_ddr; lia|done|]. exists s'. split; [done|].
    split_and!; [|done|intros x H1 H2; rewrite Hx, (proj2 (Z.eqb_neq _ _)); [done|lia]].
    f_equal; [|apply (xor_list _ _ tag 4 (b - 512) (2 ^ k)); [lia|done]]. apply mget_list_ext. intros x Hx'. rewrite Hx, (proj2 (Z.eqb_neq _ _)); [done|lia].
Qed.

(** The loop flips every reported bit and counts it. *)
Lemma apply_loop_run ps regs applied (s : S) :
  reports ps regs → Forall chunk_bit ps → 0 <= applied →
  let '(r, s') := ecc_apply_loop regs data tag 4 applied s in
  r = (if nonzero (applied + zlen ps) then 0 else -1) ∧ buffers s' = foldl (λ c p, flip p c) (buffers s) ps.
Proof.
  intros Hr. revert applied s. induction Hr as [|ps regs Hr IH|b k reg ps regs Hl Hr IH]; intros applied s Hps Ha.
  - cbn. by rewrite Z.add_0_r.
  - cbn [ecc_apply_loop]. by apply IH.
  - apply list.Forall_cons in Hps as [Hp Hps]. destruct (reported_reg b k reg Hp Hl) as [Hpos Hloc].
    cbn [ecc_apply_loop foldl]. rewrite (proj2 (Z.eqb_neq reg 0)), Hloc by lia.
    destruct (flip_in_memory b k s Hp) as (s1 & Hs1 & <- & _). rewrite zlen_cons, Z.add_assoc.
    specialize (IH (applied + 1) s1 Hps ltac:(lia)). destruct Hp as [Hb Hk]. cbn [fst snd] in *.
    destruct (b <? 512) eqn:E; [unfold mbind, M_bind; rewrite Hs1; exact IH|]. apply Z.ltb_ge in E.
    rewrite (proj2 (Z.ltb_lt _ _)) by lia. unfold mbind, M_bind. rewrite Hs1. exact IH.
Qed.

Lemma foldl_flips ps c :
  Forall chunk_bit ps → chunk_ok c → foldl (λ c p, flip p c) (foldr flip c ps) ps = c.
Proof.
  intros Hps. induction Hps as [|p ps Hp Hps IH]; intros Hc; cbn [foldl foldr]; [done|].
  by rewrite flip_twice, IH by (done || by apply flips_ok).
Qed.

(** The correction undoes the errors.  When the engine reports the bits [ps], in any
    registers and order, and memory holds a chunk and a tag that are damaged in these
    bits, [ecc_apply] leaves the original ones; with nothing to report it refuses. *)
Theorem ecc_apply_corrects ps regs c (s : S) :
  reports ps regs → Forall chunk_bit ps → chunk_ok c → buffers s = foldr flip c ps →
  let '(r, s') := ecc_apply regs data tag 4 s in r = (if bool_decide (ps = []) then -1 else 0) ∧ buffers s' = c.
Proof.
  intros Hr Hps Hc Hs. unfold ecc_apply. pose proof (apply_loop_run ps regs 0 s Hr Hps ltac:(done)) as H.
  destruct (ecc_apply_loop _ _ _ _ _ s) as [r s']. destruct H as [-> ->]. rewrite Hs, foldl_flips by done. split; [|done].
  destruct ps as [|p ps]; [done|]. rewrite bool_decide_eq_false_2 by done. rewrite zlen_cons. pose proof (zlen_nonneg ps).
  unfold nonzero. by rewrite (proj2 (Z.eqb_neq _ _)) by lia.
Qed.
End memory.

(** A located byte is not negative, so that a store is inside the chunk or the tag,
    whatever the registers say. *)
Lemma locate_nonneg reg byte mask : ecc_locate reg = Some (byte, mask) → 0 <= byte.
Proof. unfold ecc_locate. repeat case_match; intros [= <- _]; apply u32_range. Qed.
Lemma steps_ecc_apply {S D} `{!HasMachine S D, !Device D} (R : S → S → Prop) `{!PreOrder R} regs data tag tag_len :
  (∀ i f, 0 <= i < 512 → steps R (rmw W8 (data + i) f)) → (∀ i f, 0 <= i < tag_len → steps R (rmw W8 (tag + i) f)) →
  steps R (ecc_apply regs data tag tag_len).
Proof.
  intros Hdata Htag. unfold ecc_apply. generalize 0. induction regs as [|reg regs IH]; intros n; cbn [ecc_apply_loop]; [apply (steps_ret R)|].
  destruct (reg =? 0); [apply IH|]. destruct (ecc_locate reg) as [[byte mask]|] eqn:E; [|apply (steps_ret R)]. apply locate_nonneg in E.
  destruct (Z.ltb_spec byte 512); [apply (steps_bind R); [by apply Hdata|intros _; apply IH]|].
  destruct (Z.ltb_spec (byte - 512) tag_len); [|apply (steps_ret R)]. apply (steps_bind R); [apply Htag; lia|intros _; apply IH].
Qed.

(** ** Witnesses: the theorems at concrete states *)

(** The first fixture of the unit test, and a bit of the tag. *)
Definition example_chunk : list Z * list Z := (replicate 512 0xA5, replicate 4 0).
Definition example_damaged : list Z * list Z := foldr flip example_chunk [(361, 5); (513, 3)].
Definition example_memory : machine unit :=
  Machine (mset_list (mset_list ∅ 0x30100000 (fst example_damaged)) 0x30100200 (snd example_damaged)) tt.

Section example.
#[local] Existing Instance null_device.
#[local] Program Instance machine_itself {D} : HasMachine (machine D) D := {| machine_of m := m; set_machine m _ := m |}.
Solve All Obligations with done.
Lemma example_buffers : buffers 0x30100000 0x30100200 example_memory = example_damaged.
Proof. vm_compute. reflexivity. Qed.
Lemma ecc_apply_corrects_witness :
  let '(r, s') := ecc_apply [0x8167; 0; default 0 (locate_to_reg 513 8)] 0x30100000 0x30100200 4 example_memory in
  r = (if bool_decide ([(361, 5); (513, 3)] = []) then -1 else 0) ∧ buffers 0x30100000 0x30100200 s' = example_chunk.
Proof.
  refine (ecc_apply_corrects 0x30100000 0x30100200 _ _ _ [(361, 5); (513, 3)]
    [0x8167; 0; default 0 (locate_to_reg 513 8)] example_chunk example_memory _ _ _ example_buffers).
  - intros i Hi. apply in_ddr_true. unfold DDR_BASE, DDR_END. lia.
  - intros i Hi. apply in_ddr_true. unfold DDR_BASE, DDR_END. lia.
  - by right.
  - apply reports_bit; [reflexivity|]. apply reports_unused, reports_bit; [reflexivity|]. constructor.
  - repeat constructor; done.
  - done.
Defined.
End example.

Theorem ecc_locate_inverse_witness :
  ∃ reg, locate_to_reg 300 (2 ^ 5) = Some reg ∧ 0 < reg < 524288 ∧ ecc_locate reg = Some (300, 2 ^ 5).
Proof. refine (proj1 ecc_locate_inverse 300 5 _ _); lia. Defined.
