(* ===== verification/Storage.v ===== *)
(** * Storage: files on the SD card ([src/baremetal/aipc-boot/storage.c])

    [storage_load], [storage_read] and [storage_save] of aipc-boot.  FatFS, the
    card driver and the cache are the interface [Volume], on a state [V]; what
    the code relies on of FatFS's documented behaviour is the class of laws
    [VolumeLaws].  A path and the content of a file are lists of bytes. *)
From S2P Require Import Prelude.

Definition FR_OK : Z := 0.
Definition FR_NOT_READY : Z := 3.
Definition FR_NO_FILE : Z := 4.
Definition FR_NO_PATH : Z := 5.
Definition STORAGE_ENOTFOUND : Z := -30.
Definition STORAGE_ESIZE : Z := -31.
Definition STORAGE_EIO : Z := -32.
Definition FF_MAX_LFN : Z := 255.
Definition SD_BLOCKS_MAX : Z := 1024.
Definition SD_ENOCMD23 : Z := -23.
Definition CLMT_WORDS : Z := 512.

Inductive open_mode := FA_READ | FA_CREATE_ALWAYS_WRITE.

(** The card driver ([lib/sd.c]): the block functions answer a status, 0 for success. *)
Class Card (V : Type) := {
  sd_init : V → Z * V;
  sd_high_speed : V → Z * V;
  sd_read_block : Z → V → Z * list Z * V;
  sd_write_block : Z → list Z → V → Z * V;
  sd_read_blocks : Z → Z → V → Z * list Z * V;
}.

(** FatFS, above the card.  A file object [FIL] is passed in and out, as FatFS
    updates it through its pointer. *)
Class Volume (V FIL : Type) `{!Card V} := {
  f_open : list Z → open_mode → V → Z * FIL * V;
  f_close : FIL → V → Z * V;
  f_read : FIL → Z → V → Z * list Z * FIL * V;      (** FRESULT and the bytes read *)
  f_write : FIL → list Z → V → Z * Z * FIL * V;     (** FRESULT and the count written *)
  f_lseek : FIL → Z → V → Z * FIL * V;
  f_linkmap : FIL → Z → V → Z * list Z * FIL * V;   (** [f_lseek(f, CREATE_LINKMAP)] into a table *)
  f_unlink : list Z → V → Z * V;
  f_rename : list Z → list Z → V → Z * V;
  f_tell : FIL → Z;
  f_size : FIL → Z;
  fs_csize : V → Z;
  fs_database : V → Z;
}.

(** The static variables; [cltbl] is the field of the file object that
    [storage_read] sets. *)
Record storage_st := StorageSt { single_blocks : bool; clmt : list Z; cltbl : bool }.

(** ** The card under FatFS *)

Definition STA_NOINIT : Z := 1.
Definition RES_OK : Z := 0.
Definition RES_ERROR : Z := 1.
Definition RES_NOTRDY : Z := 3.
Definition RES_PARERR : Z := 4.
Definition CTRL_SYNC : Z := 0.

(** [card_ready] and the buffer for transfers from unaligned addresses. *)
Record disk_st := DiskSt { card_ready : bool; bounce : list Z }.

Section Disk.
Context {V : Type} `{!Card V}.

Definition card_start (v : V) : Z * V :=
  let '(rc, v) := sd_init v in
  if nonzero rc then (rc, v) else let '(_, v) := sd_high_speed v in (0, v).

Definition disk_initialize (pdrv : Z) (d : disk_st) (v : V) : Z * disk_st * V :=
  if nonzero pdrv then (STA_NOINIT, d, v)
  else
    let '(d, v) :=
      if card_ready d then (d, v)
      else let '(rc, v) := card_start v in (DiskSt (rc =? 0) (bounce d), v) in
    (if card_ready d then 0 else STA_NOINIT, d, v).

Definition disk_status (pdrv : Z) (d : disk_st) : Z :=
  if nonzero pdrv || negb (card_ready d) then STA_NOINIT else 0.

(** [buff] is the address of the buffer; the data are what arrives there. *)
Fixpoint disk_read_loop (n : nat) (i buff sector : Z) (acc : list Z) (d : disk_st) (v : V) : Z * list Z * disk_st * V :=
  match n with
  | O => (RES_OK, acc, d, v)
  | S n' =>
      let aligned := (buff .& 3) =? 0 in
      let '(rc, block, v) := sd_read_block (u32 (sector + i)) v in
      let d := if aligned then d else DiskSt (card_ready d) block in
      if nonzero rc then (RES_ERROR, acc, d, v)
      else disk_read_loop n' (i + 1) (buff + 512) sector (acc ++ if aligned then block else take 512 (bounce d)) d v
  end.

Definition disk_read (pdrv buff sector count : Z) (d : disk_st) (v : V) : Z * list Z * disk_st * V :=
  if nonzero pdrv || negb (card_ready d) then (RES_NOTRDY, [], d, v)
  else disk_read_loop (Z.to_nat count) 0 buff sector [] d v.

(** [data] is the content of memory from [buff] on. *)
Fixpoint disk_write_loop (n : nat) (i buff sector : Z) (data : list Z) (d : disk_st) (v : V) : Z * disk_st * V :=
  match n with
  | O => (RES_OK, d, v)
  | S n' =>
      let aligned := (buff .& 3) =? 0 in
      let d := if aligned then d else DiskSt (card_ready d) (take 512 data) in
      let src := if aligned then take 512 data else bounce d in
      let '(rc, v) := sd_write_block (u32 (sector + i)) src v in
      if nonzero rc then (RES_ERROR, d, v)
      else disk_write_loop n' (i + 1) (buff + 512) sector (drop 512 data) d v
  end.

Definition disk_write (pdrv buff sector count : Z) (data : list Z) (d : disk_st) (v : V) : Z * disk_st * V :=
  if nonzero pdrv || negb (card_ready d) then (RES_NOTRDY, d, v)
  else disk_write_loop (Z.to_nat count) 0 buff sector data d v.

Definition disk_ioctl (pdrv cmd : Z) (d : disk_st) : Z :=
  if nonzero pdrv || negb (card_ready d) then RES_NOTRDY
  else if cmd =? CTRL_SYNC then RES_OK else RES_PARERR.

(** The results do not depend on the alignment of the buffer. *)
Lemma disk_read_loop_any n i buff buff' sector acc d d' v :
  (∀ lba v0 l v1, sd_read_block lba v0 = (0, l, v1) → length l = 512%nat) →
  let r := disk_read_loop n i buff sector acc d v in
  let r' := disk_read_loop n i buff' sector acc d' v in
  fst (fst r) = fst (fst r') ∧ snd r = snd r'.
Proof.
  intros Hlen. revert i buff buff' acc d d' v. induction n as [|n IH]; intros; [done|].
  cbn [disk_read_loop] in r, r'. subst r r'. destruct (sd_read_block _ v) as [[rc l] v1] eqn:E.
  destruct (nonzero rc) eqn:Erc; [done|]. apply nonzero_false in Erc as ->. apply Hlen in E.
  assert (∀ (a : bool) e, (if a then l else take 512 (bounce (if a then e else DiskSt (card_ready e) l))) = l) as Hb.
  { intros [] e; [done|]. cbn [bounce]. rewrite <-E. apply firstn_all. }
  rewrite !Hb. apply IH.
Qed.
Lemma disk_write_loop_any n i buff buff' sector data d d' v :
  let r := disk_write_loop n i buff sector data d v in
  let r' := disk_write_loop n i buff' sector data d' v in
  fst (fst r) = fst (fst r') ∧ snd r = snd r'.
Proof.
  revert i buff buff' data d d' v. induction n as [|n IH]; intros; [done|].
  cbn [disk_write_loop] in r, r'. subst r r'.
  assert (∀ (a : bool) e, (if a then take 512 data else bounce (if a then e else DiskSt (card_ready e) (take 512 data))) =
            take 512 data) as Hb by by intros [].
  rewrite !Hb. destruct (sd_write_block _ _ v) as [rc v1]. destruct (nonzero rc); [done|]. apply IH.
Qed.
End Disk.

Section Storage.
Context {V FIL : Type} `{!Card V, !Volume V FIL}.

(** [path] followed by ".new", if the buffer has room for it. *)
Definition new_name (path : list Z) (cap : Z) : option (list Z) :=
  let n := zlen path in
  if cap <? n + 5 then None else Some (path ++ bytes_of ".new").

Definition read_slow (f : FIL) (len : Z) (v : V) : Z * list Z * FIL * V :=
  let '(fr, data, f, v) := f_read f len v in
  if negb (fr =? FR_OK) || negb (zlen data =? len) then (STORAGE_EIO, data, f, v) else (0, data, f, v).

(** The loop of [run_at] over the pairs of the link map. *)
Fixpoint run_loop (csize database cl off : Z) (t : list Z) : Z * Z :=
  match t with
  | n :: c :: t' =>
      if negb (nonzero n) then (0, 0)
      else if cl <? n then (u32 (database + u32 (u32 (c + cl - 2) * csize) + off), u32 (u32 (n - cl) * csize - off))
      else run_loop csize database (u32 (cl - n)) off t'
  | _ => (0, 0)
  end.

(** The sector at file position [pos] and the number of sectors to the end of
    its run, 0 past the end. *)
Definition run_at (csize database : Z) (t : list Z) (pos : Z) : Z * Z :=
  run_loop csize database (u32 (pos / 512 / csize)) (pos / 512 mod csize) (drop 1 t).

(** The loop of [storage_read]: the result if it is decided, and what was read.
    Every iteration reads at least one sector. *)
Fixpoint read_runs (fuel : nat) (f : FIL) (st : storage_st) (len : Z) (acc : list Z) (v : V)
  : option Z * list Z * FIL * storage_st * Z * V :=
  match fuel with
  | O => (None, acc, f, st, len, v)
  | S fuel' =>
      if 512 <=? len then
        let '(lba, n) := run_at (fs_csize v) (fs_database v) (clmt st) (f_tell f) in
        let n := if len / 512 <? n then len / 512 else n in
        let n := if SD_BLOCKS_MAX <? n then SD_BLOCKS_MAX else n in
        if n =? 0 then (Some STORAGE_EIO, acc, f, st, len, v)
        else
          let '(rc, data, v) := sd_read_blocks lba n v in
          if rc =? SD_ENOCMD23 then (None, acc, f, StorageSt true (clmt st) (cltbl st), len, v)
          else if nonzero rc then
            let '(rc2, v) := card_start v in
            if nonzero rc2 then (Some STORAGE_EIO, acc, f, st, len, v) else (None, acc, f, st, len, v)
          else
            let '(fr, f, v) := f_lseek f (f_tell f + n * 512) v in
            if negb (fr =? FR_OK) then (Some STORAGE_EIO, acc, f, st, len, v)
            else read_runs fuel' f st (len - n * 512) (acc ++ data) v
      else (None, acc, f, st, len, v)
  end.

(** [al] is the address of the destination. *)
Definition storage_read (f : FIL) (al len : Z) (st : storage_st) (v : V) : Z * list Z * FIL * storage_st * V :=
  let '(f, st, v) :=
    if cltbl st then (f, st, v)
    else
      let '(fr, t, f, v) := f_linkmap f CLMT_WORDS v in
      (f, StorageSt (single_blocks st) t (fr =? FR_OK), v) in
  let head := (512 - f_tell f mod 512) mod 512 in
  let head := if (len <? head) || negb (cltbl st) || single_blocks st || nonzero ((al + head) .& 63)
              then len else head in
  let '(rc, data, f, v) := read_slow f head v in
  if nonzero rc then (STORAGE_EIO, data, f, st, v)
  else
    let '(r, acc, f, st, rest, v) := read_runs (Z.to_nat (len / 512)) f st (len - head) data v in
    match r with
    | Some rc => (rc, acc, f, st, v)
    | None =>
        let '(rc, data, f, v) := read_slow f rest v in
        (rc, acc ++ data, f, st, v)
    end.

(** The result, and the file on success; [dst] is the address of the buffer. *)
Definition load_one (path : list Z) (dst max : Z) (st : storage_st) (v : V) : Z * list Z * storage_st * V :=
  let '(fr, f, v) := f_open path FA_READ v in
  if (fr =? FR_NO_FILE) || (fr =? FR_NO_PATH) then (STORAGE_ENOTFOUND, [], st, v)
  else if negb (fr =? FR_OK) then (STORAGE_EIO, [], st, v)
  else
    let want := f_size f in
    if (want =? 0) || (max <? want) then
      let '(_, v) := f_close f v in (STORAGE_ESIZE, [], st, v)
    else
      let '(rc, data, f, st, v) := storage_read f dst (u32 want) (StorageSt (single_blocks st) (clmt st) false) v in
      let '(_, v) := f_close f v in
      if nonzero rc then (rc, [], st, v) else (0, data, st, v).

Definition storage_load (path : list Z) (dst max : Z) (st : storage_st) (v : V) : Z * list Z * storage_st * V :=
  let '(rc, data, st, v) := load_one path dst max st v in
  if negb (rc =? STORAGE_ENOTFOUND) then (rc, data, st, v)
  else
    match new_name path (FF_MAX_LFN + 1) with
    | None => (rc, data, st, v)
    | Some tmp => load_one tmp dst max st v
    end.

Definition storage_save (path src : list Z) (v : V) : Z * V :=
  match new_name path (FF_MAX_LFN + 1) with
  | None => (STORAGE_EIO, v)
  | Some tmp =>
      let '(fr, f, v) := f_open tmp FA_CREATE_ALWAYS_WRITE v in
      if negb (fr =? FR_OK) then (STORAGE_EIO, v)
      else
        let '(fr, put, f, v) := f_write f src v in
        let '(frc, v) := f_close f v in
        if negb (frc =? FR_OK) || negb (fr =? FR_OK) || negb (put =? zlen src) then
          let '(_, v) := f_unlink tmp v in (STORAGE_EIO, v)
        else
          let '(fr, v) := f_unlink path v in
          if negb (fr =? FR_OK) && negb (fr =? FR_NO_FILE) then (STORAGE_EIO, v)
          else
            let '(fr, v) := f_rename tmp path v in
            (if fr =? FR_OK then 0 else STORAGE_EIO, v)
  end.
End Storage.

Section Mount.
Context {V : Type} `{!Card V}.

(** [f_mount(&fs, "", 1)], which calls [disk_initialize]. *)
Variable f_mount : (disk_st → V → Z * disk_st * V) → disk_st → V → Z * disk_st * V.
(** [f_getfree]: the result and the free clusters; the fields of the volume. *)
Variable f_getfree : V → Z * Z * V.
Variables csize n_fatent fs_type : V → Z.

Definition storage_mount (st : storage_st) (d : disk_st) (v : V) : Z * storage_st * disk_st * V :=
  let d := DiskSt false (bounce d) in
  let st := StorageSt false (clmt st) (cltbl st) in
  let '(fr, d, v) := f_mount (disk_initialize 0) d v in
  if negb (fr =? FR_OK) then (if fr =? FR_NOT_READY then STORAGE_EIO else - fr, st, d, v)
  else (0, st, d, v).

Definition storage_types : list (list Z) :=
  [bytes_of "FAT12"; bytes_of "FAT16"; bytes_of "FAT32"; bytes_of "exFAT"].

(** The free and the total space in MB and the type, if the call succeeds. *)
Definition storage_space (v : V) : Z * option (Z * Z * list Z) * V :=
  let '(fr, clusters, v) := f_getfree v in
  if negb (fr =? FR_OK) then (STORAGE_EIO, None, v)
  else
    (0, Some (u32 (u64 (clusters * csize v) .>> 11), u32 (u64 (u32 (n_fatent v - 2) * csize v) .>> 11),
              if (1 <=? fs_type v) && (fs_type v <=? 4) then nth (Z.to_nat (fs_type v - 1)) storage_types []
              else bytes_of "FAT"), v).
End Mount.

(** ** What the code relies on of FatFS *)

(** [files v] is the content of the volume as FatFS sees it, its write-back
    buffer included, and holds the files, not the directories; [fil_path] and
    [fil_data] describe a file that is open for writing: closing it makes the
    data its content.  [apart p q] says that the two paths lead FatFS to
    different directory entries, neither below the other, on every volume: they
    differ in more than the case of letters, and neither is a short name that
    FatFS generates for the other.  A call that fails can have done its work
    before the error of the disk: an [f_unlink] may have removed the entry
    ([dir_remove] comes before [remove_chain] and [sync_fs]), an [f_rename] may
    have registered the new entry, and then removed the old one; an entry is
    removed only when the other is in place. *)
Class VolumeLaws (V FIL : Type) `{!Card V, !Volume V FIL} := {
  files : V → list Z → option (list Z);
  fil_path : FIL → list Z;
  fil_data : FIL → list Z;
  apart : list Z → list Z → Prop;
  apart_sym p q : apart p q → apart q p;
  create_law p v fr f v' :
    f_open p FA_CREATE_ALWAYS_WRITE v = (fr, f, v') →
    (∀ q, apart q p → files v' q = files v q) ∧ (fr = FR_OK → fil_path f = p ∧ fil_data f = []);
  write_law f l v fr put f' v' :
    f_write f l v = (fr, put, f', v') →
    (∀ q, apart q (fil_path f) → files v' q = files v q) ∧ fil_path f' = fil_path f ∧
    (fr = FR_OK → put = zlen l → fil_data f' = fil_data f ++ l);
  close_law f v fr v' :
    f_close f v = (fr, v') →
    (∀ q, apart q (fil_path f) → files v' q = files v q) ∧
    (fr = FR_OK → files v' (fil_path f) = Some (fil_data f));
  unlink_law p v fr v' :
    f_unlink p v = (fr, v') →
    (∀ q, apart q p → files v' q = files v q) ∧
    (fr = FR_OK → files v' p = None) ∧
    (fr ≠ FR_OK → files v' p = files v p ∨ files v' p = None) ∧
    (fr = FR_NO_FILE → files v p = None);
  rename_law p p' v fr v' :
    apart p p' → f_rename p p' v = (fr, v') →
    (∀ q, apart q p → apart q p' → files v' q = files v q) ∧
    (fr = FR_OK → files v' p' = files v p ∧ files v' p = None) ∧
    (fr ≠ FR_OK →
       (files v' p = files v p ∧ (files v' p' = files v p' ∨ files v' p' = files v p)) ∨
       (files v' p = None ∧ files v' p' = files v p));
}.

Section save.
Context {V FIL : Type} `{!Card V, !Volume V FIL, !VolumeLaws V FIL}.

(** Creating, writing and closing [tmp], and the result of the three calls. *)
Lemma write_file_law tmp src v fr1 f1 v1 fr2 put f2 v2 fr3 v3 :
  f_open tmp FA_CREATE_ALWAYS_WRITE v = (fr1, f1, v1) → fr1 = FR_OK →
  f_write f1 src v1 = (fr2, put, f2, v2) → f_close f2 v2 = (fr3, v3) →
  (∀ q, apart q tmp → files v3 q = files v q) ∧
  (fr2 = FR_OK → put = zlen src → fr3 = FR_OK → files v3 tmp = Some src).
Proof.
  intros Ho -> Hw Hc. destruct (create_law _ _ _ _ _ Ho) as [Hf1 Hd]. destruct (Hd eq_refl) as [Hp Hd1].
  destruct (write_law _ _ _ _ _ _ _ Hw) as (Hf2 & Hp2 & Hd2). destruct (close_law _ _ _ _ Hc) as [Hf3 Hd3].
  rewrite Hp2, Hp in Hf3, Hd3. rewrite Hp in Hf2. split.
  - intros q Hq. by rewrite Hf3, Hf2, Hf1.
  - intros H1 H2 H3. rewrite (Hd3 H3), (Hd2 H1 H2), Hd1. done.
Qed.

(** Where a save can stop: the file is as it was; or it is gone and the copy is
    complete; or the new content is in its place. *)
Definition save_states (path tmp src : list Z) (v v' : V) (rc : Z) : Prop :=
  (∀ q, apart q path → apart q tmp → files v' q = files v q) ∧
  ((rc ≠ 0 ∧ files v' path = files v path) ∨
   (rc ≠ 0 ∧ files v' path = None ∧ files v' tmp = Some src) ∨
   (files v' path = Some src ∧ (rc = 0 → files v' tmp = None))).

(** The last two steps, once the copy is complete. *)
Lemma replace_states path tmp src v fr4 v4 rc v' :
  apart path tmp → files v tmp = Some src → f_unlink path v = (fr4, v4) →
  (if negb (fr4 =? FR_OK) && negb (fr4 =? FR_NO_FILE) then (STORAGE_EIO, v4)
   else let '(fr, v) := f_rename tmp path v4 in (if fr =? FR_OK then 0 else STORAGE_EIO, v)) = (rc, v') →
  save_states path tmp src v v' rc.
Proof.
  intros Hap Htm Hu Hs. destruct (unlink_law _ _ _ _ Hu) as (Hf4 & Hok & Herr & Hno).
  assert (files v4 tmp = Some src) as Htm4 by (rewrite Hf4; [done|by apply apart_sym]).
  destruct (negb (fr4 =? FR_OK) && negb (fr4 =? FR_NO_FILE)) eqn:E5.
  - apply andb_true_iff in E5 as [E5%negb_true_iff%Z.eqb_neq _]. injection Hs as <- <-. split.
    + intros q Hp Hq. by rewrite Hf4.
    + destruct (Herr E5) as [H|H]; [by left|by right; left].
  - assert (files v4 path = None) as Hnone.
    { destruct (decide (fr4 = FR_OK)) as [H|H]; [by apply Hok|].
      rewrite (proj2 (Z.eqb_neq _ _)) in E5 by done. cbn in E5.
      apply negb_false_iff, Z.eqb_eq in E5. destruct (Herr H) as [->|H']; [by apply Hno|done]. }
    destruct (f_rename tmp path v4) as [fr5 v5] eqn:Hr.
    destruct (rename_law _ _ _ _ _ (apart_sym _ _ Hap) Hr) as (Hf5 & Hok5 & Herr5).
    injection Hs as <- <-. split; [intros q Hp Hq; by rewrite Hf5, Hf4|].
    destruct (fr5 =? FR_OK) eqn:E6.
    + apply Z.eqb_eq in E6. destruct (Hok5 E6) as [H1 H2]. right. right. by rewrite H1, H2.
    + apply Z.eqb_neq in E6. rewrite Htm4, Hnone in Herr5.
      destruct (Herr5 E6) as [[H1 [H2|H2]]|[H1 H2]]; [by right; left|by right; right|by right; right].
Qed.

Lemma storage_save_states path src v tmp rc v' :
  new_name path (FF_MAX_LFN + 1) = Some tmp → apart path tmp → storage_save path src v = (rc, v') →
  save_states path tmp src v v' rc.
Proof.
  intros Htmp Hap Hs. unfold storage_save in Hs. rewrite Htmp in Hs.
  destruct (f_open tmp FA_CREATE_ALWAYS_WRITE v) as [[fr1 f1] v1] eqn:Ho.
  destruct (fr1 =? FR_OK) eqn:E1; cbn [negb] in Hs.
  2: { injection Hs as <- <-. destruct (create_law _ _ _ _ _ Ho) as [Hf _].
       split; [auto|]. left. split; [done|]. by apply Hf. }
  apply Z.eqb_eq in E1.
  destruct (f_write f1 src v1) as [[[fr2 put] f2] v2] eqn:Hw. destruct (f_close f2 v2) as [fr3 v3] eqn:Hc.
  destruct (write_file_law tmp src v _ _ _ _ _ _ _ _ _ Ho E1 Hw Hc) as [Hf Hd].
  destruct (negb (fr3 =? FR_OK) || negb (fr2 =? FR_OK) || negb (put =? zlen src)) eqn:E2.
  - destruct (f_unlink tmp v3) as [fr4 v4] eqn:Hu. injection Hs as <- <-.
    destruct (unlink_law _ _ _ _ Hu) as (Hf4 & _). split.
    + intros q Hp Hq. by rewrite Hf4, Hf.
    + left. split; [done|]. by rewrite Hf4, Hf.
  - apply orb_false_iff in E2 as [[E3 E2]%orb_false_iff E4].
    apply negb_false_iff, Z.eqb_eq in E2, E3, E4. specialize (Hd E2 E4 E3).
    destruct (f_unlink path v3) as [fr4 v4] eqn:Hu.
    destruct (replace_states path tmp src v3 fr4 v4 rc v' Hap Hd Hu Hs) as [H1 H2].
    split; [intros q Hp Hq; by rewrite H1, Hf|]. by rewrite <-(Hf path).
Qed.

(** C37: replacing a file is safe while the file exists.  Whatever fails on the
    way, after [storage_save] of an existing file the old content is still at
    [path], or [path] is absent and [path.new] holds the new content whole, or
    [path] holds the new content; on success [path] holds it and [path.new] is
    gone.  Nothing else changes.  The paths are [apart], and FatFS keeps the
    laws above, which let a failing [f_unlink] or [f_rename] have done its work. *)
Theorem storage_save_safe path src old v :
  files v path = Some old → zlen path + 5 <= FF_MAX_LFN + 1 →
  let tmp := path ++ bytes_of ".new" in
  apart path tmp →
  let '(rc, v') := storage_save path src v in
  (∀ q, apart q path → apart q tmp → files v' q = files v q) ∧
  ((rc ≠ 0 ∧ files v' path = Some old) ∨
   (rc ≠ 0 ∧ files v' path = None ∧ files v' tmp = Some src) ∨
   (files v' path = Some src ∧ (rc = 0 → files v' tmp = None))).
Proof.
  intros Hold Hlen tmp Hap. destruct (storage_save path src v) as [rc v'] eqn:Hs.
  assert (new_name path (FF_MAX_LFN + 1) = Some tmp) as Htmp.
  { unfold new_name. by rewrite (proj2 (Z.ltb_ge _ _)). }
  destruct (storage_save_states path src v tmp rc v' Htmp Hap Hs) as [H1 H2]. rewrite Hold in H2. by split.
Qed.
End save.

(** ** Reading *)

(** The clusters of a link map, and the sector of sector number [s] of a file
    with these clusters. *)
Definition map_words (runs : list (Z * Z)) : list Z := flat_map (λ p, [fst p; snd p]) runs.
Definition map_chain (runs : list (Z * Z)) : list Z :=
  flat_map (λ p, map (λ i, snd p + Z.of_nat i) (seq 0 (Z.to_nat (fst p)))) runs.
Definition sector_of (csize database : Z) (chain : list Z) (s : Z) : Z :=
  database + (znth chain (s / csize) - 2) * csize + s mod csize.

(** Runs within the 32-bit sector numbers. *)
Definition runs_ok (csize database : Z) (runs : list (Z * Z)) : Prop :=
  Forall (λ p, 0 < fst p ∧ 2 <= snd p ∧ 0 <= database ∧
               database + (snd p + fst p) * csize < 4294967296 ∧ fst p * csize < 4294967296) runs.

Lemma map_run_length c n : 0 <= n → zlen (map (λ i, c + Z.of_nat i) (seq 0 (Z.to_nat n))) = n.
Proof. intros. unfold zlen. rewrite length_map, length_seq. lia. Qed.

Lemma znth_run c n i : 0 <= i < n → znth (map (λ i, c + Z.of_nat i) (seq 0 (Z.to_nat n))) i = c + i.
Proof.
  intros Hi. unfold znth. rewrite (nth_indep _ _ (c + Z.of_nat 0)) by (rewrite length_map, length_seq; lia).
  rewrite (map_nth (λ i, c + Z.of_nat i)), seq_nth by lia. lia.
Qed.

(** The sectors that [run_loop] announces are those of the chain, one after the other. *)
Definition run_right (csize database : Z) (chain : list Z) (k off : Z) (r : Z * Z) : Prop :=
  0 < snd r ∧ ∀ j, 0 <= j < snd r →
    (k * csize + off + j) / csize < zlen chain ∧
    fst r + j = sector_of csize database chain (k * csize + off + j).

Lemma run_bounds csize n c k :
  0 < csize → 0 <= k < n → 2 <= c →
  0 <= (c + k - 2) * csize ∧ (c + k - 2) * csize + csize <= (c + n) * csize ∧
  csize <= (n - k) * csize ∧ (n - k) * csize <= n * csize ∧
  n <= n * csize ∧ c + n <= (c + n) * csize.
Proof.
  intros. replace ((c + k - 2) * csize + csize) with ((c + k - 1) * csize) by ring.
  split_and!; first [apply Z.mul_nonneg_nonneg; lia|apply Z.mul_le_mono_nonneg_r; lia|nia].
Qed.

Lemma run_loop_right csize database runs rest k off :
  0 < csize → 0 <= off < csize → runs_ok csize database runs → 0 <= k < zlen (map_chain runs) →
  zlen (map_chain runs) < 4294967296 →
  run_right csize database (map_chain runs) k off (run_loop csize database k off (map_words runs ++ 0 :: rest)).
Proof.
  intros Hc Hoff Hok. revert k. induction Hok as [|[n c] runs (Hn & Hc2 & Hdb & Hb & Hnb) Hok IH]; intros k Hk Hlen.
  { change (zlen (map_chain [])) with 0 in Hk. lia. }
  cbn [fst snd] in *. cbn [map_chain flat_map fst snd] in *. fold (map_chain runs) in *.
  rewrite zlen_app, map_run_length in Hk, Hlen by lia.
  pose proof (zlen_nonneg (map_chain runs)) as Hnn.
  cbn [map_words flat_map app fst snd run_loop]. fold (map_words runs).
  assert (nonzero n = true) as -> by (unfold nonzero; rewrite (proj2 (Z.eqb_neq n 0)) by lia; done). cbn [negb].
  set (run := map _ _). assert (zlen run = n) as Hrun by (apply map_run_length; lia).
  destruct (k <? n) eqn:E.
  - apply Z.ltb_lt in E.
    destruct (run_bounds csize n c k) as (Hm1 & Hm2 & Hm3 & Hm4 & Hm5 & Hm6); [lia..|].
    rewrite (u32_id (c + k - 2)), (u32_id ((c + k - 2) * csize)), (u32_id (n - k)) by (unfold word_ok; lia).
    rewrite (u32_id ((n - k) * csize - off)), (u32_id (database + _ + off)) by (unfold word_ok; lia).
    unfold run_right. cbn [fst snd]. split; [lia|]. intros j Hj. rewrite zlen_app, Hrun.
    clear Hm1 Hm2 Hm3 Hm4 Hm5 Hm6 Hb Hnb IH.
    assert ((k * csize + off + j) / csize < n) as Hlt by (apply Z.div_lt_upper_bound; lia).
    assert (k <= (k * csize + off + j) / csize) as Hge by (apply Z.div_le_lower_bound; lia).
    split; [lia|]. unfold sector_of. rewrite znth_app_l by lia. unfold run. rewrite znth_run by lia.
    pose proof (Z.div_mod (k * csize + off + j) csize ltac:(lia)) as Hdm. lia.
  - apply Z.ltb_ge in E. rewrite u32_id by (unfold word_ok; lia).
    destruct (IH (k - n)) as [Hpos Hj]; [lia|lia|]. split; [done|]. intros j Hjr. destruct (Hj j Hjr) as [H1 H2].
    assert (0 <= k * csize) as Hk0 by nia.
    assert ((k * csize + off + j) / csize = n + ((k - n) * csize + off + j) / csize) as Hd.
    { rewrite <-Z.div_add_l by lia. f_equal. lia. }
    split; [rewrite zlen_app, Hrun, Hd; lia|]. rewrite H2. unfold sector_of.
    assert (0 <= ((k - n) * csize + off + j) / csize) by (apply Z.div_pos; nia).
    rewrite Hd, znth_app_r, Hrun by lia. replace (n + _ - n) with (((k - n) * csize + off + j) / csize) by lia.
    f_equal. replace (k * csize + off + j) with ((k - n) * csize + off + j + n * csize) by lia.
    by rewrite Z.mod_add by lia.
Qed.

(** A link map in FatFS's format for a file with the content [bytes]: a size,
    pairs of a length and a first cluster, and 0; the sectors of the clusters
    are sectors of files ([own]) and hold the file. *)
Definition sectors_hold (csize database : Z) (own : Z → Prop) (sectors : Z → list Z) (bytes chain : list Z) : Prop :=
  ∀ s, 0 <= s → 512 * (s + 1) <= zlen bytes →
    s / csize < zlen chain ∧ own (sector_of csize database chain s) ∧
    sectors (sector_of csize database chain s) = take 512 (drop (Z.to_nat (512 * s)) bytes).
Definition link_map_ok (csize database : Z) (own : Z → Prop) (sectors : Z → list Z) (bytes t : list Z) : Prop :=
  0 < csize ∧ ∃ w runs rest,
    t = w :: map_words runs ++ 0 :: rest ∧ zlen (map_chain runs) < 4294967296 ∧ runs_ok csize database runs ∧
    sectors_hold csize database own sectors bytes (map_chain runs).

(** What [storage_read] relies on.  A file object that is open for reading has a
    content of less than 4 GB.  [sector_data] is what the card holds and
    [file_sector] says which of its sectors belong to the data of files: a read
    or a seek may write back a sector of the FAT or of a directory, and leaves
    these alone.  A seek stops at the end of the file ([0xFFFFFFFF] is the
    request for a link map); a link map that FatFS made describes the file. *)
Class ReadLaws (V FIL : Type) `{!Card V, !Volume V FIL} := {
  reading : FIL → Prop;
  fil_bytes : FIL → list Z;
  sector_data : V → Z → list Z;
  file_sector : V → Z → Prop;
  same_card (v v' : V) := fs_csize v' = fs_csize v ∧ fs_database v' = fs_database v ∧
    ∀ s, file_sector v s → file_sector v' s ∧ sector_data v' s = sector_data v s;
  size_law f : reading f → f_size f = zlen (fil_bytes f) ∧ zlen (fil_bytes f) < 4294967296;
  read_law f n v fr l f' v' :
    reading f → f_read f n v = (fr, l, f', v') →
    same_card v v' ∧ reading f' ∧ fil_bytes f' = fil_bytes f ∧
    (fr = FR_OK → l = take (Z.to_nat n) (drop (Z.to_nat (f_tell f)) (fil_bytes f)) ∧ f_tell f' = f_tell f + zlen l);
  lseek_law f n v fr f' v' :
    reading f → 0 <= n < 4294967295 → f_lseek f n v = (fr, f', v') →
    same_card v v' ∧ reading f' ∧ fil_bytes f' = fil_bytes f ∧
    (fr = FR_OK → f_tell f' = Z.min n (zlen (fil_bytes f)));
  linkmap_law f n v fr t f' v' :
    reading f → f_linkmap f n v = (fr, t, f', v') →
    same_card v v' ∧ reading f' ∧ fil_bytes f' = fil_bytes f ∧ f_tell f' = f_tell f ∧
    (fr = FR_OK → link_map_ok (fs_csize v) (fs_database v) (file_sector v) (sector_data v) (fil_bytes f) t);
  blocks_law lba n v rc l v' :
    sd_read_blocks lba n v = (rc, l, v') →
    same_card v v' ∧
    (rc = 0 → l = flat_map (λ i, sector_data v (lba + Z.of_nat i)) (seq 0 (Z.to_nat n)));
  init_law v rc v' : sd_init v = (rc, v') → same_card v v';
  speed_law v rc v' : sd_high_speed v = (rc, v') → same_card v v';
}.

Section read.
Context {V FIL : Type} `{!Card V, !Volume V FIL, !ReadLaws V FIL}.

#[export] Instance same_card_preorder : PreOrder same_card.
Proof.
  split.
  - intros v. split_and!; [done|done|]. auto.
  - intros v1 v2 v3 (H1 & H2 & H3) (H4 & H5 & H6). split_and!; [congruence|congruence|].
    intros s Hs. destruct (H3 s Hs) as [H7 H8]. destruct (H6 s H7) as [H9 H10]. split; [done|congruence].
Qed.

Lemma card_start_law v rc v' : card_start v = (rc, v') → same_card v v'.
Proof.
  unfold card_start. destruct (sd_init v) as [r1 v1] eqn:H1. pose proof (init_law _ _ _ H1) as E1.
  destruct (nonzero r1); [by intros [= <- <-]|].
  destruct (sd_high_speed v1) as [r2 v2] eqn:H2. pose proof (speed_law _ _ _ H2) as E2.
  intros [= <- <-]. by etrans.
Qed.

(** A link map that is in use. *)
Definition mapped (f : FIL) (st : storage_st) (v : V) : Prop :=
  link_map_ok (fs_csize v) (fs_database v) (file_sector v) (sector_data v) (fil_bytes f) (clmt st).
Lemma link_map_same bytes t v v' :
  same_card v v' → link_map_ok (fs_csize v) (fs_database v) (file_sector v) (sector_data v) bytes t →
  link_map_ok (fs_csize v') (fs_database v') (file_sector v') (sector_data v') bytes t.
Proof.
  intros (H1 & H2 & H3) (Hc & w & runs & rest & Ht & Hl & Hok & Hs). rewrite H1, H2.
  split; [done|]. exists w, runs, rest. split_and!; try done. intros s H0 Hb.
  destruct (Hs s H0 Hb) as (H4 & H5 & H6). destruct (H3 _ H5) as [H7 ->]. by split_and!.
Qed.
Lemma mapped_same f f' st v v' :
  same_card v v' → fil_bytes f' = fil_bytes f → mapped f st v → mapped f' st v'.
Proof. unfold mapped. intros Hc ->. by apply link_map_same. Qed.

Lemma take_drop_app {A} (l : list A) i n m :
  take n (drop i l) ++ take m (drop (i + n) l) = take (n + m) (drop i l).
Proof. rewrite <-drop_drop. symmetry. rewrite Nat.add_comm, <-(take_drop n (drop i l)) at 1.
  destruct (decide (n <= length (drop i l))%nat) as [H|H].
  - rewrite take_app, length_take, take_take. f_equal; [f_equal; lia|f_equal; lia].
  - rewrite (drop_ge (drop i l) n), take_nil, !app_nil_r by lia. rewrite take_take. f_equal. lia.
Qed.

(** A transfer of [n] sectors from sector [s] of the file. *)
Lemma sectors_content csize database own sectors bytes chain s n :
  sectors_hold csize database own sectors bytes chain → 0 <= s → 512 * (s + Z.of_nat n) <= zlen bytes →
  flat_map (λ i, sectors (sector_of csize database chain (s + Z.of_nat i))) (seq 0 n) =
  take (512 * n) (drop (Z.to_nat (512 * s)) bytes).
Proof.
  intros Hs H0. induction n as [|n IH]; intros Hn; [done|].
  rewrite seq_S, flat_map_app, IH by lia. cbn [flat_map]. rewrite app_nil_r, Nat.add_0_l.
  destruct (Hs (s + Z.of_nat n)) as (_ & _ & ->); [lia..|].
  replace (Z.to_nat (512 * (s + Z.of_nat n))) with (Z.to_nat (512 * s) + 512 * n)%nat by lia.
  rewrite take_drop_app. f_equal. lia.
Qed.

Lemma run_at_content f st v pos lba n m :
  mapped f st v → 0 <= pos → pos mod 512 = 0 → 512 <= zlen (fil_bytes f) - pos →
  run_at (fs_csize v) (fs_database v) (clmt st) pos = (lba, n) →
  0 < n ∧ (0 <= m <= n → pos + 512 * m <= zlen (fil_bytes f) →
    flat_map (λ i, sector_data v (lba + Z.of_nat i)) (seq 0 (Z.to_nat m)) =
    take (Z.to_nat (512 * m)) (drop (Z.to_nat pos) (fil_bytes f))).
Proof.
  intros (Hcs & w & runs & rest & Hw & Hcl & Hok & Hs) Hp0 Hpm Hlen Hr. unfold run_at in Hr. rewrite Hw in Hr.
  change (drop 1 (w :: map_words runs ++ 0 :: rest)) with (map_words runs ++ 0 :: rest) in Hr.
  set (cs := fs_csize v) in *. set (s := pos / 512) in *.
  assert (pos = 512 * s) as Hps by (unfold s; pose proof (Z.div_mod pos 512 ltac:(lia)); lia).
  assert (0 <= s) as Hs0 by (unfold s; apply Z.div_pos; lia).
  destruct (Hs s) as (Hin & _); [lia..|].
  assert (0 <= s / cs) as Hk0 by (apply Z.div_pos; lia).
  rewrite u32_id in Hr by (unfold word_ok; lia).
  pose proof (run_loop_right cs (fs_database v) runs rest (s / cs) (s mod cs)) as [Hpos Hj];
    [done|by apply Z.mod_pos_bound|done|lia|done|].
  rewrite Hr in Hpos, Hj. cbn [fst snd] in Hpos, Hj. split; [done|]. intros Hm Hfit.
  assert (s / cs * cs + s mod cs = s) as Hsk by (rewrite Z.mul_comm; symmetry; apply Z.div_mod; lia).
  rewrite Hsk in Hj.
  pose proof (sectors_content _ _ _ _ _ _ s (Z.to_nat m) Hs Hs0 ltac:(lia)) as Hc.
  rewrite Hps. replace (Z.to_nat (512 * m)) with (512 * Z.to_nat m)%nat by lia. rewrite <-Hc.
  rewrite !flat_map_concat_map. f_equal. apply map_ext_in. intros i Hi. apply in_seq in Hi.
  f_equal. destruct (Hj (Z.of_nat i)) as [_ ->]; [lia|]. done.
Qed.

(** The file is open for reading, and the link map is right whenever it is in use. *)
Definition map_ok (f : FIL) (st : storage_st) (v : V) : Prop :=
  reading f ∧ (cltbl st = true → mapped f st v).
Lemma map_ok_same f f' st v v' :
  same_card v v' → reading f' → fil_bytes f' = fil_bytes f → map_ok f st v → map_ok f' st v'.
Proof. intros H1 H2 H3 [_ Hm]. split; [done|]. intros Hc. eapply mapped_same; eauto. Qed.

(** What the loop adds to [acc]: the next bytes of the file.  A result that is
    decided in the loop is an error. *)
Definition reads_on (f : FIL) (acc : list Z) (len : Z)
    (res : option Z * list Z * FIL * storage_st * Z * V) : Prop :=
  let '(r, acc', f', st', len', v') := res in
  (∀ rc, r = Some rc → rc = STORAGE_EIO) ∧ fil_bytes f' = fil_bytes f ∧ map_ok f' st' v' ∧
  (r = None → ∃ k, 0 <= k <= len ∧ len' = len - k ∧ f_tell f' = f_tell f + k ∧
                   acc' = acc ++ take (Z.to_nat k) (drop (Z.to_nat (f_tell f)) (fil_bytes f))).

Lemma reads_none f acc len st v :
  0 <= len → map_ok f st v → reads_on f acc len (None, acc, f, st, len, v).
Proof.
  intros. unfold reads_on. split_and!; try done. intros _. exists 0. split_and!; [lia|lia|lia|lia|].
  change (Z.to_nat 0) with 0%nat. by rewrite take_0, app_nil_r.
Qed.
Lemma reads_some f f' acc acc' len len' rc st v :
  rc = STORAGE_EIO → fil_bytes f' = fil_bytes f → map_ok f' st v →
  reads_on f acc len (Some rc, acc', f', st, len', v).
Proof. intros. unfold reads_on. split_and!; try done. by intros ? [= <-]. Qed.

Lemma reads_step f f1 acc len k res :
  0 <= k <= len → 0 <= f_tell f → f_tell f1 = f_tell f + k → fil_bytes f1 = fil_bytes f →
  reads_on f1 (acc ++ take (Z.to_nat k) (drop (Z.to_nat (f_tell f)) (fil_bytes f))) (len - k) res →
  reads_on f acc len res.
Proof.
  intros Hk Ht Ht1 Hb. unfold reads_on. destruct res as [[[[[r acc'] f'] st'] len'] v'].
  intros (H1 & H2 & H3 & H5). split_and!; [done|congruence|done|].
  intros Hr. destruct (H5 Hr) as (k' & Hk' & Hl' & Ht' & Ha). exists (k + k').
  split_and!; [lia..|lia|lia|]. rewrite Ha, <-app_assoc, Ht1, Hb, !Z2Nat.inj_add, take_drop_app by lia. done.
Qed.

Lemma read_runs_content fuel f st len acc v :
  map_ok f st v → 0 <= f_tell f → (512 <= len → cltbl st = true ∧ f_tell f mod 512 = 0) →
  0 <= len → f_tell f + len <= zlen (fil_bytes f) →
  reads_on f acc len (read_runs fuel f st len acc v).
Proof.
  revert f st len acc v. induction fuel as [|fuel IH]; intros f st len acc v Hmap Ht Hal Hl Hlen;
    cbn [read_runs]; [by apply reads_none|].
  destruct (512 <=? len) eqn:El; [|by apply reads_none]. apply Z.leb_le in El. destruct (Hal El) as [Hcl Hal']. clear Hal.
  destruct Hmap as [Hrdg Hmap]. pose proof (Hmap Hcl) as Hmp. destruct (size_law f Hrdg) as [_ Hsz].
  assert (map_ok f st v) as Hm0 by by split.
  destruct (run_at _ _ _ _) as [lba n0] eqn:Hrun.
  destruct (run_at_content f st v (f_tell f) lba n0 0 Hmp Ht Hal' ltac:(lia) Hrun) as [Hn0 _].
  set (n1 := if len / 512 <? n0 then len / 512 else n0).
  set (n := if SD_BLOCKS_MAX <? n1 then SD_BLOCKS_MAX else n1).
  assert (1 <= len / 512) as Hq by (apply Z.div_le_lower_bound; lia).
  assert (0 < n <= n0 ∧ n <= len / 512) as [Hn Hnl] by (unfold n, n1, SD_BLOCKS_MAX; repeat case_match; lia).
  assert (512 * n <= len) as Hnb by (pose proof (Z.div_mod len 512 ltac:(lia)); pose proof (Z.mod_pos_bound len 512); lia).
  clearbody n.
  rewrite (proj2 (Z.eqb_neq n 0)) by lia.
  destruct (sd_read_blocks lba n v) as [[rc data] v1] eqn:Hrd.
  destruct (blocks_law _ _ _ _ _ _ Hrd) as [Hc1 Hd].
  assert (map_ok f st v1) as Hmap1 by (by eapply map_ok_same).
  destruct (rc =? SD_ENOCMD23); [by apply reads_none|].
  destruct (nonzero rc) eqn:Erc.
  { destruct (card_start v1) as [rc2 v2] eqn:Hcs. pose proof (card_start_law _ _ _ Hcs) as Hc2.
    assert (map_ok f st v2) by (by eapply map_ok_same).
    destruct (nonzero rc2); [by apply reads_some|by apply reads_none]. }
  apply nonzero_false in Erc as ->.
  destruct (f_lseek f (f_tell f + n * 512) v1) as [[fr f2] v2] eqn:Hsk.
  assert (0 <= f_tell f + n * 512 < 4294967295) as Hpos.
  { pose proof (Z.div_mod (f_tell f) 512 ltac:(lia)). lia. }
  destruct (lseek_law _ _ _ _ _ _ Hrdg Hpos Hsk) as (Hc2 & Hr2 & Hb2 & Hok2).
  assert (map_ok f2 st v2) by (by eapply map_ok_same).
  destruct (fr =? FR_OK) eqn:Efr; cbn [negb]; [|by apply reads_some].
  apply Z.eqb_eq in Efr. specialize (Hok2 Efr). rewrite Z.min_l in Hok2 by lia. rewrite (Hd eq_refl).
  destruct (run_at_content f st v (f_tell f) lba n0 n Hmp Ht Hal' ltac:(lia) Hrun) as [_ Hcont].
  rewrite Hcont by lia.
  apply (reads_step f f2 acc len (512 * n)); [lia|done|lia|done|]. replace (n * 512) with (512 * n) by lia.
  apply IH; [done|lia| |lia|rewrite Hb2; lia].
  intros _. split; [done|]. replace (n * 512) with (512 * n) in Hok2 by lia.
  rewrite Hok2, Z.mul_comm, Z.mod_add by lia. done.
Qed.

Lemma read_slow_content f len v rc data f' v' :
  reading f → 0 <= len → read_slow f len v = (rc, data, f', v') →
  same_card v v' ∧ reading f' ∧ fil_bytes f' = fil_bytes f ∧ (rc = 0 ∨ rc = STORAGE_EIO) ∧
  (rc = 0 → data = take (Z.to_nat len) (drop (Z.to_nat (f_tell f)) (fil_bytes f)) ∧ f_tell f' = f_tell f + len).
Proof.
  intros Hg Hl. unfold read_slow. destruct (f_read f len v) as [[[fr l] f1] v1] eqn:Hrd.
  destruct (read_law _ _ _ _ _ _ _ Hg Hrd) as (H1 & H2 & H3 & H4).
  destruct (negb (fr =? FR_OK) || negb (zlen l =? len)) eqn:E; intros [= <- <- <- <-]; [split_and!; auto; done|].
  apply orb_false_iff in E as [E1%negb_false_iff%Z.eqb_eq E2%negb_false_iff%Z.eqb_eq].
  destruct (H4 E1) as [H5 H6]. split_and!; [done|done|done|by left|]. intros _. by rewrite H6, E2.
Qed.

(** The link map that [storage_read] makes. *)
Lemma storage_start f st v f0 st0 v0 :
  map_ok f st v →
  (if cltbl st then (f, st, v)
   else let '(fr, t, f, v) := f_linkmap f CLMT_WORDS v in
        (f, StorageSt (single_blocks st) t (fr =? FR_OK), v)) = (f0, st0, v0) →
  map_ok f0 st0 v0 ∧ fil_bytes f0 = fil_bytes f ∧ f_tell f0 = f_tell f.
Proof.
  intros Hmap. destruct (cltbl st) eqn:E; [intros [= <- <- <-]; by split_and!|].
  destruct (f_linkmap f CLMT_WORDS v) as [[[fr t] f1] v1] eqn:Hlm. intros [= <- <- <-].
  destruct (linkmap_law _ _ _ _ _ _ _ (proj1 Hmap) Hlm) as (H1 & H2 & H3 & H4 & H5).
  split_and!; [|done|done]. split; [done|].
  intros Hc. cbn in Hc. apply Z.eqb_eq in Hc. unfold mapped. rewrite H3. eapply link_map_same; [done|by apply H5].
Qed.

(** The part that is read before the transfers: all of it, or up to a sector. *)
Lemma storage_head len pos (c : bool) head :
  0 <= len → (c = false → (512 - pos mod 512) mod 512 <= len) →
  head = (if c then len else (512 - pos mod 512) mod 512) →
  0 <= head <= len ∧ (head < len → c = false ∧ (pos + head) mod 512 = 0).
Proof.
  intros Hl Hc ->. pose proof (Z.mod_pos_bound (512 - pos mod 512) 512 ltac:(lia)).
  destruct c; [lia|]. specialize (Hc eq_refl). split; [lia|]. intros _. split; [done|].
  rewrite Z.add_mod_idemp_r by lia. replace (pos + (512 - pos mod 512)) with (pos - pos mod 512 + 1 * 512) by lia.
  rewrite Z.mod_add by lia. rewrite Zminus_mod_idemp_r, Z.sub_diag. done.
Qed.

Lemma storage_read_ok f al len st v :
  map_ok f st v →
  0 <= len → 0 <= f_tell f → f_tell f + len <= zlen (fil_bytes f) →
  let '(rc, data, f', st', v') := storage_read f al len st v in
  map_ok f' st' v' ∧ fil_bytes f' = fil_bytes f ∧ (rc = 0 ∨ rc = STORAGE_EIO) ∧
  (rc = 0 → data = take (Z.to_nat len) (drop (Z.to_nat (f_tell f)) (fil_bytes f)) ∧ f_tell f' = f_tell f + len).
Proof.
  intros Hmap Hl Ht Hlen. unfold storage_read.
  set (start := if cltbl st then _ else _). destruct start as [[f0 st0] v0] eqn:Hstart.
  destruct (storage_start f st v f0 st0 v0 Hmap Hstart) as (Hmap0 & Hb0 & Ht0).
  rewrite <-Hb0, <-Ht0 in Hlen |- *. rewrite <-Ht0 in Ht. clear start Hstart.
  set (h := (512 - f_tell f0 mod 512) mod 512).
  set (c := (len <? h) || negb (cltbl st0) || single_blocks st0 || nonzero ((al + h) .& 63)).
  set (head := if c then len else h).
  destruct (storage_head len (f_tell f0) c head Hl) as [Hhd Hal]; [unfold c; fold h; lia|done|].
  destruct (read_slow f0 head v0) as [[[rc data] f1] v1] eqn:Hr.
  destruct (read_slow_content f0 head v0 _ _ _ _ (proj1 Hmap0) ltac:(lia) Hr) as (Hc1 & Hg1 & Hb1 & Hrc1 & Hok1).
  assert (map_ok f1 st0 v1) as Hmap1 by (by eapply map_ok_same).
  destruct (nonzero rc) eqn:Erc; [split_and!; auto; done|]. apply nonzero_false in Erc as ->.
  destruct (Hok1 eq_refl) as [-> Ht1]. clear Hok1.
  pose proof (read_runs_content (Z.to_nat (len / 512)) f1 st0 (len - head)
                (take (Z.to_nat head) (drop (Z.to_nat (f_tell f0)) (fil_bytes f0))) v1 Hmap1) as Hruns.
  destruct (read_runs _ _ _ _ _ _) as [[[[[r acc] f2] st2] rest] v2].
  destruct Hruns as (Hrc & Hb2 & Hmap2 & Hnone); [lia| |lia|rewrite Hb1; lia|].
  { intros Hge. destruct (Hal ltac:(lia)) as [H1 H2]. rewrite Ht1, H2. split; [|done].
    unfold c in H1. destruct (cltbl st0); [done|]. by rewrite orb_true_r in H1. }
  destruct r as [rc|]; [split_and!; [done|congruence|right; by apply Hrc|]; intros ->; by discriminate (Hrc 0)|].
  destruct (Hnone eq_refl) as (k & Hk & -> & Ht2 & ->).
  destruct (read_slow f2 (len - head - k) v2) as [[[rc2 data2] f3] v3] eqn:Hr2.
  destruct (read_slow_content f2 (len - head - k) v2 _ _ _ _ (proj1 Hmap2) ltac:(lia) Hr2) as (Hc3 & Hg3 & Hb3 & Hrc3 & Hok3).
  split_and!; [by eapply map_ok_same|congruence|done|].
  intros Hz. destruct (Hok3 Hz) as [-> ->]. split; [|lia].
  rewrite Hb2, Ht2, Hb1, Ht1, !Z2Nat.inj_add, take_drop_app, <-Nat.add_assoc, take_drop_app by lia. f_equal. lia.
Qed.

(** C7: [storage_read] reads the file.  For a file that is open for reading, with
    a link map that is absent or describes the file, a read within the file that reports success returns the [len] bytes at the position of the
    file and moves the position by [len], whatever mix of single-sector reads,
    multiple-block transfers along the link map and retries it used; the
    conditions hold again for the next read. *)
Theorem storage_read_content f al len st v :
  map_ok f st v →
  0 <= len → 0 <= f_tell f → f_tell f + len <= zlen (fil_bytes f) →
  let '(rc, data, f', st', v') := storage_read f al len st v in
  map_ok f' st' v' ∧ fil_bytes f' = fil_bytes f ∧ (rc = 0 ∨ rc = STORAGE_EIO) ∧
  (rc = 0 → data = take (Z.to_nat len) (drop (Z.to_nat (f_tell f)) (fil_bytes f)) ∧ f_tell f' = f_tell f + len).
Proof. intros. by apply storage_read_ok. Qed.
End read.

(** ** Loading a file *)

(** Opening a file for reading finds the file of the volume. *)
Class LoadLaws (V FIL : Type) `{!Card V, !Volume V FIL, !VolumeLaws V FIL, !ReadLaws V FIL} := {
  open_read_law p v fr f v' :
    f_open p FA_READ v = (fr, f, v') →
    (∀ q, files v' q = files v q) ∧
    (fr = FR_OK → reading f ∧ files v p = Some (fil_bytes f) ∧ f_tell f = 0) ∧
    (fr = FR_NO_FILE ∨ fr = FR_NO_PATH → files v p = None);
}.

Section load.
Context {V FIL : Type} `{!Card V, !Volume V FIL, !VolumeLaws V FIL, !ReadLaws V FIL, !LoadLaws V FIL}.

Lemma load_one_content path dst max st v rc data st' v' :
  word_ok max → load_one path dst max st v = (rc, data, st', v') →
  (rc = 0 → files v path = Some data ∧ 0 < zlen data <= max) ∧
  (rc = STORAGE_ENOTFOUND → files v path = None ∧ ∀ q, files v' q = files v q).
Proof.
  intros Hmax. unfold load_one. destruct (f_open path FA_READ v) as [[fr f] v1] eqn:Ho.
  destruct (open_read_law _ _ _ _ _ Ho) as (Hq & Hok & Hno).
  destruct ((fr =? FR_NO_FILE) || (fr =? FR_NO_PATH)) eqn:E1.
  { intros [= <- <- <- <-]. split; [done|]. intros _. split; [|done]. apply Hno.
    apply orb_true_iff in E1 as [H|H]; apply Z.eqb_eq in H; auto. }
  destruct (fr =? FR_OK) eqn:E2; cbn [negb]; [|by intros [= <- <- <- <-]].
  apply Z.eqb_eq in E2. destruct (Hok E2) as (Hg & Hf & Ht). destruct (size_law f Hg) as [Hs _]. rewrite Hs.
  destruct ((zlen (fil_bytes f) =? 0) || (max <? zlen (fil_bytes f))) eqn:E3.
  { destruct (f_close f v1) as [frc v2]. by intros [= <- <- <- <-]. }
  apply orb_false_iff in E3 as [E3 E4]. pose proof (zlen_nonneg (fil_bytes f)).
  rewrite u32_id by (unfold word_ok in *; lia).
  pose proof (storage_read_ok f dst (zlen (fil_bytes f)) (StorageSt (single_blocks st) (clmt st) false) v1) as Hr.
  destruct (storage_read f dst _ _ v1) as [[[[rc1 data1] f1] st1] v2].
  destruct Hr as (_ & _ & Hrc & Hd); [by split|lia|lia|lia|]. rewrite Ht in Hd. change (Z.to_nat 0) with 0%nat in Hd.
  unfold zlen in Hd. rewrite Nat2Z.id, drop_0, firstn_all in Hd.
  destruct (f_close f1 v2) as [frc v3]. destruct (nonzero rc1) eqn:Erc.
  - intros [= <- <- <- <-]. apply nonzero_true in Erc. split; [done|]. intros ->.
    destruct Hrc as [H1|H1]; discriminate H1.
  - apply nonzero_false in Erc as ->. destruct (Hd eq_refl) as [-> _].
    intros [= <- <- <- <-]. split; [|done]. intros _. split; [done|lia].
Qed.

Lemma storage_load_ok path dst max st v :
  word_ok max → zlen path + 5 <= FF_MAX_LFN + 1 →
  let tmp := path ++ bytes_of ".new" in
  let '(rc, data, _, _) := storage_load path dst max st v in
  (rc = 0 → (files v path = Some data ∨ (files v path = None ∧ files v tmp = Some data)) ∧ 0 < zlen data <= max) ∧
  (rc = STORAGE_ENOTFOUND → files v path = None ∧ files v tmp = None).
Proof.
  intros Hmax Hlen tmp. unfold storage_load.
  destruct (load_one path dst max st v) as [[[rc data] st1] v1] eqn:H1.
  destruct (load_one_content _ _ _ _ _ _ _ _ _ Hmax H1) as [Hok Hno].
  destruct (rc =? STORAGE_ENOTFOUND) eqn:E; cbn [negb].
  2: { apply Z.eqb_neq in E. split; [|done]. intros Hz. destruct (Hok Hz). auto. }
  apply Z.eqb_eq in E. destruct (Hno E) as [Hp Hsame].
  assert (new_name path (FF_MAX_LFN + 1) = Some tmp) as -> by (unfold new_name; by rewrite (proj2 (Z.ltb_ge _ _))).
  destruct (load_one tmp dst max st1 v1) as [[[rc2 data2] st2] v2] eqn:H2.
  destruct (load_one_content _ _ _ _ _ _ _ _ _ Hmax H2) as [Hok2 Hno2]. rewrite <-(Hsame tmp). split.
  - intros Hz. destruct (Hok2 Hz) as [H3 H4]. split; [|done]. right. by rewrite Hp.
  - intros Hz. destruct (Hno2 Hz) as [H3 _]. by rewrite Hp.
Qed.

(** [storage_load] finds the file, or the copy that an interrupted save left.
    On success the data are the whole content of [path], or, when there is no
    [path], of [path.new]; they are not empty and fit the buffer.  The answer
    that nothing was found is given only if neither exists. *)
Theorem storage_load_content path dst max st v :
  word_ok max → zlen path + 5 <= FF_MAX_LFN + 1 →
  let tmp := path ++ bytes_of ".new" in
  let '(rc, data, _, _) := storage_load path dst max st v in
  (rc = 0 → (files v path = Some data ∨ (files v path = None ∧ files v tmp = Some data)) ∧ 0 < zlen data <= max) ∧
  (rc = STORAGE_ENOTFOUND → files v path = None ∧ files v tmp = None).
Proof. apply storage_load_ok. Qed.
End load.

(** ** A volume in memory *)

(** The volume of the examples: files in a map, and a fault that makes the next
    write fail. *)
Record ramdisk := RamDisk { rd_files : gmap (list Z) (list Z); rd_fault : bool }.
Record ramfile := RamFile { rf_path : list Z; rf_data : list Z; rf_pos : Z }.

#[export] Instance ram_card : Card ramdisk := {|
  sd_init v := (0, v);
  sd_high_speed v := (0, v);
  sd_read_block lba v := (-1, [], v);
  sd_write_block lba l v := (-1, v);
  sd_read_blocks lba n v := (-1, [], v);
|}.

#[export] Instance ram_volume : Volume ramdisk ramfile := {|
  f_open p m v :=
    match m, rd_files v !! p with
    | FA_READ, None => (FR_NO_FILE, RamFile p [] 0, v)
    | FA_READ, Some l => (if zlen l <? 4294967296 then FR_OK else 1, RamFile p l 0, v)
    | FA_CREATE_ALWAYS_WRITE, _ => (FR_OK, RamFile p [] 0, RamDisk (<[p := []]> (rd_files v)) (rd_fault v))
    end;
  f_close f v := (FR_OK, RamDisk (<[rf_path f := rf_data f]> (rd_files v)) (rd_fault v));
  f_read f n v :=
    let l := take (Z.to_nat n) (drop (Z.to_nat (rf_pos f)) (rf_data f)) in
    (FR_OK, l, RamFile (rf_path f) (rf_data f) (rf_pos f + zlen l), v);
  f_write f l v :=
    if rd_fault v then (1, 0, f, v)
    else (FR_OK, zlen l, RamFile (rf_path f) (rf_data f ++ l) (rf_pos f + zlen l), v);
  f_lseek f n v := (FR_OK, RamFile (rf_path f) (rf_data f) (Z.min n (zlen (rf_data f))), v);
  f_linkmap f n v := (17, [], f, v);
  f_unlink p v :=
    match rd_files v !! p with
    | None => (FR_NO_FILE, v)
    | Some _ => (FR_OK, RamDisk (delete p (rd_files v)) (rd_fault v))
    end;
  f_rename p q v :=
    match rd_files v !! p, rd_files v !! q with
    | Some l, None => (FR_OK, RamDisk (<[q := l]> (delete p (rd_files v))) (rd_fault v))
    | _, _ => (8, v)
    end;
  f_tell f := rf_pos f;
  f_size f := zlen (rf_data f);
  fs_csize v := 8;
  fs_database v := 0;
|}.

#[export, refine] Instance ram_laws : VolumeLaws ramdisk ramfile := {|
  files v p := rd_files v !! p;
  fil_path := rf_path;
  fil_data := rf_data;
  apart p q := p ≠ q;
|}.
Proof.
  - done.
  - intros p v fr f v' [= <- <- <-]. split; [|done]. intros q Hq. cbn. by apply lookup_insert_ne.
  - intros f l v fr put f' v' H. cbn in H. destruct (rd_fault v); injection H as <- <- <- <-; by split_and!.
  - intros f v fr v' [= <- <-]. cbn. split.
    + intros q Hq. by apply lookup_insert_ne.
    + intros _. apply lookup_insert_eq.
  - intros p v fr v' H. cbn in H. destruct (rd_files v !! p) eqn:E; injection H as <- <-; cbn.
    + split_and!; try done; [intros q Hq; by apply lookup_delete_ne|intros _; apply lookup_delete_eq].
    + split_and!; try done. by left.
  - intros p q v fr v' _ H. cbn in H.
    destruct (rd_files v !! p) eqn:E, (rd_files v !! q) eqn:E'; injection H as <- <-; cbn;
      try by (split_and!; try done; left; split; [done|by left]).
    assert (p ≠ q) as Hne by (intros ->; congruence).
    split_and!; try done.
    + intros r H1 H2. rewrite lookup_insert_ne, lookup_delete_ne by done. done.
    + intros _. rewrite lookup_insert_eq, lookup_insert_ne, lookup_delete_eq by done. done.
Defined.

(** A file of the examples is open for reading while it is small. *)
#[export, refine] Instance ram_read_laws : ReadLaws ramdisk ramfile := {|
  reading f := zlen (rf_data f) < 4294967296;
  fil_bytes := rf_data;
  sector_data _ _ := [];
  file_sector _ _ := False;
|}.
Proof.
  - done.
  - intros f n v fr l f' v' Hf [= <- <- <- <-]. by split_and!.
  - intros f n v fr f' v' Hf Hn [= <- <- <-]. by split_and!.
  - intros f n v fr t f' v' Hf [= <- <- <- <-]. by split_and!.
  - intros lba n v rc l v' [= <- <- <-]. by split_and!.
  - intros v rc v' [= <- <-]. by split_and!.
  - intros v rc v' [= <- <-]. by split_and!.
Defined.

#[export] Instance ram_load_laws : LoadLaws ramdisk ramfile.
Proof.
  constructor. intros p v fr f v' H. cbn in *.
  destruct (rd_files v !! p) as [l|] eqn:E; injection H as <- <- <-; [|by split_and!].
  destruct (zlen l <? 4294967296) eqn:El; (split_and!; [done| |by intros [H|H]]); [|done].
  intros _. split_and!; [by apply Z.ltb_lt|done|done].
Defined.

(** The state that an interrupted save leaves: no file, and a complete copy. *)
Definition lone_copy : ramdisk :=
  RamDisk {[ bytes_of "/a.ini.new" := bytes_of "old" ]} true.

Theorem storage_save_safe_witness :
  let v := RamDisk {[ bytes_of "/a.ini" := bytes_of "old" ]} true in
  let '(rc, v') := storage_save (FIL := ramfile) (bytes_of "/a.ini") (bytes_of "new") v in
  (∀ q, q ≠ bytes_of "/a.ini" → q ≠ bytes_of "/a.ini" ++ bytes_of ".new" → rd_files v' !! q = rd_files v !! q) ∧
  ((rc ≠ 0 ∧ rd_files v' !! bytes_of "/a.ini" = Some (bytes_of "old")) ∨
   (rc ≠ 0 ∧ rd_files v' !! bytes_of "/a.ini" = None ∧
    rd_files v' !! (bytes_of "/a.ini" ++ bytes_of ".new") = Some (bytes_of "new")) ∨
   (rd_files v' !! bytes_of "/a.ini" = Some (bytes_of "new") ∧
    (rc = 0 → rd_files v' !! (bytes_of "/a.ini" ++ bytes_of ".new") = None))).
Proof.
  refine (storage_save_safe (V := ramdisk) (FIL := ramfile) (bytes_of "/a.ini") (bytes_of "new") (bytes_of "old")
            (RamDisk {[ bytes_of "/a.ini" := bytes_of "old" ]} true) _ _ _); [by vm_compute|by vm_compute|by vm_compute].
Defined.

Theorem storage_load_content_witness :
  let '(rc, data, _, _) := storage_load (bytes_of "/a.ini") 0 100 (StorageSt false [] false) lone_copy in
  (rc = 0 → (rd_files lone_copy !! bytes_of "/a.ini" = Some data ∨
             (rd_files lone_copy !! bytes_of "/a.ini" = None ∧
              rd_files lone_copy !! (bytes_of "/a.ini" ++ bytes_of ".new") = Some data)) ∧ 0 < zlen data <= 100) ∧
  (rc = STORAGE_ENOTFOUND → rd_files lone_copy !! bytes_of "/a.ini" = None ∧
                            rd_files lone_copy !! (bytes_of "/a.ini" ++ bytes_of ".new") = None).
Proof.
  refine (storage_load_content (V := ramdisk) (FIL := ramfile) (bytes_of "/a.ini") 0 100 (StorageSt false [] false)
            lone_copy _ _); vm_compute; [split; congruence|congruence].
Defined.

(** The lone copy is not protected.  After an interrupted save only
    [path.new] is left, and [storage_load] still finds it; but the next
    [storage_save] truncates it before it writes, so that a failed write loses
    the content altogether, against the promise of storage.h. *)
Theorem storage_save_loses_lone_copy :
  fst (fst (storage_load (bytes_of "/a.ini") 0 100 (StorageSt false [] false) lone_copy)) =
    (0, bytes_of "old") ∧
  storage_save (bytes_of "/a.ini") (bytes_of "new") lone_copy =
    (STORAGE_EIO, RamDisk ∅ true).
Proof. vm_compute. split; reflexivity. Qed.

(** ** A card with one file

    A file of three sectors in the clusters 2, 3 and 4 of a card whose sector
    [s] holds the byte [s + 1] 512 times. *)
Definition tape_sector (s : Z) : list Z := replicate 512 (s + 1).
Definition tape_bytes : list Z := flat_map tape_sector [0; 1; 2].

#[export] Instance tape_card : Card unit := {|
  sd_init v := (0, v);
  sd_high_speed v := (0, v);
  sd_read_block lba v := (0, tape_sector lba, v);
  sd_write_block lba l v := (-1, v);
  sd_read_blocks lba n v := (0, flat_map (λ i, tape_sector (lba + Z.of_nat i)) (seq 0 (Z.to_nat n)), v);
|}.

(** A file object is its position. *)
#[export] Instance tape_volume : Volume unit Z := {|
  f_open p m v := (FR_OK, 0, v);
  f_close f v := (FR_OK, v);
  f_read f n v := let l := take (Z.to_nat n) (drop (Z.to_nat f) tape_bytes) in (FR_OK, l, f + zlen l, v);
  f_write f l v := (1, 0, f, v);
  f_lseek f n v := (FR_OK, Z.min n 1536, v);
  f_linkmap f n v := (FR_OK, [4; 3; 2; 0], f, v);
  f_unlink p v := (1, v);
  f_rename p q v := (1, v);
  f_tell f := f;
  f_size f := 1536;
  fs_csize v := 1;
  fs_database v := 0;
|}.

#[export, refine] Instance tape_laws : ReadLaws unit Z := {|
  reading _ := True;
  fil_bytes _ := tape_bytes;
  sector_data _ := tape_sector;
  file_sector _ _ := True;
|}.
Proof.
  - by intros f _; split; vm_compute.
  - intros f n v fr l f' v' _ [= <- <- <- <-]. split; [done|by split_and!].
  - intros f n v fr f' v' _ Hn [= <- <- <-]. split; [done|by split_and!].
  - intros f n v fr t f' v' _ [= <- <- <- <-]. split; [done|]. split_and!; [done|done|done|]. intros _. split; [done|].
    exists 4, [(3, 2)], []. split_and!; [done|done|repeat constructor; cbn; lia|].
    change (map_chain [(3, 2)]) with [2; 3; 4]. intros s H0 Hs.
    change (zlen tape_bytes) with 1536 in Hs. change (fs_csize v) with 1. rewrite Z.div_1_r.
    change (zlen [2; 3; 4]) with 3. split; [lia|]. split; [done|].
    assert (s = 0 ∨ s = 1 ∨ s = 2) as [->|[->| ->]] by lia; by vm_compute.
  - by intros lba n v rc l v' [= <- <- <-].
  - intros v rc v' [= <- <-]. done.
  - intros v rc v' [= <- <-]. done.
Defined.

Theorem storage_read_content_witness :
  (let '(rc, _, _, st', _) := storage_read (V := unit) 100 100 1400 (StorageSt false [] false) tt in
   rc = 0 ∧ cltbl st' = true) ∧
  let '(rc, data, f', st', v') := storage_read (V := unit) 100 100 1400 (StorageSt false [] false) tt in
  map_ok f' st' v' ∧ fil_bytes f' = fil_bytes 100 ∧ (rc = 0 ∨ rc = STORAGE_EIO) ∧
  (rc = 0 → data = take (Z.to_nat 1400) (drop (Z.to_nat 100) tape_bytes) ∧ f' = 100 + 1400).
Proof.
  split; [by vm_compute|].
  refine (storage_read_content (V := unit) 100 100 1400 (StorageSt false [] false) tt _ _ _ _);
    [by split|lia|vm_compute; congruence|vm_compute; congruence].
Defined.
