(* ===== verification/Ini.v ===== *)
(** * Ini: the parser of the configuration files ([src/baremetal/aipc-boot/ini.c])

    The parser cuts the text in place; here the pieces are lists of bytes.  The
    handler compares sections by pointer, so a section is its text together
    with the number of the line that defines it, 0 for the initial section.
    The second half is a reference parser by lines and the text that a list of
    groups prints to. *)
From S2P Require Import Prelude.

Definition is_space (c : Z) : bool := (c =? chr " ") || (c =? 9).
Definition is_trailing (c : Z) : bool := is_space c || (c =? 13).

Fixpoint trim_start (l : list Z) : list Z :=
  match l with
  | c :: l' => if is_space c then trim_start l' else l
  | [] => []
  end.

Fixpoint trim_end (l : list Z) : list Z :=
  match l with
  | [] => []
  | c :: l' =>
      match trim_end l' with
      | [] => if is_trailing c then [] else [c]
      | r => c :: r
      end
  end.

Definition trim (l : list Z) : list Z := trim_end (trim_start l).

(** What precedes the first [c], and what follows it. *)
Fixpoint upto (c : Z) (l : list Z) : list Z * option (list Z) :=
  match l with
  | [] => ([], None)
  | x :: l' => if x =? c then ([], Some l') else let '(a, r) := upto c l' in (x :: a, r)
  end.

(** A C string: the bytes before the first NUL. *)
Definition c_string (l : list Z) : list Z := fst (upto 0 l).

Notation newline := 10 (only parsing).

Record section := Section_ { sec_line : Z; sec_name : list Z }.
Definition no_section : section := Section_ 0 [].

Section Parse.
Context {C : Type}.
(** The result, 0 to continue, and the new context. *)
Variable handler : C → section → list Z → list Z → Z → Z * C.

(** The body of the loop for the line [l]: the next section, or the result. *)
Definition ini_line (l : list Z) (sec : section) (line : Z) (ctx : C) : (section + Z) * C :=
  let s := trim l in
  match s with
  | [] => (inl sec, ctx)
  | c :: s' =>
      if (c =? chr ";") || (c =? chr "#") then (inl sec, ctx)
      else if c =? chr "[" then
        match upto (chr "]") s' with
        | (_, None) => (inr line, ctx)
        | (name, Some _) => (inl (Section_ line (trim name)), ctx)
        end
      else
        match upto (chr "=") s with
        | (_, None) => (inr line, ctx)
        | (key, Some value) =>
            let '(rc, ctx) := handler ctx sec (trim key) (trim value) line in
            (if nonzero rc then inr rc else inl sec, ctx)
        end
  end.

(** Every iteration consumes at least one byte. *)
Fixpoint ini_loop (fuel : nat) (text : list Z) (sec : section) (line : Z) (ctx : C) : Z * C :=
  match fuel with
  | O => (0, ctx)
  | S fuel' =>
      match text with
      | [] => (0, ctx)
      | _ =>
          let '(l, next) := upto newline text in
          let next := match next with Some t => t | None => [] end in
          match ini_line l sec (line + 1) ctx with
          | (inl sec, ctx) => ini_loop fuel' next sec (line + 1) ctx
          | (inr rc, ctx) => (rc, ctx)
          end
      end
  end.

Definition ini_parse (text : list Z) (ctx : C) : Z * C := ini_loop (length text) text no_section 0 ctx.

(** ** The reference: a fold over the lines *)

Fixpoint parse_lines (ls : list (list Z)) (sec : section) (line : Z) (ctx : C) : Z * C :=
  match ls with
  | [] => (0, ctx)
  | l :: ls' =>
      match ini_line l sec (line + 1) ctx with
      | (inl sec, ctx) => parse_lines ls' sec (line + 1) ctx
      | (inr rc, ctx) => (rc, ctx)
      end
  end.
End Parse.

(** The lines of a text; a final newline does not begin another line. *)
Fixpoint lines_from (cur : list Z) (text : list Z) : list (list Z) :=
  match text with
  | [] => match cur with [] => [] | _ => [cur] end
  | c :: text' => if c =? newline then cur :: lines_from [] text' else lines_from (cur ++ [c]) text'
  end.
Definition lines (text : list Z) : list (list Z) := lines_from [] text.

Lemma upto_length c l a r : upto c l = (a, Some r) → (length r < length l)%nat.
Proof.
  revert a r. induction l as [|x l IH]; intros a r; cbn [upto]; [done|].
  destruct (x =? c); [intros [= <- <-]; cbn; lia|].
  destruct (upto c l) as [a' r'] eqn:E. intros [= <- ->]. specialize (IH _ _ eq_refl). cbn. lia.
Qed.
Lemma upto_app c a r : ¬ c ∈ a → upto c (a ++ c :: r) = (a, Some r).
Proof.
  induction a as [|x a IH]; intros Ha; cbn [app upto]; [by rewrite Z.eqb_refl|].
  rewrite not_elem_of_cons in Ha. destruct Ha as [Hx Ha].
  rewrite (proj2 (Z.eqb_neq x c)) by congruence. by rewrite IH.
Qed.
Lemma upto_none c a : ¬ c ∈ a → upto c a = (a, None).
Proof.
  induction a as [|x a IH]; intros Ha; cbn [upto]; [done|].
  rewrite not_elem_of_cons in Ha. destruct Ha as [Hx Ha].
  rewrite (proj2 (Z.eqb_neq x c)) by congruence. by rewrite IH.
Qed.
Lemma upto_spec c l :
  match upto c l with
  | (a, Some r) => l = a ++ c :: r ∧ ¬ c ∈ a
  | (a, None) => l = a ∧ ¬ c ∈ a
  end.
Proof.
  induction l as [|x l IH]; cbn [upto]; [by split; [|apply not_elem_of_nil]|].
  destruct (x =? c) eqn:E; [apply Z.eqb_eq in E as ->; by split; [|apply not_elem_of_nil]|].
  apply Z.eqb_neq in E. destruct (upto c l) as [a [r|]]; destruct IH as [-> Ha];
    (split; [done|]); apply not_elem_of_cons; by split.
Qed.

Lemma lines_from_upto cur text :
  cur ++ text ≠ [] →
  lines_from cur text =
  match upto newline text with
  | (a, Some r) => (cur ++ a) :: lines r
  | (a, None) => [cur ++ a]
  end.
Proof.
  revert cur. induction text as [|c text IH]; intros cur Hne; cbn [lines_from upto].
  - rewrite app_nil_r in *. by destruct cur.
  - destruct (c =? newline); [by rewrite app_nil_r|]. rewrite IH by by destruct cur.
    destruct (upto newline text) as [a [r|]]; by rewrite <-app_assoc.
Qed.

Lemma ini_loop_lines {C} (h : C → section → list Z → list Z → Z → Z * C) fuel text sec line ctx :
  (length text <= fuel)%nat →
  ini_loop h fuel text sec line ctx = parse_lines h (lines text) sec line ctx.
Proof.
  revert text sec line ctx. induction fuel as [|fuel IH]; intros text sec line ctx Hf.
  { destruct text; [done|cbn in Hf; lia]. }
  destruct text as [|c text]; [done|]. unfold lines. rewrite lines_from_upto by done.
  cbn [ini_loop]. set (t := c :: text) in *. pose proof (upto_length newline t) as Hlt.
  destruct (upto newline t) as [a [r|]].
  - specialize (Hlt a r eq_refl). cbn [app parse_lines].
    destruct (ini_line h a sec (line + 1) ctx) as [[s|rc] ctx']; [|done]. apply IH. lia.
  - cbn [app parse_lines]. destruct (ini_line h a sec (line + 1) ctx) as [[s|rc] ctx']; [|done].
    rewrite IH by (cbn; lia). done.
Qed.

Lemma ini_parse_eq {C} (h : C → section → list Z → list Z → Z → Z * C) text ctx :
  ini_parse h text ctx = parse_lines h (lines text) no_section 0 ctx.
Proof. by apply ini_loop_lines. Qed.

(** An invariant of the handler is one of the parser. *)
Lemma ini_loop_inv {C} (h : C → section → list Z → list Z → Z → Z * C) (P : C → Prop) fuel text sec line ctx :
  (∀ ctx sec k v line, P ctx → P (snd (h ctx sec k v line))) → P ctx → P (snd (ini_loop h fuel text sec line ctx)).
Proof.
  intros Hh. revert text sec line ctx. induction fuel as [|fuel IH]; intros text sec line ctx Hc; [done|].
  cbn [ini_loop]. destruct text as [|c text]; [done|]. destruct (upto newline (c :: text)) as [l next].
  assert (P (snd (ini_line h l sec (line + 1) ctx))) as Hl.
  { unfold ini_line. repeat case_match; simplify_eq/=; try done;
      match goal with E : h ?c ?s ?k ?v ?n = _ |- _ => specialize (Hh c s k v n Hc); by rewrite E in Hh end. }
  destruct (ini_line h l sec (line + 1) ctx) as [[s|rc] ctx']; [by apply IH|done].
Qed.

(** The cursor loop is the line-by-line reading.  With one iteration per byte
    as the bound, the loop that walks the buffer always reaches the end of the
    text or a decided result, and what it does is the fold of the line handler
    over the lines of the text, for every handler. *)
Theorem ini_parse_lines {C} (h : C → section → list Z → list Z → Z → Z * C) text ctx fuel :
  (length text <= fuel)%nat →
  ini_parse h text ctx = parse_lines h (lines text) no_section 0 ctx ∧
  ini_loop h fuel text no_section 0 ctx = ini_parse h text ctx.
Proof. intros Hf. unfold ini_parse. by rewrite !ini_loop_lines. Qed.

(** ** The keys of a text *)

Record event := Event { ev_section : section; ev_key : list Z; ev_value : list Z; ev_line : Z }.

Definition keep (evs : list event) (sec : section) (k v : list Z) (line : Z) : Z * list event :=
  (0, evs ++ [Event sec k v line]).

(** The keys in front of the first line that is not valid, and the number of
    that line, 0 if all are valid. *)
Definition ini_events (text : list Z) : list event * Z :=
  let '(bad, evs) := ini_parse keep text [] in (evs, bad).

Fixpoint run_events {C} (h : C → section → list Z → list Z → Z → Z * C) (evs : list event) (ctx : C) : Z * C :=
  match evs with
  | [] => (0, ctx)
  | e :: evs' =>
      let '(rc, ctx) := h ctx (ev_section e) (ev_key e) (ev_value e) (ev_line e) in
      if nonzero rc then (rc, ctx) else run_events h evs' ctx
  end.

Lemma run_events_app {C} (h : C → section → list Z → list Z → Z → Z * C) a b ctx :
  run_events h (a ++ b) ctx =
  let '(rc, ctx') := run_events h a ctx in if nonzero rc then (rc, ctx') else run_events h b ctx'.
Proof.
  revert ctx. induction a as [|e a IH]; intros ctx; cbn [app run_events]; [done|].
  destruct (h ctx _ _ _ _) as [rc ctx'] eqn:E. destruct (nonzero rc) eqn:Er; [by rewrite Er|apply IH].
Qed.

Lemma keep_line l sec line evs :
  ini_line keep l sec line evs = let '(r, new) := ini_line keep l sec line [] in (r, evs ++ new).
Proof.
  unfold ini_line. destruct (trim l) as [|c s]; [by rewrite app_nil_r|].
  destruct (_ || _); [by rewrite app_nil_r|].
  destruct (c =? chr "["); [destruct (upto _ _) as [? [?|]]; by rewrite app_nil_r|].
  destruct (upto (chr "=") _) as [k [v|]]; [done|by rewrite app_nil_r].
Qed.
Lemma keep_lines ls sec line evs :
  parse_lines keep ls sec line evs = let '(bad, new) := parse_lines keep ls sec line [] in (bad, evs ++ new).
Proof.
  revert sec line evs. induction ls as [|l ls IH]; intros sec line evs; cbn [parse_lines]; [by rewrite app_nil_r|].
  rewrite keep_line. destruct (ini_line keep l sec (line + 1) []) as [[s|rc] new]; [|done].
  rewrite IH, (IH s (line + 1) new). destruct (parse_lines keep ls s (line + 1) []) as [bad new']. by rewrite app_assoc.
Qed.

Lemma line_events {C} (h : C → section → list Z → list Z → Z → Z * C) l sec line ctx :
  ini_line h l sec line ctx =
  let '(r, new) := ini_line keep l sec line [] in
  let '(rc, ctx') := run_events h new ctx in (if nonzero rc then inr rc else r, ctx').
Proof.
  unfold ini_line. destruct (trim l) as [|c s]; [done|]. destruct (_ || _); [done|].
  destruct (c =? chr "["); [by destruct (upto _ _) as [? [?|]]|].
  destruct (upto (chr "=") _) as [k [v|]]; [|done]. cbn [keep app run_events ev_section ev_key ev_value ev_line].
  destruct (h ctx sec _ _ line) as [rc ctx']. destruct (nonzero rc) eqn:E; by rewrite ?E.
Qed.

Lemma parse_lines_events {C} (h : C → section → list Z → list Z → Z → Z * C) ls sec line ctx :
  parse_lines h ls sec line ctx =
  let '(bad, evs) := parse_lines keep ls sec line [] in
  let '(rc, ctx') := run_events h evs ctx in (if nonzero rc then rc else bad, ctx').
Proof.
  revert sec line ctx. induction ls as [|l ls IH]; intros sec line ctx; cbn [parse_lines]; [done|].
  rewrite line_events. destruct (ini_line keep l sec (line + 1) []) as [[s|rc0] new].
  - rewrite keep_lines. specialize (IH s (line + 1) (snd (run_events h new ctx))).
    destruct (parse_lines keep ls s (line + 1) []) as [bad new']. rewrite run_events_app.
    destruct (run_events h new ctx) as [rc ctx']. destruct (nonzero rc) eqn:E; [by rewrite E|]. exact IH.
  - destruct (run_events h new ctx) as [rc ctx']. by destruct (nonzero rc).
Qed.

(** The parser shows its handler the keys of the text in order, until the
    handler stops it or a line is not valid. *)
Lemma ini_parse_events {C} (h : C → section → list Z → list Z → Z → Z * C) text ctx :
  ini_parse h text ctx =
  let '(evs, bad) := ini_events text in
  let '(rc, ctx') := run_events h evs ctx in (if nonzero rc then rc else bad, ctx').
Proof.
  unfold ini_events. rewrite !ini_parse_eq, parse_lines_events. by destruct (parse_lines keep _ _ _ _).
Qed.

Lemma keep_bad ls sec line evs : 0 <= line → 0 <= fst (parse_lines keep ls sec line evs).
Proof.
  revert sec line evs. induction ls as [|l ls IH]; intros sec line evs Hl; cbn [parse_lines]; [done|].
  unfold ini_line. destruct (trim l) as [|c s]; [apply IH; lia|]. destruct (_ || _); [apply IH; lia|].
  destruct (c =? chr "["); [destruct (upto _ _) as [? [?|]]; [apply IH; lia|cbn; lia]|].
  destruct (upto (chr "=") _) as [k [v|]]; [apply IH; lia|cbn; lia].
Qed.
Lemma ini_events_bad text : 0 <= snd (ini_events text).
Proof.
  unfold ini_events. rewrite ini_parse_eq. pose proof (keep_bad (lines text) no_section 0 [] ltac:(done)) as H.
  by destruct (parse_lines keep _ _ _ _).
Qed.

(** ** Trimming *)

Lemma trim_start_le l : (length (trim_start l) <= length l)%nat.
Proof. induction l as [|c l IH]; cbn; [done|]. destruct (is_space c); cbn; lia. Qed.
Lemma trim_end_le l : (length (trim_end l) <= length l)%nat.
Proof.
  induction l as [|c l IH]; cbn; [done|]. destruct (trim_end l); [destruct (is_trailing c)|]; cbn in *; lia.
Qed.
Lemma trim_id l : trim l = l → trim_start l = l ∧ trim_end l = l.
Proof.
  unfold trim. intros H. pose proof (trim_start_le l). pose proof (trim_end_le (trim_start l)).
  assert (trim_start l = l) as Hs; [|by rewrite Hs in H].
  rewrite H in *. assert (length (trim_start l) = length l) as Hl by lia. clear -Hl.
  destruct l as [|c l]; cbn in *; [done|]. destruct (is_space c); [|done].
  pose proof (trim_start_le l). lia.
Qed.
Lemma trim_end_cons c l : is_trailing c = false → trim_end (c :: l) = c :: trim_end l.
Proof. intros Hc. cbn. destruct (trim_end l); [by rewrite Hc|done]. Qed.
Lemma trim_end_app a r : trim_end r ≠ [] → trim_end (a ++ r) = a ++ trim_end r.
Proof.
  intros Hr. induction a as [|c a IH]; [done|]. cbn [app trim_end]. rewrite IH.
  destruct a; cbn; [|done]. by destruct (trim_end r).
Qed.
Lemma trim_start_app a c r : trim_start a = a → is_space c = false → trim_start (a ++ c :: r) = a ++ c :: r.
Proof.
  destruct a as [|x a]; cbn; intros Ha Hc; [by rewrite Hc|]. destruct (is_space x) eqn:E; [|done].
  pose proof (trim_start_le a). rewrite Ha in *. cbn in *. lia.
Qed.
(** A line made of a trimmed piece, a separator and another one. *)
Lemma trim_around a c b :
  trim_start a = a → trim_end b = b → is_trailing c = false → trim (a ++ c :: b) = a ++ c :: b.
Proof.
  intros Ha Hb Hc. pose proof Hc as [Hs _]%orb_false_iff.
  unfold trim. rewrite trim_start_app, trim_end_app, trim_end_cons, Hb by (done || by rewrite trim_end_cons). done.
Qed.

Lemma trim_start_idem l : trim_start (trim_start l) = trim_start l.
Proof. induction l as [|c l IH]; cbn; [done|]. destruct (is_space c) eqn:E; [done|]. cbn. by rewrite E. Qed.
Lemma trim_end_idem l : trim_end (trim_end l) = trim_end l.
Proof.
  induction l as [|c l IH]; [done|]. cbn [trim_end]. destruct (trim_end l) as [|x r] eqn:E.
  - destruct (is_trailing c) eqn:Ec; [done|]. cbn. by rewrite Ec.
  - cbn [trim_end] in *. by rewrite IH.
Qed.
Lemma trim_start_end l : trim_start l = l → trim_start (trim_end l) = trim_end l.
Proof.
  destruct l as [|c l]; [done|]. cbn. destruct (is_space c) eqn:E.
  { intros H. pose proof (trim_start_le l). rewrite H in *. cbn in *. lia. }
  intros _. destruct (trim_end l); [destruct (is_trailing c); [done|]|]; cbn; by rewrite E.
Qed.
(** What the handler is given is trimmed. *)
Lemma trim_idem l : trim (trim l) = trim l.
Proof.
  unfold trim. rewrite (trim_start_end (trim_start l)) by apply trim_start_idem. apply trim_end_idem.
Qed.

(** ** Printing *)

Definition key_line (kv : list Z * list Z) : list Z := fst kv ++ [chr "="] ++ snd kv.
Definition section_line (s : list Z) : list Z := [chr "["] ++ s ++ [chr "]"].

(** Names and values that a line can carry. *)
Definition begins_key (name : list Z) : bool :=
  match name with
  | [] => true
  | c :: _ => negb ((c =? chr ";") || (c =? chr "#") || (c =? chr "["))
  end.
Definition key_text_ok (kv : list Z * list Z) : Prop :=
  trim (fst kv) = fst kv ∧ ¬ newline ∈ fst kv ∧ ¬ chr "=" ∈ fst kv ∧ begins_key (fst kv) = true ∧
  trim (snd kv) = snd kv ∧ ¬ newline ∈ snd kv.
Definition section_text_ok (s : list Z) : Prop := trim s = s ∧ ¬ newline ∈ s ∧ ¬ chr "]" ∈ s.

Lemma lines_cons l t : ¬ newline ∈ l → lines (l ++ newline :: t) = l :: lines t.
Proof. intros Hl. unfold lines. rewrite lines_from_upto by by destruct l. by rewrite upto_app. Qed.

Section Printed.
Context {C : Type} (h : C → section → list Z → list Z → Z → Z * C).

Lemma ini_line_key kv sec line ctx :
  key_text_ok kv →
  ini_line h (key_line kv) sec line ctx =
  let '(rc, ctx') := h ctx sec (fst kv) (snd kv) line in (if nonzero rc then inr rc else inl sec, ctx').
Proof.
  intros (Hk & _ & Hke & Hb & Hv & _). destruct kv as [k v]. cbn [fst snd] in *.
  unfold ini_line, key_line. cbn [fst snd app].
  destruct (trim_id _ Hk) as [Hk1 _]. destruct (trim_id _ Hv) as [_ Hv2].
  rewrite trim_around by done. pose proof (upto_app (chr "=") k v Hke) as Hup.
  destruct k as [|c k]; cbn [app] in *.
  - change ((chr "=" =? chr ";") || (chr "=" =? chr "#")) with false. change (chr "=" =? chr "[") with false.
    cbv iota. by rewrite Hup, Hv.
  - cbn [begins_key] in Hb. apply negb_true_iff, orb_false_iff in Hb as [-> ->]. by rewrite Hup, Hk, Hv.
Qed.

Lemma ini_line_section s sec line ctx :
  section_text_ok s → ini_line h (section_line s) sec line ctx = (inl (Section_ line s), ctx).
Proof.
  intros (Hs & _ & Hb). unfold ini_line, section_line.
  change ([chr "["] ++ s ++ [chr "]"]) with ((chr "[" :: s) ++ [chr "]"]).
  rewrite trim_around by done. cbn [app].
  change ((chr "[" =? chr ";") || (chr "[" =? chr "#")) with false. change (chr "[" =? chr "[") with true.
  cbv iota. by rewrite upto_app, Hs.
Qed.
End Printed.

Definition collect (ctx : list (list Z * list Z * list Z)) (sec : section) (k v : list Z) (line : Z)
  : Z * list (list Z * list Z * list Z) := (0, ctx ++ [(sec_name sec, k, v)]).
Definition example_ini : list Z := bytes_of "[a]" ++ [10] ++ bytes_of " x = 1 " ++ [13; 10] ++ bytes_of "; y" ++ [10] ++ bytes_of "z".

Theorem ini_parse_lines_witness :
  ini_parse collect example_ini [] = (4, [(bytes_of "a", bytes_of "x", bytes_of "1")]) ∧
  ini_parse collect example_ini [] = parse_lines collect (lines example_ini) no_section 0 [] ∧
  ini_loop collect 100 example_ini no_section 0 [] = ini_parse collect example_ini [].
Proof.
  split; [by vm_compute|]. apply (ini_parse_lines collect example_ini [] 100). vm_compute. lia.
Defined.
