(* ===== verification/Settings.v ===== *)
(** * Settings: the settings of aipc-boot ([src/baremetal/aipc-boot/settings.c])

    The table of keys, its accessors, and the file it is loaded from and saved
    to.  The string functions of LVGL are the interface [LvglText]; the files
    are [Storage]'s, the parser is [Ini]'s.  A C string is the list of its
    bytes without the terminator. *)
From S2P Require Import Prelude Ini Storage.

(** ** The string functions of LVGL *)

(** A format string with its arguments: literal text, %s, %u and %d. *)
Inductive piece := Lit (l : list Z) | Str (l : list Z) | Num (v : Z).
Definition render_piece (p : piece) : list Z :=
  match p with Lit l => l | Str l => l | Num v => dec_digits v end.
Definition render (ps : list piece) : list Z := flat_map render_piece ps.

(** The string that arrives in a buffer of a given size, and for
    [lv_snprintf] the length of the whole text. *)
Class LvglText := {
  lv_strlcpy : list Z → Z → list Z;
  lv_snprintf : Z → list piece → list Z * Z;
  strlcpy_law l n : 0 < n → lv_strlcpy l n = take (Z.to_nat (n - 1)) l;
  snprintf_law n ps : 0 < n → lv_snprintf n ps = (take (Z.to_nat (n - 1)) (render ps), zlen (render ps));
}.

#[export, refine] Instance c99_text : LvglText := {|
  lv_strlcpy l n := take (Z.to_nat (n - 1)) l;
  lv_snprintf n ps := (take (Z.to_nat (n - 1)) (render ps), zlen (render ps));
|}.
Proof. all: done. Defined.

Definition TEXT_MAX : Z := 4096.
Definition KEYS_MAX : Z := 32.
Definition TIMEOUT_DEFAULT_S : Z := 15.
Definition BACKLIGHT_DEFAULT : Z := 100.
Definition BACKLIGHT_MIN : Z := 10.
Definition SECTION_SIZE : Z := 24.
Definition NAME_SIZE : Z := 32.
Definition VALUE_SIZE : Z := 96.
Definition SETTINGS_PATH : list Z := bytes_of "/aipc-boot/settings.ini".

(** ** The table *)

Record key := Key { k_section : list Z; k_name : list Z; k_value : list Z }.

(** [strcmp] answers 0. *)
Definition str_eq (a b : list Z) : bool := bool_decide (a = b).
Definition matches (sec name : list Z) (k : key) : bool := str_eq (k_section k) sec && str_eq (k_name k) name.

(** The first [key_count] elements of [keys] are a list; a key is found by its
    index. *)
Fixpoint find_from (sec name : list Z) (ks : list key) (i : nat) : option nat :=
  match ks with
  | [] => None
  | k :: ks' => if matches sec name k then Some i else find_from sec name ks' (S i)
  end.
Definition find (sec name : list Z) (ks : list key) : option nat := find_from sec name ks 0.

Definition get (sec name : list Z) (ks : list key) : option (list Z) :=
  match find sec name ks with Some i => k_value <$> ks !! i | None => None end.

Section Settings.
Context `{!LvglText}.

(** A [None] value is NULL. *)
Definition set (sec name : list Z) (value : option (list Z)) (ks : list key) : list key :=
  let k := find sec name ks in
  match value with
  | None => match k with Some i => take i ks ++ drop (S i) ks | None => ks end
  | Some value =>
      match k with
      | Some i => alter (λ k, Key (k_section k) (k_name k) (lv_strlcpy value VALUE_SIZE)) i ks
      | None =>
          if zlen ks =? KEYS_MAX then ks
          else ks ++ [Key (lv_strlcpy sec SECTION_SIZE) (lv_strlcpy name NAME_SIZE) (lv_strlcpy value VALUE_SIZE)]
      end
  end.

Definition set_uint (sec name : list Z) (v : Z) (ks : list key) : list key :=
  set sec name (Some (fst (lv_snprintf 12 [Num v]))) ks.

(** The loop over the digits; [None] if it meets another character, or a number
    over 100000 that goes on. *)
Fixpoint uint_loop (s : list Z) (n : Z) : option Z :=
  match s with
  | [] => Some n
  | c :: s' =>
      if (c <? chr "0") || (chr "9" <? c) || (100000 <? n) then None
      else uint_loop s' (u32 (u32 (n * 10) + (c - chr "0")))
  end.

Definition get_uint (sec name : list Z) (min max def : Z) (ks : list key) : Z :=
  match get sec name ks with
  | None | Some [] => def
  | Some s =>
      match uint_loop s 0 with
      | None => def
      | Some n => if (min <=? n) && (n <=? max) then n else def
      end
  end.

Definition settings_default (ks : list key) : list Z :=
  match get (bytes_of "boot") (bytes_of "default") ks with Some s => s | None => [] end.
Definition settings_set_default (title : list Z) (ks : list key) : list key :=
  set (bytes_of "boot") (bytes_of "default") (match title with [] => None | _ => Some title end) ks.

Definition settings_timeout (ks : list key) : Z :=
  get_uint (bytes_of "boot") (bytes_of "timeout") 1 100000 TIMEOUT_DEFAULT_S ks.
Definition settings_set_timeout (s : Z) (ks : list key) : list key :=
  if nonzero s then set_uint (bytes_of "boot") (bytes_of "timeout") s ks
  else set (bytes_of "boot") (bytes_of "timeout") None ks.

Definition settings_backlight (ks : list key) : Z :=
  get_uint (bytes_of "display") (bytes_of "backlight") BACKLIGHT_MIN 100 BACKLIGHT_DEFAULT ks.
Definition settings_set_backlight (percent : Z) (ks : list key) : list key :=
  if (BACKLIGHT_MIN <=? percent) && (percent <=? 100)
  then set_uint (bytes_of "display") (bytes_of "backlight") percent ks
  else set (bytes_of "display") (bytes_of "backlight") None ks.

Definition settings_dark (ks : list key) : bool :=
  match get (bytes_of "display") (bytes_of "theme") ks with Some s => str_eq s (bytes_of "dark") | None => false end.
Definition settings_set_dark (on : bool) (ks : list key) : list key :=
  set (bytes_of "display") (bytes_of "theme") (Some (if on then bytes_of "dark" else bytes_of "light")) ks.

Definition settings_cfw (id : list Z) (ks : list key) : Z :=
  match get (bytes_of "cfw") id ks with
  | Some s => if str_eq s (bytes_of "on") then 1 else if str_eq s (bytes_of "off") then 0 else -1
  | None => -1
  end.
Definition settings_set_cfw (id : list Z) (on : bool) (ks : list key) : list key :=
  set (bytes_of "cfw") id (Some (if on then bytes_of "on" else bytes_of "off")) ks.

Definition settings_reset (ks : list key) : list key := [].

Definition on_key (ks : list key) (sec : section) (name value : list Z) (line : Z) : Z * list key :=
  (0, set (sec_name sec) name (Some value) ks).

(** ** The file *)

(** [len += lv_snprintf(text + len, TEXT_MAX - len, ...)] *)
Definition emit (ps : list piece) (text : list Z) (len : Z) : list Z * Z :=
  let '(w, n) := lv_snprintf (u32 (TEXT_MAX - len)) ps in
  (take (Z.to_nat len) text ++ w, u32 (len + n)).

(** The keys from [keys[i]] on that are in the section [sec]. *)
Fixpoint save_group (sec : list Z) (ks : list key) (text : list Z) (len : Z) : list Z * Z :=
  match ks with
  | [] => (text, len)
  | k :: ks' =>
      if len <? TEXT_MAX then
        let '(text, len) :=
          if str_eq (k_section k) sec then emit [Str (k_name k); Lit (bytes_of "="); Str (k_value k); Lit [10]] text len
          else (text, len) in
        save_group sec ks' text len
      else (text, len)
  end.

(** The outer loop; [before] are the keys in front of [keys[i]]. *)
Fixpoint save_loop (before rest : list key) (text : list Z) (len : Z) : option (list Z * Z) :=
  match rest with
  | [] => Some (text, len)
  | k :: rest' =>
      if existsb (λ j, str_eq (k_section j) (k_section k)) before then save_loop (before ++ [k]) rest' text len
      else
        let '(text, len) :=
          match k_section k with
          | [] => (text, len)
          | _ => emit [Lit (bytes_of "["); Str (k_section k); Lit (bytes_of "]" ++ [10])] text len
          end in
        let '(text, len) := save_group (k_section k) rest text len in
        if TEXT_MAX <=? len then None else save_loop (before ++ [k]) rest' text len
  end.

(** The text of the file, if it fits. *)
Definition settings_text (ks : list key) : option (list Z) :=
  match save_loop [] ks [] 0 with Some (text, len) => Some (take (Z.to_nat len) text) | None => None end.

(** What [settings_load] makes of the bytes of the file. *)
Definition settings_parse (file : list Z) : list key := snd (ini_parse on_key (c_string file) []).

Context {V FIL : Type} `{!Card V, !Volume V FIL}.

(** [dst] is the address of [text]. *)
Definition settings_load (dst : Z) (ks : list key) (st : storage_st) (v : V) : list key * storage_st * V :=
  let ks := settings_reset ks in
  let '(rc, data, st, v) := storage_load SETTINGS_PATH dst (TEXT_MAX - 1) st v in
  if nonzero rc then (ks, st, v) else (snd (ini_parse on_key (c_string data) ks), st, v).

Definition settings_save (ks : list key) (v : V) : Z * V :=
  match settings_text ks with
  | None => (STORAGE_ESIZE, v)
  | Some text => storage_save SETTINGS_PATH text v
  end.
End Settings.

(** ** The table: what is in it *)

Definition id_of (k : key) : list Z * list Z := (k_section k, k_name k).

Lemma str_eq_true a b : str_eq a b = true ↔ a = b.
Proof. apply bool_decide_eq_true. Qed.
Lemma str_eq_refl a : str_eq a a = true.
Proof. by apply str_eq_true. Qed.
Lemma matches_true sec name k : matches sec name k = true ↔ id_of k = (sec, name).
Proof.
  unfold matches, id_of. rewrite andb_true_iff, !str_eq_true. split; [by intros [-> ->]|by intros [= -> ->]].
Qed.

(** The value of the first key with this name. *)
Fixpoint lookup_key (sec name : list Z) (ks : list key) : option (list Z) :=
  match ks with
  | [] => None
  | k :: ks' => if matches sec name k then Some (k_value k) else lookup_key sec name ks'
  end.

Lemma find_from_shift sec name ks i :
  find_from sec name ks i = (λ j, (i + j)%nat) <$> find_from sec name ks 0.
Proof.
  revert i. induction ks as [|k ks IH]; intros i; cbn; [done|]. destruct (matches sec name k).
  - cbn. by rewrite Nat.add_0_r.
  - rewrite (IH (S i)), (IH 1%nat). destruct (find_from sec name ks 0); cbn; [f_equal; lia|done].
Qed.
Lemma find_cons sec name k ks :
  find sec name (k :: ks) = if matches sec name k then Some 0%nat else S <$> find sec name ks.
Proof. unfold find. cbn. destruct (matches sec name k); [done|]. by rewrite find_from_shift. Qed.

Lemma get_lookup sec name ks : get sec name ks = lookup_key sec name ks.
Proof.
  unfold get. induction ks as [|k ks IH]; [done|]. rewrite find_cons. cbn [lookup_key].
  destruct (matches sec name k); [done|]. rewrite <-IH. by destruct (find sec name ks).
Qed.

Lemma find_some sec name ks i :
  find sec name ks = Some i →
  ∃ a k b, ks = a ++ k :: b ∧ length a = i ∧ id_of k = (sec, name) ∧ ∀ x, x ∈ a → id_of x ≠ (sec, name).
Proof.
  revert i. induction ks as [|k ks IH]; intros i; [done|]. rewrite find_cons.
  destruct (matches sec name k) eqn:E.
  - intros [= <-]. exists [], k, ks. split_and!; [done|done|by apply matches_true|by intros x ?%not_elem_of_nil].
  - destruct (find sec name ks) as [j|]; cbn; [|done]. intros [= <-].
    destruct (IH j eq_refl) as (a & k' & b & -> & <- & Hid & Ha). exists (k :: a), k', b.
    split_and!; [done|done|done|]. intros x Hx. apply elem_of_cons in Hx as [->|Hx]; [|by apply Ha].
    rewrite <-matches_true. by rewrite E.
Qed.
Lemma find_none sec name ks : find sec name ks = None ↔ ∀ k, k ∈ ks → id_of k ≠ (sec, name).
Proof.
  induction ks as [|k ks IH]; [split; [by intros _ k ?%not_elem_of_nil|done]|]. rewrite find_cons. split.
  - destruct (matches sec name k) eqn:E; [done|]. intros Hn x [->|Hx]%elem_of_cons.
    + rewrite <-matches_true. by rewrite E.
    + apply IH; [by destruct (find sec name ks)|done].
  - intros Hall. destruct (matches sec name k) eqn:E.
    + exfalso. apply (Hall k); [by left|by apply matches_true].
    + rewrite (proj2 IH); [done|]. intros x Hx. apply Hall. by right.
Qed.

Lemma lookup_key_app sec name a b :
  lookup_key sec name (a ++ b) =
  match lookup_key sec name a with Some v => Some v | None => lookup_key sec name b end.
Proof. induction a as [|k a IH]; cbn; [done|]. by destruct (matches sec name k). Qed.
Lemma lookup_key_none sec name ks : (∀ k, k ∈ ks → id_of k ≠ (sec, name)) → lookup_key sec name ks = None.
Proof. intros H. rewrite <-get_lookup. unfold get. by rewrite (proj2 (find_none _ _ _)). Qed.

(** ** The invariant of the table *)

Definition key_wf (k : key) : Prop :=
  zlen (k_section k) < SECTION_SIZE ∧ zlen (k_name k) < NAME_SIZE ∧ zlen (k_value k) < VALUE_SIZE.

(** A section and a name that the fields hold whole. *)
Definition id_fits (i : list Z * list Z) : Prop :=
  zlen (fst i) < SECTION_SIZE - 1 ∧ zlen (snd i) < NAME_SIZE - 1.

#[export] Instance id_fits_dec i : Decision (id_fits i).
Proof. unfold id_fits. apply _. Defined.

(** At most [KEYS_MAX] keys, no field longer than its array, and no two keys
    with the same section and name, unless they fill an array, where longer
    names are cut to the same one. *)
Definition table_wf (ks : list key) : Prop :=
  zlen ks <= KEYS_MAX ∧ Forall key_wf ks ∧ NoDup (filter id_fits (id_of <$> ks)).

Section table.
Context `{!LvglText}.

Lemma alter_ids sec name v a k b :
  id_of k = (sec, name) →
  alter (λ k, Key (k_section k) (k_name k) v) (length a) (a ++ k :: b) = a ++ Key sec name v :: b.
Proof. intros [= <- <-]. rewrite <-(Nat.add_0_r (length a)), alter_app_r. done. Qed.

(** The four cases of [set]. *)
Lemma set_found sec name v ks a k b :
  find sec name ks = Some (length a) → ks = a ++ k :: b → id_of k = (sec, name) →
  set sec name (Some v) ks = a ++ Key sec name (take 95 v) :: b.
Proof.
  intros Hf -> Hid. unfold set. rewrite Hf, strlcpy_law by done. change (Z.to_nat (VALUE_SIZE - 1)) with 95%nat.
  by apply alter_ids.
Qed.
Lemma set_removed sec name ks a k b :
  find sec name ks = Some (length a) → ks = a ++ k :: b → set sec name None ks = a ++ b.
Proof.
  intros Hf ->. unfold set. rewrite Hf, take_app_length. f_equal.
  by rewrite (drop_app_ge _ _ (S (length a))), Nat.sub_succ_l, Nat.sub_diag by lia.
Qed.
Lemma set_new sec name v ks :
  find sec name ks = None → zlen ks < KEYS_MAX →
  set sec name (Some v) ks = ks ++ [Key (take 23 sec) (take 31 name) (take 95 v)].
Proof.
  intros Hf Hn. unfold set. rewrite Hf, (proj2 (Z.eqb_neq _ _)), !strlcpy_law by (done || lia). done.
Qed.
Lemma set_full sec name v ks :
  find sec name ks = None → zlen ks = KEYS_MAX → set sec name (Some v) ks = ks.
Proof. intros Hf Hn. unfold set. by rewrite Hf, (proj2 (Z.eqb_eq _ _)). Qed.

Lemma take95 (v : list Z) : zlen (take 95 v) < VALUE_SIZE.
Proof. unfold zlen, VALUE_SIZE. rewrite length_take. lia. Qed.

Lemma set_wf sec name value ks : table_wf ks → table_wf (set sec name value ks).
Proof.
  intros (Hn & Hk & Hd). destruct (find sec name ks) as [i|] eqn:Hf.
  - destruct (find_some _ _ _ _ Hf) as (a & k & b & Hks & Hi & Hid & _). subst i ks.
    rewrite list.Forall_app, list.Forall_cons in Hk. destruct Hk as (Hka & (Hk1 & Hk2 & Hk3) & Hkb).
    destruct value as [v|].
    + rewrite (set_found _ _ _ _ _ _ _ Hf eq_refl Hid). injection Hid as <- <-. split_and!.
      * by rewrite zlen_app, zlen_cons in *.
      * rewrite list.Forall_app, list.Forall_cons. split_and!; auto. split_and!; [done|done|apply take95].
      * by rewrite fmap_app, fmap_cons in *.
    + rewrite (set_removed _ _ _ _ _ _ Hf eq_refl). split_and!.
      * rewrite zlen_app, zlen_cons in *. lia.
      * by apply list.Forall_app.
      * rewrite fmap_app, fmap_cons, list.filter_app, filter_cons in Hd. rewrite fmap_app, list.filter_app.
        eapply sublist_NoDup; [exact Hd|]. apply sublist_app; [done|]. case_decide; [by apply sublist_cons|done].
  - destruct value as [v|]; [|by unfold set; rewrite Hf].
    destruct (Z.eq_dec (zlen ks) KEYS_MAX) as [E|E]; [by rewrite set_full|].
    rewrite set_new by (done || lia). split_and!.
    + rewrite zlen_app. change (zlen [_]) with 1. lia.
    + apply list.Forall_app; split; [done|]. constructor; [|done]. split_and!; cbn; [| |apply take95];
        unfold zlen, SECTION_SIZE, NAME_SIZE; rewrite length_take; lia.
    + rewrite fmap_app, list.filter_app. change (id_of <$> [_]) with [(take 23 sec, take 31 name)].
      apply list.NoDup_app. split_and!; [done| |].
      * intros [x y] Hx. apply list_elem_of_filter in Hx as [_ Hx]. rewrite filter_cons.
        case_decide as Hfit; [|apply not_elem_of_nil]. intros [= -> ->]%list_elem_of_singleton.
        destruct Hfit as [H1 H2]. cbn in H1, H2.
        change 31%nat with (Z.to_nat 31) in Hx, H2. change 23%nat with (Z.to_nat 23) in Hx, H1.
        rewrite (take_cut sec 23), (take_cut name 31) in Hx by done.
        apply list_elem_of_fmap in Hx as (k & Hk1 & Hk2). by apply (proj1 (find_none _ _ _) Hf k).
      * rewrite filter_cons. case_decide; [apply NoDup_singleton|apply NoDup_nil_2].
Qed.

(** ** The operations of the table *)

Inductive table_op :=
  | OpDefault (title : list Z) | OpTimeout (s : Z) | OpBacklight (percent : Z) | OpDark (on : bool)
  | OpCfw (id : list Z) (on : bool) | OpReset | OpLoad (file : option (list Z)).

Definition apply_op (ks : list key) (op : table_op) : list key :=
  match op with
  | OpDefault t => settings_set_default t ks
  | OpTimeout s => settings_set_timeout s ks
  | OpBacklight p => settings_set_backlight p ks
  | OpDark on => settings_set_dark on ks
  | OpCfw id on => settings_set_cfw id on ks
  | OpReset => settings_reset ks
  | OpLoad None => settings_reset ks
  | OpLoad (Some file) => settings_parse file
  end.
Definition run_ops (ops : list table_op) : list key := fold_left apply_op ops [].

Lemma empty_wf : table_wf [].
Proof. split_and!; [done|constructor|apply NoDup_nil_2]. Qed.

Lemma apply_op_wf ks op : table_wf ks → table_wf (apply_op ks op).
Proof.
  intros Hk. destruct op as [t|s|p|on|id on| |[file|]]; cbn [apply_op]; try apply empty_wf; try by apply set_wf.
  - unfold settings_set_timeout. case_match; by apply set_wf.
  - unfold settings_set_backlight. case_match; by apply set_wf.
  - unfold settings_parse, ini_parse. apply (ini_loop_inv on_key table_wf); [|apply empty_wf].
    intros ctx sec k v line Hc. by apply set_wf.
Qed.

Lemma get_uint_range sec name min max def ks :
  min <= def <= max → min <= get_uint sec name min max def ks <= max.
Proof.
  intros Hd. unfold get_uint. repeat case_match; lia.
Qed.

(** C39: the table stays well-formed.  Whatever files are loaded and whatever is
    set, there are at most 32 keys, no string is longer than its array, and no
    key that fits its arrays occurs twice; the numbers that the accessors
    answer are in their ranges, so that the countdown is never 0 seconds and
    the backlight never below its minimum. *)
Theorem settings_table_wf ops :
  let ks := run_ops ops in
  table_wf ks ∧ 1 <= settings_timeout ks <= 100000 ∧
  BACKLIGHT_MIN <= settings_backlight ks <= 100 ∧ (∀ id, -1 <= settings_cfw id ks <= 1).
Proof.
  cbv zeta. split_and!; try (apply get_uint_range; unfold TIMEOUT_DEFAULT_S, BACKLIGHT_MIN, BACKLIGHT_DEFAULT; lia).
  - unfold run_ops. generalize empty_wf. generalize (@nil key). induction ops as [|op ops IH]; intros ks Hk; [done|].
    cbn [fold_left]. by apply IH, apply_op_wf.
  - intros id. unfold settings_cfw. repeat case_match; lia.
Qed.

(** ** Reading back what was set *)

(** Room for a key: it is there or the table is not full. *)
Definition has_room (sec name : list Z) (ks : list key) : Prop :=
  find sec name ks ≠ None ∨ zlen ks < KEYS_MAX.

Lemma id_of_cut sec name v : id_fits (sec, name) → Key (take 23 sec) (take 31 name) v = Key sec name v.
Proof.
  intros [H1 H2]. cbn in H1, H2. f_equal; apply firstn_all2; unfold zlen, SECTION_SIZE, NAME_SIZE in *; lia.
Qed.

Lemma lookup_skip s n a k b : id_of k ≠ (s, n) → lookup_key s n (a ++ k :: b) = lookup_key s n (a ++ b).
Proof.
  intros Hne. rewrite !lookup_key_app. cbn [lookup_key].
  assert (matches s n k = false) as ->; [|done]. apply not_true_iff_false. by rewrite matches_true.
Qed.

Lemma get_set sec name v ks :
  id_fits (sec, name) → has_room sec name ks →
  get sec name (set sec name (Some v) ks) = Some (take 95 v).
Proof.
  intros Hfit Hroom. rewrite get_lookup. destruct (find sec name ks) as [i|] eqn:Hf.
  - destruct (find_some _ _ _ _ Hf) as (a & k & b & Hks & <- & Hid & Ha).
    rewrite (set_found _ _ _ _ _ _ _ Hf Hks Hid), lookup_key_app, lookup_key_none by done. cbn [lookup_key].
    by rewrite (proj2 (matches_true _ _ _)).
  - destruct Hroom as [|Hroom]; [done|]. rewrite set_new, id_of_cut, lookup_key_app by done.
    rewrite lookup_key_none by by apply find_none. cbn [lookup_key]. by rewrite (proj2 (matches_true _ _ _)).
Qed.

Lemma get_set_other sec name value s n ks :
  id_fits (sec, name) → (s, n) ≠ (sec, name) → get s n (set sec name value ks) = get s n ks.
Proof.
  intros Hfit Hne. rewrite !get_lookup. destruct (find sec name ks) as [i|] eqn:Hf.
  - destruct (find_some _ _ _ _ Hf) as (a & k & b & Hks & <- & Hid & Ha). destruct value as [v|].
    + rewrite (set_found _ _ _ _ _ _ _ Hf Hks Hid), Hks. rewrite !lookup_skip by (rewrite ?Hid; unfold id_of; cbn; congruence). done.
    + by rewrite (set_removed _ _ _ _ _ _ Hf Hks), Hks, lookup_skip by congruence.
  - destruct value as [v|]; [|by unfold set; rewrite Hf].
    destruct (Z.eq_dec (zlen ks) KEYS_MAX) as [E|E]; [by rewrite set_full|].
    unfold set. rewrite Hf, (proj2 (Z.eqb_neq _ _)), !strlcpy_law by done.
    change (Z.to_nat (SECTION_SIZE - 1)) with 23%nat. change (Z.to_nat (NAME_SIZE - 1)) with 31%nat.
    rewrite id_of_cut, lookup_skip by (done || (unfold id_of; cbn; congruence)). by rewrite app_nil_r.
Qed.

Lemma get_removed sec name ks :
  id_fits (sec, name) → table_wf ks → get sec name (set sec name None ks) = None.
Proof.
  intros Hfit (_ & _ & Hd). rewrite get_lookup. destruct (find sec name ks) as [i|] eqn:Hf.
  - destruct (find_some _ _ _ _ Hf) as (a & k & b & Hks & <- & Hid & Ha).
    rewrite (set_removed _ _ _ _ _ _ Hf Hks). apply lookup_key_none.
    intros x [Hx|Hx]%elem_of_app; [by apply Ha|]. intros Hxid.
    rewrite Hks, fmap_app, fmap_cons, list.filter_app, Hid, filter_cons_True in Hd by done.
    apply list.NoDup_app in Hd as (_ & _ & Hd). apply list.NoDup_cons in Hd as [Hd _]. apply Hd.
    apply list_elem_of_filter. split; [done|]. rewrite <-Hxid. by apply list_elem_of_fmap_2.
  - unfold set. rewrite Hf. by apply lookup_key_none, find_none.
Qed.

(** What is set is what is read.  In a well-formed table with room, setting a
    key whose names fit their arrays makes [get] answer the value, cut to its
    array, and removing it makes [get] answer nothing; no other key changes its
    value.  A full table drops a new key and stays as it is. *)
Theorem settings_set_get sec name v ks :
  id_fits (sec, name) → table_wf ks →
  (has_room sec name ks → get sec name (set sec name (Some v) ks) = Some (take 95 v)) ∧
  (¬ has_room sec name ks → set sec name (Some v) ks = ks) ∧
  get sec name (set sec name None ks) = None ∧
  (∀ value s n, (s, n) ≠ (sec, name) → get s n (set sec name value ks) = get s n ks).
Proof.
  intros Hfit Hwf. split_and!.
  - by apply get_set.
  - intros Hno. unfold has_room in Hno. destruct Hwf as (Hn & _). destruct (find sec name ks) eqn:Hf.
    + exfalso. apply Hno. by left.
    + apply set_full; [done|]. destruct (Z.eq_dec (zlen ks) KEYS_MAX); [done|]. exfalso. apply Hno. right. lia.
  - by apply get_removed.
  - intros value s n Hne. by apply get_set_other.
Qed.

(** ** Numbers *)

Lemma uint_loop_digits s n :
  Forall (λ c, is_dec c = true) s → 0 <= n → n * 10 ^ zlen s + dec_value s <= 1000000 → 0 <= dec_value s →
  uint_loop s n = Some (n * 10 ^ zlen s + dec_value s).
Proof.
  revert n. induction s as [|c s IH]; intros n Hs Hn Hle Hv.
  { cbn. f_equal. change (zlen []) with 0. rewrite Z.pow_0_r. change (dec_value []) with 0. lia. }
  apply list.Forall_cons in Hs as [Hc Hs]. pose proof (fold_dec_acc s (0 * 10 + (c - chr "0"))) as Hd.
  change (fold_left _ s (0 * 10 + (c - chr "0"))) with (dec_value (c :: s)) in Hd.
  rewrite zlen_cons, Z.pow_add_r in * by (auto with aipc || lia).
  unfold is_dec in Hc. apply andb_true_iff in Hc as [Hc1%Z.leb_le Hc2%Z.leb_le].
  change (chr "0") with 48 in *. change (chr "9") with 57 in *.
  assert (0 < 10 ^ zlen s) as Hp by (apply Z.pow_pos_nonneg; [lia|apply zlen_nonneg]).
  assert (0 <= dec_value s) as Hv' by (by apply dec_value_nonneg).
  cbn [uint_loop]. change (chr "0") with 48. change (chr "9") with 57. rewrite Hd in *.
  assert (n <= 100000 ∧ n * 10 + (c - 48) <= 1000000) as [Hn1 Hn2] by nia.
  rewrite !(proj2 (Z.ltb_ge _ _)) by lia. cbn [orb].
  rewrite !u32_id by (unfold word_ok; try rewrite u32_id by (unfold word_ok; lia); lia).
  rewrite IH; [f_equal; lia|done|lia|lia|done].
Qed.

Lemma get_uint_set sec name min max def v ks :
  id_fits (sec, name) → has_room sec name ks → 0 <= min → max <= 100000 → word_ok v →
  v <= 1000000 →
  get_uint sec name min max def (set_uint sec name v ks) = if (min <=? v) && (v <=? max) then v else def.
Proof.
  intros Hfit Hroom Hmin Hmax Hv Hle. unfold get_uint, set_uint. rewrite get_set by done.
  destruct (dec_digits_spec v Hv) as (Hdig & Hval & (c & l & Hcl & _) & Hlen).
  rewrite snprintf_law by done. cbn [fst render flat_map render_piece]. rewrite app_nil_r.
  change (Z.to_nat (12 - 1)) with 11%nat.
  rewrite !firstn_all2 by (try rewrite length_take; unfold zlen in Hlen; lia).
  pose proof (uint_loop_digits (dec_digits v) 0 Hdig) as Hu. rewrite Hval, Hcl in *. unfold word_ok in Hv.
  rewrite Hu by lia. done.
Qed.

(** The countdown is the one that was set.  With room for the key, setting
    the timeout to a number from 1 to 100000 makes it the timeout, and 0 or a
    larger number up to a million gives the default; the same for the
    backlight and its range. *)
Theorem settings_numbers_set s p ks :
  table_wf ks → has_room (bytes_of "boot") (bytes_of "timeout") ks →
  has_room (bytes_of "display") (bytes_of "backlight") ks → 0 <= s <= 1000000 → word_ok p →
  settings_timeout (settings_set_timeout s ks) = (if (1 <=? s) && (s <=? 100000) then s else TIMEOUT_DEFAULT_S) ∧
  settings_backlight (settings_set_backlight p ks) =
    (if (BACKLIGHT_MIN <=? p) && (p <=? 100) then p else BACKLIGHT_DEFAULT).
Proof.
  intros Hwf Ht Hb Hs Hp. unfold settings_timeout, settings_set_timeout, settings_backlight, settings_set_backlight.
  split.
  - destruct (nonzero s) eqn:E.
    + apply get_uint_set; (done || unfold word_ok; lia).
    + apply nonzero_false in E as ->. unfold get_uint. by rewrite get_removed.
  - destruct ((BACKLIGHT_MIN <=? p) && (p <=? 100)) eqn:E.
    + rewrite get_uint_set, E; (done || unfold word_ok, BACKLIGHT_MIN in *; lia).
    + unfold get_uint. by rewrite get_removed.
Qed.
End table.

(** ** The text of the file *)

Definition key_text (k : key) : list Z := key_line (k_name k, k_value k) ++ [10].
Definition group_text (sec : list Z) (ks : list key) : list Z :=
  flat_map (λ k, if str_eq (k_section k) sec then key_text k else []) ks.
Definition header_text (sec : list Z) : list Z := match sec with [] => [] | _ => section_line sec ++ [10] end.
Definition seen (before : list key) (sec : list Z) : bool := existsb (λ j, str_eq (k_section j) sec) before.

(** The groups in the order of their first keys. *)
Fixpoint text_from (before rest : list key) : list Z :=
  match rest with
  | [] => []
  | k :: rest' =>
      (if seen before (k_section k) then [] else header_text (k_section k) ++ group_text (k_section k) rest) ++
      text_from (before ++ [k]) rest'
  end.
Definition group_keys (sec : list Z) (ks : list key) : list key := filter (λ k, k_section k = sec) ks.
Fixpoint regroup_from (before rest : list key) : list key :=
  match rest with
  | [] => []
  | k :: rest' =>
      (if seen before (k_section k) then [] else group_keys (k_section k) rest) ++ regroup_from (before ++ [k]) rest'
  end.

Section text.
Context `{!LvglText}.

Lemma emit_spec ps text :
  zlen text < TEXT_MAX → zlen (render ps) < 1000 →
  snd (emit ps text (zlen text)) = zlen text + zlen (render ps) ∧
  (zlen text + zlen (render ps) < TEXT_MAX → fst (emit ps text (zlen text)) = text ++ render ps).
Proof.
  intros Ht Hr. unfold emit, TEXT_MAX in *. pose proof (zlen_nonneg text). pose proof (zlen_nonneg (render ps)).
  rewrite u32_id, snprintf_law by (unfold word_ok; lia). cbn [fst snd].
  rewrite u32_id by (unfold word_ok; lia). split; [done|]. intros Hfit.
  rewrite !take_short by lia. done.
Qed.

Lemma key_pieces k :
  render [Str (k_name k); Lit (bytes_of "="); Str (k_value k); Lit [10]] = key_text k.
Proof. cbn. unfold key_text, key_line. cbn. by rewrite <-!app_assoc. Qed.
Lemma key_text_short k : key_wf k → zlen (key_text k) < 1000.
Proof.
  intros (_ & H1 & H2). unfold key_text, key_line, NAME_SIZE, VALUE_SIZE in *. cbn [fst snd].
  rewrite !zlen_app. change (zlen [_]) with 1. lia.
Qed.

(** What a part of the loop has done with the buffer: it has added [add] if that
    fits, and otherwise the length shows that it does not. *)
Definition added (text add : list Z) (r : list Z * Z) : Prop :=
  if zlen text + zlen add <? TEXT_MAX then r = (text ++ add, zlen text + zlen add) else TEXT_MAX <= snd r.

Lemma added_nil text : zlen text < TEXT_MAX → added text [] (text, zlen text).
Proof.
  intros Ht. unfold added. change (zlen []) with 0. rewrite Z.add_0_r, app_nil_r.
  by rewrite (proj2 (Z.ltb_lt _ _)).
Qed.
Lemma emit_added ps text : zlen text < TEXT_MAX → zlen (render ps) < 1000 → added text (render ps) (emit ps text (zlen text)).
Proof.
  intros Ht Hr. destruct (emit_spec ps text Ht Hr) as [H1 H2]. unfold added.
  destruct (_ <? _) eqn:E; [apply Z.ltb_lt in E|apply Z.ltb_ge in E; lia].
  rewrite (surjective_pairing (emit _ _ _)). by rewrite H1, H2.
Qed.
Lemma added_app text a b r r' :
  added text a r → (r = (text ++ a, zlen (text ++ a)) → zlen (text ++ a) < TEXT_MAX → added (text ++ a) b r') →
  (TEXT_MAX <= snd r → TEXT_MAX <= snd r') → added text (a ++ b) r'.
Proof.
  unfold added. rewrite !zlen_app, app_assoc. intros Ha Hb Hbig. pose proof (zlen_nonneg b).
  destruct (zlen text + zlen a <? TEXT_MAX) eqn:E.
  - apply Z.ltb_lt in E. specialize (Hb Ha E). by rewrite Z.add_assoc.
  - apply Z.ltb_ge in E. rewrite (proj2 (Z.ltb_ge _ _)) by lia. auto.
Qed.

Lemma save_group_big sec ks text len : TEXT_MAX <= len → TEXT_MAX <= snd (save_group sec ks text len).
Proof. intros Hl. destruct ks; [done|]. cbn. by rewrite (proj2 (Z.ltb_ge _ _)). Qed.

Lemma save_group_text sec ks text :
  Forall key_wf ks → zlen text < TEXT_MAX →
  added text (group_text sec ks) (save_group sec ks text (zlen text)).
Proof.
  intros Hk. revert text. induction Hk as [|k ks Hwf Hk IH]; intros text Ht; cbn [save_group group_text flat_map].
  { by apply added_nil. }
  rewrite (proj2 (Z.ltb_lt _ _)) by done. fold (group_text sec ks).
  destruct (str_eq (k_section k) sec); [|by apply IH].
  pose proof (emit_added [Str (k_name k); Lit (bytes_of "="); Str (k_value k); Lit [10]] text Ht) as He.
  rewrite key_pieces in He. specialize (He (key_text_short k Hwf)).
  destruct (emit _ _ _) as [t l]. apply (added_app _ _ _ _ _ He).
  - intros [= -> ->] Hlt. by apply IH.
  - apply save_group_big.
Qed.

Lemma header_added sec text :
  zlen sec < SECTION_SIZE → zlen text < TEXT_MAX →
  added text (header_text sec)
    (match sec with [] => (text, zlen text)
     | _ => emit [Lit (bytes_of "["); Str sec; Lit (bytes_of "]" ++ [10])] text (zlen text) end).
Proof.
  intros Hs Ht. destruct sec as [|c s]; [by apply added_nil|].
  pose proof (emit_added [Lit (bytes_of "["); Str (c :: s); Lit (bytes_of "]" ++ [10])] text Ht) as He.
  replace (render _) with (header_text (c :: s)) in He by (cbn; by rewrite <-app_assoc). apply He.
  unfold header_text, section_line, SECTION_SIZE in *. rewrite !zlen_app. change (zlen [_]) with 1. lia.
Qed.

Lemma save_loop_text before rest text :
  Forall key_wf rest → zlen text < TEXT_MAX →
  save_loop before rest text (zlen text) =
  if zlen text + zlen (text_from before rest) <? TEXT_MAX
  then Some (text ++ text_from before rest, zlen text + zlen (text_from before rest)) else None.
Proof.
  intros Hk. revert before text. induction Hk as [|k rest Hwf Hk IH]; intros before text Ht; cbn [save_loop text_from].
  { change (zlen []) with 0. by rewrite Z.add_0_r, app_nil_r, (proj2 (Z.ltb_lt _ _)). }
  fold (seen before (k_section k)). destruct (seen before (k_section k)); [by apply IH|].
  set (g := header_text (k_section k) ++ group_text (k_section k) (k :: rest)).
  pose proof (header_added (k_section k) text (proj1 Hwf) Ht) as Hh.
  destruct (match k_section k with [] => _ | _ => _ end) as [t1 l1].
  assert (added text g (save_group (k_section k) (k :: rest) t1 l1)) as Hg.
  { apply (added_app _ _ _ _ _ Hh); [|apply save_group_big].
    intros [= -> ->] Hlt. apply save_group_text; [by constructor|done]. }
  destruct (save_group _ _ _ _) as [t2 l2]. unfold added in Hg. rewrite !zlen_app. pose proof (zlen_nonneg (text_from (before ++ [k]) rest)).
  destruct (zlen text + zlen g <? TEXT_MAX) eqn:E.
  - apply Z.ltb_lt in E. injection Hg as -> ->. rewrite (proj2 (Z.leb_gt _ _)) by done.
    rewrite <-zlen_app, IH, zlen_app by by rewrite zlen_app. by rewrite <-app_assoc, !Z.add_assoc.
  - apply Z.ltb_ge in E. cbn [snd] in Hg. rewrite (proj2 (Z.leb_le _ _)) by done.
    rewrite (proj2 (Z.ltb_ge _ _)) by lia. done.
Qed.

Lemma settings_text_spec ks :
  table_wf ks →
  settings_text ks = if zlen (text_from [] ks) <? TEXT_MAX then Some (text_from [] ks) else None.
Proof.
  intros (_ & Hk & _). unfold settings_text. change 0 with (@zlen Z []) at 1. rewrite save_loop_text by done.
  change (zlen []) with 0. rewrite Z.add_0_l. destruct (_ <? _); [|done]. cbn [app]. by rewrite take_short.
Qed.
End text.

(** ** Loading what was saved *)

Definition file_ok (k : key) : Prop :=
  section_text_ok (k_section k) ∧ key_text_ok (k_name k, k_value k) ∧
  ¬ 0 ∈ k_section k ∧ ¬ 0 ∈ k_name k ∧ ¬ 0 ∈ k_value k.

(** Keys without a section come first, where no header stands before them. *)
Definition empty_first (ks : list key) : Prop :=
  match ks with
  | [] => True
  | k :: _ => k_section k = [] ∨ Forall (λ x, k_section x ≠ []) ks
  end.

Definition saveable (ks : list key) : Prop :=
  table_wf ks ∧ Forall file_ok ks ∧ NoDup (id_of <$> ks) ∧ empty_first ks.

Lemma seen_elem before sec : seen before sec = true ↔ ∃ k, k ∈ before ∧ k_section k = sec.
Proof.
  unfold seen. rewrite existsb_exists. split; intros (k & H1 & H2); exists k.
  - rewrite <-list_elem_of_In in H1. by rewrite <-str_eq_true.
  - rewrite <-list_elem_of_In. by rewrite str_eq_true.
Qed.
Lemma seen_app before k sec : seen (before ++ [k]) sec = seen before sec || str_eq (k_section k) sec.
Proof. unfold seen. rewrite existsb_app. cbn. by rewrite orb_false_r. Qed.

Lemma group_keys_cons sec k ks :
  group_keys sec (k :: ks) = (if str_eq (k_section k) sec then [k] else []) ++ group_keys sec ks.
Proof.
  unfold group_keys, str_eq. rewrite filter_cons. case_bool_decide; by case_decide.
Qed.

(** The keys of a section keep their order. *)
Lemma group_group sec s ks :
  group_keys s (group_keys sec ks) = if str_eq sec s then group_keys sec ks else [].
Proof.
  induction ks as [|k ks IH]; [by destruct (str_eq sec s)|]. rewrite group_keys_cons.
  destruct (str_eq (k_section k) sec) eqn:E; cbn [app]; [|done].
  apply str_eq_true in E. rewrite group_keys_cons, IH, E. by destruct (str_eq sec s).
Qed.
Lemma group_regroup s before rest :
  group_keys s (regroup_from before rest) = if seen before s then [] else group_keys s rest.
Proof.
  revert before. induction rest as [|k rest IH]; intros before; cbn [regroup_from]; [by destruct (seen before s)|].
  unfold group_keys at 1. rewrite list.filter_app. fold (group_keys s (regroup_from (before ++ [k]) rest)).
  rewrite IH, seen_app. destruct (seen before (k_section k)) eqn:Ek.
  - change (filter _ []) with (@nil key). cbn [app]. rewrite group_keys_cons.
    destruct (str_eq (k_section k) s) eqn:E; [|by rewrite orb_false_r].
    apply str_eq_true in E. rewrite <-E, Ek. done.
  - change (filter _ (group_keys (k_section k) (k :: rest))) with (group_keys s (group_keys (k_section k) (k :: rest))).
    rewrite group_group. destruct (str_eq (k_section k) s) eqn:E.
    + apply str_eq_true in E. rewrite <-E, Ek, orb_true_r. by rewrite app_nil_r.
    + rewrite orb_false_r, group_keys_cons, E. done.
Qed.
Lemma lookup_group sec name ks : lookup_key sec name (group_keys sec ks) = lookup_key sec name ks.
Proof.
  induction ks as [|k ks IH]; [done|]. rewrite group_keys_cons. cbn [lookup_key].
  unfold matches. destruct (str_eq (k_section k) sec) eqn:E; cbn [app andb]; [|done].
  cbn [lookup_key]. unfold matches. rewrite E, IH. done.
Qed.
Lemma lookup_regroup sec name ks : lookup_key sec name (regroup_from [] ks) = lookup_key sec name ks.
Proof.
  rewrite <-(lookup_group _ _ (regroup_from [] ks)), group_regroup. change (seen [] sec) with false.
  apply lookup_group.
Qed.

Lemma regroup_perm before rest :
  regroup_from before rest ≡ₚ filter (λ k, seen before (k_section k) = false) rest.
Proof.
  revert before. induction rest as [|k rest IH]; intros before; [done|]. cbn [regroup_from]. rewrite IH, filter_cons.
  destruct (seen before (k_section k)) eqn:E; case_decide as Hd; try done.
  - cbn [app]. apply reflexive_eq. apply list_filter_iff. intros x. rewrite seen_app.
    destruct (seen before (k_section x)) eqn:Ex; [done|]. cbn [orb]. split; [done|]. intros _.
    apply not_true_iff_false. rewrite str_eq_true. congruence.
  - rewrite group_keys_cons, str_eq_refl. cbn [app]. f_equiv.
    rewrite <-(filter_app_complement (λ x, k_section x = k_section k) (filter (λ x, seen before (k_section x) = false) rest)).
    rewrite !list_filter_filter. f_equiv; apply reflexive_eq, list_filter_iff; intros x.
    + split; [intros Hx; split; congruence|by intros [? _]].
    + rewrite seen_app, orb_false_iff, <-not_true_iff_false, <-not_true_iff_false, str_eq_true.
      split; [intros [H1 H2]; split; congruence|intros [H1 H2]; split; congruence].
Qed.

Section roundtrip.
Context `{!LvglText}.

Lemma set_fresh k acc :
  key_wf k → NoDup (id_of <$> acc ++ [k]) → zlen acc < KEYS_MAX →
  set (k_section k) (k_name k) (Some (k_value k)) acc = acc ++ [k].
Proof.
  intros (H1 & H2 & H3) Hd Hn. rewrite set_new; [|apply find_none|done].
  - destruct k as [s n v]. cbn in *. rewrite !firstn_all2; [done|unfold zlen, SECTION_SIZE, NAME_SIZE, VALUE_SIZE in *; lia..].
  - intros x Hx Hid. rewrite fmap_app in Hd. apply list.NoDup_app in Hd as (_ & Hd & _).
    apply (Hd (id_of x)); [by apply list_elem_of_fmap_2|]. rewrite Hid. by left.
Qed.

Lemma NoDup_ids_app_l (a b : list key) : NoDup (id_of <$> a ++ b) → NoDup (id_of <$> a).
Proof. rewrite fmap_app. intros Hd. by apply list.NoDup_app in Hd as (? & _ & _). Qed.

Lemma parse_group s ks rest sec line acc :
  sec_name sec = s → Forall file_ok ks → Forall key_wf ks →
  NoDup (id_of <$> acc ++ group_keys s ks) → zlen (acc ++ group_keys s ks) <= KEYS_MAX →
  ∃ line', parse_lines on_key (lines (group_text s ks ++ rest)) sec line acc =
           parse_lines on_key (lines rest) sec line' (acc ++ group_keys s ks).
Proof.
  intros Hsec Hok. revert line acc. induction Hok as [|k ks Hk Hok IH]; intros line acc Hwf Hd Hn.
  { exists line. by rewrite app_nil_r. }
  apply list.Forall_cons in Hwf as [Hkw Hwf]. cbn [group_text flat_map]. fold (group_text s ks).
  rewrite group_keys_cons in *. destruct (str_eq (k_section k) s) eqn:E; cbn [app] in *; [|by apply IH].
  apply str_eq_true in E. destruct Hk as (_ & Hkt & _).
  rewrite (cons_middle k acc), app_assoc in *.
  assert (zlen acc < KEYS_MAX) as Hacc.
  { rewrite !zlen_app in Hn. change (zlen [k]) with 1 in Hn. pose proof (zlen_nonneg (group_keys s ks)). lia. }
  destruct (IH (line + 1) (acc ++ [k]) Hwf Hd Hn) as [line' Hl]. exists line'. rewrite <-Hl.
  unfold key_text. rewrite <-!app_assoc. change ([10] ++ ?l) with (10 :: l). rewrite lines_cons.
  2: { destruct Hkt as (_ & H1 & _ & _ & _ & H2). unfold key_line. cbn [fst snd] in *.
       rewrite !not_elem_of_app, not_elem_of_cons. split_and!; [done|done|apply not_elem_of_nil|done]. }
  cbn [parse_lines]. rewrite ini_line_key by done. cbn [on_key fst snd].
  change (nonzero 0) with false. cbv iota. rewrite Hsec, <-E, set_fresh; [done|done|by eapply NoDup_ids_app_l|done].
Qed.

Lemma parse_header s rest sec line acc :
  section_text_ok s → (s = [] → sec_name sec = []) →
  ∃ sec' line', sec_name sec' = s ∧
    parse_lines on_key (lines (header_text s ++ rest)) sec line acc = parse_lines on_key (lines rest) sec' line' acc.
Proof.
  intros Hs Hsec. destruct s as [|c s]; [exists sec, line; auto|].
  exists (Section_ (line + 1) (c :: s)), (line + 1). split; [done|].
  unfold header_text. rewrite <-app_assoc. change ([10] ++ rest) with (10 :: rest). rewrite lines_cons.
  2: { destruct Hs as (_ & H1 & _). unfold section_line. rewrite !not_elem_of_app, !not_elem_of_cons.
       split_and!; try done; try apply not_elem_of_nil; by apply not_elem_of_cons in H1 as []. }
  cbn [parse_lines]. by rewrite ini_line_section.
Qed.

(** Where the parser stands between two groups. *)
Definition stands (before rest : list key) (sec : section) : Prop :=
  seen before [] = true ∨ Forall (λ x, k_section x ≠ []) rest ∨ (sec_name sec = [] ∧ empty_first rest).

Lemma stands_step before k rest sec sec' :
  stands before (k :: rest) sec → stands (before ++ [k]) rest sec'.
Proof.
  intros [E|[E|[_ [E|E]]]]; unfold stands; rewrite seen_app.
  - left. by rewrite E.
  - right; left. by apply list.Forall_cons in E as [].
  - left. rewrite E, str_eq_refl. apply orb_true_r.
  - right; left. by apply list.Forall_cons in E as [].
Qed.

Lemma parse_text before rest sec line acc :
  stands before rest sec → Forall file_ok rest → Forall key_wf rest →
  NoDup (id_of <$> acc ++ regroup_from before rest) → zlen (acc ++ regroup_from before rest) <= KEYS_MAX →
  parse_lines on_key (lines (text_from before rest)) sec line acc = (0, acc ++ regroup_from before rest).
Proof.
  intros Hst Hok. revert before sec line acc Hst. induction Hok as [|k rest Hk Hok IH]; intros before sec line acc Hst Hwf Hd Hn.
  { cbn. by rewrite app_nil_r. }
  pose proof Hwf as [_ Hwf']%list.Forall_cons. cbn [text_from regroup_from] in *.
  destruct (seen before (k_section k)) eqn:Es; cbn [app] in *; [eapply IH; eauto using stands_step|].
  rewrite app_assoc in *. set (g := group_keys (k_section k) (k :: rest)) in *.
  rewrite <-app_assoc. destruct (parse_header (k_section k) (group_text (k_section k) (k :: rest) ++ text_from (before ++ [k]) rest) sec line acc)
    as (sec' & line' & Hsec' & ->); [apply Hk| |].
  { intros E. rewrite E in Es. destruct Hst as [X|[X|[X _]]]; [congruence| |done].
    by apply list.Forall_cons in X as []. }
  destruct (parse_group (k_section k) (k :: rest) (text_from (before ++ [k]) rest) sec' line' acc) as [line2 ->].
  - done.
  - by constructor.
  - done.
  - by eapply NoDup_ids_app_l.
  - fold g. rewrite zlen_app in Hn. pose proof (zlen_nonneg (regroup_from (before ++ [k]) rest)). lia.
  - fold g. eapply IH; eauto using stands_step.
Qed.

Lemma c_string_id l : ¬ 0 ∈ l → c_string l = l.
Proof. intros Hl. unfold c_string. by rewrite upto_none. Qed.

Lemma text_no_nul before rest : Forall file_ok rest → ¬ 0 ∈ text_from before rest.
Proof.
  assert (∀ sec ks, Forall file_ok ks → ¬ 0 ∈ group_text sec ks) as Hg.
  { intros sec ks Hks. induction Hks as [|k ks (_ & _ & _ & H1 & H2) Hks IH]; [apply not_elem_of_nil|].
    cbn [group_text flat_map]. apply not_elem_of_app. split; [|done]. destruct (str_eq _ _); [|apply not_elem_of_nil].
    unfold key_text, key_line. cbn [fst snd]. rewrite !not_elem_of_app, !not_elem_of_cons. split_and!; try done; apply not_elem_of_nil. }
  intros Hks. revert before. induction Hks as [|k ks Hk Hks IH]; intros before; [apply not_elem_of_nil|].
  cbn [text_from]. apply not_elem_of_app. split; [|done]. destruct (seen _ _); [apply not_elem_of_nil|].
  apply not_elem_of_app. split; [|apply Hg; by constructor]. destruct Hk as (_ & _ & H0 & _).
  unfold header_text, section_line. destruct (k_section k) as [|c s]; [apply not_elem_of_nil|].
  rewrite !not_elem_of_app, !not_elem_of_cons in *. destruct H0. split_and!; try done; apply not_elem_of_nil.
Qed.

Lemma settings_parse_text ks :
  saveable ks → settings_parse (text_from [] ks) = regroup_from [] ks.
Proof.
  intros ((Hn & Hwf & _) & Hok & Hd & He). unfold settings_parse. rewrite c_string_id by by apply text_no_nul.
  pose proof (ini_parse_eq on_key (text_from [] ks) []) as ->.
  assert (regroup_from [] ks ≡ₚ ks) as Hp.
  { rewrite regroup_perm. apply reflexive_eq. clear. induction ks as [|k ks IH]; [done|]. by rewrite filter_cons_True, IH. }
  rewrite parse_text; [done| |done|done| |].
  - right. right. by split.
  - cbn [app]. by rewrite Hp.
  - cbn [app]. unfold zlen in *. by rewrite Hp.
Qed.

Lemma settings_roundtrip_ok ks :
  saveable ks →
  match settings_text ks with
  | Some text => zlen text < TEXT_MAX ∧ settings_parse text ≡ₚ ks ∧
                 ∀ sec name, get sec name (settings_parse text) = get sec name ks
  | None => TEXT_MAX <= zlen (text_from [] ks)
  end.
Proof.
  intros Hs. rewrite settings_text_spec by apply Hs. destruct (_ <? _) eqn:E.
  - apply Z.ltb_lt in E. rewrite settings_parse_text by done. split_and!; [done| |].
    + rewrite regroup_perm. apply reflexive_eq. clear. induction ks as [|k ks IH]; [done|]. by rewrite filter_cons_True, IH.
    + intros sec name. by rewrite !get_lookup, lookup_regroup.
  - by apply Z.ltb_ge in E.
Qed.

(** C8: settings survive a save and a load.  For a table whose names and values a
    line can carry, without duplicates and with the keys of no section in
    front, the text that [settings_save] writes is read back by
    [settings_load] as the same keys, section by section, and every accessor
    answers as before; the text is refused only if it is too long for its
    buffer. *)
Theorem settings_roundtrip ks :
  saveable ks →
  match settings_text ks with
  | Some text => zlen text < TEXT_MAX ∧ settings_parse text ≡ₚ ks ∧
                 ∀ sec name, get sec name (settings_parse text) = get sec name ks
  | None => TEXT_MAX <= zlen (text_from [] ks)
  end.
Proof. apply settings_roundtrip_ok. Qed.
End roundtrip.

(** ** The settings on the card *)

Section persist.
Context `{!LvglText}.
Context {V FIL : Type} `{!Card V, !Volume V FIL, !VolumeLaws V FIL, !ReadLaws V FIL, !LoadLaws V FIL}.

(** What [settings_load] makes of the result of [storage_load]. *)
Lemma settings_load_file dst ks st v :
  let '(rcl, _, _, _) := storage_load SETTINGS_PATH dst (TEXT_MAX - 1) st v in
  let '(ks', _, _) := settings_load dst ks st v in
  (rcl = STORAGE_ENOTFOUND → files v SETTINGS_PATH = None ∧ files v (SETTINGS_PATH ++ bytes_of ".new") = None) ∧
  (rcl ≠ 0 → ks' = []) ∧
  (rcl = 0 → ∃ file, ks' = settings_parse file ∧
    (files v SETTINGS_PATH = Some file ∨
     (files v SETTINGS_PATH = None ∧ files v (SETTINGS_PATH ++ bytes_of ".new") = Some file))).
Proof.
  unfold settings_load. pose proof (storage_load_ok SETTINGS_PATH dst (TEXT_MAX - 1) st v) as Hl.
  destruct (storage_load _ _ _ _ _) as [[[rc data] st1] v1].
  destruct Hl as [Hok Hno]; [done|done|]. destruct (nonzero rc) eqn:E.
  - apply nonzero_true in E. by split_and!.
  - apply nonzero_false in E as ->. split_and!; [done|done|]. intros _. exists data. split; [done|]. by apply Hok.
Qed.

(** What [settings_save] leaves on the card: the old file, and then it reports
    an error; or a complete new one, in its place or as the copy beside it. *)
Lemma settings_save_file old ks v rc v' :
  saveable ks → files v SETTINGS_PATH = Some old → apart SETTINGS_PATH (SETTINGS_PATH ++ bytes_of ".new") →
  settings_save ks v = (rc, v') →
  (rc ≠ 0 ∧ files v' SETTINGS_PATH = Some old) ∨
  ∃ text, settings_text ks = Some text ∧
    (files v' SETTINGS_PATH = Some text ∨
     (files v' SETTINGS_PATH = None ∧ files v' (SETTINGS_PATH ++ bytes_of ".new") = Some text)).
Proof.
  intros Hs Hold Hap Hsave. unfold settings_save in Hsave.
  destruct (settings_text ks) as [text|]; [|injection Hsave as <- <-; by left].
  destruct (storage_save_states SETTINGS_PATH text v (SETTINGS_PATH ++ bytes_of ".new") rc v' eq_refl Hap Hsave)
    as [_ [[Hrc Hst]|[(Hrc & Hst & Hnew)|(Hst & _)]]]; [left; by rewrite Hst| |]; right; exists text; auto.
Qed.

(** C38: saving is atomic for the settings.  For a table that can be saved, and
    with an old file on the card, whatever fails in [settings_save], the next
    [storage_load] of the settings does not miss the file or its copy; if it
    reads it, [settings_load] gives the old settings, which it does only after
    a save that reported an error, or the new ones; if the card fails under the
    load itself, it gives the defaults. *)
Theorem settings_save_atomic old ks v dst ks0 st :
  saveable ks → files v SETTINGS_PATH = Some old → apart SETTINGS_PATH (SETTINGS_PATH ++ bytes_of ".new") →
  let '(rc, v') := settings_save ks v in
  let '(rcl, _, _, _) := storage_load SETTINGS_PATH dst (TEXT_MAX - 1) st v' in
  let '(ks', _, _) := settings_load dst ks0 st v' in
  rcl ≠ STORAGE_ENOTFOUND ∧ (rcl ≠ 0 → ks' = []) ∧
  (rcl = 0 → (rc ≠ 0 ∧ ks' = settings_parse old) ∨
             (ks' ≡ₚ ks ∧ ∀ sec name, get sec name ks' = get sec name ks)).
Proof.
  intros Hs Hold Hap. destruct (settings_save ks v) as [rc v'] eqn:Hsave.
  pose proof (settings_save_file old ks v rc v' Hs Hold Hap Hsave) as Hsv.
  pose proof (settings_roundtrip_ok ks Hs) as Hrt. pose proof (settings_load_file dst ks0 st v') as Hl.
  destruct (storage_load _ _ _ _ _) as [[[rcl ?] ?] ?]. destruct (settings_load dst ks0 st v') as [[ks' ?] ?].
  destruct Hl as (Hno & Hbad & Hok). split; [|split; [done|]].
  - intros Hz. destruct (Hno Hz) as [H1 H2].
    destruct Hsv as [[_ H3]|(text & _ & [H3|[_ H3]])]; congruence.
  - intros Hz. destruct (Hok Hz) as (file & -> & Hfile).
    destruct Hsv as [[Hrc H3]|(text & Ht & H3)].
    + left. split; [done|]. rewrite H3 in Hfile. by destruct Hfile as [[= ->]|[? _]].
    + right. rewrite Ht in Hrt. assert (file = text) as ->; [|apply Hrt].
      destruct H3 as [H3|[H3 H4]], Hfile as [H5|[H5 H6]]; congruence.
Qed.
End persist.

(** ** Examples *)

Definition example_settings : list key :=
  [Key (bytes_of "boot") (bytes_of "timeout") (bytes_of "5"); Key (bytes_of "display") (bytes_of "theme") (bytes_of "dark");
   Key (bytes_of "boot") (bytes_of "default") (bytes_of "Debian 12")].

Definition plain_textb (l : list Z) : bool :=
  str_eq (trim l) l && forallb (λ c, negb ((c =? 10) || (c =? 0) || (c =? chr "=") || (c =? chr "]"))) l && begins_key l.
Lemma plain_text_ok s n v :
  plain_textb s = true → plain_textb n = true → plain_textb v = true → file_ok (Key s n v).
Proof.
  assert (∀ l, plain_textb l = true →
            trim l = l ∧ ¬ 10 ∈ l ∧ ¬ 0 ∈ l ∧ ¬ chr "=" ∈ l ∧ ¬ chr "]" ∈ l ∧ begins_key l = true) as Hp.
  { intros l [[H1%str_eq_true H2]%andb_true_iff H3]%andb_true_iff. rewrite forallb_forall in H2.
    assert (∀ c, negb ((c =? 10) || (c =? 0) || (c =? chr "=") || (c =? chr "]")) = false → ¬ c ∈ l) as Hn.
    { intros c Hc Hin. apply list_elem_of_In in Hin. apply H2 in Hin. congruence. }
    split_and!; try done; by apply Hn. }
  intros (? & ? & ? & ? & ? & ?)%Hp (? & ? & ? & ? & ? & ?)%Hp (? & ? & ? & ? & ? & ?)%Hp. by split_and!.
Qed.

Lemma example_saveable : saveable example_settings.
Proof.
  split; [split; [|split]|split; [|split]].
  - vm_compute. congruence.
  - repeat constructor.
  - apply (bool_decide_unpack _). vm_compute. exact I.
  - repeat (apply list.Forall_cons; split; [apply plain_text_ok; by vm_compute|]). constructor.
  - apply (bool_decide_unpack _). vm_compute. exact I.
  - right. repeat constructor; done.
Qed.

Lemma example_wf : table_wf example_settings.
Proof. apply example_saveable. Qed.

Theorem settings_set_get_witness :
  let sec := bytes_of "cfw" in let name := bytes_of "wifi" in
  (has_room sec name example_settings → get sec name (set sec name (Some (bytes_of "on")) example_settings) = Some (take 95 (bytes_of "on"))) ∧
  (¬ has_room sec name example_settings → set sec name (Some (bytes_of "on")) example_settings = example_settings) ∧
  get sec name (set sec name None example_settings) = None ∧
  (∀ value s n, (s, n) ≠ (sec, name) → get s n (set sec name value example_settings) = get s n example_settings).
Proof. apply settings_set_get; [by vm_compute|apply example_wf]. Defined.

Theorem settings_numbers_set_witness :
  settings_timeout (settings_set_timeout 7 example_settings) = 7 ∧
  settings_backlight (settings_set_backlight 5 example_settings) = BACKLIGHT_DEFAULT.
Proof.
  apply (settings_numbers_set 7 5 example_settings);
    [apply example_wf|left; by vm_compute|right; by vm_compute|lia|unfold word_ok; lia].
Defined.

Theorem settings_roundtrip_witness :
  match settings_text example_settings with
  | Some text => zlen text < TEXT_MAX ∧ settings_parse text ≡ₚ example_settings ∧
                 ∀ sec name, get sec name (settings_parse text) = get sec name example_settings
  | None => TEXT_MAX <= zlen (text_from [] example_settings)
  end.
Proof. refine (settings_roundtrip example_settings _). apply example_saveable. Defined.

Definition settings_disk : ramdisk := RamDisk {[ SETTINGS_PATH := bytes_of "x=1" ]} false.
Theorem settings_save_atomic_witness :
  let '(rc, v') := settings_save (FIL := ramfile) example_settings settings_disk in
  let '(rcl, _, _, _) := storage_load (FIL := ramfile) SETTINGS_PATH 0 (TEXT_MAX - 1) (StorageSt false [] false) v' in
  let '(ks', _, _) := settings_load (FIL := ramfile) 0 [] (StorageSt false [] false) v' in
  rcl ≠ STORAGE_ENOTFOUND ∧ (rcl ≠ 0 → ks' = []) ∧
  (rcl = 0 → (rc ≠ 0 ∧ ks' = settings_parse (bytes_of "x=1")) ∨
             (ks' ≡ₚ example_settings ∧ ∀ sec name, get sec name ks' = get sec name example_settings)).
Proof.
  refine (settings_save_atomic (V := ramdisk) (FIL := ramfile) (bytes_of "x=1") example_settings settings_disk 0 []
            (StorageSt false [] false) _ _ _); [apply example_saveable|by vm_compute|by vm_compute].
Defined.

(** A file with keys outside any section after a section. *)
Definition moved_file : list Z :=
  bytes_of "[a]" ++ [10] ++ bytes_of "x=1" ++ [10] ++ bytes_of "[]" ++ [10] ++ bytes_of "y=2" ++ [10].

(** Keys of no section can change their section.  [settings_save] writes no
    header for the keys of the section without a name, so that keys which the
    file had under an empty header after another section belong to that
    section when the file is read again, although settings.h says that the
    save keeps the keys it does not know. *)
Theorem settings_moves_sectionless :
  let ks := settings_parse moved_file in
  get [] (bytes_of "y") ks = Some (bytes_of "2") ∧
  match settings_text ks with
  | Some text =>
      get [] (bytes_of "y") (settings_parse text) = None ∧
      get (bytes_of "a") (bytes_of "y") (settings_parse text) = Some (bytes_of "2")
  | None => False
  end.
Proof. by vm_compute. Qed.
