(* ===== verification/Entries.v ===== *)
(** * Entries: the boot entries of aipc-boot ([src/baremetal/aipc-boot/entries.c])

    The handler that fills the entries while the parser runs, [entries_load],
    and a reference that makes each entry from the keys of its section. *)
From S2P Require Import Prelude Ini Storage Settings.

Definition ENTRIES_PATH : list Z := bytes_of "/aipc-boot/entries.ini".
Definition ENTRIES_MAX : Z := 8.

Record entry := Entry {
  e_title : list Z; e_kernel : list Z; e_cmdline : list Z; e_description : list Z; e_error : list Z }.

Definition set_error (s : list Z) (e : entry) : entry :=
  Entry (e_title e) (e_kernel e) (e_cmdline e) (e_description e) s.

(** [entries] up to [entry_count], and the fields of [struct parse]. *)
Record parse_st := ParseSt { p_entries : list entry; p_section : option section; p_has_type : bool }.
Definition parse_st0 : parse_st := ParseSt [] None false.

Definition MSG_NO_TYPE : list Z := bytes_of "The entry has no type key.".
Definition MSG_NO_KERNEL : list Z := bytes_of "The entry has no kernel key.".
Definition MSG_NOT_LINUX : list Z := bytes_of "The type is not linux.".

(** The last entry is replaced. *)
Fixpoint map_last {A} (f : A → A) (l : list A) : list A :=
  match l with
  | [] => []
  | [x] => [f x]
  | x :: l' => x :: map_last f l'
  end.

Section Entries.
Context `{!LvglText}.

(** The checks of [finish] on one entry. *)
Definition finish_entry (has_type : bool) (e : entry) : entry :=
  match e_error e with
  | [] =>
      if negb has_type then set_error (lv_strlcpy MSG_NO_TYPE 48) e
      else match e_kernel e with [] => set_error (lv_strlcpy MSG_NO_KERNEL 48) e | _ => e end
  | _ => e
  end.

Definition finish (p : parse_st) : parse_st :=
  match p_section p with
  | None => p
  | Some _ => ParseSt (map_last (finish_entry (p_has_type p)) (p_entries p)) (p_section p) (p_has_type p)
  end.

(** The pointers [section] and [p->section] are the same. *)
Definition same_section (p : option section) (s : section) : bool :=
  match p with Some s' => sec_line s' =? sec_line s | None => false end.

(** The key is stored in its field. *)
Definition store_key (key value : list Z) (p : parse_st) : parse_st :=
  let upd f := map_last f (p_entries p) in
  if str_eq key (bytes_of "type") then
    ParseSt (if str_eq value (bytes_of "linux") then p_entries p
             else upd (set_error (lv_strlcpy MSG_NOT_LINUX 48))) (p_section p) true
  else if str_eq key (bytes_of "kernel") then
    ParseSt (upd (λ e, Entry (e_title e) (lv_strlcpy value 96) (e_cmdline e) (e_description e) (e_error e)))
            (p_section p) (p_has_type p)
  else if str_eq key (bytes_of "cmdline") then
    ParseSt (upd (λ e, Entry (e_title e) (e_kernel e) (lv_strlcpy value 256) (e_description e) (e_error e)))
            (p_section p) (p_has_type p)
  else if str_eq key (bytes_of "description") then
    ParseSt (upd (λ e, Entry (e_title e) (e_kernel e) (e_cmdline e) (lv_strlcpy value 96) (e_error e)))
            (p_section p) (p_has_type p)
  else p.

Definition entries_on_key (p : parse_st) (sec : section) (key value : list Z) (line : Z) : Z * parse_st :=
  if same_section (p_section p) sec then (0, store_key key value p)
  else
    let p := finish p in
    if zlen (p_entries p) =? ENTRIES_MAX then (-1, p)
    else
      let e := Entry (lv_strlcpy (sec_name sec) 48) [] [] [] [] in
      (0, store_key key value (ParseSt (p_entries p ++ [e]) (Some sec) false)).

Definition line_message (rc cap : Z) : list Z :=
  fst (lv_snprintf cap [Lit (bytes_of "Line "); Num rc; Lit (bytes_of " of entries.ini is not valid.")]).

(** [entries_load] after the file is in memory: the message and the entries. *)
Definition entries_parse (file : list Z) : option (list Z) * list entry :=
  let '(rc, p) := ini_parse entries_on_key (c_string file) parse_st0 in
  if rc =? -1 then
    (Some (fst (lv_snprintf 64 [Lit (bytes_of "entries.ini has more than "); Num ENTRIES_MAX; Lit (bytes_of " entries.")])),
     p_entries (finish p))
  else if (0 <? rc) && negb (zlen (p_entries p) =? 0) then
    (None, map_last (set_error (line_message rc 48)) (p_entries p))
  else
    let p := finish p in
    if 0 <? rc then (Some (line_message rc 64), p_entries p) else (None, p_entries p).

Context {V FIL : Type} `{!Card V, !Volume V FIL}.

(** The message, the entries, and the states of the card. *)
Definition entries_load (dst : Z) (st : storage_st) (v : V) : option (list Z) * list entry * storage_st * V :=
  let '(rc, data, st, v) := storage_load ENTRIES_PATH dst (4096 - 1) st v in
  if rc =? STORAGE_ENOTFOUND then (None, [], st, v)
  else if rc =? STORAGE_ESIZE then (Some (bytes_of "entries.ini is empty or larger than 4 KB."), [], st, v)
  else if nonzero rc then (Some (bytes_of "The SD card could not read entries.ini."), [], st, v)
  else let '(msg, es) := entries_parse data in (msg, es, st, v).
End Entries.

(** ** The reference *)

(** The keys of each section, in the order of the file. *)
Notation group := (section * list (list Z * list Z))%type (only parsing).
Definition same_line (a b : section) : bool := sec_line a =? sec_line b.

(** A key belongs to the group that is open, or opens one. *)
Definition add_event (gs : list group) (e : event) : list group :=
  match list.last gs with
  | Some (s, _) =>
      if same_line s (ev_section e) then map_last (λ g, (fst g, snd g ++ [(ev_key e, ev_value e)])) gs
      else gs ++ [(ev_section e, [(ev_key e, ev_value e)])]
  | None => gs ++ [(ev_section e, [(ev_key e, ev_value e)])]
  end.
Definition groups (evs : list event) : list group := fold_left add_event evs [].

(** The last value of a key. *)
Definition last_value (key : list Z) (kvs : list (list Z * list Z)) : list Z :=
  fold_left (λ acc kv, if str_eq (fst kv) key then snd kv else acc) kvs [].
Definition has_key (key : list Z) (kvs : list (list Z * list Z)) : bool := existsb (λ kv, str_eq (fst kv) key) kvs.
Definition all_linux (kvs : list (list Z * list Z)) : bool :=
  forallb (λ kv, negb (str_eq (fst kv) (bytes_of "type")) || str_eq (snd kv) (bytes_of "linux")) kvs.

(** The entry of a section while its keys are read, and when it is complete. *)
Definition open_entry (g : group) : entry :=
  Entry (take 47 (sec_name (fst g))) (take 95 (last_value (bytes_of "kernel") (snd g)))
        (take 255 (last_value (bytes_of "cmdline") (snd g))) (take 95 (last_value (bytes_of "description") (snd g)))
        (if all_linux (snd g) then [] else MSG_NOT_LINUX).
Definition entry_of (g : group) : entry :=
  let e := open_entry g in
  if negb (all_linux (snd g)) then e
  else if negb (has_key (bytes_of "type") (snd g)) then set_error MSG_NO_TYPE e
  else match e_kernel e with [] => set_error MSG_NO_KERNEL e | _ => e end.

Lemma map_last_app {A} (f : A → A) l x : map_last f (l ++ [x]) = l ++ [f x].
Proof. induction l as [|y l IH]; [done|]. cbn [app map_last]. rewrite IH. by destruct l. Qed.
Lemma map_last_length {A} (f : A → A) l : length (map_last f l) = length l.
Proof. induction l as [|x l IH]; [done|]. cbn [map_last]. destruct l; [done|]. cbn [length] in *. by rewrite IH. Qed.

Lemma add_event_snoc gs g e :
  add_event (gs ++ [g]) e =
  if same_line (fst g) (ev_section e) then gs ++ [(fst g, snd g ++ [(ev_key e, ev_value e)])]
  else (gs ++ [g]) ++ [(ev_section e, [(ev_key e, ev_value e)])].
Proof. unfold add_event. rewrite list.last_snoc, map_last_app. by destruct g. Qed.

(** Once a group is followed by another one, it does not change. *)
Lemma fold_add_prefix evs gs g : ∃ gs', fold_left add_event evs (gs ++ [g]) = gs ++ gs' ∧ (1 <= length gs')%nat.
Proof.
  revert gs g. induction evs as [|e evs IH]; intros gs g; [by exists [g]|].
  cbn [fold_left]. rewrite add_event_snoc. destruct (same_line _ _); [apply IH|].
  destruct (IH (gs ++ [g]) (ev_section e, [(ev_key e, ev_value e)])) as (gs' & -> & Hl).
  exists (g :: gs'). rewrite <-app_assoc. split; [done|]. cbn. lia.
Qed.

Section spec.
Context `{!LvglText}.

(** The state while the keys of [g] are read, after the groups [gs]. *)
Definition state_of (gs : list group) (g : group) : parse_st :=
  ParseSt (map entry_of gs ++ [open_entry g]) (Some (fst g)) (has_key (bytes_of "type") (snd g)).

Lemma last_value_snoc key kvs k v :
  last_value key (kvs ++ [(k, v)]) = if str_eq k key then v else last_value key kvs.
Proof. unfold last_value. by rewrite fold_left_app. Qed.
Lemma has_key_snoc key kvs k v : has_key key (kvs ++ [(k, v)]) = has_key key kvs || str_eq k key.
Proof. unfold has_key. rewrite existsb_app. cbn. by rewrite orb_false_r. Qed.
Lemma all_linux_snoc kvs k v :
  all_linux (kvs ++ [(k, v)]) = all_linux kvs && (negb (str_eq k (bytes_of "type")) || str_eq v (bytes_of "linux")).
Proof. unfold all_linux. rewrite forallb_app. cbn [forallb fst snd]. by rewrite andb_true_r. Qed.

Lemma str_eq_ne a b : str_eq a b = false ↔ a ≠ b.
Proof. rewrite <-not_true_iff_false. by rewrite str_eq_true. Qed.

Lemma open_snoc s kvs k v :
  open_entry (s, kvs ++ [(k, v)]) =
  let e := open_entry (s, kvs) in
  Entry (e_title e)
    (if str_eq k (bytes_of "kernel") then take 95 v else e_kernel e)
    (if str_eq k (bytes_of "cmdline") then take 255 v else e_cmdline e)
    (if str_eq k (bytes_of "description") then take 95 v else e_description e)
    (if str_eq k (bytes_of "type") && negb (str_eq v (bytes_of "linux")) then MSG_NOT_LINUX else e_error e).
Proof.
  unfold open_entry. cbn [fst snd e_title e_kernel e_cmdline e_description e_error].
  rewrite !last_value_snoc, all_linux_snoc. f_equal; try by destruct (str_eq k _).
  destruct (all_linux kvs), (str_eq k (bytes_of "type")), (str_eq v (bytes_of "linux")); done.
Qed.

Lemma store_key_state gs g k v :
  store_key k v (state_of gs g) = state_of gs (fst g, snd g ++ [(k, v)]).
Proof.
  destruct g as [s kvs]. unfold state_of, store_key. cbn [fst snd p_entries p_section p_has_type].
  rewrite has_key_snoc, open_snoc, !map_last_app, !strlcpy_law by done. cbv zeta.
  change (Z.to_nat (96 - 1)) with 95%nat. change (Z.to_nat (256 - 1)) with 255%nat.
  change (take (Z.to_nat (48 - 1)) MSG_NOT_LINUX) with MSG_NOT_LINUX.
  destruct (str_eq k (bytes_of "type")) eqn:E1.
  { apply str_eq_true in E1 as ->. rewrite orb_true_r.
    change (str_eq (bytes_of "type") (bytes_of "kernel")) with false.
    change (str_eq (bytes_of "type") (bytes_of "cmdline")) with false.
    change (str_eq (bytes_of "type") (bytes_of "description")) with false.
    by destruct (str_eq v (bytes_of "linux")). }
  rewrite orb_false_r. cbn [andb]. destruct (str_eq k (bytes_of "kernel")) eqn:E2.
  { apply str_eq_true in E2 as ->. done. }
  destruct (str_eq k (bytes_of "cmdline")) eqn:E3; [by apply str_eq_true in E3 as ->|].
  by destruct (str_eq k (bytes_of "description")).
Qed.

Lemma finish_open g : finish_entry (has_key (bytes_of "type") (snd g)) (open_entry g) = entry_of g.
Proof.
  unfold finish_entry, entry_of. rewrite !strlcpy_law by done.
  change (take (Z.to_nat (48 - 1)) MSG_NO_TYPE) with MSG_NO_TYPE.
  change (take (Z.to_nat (48 - 1)) MSG_NO_KERNEL) with MSG_NO_KERNEL.
  unfold open_entry at 1. cbn [e_error]. by destruct (all_linux (snd g)).
Qed.
Lemma finish_done t g : t = has_key (bytes_of "type") (snd g) → finish_entry t (entry_of g) = entry_of g.
Proof.
  intros ->. rewrite <-finish_open. unfold finish_entry. destruct (e_error (open_entry g)) eqn:E; [|by rewrite E].
  destruct (has_key _ _); cbn [negb].
  - destruct (e_kernel (open_entry g)) eqn:Ek; [|by rewrite E, Ek]. cbn [set_error e_error]. by rewrite strlcpy_law.
  - cbn [set_error e_error]. by rewrite strlcpy_law.
Qed.

Lemma finish_state gs g :
  finish (state_of gs g) = ParseSt (map entry_of (gs ++ [g])) (Some (fst g)) (has_key (bytes_of "type") (snd g)).
Proof.
  unfold finish, state_of. cbn [p_section p_entries p_has_type]. by rewrite map_last_app, finish_open, map_app.
Qed.

Lemma on_key_state gs g sec k v line :
  zlen gs < ENTRIES_MAX →
  entries_on_key (state_of gs g) sec k v line =
  if same_line (fst g) sec then (0, state_of gs (fst g, snd g ++ [(k, v)]))
  else if zlen (gs ++ [g]) =? ENTRIES_MAX then (-1, finish (state_of gs g))
  else (0, state_of (gs ++ [g]) (sec, [(k, v)])).
Proof.
  intros Hn. unfold entries_on_key. change (same_section (p_section (state_of gs g)) sec) with (same_line (fst g) sec).
  destruct (same_line (fst g) sec); [by rewrite store_key_state|]. rewrite finish_state. cbn [p_entries].
  assert (∀ l : list group, zlen (map entry_of l) = zlen l) as Hm by (intros; unfold zlen; by rewrite length_map).
  rewrite Hm. destruct (_ =? _); [done|]. rewrite strlcpy_law by done.
  change [(k, v)] with ([] ++ [(k, v)]). rewrite <-(store_key_state (gs ++ [g]) (sec, [])). done.
Qed.

(** What the handler makes of the keys. *)
Lemma run_state evs gs g :
  zlen gs < ENTRIES_MAX →
  ∃ gs' g', fold_left add_event evs (gs ++ [g]) = gs' ++ [g'] ∧
    let '(rc, p) := run_events entries_on_key evs (state_of gs g) in
    if zlen (gs' ++ [g']) <=? ENTRIES_MAX then rc = 0 ∧ p = state_of gs' g'
    else rc = -1 ∧ p_entries (finish p) = map entry_of (take 8 (gs' ++ [g'])).
Proof.
  revert gs g. induction evs as [|e evs IH]; intros gs g Hn.
  { exists gs, g. split; [done|]. cbn [run_events]. rewrite zlen_app. change (zlen [g]) with 1.
    by rewrite (proj2 (Z.leb_le _ _)) by (unfold ENTRIES_MAX in *; lia). }
  cbn [fold_left run_events]. rewrite on_key_state, add_event_snoc by done.
  destruct (same_line (fst g) (ev_section e)); [by apply IH|].
  destruct (zlen (gs ++ [g]) =? ENTRIES_MAX) eqn:E.
  - apply Z.eqb_eq in E. change (nonzero (-1)) with true. cbv iota.
    destruct (fold_add_prefix evs (gs ++ [g]) (ev_section e, [(ev_key e, ev_value e)])) as (r & Hr & Hl).
    destruct (exists_last (l := r)) as (r' & x & ->); [by destruct r; [cbn in Hl; lia|]|].
    exists ((gs ++ [g]) ++ r'), x. rewrite Hr, <-!app_assoc. split; [done|].
    rewrite !app_assoc, zlen_app, zlen_app, E, (proj2 (Z.leb_gt _ _)).
    2: { change (zlen [x]) with 1. pose proof (zlen_nonneg r'). lia. }
    split; [done|]. rewrite finish_state. cbn [finish p_section p_entries p_has_type].
    rewrite map_app. cbn [map]. rewrite map_last_app, finish_done by done.
    change (map entry_of gs ++ [entry_of g]) with (map entry_of gs ++ map entry_of [g]). rewrite <-map_app.
    f_equal. rewrite <-app_assoc. rewrite take_app_length'; [done|]. unfold zlen, ENTRIES_MAX in E. lia.
  - apply IH. apply Z.eqb_neq in E. rewrite zlen_app in *. change (zlen [g]) with 1 in *. unfold ENTRIES_MAX in *. lia.
Qed.

Lemma run_groups evs :
  let gs := groups evs in
  let '(rc, p) := run_events entries_on_key evs parse_st0 in
  if ENTRIES_MAX <? zlen gs then rc = -1 ∧ p_entries (finish p) = map entry_of (take 8 gs)
  else rc = 0 ∧ ((gs = [] ∧ p = parse_st0) ∨ ∃ gs' g, gs = gs' ++ [g] ∧ p = state_of gs' g).
Proof.
  unfold groups. destruct evs as [|e evs]; [by split; [|left]|]. cbn [fold_left run_events].
  change (entries_on_key parse_st0 (ev_section e) (ev_key e) (ev_value e) (ev_line e)) with
    (0, store_key (ev_key e) (ev_value e)
          (ParseSt [Entry (lv_strlcpy (sec_name (ev_section e)) 48) [] [] [] []] (Some (ev_section e)) false)).
  change (nonzero 0) with false. cbv iota beta. rewrite strlcpy_law by done.
  pose proof (store_key_state [] (ev_section e, []) (ev_key e) (ev_value e)) as Hs.
  change (state_of [] (ev_section e, [])) with
    (ParseSt [Entry (take 47 (sec_name (ev_section e))) [] [] [] []] (Some (ev_section e)) false) in Hs.
  change (Z.to_nat (48 - 1)) with 47%nat. rewrite Hs. cbn [fst snd app].
  change (add_event [] e) with ([] ++ [(ev_section e, [(ev_key e, ev_value e)])]).
  destruct (run_state evs [] (ev_section e, [(ev_key e, ev_value e)])) as (gs' & g' & Hf & Hr); [done|].
  rewrite Hf. destruct (run_events _ _ _) as [rc p]. rewrite Z.leb_antisym in Hr.
  destruct (ENTRIES_MAX <? zlen (gs' ++ [g'])); cbn [negb] in Hr; [done|].
  destruct Hr as [-> ->]. split; [done|]. right. by exists gs', g'.
Qed.

Lemma set_error_open msg g : set_error msg (open_entry g) = set_error msg (entry_of g).
Proof.
  unfold entry_of. destruct (all_linux (snd g)); [|done]. cbn [negb].
  destruct (has_key _ _); [|done]. cbn [negb]. by destruct (e_kernel (open_entry g)).
Qed.

Lemma entries_parse_ok file :
  let '(evs, bad) := ini_events (c_string file) in
  let gs := groups evs in
  entries_parse file =
  if ENTRIES_MAX <? zlen gs then
    (Some (bytes_of "entries.ini has more than 8 entries."), map entry_of (take 8 gs))
  else if bad =? 0 then (None, map entry_of gs)
  else match gs with
       | [] => (Some (line_message bad 64), [])
       | _ => (None, map_last (set_error (line_message bad 48)) (map entry_of gs))
       end.
Proof.
  pose proof (ini_events_bad (c_string file)) as Hbad. unfold entries_parse. rewrite ini_parse_events.
  destruct (ini_events (c_string file)) as [evs bad]. cbn [snd] in Hbad. pose proof (run_groups evs) as Hr. cbv zeta in Hr |- *.
  destruct (run_events entries_on_key evs parse_st0) as [rc p].
  destruct (ENTRIES_MAX <? zlen (groups evs)).
  - destruct Hr as [-> ->]. change (nonzero (-1)) with true. cbv iota. change (-1 =? -1) with true. cbv iota.
    by rewrite snprintf_law.
  - destruct Hr as [-> Hp]. change (nonzero 0) with false. cbv iota. rewrite (proj2 (Z.eqb_neq bad (-1))) by lia.
    destruct (bad =? 0) eqn:E.
    + apply Z.eqb_eq in E as ->. change (0 <? 0) with false. cbn [andb].
      destruct Hp as [[-> ->]|(gs & g & -> & ->)]; [done|]. by rewrite finish_state.
    + apply Z.eqb_neq in E. rewrite (proj2 (Z.ltb_lt 0 bad)) by lia. cbn [andb].
      destruct Hp as [[-> ->]|(gs & g & -> & ->)]; [done|]. cbn [state_of p_entries].
      rewrite (proj2 (Z.eqb_neq _ _)) by (rewrite zlen_app; change (zlen [_]) with 1; pose proof (zlen_nonneg (map entry_of gs)); lia).
      cbn [negb]. rewrite map_app, !map_last_app, set_error_open. cbn [map]. rewrite map_last_app. by destruct gs.
Qed.

(** C40: the entries are those of the file.  The parser's handler, which notices a
    new section by its pointer, completes the entry before it and fills the
    fields key by key, makes the same entries as the reference that maps every
    section with its keys to an entry; more than eight sections give the first
    eight and a message, and a line that is not valid is reported at the last
    entry, or as a message when there is none. *)
Theorem entries_parse_spec file :
  let '(evs, bad) := ini_events (c_string file) in
  let gs := groups evs in
  entries_parse file =
  if ENTRIES_MAX <? zlen gs then
    (Some (bytes_of "entries.ini has more than 8 entries."), map entry_of (take 8 gs))
  else if bad =? 0 then (None, map entry_of gs)
  else match gs with
       | [] => (Some (line_message bad 64), [])
       | _ => (None, map_last (set_error (line_message bad 48)) (map entry_of gs))
       end.
Proof. apply entries_parse_ok. Qed.

Lemma line_message_ne bad cap : 5 < cap → line_message bad cap ≠ [].
Proof.
  intros Hc. unfold line_message. rewrite snprintf_law by lia. cbn [fst].
  destruct (Z.to_nat (cap - 1)) as [|n] eqn:E; [lia|]. cbn. done.
Qed.

Lemma entry_of_bootable g :
  e_error (entry_of g) = [] →
  has_key (bytes_of "type") (snd g) = true ∧ all_linux (snd g) = true ∧ e_kernel (entry_of g) ≠ [].
Proof.
  unfold entry_of. destruct (all_linux (snd g)) eqn:E1; cbn [negb]; [|by unfold open_entry; rewrite E1].
  destruct (has_key _ _); cbn [negb]; [|done]. destruct (e_kernel (open_entry g)) eqn:Ek; [done|]. by rewrite Ek.
Qed.

(** An entry that can boot is complete.  Every entry without an error comes
    from a section of the file that has a type key, whose every type key says
    linux, and that names a kernel; there are at most eight entries, with
    strings that fit their arrays. *)
Theorem entries_bootable file e :
  e ∈ snd (entries_parse file) →
  zlen (snd (entries_parse file)) <= ENTRIES_MAX ∧
  (zlen (e_title e) < 48 ∧ zlen (e_kernel e) < 96 ∧ zlen (e_cmdline e) < 256 ∧ zlen (e_description e) < 96) ∧
  (e_error e = [] →
   ∃ g, g ∈ groups (fst (ini_events (c_string file))) ∧ e = entry_of g ∧
        has_key (bytes_of "type") (snd g) = true ∧ all_linux (snd g) = true ∧ e_kernel e ≠ []).
Proof.
  pose proof (entries_parse_ok file) as Hp. destruct (ini_events (c_string file)) as [evs bad]. cbv zeta in Hp.
  cbn [fst]. rewrite Hp. clear Hp. set (gs := groups evs).
  assert (∀ g, let x := entry_of g in zlen (e_title x) < 48 ∧ zlen (e_kernel x) < 96 ∧ zlen (e_cmdline x) < 256 ∧ zlen (e_description x) < 96) as Hlen.
  { intros g. cbv zeta.
    unfold entry_of. repeat case_match; cbn; unfold zlen; rewrite !length_take; lia. }
  assert (∀ l : list group, zlen (map entry_of l) = zlen l) as Hm by (intros; unfold zlen; by rewrite length_map).
  assert (∀ l, (∀ g, g ∈ l → g ∈ gs) → e ∈ map entry_of l →
    (zlen (e_title e) < 48 ∧ zlen (e_kernel e) < 96 ∧ zlen (e_cmdline e) < 256 ∧ zlen (e_description e) < 96) ∧
    (e_error e = [] → ∃ g, g ∈ gs ∧ e = entry_of g ∧
        has_key (bytes_of "type") (snd g) = true ∧ all_linux (snd g) = true ∧ e_kernel e ≠ [])) as Hof.
  { intros l Hl (g & -> & Hg)%list_elem_of_fmap. split; [apply Hlen|]. intros He. exists g.
    split; [by apply Hl|]. split; [done|]. by apply entry_of_bootable. }
  destruct (ENTRIES_MAX <? zlen gs) eqn:E.
  { cbn [snd]. intros He. split; [rewrite Hm; unfold zlen, ENTRIES_MAX; rewrite length_take; lia|].
    apply (Hof (take 8 gs)); [|done]. intros g Hg. rewrite <-(take_drop 8 gs). apply elem_of_app. by left. }
  apply Z.ltb_ge in E. destruct (bad =? 0); cbn [snd]; [intros He; split; [by rewrite Hm|by apply (Hof gs)]|].
  destruct gs as [|g0 gs0] eqn:Egs; [by intros ?%not_elem_of_nil|]. rewrite <-Egs in *. clear g0 gs0 Egs.
  cbn [snd]. intros He.
  destruct (decide (gs = [])) as [->|Hne]; [by apply not_elem_of_nil in He|].
  destruct (exists_last Hne) as (l & g & ->). rewrite map_app in *. cbn [map] in *. rewrite map_last_app in *.
  split; [rewrite zlen_app in E; rewrite zlen_app, Hm; exact E|]. apply elem_of_app in He as [He|He].
  - apply (Hof l); [|done]. intros x Hx. apply elem_of_app. by left.
  - apply list_elem_of_singleton in He as ->. split; [apply (Hlen g)|]. intros He. by apply line_message_ne in He.
Qed.
End spec.

Definition example_entries : list Z :=
  bytes_of "[Debian]" ++ [10] ++ bytes_of "type = linux" ++ [10] ++ bytes_of "kernel=/zImage" ++ [10] ++
  bytes_of "[Other]" ++ [10] ++ bytes_of "type=hurd".

Theorem entries_bootable_witness :
  let e := Entry (bytes_of "Debian") (bytes_of "/zImage") [] [] [] in
  snd (entries_parse example_entries) = [e; Entry (bytes_of "Other") [] [] [] MSG_NOT_LINUX] ∧
  zlen (snd (entries_parse example_entries)) <= ENTRIES_MAX ∧
  (zlen (e_title e) < 48 ∧ zlen (e_kernel e) < 96 ∧ zlen (e_cmdline e) < 256 ∧ zlen (e_description e) < 96) ∧
  (e_error e = [] →
   ∃ g, g ∈ groups (fst (ini_events (c_string example_entries))) ∧ e = entry_of g ∧
        has_key (bytes_of "type") (snd g) = true ∧ all_linux (snd g) = true ∧ e_kernel e ≠ []).
Proof. split; [by vm_compute|]. apply entries_bootable. vm_compute. left. Defined.
