(* ===== verification/Fat.v ===== *)
(** * Fat: the small FAT reader ([src/baremetal/lib/fat.c])

    The reader of the first stages loads one file from the root directory of a
    FAT16 or FAT32 volume.  The card is [Storage]'s interface [Card].  The
    second half is a reference without buffers or cache: the directory is a
    list of entries, the file a list of clusters. *)
From S2P Require Import Prelude Storage.

Definition MAX_SECTORS_PER_CLUSTER : Z := 128.
Definition MAX_FAT32_ROOT_SECTORS : Z := 4096.
Definition NO_LBA : Z := 4294967295.

(** The structure [v]. *)
Record fat_vol := FatVol {
  bytes_per_sector : Z; sectors_per_cluster : Z; fat_start_lba : Z; root_start_lba : Z;
  root_dir_sectors : Z; data_start_lba : Z; root_cluster : Z; is_fat32 : bool }.

(** The static variables. *)
Record fat_st := FatSt { io_buf : list Z; fat_buf : list Z; fat_buf_lba : Z; fvol : fat_vol }.

Definition rd16 (l : list Z) (i : Z) : Z := znth l i .| (znth l (i + 1) .<< 8).
Definition rd32 (l : list Z) (i : Z) : Z :=
  znth l i .| (znth l (i + 1) .<< 8) .| (znth l (i + 2) .<< 16) .| u32 (znth l (i + 3) .<< 24).

Definition is_power_of_two (v : Z) : bool := nonzero v && ((v .& u32 (v - 1)) =? 0).

Definition name_match (ent name11 : list Z) (e : Z) : bool :=
  forallb (λ i, znth ent (e + Z.of_nat i) =? znth name11 (Z.of_nat i)) (seq 0 11).

(** The result of a scan: 1 and the file's first cluster and size, 0 if the
    sector has no such entry, -1 at the end of the directory. *)
Fixpoint scan_loop (n : nat) (e : Z) (sec name11 : list Z) (fat32 : bool) : Z * (Z * Z) :=
  match n with
  | O => (0, (0, 0))
  | S n' =>
      if znth sec e =? 0 then (-1, (0, 0))
      else if (znth sec e =? 229) || (znth sec (e + 11) =? 15) || nonzero (znth sec (e + 11) .& 8)
              || negb (name_match sec name11 e)
      then scan_loop n' (e + 32) sec name11 fat32
      else
        let lo := rd16 sec (e + 26) in
        let hi := if fat32 then rd16 sec (e + 20) else 0 in
        (1, (u32 (hi .<< 16) .| lo, rd32 sec (e + 28)))
  end.
Definition scan_dir_sector (sec name11 : list Z) (fat32 : bool) : Z * (Z * Z) := scan_loop 16 0 sec name11 fat32.

(** The first FAT partition of the table in the MBR, 0 if there is none. *)
Definition fat_type (t : Z) : bool := existsb (Z.eqb t) [4; 6; 11; 12; 14].
Fixpoint find_partition (n : nat) (i : Z) (mbr : list Z) : Z :=
  match n with
  | O => 0
  | S n' =>
      let e := 446 + 16 * i in
      if fat_type (znth mbr (e + 4)) then rd32 mbr (e + 8) else find_partition n' (i + 1) mbr
  end.

(** The geometry in the boot sector [b] of the partition; [old] is the content of
    [v] before. *)
Definition parse_bpb (b : list Z) (part_lba : Z) (old : fat_vol) : Z * fat_vol :=
  let bps := rd16 b 11 in
  let spc := znth b 13 in
  let reserved := rd16 b 14 in
  let num_fats := znth b 16 in
  let root_entries := rd16 b 17 in
  let spf16 := rd16 b 22 in
  let v1 := FatVol bps spc (fat_start_lba old) (root_start_lba old) (root_dir_sectors old) (data_start_lba old)
                   (root_cluster old) (is_fat32 old) in
  if negb (bps =? 512) then (-5, v1)
  else if negb (is_power_of_two spc) || (MAX_SECTORS_PER_CLUSTER <? spc) then (-5, v1)
  else if (reserved =? 0) || (num_fats =? 0) || (4 <? num_fats) then (-5, v1)
  else if spf16 =? 0 then
    let spf := rd32 b 36 in
    let root := rd32 b 44 in
    let fat_start := u32 (part_lba + reserved) in
    if (spf =? 0) || (root <? 2) then
      (-5, FatVol bps spc (fat_start_lba old) (root_start_lba old) (root_dir_sectors old) (data_start_lba old) root true)
    else
      (0, FatVol bps spc fat_start (root_start_lba old) (root_dir_sectors old)
                 (u32 (fat_start + u32 (num_fats * spf))) root true)
  else if root_entries =? 0 then
    (-5, FatVol bps spc (fat_start_lba old) (root_start_lba old) (root_dir_sectors old) (data_start_lba old)
                (root_cluster old) false)
  else
    let fat_start := u32 (part_lba + reserved) in
    let root_start := u32 (fat_start + u32 (num_fats * spf16)) in
    let root_sectors := u32 (root_entries * 32 + 511) / 512 in
    (0, FatVol bps spc fat_start root_start root_sectors (u32 (root_start + root_sectors)) (root_cluster old) false).

Definition eoc_of (v : fat_vol) : Z := if is_fat32 v then 268435448 else 65528.
Definition cluster_lba (v : fat_vol) (cluster : Z) : Z :=
  u32 (data_start_lba v + u32 (u32 (cluster - 2) * sectors_per_cluster v)).

Section Fat.
Context {V : Type} `{!Card V}.

Definition read_io (lba : Z) (st : fat_st) (v : V) : Z * fat_st * V :=
  let '(rc, l, v) := sd_read_block lba v in (rc, FatSt l (fat_buf st) (fat_buf_lba st) (fvol st), v).

(** The byte offset of a cluster's entry in the FAT. *)
Definition fat_offset (vol : fat_vol) (cluster : Z) : Z := u32 (if is_fat32 vol then cluster * 4 else cluster * 2).
Definition entry_value (vol : fat_vol) (sector : list Z) (off : Z) : Z :=
  if is_fat32 vol then rd32 sector off .& 268435455 else rd16 sector off.

Definition fat_entry (cluster : Z) (st : fat_st) (v : V) : Z * fat_st * V :=
  let vol := fvol st in
  let byte_off := fat_offset vol cluster in
  let lba := u32 (fat_start_lba vol + byte_off / 512) in
  let off := byte_off .& 511 in
  if lba =? fat_buf_lba st then (entry_value vol (fat_buf st) off, st, v)
  else
    let '(rc, l, v) := sd_read_block lba v in
    if rc <? 0 then (if is_fat32 vol then 268435455 else 65535, FatSt (io_buf st) l (fat_buf_lba st) vol, v)
    else (entry_value vol l off, FatSt (io_buf st) l lba vol, v).

(** The sectors of one directory cluster, from sector [s]: the sectors scanned
    so far, or the result. *)
Fixpoint dir_sectors (n : nat) (lba s scanned : Z) (name11 : list Z) (st : fat_st) (v : V)
  : (Z + Z * (Z * Z)) * fat_st * V :=
  match n with
  | O => (inl scanned, st, v)
  | S n' =>
      if MAX_FAT32_ROOT_SECTORS <=? scanned then (inr (-7, (0, 0)), st, v)
      else
        let '(rc, st, v) := read_io (u32 (lba + s)) st v in
        if rc <? 0 then (inr (-6, (0, 0)), st, v)
        else
          let '(r, found) := scan_dir_sector (io_buf st) name11 (is_fat32 (fvol st)) in
          if r =? 1 then (inr (0, found), st, v)
          else if r =? -1 then (inr (-7, (0, 0)), st, v)
          else dir_sectors n' lba (s + 1) (scanned + 1) name11 st v
  end.

(** The clusters of the root directory; each adds at least one sector. *)
Fixpoint root_clusters (fuel : nat) (cluster scanned : Z) (name11 : list Z) (st : fat_st) (v : V)
  : Z * (Z * Z) * fat_st * V :=
  match fuel with
  | O => (-7, (0, 0), st, v)
  | S fuel' =>
      if (cluster <? 268435448) && (2 <=? cluster) && (scanned <? MAX_FAT32_ROOT_SECTORS) then
        let spc := sectors_per_cluster (fvol st) in
        let '(r, st, v) := dir_sectors (Z.to_nat spc) (cluster_lba (fvol st) cluster) 0 scanned name11 st v in
        match r with
        | inr (rc, found) => (rc, found, st, v)
        | inl scanned =>
            let '(cluster, st, v) := fat_entry cluster st v in
            root_clusters fuel' cluster scanned name11 st v
        end
      else (-7, (0, 0), st, v)
  end.

(** The fixed root directory of FAT16. *)
Fixpoint root_sectors (n : nat) (s : Z) (name11 : list Z) (st : fat_st) (v : V) : Z * (Z * Z) * fat_st * V :=
  match n with
  | O => (-7, (0, 0), st, v)
  | S n' =>
      let '(rc, st, v) := read_io (u32 (root_start_lba (fvol st) + s)) st v in
      if rc <? 0 then (-6, (0, 0), st, v)
      else
        let '(r, found) := scan_dir_sector (io_buf st) name11 (is_fat32 (fvol st)) in
        if r =? 1 then (0, found, st, v)
        else if r =? -1 then (-7, (0, 0), st, v)
        else root_sectors n' (s + 1) name11 st v
  end.

Definition find_in_root (name11 : list Z) (st : fat_st) (v : V) : Z * (Z * Z) * fat_st * V :=
  if is_fat32 (fvol st) then
    root_clusters (Z.to_nat MAX_FAT32_ROOT_SECTORS) (root_cluster (fvol st)) 0 name11 st v
  else root_sectors (Z.to_nat (root_dir_sectors (fvol st))) 0 name11 st v.

(** The sectors of one cluster of the file, from sector [s]; [out] is what has
    been loaded. *)
Fixpoint load_sectors (n : nat) (lba s size : Z) (out : list Z) (st : fat_st) (v : V)
  : (list Z + Z) * fat_st * V :=
  match n with
  | O => (inl out, st, v)
  | S n' =>
      if zlen out <? size then
        let remain := size - zlen out in
        if 512 <=? remain then
          let '(rc, l, v) := sd_read_block (u32 (lba + s)) v in
          if rc <? 0 then (inr (-8), st, v)
          else load_sectors n' lba (s + 1) size (out ++ l) st v
        else
          let '(rc, st, v) := read_io (u32 (lba + s)) st v in
          if rc <? 0 then (inr (-8), st, v)
          else load_sectors n' lba (s + 1) size (out ++ take (Z.to_nat remain) (io_buf st)) st v
      else (inl out, st, v)
  end.

(** The clusters of the file; each adds at least one byte. *)
Fixpoint load_clusters (fuel : nat) (cluster size : Z) (out : list Z) (st : fat_st) (v : V)
  : (list Z + Z) * fat_st * V :=
  match fuel with
  | O => (inl out, st, v)
  | S fuel' =>
      if (cluster <? eoc_of (fvol st)) && (2 <=? cluster) && (zlen out <? size) then
        let spc := sectors_per_cluster (fvol st) in
        let '(r, st, v) := load_sectors (Z.to_nat spc) (cluster_lba (fvol st) cluster) 0 size out st v in
        match r with
        | inr rc => (inr rc, st, v)
        | inl out =>
            let '(cluster, st, v) := fat_entry cluster st v in
            load_clusters fuel' cluster size out st v
        end
      else (inl out, st, v)
  end.

(** The result and, if it is 0, the file. *)
Definition fat_load_file (name11 : list Z) (max_bytes : Z) (st : fat_st) (v : V) : Z * list Z * fat_st * V :=
  let st := FatSt (io_buf st) (fat_buf st) NO_LBA (fvol st) in
  let '(rc, st, v) := read_io 0 st v in
  if rc <? 0 then (-1, [], st, v)
  else if negb (znth (io_buf st) 510 =? 85) || negb (znth (io_buf st) 511 =? 170) then (-2, [], st, v)
  else
    let part_lba := find_partition 4 0 (io_buf st) in
    if part_lba =? 0 then (-3, [], st, v)
    else
      let '(rc, st, v) := read_io part_lba st v in
      if rc <? 0 then (-4, [], st, v)
      else
        let '(rc, vol) := parse_bpb (io_buf st) part_lba (fvol st) in
        let st := FatSt (io_buf st) (fat_buf st) (fat_buf_lba st) vol in
        if nonzero rc then (rc, [], st, v)
        else
          let '(frc, (first_cluster, file_size), st, v) := find_in_root name11 st v in
          if nonzero frc then (frc, [], st, v)
          else if (file_size =? 0) || (first_cluster <? 2) then (-9, [], st, v)
          else if max_bytes <? file_size then (-9, [], st, v)
          else
            let '(r, st, v) := load_clusters (Z.to_nat file_size) first_cluster file_size [] st v in
            match r with
            | inr rc => (rc, [], st, v)
            | inl out => if negb (zlen out =? file_size) then (-10, out, st, v) else (0, out, st, v)
            end.
End Fat.

(** ** What happens to the card

    Loading a file only reads blocks: it relates the card's states by every preorder that
    each read does. *)
Section walks.
Context {V : Type} `{!Card V} (R : V → V → Prop) `{!PreOrder R}.
Hypothesis R_read : ∀ lba v, R v (snd (sd_read_block lba v)).

Lemma read_io_walk lba st v : R v (snd (read_io lba st v)).
Proof. unfold read_io. pose proof (R_read lba v) as H. by destruct (sd_read_block lba v) as [[? ?] ?]. Qed.
Lemma fat_entry_walk cluster st v : R v (snd (fat_entry cluster st v)).
Proof.
  unfold fat_entry. cbv zeta. destruct (_ =? _); [reflexivity|]. set (lba := u32 _). clearbody lba. pose proof (R_read lba v) as H.
  destruct (sd_read_block lba v) as [[? ?] ?]. by destruct (_ <? 0).
Qed.
Lemma dir_sectors_walk n lba k scanned name11 st v : R v (snd (dir_sectors n lba k scanned name11 st v)).
Proof.
  revert k scanned st v. induction n as [|n IH]; intros k scanned st v; cbn [dir_sectors]; [reflexivity|].
  destruct (_ <=? _); [reflexivity|]. pose proof (read_io_walk (u32 (lba + k)) st v) as H.
  destruct (read_io _ st v) as [[? st1] v1]. cbn [snd] in H. destruct (_ <? 0); [done|].
  destruct (scan_dir_sector _ _ _) as [r found]. destruct (r =? 1); [done|]. destruct (r =? -1); [done|]. etransitivity; [exact H|apply IH].
Qed.
Lemma root_clusters_walk fuel cluster scanned name11 st v : R v (snd (root_clusters fuel cluster scanned name11 st v)).
Proof.
  revert cluster scanned st v. induction fuel as [|n IH]; intros cluster scanned st v; cbn [root_clusters]; [reflexivity|].
  destruct (_ && _ && _); [|reflexivity]. pose proof (dir_sectors_walk (Z.to_nat (sectors_per_cluster (fvol st))) (cluster_lba (fvol st) cluster) 0 scanned name11 st v) as H.
  destruct (dir_sectors _ _ _ _ _ st v) as [[r st1] v1]. cbn [snd] in H. destruct r as [scanned'|[rc found]]; [|done].
  pose proof (fat_entry_walk cluster st1 v1) as H2. destruct (fat_entry cluster st1 v1) as [[c2 st2] v2]. cbn [snd] in H2.
  etransitivity; [exact H|]. etransitivity; [exact H2|apply IH].
Qed.
Lemma root_sectors_walk n k name11 st v : R v (snd (root_sectors n k name11 st v)).
Proof.
  revert k st v. induction n as [|n IH]; intros k st v; cbn [root_sectors]; [reflexivity|].
  pose proof (read_io_walk (u32 (root_start_lba (fvol st) + k)) st v) as H.
  destruct (read_io _ st v) as [[? st1] v1]. cbn [snd] in H. destruct (_ <? 0); [done|].
  destruct (scan_dir_sector _ _ _) as [r found]. destruct (r =? 1); [done|]. destruct (r =? -1); [done|]. etransitivity; [exact H|apply IH].
Qed.
Lemma find_in_root_walk name11 st v : R v (snd (find_in_root name11 st v)).
Proof. unfold find_in_root. destruct (is_fat32 _); [apply root_clusters_walk|apply root_sectors_walk]. Qed.
Lemma load_sectors_walk n lba k size out st v : R v (snd (load_sectors n lba k size out st v)).
Proof.
  revert k out st v. induction n as [|n IH]; intros k out st v; cbn [load_sectors]; [reflexivity|].
  destruct (_ <? size); [|reflexivity]. cbv zeta. destruct (512 <=? _).
  - pose proof (R_read (u32 (lba + k)) v) as H. destruct (sd_read_block _ v) as [[rc l] v1]. cbn [snd] in H.
    destruct (rc <? 0); [done|]. etransitivity; [exact H|apply IH].
  - pose proof (read_io_walk (u32 (lba + k)) st v) as H. destruct (read_io _ st v) as [[rc st1] v1]. cbn [snd] in H.
    destruct (rc <? 0); [done|]. etransitivity; [exact H|apply IH].
Qed.
Lemma load_clusters_walk fuel cluster size out st v : R v (snd (load_clusters fuel cluster size out st v)).
Proof.
  revert cluster out st v. induction fuel as [|n IH]; intros cluster out st v; cbn [load_clusters]; [reflexivity|].
  destruct (_ && _ && _); [|reflexivity]. pose proof (load_sectors_walk (Z.to_nat (sectors_per_cluster (fvol st))) (cluster_lba (fvol st) cluster) 0 size out st v) as H.
  destruct (load_sectors _ _ _ _ _ st v) as [[r st1] v1]. cbn [snd] in H. destruct r as [out1|rc]; [|done].
  pose proof (fat_entry_walk cluster st1 v1) as H2. destruct (fat_entry cluster st1 v1) as [[c2 st2] v2]. cbn [snd] in H2.
  etransitivity; [exact H|]. etransitivity; [exact H2|apply IH].
Qed.
Lemma fat_load_walk name11 max_bytes st v : R v (snd (fat_load_file name11 max_bytes st v)).
Proof.
  unfold fat_load_file. set (st0 := FatSt _ _ NO_LBA _). clearbody st0.
  pose proof (read_io_walk 0 st0 v) as H. destruct (read_io 0 st0 v) as [[rc1 st1] v1]. cbn [snd] in H.
  destruct (rc1 <? 0); [done|]. destruct (_ || _); [done|]. set (part := find_partition _ _ _). clearbody part. destruct (part =? 0); [done|].
  pose proof (read_io_walk part st1 v1) as H2. destruct (read_io part st1 v1) as [[rc2 st2] v2]. cbn [snd] in H2.
  assert (R v v2) as Hv2 by (by etransitivity). destruct (rc2 <? 0); [done|]. destruct (parse_bpb _ _ _) as [rc vol]. cbv zeta.
  destruct (nonzero rc); [done|]. set (st3 := FatSt _ _ _ vol). clearbody st3.
  pose proof (find_in_root_walk name11 st3 v2) as H3. destruct (find_in_root name11 st3 v2) as [[[frc [fc fs]] st4] v4]. cbn [snd] in H3.
  assert (R v v4) as Hv4 by (by etransitivity). destruct (nonzero frc); [done|]. destruct (_ || _); [done|]. destruct (max_bytes <? fs); [done|].
  pose proof (load_clusters_walk (Z.to_nat fs) fc fs [] st4 v4) as H4. destruct (load_clusters _ _ _ _ st4 v4) as [[r st5] v5]. cbn [snd] in H4.
  assert (R v v5) by (by etransitivity). destruct r; [|done]. by destruct (negb _).
Qed.
End walks.

(** ** The reference *)

(** The 16 entries of a directory sector. *)
Definition slots (sec : list Z) : list (list Z) := map (λ i, take 32 (drop (32 * i) sec)) (seq 0 16).

Definition slot_skipped (name11 slot : list Z) : bool :=
  (znth slot 0 =? 229) || (znth slot 11 =? 15) || nonzero (znth slot 11 .& 8) || negb (name_match slot name11 0).
Definition slot_file (fat32 : bool) (slot : list Z) : Z * Z :=
  (u32 ((if fat32 then rd16 slot 20 else 0) .<< 16) .| rd16 slot 26, rd32 slot 28).

(** 1 and the file, -1 at the end mark, 0 past the last entry. *)
Fixpoint dir_scan (fat32 : bool) (name11 : list Z) (ss : list (list Z)) : Z * (Z * Z) :=
  match ss with
  | [] => (0, (0, 0))
  | s :: ss' =>
      if znth s 0 =? 0 then (-1, (0, 0))
      else if slot_skipped name11 s then dir_scan fat32 name11 ss' else (1, slot_file fat32 s)
  end.

Section Reference.
Variable sectors : Z → list Z.

(** The file of this name in the directory that the sectors [ls] hold. *)
Definition spec_find (fat32 : bool) (name11 : list Z) (ls : list Z) : Z * (Z * Z) :=
  let '(r, found) := dir_scan fat32 name11 (flat_map (λ lba, slots (sectors lba)) ls) in
  if r =? 1 then (0, found) else (-7, (0, 0)).

Definition next_cluster (vol : fat_vol) (cluster : Z) : Z :=
  entry_value vol (sectors (u32 (fat_start_lba vol + fat_offset vol cluster / 512))) (fat_offset vol cluster .& 511).
Fixpoint chain (n : nat) (vol : fat_vol) (cluster : Z) : list Z :=
  match n with
  | O => []
  | S n' => if (cluster <? eoc_of vol) && (2 <=? cluster) then cluster :: chain n' vol (next_cluster vol cluster) else []
  end.
Definition cluster_sectors (vol : fat_vol) (cluster : Z) : list Z :=
  map (λ i, u32 (cluster_lba vol cluster + Z.of_nat i)) (seq 0 (Z.to_nat (sectors_per_cluster vol))).
Definition chain_sectors (n : nat) (vol : fat_vol) (cluster : Z) : list Z :=
  flat_map (cluster_sectors vol) (chain n vol cluster).
Definition chain_bytes (n : nat) (vol : fat_vol) (cluster : Z) : list Z :=
  flat_map sectors (chain_sectors n vol cluster).

Definition root_lbas (vol : fat_vol) : list Z :=
  if is_fat32 vol then
    take (Z.to_nat MAX_FAT32_ROOT_SECTORS) (chain_sectors (Z.to_nat MAX_FAT32_ROOT_SECTORS) vol (root_cluster vol))
  else map (λ i, u32 (root_start_lba vol + Z.of_nat i)) (seq 0 (Z.to_nat (root_dir_sectors vol))).

(** Loading a file from a volume that can always be read; [old] is the geometry
    of the volume before, whose unused fields stay. *)
Definition fat_spec (name11 : list Z) (max_bytes : Z) (old : fat_vol) : Z * list Z :=
  let mbr := sectors 0 in
  if negb (znth mbr 510 =? 85) || negb (znth mbr 511 =? 170) then (-2, [])
  else
    let part_lba := find_partition 4 0 mbr in
    if part_lba =? 0 then (-3, [])
    else
      let '(rc, vol) := parse_bpb (sectors part_lba) part_lba old in
      if nonzero rc then (rc, [])
      else
        let '(frc, (first, size)) := spec_find (is_fat32 vol) name11 (root_lbas vol) in
        if nonzero frc then (frc, [])
        else if (size =? 0) || (first <? 2) || (max_bytes <? size) then (-9, [])
        else
          let bytes := chain_bytes (Z.to_nat size) vol first in
          if zlen bytes <? size then (-10, []) else (0, take (Z.to_nat size) bytes).
End Reference.

(** A card whose sectors do not change; a read fails or gives the sector. *)
Class StaticCard (V : Type) `{!Card V} := {
  sectors : Z → list Z;
  sectors_ok lba : length (sectors lba) = 512%nat ∧ Forall byte_ok (sectors lba);
  static_law lba v rc l v' : sd_read_block lba v = (rc, l, v') → rc < 0 ∨ (rc = 0 ∧ l = sectors lba);
}.

Section proofs.
Context {V : Type} `{!Card V, !StaticCard V}.

(** No read ever fails. *)
Definition reliable : Prop := ∀ lba (v : V), 0 <= fst (fst (sd_read_block lba v)).

Lemma read_io_spec lba st v :
  let '(rc, st', v') := read_io lba st v in
  fat_buf st' = fat_buf st ∧ fat_buf_lba st' = fat_buf_lba st ∧ fvol st' = fvol st ∧
  ((rc < 0 ∧ ¬ reliable) ∨ (rc = 0 ∧ io_buf st' = sectors lba)).
Proof.
  unfold read_io. destruct (sd_read_block lba v) as [[rc l] v'] eqn:E. split_and!; [done..|]. cbn.
  destruct (static_law _ _ _ _ _ E) as [H|[-> ->]]; [left|by right]. split; [done|].
  intros Hr. specialize (Hr lba v). rewrite E in Hr. cbn in Hr. lia.
Qed.

(** ** The directory *)

Lemma znth_slot sec i j : 0 <= j < 32 → znth (take 32 (drop (32 * i) sec)) j = znth sec (32 * Z.of_nat i + j).
Proof.
  intros Hj. change 32%nat with (Z.to_nat 32) at 1. rewrite znth_take by lia.
  replace (32 * i)%nat with (Z.to_nat (32 * Z.of_nat i)) by lia. rewrite znth_drop by lia. done.
Qed.
Lemma rd16_slot sec i j : 0 <= j < 31 → rd16 (take 32 (drop (32 * i) sec)) j = rd16 sec (32 * Z.of_nat i + j).
Proof. intros Hj. unfold rd16. rewrite !znth_slot, Z.add_assoc by lia. done. Qed.
Lemma rd32_slot sec i j : 0 <= j < 29 → rd32 (take 32 (drop (32 * i) sec)) j = rd32 sec (32 * Z.of_nat i + j).
Proof. intros Hj. unfold rd32. rewrite !znth_slot, !Z.add_assoc by lia. done. Qed.
Lemma name_match_slot sec name11 i :
  name_match (take 32 (drop (32 * i) sec)) name11 0 = name_match sec name11 (32 * Z.of_nat i).
Proof.
  unfold name_match. apply forallb_ext_in. intros j Hj. apply in_seq in Hj. rewrite Z.add_0_l, znth_slot by lia. done.
Qed.

(** The scan of a sector, entry by entry. *)
Lemma scan_loop_slots n i sec name11 fat32 :
  scan_loop n (32 * Z.of_nat i) sec name11 fat32 =
  dir_scan fat32 name11 (map (λ i, take 32 (drop (32 * i) sec)) (seq i n)).
Proof.
  revert i. induction n as [|n IH]; intros i; [done|]. cbn [scan_loop seq map dir_scan].
  unfold slot_skipped, slot_file. rewrite name_match_slot, !rd16_slot, !rd32_slot, !znth_slot, Z.add_0_r by lia.
  replace (32 * Z.of_nat i + 32) with (32 * Z.of_nat (S i)) by lia. by rewrite IH.
Qed.
Lemma scan_sector sec name11 fat32 : scan_dir_sector sec name11 fat32 = dir_scan fat32 name11 (slots sec).
Proof. apply (scan_loop_slots 16 0). Qed.

Lemma dir_scan_app fat32 name11 a b :
  dir_scan fat32 name11 (a ++ b) =
  if fst (dir_scan fat32 name11 a) =? 0 then dir_scan fat32 name11 b else dir_scan fat32 name11 a.
Proof.
  induction a as [|s a IH]; [done|]. cbn [app dir_scan]. destruct (znth s 0 =? 0); [done|].
  by destruct (slot_skipped name11 s).
Qed.
Lemma dir_scan_cases fat32 name11 ss :
  fst (dir_scan fat32 name11 ss) = 0 ∨ fst (dir_scan fat32 name11 ss) = 1 ∨ fst (dir_scan fat32 name11 ss) = -1.
Proof.
  induction ss as [|s ss IH]; cbn [dir_scan]; [by left|]. destruct (znth s 0 =? 0); [by right; right|].
  destruct (slot_skipped name11 s); [done|by right; left].
Qed.

Lemma spec_find_cons fat32 name11 lba ls :
  spec_find sectors fat32 name11 (lba :: ls) =
  let '(r, found) := scan_dir_sector (sectors lba) name11 fat32 in
  if r =? 1 then (0, found) else if r =? -1 then (-7, (0, 0)) else spec_find sectors fat32 name11 ls.
Proof.
  unfold spec_find. cbn [flat_map]. rewrite dir_scan_app, scan_sector.
  destruct (dir_scan_cases fat32 name11 (slots (sectors lba))) as [H|[H|H]];
    rewrite H; destruct (dir_scan fat32 name11 (slots (sectors lba))) as [r p]; cbn in H; subst r; done.
Qed.

(** What reading does not change. *)
Definition same_cache (st st' : fat_st) : Prop :=
  fat_buf st' = fat_buf st ∧ fat_buf_lba st' = fat_buf_lba st ∧ fvol st' = fvol st.
Lemma same_cache_trans a b c : same_cache a b → same_cache b c → same_cache a c.
Proof. unfold same_cache. intros (-> & -> & ->) (-> & -> & ->). done. Qed.

(** A result of the reference, or the error of a card that failed. *)
Definition or_failed {A} (good : Prop) (failed : A → Prop) (r : A) : Prop := good ∨ (¬ reliable ∧ failed r).

Lemma dir_sectors_spec n lba k scanned name11 st v :
  0 <= scanned <= MAX_FAT32_ROOT_SECTORS →
  let fat32 := is_fat32 (fvol st) in
  let ls := map (λ i, u32 (lba + Z.of_nat i)) (seq k n) in
  let '(r, st', v') := dir_sectors n lba (Z.of_nat k) scanned name11 st v in
  same_cache st st' ∧
  ((¬ reliable ∧ ∃ rc p, r = inr (rc, p) ∧ rc < 0) ∨
   match r with
   | inl sc => sc = scanned + Z.of_nat n ∧ sc <= MAX_FAT32_ROOT_SECTORS ∧
       ∀ rest, spec_find sectors fat32 name11 (ls ++ rest) = spec_find sectors fat32 name11 rest
   | inr out => ∀ rest, out = spec_find sectors fat32 name11
                                (take (Z.to_nat (MAX_FAT32_ROOT_SECTORS - scanned)) (ls ++ rest))
   end).
Proof.
  revert k scanned st v. induction n as [|n IH]; intros k scanned st v Hsc; cbn [dir_sectors]; cbv zeta.
  { split; [done|]. right. split_and!; [lia|lia|done]. }
  cbn [seq map]. destruct (MAX_FAT32_ROOT_SECTORS <=? scanned) eqn:E.
  { apply Z.leb_le in E. split; [done|]. right. intros rest.
    by replace (Z.to_nat (MAX_FAT32_ROOT_SECTORS - scanned)) with 0%nat by lia. }
  apply Z.leb_gt in E. pose proof (read_io_spec (u32 (lba + Z.of_nat k)) st v) as Hio.
  destruct (read_io (u32 (lba + Z.of_nat k)) st v) as [[rc st1] v1]. destruct Hio as (Hc1 & Hc2 & Hc3 & Hio).
  assert (same_cache st st1) as Hsame by (by split_and!).
  destruct Hio as [[Hrc Hnr]|[-> Hbuf]].
  { rewrite (proj2 (Z.ltb_lt _ _)) by done. split; [done|]. left. split; [done|]. by exists (-6), (0, 0). }
  change (0 <? 0) with false. cbv iota. rewrite Hc3, Hbuf.
  assert (∃ m, Z.to_nat (MAX_FAT32_ROOT_SECTORS - scanned) = S m ∧ m = Z.to_nat (MAX_FAT32_ROOT_SECTORS - (scanned + 1)))
    as (m & Hm & Hm1) by (eexists; split; [|done]; lia).
  pose proof (spec_find_cons (is_fat32 (fvol st)) name11 (u32 (lba + Z.of_nat k))) as Hcons.
  destruct (scan_dir_sector (sectors (u32 (lba + Z.of_nat k))) name11 (is_fat32 (fvol st))) as [r found].
  destruct (r =? 1) eqn:E1.
  { split; [done|]. right. intros rest. rewrite Hm. cbn [app take]. by rewrite Hcons. }
  destruct (r =? -1) eqn:E2.
  { split; [done|]. right. intros rest. rewrite Hm. cbn [app take]. by rewrite Hcons. }
  replace (Z.of_nat k + 1) with (Z.of_nat (S k)) by lia.
  specialize (IH (S k) (scanned + 1) st1 v1 ltac:(lia)). cbv zeta in IH. rewrite Hc3 in IH.
  destruct (dir_sectors n lba (Z.of_nat (S k)) (scanned + 1) name11 st1 v1) as [[r2 st2] v2].
  destruct IH as [Hs2 IH]. split; [by eapply same_cache_trans|]. destruct IH as [IH|IH]; [by left|right].
  destruct r2 as [sc|out].
  - destruct IH as (-> & Hle & IH). split_and!; [lia|lia|]. intros rest. cbn [app]. by rewrite Hcons, IH.
  - intros rest. rewrite Hm. cbn [app take]. rewrite Hcons, (IH rest), Hm1. done.
Qed.

(** ** The FAT *)

Definition cache_ok (st : fat_st) : Prop := fat_buf_lba st ≠ NO_LBA → fat_buf st = sectors (fat_buf_lba st).
(** No sector of the FAT has the number that marks the empty cache. *)
Definition low_fat (vol : fat_vol) : Prop := 0 <= fat_start_lba vol ∧ fat_start_lba vol + 8388608 <= NO_LBA.

Lemma cache_same st st' : same_cache st st' → cache_ok st → cache_ok st'.
Proof. unfold cache_ok. by intros (-> & -> & _). Qed.

Lemma fat_entry_spec cluster st v :
  low_fat (fvol st) → cache_ok st →
  let '(c, st', v') := fat_entry cluster st v in
  fvol st' = fvol st ∧
  ((c = next_cluster sectors (fvol st) cluster ∧ cache_ok st') ∨ (¬ reliable ∧ eoc_of (fvol st) <= c)).
Proof.
  intros [Hl1 Hl2] Hc. unfold fat_entry. set (vol := fvol st) in *.
  pose proof (u32_range (if is_fat32 vol then cluster * 4 else cluster * 2)) as Ho. fold (fat_offset vol cluster) in Ho.
  unfold word_ok in Ho. assert (0 <= fat_offset vol cluster / 512 < 8388608) as Hq.
  { split; [apply Z.div_pos; lia|apply Z.div_lt_upper_bound; lia]. }
  assert (u32 (fat_start_lba vol + fat_offset vol cluster / 512) ≠ NO_LBA) as Hne.
  { unfold NO_LBA in *. rewrite u32_id by (unfold word_ok; lia). lia. }
  destruct (_ =? fat_buf_lba st) eqn:E.
  - apply Z.eqb_eq in E. split; [done|]. left. split; [|done]. unfold next_cluster. rewrite E in *. by rewrite <-Hc.
  - destruct (sd_read_block _ v) as [[rc l] v'] eqn:Er. destruct (static_law _ _ _ _ _ Er) as [H|[-> ->]].
    + rewrite (proj2 (Z.ltb_lt _ _)) by done. split; [done|]. right. split.
      * intros Hr. specialize (Hr (u32 (fat_start_lba vol + fat_offset vol cluster / 512)) v). rewrite Er in Hr. cbn in Hr. lia.
      * unfold eoc_of. by destruct (is_fat32 vol).
    + change (0 <? 0) with false. cbv iota. split; [done|]. left. done.
Qed.

(** ** Finding the file *)

Lemma root_clusters_spec fuel cluster scanned name11 st v :
  is_fat32 (fvol st) = true → low_fat (fvol st) → cache_ok st → 0 < sectors_per_cluster (fvol st) →
  0 <= scanned <= MAX_FAT32_ROOT_SECTORS → MAX_FAT32_ROOT_SECTORS - scanned <= Z.of_nat fuel →
  let '(rc, found, st', v') := root_clusters fuel cluster scanned name11 st v in
  fvol st' = fvol st ∧
  (((rc, found) = spec_find sectors true name11
      (take (Z.to_nat (MAX_FAT32_ROOT_SECTORS - scanned)) (chain_sectors sectors fuel (fvol st) cluster)) ∧ cache_ok st')
   ∨ (¬ reliable ∧ rc < 0)).
Proof.
  intros H32. revert cluster scanned st v H32. induction fuel as [|fuel IH]; intros cluster scanned st v H32 Hlow Hc Hspc Hsc Hf.
  { cbn. split; [done|]. left. by replace (Z.to_nat (MAX_FAT32_ROOT_SECTORS - scanned)) with 0%nat by lia. }
  cbn [root_clusters]. unfold chain_sectors. cbn [chain]. unfold eoc_of. rewrite H32.
  destruct ((cluster <? 268435448) && (2 <=? cluster)) eqn:Ec; cbn [andb].
  2: { split; [done|]. left. cbn [flat_map]. by rewrite take_nil. }
  destruct (scanned <? MAX_FAT32_ROOT_SECTORS) eqn:Es.
  2: { apply Z.ltb_ge in Es. split; [done|]. left. by replace (Z.to_nat (MAX_FAT32_ROOT_SECTORS - scanned)) with 0%nat by lia. }
  cbn [flat_map]. fold (chain_sectors sectors fuel (fvol st) (next_cluster sectors (fvol st) cluster)).
  pose proof (dir_sectors_spec (Z.to_nat (sectors_per_cluster (fvol st))) (cluster_lba (fvol st) cluster) 0 scanned name11 st v Hsc) as Hd.
  cbv zeta in Hd. change (Z.of_nat 0) with 0 in Hd. rewrite H32 in Hd.
  destruct (dir_sectors _ _ _ _ _ _ _) as [[r st1] v1]. destruct Hd as [Hsame Hd].
  pose proof Hsame as (_ & _ & Hv1). pose proof (cache_same _ _ Hsame Hc) as Hc1.
  destruct Hd as [[Hnr (rc & p & -> & Hrc)]|Hd]; [split; [done|]; by right|].
  destruct r as [sc|[rc found]]; [|split; [done|]; left; by split].
  destruct Hd as (-> & Hle & Hd).
  pose proof (fat_entry_spec cluster st1 v1) as Hfe. rewrite Hv1 in Hfe. specialize (Hfe Hlow Hc1).
  destruct (fat_entry cluster st1 v1) as [[c st2] v2]. destruct Hfe as [Hv2 [[-> Hc2]|[Hnr Heoc]]].
  - specialize (IH (next_cluster sectors (fvol st) cluster) (scanned + Z.of_nat (Z.to_nat (sectors_per_cluster (fvol st)))) st2 v2).
    rewrite Hv2 in IH. specialize (IH H32 Hlow Hc2 Hspc ltac:(lia) ltac:(lia)).
    destruct (root_clusters _ _ _ _ _ _) as [[[rc found] st3] v3]. destruct IH as [Hv3 IH]. split; [done|].
    destruct IH as [[IH Hc3]|IH]; [left; split; [|done]|by right]. rewrite IH, <-Hd. fold (cluster_sectors (fvol st) cluster).
    f_equal. assert (length (cluster_sectors (fvol st) cluster) = Z.to_nat (sectors_per_cluster (fvol st))) as Hlen
      by (unfold cluster_sectors; by rewrite length_map, length_seq).
    rewrite take_app, Hlen. f_equal; [rewrite take_ge; [done|]; rewrite Hlen; lia|f_equal; lia].
  - unfold eoc_of in Heoc. rewrite H32 in Heoc. destruct fuel as [|fuel]; cbn [root_clusters].
    + split; [done|]. by right.
    + rewrite (proj2 (Z.ltb_ge c 268435448)) by done. split; [done|]. by right.
Qed.

Lemma root_sectors_spec n k name11 st v :
  let fat32 := is_fat32 (fvol st) in
  let '(rc, found, st', v') := root_sectors n (Z.of_nat k) name11 st v in
  same_cache st st' ∧
  ((rc, found) = spec_find sectors fat32 name11 (map (λ i, u32 (root_start_lba (fvol st) + Z.of_nat i)) (seq k n))
   ∨ (¬ reliable ∧ rc < 0)).
Proof.
  revert k st v. induction n as [|n IH]; intros k st v; cbn [root_sectors]; cbv zeta; [split; [done|by left]|].
  cbn [seq map]. set (lba := u32 (root_start_lba (fvol st) + Z.of_nat k)).
  pose proof (read_io_spec lba st v) as Hio. destruct (read_io lba st v) as [[rc st1] v1].
  destruct Hio as (Hc1 & Hc2 & Hc3 & Hio). assert (same_cache st st1) as Hsame by (by split_and!).
  destruct Hio as [[Hrc Hnr]|[-> Hbuf]].
  { rewrite (proj2 (Z.ltb_lt _ _)) by done. split; [done|]. by right. }
  change (0 <? 0) with false. cbv iota. rewrite Hc3, Hbuf, spec_find_cons.
  destruct (scan_dir_sector (sectors lba) name11 (is_fat32 (fvol st))) as [r found].
  destruct (r =? 1); [split; [done|by left]|]. destruct (r =? -1); [split; [done|by left]|].
  replace (Z.of_nat k + 1) with (Z.of_nat (S k)) by lia. specialize (IH (S k) st1 v1). cbv zeta in IH.
  destruct (root_sectors n (Z.of_nat (S k)) name11 st1 v1) as [[[rc2 f2] st2] v2]. rewrite Hc3 in IH.
  destruct IH as [Hs2 IH]. split; [by eapply same_cache_trans|done].
Qed.

Lemma find_in_root_spec name11 st v :
  low_fat (fvol st) → cache_ok st → 0 < sectors_per_cluster (fvol st) →
  let '(rc, found, st', v') := find_in_root name11 st v in
  fvol st' = fvol st ∧
  (((rc, found) = spec_find sectors (is_fat32 (fvol st)) name11 (root_lbas sectors (fvol st)) ∧ cache_ok st')
   ∨ (¬ reliable ∧ rc < 0)).
Proof.
  intros Hlow Hc Hspc. unfold find_in_root, root_lbas. destruct (is_fat32 (fvol st)) eqn:H32.
  - apply (root_clusters_spec _ _ 0); (done || unfold MAX_FAT32_ROOT_SECTORS; lia).
  - pose proof (root_sectors_spec (Z.to_nat (root_dir_sectors (fvol st))) 0 name11 st v) as Hr. cbv zeta in Hr.
    change (Z.of_nat 0) with 0 in Hr. rewrite H32 in Hr. destruct (root_sectors _ _ _ _ _) as [[[rc found] st'] v'].
    destruct Hr as [Hs Hr]. split; [apply Hs|]. destruct Hr as [Hr|Hr]; [left|by right]. split; [done|]. by eapply cache_same.
Qed.

(** ** Loading the file *)

Lemma take_app_take {A} n (a b : list A) : take n (take n a ++ b) = take n (a ++ b).
Proof.
  rewrite !take_app, take_take, Nat.min_id. f_equal. f_equal. rewrite length_take. lia.
Qed.
Lemma take_full {A} n (a b : list A) : length a = n → take n (a ++ b) = a.
Proof. intros <-. apply take_app_length. Qed.

Lemma load_sectors_spec n lba k size out st v :
  zlen out <= size →
  let ls := map (λ i, u32 (lba + Z.of_nat i)) (seq k n) in
  let '(r, st', v') := load_sectors n lba (Z.of_nat k) size out st v in
  same_cache st st' ∧
  (r = inl (take (Z.to_nat size) (out ++ flat_map sectors ls)) ∨ (¬ reliable ∧ ∃ rc, r = inr rc ∧ rc < 0)).
Proof.
  revert k out st v. induction n as [|n IH]; intros k out st v Hle; cbn [load_sectors]; cbv zeta.
  { split; [done|]. left. cbn. rewrite app_nil_r, take_short by done. done. }
  destruct (zlen out <? size) eqn:E.
  2: { apply Z.ltb_ge in E. split; [done|]. left. rewrite take_full by (unfold zlen in *; lia). done. }
  apply Z.ltb_lt in E. cbn [seq map flat_map]. set (here := u32 (lba + Z.of_nat k)).
  destruct (sectors_ok here) as [Hlen _]. replace (Z.of_nat k + 1) with (Z.of_nat (S k)) by lia.
  destruct (512 <=? size - zlen out) eqn:Er.
  - apply Z.leb_le in Er. destruct (sd_read_block here v) as [[rc l] v1] eqn:Eb.
    destruct (static_law _ _ _ _ _ Eb) as [H|[-> ->]].
    + rewrite (proj2 (Z.ltb_lt _ _)) by done. split; [done|]. right. split; [|by exists (-8)].
      intros Hr. specialize (Hr here v). rewrite Eb in Hr. cbn in Hr. lia.
    + change (0 <? 0) with false. cbv iota. specialize (IH (S k) (out ++ sectors here) st v1).
      rewrite zlen_app in IH. unfold zlen at 2 in IH. rewrite Hlen in IH. specialize (IH ltac:(lia)). cbv zeta in IH.
      by rewrite <-app_assoc in IH.
  - apply Z.leb_gt in Er. pose proof (read_io_spec here st v) as Hio. destruct (read_io here st v) as [[rc st1] v1].
    destruct Hio as (Hc1 & Hc2 & Hc3 & Hio). assert (same_cache st st1) as Hsame by (by split_and!).
    destruct Hio as [[Hrc Hnr]|[-> Hbuf]].
    + rewrite (proj2 (Z.ltb_lt _ _)) by done. split; [done|]. right. split; [done|by exists (-8)].
    + change (0 <? 0) with false. cbv iota. rewrite Hbuf.
      assert (out ++ take (Z.to_nat (size - zlen out)) (sectors here) = take (Z.to_nat size) (out ++ sectors here)) as Ho.
      { rewrite take_app. f_equal; [rewrite take_ge by (unfold zlen in *; lia); done|f_equal; unfold zlen; lia]. }
      rewrite Ho. specialize (IH (S k) (take (Z.to_nat size) (out ++ sectors here)) st1 v1).
      destruct (load_sectors _ _ _ _ _ _ _) as [[r st2] v2]. cbv zeta in IH.
      destruct IH as [Hs2 IH]; [unfold zlen; rewrite length_take; pose proof (zlen_nonneg out); lia|].
      rewrite take_app_take, <-app_assoc in IH. split; [by eapply same_cache_trans|done].
Qed.

Lemma cluster_bytes_length vol c :
  0 < sectors_per_cluster vol → (512 <= length (flat_map sectors (cluster_sectors vol c)))%nat.
Proof.
  intros Hs. unfold cluster_sectors. destruct (Z.to_nat (sectors_per_cluster vol)) as [|n] eqn:E; [lia|].
  cbn [seq map flat_map]. rewrite length_app. destruct (sectors_ok (u32 (cluster_lba vol c + Z.of_nat 0))) as [-> _]. lia.
Qed.

Lemma load_clusters_spec fuel cluster size out st v :
  low_fat (fvol st) → cache_ok st → 0 < sectors_per_cluster (fvol st) →
  zlen out <= size → size - zlen out <= Z.of_nat fuel →
  let '(r, st', v') := load_clusters fuel cluster size out st v in
  r = inl (take (Z.to_nat size) (out ++ chain_bytes sectors fuel (fvol st) cluster)) ∨
  (¬ reliable ∧ match r with inl out' => zlen out' < size | inr rc => rc < 0 end).
Proof.
  revert cluster out st v. induction fuel as [|fuel IH]; intros cluster out st v Hlow Hc Hspc Hle Hf.
  { cbn. left. by rewrite app_nil_r, take_short. }
  cbn [load_clusters]. unfold chain_bytes, chain_sectors. cbn [chain].
  destruct ((cluster <? eoc_of (fvol st)) && (2 <=? cluster)); cbn [andb].
  2: { left. cbn. by rewrite app_nil_r, take_short. }
  destruct (zlen out <? size) eqn:E.
  2: { apply Z.ltb_ge in E. left. rewrite take_full by (unfold zlen in *; lia). done. }
  apply Z.ltb_lt in E. cbn [flat_map]. rewrite flat_map_app.
  change (flat_map sectors (flat_map (cluster_sectors (fvol st)) (chain sectors fuel (fvol st) (next_cluster sectors (fvol st) cluster))))
    with (chain_bytes sectors fuel (fvol st) (next_cluster sectors (fvol st) cluster)).
  pose proof (load_sectors_spec (Z.to_nat (sectors_per_cluster (fvol st))) (cluster_lba (fvol st) cluster) 0 size out st v Hle) as Hl.
  cbv zeta in Hl. change (Z.of_nat 0) with 0 in Hl. fold (cluster_sectors (fvol st) cluster) in Hl.
  destruct (load_sectors _ _ _ _ _ _ _) as [[r st1] v1]. destruct Hl as [Hsame Hl].
  pose proof Hsame as (_ & _ & Hv1). pose proof (cache_same _ _ Hsame Hc) as Hc1.
  destruct Hl as [->|[Hnr (rc & -> & Hrc)]]; [|by right].
  set (bytes := flat_map sectors (cluster_sectors (fvol st) cluster)).
  pose proof (cluster_bytes_length (fvol st) cluster Hspc) as Hbl. fold bytes in Hbl.
  set (out1 := take (Z.to_nat size) (out ++ bytes)).
  assert (zlen out1 <= size ∧ zlen out < zlen out1) as [Ho1 Ho2].
  { unfold out1, zlen in *. rewrite length_take, length_app. lia. }
  pose proof (fat_entry_spec cluster st1 v1) as Hfe. rewrite Hv1 in Hfe. specialize (Hfe Hlow Hc1).
  destruct (fat_entry cluster st1 v1) as [[c st2] v2]. destruct Hfe as [Hv2 [[-> Hc2]|[Hnr Heoc]]].
  - specialize (IH (next_cluster sectors (fvol st) cluster) out1 st2 v2). rewrite Hv2 in IH.
    specialize (IH Hlow Hc2 Hspc Ho1 ltac:(lia)). unfold out1 in IH. rewrite take_app_take, <-app_assoc in IH. exact IH.
  - assert (load_clusters fuel c size out1 st2 v2 = (inl out1, st2, v2)) as ->.
    { destruct fuel as [|fuel]; [done|]. cbn [load_clusters]. rewrite Hv2, (proj2 (Z.ltb_ge _ _)) by done. done. }
    destruct (Z.eq_dec (zlen out1) size) as [Hz|Hz]; [left|right; split; [done|lia]].
    f_equal. rewrite app_assoc, <-take_app_take. fold out1. rewrite take_full; [done|unfold zlen in Hz; lia].
Qed.

Lemma parse_bpb_spc b part old vol : Forall byte_ok b → parse_bpb b part old = (0, vol) → 0 < sectors_per_cluster vol.
Proof.
  intros Hb. unfold parse_bpb. pose proof (znth_ok b 13 Hb) as Hs. unfold byte_ok in Hs.
  destruct (negb (rd16 b 11 =? 512)); [done|]. destruct (is_power_of_two (znth b 13)) eqn:Ep; cbn [negb orb]; [|done].
  unfold is_power_of_two in Ep. apply andb_true_iff in Ep as [Ep%nonzero_true _].
  repeat case_match; intros [= <-]; cbn; lia.
Qed.

Lemma rd32_nonneg l i : Forall byte_ok l → 0 <= rd32 l i.
Proof.
  intros Hl. unfold rd32. pose proof (znth_ok l) as Hn. unfold byte_ok in Hn.
  repeat (apply Z.lor_nonneg; split); try (apply Z.shiftl_nonneg); try apply (u32_range); by apply Hn.
Qed.
Lemma dir_scan_size fat32 name11 ss :
  Forall (Forall byte_ok) ss → 0 <= snd (snd (dir_scan fat32 name11 ss)).
Proof.
  intros Hs. induction Hs as [|s ss H Hs IH]; cbn [dir_scan]; [done|]. destruct (znth s 0 =? 0); [done|].
  destruct (slot_skipped name11 s); [done|]. by apply rd32_nonneg.
Qed.
Lemma spec_find_size fat32 name11 ls : 0 <= snd (snd (spec_find sectors fat32 name11 ls)).
Proof.
  unfold spec_find. pose proof (dir_scan_size fat32 name11 (flat_map (λ lba, slots (sectors lba)) ls)) as H.
  destruct (dir_scan _ _ _) as [r found]. destruct (r =? 1); [|done]. apply H.
  apply List.Forall_forall. intros s Hs. apply in_flat_map in Hs as (lba & _ & Hs). apply in_map_iff in Hs as (k & <- & _).
  destruct (sectors_ok lba) as [_ Hok]. by apply Forall_take, Forall_drop.
Qed.

(** The part after the directory. *)
Lemma load_file_spec first size st v :
  low_fat (fvol st) → cache_ok st → 0 < sectors_per_cluster (fvol st) → 0 < size →
  let '(r, st', v') := load_clusters (Z.to_nat size) first size [] st v in
  let '(rc, data) := match r with
    | inr rc => (rc, [])
    | inl out => if negb (zlen out =? size) then (-10, out) else (0, out)
    end in
  let bytes := chain_bytes sectors (Z.to_nat size) (fvol st) first in
  (rc = (if zlen bytes <? size then -10 else 0) ∧ (rc = 0 → data = take (Z.to_nat size) bytes ∧ zlen data = size)) ∨
  (¬ reliable ∧ rc < 0).
Proof.
  intros Hlow Hc Hspc Hs. pose proof (load_clusters_spec (Z.to_nat size) first size [] st v Hlow Hc Hspc) as Hl.
  change (zlen []) with 0 in Hl. specialize (Hl ltac:(lia) ltac:(lia)).
  destruct (load_clusters _ _ _ _ _ _) as [[r st'] v']. cbn [app] in Hl.
  set (bytes := chain_bytes sectors (Z.to_nat size) (fvol st) first) in *.
  destruct Hl as [->|[Hnr Hl]].
  - destruct (zlen bytes <? size) eqn:E.
    + pose proof E as Elt. apply Z.ltb_lt in Elt. rewrite take_short, (proj2 (Z.eqb_neq _ _)) by lia. left. by rewrite E.
    + pose proof E as Ege. apply Z.ltb_ge in Ege. assert (zlen (take (Z.to_nat size) bytes) = size) as Hz
        by (unfold zlen in *; rewrite length_take; lia). rewrite Hz, Z.eqb_refl. left. rewrite E. split; [done|]. intros _. by split.
  - destruct r as [out|rc]; [|by right]. rewrite (proj2 (Z.eqb_neq _ _)) by lia. by right.
Qed.

(** C9: the reader loads the file.  On a card whose sectors stay as they are, the
    reader with its one-sector cache of the FAT, its bounds on the directory
    and its cluster loops answers what the reference computes from the sectors
    alone, in the result code and in every byte of the file, or a read failed
    and the result is an error; a file that is loaded is not empty and not
    longer than the buffer. *)
Theorem fat_load_spec name11 max_bytes st v :
  (∀ vol, parse_bpb (sectors (find_partition 4 0 (sectors 0))) (find_partition 4 0 (sectors 0)) (fvol st) = (0, vol) →
          low_fat vol) →
  let '(rc, data, _, _) := fat_load_file name11 max_bytes st v in
  let '(rc0, data0) := fat_spec sectors name11 max_bytes (fvol st) in
  (rc = rc0 ∧ (rc = 0 → data = data0 ∧ 0 < zlen data <= max_bytes)) ∨ (¬ reliable ∧ rc < 0).
Proof.
  intros Hlow. destruct (fat_spec sectors name11 max_bytes (fvol st)) as [rc0 data0] eqn:Hspec. revert Hspec.
  unfold fat_load_file, fat_spec. set (st0 := FatSt _ _ NO_LBA _).
  pose proof (read_io_spec 0 st0 v) as Hio. destruct (read_io 0 st0 v) as [[rc1 st1] v1].
  destruct Hio as (Hc1 & Hc2 & Hc3 & [[Hrc Hnr]|[-> Hbuf]]).
  { rewrite (proj2 (Z.ltb_lt _ _)) by done. intros _. by right. }
  change (0 <? 0) with false. cbv iota. rewrite Hbuf. destruct (_ || _); [by intros [= <- <-]; left|].
  set (part := find_partition 4 0 (sectors 0)) in *. destruct (part =? 0); [by intros [= <- <-]; left|].
  pose proof (read_io_spec part st1 v1) as Hio. destruct (read_io part st1 v1) as [[rc2 st2] v2].
  destruct Hio as (Hd1 & Hd2 & Hd3 & [[Hrc Hnr]|[-> Hbuf2]]).
  { rewrite (proj2 (Z.ltb_lt _ _)) by done. intros _. by right. }
  change (0 <? 0) with false. cbv iota. rewrite Hbuf2, Hd3, Hc3. change (fvol st0) with (fvol st).
  pose proof (parse_bpb_spc (sectors part) part (fvol st)) as Hspc.
  destruct (parse_bpb (sectors part) part (fvol st)) as [rc vol]. destruct (nonzero rc) eqn:Erc; [intros [= <- <-]; left; split; [done|]; by intros ->|].
  apply nonzero_false in Erc as ->. specialize (Hlow vol eq_refl).
  specialize (Hspc vol (proj2 (sectors_ok part)) eq_refl).
  set (st3 := FatSt _ _ _ vol). assert (cache_ok st3) as Hc.
  { intros Hne. exfalso. apply Hne. cbn. rewrite Hd2, Hc2. done. }
  pose proof (find_in_root_spec name11 st3 v2 Hlow Hc Hspc) as Hf. change (fvol st3) with vol in Hf.
  destruct (find_in_root name11 st3 v2) as [[[frc [first size]] st4] v4]. destruct Hf as [Hv4 Hf].
  pose proof (spec_find_size (is_fat32 vol) name11 (root_lbas sectors vol)) as Hsz.
  destruct (spec_find sectors (is_fat32 vol) name11 (root_lbas sectors vol)) as [frc0 [first0 size0]]. cbn in Hsz.
  destruct Hf as [[[= -> -> ->] Hc4]|[Hnr Hfrc]].
  2: { assert (nonzero frc = true) as -> by (unfold nonzero; rewrite (proj2 (Z.eqb_neq _ _)) by lia; done).
       intros _. by right. }
  destruct (nonzero frc0) eqn:Ef; [intros [= <- <-]; left; split; [done|]; intros ->; done|].
  destruct ((size0 =? 0) || (first0 <? 2)) eqn:Es; cbn [orb]; [by intros [= <- <-]; left|]. destruct (max_bytes <? size0) eqn:Em; [by intros [= <- <-]; left|].
  apply orb_false_iff in Es as [Es _]. apply Z.eqb_neq in Es. apply Z.ltb_ge in Em.
  pose proof (load_file_spec first0 size0 st4 v4) as Hl. rewrite Hv4 in Hl. change (fvol st3) with vol in Hl.
  specialize (Hl Hlow Hc4 Hspc ltac:(lia)). destruct (load_clusters _ _ _ _ _ _) as [[r st5] v5]. cbv zeta in Hl.
  destruct r as [out|rc]; cbv beta iota in Hl |- *; [destruct (zlen out =? size0); cbv beta iota delta [negb] in Hl |- *|];
    destruct (zlen (chain_bytes sectors (Z.to_nat size0) vol first0) <? size0);
    (intros [= <- <-]; destruct Hl as [[E0 Hl]|Hl]; [left; split; [exact E0|intros Hz; first [congruence|destruct (Hl Hz) as [H1 ?]; split; [exact H1|lia]]]|by right]).
Qed.
End proofs.

(** ** A card with a FAT16 volume of one file *)

Definition patch (ps : list (Z * Z)) : list Z := fold_left (λ l p, zset l (fst p) (snd p)) ps (replicate 512 0).
Definition boot_name : list Z := bytes_of "BOOT    BIN".

Definition small_sector (lba : Z) : list Z :=
  if lba =? 0 then patch [(510, 85); (511, 170); (450, 6); (454, 1)]
  else if lba =? 1 then patch [(12, 2); (13, 1); (14, 1); (16, 1); (17, 16); (22, 1)]
  else if lba =? 2 then patch [(4, 3); (6, 255); (7, 255)]
  else if lba =? 3 then take 512 (boot_name ++ patch [(15, 2); (17, 88); (18, 2)])
  else if lba =? 4 then replicate 512 1
  else replicate 512 2.

Inductive small := Small.
#[export] Instance small_card : Card small := {|
  sd_init v := (0, v);
  sd_high_speed v := (0, v);
  sd_read_block lba v := (0, small_sector lba, v);
  sd_write_block lba l v := (-1, v);
  sd_read_blocks lba n v := (-1, [], v);
|}.

#[export, refine] Instance small_static : StaticCard small := {| sectors := small_sector |}.
Proof.
  - intros lba. assert (∀ l, Nat.eqb (length l) 512 && bytes_okb l = true → length l = 512%nat ∧ Forall byte_ok l) as Hok.
    { intros l [H1%Nat.eqb_eq H2]%andb_true_iff. split; [done|by apply bytes_okb_spec]. }
    unfold small_sector. apply Hok. repeat (destruct (_ =? _); [by vm_compute|]). by vm_compute.
  - intros lba v rc l v' [= <- <-]. by right.
Defined.

Definition small_st : fat_st := FatSt [] [] 0 (FatVol 0 0 0 0 0 0 0 false).

Theorem fat_load_spec_witness :
  fst (fst (fat_load_file boot_name 1000 small_st Small)) = (0, replicate 512 1 ++ replicate 88 2) ∧
  let '(rc, data, _, _) := fat_load_file boot_name 1000 small_st Small in
  let '(rc0, data0) := fat_spec (sectors (V := small)) boot_name 1000 (fvol small_st) in
  (rc = rc0 ∧ (rc = 0 → data = data0 ∧ 0 < zlen data <= 1000)) ∨ (¬ reliable (V := small) ∧ rc < 0).
Proof.
  split; [by vm_compute|]. pose proof (fat_load_spec boot_name 1000 small_st Small) as H. apply H.
  intros vol. assert (parse_bpb (sectors (find_partition 4 0 (sectors 0))) (find_partition 4 0 (sectors 0)) (fvol small_st) =
    (0, FatVol 512 1 2 3 1 4 0 false)) as -> by by vm_compute.
  intros [= <-]. unfold low_fat, NO_LBA. cbn [fat_start_lba]. lia.
Defined.
