(* ===== verification/Soc.v ===== *)
(** * Soc: the SoC helpers of the boot images ([src/baremetal/lib/soc.c])

    UART output, power latch, LED, keys, amplifiers and the pin setup for NAND.
    Every function is a sequence of register accesses of a machine; the record
    [boot] at the end is the static state of the library that the boot images
    link: the machine and the variables of log.c, timer.c and nand.c. *)
From S2P Require Import Prelude Machine.

Section Soc.
Context {S D : Type} `{!HasMachine S D, !Device D}.

Definition SYSCTRL_SHAREPIN2 : Z := 0x08000074.
Definition SYSCTRL_SHAREPIN1 : Z := 0x08000078.
Definition UART_CTRL : Z := 0x20026000.
Definition UART_CFG : Z := 0x20026004.
Definition UART_COUNT : Z := 0x20026008.
Definition UART_RX_THRESH : Z := 0x2002600C.
Definition L2CTR_UART_CFG : Z := 0x2002C040.
Definition L2CTR_UART_PORT_CFG : Z := 0x2002C04C.
Definition L2CTR_DMA_PATH_CFG : Z := 0x2002C084.
Definition L2CTR_BUF0_7_CFG : Z := 0x2002C088.
Definition L2CTR_ASSIGN_REG1 : Z := 0x2002C090.
Definition L2_UART_TX_PORT : Z := 0x48001000.
Definition L2_UART_TX_FRAC : Z := 0x4800103C.
Definition NF_TIMING0_BLK0 : Z := 0x2002A05C.
Definition SYSCTRL_GPIO1_DIR : Z := 0x0800007C.
Definition SYSCTRL_GPIO1_IN : Z := 0x080000BC.
Definition POWER_KEY_BIT : Z := 0x00000008.
Definition JTAG_MUX_BIT : Z := 0x00000001.
Definition SYSCTRL_GPIO3_DIR : Z := 0x0800008C.
Definition SYSCTRL_GPIO3_OUT : Z := 0x08000090.
Definition AMP_ENABLE_BIT : Z := 0x00000020.
Definition SYSCTRL_GPIO4_DIR : Z := 0x08000094.
Definition SYSCTRL_GPIO4_IN : Z := 0x080000C8.
Definition SYSCTRL_GPIO4_OUT : Z := 0x08000098.
Definition POWER_ON_BIT : Z := 0x00000200.
Definition WORK_LED_BIT : Z := 0x00000100.
Definition AC_DET_BIT : Z := 0x00000080.
Definition AC_DET_IN_BIT : Z := AC_DET_BIT .>> 3.
Definition UART_TX_LIMIT : Z := 0x00100000.
Definition EBOOT_ENTRY : Z := 0x30038000.
Definition EBOOT_SP : Z := 0x30036000.

(** [reg |= bits] and [reg &= ~bits] *)
Definition reg_or (a bits : Z) : M S unit := rmw W32 a (λ v, v .| bits).
Definition reg_clear (a bits : Z) : M S unit := rmw W32 a (λ v, v .& not32 bits).

Definition uart_init : M S unit :=
  reg_or SYSCTRL_SHAREPIN1 0x00000200;;
  reg_or L2CTR_UART_CFG 0x00000800;;
  ctrl ← rd32 UART_CTRL;
  when (ctrl =? 0) (wr32 UART_CTRL 0x30200208);;
  wr32 UART_RX_THRESH 0.

Definition uart_putc (c : Z) : M S unit :=
  reg_or L2CTR_UART_PORT_CFG 0x00010000;;
  wr32 L2_UART_TX_PORT (u8 c);;
  wr32 L2_UART_TX_FRAC 0;;
  reg_or UART_CTRL 0x10000000;;
  reg_or UART_CFG 0x00010010;;
  spin UART_TX_LIMIT (n ← rd32 UART_COUNT; mret (if nonzero (n .& 0x1FFF) then None else Some tt));;
  skip.

Definition l2_init : M S unit := reg_or L2CTR_DMA_PATH_CFG 0x30000000.

Definition power_hold : M S unit :=
  reg_or SYSCTRL_GPIO4_OUT POWER_ON_BIT;; reg_clear SYSCTRL_GPIO4_DIR POWER_ON_BIT.
Definition power_release : M S unit :=
  reg_clear SYSCTRL_GPIO4_OUT POWER_ON_BIT;; reg_clear SYSCTRL_GPIO4_DIR POWER_ON_BIT.

Definition work_led (on : Z) : M S unit :=
  (if nonzero on then reg_or SYSCTRL_GPIO4_OUT WORK_LED_BIT else reg_clear SYSCTRL_GPIO4_OUT WORK_LED_BIT);;
  reg_clear SYSCTRL_GPIO4_DIR WORK_LED_BIT.

Definition ac_det : M S Z :=
  reg_or SYSCTRL_GPIO4_DIR AC_DET_BIT;;
  v ← rd32 SYSCTRL_GPIO4_IN; mret (b2z (nonzero (v .& AC_DET_IN_BIT))).

Definition power_key_down : M S Z :=
  reg_clear SYSCTRL_SHAREPIN1 JTAG_MUX_BIT;;
  reg_or SYSCTRL_GPIO1_DIR POWER_KEY_BIT;;
  v ← rd32 SYSCTRL_GPIO1_IN; mret (b2z ((v .& POWER_KEY_BIT) =? 0)).

Definition speaker_amp (on : Z) : M S unit :=
  (if nonzero on then reg_or SYSCTRL_GPIO3_OUT AMP_ENABLE_BIT else reg_clear SYSCTRL_GPIO3_OUT AMP_ENABLE_BIT);;
  reg_clear SYSCTRL_GPIO3_DIR AMP_ENABLE_BIT.

Definition nf_hw_init : M S unit :=
  rmw W32 SYSCTRL_SHAREPIN2 (λ v, (v .& not32 0x00000018) .| 0x00000008);;
  reg_or SYSCTRL_SHAREPIN1 0x00C70200;;
  reg_clear L2CTR_ASSIGN_REG1 0x00000E00;;
  reg_or L2CTR_BUF0_7_CFG 0x00010000;;
  reg_or L2CTR_BUF0_7_CFG 0x01000000;;
  l2_init;;
  wr32 NF_TIMING0_BLK0 0x000F5BD1.

(** ** Frame *)

(** Register accesses keep memory and the static variables. *)
Lemma steps_reg_or (R : S → S → Prop) `{!PreOrder R} a b : in_ddr a = false → dev_frame R → steps R (reg_or a b).
Proof. intros. by apply steps_rmw_dev. Qed.
Lemma steps_reg_clear (R : S → S → Prop) `{!PreOrder R} a b : in_ddr a = false → dev_frame R → steps R (reg_clear a b).
Proof. intros. by apply steps_rmw_dev. Qed.

Lemma steps_uart_putc (R : S → S → Prop) `{!PreOrder R} c : dev_frame R → steps R (uart_putc c).
Proof.
  intros HR. unfold uart_putc.
  apply (steps_bind R); [by apply steps_reg_or|intros ?].
  apply (steps_bind R); [by apply steps_wr_dev|intros ?].
  apply (steps_bind R); [by apply steps_wr_dev|intros ?].
  apply (steps_bind R); [by apply steps_reg_or|intros ?].
  apply (steps_bind R); [by apply steps_reg_or|intros ?].
  apply (steps_bind R); [|intros ?; apply (steps_skip R)].
  apply (steps_spin R), (steps_bind R); [by apply steps_rd_dev|intros ?; apply (steps_ret R)].
Qed.
End Soc.

(** The two bit operations undo each other on a bit. *)
Lemma set_clear_bit v k : 0 <= k < 32 → word_ok v →
  Z.testbit (v .| (1 .<< k)) k = true ∧ Z.testbit (v .& not32 (1 .<< k)) k = false ∧
  ∀ j, 0 <= j < 32 → j ≠ k → Z.testbit (v .| (1 .<< k)) j = Z.testbit v j ∧ Z.testbit (v .& not32 (1 .<< k)) j = Z.testbit v j.
Proof.
  intros Hk Hv.
  assert (∀ j, Z.testbit (1 .<< k) j = (j =? k)) as Hb.
  { intros j. destruct (Z_lt_le_dec j 0); [rewrite Z.testbit_neg_r by lia; symmetry; apply Z.eqb_neq; lia|].
    rewrite Z.shiftl_1_l, Z.pow2_bits_eqb by lia. apply Z.eqb_sym. }
  assert (∀ j, 0 <= j < 32 → Z.testbit (not32 (1 .<< k)) j = negb (j =? k)) as Hn.
  { intros j Hj. unfold not32. replace (4294967295 - u32 (1 .<< k)) with (Z.lnot (u32 (1 .<< k)) + 1 * 2 ^ 32)
      by (unfold Z.lnot; change (2 ^ 32) with 4294967296; lia).
    rewrite <-(Z.mod_pow2_bits_low _ 32) by lia. rewrite Z.mod_add by done.
    rewrite Z.mod_pow2_bits_low, Z.lnot_spec, testbit_u32, Hb by lia. done. }
  split_and!.
  - rewrite Z.lor_spec, Hb, Z.eqb_refl. apply orb_true_r.
  - rewrite Z.land_spec, Hn, Z.eqb_refl by lia. apply andb_false_r.
  - intros j Hj Hne. rewrite Z.lor_spec, Z.land_spec, Hb, Hn, (proj2 (Z.eqb_neq j k)) by (done || lia).
    by rewrite orb_false_r, andb_true_r.
Qed.

(** ** The state of the boot images *)

Record log_st := LogSt { log_ptr : Z; log_end : Z }.
Record timer_st := TimerSt { s_last_raw : Z; s_total_ticks : Z }.
Record nand_st := NandSt { pages_per_block : Z; corrections : Z; retries : Z }.

Record boot (D : Type) := Boot { b_mach : machine D; b_log : log_st; b_timer : timer_st; b_nand : nand_st }.
Arguments Boot {D} _ _ _ _.
Arguments b_mach {D} _.
Arguments b_log {D} _.
Arguments b_timer {D} _.
Arguments b_nand {D} _.

#[export] Instance boot_machine D : HasMachine (boot D) D.
Proof.
  refine {| machine_of := b_mach; set_machine m s := Boot m (b_log s) (b_timer s) (b_nand s) |};
    by intros ? *; try destruct s.
Defined.

Definition getL {D A} (f : log_st → A) : M (boot D) A := gets (λ s, f (b_log s)).
Definition updL {D} (f : log_st → log_st) : M (boot D) unit :=
  modify (λ s, Boot (b_mach s) (f (b_log s)) (b_timer s) (b_nand s)).
Definition getM {D A} (f : timer_st → A) : M (boot D) A := gets (λ s, f (b_timer s)).
Definition updM {D} (f : timer_st → timer_st) : M (boot D) unit :=
  modify (λ s, Boot (b_mach s) (b_log s) (f (b_timer s)) (b_nand s)).
Definition getN {D A} (f : nand_st → A) : M (boot D) A := gets (λ s, f (b_nand s)).
Definition updN {D} (f : nand_st → nand_st) : M (boot D) unit :=
  modify (λ s, Boot (b_mach s) (b_log s) (b_timer s) (f (b_nand s))).

(** A machine without memory content, for the examples. *)
Definition example_boot : boot unit := Boot (Machine ∅ tt) (LogSt 0 0) (TimerSt 0 0) (NandSt 0 0 0).
