(* ===== verification/Log.v ===== *)
(** * Log: the boot log ([src/baremetal/lib/log.c])

    Log text goes to the UART and into a window of DDR that survives from one
    boot stage to the next.  The window is memory of the machine, [log_ptr] and
    [log_end] are the statics of the stage. *)
From S2P Require Import Prelude Machine Soc.

Definition LOG_SIZE : Z := 0x00010000.

(** What an image is built with: the place of the window, which has a default in log.h
    and is set by the Makefiles of three images, and whether there is a UART. *)
Class LogBuild := {
  LOG_BASE : Z;
  log_uart : bool;
  log_base_ok : DDR_BASE <= LOG_BASE ∧ LOG_BASE + LOG_SIZE <= DDR_END;
}.
(** log.h, which openNBOOT takes as it is. *)
Definition default_log : LogBuild := {| LOG_BASE := 0x301F0000; log_uart := true; log_base_ok := ltac:(done) |}.
Definition aipc_boot_log : LogBuild := {| LOG_BASE := 0x301B0000; log_uart := true; log_base_ok := ltac:(done) |}.
(** [-DLOG_NO_UART] *)
Definition cfw_log : LogBuild := {| LOG_BASE := 0x30180000; log_uart := false; log_base_ok := ltac:(done) |}.
Definition doom_log : LogBuild := {| LOG_BASE := 0x301A0000; log_uart := true; log_base_ok := ltac:(done) |}.

Section Log.
Context {D : Type} `{!Device D} {build : LogBuild}.
Abbreviation St := (boot D).

(** [for (q = p; q < e; q++) *q = 0] *)
Definition log_clear : M St unit := for_to LOG_SIZE (λ i, wr8 (LOG_BASE + i) 0).

Definition log_init : M St unit :=
  log_clear;; updL (λ _, LogSt LOG_BASE (LOG_BASE + LOG_SIZE)).

(** The first NUL of the window. *)
Definition log_resume : M St unit :=
  r ← spin_i LOG_SIZE (λ i, c ← rd8 (LOG_BASE + i); mret (if nonzero c then None else Some i));
  let ptr := match r with Some i => LOG_BASE + i | None => LOG_BASE + LOG_SIZE end in
  updL (λ _, LogSt ptr (LOG_BASE + LOG_SIZE));;
  when (ptr =? LOG_BASE + LOG_SIZE) log_init.

Definition log_detach : M St unit := updL (λ l, LogSt (log_end l) (log_end l)).

Definition log_putc (c : Z) : M St unit :=
  ptr ← getL log_ptr; e ← getL log_end;
  when (ptr <? e) (wr8 ptr c;; updL (λ l, LogSt (log_ptr l + 1) (log_end l)));;
  when log_uart (uart_putc c).

Fixpoint log_puts (l : list Z) : M St unit :=
  match l with [] => skip | c :: l' => log_putc c;; log_puts l' end.

Definition hex_digit (v i : Z) : Z := znth (bytes_of "0123456789ABCDEF") ((v .>> (i * 4)) .& 15).
Definition hex32_text (v : Z) : list Z := bytes_of "0x" ++ map (hex_digit v) [7; 6; 5; 4; 3; 2; 1; 0].
Definition log_hex32 (v : Z) : M St unit := log_puts (hex32_text v).

Definition log_dec (v : Z) : M St unit := log_puts (dec_digits v).

(** [(uint32_t)(-rc)] *)
Definition rc_text (rc : Z) : list Z := bytes_of " rc=" ++ dec_digits (u32 (- rc)) ++ [10].
Definition log_rc (rc : Z) : M St unit := log_puts (rc_text rc).

(** ** What logging does *)

(** The window of a stage: inside the reserved memory, or closed. *)
Definition log_ok (s : St) : Prop :=
  log_end (b_log s) = log_ptr (b_log s) ∨
  (LOG_BASE <= log_ptr (b_log s) <= LOG_BASE + LOG_SIZE ∧ log_end (b_log s) = LOG_BASE + LOG_SIZE).

Definition room (s : St) : Z := Z.max 0 (log_end (b_log s) - log_ptr (b_log s)).

(** [s'] is [s] with the text [l] added to the window as far as it fits. *)
Definition logged_text (l : list Z) (s s' : St) : Prop :=
  let fits := take (Z.to_nat (room s)) l in
  ram (b_mach s') = mset_list (ram (b_mach s)) (log_ptr (b_log s)) fits ∧
  b_log s' = LogSt (log_ptr (b_log s) + zlen fits) (log_end (b_log s)) ∧
  b_timer s' = b_timer s ∧ b_nand s' = b_nand s.

Definition regs_only (s s' : St) : Prop :=
  ram (b_mach s') = ram (b_mach s) ∧ b_log s' = b_log s ∧ b_timer s' = b_timer s ∧ b_nand s' = b_nand s.
#[export] Instance regs_only_preorder : PreOrder regs_only.
Proof. split; [done|]. intros ? ? ? (? & ? & ? & ?) (? & ? & ? & ?). split_and!; congruence. Qed.

Lemma uart_quiet c (s : St) : regs_only s (snd (when log_uart (uart_putc c) s)).
Proof. apply (steps_when regs_only), (steps_uart_putc regs_only c). done. Qed.

Lemma logged_app l k s s1 s2 : logged_text l s s1 → logged_text k s1 s2 → logged_text (l ++ k) s s2.
Proof.
  unfold logged_text, room. intros (Hr1 & Hl1 & Ht1 & Hn1) (Hr2 & Hl2 & Ht2 & Hn2).
  rewrite Hl1 in *. cbn [log_ptr log_end] in *. set (p := log_ptr (b_log s)) in *. set (e := log_end (b_log s)) in *.
  rewrite Hr1 in Hr2. set (fl := take (Z.to_nat (Z.max 0 (e - p))) l) in *.
  assert (take (Z.to_nat (Z.max 0 (e - p))) (l ++ k) = fl ++ take (Z.to_nat (Z.max 0 (e - (p + zlen fl)))) k) as ->.
  { rewrite take_app. fold fl. f_equal. f_equal. unfold fl, zlen. rewrite length_take. lia. }
  rewrite mset_list_app, zlen_app, Z.add_assoc. split_and!; congruence.
Qed.

Lemma logged_ok l s s' : log_ok s → logged_text l s s' → log_ok s'.
Proof.
  unfold log_ok, logged_text, room. intros Hs (_ & Hl & _). rewrite Hl. cbn [log_ptr log_end].
  unfold zlen. rewrite length_take. lia.
Qed.

Lemma log_putc_text c (s : St) : log_ok s → logged_text [c] s (snd (log_putc c s)).
Proof.
  intros Hok. pose proof log_base_ok as Hbase. unfold log_putc, getL, gets, mbind, M_bind. cbn [fst snd]. unfold when at 1.
  destruct (log_ptr (b_log s) <? log_end (b_log s)) eqn:E.
  - apply Z.ltb_lt in E.
    set (s1 := Boot (Machine (mset_list (ram (b_mach s)) (log_ptr (b_log s)) [u8 c]) (dev (b_mach s)))
                    (LogSt (log_ptr (b_log s) + 1) (log_end (b_log s))) (b_timer s) (b_nand s)).
    assert ((wr8 (log_ptr (b_log s)) c;; updL (λ l, LogSt (log_ptr l + 1) (log_end l))) s = (tt, s1)) as Hs1.
    { unfold wr, bus_write, updL, modify, mbind, M_bind. cbn [machine_of boot_machine].
      rewrite in_ddr_true; [done|]. unfold log_ok, LOG_SIZE, DDR_BASE, DDR_END in *. lia. }
    unfold mbind, M_bind in Hs1. rewrite Hs1. pose proof (uart_quiet c s1) as (H1 & H2 & H3 & H4).
    destruct (when log_uart (uart_putc c) s1) as [[] s2]. cbn [snd] in *. unfold logged_text. rewrite H1, H2, H3, H4.
    replace (take (Z.to_nat (room s)) [c]) with [c].
    2: { unfold room. destruct (Z.to_nat _) eqn:En; [lia|]. cbn. by rewrite take_nil. }
    cbn. unfold mset. by rewrite u8_u8.
  - apply Z.ltb_ge in E. cbn [skip]. pose proof (uart_quiet c s) as (H1 & H2 & H3 & H4). unfold skip.
    destruct (when log_uart (uart_putc c) s) as [[] s2]. cbn [snd] in *. unfold logged_text. rewrite H1, H2, H3, H4.
    replace (Z.to_nat (room s)) with 0%nat by (unfold room; lia). cbn. rewrite Z.add_0_r.
    split_and!; try done. by destruct (b_log s).
Qed.

Lemma log_puts_text l (s : St) : log_ok s → logged_text l s (snd (log_puts l s)).
Proof.
  revert s. induction l as [|c l IH]; intros s Hok; cbn [log_puts].
  - unfold logged_text. rewrite take_nil. cbn. rewrite Z.add_0_r. by destruct s as [? [? ?] ? ?].
  - change (c :: l) with ([c] ++ l). unfold mbind, M_bind.
    pose proof (log_putc_text c s Hok) as Hc. destruct (log_putc c s) as [[] s1]. cbn [snd] in Hc.
    eapply logged_app; [exact Hc|]. apply IH. by eapply logged_ok.
Qed.

(** ** The window *)

Notation window s := (mget_list (ram (b_mach s)) LOG_BASE (Z.to_nat LOG_SIZE)) (only parsing).

(** The window of a stage that has logged [text] since it was cleared. *)
Definition log_holds (text : list Z) (s : St) : Prop :=
  b_log s = LogSt (LOG_BASE + zlen text) (LOG_BASE + LOG_SIZE) ∧ zlen text <= LOG_SIZE ∧
  window s = text ++ replicate (Z.to_nat LOG_SIZE - length text) 0.

Lemma holds_ok text s : log_holds text s → log_ok s.
Proof. intros (Hl & Hn & _). right. rewrite Hl. cbn. pose proof (zlen_nonneg text). unfold LOG_SIZE in *. lia. Qed.

Lemma mget_list_split m a n k : (k <= n)%nat → mget_list m a n = mget_list m a k ++ mget_list m (a + Z.of_nat k) (n - k).
Proof. intros Hk. replace n with (k + (n - k))%nat at 1 by lia. apply mget_list_app. Qed.

Lemma window_append m b n text fits :
  mget_list m b n = text ++ replicate (n - length text) 0 → (length text + length fits <= n)%nat →
  Forall byte_ok fits →
  mget_list (mset_list m (b + zlen text) fits) b n = text ++ fits ++ replicate (n - length text - length fits) 0.
Proof.
  intros Hw Hn Hb. unfold zlen.
  rewrite (mget_list_split m _ _ (length text)) in Hw by lia.
  apply app_inj_1 in Hw as [Hw1 Hw2]; [|by rewrite mget_list_length].
  rewrite (mget_list_split m _ _ (length fits)) in Hw2 by lia.
  rewrite (mget_list_split _ _ _ (length text)) by lia. f_equal.
  { etrans; [|exact Hw1]. apply mget_list_ext. intros x Hx. apply mget_mset_list_out. lia. }
  rewrite (mget_list_split _ _ (n - length text) (length fits)) by lia. f_equal.
  { by apply mget_list_mset_list. }
  rewrite (mget_list_ext _ m). 2: { intros x Hx. apply mget_mset_list_out. unfold zlen. lia. }
  replace (replicate (n - length text) 0) with (replicate (length fits) 0 ++ replicate (n - length text - length fits) 0) in Hw2.
  2: { rewrite <-replicate_add. f_equal. lia. }
  apply app_inj_1 in Hw2 as [_ Hw2]; [done|by rewrite mget_list_length, length_replicate].
Qed.

Lemma log_holds_puts text l s :
  Forall byte_ok l → log_holds text s →
  log_holds (text ++ take (Z.to_nat (LOG_SIZE - zlen text)) l) (snd (log_puts l s)).
Proof.
  intros Hb Hh. pose proof (log_puts_text l s (holds_ok _ _ Hh)) as (Hr & Hl & _). destruct Hh as (Hp & Hn & Hw).
  assert (room s = LOG_SIZE - zlen text) as Hroom by (unfold room; rewrite Hp; cbn; lia).
  rewrite Hroom, Hp in Hr, Hl. cbn [log_ptr log_end] in Hr, Hl. set (fits := take _ l) in *.
  assert (zlen fits <= LOG_SIZE - zlen text) as Hf by (unfold fits, zlen; rewrite length_take; unfold zlen in Hn; lia).
  unfold log_holds. rewrite Hl, zlen_app. split_and!; [f_equal; lia|lia|].
  rewrite Hr.
  rewrite (window_append _ _ _ text fits Hw), <-app_assoc; [|unfold zlen in *; lia|by apply Forall_take].
  do 3 f_equal. rewrite length_app. lia.
Qed.

Lemma log_holds_first l s :
  Forall byte_ok l → log_holds [] s → log_holds (take (Z.to_nat LOG_SIZE) l) (snd (log_puts l s)).
Proof. intros Hb Hh. pose proof (log_holds_puts [] l s Hb Hh) as H. rewrite zlen_nil, Z.sub_0_r, app_nil_l in H. exact H. Qed.

Lemma log_addr i : 0 <= i < LOG_SIZE → in_ddr (LOG_BASE + i) = true.
Proof. intros. pose proof log_base_ok. apply in_ddr_true. unfold LOG_SIZE, DDR_BASE, DDR_END in *. lia. Qed.

Lemma mget_list_zeros m a n : (∀ x, a <= x < a + Z.of_nat n → mget m x = 0) → mget_list m a n = replicate n 0.
Proof.
  revert a. induction n as [|n IH]; intros a H; [done|]. cbn [mget_list replicate].
  rewrite H, IH; [done| |lia]. intros x Hx. apply H. lia.
Qed.

Lemma log_clear_spec (s : St) :
  ∃ s', log_clear s = (tt, s') ∧ window s' = replicate (Z.to_nat LOG_SIZE) 0.
Proof.
  destruct (log_clear s) as [[] s'] eqn:E. exists s'. split; [done|].
  assert (wp log_clear (λ _ s', ∀ x, LOG_BASE <= x < LOG_BASE + LOG_SIZE → mget (ram (b_mach s')) x = 0) s) as Hw.
  { unfold log_clear, for_to.
    eapply wp_mono; [apply (wp_for_range (λ i s', ∀ x, LOG_BASE <= x < LOG_BASE + i → mget (ram (b_mach s')) x = 0))|].
    - intros x Hx. lia.
    - intros i s1 Hi HP. apply wp_wr_ddr; [apply log_addr; unfold LOG_SIZE in *; lia|]. cbn.
      intros x Hx. destruct (decide (x = LOG_BASE + i)) as [->|Hne]; [by rewrite mget_mset_eq|].
      rewrite mget_mset_ne by done. apply HP. lia.
    - intros [] s1 HP x Hx. apply HP. rewrite Z2Nat.id by done. lia. }
  unfold wp in Hw. rewrite E in Hw. apply mget_list_zeros. intros x Hx. apply Hw. rewrite Z2Nat.id in Hx by done. lia.
Qed.

Lemma log_init_holds (s : St) : log_holds [] (snd (log_init s)).
Proof.
  unfold log_init, mbind, M_bind. destruct (log_clear_spec s) as (s' & -> & Hw).
  unfold log_holds. rewrite zlen_nil, Z.add_0_r, Nat.sub_0_r. by split_and!.
Qed.

(** The state of a new stage, with the memory and the devices of the one before. *)
Definition next_stage (l : log_st) (t : timer_st) (n : nand_st) (s : St) : St := Boot (b_mach s) l t n.

Lemma log_scan_eq (s : St) i :
  0 <= i < LOG_SIZE →
  (c ← rd8 (LOG_BASE + i); mret (if nonzero c then None else Some i)) s =
  ((if nonzero (mget (ram (b_mach s)) (LOG_BASE + i)) then None else Some i), s).
Proof.
  intros Hi. unfold mbind, M_bind, rd, bus_read. rewrite log_addr by done. cbn [machine_of boot_machine].
  change (nbytes W8) with 1%nat. cbn [mget_list le_join]. rewrite Z.mul_0_r, Z.add_0_r. by destruct s.
Qed.

(** The scan of a window that begins with [text]. *)
Lemma log_scan text (s : St) :
  Forall (λ c, c ≠ 0) text → zlen text <= LOG_SIZE →
  window s = text ++ replicate (Z.to_nat LOG_SIZE - length text) 0 →
  spin_i LOG_SIZE (λ i, c ← rd8 (LOG_BASE + i); mret (if nonzero c then None else Some i)) s =
  ((if zlen text <? LOG_SIZE then Some (zlen text) else None), s).
Proof.
  intros Hnz Hn Hw. pose proof (zlen_nonneg text).
  assert (∀ i, (i < Z.to_nat LOG_SIZE)%nat → mget (ram (b_mach s)) (LOG_BASE + Z.of_nat i) = nth i (text ++ replicate (Z.to_nat LOG_SIZE - length text) 0) 0) as Hb.
  { intros i Hi. rewrite <-Hw. by rewrite mget_list_nth. }
  set (f i := if nonzero (mget (ram (b_mach s)) (LOG_BASE + i)) then None else Some i).
  assert (∀ i, 0 <= i < zlen text → f i = None) as Hnone.
  { intros i Hi. unfold f. specialize (Hb (Z.to_nat i) ltac:(lia)). rewrite Z2Nat.id in Hb by lia.
    rewrite Hb, app_nth1 by (unfold zlen in *; lia). unfold nonzero. rewrite (proj2 (Z.eqb_neq _ _)); [done|].
    rewrite List.Forall_forall in Hnz. apply Hnz, nth_In. unfold zlen in *. lia. }
  rewrite (spin_i_find _ _ f) by (intros; by apply log_scan_eq). f_equal.
  destruct (zlen text <? LOG_SIZE) eqn:E.
  - apply Z.ltb_lt in E. apply (find_first_at _ _ _ (zlen text)); [lia|exact Hnone|]. unfold f.
    specialize (Hb (length text) ltac:(unfold zlen in *; lia)). unfold zlen. rewrite Hb, app_nth2, nth_zeros by lia. done.
  - apply Z.ltb_ge in E. apply find_first_none. intros i Hi. apply Hnone. lia.
Qed.

Lemma log_resume_full text (s : St) :
  Forall (λ c, c ≠ 0) text → zlen text = LOG_SIZE →
  window s = text ++ replicate (Z.to_nat LOG_SIZE - length text) 0 → log_holds [] (snd (log_resume s)).
Proof.
  intros Hnz Hn Hw. pose proof (log_scan text s Hnz ltac:(lia) Hw) as Hspin.
  rewrite (proj2 (Z.ltb_ge _ _)) in Hspin by lia.
  unfold log_resume, mbind, M_bind. unfold mbind, M_bind in Hspin. rewrite Hspin.
  cbn [updL modify]. unfold when. rewrite Z.eqb_refl. apply log_init_holds.
Qed.

Lemma log_resume_holds text (s : St) :
  Forall (λ c, c ≠ 0) text → zlen text < LOG_SIZE →
  window s = text ++ replicate (Z.to_nat LOG_SIZE - length text) 0 →
  log_holds text (snd (log_resume s)).
Proof.
  intros Hnz Hn Hw. pose proof (zlen_nonneg text) as H0. pose proof (log_scan text s Hnz ltac:(lia) Hw) as Hspin.
  rewrite (proj2 (Z.ltb_lt _ _)) in Hspin by lia. unfold log_resume.
  unfold mbind, M_bind, mbind, M_bind. unfold mbind, M_bind in Hspin. rewrite Hspin.
  cbn [updL modify]. unfold when. rewrite (proj2 (Z.eqb_neq _ _)) by lia.
  unfold skip, log_holds. cbn [snd b_log b_mach]. split_and!; [done|lia|done].
Qed.

Lemma log_detach_ram l (s : St) : ram (b_mach (snd ((log_detach;; log_puts l) s))) = ram (b_mach s).
Proof.
  unfold log_detach, updL, modify, mbind, M_bind. set (s3 := Boot _ _ _ _).
  destruct (log_puts_text l s3) as (-> & _); [by left|].
  assert (room s3 = 0) as -> by (unfold room, s3; cbn; lia). done.
Qed.

Lemma log_first_stage t1 (s : St) :
  Forall byte_ok t1 → log_holds (take (Z.to_nat LOG_SIZE) t1) (snd ((log_init;; log_puts t1) s)).
Proof.
  intros Hb. unfold mbind, M_bind. pose proof (log_init_holds s) as Hi. destruct (log_init s) as [[] s0].
  exact (log_holds_first t1 s0 Hb Hi).
Qed.

(** The text in the window after a stage has resumed the log. *)
Definition resumed (text : list Z) : list Z := if zlen text <? LOG_SIZE then text else [].

Lemma log_resumed t1 s : Forall (λ c, c ≠ 0) t1 →
  window s = take (Z.to_nat LOG_SIZE) t1 ++ replicate (Z.to_nat LOG_SIZE - length (take (Z.to_nat LOG_SIZE) t1)) 0 →
  log_holds (resumed t1) (snd (log_resume s)).
Proof.
  intros Hz Hw. unfold resumed. destruct (zlen t1 <? LOG_SIZE) eqn:E.
  - apply Z.ltb_lt in E. rewrite take_short in Hw by lia. exact (log_resume_holds t1 s Hz E Hw).
  - apply Z.ltb_ge in E. apply (log_resume_full (take (Z.to_nat LOG_SIZE) t1) s); [by apply Forall_take| |exact Hw].
    assert (0 <= LOG_SIZE) by done. unfold zlen in *. rewrite length_take. lia.
Qed.

Lemma log_second_stage text t2 (s : St) :
  Forall byte_ok t2 → log_holds text (snd (log_resume s)) →
  log_holds (text ++ take (Z.to_nat (LOG_SIZE - zlen text)) t2) (snd ((log_resume;; log_puts t2) s)).
Proof.
  intros Hb Hr. unfold mbind, M_bind. destruct (log_resume s) as [[] s3]. exact (log_holds_puts text t2 s3 Hb Hr).
Qed.

(** The log survives from stage to stage.  A stage that clears the window and
    logs [t1], and a later stage that starts with statics of its own, resumes
    the log and logs [t2], leave both texts one after the other in the window,
    as far as they fit, and zeros behind them; a window that is full starts
    again with [t2] alone; after [log_detach] the memory is not written. *)
Theorem log_survives t1 t2 t3 l t n (s : St) :
  Forall byte_ok t1 → Forall (λ c, c ≠ 0) t1 → Forall byte_ok t2 →
  let s1 := snd ((log_init;; log_puts t1) s) in
  let s2 := snd ((log_resume;; log_puts t2) (next_stage l t n s1)) in
  let kept := resumed t1 in
  log_holds (kept ++ take (Z.to_nat (LOG_SIZE - zlen kept)) t2) s2 ∧
  ram (b_mach (snd ((log_detach;; log_puts t3) s2))) = ram (b_mach s2).
Proof.
  intros Hb1 Hz1 Hb2 s1 s2 kept. pose proof (log_first_stage t1 s Hb1) as H1. fold s1 in H1. clearbody s1.
  split; [|apply log_detach_ram].
  apply (log_second_stage kept t2 (next_stage l t n s1) Hb2), (log_resumed t1 (next_stage l t n s1) Hz1).
  apply H1.
Qed.
End Log.

Section example.
#[local] Existing Instance null_device.
(** The two stages of cfw. *)
#[local] Existing Instance cfw_log.

Theorem log_survives_witness :
  let t1 := bytes_of "one" in let t2 := bytes_of "two" in
  let s1 := snd ((log_init;; log_puts t1) example_boot) in
  let s2 := snd ((log_resume;; log_puts t2) (next_stage (LogSt 0 0) (TimerSt 0 0) (NandSt 0 0 0) s1)) in
  let kept := resumed t1 in
  log_holds (kept ++ take (Z.to_nat (LOG_SIZE - zlen kept)) t2) s2 ∧
  ram (b_mach (snd ((log_detach;; log_puts [33]) s2))) = ram (b_mach s2).
Proof.
  refine (log_survives (bytes_of "one") (bytes_of "two") [33] (LogSt 0 0) (TimerSt 0 0) (NandSt 0 0 0) example_boot _ _ _);
    [apply bytes_of_ok|repeat constructor; done|apply bytes_of_ok].
Defined.
End example.
