(* ===== verification/Timer.v ===== *)
(** * Timer: milliseconds from a 26-bit counter ([src/baremetal/lib/timer.c])

    The hardware timer counts down at 12 MHz and wraps after 2^26 ticks; the
    statics accumulate the ticks in 64 bits.  The delay loop has no bound in
    the code, so it runs with fuel here. *)
From S2P Require Import Prelude Machine Soc.

Definition TIMER2_CTRL : Z := 0x0800001C.
Definition TIMER2_LIVE : Z := 0x08000104.
Definition TIMER_COUNT_MASK : Z := 0x03FFFFFF.
Definition TIMER_ENABLE : Z := 0x04000000.
Definition TICKS_PER_MS : Z := 12000.

Section Timer.
Context {D : Type} `{!Device D}.
Abbreviation St := (boot D).

Definition read_live : M St Z := v ← rd32 TIMER2_LIVE; mret (v .& TIMER_COUNT_MASK).

Definition timer_init : M St unit :=
  wr32 TIMER2_CTRL TIMER_COUNT_MASK;;
  wr32 TIMER2_CTRL (TIMER_COUNT_MASK .| TIMER_ENABLE);;
  raw ← read_live;
  updM (λ _, TimerSt raw 0).

Definition timer_stop : M St unit := wr32 TIMER2_CTRL 0.

Definition timer_ms : M St Z :=
  raw ← read_live;
  updM (λ t, TimerSt (s_last_raw t) (u64 (s_total_ticks t + (u32 (s_last_raw t - raw) .& TIMER_COUNT_MASK))));;
  updM (λ t, TimerSt raw (s_total_ticks t));;
  getM (λ t, u32 (s_total_ticks t / TICKS_PER_MS)).

(** [None] if the fuel ends before the loop. *)
Fixpoint delay_loop (fuel : nat) (start ms : Z) : M St (option unit) :=
  match fuel with
  | O => mret None
  | S fuel' => now ← timer_ms; if u32 (now - start) <? ms then delay_loop fuel' start ms else mret (Some tt)
  end.
Definition timer_delay_ms (fuel : nat) (ms : Z) : M St (option unit) := start ← timer_ms; delay_loop fuel start ms.

(** ** The time that has passed *)

(** The counter after [t] ticks, and the statics when [timer_init] was at tick
    [t0] and the last reading at tick [t]. *)
Definition counter (t : Z) : Z := (- t) mod 67108864.
Definition timer_at (t0 t : Z) (s : St) : Prop := b_timer s = TimerSt (counter t) (t - t0).

Lemma land_mask v : v .& TIMER_COUNT_MASK = v mod 67108864.
Proof. apply (land_low v 26); done. Qed.

Lemma counter_diff t t' : t <= t' < t + 67108864 → u32 (counter t - counter t') .& TIMER_COUNT_MASK = t' - t.
Proof.
  intros Ht. rewrite land_mask. unfold u32, counter. change 4294967296 with (64 * 67108864).
  rewrite (Z.mul_comm 64), Z.rem_mul_r, (Z.mul_comm 67108864), Z.mod_add, Z.mod_mod by lia.
  rewrite <-Zminus_mod. rewrite Z.mod_small; lia.
Qed.

(** A reading at tick [t']. *)
Lemma timer_ms_at t0 t t' s v s1 :
  timer_at t0 t s → t <= t' < t + 67108864 → t0 <= t → t' - t0 < 18446744073709551616 →
  rd32 TIMER2_LIVE s = (v, s1) → b_timer s1 = b_timer s → v .& TIMER_COUNT_MASK = counter t' →
  ∃ s2, timer_ms s = (u32 ((t' - t0) / TICKS_PER_MS), s2) ∧ timer_at t0 t' s2 ∧ b_mach s2 = b_mach s1.
Proof.
  intros Hat Ht Ht0 Hmax Hrd Hb Hv. unfold timer_ms, read_live, updM, getM, gets, modify, mbind, M_bind, mret, M_ret.
  rewrite Hrd. cbn [b_timer b_mach s_total_ticks s_last_raw]. rewrite Hb, Hat, Hv. cbn [s_total_ticks s_last_raw].
  rewrite counter_diff by done. replace (t - t0 + (t' - t)) with (t' - t0) by lia.
  assert (u64 (t' - t0) = t' - t0) as -> by (unfold u64; apply Z.mod_small; lia).
  eexists. split_and!; [done|done|done].
Qed.

(** The milliseconds are right across wraps of the counter.  If the counter is
    read at least once in 2^26 ticks, [timer_ms] answers the ticks since
    [timer_init] divided by 12000, modulo 2^32, however often the 26-bit
    counter has wrapped. *)
Theorem timer_ms_elapsed t0 t t' s :
  timer_at t0 t s → t0 <= t → t <= t' < t + 67108864 → t' - t0 < 18446744073709551616 →
  fst (rd32 TIMER2_LIVE s) .& TIMER_COUNT_MASK = counter t' →
  let '(ms, s') := timer_ms s in
  ms = u32 ((t' - t0) / TICKS_PER_MS) ∧ timer_at t0 t' s'.
Proof.
  intros Hat Ht0 Ht Hmax Hv. destruct (rd32 TIMER2_LIVE s) as [v s1] eqn:Hrd.
  assert (b_timer s1 = b_timer s) as Hb.
  { unfold rd in Hrd. destruct (bus_read _ _ _). by injection Hrd as _ <-. }
  destruct (timer_ms_at t0 t t' s v s1 Hat Ht Ht0 Hmax Hrd Hb Hv) as (s2 & -> & Hat2 & _). by split.
Qed.
End Timer.

(** ** A clock that runs *)

(** A device whose timer shows the time; each reading takes at least one tick
    and less than one wrap. *)
Class Clock (D : Type) `{!Device D} := {
  now : D → Z;
  clock_law d v d' :
    dev_read W32 TIMER2_LIVE d = (v, d') → v .& TIMER_COUNT_MASK = counter (now d') ∧ now d < now d' < now d + 67108864;
}.

Section delay.
Context {D : Type} `{!Device D, !Clock D}.
Abbreviation St := (boot D).

(** The timer was started at tick [t0] and read last at the present time. *)
Definition in_time (t0 : Z) (s : St) : Prop := timer_at t0 (now (dev (b_mach s))) s ∧ t0 <= now (dev (b_mach s)).
Definition ticks (t0 : Z) (s : St) : Z := now (dev (b_mach s)) - t0.

Lemma timer_ms_clock t0 s :
  in_time t0 s → ticks t0 s + 67108864 < 18446744073709551616 →
  ∃ s', timer_ms s = (u32 (ticks t0 s' / TICKS_PER_MS), s') ∧ in_time t0 s' ∧ ticks t0 s < ticks t0 s' < ticks t0 s + 67108864.
Proof.
  intros [Hat Ht0] Hmax. unfold ticks in *. destruct (rd32 TIMER2_LIVE s) as [v s1] eqn:Hrd.
  pose proof Hrd as Hrd'. unfold rd, bus_read in Hrd'. cbn [machine_of set_machine boot_machine] in Hrd'.
  change (in_ddr TIMER2_LIVE) with false in Hrd'. cbv iota in Hrd'.
  destruct (dev_read W32 TIMER2_LIVE (dev (b_mach s))) as [w d'] eqn:Hd. injection Hrd' as Hv Hs1.
  destruct (clock_law _ _ _ Hd) as [Hw Hnow].
  destruct (timer_ms_at t0 (now (dev (b_mach s))) (now d') s v s1) as (s2 & Hms & Hat2 & Hm2);
    [done|lia|done|lia|done|by rewrite <-Hs1| |].
  { rewrite <-Hv. cbn [wtrunc]. rewrite <-Hw, !land_mask. unfold u32. change 4294967296 with (67108864 * 64).
    rewrite Z.rem_mul_r, (Z.mul_comm 67108864), Z.mod_add, Z.mod_mod by lia. done. }
  assert (now (dev (b_mach s2)) = now d') as Hn by (rewrite Hm2, <-Hs1; done).
  exists s2. rewrite Hms. unfold in_time. rewrite Hn. split_and!; [done|done|lia|lia|lia].
Qed.

Lemma ms_between a b : 0 <= a <= b → b < a + 67108864 → a / 12000 <= b / 12000 <= a / 12000 + 5593.
Proof. intros. zlia. Qed.

Lemma delay_loop_ends fuel t0 s a ms :
  in_time t0 s → 0 <= a <= ticks t0 s → 0 <= ms <= 4294960000 →
  ticks t0 s / 12000 - a / 12000 < ms ∨ ticks t0 s = a →
  a + 12000 * (ms + 5594) + 134217728 < 18446744073709551616 →
  12000 * (ms + 1) + a - ticks t0 s < Z.of_nat fuel →
  ∃ s', delay_loop fuel (u32 (a / TICKS_PER_MS)) ms s = (Some tt, s') ∧ in_time t0 s' ∧
        ms <= ticks t0 s' / 12000 - a / 12000.
Proof.
  revert s. induction fuel as [|fuel IH]; intros s Hin Ha Hms Hbef Hmax Hf; [exfalso; zlia|].
  assert (ticks t0 s + 67108864 < 18446744073709551616) as Hs by zlia.
  destruct (timer_ms_clock t0 s Hin Hs) as (s1 & H1 & Hin1 & Ht1).
  pose proof (ms_between (ticks t0 s) (ticks t0 s1) ltac:(lia) ltac:(lia)) as Hstep. unfold TICKS_PER_MS in *.
  assert (a / 12000 <= ticks t0 s1 / 12000) as Hle by (apply Z.div_le_mono; lia).
  assert (a / 12000 <= ticks t0 s / 12000) as Hle0 by (apply Z.div_le_mono; lia).
  assert (u32 (u32 (ticks t0 s1 / 12000) - u32 (a / 12000)) = ticks t0 s1 / 12000 - a / 12000) as Hdiff.
  { unfold u32. rewrite <-Zminus_mod. apply Z.mod_small. destruct Hbef as [Hbef|Hbef]; [lia|rewrite Hbef in Hstep; lia]. }
  cbn [delay_loop]. unfold mbind, M_bind. rewrite H1, Hdiff.
  destruct (ticks t0 s1 / 12000 - a / 12000 <? ms) eqn:E.
  - apply Z.ltb_lt in E. apply IH; [done|lia|lia|by left|lia|lia].
  - apply Z.ltb_ge in E. by exists s1.
Qed.

(** A delay ends and is long enough.  On a clock that runs, [timer_delay_ms]
    leaves its loop after at most one iteration per tick, when more than
    [ms - 1] milliseconds have passed since its first reading, for delays below
    the wrap of the millisecond count. *)
Theorem timer_delay_ends t0 s ms fuel :
  in_time t0 s → 0 <= ms <= 4294960000 → ticks t0 s < 18446673704965373952 → 12000 * (ms + 1) < Z.of_nat fuel →
  ∃ a s', timer_delay_ms fuel ms s = (Some tt, s') ∧ in_time t0 s' ∧
          ticks t0 s < a < ticks t0 s + 67108864 ∧ 12000 * (ms - 1) < ticks t0 s' - a.
Proof.
  intros Hin Hms Hmax Hf. assert (0 <= ticks t0 s) by (destruct Hin; unfold ticks; lia).
  destruct (timer_ms_clock t0 s Hin ltac:(lia)) as (s1 & H1 & Hin1 & Ht1).
  unfold timer_delay_ms, mbind, M_bind. rewrite H1.
  destruct (delay_loop_ends fuel t0 s1 (ticks t0 s1) ms) as (s2 & H2 & Hin2 & Ht2); [done|lia|done|lia|lia|lia|].
  exists (ticks t0 s1), s2. split_and!; [done|done|lia|lia|]. zlia.
Qed.
End delay.

(** A clock that advances a millisecond at each reading. *)
Record ticker := Ticker { t_now : Z }.
#[export] Instance ticker_device : Device ticker := {|
  dev_read w a d := if a =? TIMER2_LIVE then (counter (t_now d + 12000), Ticker (t_now d + 12000)) else (0, d);
  dev_write w a v d := d;
|}.
#[export, refine] Instance ticker_clock : Clock ticker := {| now := t_now |}.
Proof.
  intros d v d' [= <- <-]. cbn [t_now]. split; [|lia].
  rewrite land_mask. unfold counter. apply Z.mod_mod. lia.
Defined.

Definition ticker_boot : boot ticker := Boot (Machine ∅ (Ticker 5)) (LogSt 0 0) (TimerSt (counter 5) 5) (NandSt 0 0 0).

Theorem timer_ms_elapsed_witness :
  let '(ms, s') := timer_ms ticker_boot in
  ms = u32 ((12005 - 0) / TICKS_PER_MS) ∧ timer_at 0 12005 s'.
Proof. refine (timer_ms_elapsed 0 5 12005 ticker_boot _ _ _ _ _); [done|lia|lia|lia|by vm_compute]. Defined.

Theorem timer_delay_ends_witness :
  ∃ a s', timer_delay_ms (Z.to_nat 100000) 3 ticker_boot = (Some tt, s') ∧ in_time 0 s' ∧
          ticks 0 ticker_boot < a < ticks 0 ticker_boot + 67108864 ∧ 12000 * (3 - 1) < ticks 0 s' - a.
Proof.
  refine (timer_delay_ends 0 ticker_boot 3 (Z.to_nat 100000) _ _ _ _); [split; done|lia|done|].
  rewrite Z2Nat.id; lia.
Defined.
