(* ===== verification/Partial.v ===== *)
(** * Partial: computations that may run out of fuel

    [timer_delay_ms] has no bound in the code and runs with fuel in the model.  A
    function that delays is a computation of [MO]: [None] when a delay has not
    ended within its fuel, so that a result is a result of the code and nothing
    happens after a delay that does not end.  Every total computation of [Machine] is
    one of them ([lift]). *)
From S2P Require Import Prelude Machine Soc Timer.

Definition MO (S A : Type) : Type := S → option (A * S).
#[export] Instance MO_ret S : MRet (MO S) := λ A a s, Some (a, s).
#[export] Instance MO_bind S : MBind (MO S) := λ A B k m s,
  match m s with Some (a, s') => k a s' | None => None end.

Definition lift {S A} (m : M S A) : MO S A := λ s, Some (m s).
Definition pwhen {S} (c : bool) (m : MO S unit) : MO S unit := if c then m else lift skip.

Lemma lift_bind {S A B} (m : M S A) (k : A → MO S B) s : (lift m ≫= k) s = let '(a, s') := m s in k a s'.
Proof. unfold mbind, MO_bind, lift. by destruct (m s). Qed.

(** A delay on a part of the state. *)
Definition delay {D} `{!Device D} (fuel : nat) (ms : Z) : MO (boot D) unit := λ b,
  match timer_delay_ms fuel ms b with (Some _, b') => Some (tt, b') | (None, _) => None end.

(** ** Relations between the initial and the final state *)

(** Every run of [m] that returns relates its states by [R]. *)
Definition psteps {S A} (R : S → S → Prop) (m : MO S A) : Prop := ∀ s a s', m s = Some (a, s') → R s s'.

Section psteps.
Context {S : Type} (R : S → S → Prop) `{!PreOrder R}.

Lemma psteps_ret {A} (a : A) : psteps R (mret a).
Proof. intros s a' s' [= _ <-]. reflexivity. Qed.
Lemma psteps_lift {A} (m : M S A) : steps R m → psteps R (lift m).
Proof. intros Hm s a s'. unfold lift. intros [= H]. specialize (Hm s). by rewrite H in Hm. Qed.
Lemma psteps_bind {A B} (m : MO S A) (k : A → MO S B) :
  psteps R m → (∀ a, psteps R (k a)) → psteps R (m ≫= k).
Proof.
  intros Hm Hk s b s'. unfold mbind, MO_bind. destruct (m s) as [[a s1]|] eqn:E; [|done]. intros H.
  etransitivity; [by eapply Hm|by eapply Hk].
Qed.
Lemma psteps_when c m : psteps R m → psteps R (pwhen c m).
Proof. destruct c; [done|]. intros _. apply psteps_lift, (steps_skip R). Qed.
End psteps.

(** Walk through a partial program; [tac] for the leaves, total parts included. *)
Ltac psteps_walk tac :=
  repeat (intros; cbv zeta beta;
    lazymatch goal with
    | |- PreOrder _ => apply _
    | |- psteps _ (mbind _ _) => apply psteps_bind
    | |- psteps _ (mret _) => apply psteps_ret
    | |- psteps _ (pwhen _ _) => apply psteps_when
    | |- psteps _ (if ?c then _ else _) => destruct c
    | |- psteps _ (match ?x with _ => _ end) => destruct x
    | |- psteps _ (lift _) => apply psteps_lift
    | |- psteps _ _ => solve [tac]
    | |- steps _ _ => solve [tac]
    end).

(** A delay reads the timer and changes its statics. *)
Definition clock_only {D} (s s' : boot D) : Prop :=
  ram (b_mach s') = ram (b_mach s) ∧ b_log s' = b_log s ∧ b_nand s' = b_nand s.
#[export] Instance clock_only_preorder {D} : PreOrder (@clock_only D).
Proof. split; [done|]. intros ? ? ? (? & ? & ?) (? & ? & ?). split_and!; congruence. Qed.

Section delays.
Context {D : Type} `{!Device D} (R : boot D → boot D → Prop) `{!PreOrder R}.
Hypothesis R_rd : steps R (rd32 TIMER2_LIVE).
Hypothesis R_upd : ∀ f, steps R (updM f).

Lemma steps_timer_ms : steps R timer_ms.
Proof.
  unfold timer_ms, read_live. apply (steps_bind R).
  { apply (steps_bind R); [apply R_rd|intros ?; apply (steps_ret R)]. }
  intros raw. apply (steps_bind R); [apply R_upd|intros _]. apply (steps_bind R); [apply R_upd|intros _].
  apply (steps_gets R).
Qed.
Lemma steps_delay_loop fuel start ms : steps R (delay_loop fuel start ms).
Proof.
  induction fuel as [|fuel IH]; cbn [delay_loop]; [apply (steps_ret R)|].
  apply (steps_bind R); [apply steps_timer_ms|intros now]. destruct (_ <? _); [done|apply (steps_ret R)].
Qed.
Lemma psteps_delay fuel ms : psteps R (delay fuel ms).
Proof.
  intros s a s'. unfold delay. assert (steps R (timer_delay_ms fuel ms)) as H.
  { unfold timer_delay_ms. apply (steps_bind R); [apply steps_timer_ms|intros ?; apply steps_delay_loop]. }
  specialize (H s). destruct (timer_delay_ms fuel ms s) as [[[]|] s1]; [|done]. by intros [= _ <-].
Qed.
End delays.

Section clock.
Context {D : Type} `{!Device D}.
Lemma clock_rd w a : in_ddr a = false → steps (@clock_only D) (rd w a).
Proof. intros Ha. by apply steps_rd_dev. Qed.
Lemma clock_upd f : steps (@clock_only D) (updM f).
Proof. by intros s. Qed.
Lemma clock_timer_ms : steps (@clock_only D) timer_ms.
Proof. apply (steps_timer_ms clock_only); [by apply clock_rd|exact clock_upd]. Qed.
Lemma clock_delay fuel ms : psteps (@clock_only D) (delay fuel ms).
Proof. apply (psteps_delay clock_only); [by apply clock_rd|exact clock_upd]. Qed.
End clock.
