(* ===== verification/Clock.v ===== *)
(** * Clock: what runs while the timer stands still

    On a device whose time passes only when the timer is read, every other register
    access leaves the time as it is, and a delay with enough fuel returns after a
    bounded number of ticks.  Shared by the components that wait. *)
From S2P Require Import Prelude Machine Soc Log Timer Partial.

(** Other accesses take no time. *)
Class StillClock (D : Type) `{!Device D, !Clock D} := {
  still_read w a d v d' : dev_read w a d = (v, d') → a ≠ TIMER2_LIVE → now d' = now d;
  still_write w a v d : now (dev_write w a v d) = now d
}.

Section Clock.
Context {D : Type} `{!Device D, !Clock D}.

(** How long a delay can take. *)
Lemma delay_loop_ticks t0 n start ms b :
  in_time t0 b → ticks t0 b + Z.of_nat n * 67108864 < 18446744073709551616 →
  in_time t0 (snd (delay_loop n start ms b)) ∧
  ticks t0 b <= ticks t0 (snd (delay_loop n start ms b)) <= ticks t0 b + Z.of_nat n * 67108864.
Proof.
  revert b. induction n as [|n IH]; intros b Hb Hmax; cbn [delay_loop]; [cbn; split; [done|lia]|].
  destruct (timer_ms_clock t0 b Hb ltac:(lia)) as (b1 & Hms & Hb1 & Ht). unfold mbind, M_bind. rewrite Hms.
  destruct (_ <? ms); [|cbn; split; [done|lia]]. destruct (IH b1 Hb1) as [H1 H2]; [lia|]. split; [done|lia].
Qed.
Lemma delay_returns fuel t0 ms b :
  in_time t0 b → 0 <= ms <= 4294960000 → 12000 * (ms + 1) < Z.of_nat fuel →
  ticks t0 b + (Z.of_nat fuel + 2) * 67108864 < 18446673704965373952 →
  ∃ b', delay fuel ms b = Some (tt, b') ∧ in_time t0 b' ∧ ticks t0 b <= ticks t0 b' <= ticks t0 b + (Z.of_nat fuel + 1) * 67108864.
Proof.
  intros Hb Hms Hf Hmax. destruct (timer_delay_ends t0 b ms fuel Hb Hms ltac:(lia) Hf) as (a & b' & Hd & _ & _ & _).
  exists b'. unfold delay. rewrite Hd. split; [done|]. unfold timer_delay_ms in Hd.
  destruct (timer_ms_clock t0 b Hb ltac:(lia)) as (b1 & H1 & Hb1 & Ht). unfold mbind, M_bind in Hd. rewrite H1 in Hd.
  destruct (delay_loop_ticks t0 fuel (u32 (ticks t0 b1 / TICKS_PER_MS)) ms b1 Hb1 ltac:(lia)) as [H2 H3]. rewrite Hd in H2, H3. cbn [snd] in *.
  split; [done|lia].
Qed.

Context `{!StillClock D}.

(** The timer is as it was. *)
Definition timeless (b b' : boot D) : Prop := b_timer b' = b_timer b ∧ now (dev (b_mach b')) = now (dev (b_mach b)).
#[local] Instance timeless_preorder : PreOrder timeless.
Proof. split; [done|]. intros ? ? ? [? ?] [? ?]. split; congruence. Qed.
Lemma timeless_rd w a : a ≠ TIMER2_LIVE → steps timeless (rd w a).
Proof.
  intros Ha b. unfold rd, bus_read. cbn [machine_of boot_machine]. destruct (in_ddr a); [by destruct b|].
  destruct (dev_read w a (dev (b_mach b))) as [v d] eqn:E. split; [done|]. by apply still_read in E.
Qed.
Lemma timeless_wr w a v : steps timeless (wr w a v).
Proof. intros b. unfold wr, bus_write. destruct (in_ddr a); [done|]. split; [done|]. apply still_write. Qed.
Lemma timeless_rmw a f : a ≠ TIMER2_LIVE → steps timeless (rmw W32 a f).
Proof. intros Ha. unfold rmw. apply (steps_bind timeless); [by apply timeless_rd|intros v; apply timeless_wr]. Qed.
Lemma timeless_puts {build : LogBuild} l : steps timeless (log_puts l : M (boot D) unit).
Proof.
  induction l as [|c l IH]; cbn [log_puts]; [apply (steps_skip timeless)|]. apply (steps_bind timeless); [|by intros _].
  unfold log_putc, uart_putc, reg_or, getL, updL.
  steps_walk ltac:(idtac; lazymatch goal with
    | |- steps _ (gets _) => apply (steps_gets timeless)
    | |- steps _ (modify _) => by intros ?
    | |- steps _ (wr _ _ _) => apply timeless_wr
    | |- steps _ (rd _ _) => by apply timeless_rd
    | |- steps _ (rmw _ _ _) => by apply timeless_rmw
    | |- steps _ skip => apply (steps_skip timeless)
    | |- steps _ (mret _) => apply (steps_ret timeless) end).
Qed.
Lemma timeless_in_time t0 b b' : timeless b b' → in_time t0 b → in_time t0 b' ∧ ticks t0 b' = ticks t0 b.
Proof. intros [Ht Hn]. unfold in_time, timer_at, ticks. by rewrite Ht, Hn. Qed.

End Clock.

#[export] Instance ticker_still : StillClock ticker.
Proof.
  split; [|done]. intros w a d v d' He Ha. cbn in He. rewrite (proj2 (Z.eqb_neq a TIMER2_LIVE)) in He by done. by injection He as _ <-.
Defined.

(** A device whose accesses are recorded has the clock of the device. *)
#[export, refine] Instance logged_clock {D} `{!Device D, !Clock D} : Clock (logged D) := {| now d := now (base_dev d) |}.
Proof.
  intros [d l] v d'. cbn [dev_read log_device base_dev]. destruct (dev_read W32 TIMER2_LIVE d) as [v1 d1] eqn:E. intros [= <- <-].
  by apply clock_law in E.
Defined.
#[export] Instance logged_still {D} `{!Device D, !Clock D, !StillClock D} : StillClock (logged D).
Proof.
  split.
  - intros w a [d l] v d'. cbn [dev_read log_device base_dev]. destruct (dev_read w a d) as [v1 d1] eqn:E. intros [= <- <-] Ha.
    by apply still_read in E.
  - intros w a v [d l]. exact (still_write w a v d).
Qed.
