(* ===== verification/Nand.v ===== *)
(** * Nand: the NAND reader ([src/baremetal/lib/nand.c])

    Page reads through the sequencer, the DMA buffer and the BCH engine, the
    probe of the block size and the image loader that skips bad blocks.  All
    hardware is the machine's device.  The addresses of the local [word] of
    [block_is_bad] and of the static page of the probe are variables. *)
From S2P Require Import Prelude Machine Soc Log Ecc.

Definition NAND_ESEQ_CMD : Z := -1.
Definition NAND_ESEQ_DATA : Z := -2.
Definition NAND_EL2_FILL : Z := -3.
Definition NAND_EDMA_DONE : Z := -4.
Definition NAND_EUNCORRECTABLE : Z := -5.
Definition NAND_EBADPOS : Z := -6.
Definition NAND_ENOGEOM : Z := -7.
Definition NAND_EPROBE : Z := -8.
Definition NAND_ELEN : Z := -9.
Definition NAND_EBADRUN : Z := -10.

Definition NF_FIFO_HEAD : Z := 0x2002A100.
Definition NF_FIFO_NEXT : Z := 0x2002A104.
Definition NF_CTRL_STA : Z := 0x2002A158.
Definition NF_TIMING_A : Z := 0x2002A15C.
Definition NF_TIMING_B : Z := 0x2002A160.
Definition NF_SEQ_LAUNCH : Z := 0x40008400.
Definition ECC_CTRL : Z := 0x2002B000.
Definition ECC_ERRPOS (i : Z) : Z := 0x2002B004 + 4 * i.
Definition ECC_ERRPOS_COUNT : Z := 4.
Definition L2CTR_STAT_REG1 : Z := 0x2002C0A0.
Definition L2_NF_BUFFER : Z := 0x48000A00.
Definition ECC_DMA_DECODE : Z := 0x0C11049A.
Definition NF_XFER_528 : Z := 0x00107919.
Definition ECC_STATUS_NO_ERR : Z := 0x04000000.
Definition ECC_STATUS_NO_OK : Z := 0x08000000.
Definition ECC_STATUS_END : Z := 0x00000040.
Definition ECC_STATUS_DEC_RDY : Z := 0x01000000.
Definition NF_WAIT_LIMIT : Z := 20000000.
Definition PAGE_READ_TRIES : nat := 4.
Definition MAX_BAD_SKIP : Z := 16.
Definition PAGE_SIZE : Z := 2048.
Definition CHUNKS : nat := 4.
Definition ROW_CYCLES : Z := 3.
Definition COL_CYCLES : Z := 2.
Definition IPL_START_BLOCK : Z := 2.
Definition ipl_magic : list Z := bytes_of "IMG" ++ [0] ++ bytes_of "IPL" ++ [0].

(** ** The loader's loops

    The loops of [nand_load_image] over the reads of a page, the test of a
    block and the messages; [nand_load_image] below is the instance with the
    real ones. *)
Section Loader.
Context {S : Type}.
Variable is_bad : Z → M S Z.
Variable read_page : Z → Z → M S Z.
Variable say : list Z → M S unit.
Variable ppb : Z.

(** The pages of one block from number [p] on: the error if a read fails, and
    the next address and what remains. *)
Fixpoint load_pages (n : nat) (page p out remaining : Z) : M S (Z * Z * Z) :=
  match n with
  | O => mret (0, out, remaining)
  | Datatypes.S n' =>
      if nonzero remaining then
        rc ← read_page (u32 (page + p)) out;
        if nonzero rc then
          say (bytes_of "nand: read failed at page " ++ dec_digits (u32 (page + p)) ++ rc_text rc);;
          mret (rc, out, remaining)
        else load_pages n' page (p + 1) (out + PAGE_SIZE) (u32 (remaining - PAGE_SIZE))
      else mret (0, out, remaining)
  end.

(** Every iteration skips a block or loads a page. *)
Fixpoint load_blocks (fuel : nat) (block out remaining skipped : Z) : M S Z :=
  match fuel with
  | O => mret NAND_EBADRUN
  | Datatypes.S fuel' =>
      if nonzero remaining then
        bad ← is_bad block;
        if nonzero bad then
          if MAX_BAD_SKIP <? skipped + 1 then mret NAND_EBADRUN
          else
            say (bytes_of "nand: skipping bad block " ++ dec_digits block ++ [10]);;
            load_blocks fuel' (u32 (block + 1)) out remaining (skipped + 1)
        else
          r ← load_pages (Z.to_nat ppb) (u32 (block * ppb)) 0 out remaining;
          let '(rc, out, remaining) := r in
          if nonzero rc then mret rc else load_blocks fuel' (u32 (block + 1)) out remaining skipped
      else mret 0
  end.

Definition load_image (dst start_block bytes : Z) : M S Z :=
  if ppb =? 0 then mret NAND_ENOGEOM
  else if (bytes =? 0) || nonzero (bytes .& (PAGE_SIZE - 1)) then mret NAND_ELEN
  else load_blocks (Z.to_nat (bytes / PAGE_SIZE + MAX_BAD_SKIP + 1)) start_block dst bytes 0.
End Loader.

(** The local variables that functions pass on by address: the word of [block_is_bad],
    the tag of [read_page_once] and the page of [nand_probe_geometry]. *)
Class NandLocals := { word_addr : Z; tag_addr : Z; probe_page : Z }.

Section Nand.
Context {D : Type} `{!Device D} {build : LogBuild} {locals : NandLocals}.
Abbreviation St := (boot D).

Definition nand_corrections : M St Z := getN corrections.
Definition nand_retries : M St Z := getN retries.
Definition set_pages_per_block (v : Z) : M St unit := updN (λ n, NandSt v (corrections n) (retries n)).

Definition nand_init : M St unit :=
  wr32 NF_TIMING_A 0x000F5AD1;;
  wr32 NF_TIMING_B 0x000F5C5C;;
  wr32 ECC_CTRL 0x00010000;;
  set_pages_per_block 0.

Definition nf_seq_start : M St unit := rmw W32 NF_CTRL_STA (λ v, (v .& 0x7FFFF3FF) .| NF_SEQ_LAUNCH).

(** 0, or -1 when the limit is reached. *)
Definition nf_seq_wait : M St Z :=
  r ← spin NF_WAIT_LIMIT (v ← rd32 NF_CTRL_STA; mret (if i32 v <? 0 then Some 0 else None));
  mret (default (-1) r).

Definition nf_emit_addr (fifo row col : Z) : M St Z :=
  for_to COL_CYCLES (λ i, wr32 (fifo + 4 * i) ((((col .>> (8 * i)) .& 0xFF) .<< 11) .| 0x62));;
  for_to ROW_CYCLES (λ i, wr32 (fifo + 4 * (COL_CYCLES + i)) ((((row .>> (8 * i)) .& 0xFF) .<< 11) .| 0x62));;
  mret (fifo + 4 * (COL_CYCLES + ROW_CYCLES)).

Definition l2_bind_nf_dma : M St unit :=
  reg_or L2CTR_DMA_PATH_CFG 0x30000000;;
  reg_or L2CTR_BUF0_7_CFG 0x00200000;;
  rmw W32 L2CTR_ASSIGN_REG1 (λ v, (v .& 0xFFFFF1FF) .| 0xA00);;
  reg_or L2CTR_BUF0_7_CFG 0x20000000.

Definition l2_drain (dst n : Z) : M St Z :=
  r ← spin (NF_WAIT_LIMIT + 1)
        (v ← rd32 L2CTR_STAT_REG1; mret (if ((v .>> 20) .& 0xF) <? n .>> 6 then None else Some tt));
  match r with
  | None => mret NAND_EL2_FILL
  | Some _ => for_to (n / 4) (λ i, v ← rd32 (L2_NF_BUFFER + 4 * i); wr32 (dst + 4 * i) v);; mret 0
  end.

Definition nand_read_raw (page col dst len : Z) : M St Z :=
  wr32 NF_CTRL_STA 0;;
  wr32 NF_FIFO_HEAD 0x64;;
  fifo ← nf_emit_addr NF_FIFO_NEXT page col;
  wr32 fifo 0x18464;;
  wr32 (fifo + 4) 0x201;;
  nf_seq_start;;
  l2_bind_nf_dma;;
  rc ← nf_seq_wait;
  if nonzero rc then mret NAND_ESEQ_CMD
  else
    wr32 ECC_CTRL (u32 (len .<< 7) .| 0x100018);;
    wr32 NF_CTRL_STA 0;;
    wr32 NF_FIFO_HEAD (u32 (u32 (len - 1) .<< 11) .| 0x119);;
    nf_seq_start;;
    rc ← nf_seq_wait;
    if nonzero rc then mret NAND_ESEQ_DATA
    else
      rc ← l2_drain dst len;
      if nonzero rc then mret rc
      else
        r ← spin NF_WAIT_LIMIT
              (v ← rd32 ECC_CTRL;
               if nonzero (v .& ECC_STATUS_END) then reg_or ECC_CTRL ECC_STATUS_END;; mret (Some tt) else mret None);
        mret (match r with Some _ => 0 | None => NAND_EDMA_DONE end).

Inductive ecc_class := ECC_CLEAN | ECC_CORRECTABLE | ECC_UNCORRECTABLE.

Definition ecc_classify (status : Z) : M St ecc_class :=
  if nonzero (status .& ECC_STATUS_NO_ERR) then wr32 ECC_CTRL (status .| ECC_STATUS_NO_ERR);; mret ECC_CLEAN
  else if nonzero (status .& ECC_STATUS_NO_OK) then wr32 ECC_CTRL (status .| 3);; mret ECC_UNCORRECTABLE
  else mret ECC_CORRECTABLE.

Fixpoint rd_bytes (n : nat) (a : Z) : M St (list Z) :=
  match n with O => mret [] | S n' => b ← rd8 a; l ← rd_bytes n' (a + 1); mret (b :: l) end.

Fixpoint blank_loop (n : nat) (a : Z) : M St bool :=
  match n with
  | O => mret true
  | S n' => v ← rd32 a; if v =? 0xFFFFFFFF then blank_loop n' (a + 4) else mret false
  end.
Definition chunk_is_blank (data : Z) : M St bool := blank_loop 128 data.

Definition ecc_done : Z := ECC_STATUS_END .| ECC_STATUS_DEC_RDY.

(** One chunk of [read_page_once], 0 to go on. *)
Definition read_chunk (chunk : Z) : M St Z :=
  l2_bind_nf_dma;;
  wr32 ECC_CTRL ECC_DMA_DECODE;;
  wr32 NF_CTRL_STA 0;;
  wr32 NF_FIFO_HEAD NF_XFER_528;;
  nf_seq_start;;
  rc ← l2_drain chunk 0x200;
  if nonzero rc then mret rc
  else
    rc ← nf_seq_wait;
    if nonzero rc then mret NAND_ESEQ_DATA
    else
      r ← spin NF_WAIT_LIMIT (v ← rd32 ECC_CTRL; mret (if (v .& ecc_done) =? ecc_done then Some v else None));
      match r with
      | None => mret NAND_EDMA_DONE
      | Some status =>
          r0 ← rd32 (ECC_ERRPOS 0); r1 ← rd32 (ECC_ERRPOS 1); r2 ← rd32 (ECC_ERRPOS 2); r3 ← rd32 (ECC_ERRPOS 3);
          let regs := [r0; r1; r2; r3] in
          reg_or ECC_CTRL ECC_STATUS_END;;
          c ← ecc_classify status;
          match c with
          | ECC_CLEAN => mret 0
          | ECC_CORRECTABLE =>
              for_range 0 4 (λ i, wr8 (tag_addr + i) 0);;
              rc ← ecc_apply regs chunk tag_addr 4;
              if nonzero rc then mret NAND_EBADPOS
              else
                updN (λ n, NandSt (pages_per_block n)
                  (fold_left (λ acc r, u32 (acc + b2z (nonzero r))) regs (corrections n)) (retries n));;
                mret 0
          | ECC_UNCORRECTABLE => blank ← chunk_is_blank chunk; mret (if (blank : bool) then 0 else NAND_EUNCORRECTABLE)
          end
      end.

Fixpoint read_chunks (n : nat) (c dst : Z) : M St Z :=
  match n with
  | O => mret 0
  | S n' => rc ← read_chunk (dst + (c .<< 9)); if nonzero rc then mret rc else read_chunks n' (c + 1) dst
  end.

Definition read_page_once (page dst : Z) : M St Z :=
  wr32 NF_CTRL_STA 0;;
  wr32 NF_FIFO_HEAD 0x64;;
  fifo ← nf_emit_addr NF_FIFO_NEXT page 0;
  wr32 fifo 0x18064;;
  wr32 (fifo + 4) 0x201;;
  nf_seq_start;;
  rc ← nf_seq_wait;
  if nonzero rc then mret NAND_ESEQ_CMD else read_chunks CHUNKS 0 dst.

(** [try] is the number of the attempt, [rc] the result of the one before. *)
Fixpoint page_tries (n : nat) (try page dst rc : Z) : M St Z :=
  match n with
  | O => mret rc
  | S n' =>
      rc ← read_page_once page dst;
      if rc =? 0 then
        when (nonzero try) (updN (λ n, NandSt (pages_per_block n) (corrections n) (u32 (retries n + 1))));;
        mret 0
      else page_tries n' (try + 1) page dst rc
  end.
Definition nand_read_page (page dst : Z) : M St Z := page_tries PAGE_READ_TRIES 0 page dst 0.

Definition block_is_bad (block : Z) : M St Z :=
  ppb ← getN pages_per_block;
  rc ← nand_read_raw (u32 (block * ppb)) 0x410 word_addr 4;
  if nonzero rc then mret 1
  else word ← rd32 word_addr; mret (b2z (negb (((word .>> 8) .& 0xFF) =? 0xFF))).

(** The first good block of the next [n], or [limit]. *)
Fixpoint first_good (n : nat) (block : Z) : M St Z :=
  match n with
  | O => mret block
  | S n' => bad ← block_is_bad block; if nonzero bad then first_good n' (block + 1) else mret block
  end.

Fixpoint probe_loop (candidates : list Z) : M St Z :=
  match candidates with
  | [] => set_pages_per_block 0;; mret NAND_EPROBE
  | c :: cs =>
      set_pages_per_block c;;
      block ← first_good 16 IPL_START_BLOCK;
      if block =? IPL_START_BLOCK + 16 then probe_loop cs
      else
        rc ← nand_read_page (u32 (block * c)) probe_page;
        if nonzero rc then probe_loop cs
        else
          head ← rd_bytes 8 probe_page;
          if bool_decide (head = ipl_magic) then
            log_puts (bytes_of "nand: pages_per_block ");; log_dec c;;
            log_puts (bytes_of ", IPL at block ");; log_dec block;; log_putc 10;;
            mret 0
          else probe_loop cs
  end.
Definition nand_probe_geometry : M St Z := probe_loop [64; 128; 32; 256].

Definition nand_load_image (dst start_block bytes : Z) : M St Z :=
  ppb ← getN pages_per_block;
  load_image block_is_bad nand_read_page log_puts ppb dst start_block bytes.
End Nand.

(** ** What a load writes *)

Section frame.
Context {D : Type} `{!Device D} {build : LogBuild} {locals : NandLocals}.
Abbreviation St := (boot D).

(** The word and the tag. *)
Definition nand_local (x : Z) : Prop := word_addr <= x < word_addr + 4 ∨ tag_addr <= x < tag_addr + 4.

(** Memory changes in [P] and in the log window only. *)
Definition frame (P : Z → Prop) (s s' : St) : Prop :=
  log_ok s → log_ok s' ∧
  ∀ a, ¬ P a → ¬ (LOG_BASE <= a < LOG_BASE + LOG_SIZE) → mget (ram (b_mach s')) a = mget (ram (b_mach s)) a.

#[local] Instance frame_preorder P : PreOrder (frame P).
Proof.
  split; [by intros s H; split|]. intros s1 s2 s3 H12 H23 Hok. destruct (H12 Hok) as [Hok2 H2].
  destruct (H23 Hok2) as [Hok3 H3]. split; [done|]. intros a Ha Hw. by rewrite H3, H2.
Qed.

Lemma frame_mono (P Q : Z → Prop) {A} (m : M St A) : (∀ a, P a → Q a) → steps (frame P) m → steps (frame Q) m.
Proof.
  intros HPQ Hm s Hok. destruct (Hm s Hok) as [H1 H2]. split; [done|]. intros a Ha. apply H2. auto.
Qed.

Lemma frame_dev P : dev_frame (frame P).
Proof. by intros d s Hok. Qed.
Lemma kept_rd P w a : steps (frame P) (rd w a).
Proof.
  intros s Hok. unfold rd, bus_read. destruct (in_ddr a); [by destruct s|]. by destruct (dev_read w a _).
Qed.
Lemma kept_wr (P : Z → Prop) w a v : (∀ x, a <= x < a + Z.of_nat (nbytes w) → P x) → steps (frame P) (wr w a v).
Proof.
  intros HP s Hok. unfold wr, bus_write. destruct (in_ddr a); [|done]. split; [done|]. intros x Hx _. cbn.
  apply mget_mset_list_out. unfold zlen. rewrite le_split_length.
  destruct (decide (a <= x < a + Z.of_nat (nbytes w))) as [H|H]; [destruct (Hx (HP x H))|lia].
Qed.
Lemma frame_wr_dev P w a v : in_ddr a = false → steps (frame P) (wr w a v).
Proof. intros Ha. apply steps_wr_dev; [done|apply frame_dev]. Qed.
Lemma frame_rmw P a f : in_ddr a = false → steps (frame P) (rmw W32 a f).
Proof. intros Ha. apply (steps_rmw_dev (frame P)); [done|apply frame_dev]. Qed.
Lemma frame_updN P f : steps (frame P) (updN f : M St unit).
Proof. by intros s Hok. Qed.

Lemma frame_log_puts P l : steps (frame P) (log_puts l : M St unit).
Proof.
  intros s Hok. pose proof (log_puts_text l s Hok) as Hl. split; [by eapply logged_ok|].
  intros a _ Hw. destruct Hl as (-> & _). apply mget_mset_list_out.
  unfold log_ok, zlen, room in *. rewrite length_take. lia.
Qed.

Lemma frame_log_putc P c : steps (frame P) (log_putc c : M St unit).
Proof.
  intros s. pose proof (frame_log_puts P [c] s) as H. unfold log_puts, mbind, M_bind, skip in H. by destruct (log_putc c s).
Qed.

Lemma frame_for_lt P lo n (body : Z → M St unit) :
  (∀ i, lo <= i < lo + Z.of_nat n → steps (frame P) (body i)) → steps (frame P) (for_range lo n body).
Proof.
  revert lo. induction n as [|n IH]; intros lo Hb; cbn [for_range]; [apply (steps_skip (frame P))|].
  apply (steps_bind (frame P)); [apply Hb; lia|intros ?]. apply IH. intros i Hi. apply Hb. lia.
Qed.

(** Leaves of a walk: accesses of registers and of memory, and the statics. *)
Ltac frame_leaf :=
  lazymatch goal with
  | |- steps _ (rd _ _) => apply kept_rd
  | |- steps _ (wr _ _ _) => apply frame_wr_dev; done
  | |- steps _ (rmw _ _ _) => apply frame_rmw; done
  | |- steps _ (reg_or _ _) => apply frame_rmw; done
  | |- steps _ (updN _) => apply frame_updN
  | |- steps _ (getN _) => apply steps_gets; apply _
  | |- steps _ (gets _) => apply steps_gets; apply _
  | |- steps _ (log_puts _) => apply frame_log_puts
  | |- steps _ (mret _) => apply steps_ret; apply _
  | |- steps _ skip => apply steps_skip; apply _
  | |- _ => assumption
  end.
Ltac frame_walk := steps_walk ltac:(idtac; frame_leaf).

Lemma frame_seq_start P : steps (frame P) (nf_seq_start : M St unit).
Proof. by apply frame_rmw. Qed.
Lemma frame_seq_wait P : steps (frame P) (nf_seq_wait : M St Z).
Proof. unfold nf_seq_wait. frame_walk. Qed.
Lemma frame_bind_dma P : steps (frame P) (l2_bind_nf_dma : M St unit).
Proof. unfold l2_bind_nf_dma. frame_walk. Qed.

Lemma frame_emit_addr P row col :
  steps (frame P) (nf_emit_addr NF_FIFO_NEXT row col : M St Z) ∧
  ∀ s : St, fst (nf_emit_addr NF_FIFO_NEXT row col s) = NF_FIFO_NEXT + 20.
Proof.
  split.
  - unfold nf_emit_addr.
    assert (∀ n k v, 0 <= k <= 5 → k + n <= 5 → steps (frame P) (for_to n (λ i, wr32 (NF_FIFO_NEXT + 4 * (k + i)) (v i)) : M St unit)) as Hf.
    { intros n k v Hk Hn. apply frame_for_lt. intros i Hi. apply frame_wr_dev, in_ddr_false.
      unfold NF_FIFO_NEXT, DDR_BASE in *. lia. }
    apply (steps_bind (frame P)); [by apply (Hf _ 0)|intros _].
    apply (steps_bind (frame P)); [by apply Hf|intros _]. apply (steps_ret (frame P)).
  - intros s. unfold nf_emit_addr, mbind, M_bind. destruct (for_to COL_CYCLES _ s). by destruct (for_to ROW_CYCLES _ _).
Qed.

Lemma frame_drain P dst n :
  0 <= n → (∀ x, dst <= x < dst + n → P x) → steps (frame P) (l2_drain dst n : M St Z).
Proof.
  intros Hn HP. unfold l2_drain. apply (steps_bind (frame P)); [frame_walk|]. intros [[]|]; [|apply (steps_ret (frame P))].
  apply (steps_bind (frame P)); [|intros ?; apply (steps_ret (frame P))]. apply frame_for_lt. intros i Hi.
  pose proof (Z.div_mod n 4). pose proof (Z.mod_pos_bound n 4). rewrite Z2Nat.id in Hi by (apply Z.div_pos; lia).
  apply (steps_bind (frame P)); [apply kept_rd|intros v]. apply kept_wr. intros x Hx. apply HP. cbn in Hx. lia.
Qed.

Lemma frame_read_raw (P : Z → Prop) page col dst len :
  0 <= len → (∀ x, dst <= x < dst + len → P x) → steps (frame P) (nand_read_raw page col dst len : M St Z).
Proof.
  intros Hl HP. unfold nand_read_raw.
  apply (steps_bind (frame P)); [by apply frame_wr_dev|intros _].
  apply (steps_bind (frame P)); [by apply frame_wr_dev|intros _].
  destruct (frame_emit_addr P page col) as [He1 He2].
  apply (steps_bind_res (frame P) (λ f, f = NF_FIFO_NEXT + 20)); [done|done|]. intros ? ->.
  apply (steps_bind (frame P)); [by apply frame_wr_dev|intros _].
  apply (steps_bind (frame P)); [by apply frame_wr_dev|intros _].
  apply (steps_bind (frame P)); [apply frame_seq_start|intros _].
  apply (steps_bind (frame P)); [apply frame_bind_dma|intros _].
  apply (steps_bind (frame P)); [apply frame_seq_wait|intros rc]. destruct (nonzero rc); [apply (steps_ret (frame P))|].
  apply (steps_bind (frame P)); [by apply frame_wr_dev|intros _].
  apply (steps_bind (frame P)); [by apply frame_wr_dev|intros _].
  apply (steps_bind (frame P)); [by apply frame_wr_dev|intros _].
  apply (steps_bind (frame P)); [apply frame_seq_start|intros _].
  apply (steps_bind (frame P)); [apply frame_seq_wait|intros rc2]. destruct (nonzero rc2); [apply (steps_ret (frame P))|].
  apply (steps_bind (frame P)); [by apply frame_drain|intros rc3]. destruct (nonzero rc3); [apply (steps_ret (frame P))|].
  frame_walk.
Qed.

Lemma frame_bytes P n a : steps (frame P) (rd_bytes n a : M St (list Z)).
Proof.
  revert a. induction n as [|n IH]; intros a; cbn [rd_bytes]; [apply (steps_ret (frame P))|].
  apply (steps_bind (frame P)); [apply kept_rd|intros b]. apply (steps_bind (frame P)); [apply IH|intros l]. apply (steps_ret (frame P)).
Qed.
Lemma frame_rmw8 (P : Z → Prop) a f : P a → steps (frame P) (rmw W8 a f : M St unit).
Proof.
  intros Ha. unfold rmw. apply (steps_bind (frame P)); [apply kept_rd|intros v]. apply kept_wr.
  intros x Hx. cbn [nbytes] in Hx. by replace x with a by lia.
Qed.
Lemma frame_blank P n a : steps (frame P) (blank_loop n a : M St bool).
Proof.
  revert a. induction n as [|n IH]; intros a; cbn [blank_loop]; [apply (steps_ret (frame P))|].
  apply (steps_bind (frame P)); [apply kept_rd|intros v]. destruct (v =? _); [apply IH|apply (steps_ret (frame P))].
Qed.

Lemma frame_chunk (P : Z → Prop) chunk :
  (∀ x, nand_local x → P x) → (∀ x, chunk <= x < chunk + 512 → P x) → steps (frame P) (read_chunk chunk : M St Z).
Proof.
  intros HL HP. assert (∀ x, tag_addr <= x < tag_addr + 4 → P x) as HT by (intros x Hx; apply HL; by right). unfold read_chunk.
  apply (steps_bind (frame P)); [apply frame_bind_dma|intros _].
  do 3 (apply (steps_bind (frame P)); [by apply frame_wr_dev|intros _]).
  apply (steps_bind (frame P)); [apply frame_seq_start|intros _].
  apply (steps_bind (frame P)); [by apply frame_drain|intros rc]. destruct (nonzero rc); [apply (steps_ret (frame P))|].
  apply (steps_bind (frame P)); [apply frame_seq_wait|intros rc2]. destruct (nonzero rc2); [apply (steps_ret (frame P))|].
  apply (steps_bind (frame P)); [frame_walk|intros [status|]]; [|apply (steps_ret (frame P))].
  do 4 (apply (steps_bind (frame P)); [apply kept_rd|intros ?]).
  apply (steps_bind (frame P)); [by apply frame_rmw|intros _].
  apply (steps_bind (frame P)); [unfold ecc_classify; frame_walk|intros c]. destruct c.
  - apply (steps_ret (frame P)).
  - apply (steps_bind (frame P)); [apply frame_for_lt; intros i Hi; apply kept_wr; intros x Hx; apply HT; cbn [nbytes] in Hx; lia|intros _].
    apply (steps_bind (frame P)).
    { apply steps_ecc_apply; [apply _|intros i f Hi; apply frame_rmw8, HP; lia|intros i f Hi; apply frame_rmw8, HT; lia]. }
    intros rc3. destruct (nonzero rc3); [apply (steps_ret (frame P))|].
    apply (steps_bind (frame P)); [apply frame_updN|intros _]. apply (steps_ret (frame P)).
  - apply (steps_bind (frame P)); [apply frame_blank|intros b]. apply (steps_ret (frame P)).
Qed.

Lemma frame_page_once (P : Z → Prop) page dst :
  (∀ x, nand_local x → P x) → (∀ x, dst <= x < dst + PAGE_SIZE → P x) → steps (frame P) (read_page_once page dst : M St Z).
Proof.
  intros HL HP. unfold read_page_once.
  do 2 (apply (steps_bind (frame P)); [by apply frame_wr_dev|intros _]).
  destruct (frame_emit_addr P page 0) as [He1 He2].
  apply (steps_bind_res (frame P) (λ f, f = NF_FIFO_NEXT + 20)); [done|done|]. intros ? ->.
  do 2 (apply (steps_bind (frame P)); [by apply frame_wr_dev|intros _]).
  apply (steps_bind (frame P)); [apply frame_seq_start|intros _].
  apply (steps_bind (frame P)); [apply frame_seq_wait|intros rc]. destruct (nonzero rc); [apply (steps_ret (frame P))|].
  assert (∀ n c, 0 <= c → c + Z.of_nat n <= 4 → steps (frame P) (read_chunks n c dst : M St Z)) as Hc; [|by apply Hc].
  induction n as [|n IH]; intros c H0 Hn; cbn [read_chunks]; [apply (steps_ret (frame P))|].
  apply (steps_bind (frame P)).
  - apply frame_chunk; [done|]. intros x Hx. apply HP. rewrite Z.shiftl_mul_pow2 in Hx by done. change (2 ^ 9) with 512 in Hx.
    unfold PAGE_SIZE. lia.
  - intros rc2. destruct (nonzero rc2); [apply (steps_ret (frame P))|apply IH; lia].
Qed.

Lemma frame_read_page (P : Z → Prop) page dst :
  (∀ x, nand_local x → P x) → (∀ x, dst <= x < dst + PAGE_SIZE → P x) → steps (frame P) (nand_read_page page dst : M St Z).
Proof.
  intros HL HP. unfold nand_read_page. generalize 0 at 2. generalize 0.
  induction PAGE_READ_TRIES as [|n IH]; intros try rc; cbn [page_tries]; [apply (steps_ret (frame P))|].
  apply (steps_bind (frame P)); [by apply frame_page_once|intros rc2]. destruct (rc2 =? 0); [frame_walk|apply IH].
Qed.

Lemma frame_block_is_bad (P : Z → Prop) block :
  (∀ x, nand_local x → P x) → steps (frame P) (block_is_bad block : M St Z).
Proof.
  intros HP. unfold block_is_bad. apply (steps_bind (frame P)); [frame_walk|intros ppb].
  apply (steps_bind (frame P)); [apply frame_read_raw; [done|intros x Hx; apply HP; by left]|intros rc]. destruct (nonzero rc); frame_walk.
Qed.

(** The loops of the loader, for any reader whose pages stay in their range. *)
Lemma frame_load_pages (P : Z → Prop) n page p out remaining :
  (∀ x, nand_local x → P x) → (∀ x, out <= x < out + remaining → P x) → 0 <= remaining → remaining mod PAGE_SIZE = 0 → word_ok remaining →
  let m : M St (Z * Z * Z) := load_pages nand_read_page log_puts n page p out remaining in
  steps (frame P) m ∧
  ∀ s, let '(_, out', remaining') := fst (m s) in
       0 <= remaining' ∧ remaining' mod PAGE_SIZE = 0 ∧ word_ok remaining' ∧ out' + remaining' = out + remaining ∧ out <= out'.
Proof.
  intros HL. revert p out remaining. induction n as [|n IH]; intros p out remaining HP Hr Hm Hw; cbn [load_pages].
  { split; [apply (steps_ret (frame P))|]. intros s. cbn. split_and!; (done || lia). }
  destruct (nonzero remaining) eqn:E.
  2: { split; [apply (steps_ret (frame P))|]. intros s. cbn. split_and!; (done || lia). }
  apply nonzero_true in E.
  assert (PAGE_SIZE <= remaining) as Hge.
  { unfold PAGE_SIZE in *. pose proof (Z.div_mod remaining 2048). lia. }
  assert (u32 (remaining - PAGE_SIZE) = remaining - PAGE_SIZE) as Hsub by (apply u32_id; unfold word_ok, PAGE_SIZE in *; lia).
  rewrite Hsub. destruct (IH (p + 1) (out + PAGE_SIZE) (remaining - PAGE_SIZE)) as [H1 H2].
  - intros x Hx. apply HP. unfold PAGE_SIZE in *. lia.
  - lia.
  - unfold PAGE_SIZE in *. rewrite Zminus_mod, Hm. done.
  - unfold word_ok, PAGE_SIZE in *. lia.
  - split.
    + apply (steps_bind (frame P)); [apply frame_read_page; [done|intros x Hx; apply HP; lia]|intros rc].
      destruct (nonzero rc); [|done]. apply (steps_bind (frame P)); [apply frame_log_puts|intros _; apply (steps_ret (frame P))].
    + intros s. unfold mbind, M_bind. destruct (nand_read_page _ out s) as [rc s1]. destruct (nonzero rc).
      * destruct (log_puts _ s1) as [[] s2]. cbn. split_and!; (done || lia).
      * specialize (H2 s1). destruct (fst (load_pages _ _ _ _ _ _ _ s1)) as [[rc2 o2] r2].
        destruct H2 as (? & ? & ? & ? & ?). unfold PAGE_SIZE in *. split_and!; (done || lia).
Qed.

Lemma frame_load_blocks (P : Z → Prop) ppb fuel block out remaining skipped :
  (∀ x, nand_local x → P x) → (∀ x, out <= x < out + remaining → P x) →
  0 <= remaining → remaining mod PAGE_SIZE = 0 → word_ok remaining →
  steps (frame P) (load_blocks block_is_bad nand_read_page log_puts ppb fuel block out remaining skipped : M St Z).
Proof.
  intros Hword. revert block out remaining skipped.
  induction fuel as [|fuel IH]; intros block out remaining skipped HP Hr Hm Hw; cbn [load_blocks]; [apply (steps_ret (frame P))|].
  destruct (nonzero remaining); [|apply (steps_ret (frame P))].
  apply (steps_bind (frame P)); [by apply frame_block_is_bad|intros bad]. destruct (nonzero bad).
  - destruct (MAX_BAD_SKIP <? skipped + 1); [apply (steps_ret (frame P))|].
    apply (steps_bind (frame P)); [apply frame_log_puts|intros _; by apply IH].
  - destruct (frame_load_pages P (Z.to_nat ppb) (u32 (block * ppb)) 0 out remaining Hword HP Hr Hm Hw) as [H1 H2].
    apply (steps_bind_res (frame P) (λ r, let '(_, out', remaining') := r in
       0 <= remaining' ∧ remaining' mod PAGE_SIZE = 0 ∧ word_ok remaining' ∧ out' + remaining' = out + remaining ∧ out <= out'));
      [done|done|].
    intros [[rc out'] r'] (Hr' & Hm' & Hw' & Ho & Hle). destruct (nonzero rc); [apply (steps_ret (frame P))|].
    apply IH; [|done|done|done]. intros x Hx. apply HP. lia.
Qed.

Lemma frame_load_image (P : Z → Prop) dst start_block bytes :
  word_ok bytes → (∀ x, dst <= x < dst + bytes → P x) → (∀ x, nand_local x → P x) →
  steps (frame P) (nand_load_image dst start_block bytes : M St Z).
Proof.
  intros Hw Hdst Hword. unfold nand_load_image. apply (steps_bind (frame P)); [frame_walk|intros ppb]. unfold load_image.
  destruct (ppb =? 0); [apply (steps_ret (frame P))|].
  destruct ((bytes =? 0) || nonzero (bytes .& (PAGE_SIZE - 1))) eqn:E; [apply (steps_ret (frame P))|].
  apply orb_false_iff in E as [_ E%nonzero_false].
  apply frame_load_blocks; [done|done|unfold word_ok in Hw; lia| |done].
  change (bytes `mod` 2 ^ 11 = 0). rewrite <-(land_low bytes 11 (PAGE_SIZE - 1)); done.
Qed.
Lemma frame_first_good (P : Z → Prop) n block :
  (∀ x, nand_local x → P x) → steps (frame P) (first_good n block : M St Z).
Proof.
  intros Hword. revert block. induction n as [|n IH]; intros block; cbn [first_good]; [apply (steps_ret (frame P))|].
  apply (steps_bind (frame P)); [by apply frame_block_is_bad|intros bad]. destruct (nonzero bad); [apply IH|apply (steps_ret (frame P))].
Qed.
Lemma frame_probe (P : Z → Prop) :
  (∀ x, nand_local x → P x) → (∀ x, probe_page <= x < probe_page + PAGE_SIZE → P x) →
  steps (frame P) (nand_probe_geometry : M St Z).
Proof.
  intros Hword Hpage. unfold nand_probe_geometry. induction [64; 128; 32; 256] as [|c cs IH]; cbn [probe_loop].
  { apply (steps_bind (frame P)); [apply frame_updN|intros _; apply (steps_ret (frame P))]. }
  apply (steps_bind (frame P)); [apply frame_updN|intros _]. apply (steps_bind (frame P)); [by apply frame_first_good|intros block].
  destruct (block =? _); [done|]. apply (steps_bind (frame P)); [by apply frame_read_page|intros rc]. destruct (nonzero rc); [done|].
  apply (steps_bind (frame P)); [apply frame_bytes|intros head]. destruct (bool_decide _); [|done].
  unfold log_dec. do 4 (apply (steps_bind (frame P)); [apply frame_log_puts|intros _]).
  apply (steps_bind (frame P)); [apply frame_log_putc|intros _]. apply (steps_ret (frame P)).
Qed.

(** C4: a load stays in its buffer.  Whatever the controller, the flash and the
    BCH engine answer, [nand_load_image] changes memory only in the destination
    range, in two local variables, the word of the bad-block test and the tag of the
    correction, and in the log window of the image it is built into: the position
    registers of the engine, whose corrections are stores at computed addresses, the
    retries and the skipped blocks cannot make it write anywhere else. *)
Theorem nand_load_frame dst start_block bytes s a :
  log_ok s → word_ok bytes →
  ¬ (dst <= a < dst + bytes) → ¬ nand_local a → ¬ (LOG_BASE <= a < LOG_BASE + LOG_SIZE) →
  mget (ram (b_mach (snd (nand_load_image dst start_block bytes s)))) a = mget (ram (b_mach s)) a.
Proof.
  intros Hok Hw Hd Hwd Hlog. set (P x := dst <= x < dst + bytes ∨ nand_local x).
  assert (steps (frame P) (nand_load_image dst start_block bytes : M St Z)) as Hs
    by (apply frame_load_image; [done|by left|by right]).
  destruct (Hs s Hok) as [_ H]. apply H; [|done]. unfold P. tauto.
Qed.
End frame.

(** ** Which pages a load reads *)

(** The reads of [k] pages from page [first] on, to [out] and up. *)
Definition page_calls (first k out : Z) : list (Z * Z) := map (λ i, (first + i, out + PAGE_SIZE * i)) (seqZ 0 k).

(** The reads that fetch [m] pages from the blocks [bs], in their order. *)
Fixpoint block_calls (ppb : Z) (bs : list Z) (out m : Z) : list (Z * Z) :=
  match bs with
  | [] => []
  | b :: bs' =>
      let k := Z.min ppb m in
      page_calls (b * ppb) k out ++ block_calls ppb bs' (out + PAGE_SIZE * k) (m - k)
  end.

(** The blocks an image of [m] pages occupies: the first good ones of the window
    that holds them and the 16 bad ones the loader may skip. *)
Definition blocks_needed (ppb m : Z) : Z := (m + ppb - 1) / ppb.
Definition image_blocks (ppb : Z) (bad : Z → bool) (start m skipped : Z) : list Z :=
  take (Z.to_nat (blocks_needed ppb m))
       (List.filter (λ b, negb (bad b)) (seqZ start (blocks_needed ppb m + MAX_BAD_SKIP - skipped))).

Section order.
Context {S : Type} (is_bad : Z → M S Z) (read_page : Z → Z → M S Z) (say : list Z → M S unit) (ppb : Z).
(** [R s l]: in state [s] the reads made so far are [l]; the flash's bad blocks
    are [bad], and no read fails. *)
Context (R : S → list (Z * Z) → Prop) (bad : Z → bool).
Hypothesis is_bad_ok : ∀ b s l, R s l → nonzero (fst (is_bad b s)) = bad b ∧ R (snd (is_bad b s)) l.
Hypothesis read_ok : ∀ pg out s l, R s l → fst (read_page pg out s) = 0 ∧ R (snd (read_page pg out s)) (l ++ [(pg, out)]).
Hypothesis say_ok : ∀ t s l, R s l → R (snd (say t s)) l.
Hypothesis ppb_pos : 0 < ppb.

Lemma page_calls_cons first k out :
  0 < k → page_calls first k out = (first, out) :: page_calls (first + 1) (k - 1) (out + PAGE_SIZE).
Proof.
  intros Hk. unfold page_calls. rewrite seqZ_cons by done. cbn [map]. f_equal; [f_equal; lia|].
  replace (seqZ (Z.succ 0) (Z.pred k)) with (map (Z.add 1) (seqZ 0 (k - 1)))
    by (replace (Z.pred k) with (k - 1) by lia; exact (fmap_add_seqZ 1 0 (k - 1))).
  rewrite map_map.
  apply map_ext. intros i. f_equal; lia.
Qed.

Lemma load_pages_calls n page p out m s l :
  0 <= p → 0 <= page → 0 <= m → word_ok (PAGE_SIZE * m) → page + p + Z.of_nat n <= 2 ^ 32 → R s l →
  let k := Z.min (Z.of_nat n) m in
  let r := load_pages read_page say n page p out (PAGE_SIZE * m) s in
  fst r = (0, out + PAGE_SIZE * k, PAGE_SIZE * (m - k)) ∧ R (snd r) (l ++ page_calls (page + p) k out).
Proof.
  revert p out m s l. induction n as [|n IH]; intros p out m s l Hp Hpg Hm Hw Hb HR k; subst k; cbn [load_pages].
  { replace (Z.min (Z.of_nat 0) m) with 0 by lia. cbn. rewrite app_nil_r. split; [do 2 (f_equal; try lia)|done]. }
  destruct (decide (m = 0)) as [->|Hm0].
  { replace (Z.min (Z.of_nat (Datatypes.S n)) 0) with 0 by lia. rewrite !Z.mul_0_r. cbn. rewrite app_nil_r. split; [do 2 (f_equal; try lia)|done]. }
  replace (nonzero (PAGE_SIZE * m)) with true by (symmetry; apply nonzero_intro; unfold PAGE_SIZE; lia).
  rewrite (u32_id (page + p)) by (unfold word_ok; lia).
  replace (PAGE_SIZE * m - PAGE_SIZE) with (PAGE_SIZE * (m - 1)) by lia.
  rewrite (u32_id (PAGE_SIZE * (m - 1))) by (unfold word_ok, PAGE_SIZE in *; lia).
  unfold mbind, M_bind. destruct (read_ok (page + p) out s l HR) as [E1 E2].
  destruct (read_page (page + p) out s) as [rc s1]. cbn in E1, E2. subst rc. cbn [nonzero Z.eqb negb].
  destruct (IH (p + 1) (out + PAGE_SIZE) (m - 1) s1 _ ltac:(lia) Hpg ltac:(lia) ltac:(unfold word_ok, PAGE_SIZE in *; lia)
              ltac:(lia) E2) as [-> H2].
  replace (Z.min (Z.of_nat (Datatypes.S n)) m) with (Z.min (Z.of_nat n) (m - 1) + 1) by lia.
  split; [do 2 (f_equal; try lia)|]. rewrite page_calls_cons by lia. rewrite cons_middle, app_assoc.
  replace (page + p + 1) with (page + (p + 1)) by lia. rewrite Z.add_simpl_r. exact H2.
Qed.

Lemma blocks_needed_step m : 0 < m → 0 < blocks_needed ppb m ∧ blocks_needed ppb (m - Z.min ppb m) = blocks_needed ppb m - 1.
Proof.
  intros Hm. unfold blocks_needed. split; [apply Z.div_str_pos; lia|].
  destruct (decide (m <= ppb)) as [H|H].
  - rewrite Z.min_r by lia. replace (m - m + ppb - 1) with (ppb - 1) by lia. rewrite (Z.div_small (ppb - 1)) by lia.
    replace (m + ppb - 1) with (m - 1 + 1 * ppb) by lia. rewrite Z.div_add, Z.div_small by lia. done.
  - rewrite Z.min_l by lia. replace (m + ppb - 1) with (m - ppb + ppb - 1 + 1 * ppb) by lia. rewrite Z.div_add by lia. lia.
Qed.
Lemma image_blocks_bad start m skipped :
  bad start = true → 0 <= skipped < MAX_BAD_SKIP → 0 < m →
  image_blocks ppb bad start m skipped = image_blocks ppb bad (start + 1) m (skipped + 1).
Proof.
  intros Hb Hs Hm. destruct (blocks_needed_step m Hm). unfold image_blocks.
  rewrite seqZ_cons by lia. cbn [List.filter]. rewrite Hb. cbn [negb]. do 2 f_equal. f_equal; lia.
Qed.
Lemma image_blocks_good start m skipped :
  bad start = false → 0 <= skipped <= MAX_BAD_SKIP → 0 < m →
  image_blocks ppb bad start m skipped = start :: image_blocks ppb bad (start + 1) (m - Z.min ppb m) skipped.
Proof.
  intros Hb Hs Hm. destruct (blocks_needed_step m Hm) as [H1 H2]. unfold image_blocks. rewrite H2.
  rewrite (seqZ_cons start) by lia. cbn [List.filter]. rewrite Hb. cbn [negb].
  replace (Z.to_nat (blocks_needed ppb m)) with (Datatypes.S (Z.to_nat (blocks_needed ppb m - 1))) by lia.
  cbn [take]. f_equal. f_equal. f_equal. f_equal; lia.
Qed.
Lemma image_blocks_exhausted start m :
  bad start = true → 0 < m → (length (image_blocks ppb bad start m MAX_BAD_SKIP) < Z.to_nat (blocks_needed ppb m))%nat.
Proof.
  intros Hb Hm. destruct (blocks_needed_step m Hm). unfold image_blocks. rewrite length_take.
  rewrite (seqZ_cons start) by lia. cbn [List.filter]. rewrite Hb. cbn [negb].
  match goal with |- context [List.filter ?f ?l] => pose proof (List.filter_length_le f l) as Hl end.
  rewrite length_seqZ in Hl. lia.
Qed.

Lemma load_blocks_calls fuel block out m skipped s l :
  0 <= block → 0 <= m → 0 <= skipped <= MAX_BAD_SKIP → m + MAX_BAD_SKIP + 1 - skipped <= Z.of_nat fuel →
  word_ok (PAGE_SIZE * m) → (block + m + MAX_BAD_SKIP + 1 - skipped) * ppb <= 2 ^ 32 → R s l →
  let r := load_blocks is_bad read_page say ppb fuel block out (PAGE_SIZE * m) skipped s in
  let bs := image_blocks ppb bad block m skipped in
  if decide (length bs = Z.to_nat (blocks_needed ppb m))
  then fst r = 0 ∧ R (snd r) (l ++ block_calls ppb bs out m)
  else fst r = NAND_EBADRUN.
Proof.
  revert block out m skipped s l.
  induction fuel as [|fuel IH]; intros block out m skipped s l Hb Hm Hs Hf Hw Hn HR; [lia|]. cbn [load_blocks].
  destruct (decide (m = 0)) as [->|Hm0].
  { cbn zeta. rewrite Z.mul_0_r. unfold image_blocks. replace (blocks_needed ppb 0) with 0 by (symmetry; apply Z.div_small; lia).
    cbn. rewrite app_nil_r. done. }
  replace (nonzero (PAGE_SIZE * m)) with true by (symmetry; apply nonzero_intro; unfold PAGE_SIZE; lia).
  destruct (blocks_needed_step m) as [Hn1 Hn2]; [lia|].
  unfold mbind, M_bind. destruct (is_bad_ok block s l HR) as [E1 E2].
  destruct (is_bad block s) as [rc s1]. cbn in E1, E2. rewrite E1. clear E1 rc. cbn zeta.
  assert (u32 (block + 1) = block + 1) as Hu by (apply u32_id; unfold word_ok; unfold MAX_BAD_SKIP in *; nia).
  destruct (bad block) eqn:Eb.
  - destruct (MAX_BAD_SKIP <? skipped + 1) eqn:El.
    + apply Z.ltb_lt in El. replace skipped with MAX_BAD_SKIP by lia.
      pose proof (image_blocks_exhausted block m Eb ltac:(lia)). rewrite decide_False by lia. done.
    + apply Z.ltb_ge in El. pose proof (say_ok (bytes_of "nand: skipping bad block " ++ dec_digits block ++ [10]) s1 l E2) as E3.
      destruct (say _ s1) as [[] s2]. cbn in E3. rewrite Hu, image_blocks_bad by lia || done.
      apply IH; [lia|lia|lia|lia|done|nia|done].
  - rewrite image_blocks_good by lia || done. cbn [length block_calls].
    rewrite (u32_id (block * ppb)) by (unfold word_ok, MAX_BAD_SKIP in *; nia).
    destruct (load_pages_calls (Z.to_nat ppb) (block * ppb) 0 out m s1 l) as [F1 F2];
      [lia|lia|lia|done|unfold MAX_BAD_SKIP in *; nia|done|].
    destruct (load_pages _ _ _ _ _ _ _ s1) as [r s2]. cbn in F1, F2. subst r. rewrite Z2Nat.id in F2 |- * by lia. cbn.
    rewrite Z.add_0_r in F2. rewrite Hu.
    pose proof (IH (block + 1) (out + PAGE_SIZE * Z.min ppb m) (m - Z.min ppb m) skipped s2 _ ltac:(lia) ltac:(lia) Hs
      ltac:(lia) ltac:(unfold word_ok, PAGE_SIZE in *; lia) ltac:(nia) F2) as H. cbn zeta in H. rewrite Hn2 in H.
    destruct (decide (length _ = _)) as [D1|D1] in H.
    + rewrite decide_True by lia. rewrite app_assoc. exact H.
    + rewrite decide_False by lia. exact H.
Qed.

(** The loader reads the pages of the image, in order, past the bad blocks.
    For an image of [m] pages, the good blocks are taken in ascending order from
    the start block, their pages go to consecutive 2048-byte slots of the
    destination and the last block is read only as far as the image goes; the
    load fails with [NAND_EBADRUN] exactly when more than 16 bad blocks come
    before the last block it needs.  A length that is not a positive number of
    pages is refused before the flash is touched. *)
Theorem load_image_order dst start m s l :
  0 <= start → 0 < m → word_ok (PAGE_SIZE * m) → (start + m + MAX_BAD_SKIP + 1) * ppb <= 2 ^ 32 → R s l →
  let r := load_image is_bad read_page say ppb dst start (PAGE_SIZE * m) s in
  let bs := image_blocks ppb bad start m 0 in
  (if decide (length bs = Z.to_nat (blocks_needed ppb m))
   then fst r = 0 ∧ R (snd r) (l ++ block_calls ppb bs dst m)
   else fst r = NAND_EBADRUN) ∧
  ∀ bytes, bytes = 0 ∨ bytes mod PAGE_SIZE ≠ 0 → load_image is_bad read_page say ppb dst start bytes s = (NAND_ELEN, s).
Proof.
  intros Hs Hm Hw Hn HR. unfold load_image. rewrite (proj2 (Z.eqb_neq ppb 0)) by lia. split.
  - replace (PAGE_SIZE * m =? 0) with false by (symmetry; apply Z.eqb_neq; unfold PAGE_SIZE; lia).
    rewrite (land_low _ 11 (PAGE_SIZE - 1)) by done. change (2 ^ 11) with PAGE_SIZE.
    rewrite Z.mul_comm, Z.mod_mul, Z.div_mul, Z.mul_comm by done. cbn [orb nonzero Z.eqb negb].
    apply load_blocks_calls; [done|lia|done|unfold MAX_BAD_SKIP; lia|done|lia|done].
  - intros bytes Hbytes. rewrite (land_low _ 11 (PAGE_SIZE - 1)) by done. change (2 ^ 11) with PAGE_SIZE.
    destruct Hbytes as [->|Hb]; [done|]. apply nonzero_intro in Hb. rewrite Hb. by rewrite orb_true_r.
Qed.
End order.

Section example.
#[local] Existing Instance null_device.
#[local] Existing Instance aipc_boot_log.

Definition example_locals : NandLocals := {| word_addr := 0x33100000; tag_addr := 0x33100004; probe_page := 0x33110000 |}.
#[local] Existing Instance example_locals.
Theorem nand_load_frame_witness :
  mget (ram (b_mach (snd (nand_load_image 0x30000000 50 2048 example_boot)))) 0x33000000 = mget (ram (b_mach example_boot)) 0x33000000.
Proof.
  refine (nand_load_frame 0x30000000 50 2048 example_boot 0x33000000 _ _ _ _ _);
    [by left|split; done|lia|unfold nand_local; cbn; lia|unfold LOG_SIZE; cbn; lia].
Defined.

(** A flash of two-page blocks whose block 51 is bad: three pages from block 50. *)
Theorem load_image_order_witness :
  let r := load_image (λ b, mret (b2z (b =? 51))) (λ pg out l, (0, l ++ [(pg, out)])) (λ _, skip) 2 0x30000000 50 6144 [] in
  fst r = 0 ∧ snd r = [(100, 0x30000000); (101, 0x30000800); (104, 0x30001000)].
Proof.
  refine (proj1 (load_image_order (λ b, mret (b2z (b =? 51))) (λ pg out l, (0, l ++ [(pg, out)])) (λ _, skip) 2
    (λ s l, s = l) (λ b, b =? 51) _ _ _ _ 0x30000000 50 3 [] [] _ _ _ _ _));
    [intros b s l ->; split; [by destruct (b =? 51)|done]|intros pg out s l ->; done|intros t s l ->; done
    |done|done|done|split; done|done|done].
Defined.
End example.
