(* ===== verification/Payload.v ===== *)
(** * Payload: bare-metal programs on the card ([src/baremetal/aipc-boot/payload.c])

    The sorted list of the payload directory and the ELF loader.  Files come
    through [Storage]; the directory functions of FatFS are variables.  The
    loader's state is memory, the card and the statics of [storage.c]. *)
From Stdlib Require Import Sorted.
From S2P Require Import Prelude Machine Soc Storage.

Definition PAYLOAD_DIR : list Z := bytes_of "/aipc-boot/payloads".
Definition PAYLOAD_MAX : Z := 16.
Definition PAYLOAD_NAME_SIZE : Z := 64.
Definition PAYLOAD_ENOTELF : Z := -40.
Definition PAYLOAD_ERANGE : Z := -41.
Definition DDR_LOW : Z := 0x30000000.
Definition DDR_HIGH : Z := 0x34000000.
Definition SELF_LOW : Z := 0x33000000.
Definition SELF_HIGH : Z := 0x33800000.
Definition FB_ADDR : Z := 0x33B00000.
Definition FB_BACK_ADDR : Z := 0x33C00000.
Definition FB_WIDTH : Z := 800.
Definition FB_HEIGHT : Z := 480.
Definition FB_BYTES : Z := FB_WIDTH * FB_HEIGHT * 2.
Definition PT_LOAD : Z := 1.
Definition EM_ARM : Z := 40.
Definition ET_EXEC : Z := 2.
Definition PHNUM_MAX : Z := 16.
Definition AM_HID : Z := 2.
Definition AM_SYS : Z := 4.
Definition AM_DIR : Z := 16.

(** ** The structures of the file *)

(** The little-endian field of [n] bytes at [off]. *)
Definition field (l : list Z) (off n : Z) : Z := le_join (take (Z.to_nat n) (drop (Z.to_nat off) l)).

Record elf32_ehdr := Ehdr {
  e_ident : list Z; e_type : Z; e_machine : Z; e_version : Z; e_entry : Z; e_phoff : Z; e_shoff : Z; e_flags : Z;
  e_ehsize : Z; e_phentsize : Z; e_phnum : Z; e_shentsize : Z; e_shnum : Z; e_shstrndx : Z
}.
Record elf32_phdr := Phdr {
  p_type : Z; p_offset : Z; p_vaddr : Z; p_paddr : Z; p_filesz : Z; p_memsz : Z; p_flags : Z; p_align : Z
}.
Definition EHDR_SIZE : Z := 52.
Definition PHDR_SIZE : Z := 32.

Definition ehdr_of (l : list Z) : elf32_ehdr :=
  Ehdr (take 16 l) (field l 16 2) (field l 18 2) (field l 20 4) (field l 24 4) (field l 28 4) (field l 32 4) (field l 36 4)
    (field l 40 2) (field l 42 2) (field l 44 2) (field l 46 2) (field l 48 2) (field l 50 2).
Definition phdr_of (l : list Z) : elf32_phdr :=
  Phdr (field l 0 4) (field l 4 4) (field l 8 4) (field l 12 4) (field l 16 4) (field l 20 4) (field l 24 4) (field l 28 4).
Definition phdrs_of (n : Z) (l : list Z) : list elf32_phdr :=
  map (λ i, phdr_of (drop (Z.to_nat (PHDR_SIZE * i)) l)) (seqZ 0 n).

Definition elf_magic : list Z := [127] ++ bytes_of "ELF" ++ [1; 1].

(** ** The checks *)

Definition overlaps (a b lo hi : Z) : bool := (a <? hi) && (lo <? b).

Definition range_ok (addr size : Z) : bool :=
  let e := u32 (addr + size) in
  (addr <=? e) && (DDR_LOW <=? addr) && (e <=? DDR_HIGH) &&
  negb (overlaps addr e SELF_LOW SELF_HIGH) &&
  negb (overlaps addr e FB_ADDR (FB_ADDR + FB_BYTES)) &&
  negb (overlaps addr e FB_BACK_ADDR (FB_BACK_ADDR + FB_BYTES)).

(** [type != PT_LOAD || memsz == 0] *)
Definition skipped_phdr (p : elf32_phdr) : bool := negb (p_type p =? PT_LOAD) || (p_memsz p =? 0).

Definition ehdr_ok (eh : elf32_ehdr) : bool :=
  bool_decide (take 6 (e_ident eh) = elf_magic) && (e_type eh =? ET_EXEC) && (e_machine eh =? EM_ARM) &&
  (e_phentsize eh =? PHDR_SIZE) && negb (e_phnum eh =? 0) && negb (PHNUM_MAX <? e_phnum eh).

(** The loop of [check]. *)
Fixpoint check_loop (entry : Z) (ph : list elf32_phdr) (entry_ok : bool) : Z :=
  match ph with
  | [] => if entry_ok then 0 else PAYLOAD_ERANGE
  | p :: ph' =>
      if skipped_phdr p then check_loop entry ph' entry_ok
      else if (p_memsz p <? p_filesz p) || negb (range_ok (p_paddr p) (p_memsz p)) then PAYLOAD_ERANGE
      else
        check_loop entry ph'
          (if (p_paddr p <=? entry) && (entry <? u32 (p_paddr p + p_memsz p)) then true else entry_ok)
  end.

Section Load.
Context {V FIL : Type} `{!Card V, !Volume V FIL}.
(** The addresses of [eh] and [ph]. *)
Variables eh_at ph_at : Z.

(** [pl_stores] is a record of the stores of the segments, in their order: the
    state of the log window at the time, the address and the bytes. *)
Record pl_st := PlSt {
  pl_mem : mem; pl_sto : storage_st; pl_log : log_st; pl_vol : V; pl_stores : list (log_st * Z * list Z)
}.
Definition pl_put (dst : Z) (l : list Z) (s : pl_st) : pl_st :=
  PlSt (mset_list (pl_mem s) dst l) (pl_sto s) (pl_log s) (pl_vol s) (pl_stores s ++ [(pl_log s, dst, l)]).
Definition pl_card (st : storage_st) (v : V) (s : pl_st) : pl_st := PlSt (pl_mem s) st (pl_log s) v (pl_stores s).
(** [log_detach]: no byte of the window is free. *)
Definition pl_detach (s : pl_st) : pl_st :=
  PlSt (pl_mem s) (pl_sto s) (LogSt (log_end (pl_log s)) (log_end (pl_log s))) (pl_vol s) (pl_stores s).

(** The result and what was read. *)
Definition read_at (f : FIL) (off al len : Z) (st : storage_st) (v : V) : Z * list Z * FIL * storage_st * V :=
  let '(fr, f, v) := f_lseek f off v in
  if negb (fr =? FR_OK) then (STORAGE_EIO, [], f, st, v) else storage_read f al len st v.

Definition check (f : FIL) (st : storage_st) (v : V) : Z * option (elf32_ehdr * list elf32_phdr) * FIL * storage_st * V :=
  let '(rc, data, f, st, v) := read_at f 0 eh_at EHDR_SIZE st v in
  if nonzero rc then (STORAGE_EIO, None, f, st, v)
  else
    let eh := ehdr_of data in
    if negb (ehdr_ok eh) then (PAYLOAD_ENOTELF, None, f, st, v)
    else
      let '(rc, data, f, st, v) := read_at f (e_phoff eh) ph_at (e_phnum eh * PHDR_SIZE) st v in
      if nonzero rc then (STORAGE_EIO, None, f, st, v)
      else
        let ph := phdrs_of (e_phnum eh) data in
        (check_loop (e_entry eh) ph false, Some (eh, ph), f, st, v).

(** The loop of [payload_load] over the segments; bytes arrive in memory also
    from a read that fails. *)
Fixpoint load_segments (ph : list elf32_phdr) (f : FIL) (s : pl_st) : Z * FIL * pl_st :=
  match ph with
  | [] => (0, f, s)
  | p :: ph' =>
      if skipped_phdr p then load_segments ph' f s
      else
        let dst := p_paddr p in
        let '(rc, data, f, st, v) :=
          if nonzero (p_filesz p) then read_at f (p_offset p) dst (p_filesz p) (pl_sto s) (pl_vol s)
          else (0, [], f, pl_sto s, pl_vol s) in
        let s := pl_put dst data (pl_card st v s) in
        if nonzero rc then (STORAGE_EIO, f, s)
        else load_segments ph' f (pl_put (dst + p_filesz p) (replicate (Z.to_nat (u32 (p_memsz p - p_filesz p))) 0) s)
  end.

Definition payload_path (name : list Z) : list Z := PAYLOAD_DIR ++ bytes_of "/" ++ name.

(** The result and the entry. *)
Definition payload_load (name : list Z) (s : pl_st) : Z * option Z * pl_st :=
  let '(fr, f, v) := f_open (payload_path name) FA_READ (pl_vol s) in
  if negb (fr =? FR_OK) then (STORAGE_ENOTFOUND, None, pl_card (pl_sto s) v s)
  else
    let '(rc, hdrs, f, st, v) := check f (StorageSt (single_blocks (pl_sto s)) (clmt (pl_sto s)) false) v in
    match hdrs with
    | Some (eh, ph) =>
        if nonzero rc then let '(_, v) := f_close f v in (rc, None, pl_card st v s)
        else
          let '(rc, f, s) := load_segments ph f (pl_detach (pl_card st v s)) in
          let '(_, v) := f_close f (pl_vol s) in
          let s := pl_card (pl_sto s) v s in
          if nonzero rc then (STORAGE_EIO, None, s) else (0, Some (e_entry eh), s)
    | None => let '(_, v) := f_close f v in (rc, None, pl_card st v s)
    end.
End Load.
Arguments pl_st V : clear implicits.
Arguments PlSt {V} _ _ _ _ _.
Arguments pl_mem {V} _.
Arguments pl_sto {V} _.
Arguments pl_log {V} _.
Arguments pl_vol {V} _.
Arguments pl_stores {V} _.
Arguments pl_put {V} _ _ _.
Arguments pl_card {V} _ _ _.
Arguments pl_detach {V} _.

(** ** The list of payloads *)

(** [strcmp(a, b) > 0] on the bytes before the NUL. *)
Fixpoint name_after (a b : list Z) : bool :=
  match a, b with
  | [], _ => false
  | _ :: _, [] => true
  | x :: a', y :: b' => if x =? y then name_after a' b' else y <? x
  end.

(** The names from the last one down: those after [n] move up by one place. *)
Fixpoint insert_down (n : list Z) (names_rev : list (list Z)) : list (list Z) :=
  match names_rev with
  | [] => [n]
  | k :: ks => if name_after k n then k :: insert_down n ks else n :: k :: ks
  end.
Definition insert_name (n : list Z) (names : list (list Z)) : list (list Z) := rev (insert_down n (rev names)).

Definition skipped_name (fname : list Z) (fattrib : Z) : bool :=
  nonzero (fattrib .& (AM_DIR .| AM_HID .| AM_SYS)) || (znth fname 0 =? chr ".") || (PAYLOAD_NAME_SIZE <=? zlen fname).

Section List_.
Context {V DIR : Type}.
Variable f_opendir : list Z → V → Z * DIR * V.
Variable f_readdir : DIR → V → Z * (list Z * Z) * DIR * V.
Variable f_closedir : DIR → V → Z * V.

(** One round reads one entry; [fuel] bounds the rounds. *)
Fixpoint list_loop (fuel : nat) (d : DIR) (names : list (list Z)) (v : V) : list (list Z) * DIR * V :=
  match fuel with
  | O => (names, d, v)
  | S fuel' =>
      if zlen names <? PAYLOAD_MAX then
        let '(fr, (fname, fattrib), d, v) := f_readdir d v in
        if (fr =? FR_OK) && nonzero (zlen fname) then
          list_loop fuel' d (if skipped_name fname fattrib then names else insert_name fname names) v
        else (names, d, v)
      else (names, d, v)
  end.

Definition payload_list (fuel : nat) (v : V) : list (list Z) * V :=
  let '(fr, d, v) := f_opendir PAYLOAD_DIR v in
  if negb (fr =? FR_OK) then ([], v)
  else
    let '(names, d, v) := list_loop fuel d [] v in
    let '(_, v) := f_closedir d v in
    (names, v).
End List_.

(** ** What a load may write *)

(** The addresses a payload may occupy. *)
Definition loadable (a : Z) : Prop :=
  DDR_LOW <= a < DDR_HIGH ∧ ¬ (SELF_LOW <= a < SELF_HIGH) ∧
  ¬ (FB_ADDR <= a < FB_ADDR + FB_BYTES) ∧ ¬ (FB_BACK_ADDR <= a < FB_BACK_ADDR + FB_BYTES).

Lemma overlaps_false a b lo hi x : overlaps a b lo hi = false → a <= x < b → ¬ (lo <= x < hi).
Proof. unfold overlaps. lia. Qed.
Lemma range_ok_loadable addr size x :
  word_ok addr → word_ok size → range_ok addr size = true → addr <= x < addr + size → loadable x.
Proof.
  unfold range_ok, word_ok. intros Ha Hs H Hx. rewrite !andb_true_iff, !negb_true_iff in H.
  destruct H as [[[[[H1 H2] H3] H4] H5] H6].
  assert (u32 (addr + size) = addr + size) as E.
  { destruct (decide (addr + size < 4294967296)); [apply u32_id; split; lia|].
    unfold u32 in *. zlia. }
  rewrite E in *. unfold loadable. split_and!; [unfold DDR_LOW in *; lia|unfold DDR_HIGH in *; lia|..]; by eapply overlaps_false.
Qed.

(** The driver and FatFS answer bytes, no more than asked for. *)
Class SaneReads (V FIL : Type) `{!Card V, !Volume V FIL} := {
  f_read_sane f n v fr l f' v' : f_read f n v = (fr, l, f', v') → zlen l <= Z.max 0 n ∧ Forall byte_ok l;
  blocks_sane lba n v l v' : sd_read_blocks lba n v = (0, l, v') → zlen l <= Z.max 0 (512 * n) ∧ Forall byte_ok l;
}.

Section safe.
Context {V FIL : Type} `{!Card V, !Volume V FIL, !SaneReads V FIL}.

Lemma read_slow_sane f len v rc l f' v' : read_slow f len v = (rc, l, f', v') → zlen l <= Z.max 0 len ∧ Forall byte_ok l.
Proof.
  unfold read_slow. destruct (f_read f len v) as [[[fr data] f1] v1] eqn:E. apply f_read_sane in E.
  destruct (negb (fr =? FR_OK) || negb (zlen data =? len)); by intros [= <- <- <- <-].
Qed.
Lemma run_loop_nonneg csize database t cl off : 0 <= snd (run_loop csize database cl off t).
Proof.
  revert cl. induction t as [t IH] using (induction_ltof1 _ (@length Z)). unfold ltof in IH.
  intros cl. destruct t as [|n [|c t]]; cbn [run_loop]; [done..|].
  destruct (negb (nonzero n)); [done|]. destruct (cl <? n); [apply u32_range|]. apply IH. cbn. lia.
Qed.
Lemma read_runs_sane fuel f st len acc v :
  0 <= len → Forall byte_ok acc →
  let '(_, acc', _, _, len', _) := read_runs fuel f st len acc v in
  0 <= len' ∧ zlen acc' + len' <= zlen acc + len ∧ Forall byte_ok acc'.
Proof.
  revert f st len acc v. induction fuel as [|fuel IH]; intros f st len acc v Hl Ha; cbn [read_runs]; [split_and!; (done || lia)|].
  destruct (512 <=? len) eqn:El; [|split_and!; (done || lia)]. apply Z.leb_le in El.
  destruct (run_at _ _ _ _) as [lba n0] eqn:Hrun.
  assert (0 <= n0) as Hn0 by (change n0 with (snd (lba, n0)); rewrite <-Hrun; apply run_loop_nonneg).
  set (n1 := if len / 512 <? n0 then len / 512 else n0). set (n := if SD_BLOCKS_MAX <? n1 then SD_BLOCKS_MAX else n1).
  assert (0 <= n ∧ 512 * n <= len) as [Hn Hnb].
  { pose proof (Z.div_mod len 512). pose proof (Z.mod_pos_bound len 512).
    unfold n, n1, SD_BLOCKS_MAX. repeat case_match; lia. }
  destruct (n =? 0); [split_and!; (done || lia)|].
  destruct (sd_read_blocks lba n v) as [[rc data] v1] eqn:Hrd.
  destruct (rc =? SD_ENOCMD23); [split_and!; (done || lia)|].
  destruct (nonzero rc) eqn:Erc.
  { destruct (card_start v1) as [rc2 v2]. destruct (nonzero rc2); split_and!; (done || lia). }
  apply nonzero_false in Erc as ->. destruct (blocks_sane _ _ _ _ _ Hrd) as [Hd1 Hd2].
  destruct (f_lseek f _ v1) as [[fr f2] v2]. destruct (fr =? FR_OK); cbn [negb]; [|split_and!; (done || lia)].
  specialize (IH f2 st (len - n * 512) (acc ++ data) v2 ltac:(lia) ltac:(by apply list.Forall_app)).
  destruct (read_runs fuel _ _ _ _ _) as [[[[[r acc'] f'] st'] len'] v']. rewrite zlen_app in IH. destruct IH as (? & ? & ?).
  split_and!; (done || lia).
Qed.
Lemma storage_read_sane f al len st v :
  0 <= len → let '(_, data, _, _, _) := storage_read f al len st v in zlen data <= len ∧ Forall byte_ok data.
Proof.
  intros Hl. unfold storage_read. destruct (if cltbl st then _ else _) as [[f0 st0] v0].
  set (h := (512 - f_tell f0 mod 512) mod 512). set (c := (len <? h) || _ || _ || _).
  destruct (storage_head len (f_tell f0) c (if c then len else h) Hl) as [Hh _]; [unfold c; fold h; lia|done|].
  set (head := if c then len else h) in *.
  destruct (read_slow f0 head v0) as [[[rc data] f1] v1] eqn:Hr. apply read_slow_sane in Hr as [Hr1 Hr2].
  destruct (nonzero rc); [split; [lia|done]|].
  pose proof (read_runs_sane (Z.to_nat (len / 512)) f1 st0 (len - head) data v1 ltac:(lia) Hr2) as H.
  destruct (read_runs _ _ _ _ _ _) as [[[[[r acc] f2] st2] rest] v2]. destruct H as (H1 & H2 & H3).
  destruct r; [split; [lia|done]|].
  destruct (read_slow f2 rest v2) as [[[rc2 data2] f3] v3] eqn:Hr3. apply read_slow_sane in Hr3 as [Hr3 Hr4].
  rewrite zlen_app. split; [lia|by apply list.Forall_app].
Qed.
Lemma read_at_sane f off al len st v :
  0 <= len → let '(_, data, _, _, _) := read_at f off al len st v in zlen data <= len ∧ Forall byte_ok data.
Proof.
  intros Hl. unfold read_at. destruct (f_lseek f off v) as [[fr f1] v1].
  destruct (negb _); [split; [rewrite zlen_nil; lia|done]|by apply storage_read_sane].
Qed.

Lemma field_word l off : Forall byte_ok l → word_ok (field l off 4).
Proof.
  intros Hl. unfold field. set (k := take _ _). assert (Forall byte_ok k) as Hk by (by apply Forall_take, Forall_drop).
  pose proof (le_join_bound k Hk). assert (zlen k <= 4) by (apply zlen_take; lia). pose proof (zlen_nonneg k).
  pose proof (Z.pow_le_mono_r 256 (zlen k) 4 ltac:(lia) ltac:(lia)). change (256 ^ 4) with 4294967296 in *. unfold word_ok. lia.
Qed.
Definition phdr_words (p : elf32_phdr) : Prop := word_ok (p_paddr p) ∧ word_ok (p_filesz p) ∧ word_ok (p_memsz p).
Lemma phdrs_words n l : Forall byte_ok l → Forall phdr_words (phdrs_of n l).
Proof.
  intros Hl. unfold phdrs_of. apply Forall_map, Forall_true. intros i.
  assert (Forall byte_ok (drop (Z.to_nat (PHDR_SIZE * i)) l)) by (by apply Forall_drop).
  unfold phdr_words. cbn. split_and!; by apply field_word.
Qed.

(** A program header that [check] lets through. *)
Definition phdr_ok (p : elf32_phdr) : Prop :=
  skipped_phdr p = true ∨
  (p_filesz p <= p_memsz p ∧ range_ok (p_paddr p) (p_memsz p) = true).

Lemma check_loop_ok entry ph ok :
  check_loop entry ph ok = 0 →
  Forall phdr_ok ph ∧
  (ok = true ∨ ∃ p, p ∈ ph ∧ skipped_phdr p = false ∧ range_ok (p_paddr p) (p_memsz p) = true ∧
                    p_paddr p <= entry < u32 (p_paddr p + p_memsz p)).
Proof.
  revert ok. induction ph as [|p ph IH]; intros ok; cbn [check_loop].
  { destruct ok; [by repeat constructor|done]. }
  destruct (skipped_phdr p) eqn:Es.
  { intros H. destruct (IH ok H) as [H1 H2]. split; [constructor; [by left|done]|].
    destruct H2 as [->|(q & Hq & Hr)]; [by left|]. right. exists q. split; [by constructor|done]. }
  destruct ((p_memsz p <? p_filesz p) || negb _) eqn:E; [done|].
  apply orb_false_iff in E as [E1%Z.ltb_ge E2%negb_false_iff].
  intros H. apply IH in H as [H1 H2]. split; [constructor; [by right|done]|].
  destruct ((p_paddr p <=? entry) && (entry <? u32 (p_paddr p + p_memsz p))) eqn:Ee.
  - right. exists p. split_and!; [by constructor|done|done|lia|lia].
  - destruct H2 as [->|(q & Hq & Hr)]; [by left|]. right. exists q. split; [by constructor|done].
Qed.

(** A store into the loadable region, with the log window closed. *)
Definition guarded_store (e : log_st * Z * list Z) : Prop :=
  let '(lg, dst, l) := e in log_ptr lg = log_end lg ∧ ∀ a, dst <= a < dst + zlen l → loadable a.
Definition store_in (m : mem) (e : log_st * Z * list Z) : mem := let '(_, dst, l) := e in mset_list m dst l.

(** From [s] to [s'] memory changed by guarded stores only. *)
Definition guarded (s s' : pl_st V) : Prop :=
  ∃ tr, pl_stores s' = pl_stores s ++ tr ∧ pl_mem s' = fold_left store_in tr (pl_mem s) ∧ Forall guarded_store tr.
#[local] Instance guarded_preorder : PreOrder guarded.
Proof.
  split.
  - intros s. exists []. by rewrite app_nil_r.
  - intros s1 s2 s3 (t1 & H1 & H2 & H3) (t2 & H4 & H5 & H6). exists (t1 ++ t2).
    rewrite H4, H1, H5, H2, fold_left_app, app_assoc. split_and!; [done|done|by apply list.Forall_app].
Qed.
Lemma guarded_put dst l s :
  log_ptr (pl_log s) = log_end (pl_log s) → (∀ a, dst <= a < dst + zlen l → loadable a) → guarded s (pl_put dst l s).
Proof. intros Hl Ha. exists [(pl_log s, dst, l)]. split_and!; [done|done|]. by apply list.Forall_singleton. Qed.
Lemma guarded_card st v s s' : guarded s s' → guarded s (pl_card st v s').
Proof. done. Qed.
Lemma guarded_frame s s' a : guarded s s' → ¬ loadable a → mget (pl_mem s') a = mget (pl_mem s) a.
Proof.
  intros (tr & _ & -> & Htr) Ha. generalize (pl_mem s). induction Htr as [|[[lg dst] l] tr [_ He] Htr IH]; intros m; [done|].
  cbn [fold_left]. rewrite IH. cbn [store_in]. apply mget_mset_list_out.
  destruct (decide (dst <= a < dst + zlen l)) as [H|H]; [by destruct (Ha (He a H))|lia].
Qed.

Lemma load_segments_safe ph f s :
  log_ptr (pl_log s) = log_end (pl_log s) → Forall phdr_ok ph → Forall phdr_words ph →
  guarded s (snd (load_segments ph f s)).
Proof.
  intros Hlog Hok Hw. revert f s Hlog. induction ph as [|p ph IH]; intros f s Hlog; cbn [load_segments]; [done|].
  apply list.Forall_cons in Hok as [Hp Hok], Hw as [(Hw1 & Hw2 & Hw3) Hw]. specialize (IH Hok Hw).
  destruct (skipped_phdr p) eqn:Es; [by apply IH|]. destruct Hp as [Hp|[Hf Hr]]; [congruence|].
  assert (∀ a, p_paddr p <= a < p_paddr p + p_memsz p → loadable a) as Hin by (intros a; by apply range_ok_loadable).
  set (r := if nonzero (p_filesz p) then _ else _).
  assert (let '(_, data, _, _, _) := r in zlen data <= p_filesz p) as Hd.
  { unfold r. destruct (nonzero (p_filesz p)); [|unfold word_ok in Hw2; rewrite zlen_nil; lia].
    pose proof (read_at_sane f (p_offset p) (p_paddr p) (p_filesz p) (pl_sto s) (pl_vol s)
      ltac:(unfold word_ok in Hw2; lia)) as H.
    destruct (read_at _ _ _ _ _ _) as [[[[? ?] ?] ?] ?]. apply H. }
  destruct r as [[[[rc data] f1] st1] v1]. unfold word_ok in *.
  assert (guarded s (pl_put (p_paddr p) data (pl_card st1 v1 s))) as G1.
  { apply (guarded_put _ _ (pl_card st1 v1 s)); [done|]. intros a Ha. apply Hin. lia. }
  destruct (nonzero rc); [done|]. etrans; [exact G1|]. etrans; [|by apply IH].
  apply guarded_put; [done|]. intros a Ha. apply Hin. revert Ha. pose proof (zlen_nonneg data).
  unfold zlen at 1. rewrite length_replicate, u32_id by (unfold word_ok; lia). lia.
Qed.

(** What [check] found is what it answers for. *)
Lemma check_headers eh_at ph_at f st v :
  let '(rc, hdrs, _, _, _) := check eh_at ph_at f st v in
  match hdrs with
  | Some (eh, ph) => rc = check_loop (e_entry eh) ph false ∧ Forall phdr_words ph
  | None => rc ≠ 0
  end.
Proof.
  unfold check. destruct (read_at f 0 eh_at EHDR_SIZE st v) as [[[[rc data] f1] st1] v1].
  destruct (nonzero rc); [done|]. destruct (negb (ehdr_ok (ehdr_of data))) eqn:E; [done|].
  apply negb_false_iff in E. unfold ehdr_ok in E. rewrite !andb_true_iff, !negb_true_iff in E.
  assert (0 <= e_phnum (ehdr_of data) * PHDR_SIZE ∨ e_phnum (ehdr_of data) * PHDR_SIZE < 0) as [Hn|Hn] by lia.
  - pose proof (read_at_sane f1 (e_phoff (ehdr_of data)) ph_at _ st1 v1 Hn) as H.
    destruct (read_at f1 _ _ _ _ _) as [[[[rc2 data2] f2] st2] v2]. destruct (nonzero rc2); [done|].
    split; [done|]. apply phdrs_words, H.
  - destruct (read_at f1 _ _ _ _ _) as [[[[rc2 data2] f2] st2] v2]. destruct (nonzero rc2); [done|].
    split; [done|]. replace (phdrs_of (e_phnum (ehdr_of data)) data2) with (@nil elf32_phdr); [done|].
    unfold phdrs_of. rewrite seqZ_nil; [done|]. unfold PHDR_SIZE in Hn. lia.
Qed.

Lemma no_entry rc : rc ≠ 0 → (rc = 0 ↔ is_Some (@None Z)) ∧ ∀ e, @None Z = Some e → loadable e.
Proof. intros H. split; [split; [done|by intros [? [=]]]|done]. Qed.

(** C5: a payload cannot overwrite the loader.  Whatever the file says and
    whichever read fails, [payload_load] changes memory by the stores of the
    segments and nothing else; each of them lies inside DDR and outside
    aipc-boot's own 8 MB and the two framebuffers, and each is made when the log
    window is closed; the entry of a load that succeeds lies in that region too. *)
Theorem payload_load_safe eh_at ph_at name (s : pl_st V) :
  let '(rc, entry, s') := payload_load (FIL := FIL) eh_at ph_at name s in
  (∃ tr, pl_stores s' = pl_stores s ++ tr ∧ pl_mem s' = fold_left store_in tr (pl_mem s) ∧ Forall guarded_store tr) ∧
  (∀ a, ¬ loadable a → mget (pl_mem s') a = mget (pl_mem s) a) ∧
  (rc = 0 ↔ is_Some entry) ∧ (∀ e, entry = Some e → loadable e).
Proof.
  assert (∀ s', guarded s s' → guarded s s' ∧ ∀ a, ¬ loadable a → mget (pl_mem s') a = mget (pl_mem s) a) as Hg.
  { intros s' H. split; [done|]. intros a. by apply guarded_frame. }
  assert (∀ st v rc, rc ≠ 0 → (guarded s (pl_card st v s)) ∧
            (∀ a, ¬ loadable a → mget (pl_mem s) a = mget (pl_mem s) a) ∧
            (rc = 0 ↔ is_Some (@None Z)) ∧ ∀ e, @None Z = Some e → loadable e) as Hno.
  { intros st v rc Hrc. split; [by apply guarded_card|]. split; [done|]. by apply no_entry. }
  unfold payload_load. destruct (f_open _ _ _) as [[fr f] v]. destruct (negb _); [by apply Hno|].
  pose proof (check_headers eh_at ph_at f (StorageSt (single_blocks (pl_sto s)) (clmt (pl_sto s)) false) v) as Hc.
  destruct (check _ _ _ _ _) as [[[[rc [[eh ph]|]] f1] st1] v1].
  2: { destruct (f_close f1 v1) as [? v2]. by apply Hno. }
  destruct Hc as [-> Hw]. destruct (nonzero _) eqn:Erc.
  { destruct (f_close f1 v1) as [? v2]. apply nonzero_true in Erc. by apply Hno. }
  apply nonzero_false, check_loop_ok in Erc as [Hok Hent].
  pose proof (load_segments_safe ph f1 (pl_detach (pl_card st1 v1 s)) eq_refl Hok Hw) as Hm.
  destruct (load_segments _ _ _) as [[rc2 f2] s2]. cbn [snd] in Hm.
  destruct (f_close f2 (pl_vol s2)) as [? v3]. destruct (Hg _ Hm) as [H1 H2].
  destruct (nonzero rc2); [split; [done|split; [done|by apply no_entry]]|].
  split_and!; auto; [by split; [eexists|]|]. intros e [= <-]. destruct Hent as [|(p & Hp & Hs & Hr & He)]; [done|].
  rewrite list.Forall_forall in Hw. destruct (Hw p Hp) as (Hw1 & Hw2 & Hw3).
  eapply range_ok_loadable; [exact Hw1|exact Hw3|exact Hr|]. unfold u32, word_ok in *. zlia.
Qed.
End safe.

(** ** What a load puts in memory *)

(** The segments of a file, placed in order: the bytes of the file, then zeros. *)
Definition segment_bytes (bytes : list Z) (p : elf32_phdr) : list Z :=
  take (Z.to_nat (p_filesz p)) (drop (Z.to_nat (p_offset p)) bytes) ++ replicate (Z.to_nat (p_memsz p - p_filesz p)) 0.
Definition place (bytes : list Z) (m : mem) (p : elf32_phdr) : mem :=
  if skipped_phdr p then m else mset_list m (p_paddr p) (segment_bytes bytes p).

(** The headers of a file. *)
Definition file_ehdr (bytes : list Z) : elf32_ehdr := ehdr_of (take (Z.to_nat EHDR_SIZE) bytes).
Definition file_phdrs (bytes : list Z) : list elf32_phdr :=
  let eh := file_ehdr bytes in
  phdrs_of (e_phnum eh) (take (Z.to_nat (e_phnum eh * PHDR_SIZE)) (drop (Z.to_nat (e_phoff eh)) bytes)).

(** The headers and the segments are inside the file. *)
Definition elf_inside (bytes : list Z) : Prop :=
  EHDR_SIZE <= zlen bytes ∧ e_phoff (file_ehdr bytes) + e_phnum (file_ehdr bytes) * PHDR_SIZE <= zlen bytes ∧
  Forall (λ p, p_offset p + p_filesz p <= zlen bytes) (file_phdrs bytes).

Section content.
Context {V FIL : Type} `{!Card V, !Volume V FIL, !VolumeLaws V FIL, !ReadLaws V FIL, !LoadLaws V FIL}.

Lemma read_at_content f off al len st v :
  map_ok f st v → 0 < len → 0 <= off → off + len <= zlen (fil_bytes f) →
  let '(rc, data, f', st', v') := read_at f off al len st v in
  map_ok f' st' v' ∧ fil_bytes f' = fil_bytes f ∧ (rc = 0 ∨ rc = STORAGE_EIO) ∧
  (rc = 0 → data = take (Z.to_nat len) (drop (Z.to_nat off) (fil_bytes f))).
Proof.
  intros Hmap Hl Ho Hlen. unfold read_at. destruct (f_lseek f off v) as [[fr f1] v1] eqn:Hs.
  destruct (size_law f (proj1 Hmap)) as [_ Hsz]. assert (0 <= off < 4294967295) as Hoff by lia.
  destruct (lseek_law _ _ _ _ _ _ (proj1 Hmap) Hoff Hs) as (Hc & Hg & Hb & Ht). rewrite Z.min_l in Ht by lia.
  assert (map_ok f1 st v1) as Hmap1 by (by eapply map_ok_same).
  destruct (fr =? FR_OK) eqn:E; cbn [negb]; [|split_and!; auto; done]. apply Z.eqb_eq in E. specialize (Ht E). subst off.
  pose proof (storage_read_ok f1 al len st v1 Hmap1 ltac:(lia) Ho ltac:(by rewrite Hb)) as H.
  destruct (storage_read f1 al len st v1) as [[[[rc data] f2] st2] v2]. rewrite Hb in H.
  destruct H as (H1 & H2 & H3 & H4). split_and!; [done|done|done|]. intros Hz. by apply H4.
Qed.

Lemma field_nonneg l off n : Forall byte_ok l → 0 <= field l off n.
Proof. intros Hl. unfold field. apply le_join_bound. by apply Forall_take, Forall_drop. Qed.

Lemma load_segments_content ph f (s : pl_st V) :
  map_ok f (pl_sto s) (pl_vol s) → Forall phdr_words ph →
  Forall (λ p, 0 <= p_offset p ∧ p_offset p + p_filesz p <= zlen (fil_bytes f)) ph → Forall phdr_ok ph →
  let '(rc, _, s') := load_segments ph f s in
  (rc = 0 ∨ rc = STORAGE_EIO) ∧ (rc = 0 → pl_mem s' = fold_left (place (fil_bytes f)) ph (pl_mem s)).
Proof.
  intros Hmap Hw Hin Hok. revert f s Hmap Hin.
  induction ph as [|p ph IH]; intros f s Hmap Hin; cbn [load_segments fold_left]; [by split; [left|]|].
  apply list.Forall_cons in Hw as [(Hw1 & Hw2 & Hw3) Hw], Hin as [[Hi1 Hi2] Hin], Hok as [Hp Hok].
  specialize (IH Hw Hok). unfold place at 2. destruct (skipped_phdr p) eqn:Es; [by apply IH|].
  destruct Hp as [Hp|[Hf _]]; [congruence|].
  set (r := if nonzero (p_filesz p) then _ else _).
  assert (let '(rc, data, f', st', v') := r in
          map_ok f' st' v' ∧ fil_bytes f' = fil_bytes f ∧ (rc = 0 ∨ rc = STORAGE_EIO) ∧
          (rc = 0 → data = take (Z.to_nat (p_filesz p)) (drop (Z.to_nat (p_offset p)) (fil_bytes f)))) as Hr.
  { unfold r, word_ok in *. destruct (nonzero (p_filesz p)) eqn:En.
    - apply nonzero_true in En. apply read_at_content; (done || lia).
    - apply nonzero_false in En as ->. split_and!; auto. }
  destruct r as [[[[rc data] f1] st1] v1]. destruct Hr as (Hr1 & Hr2 & Hr3 & Hr4).
  destruct (nonzero rc) eqn:Erc; [by split; [right|]|].
  apply nonzero_false in Erc. rewrite (Hr4 Erc).
  set (s1 := pl_put _ _ (pl_put _ _ _)). specialize (IH f1 s1 Hr1 ltac:(by rewrite Hr2)).
  destruct (load_segments _ _ _) as [[rc2 f2] s2]. destruct IH as [IH1 IH2]. split; [done|].
  intros Hz. rewrite (IH2 Hz), Hr2. f_equal. unfold segment_bytes. rewrite mset_list_app. unfold word_ok in *.
  cbn [s1 pl_put pl_mem pl_card]. rewrite u32_id by (unfold word_ok; lia). f_equal. f_equal.
  unfold zlen. rewrite length_take, length_drop. unfold zlen in Hi2. lia.
Qed.

Lemma check_content eh_at ph_at f st v :
  map_ok f st v → Forall byte_ok (fil_bytes f) → elf_inside (fil_bytes f) →
  let '(rc, hdrs, f', st', v') := check eh_at ph_at f st v in
  let eh := file_ehdr (fil_bytes f) in
  let ph := file_phdrs (fil_bytes f) in
  map_ok f' st' v' ∧ fil_bytes f' = fil_bytes f ∧
  match hdrs with
  | Some h => h = (eh, ph) ∧ ehdr_ok eh = true ∧ rc = check_loop (e_entry eh) ph false
  | None => rc = STORAGE_EIO ∨ (rc = PAYLOAD_ENOTELF ∧ ehdr_ok eh = false)
  end.
Proof.
  intros Hmap Hb (Hi1 & Hi2 & _). unfold check.
  pose proof (read_at_content f 0 eh_at EHDR_SIZE st v Hmap ltac:(done) ltac:(done) ltac:(unfold EHDR_SIZE in *; lia)) as H.
  destruct (read_at f 0 eh_at EHDR_SIZE st v) as [[[[rc data] f1] st1] v1]. destruct H as (H1 & H2 & H3 & H4).
  destruct (nonzero rc) eqn:Erc; [by split_and!; auto|]. apply nonzero_false in Erc. rewrite (H4 Erc), drop_0.
  fold (file_ehdr (fil_bytes f)). set (eh := file_ehdr (fil_bytes f)) in *.
  destruct (negb (ehdr_ok eh)) eqn:E; [apply negb_true_iff in E; by split_and!; auto|]. apply negb_false_iff in E.
  assert (0 <= e_phoff eh) as Hp1 by (by apply field_nonneg, Forall_take).
  assert (0 < e_phnum eh) as Hp2.
  { assert (0 <= e_phnum eh) by (by apply field_nonneg, Forall_take).
    unfold ehdr_ok in E. rewrite !andb_true_iff, !negb_true_iff in E. lia. }
  pose proof (read_at_content f1 (e_phoff eh) ph_at (e_phnum eh * PHDR_SIZE) st1 v1 H1 ltac:(unfold PHDR_SIZE; lia) Hp1
    ltac:(rewrite H2; lia)) as H.
  destruct (read_at f1 _ _ _ _ _) as [[[[rc2 data2] f2] st2] v2]. destruct H as (G1 & G2 & G3 & G4).
  destruct (nonzero rc2) eqn:Erc2; [split_and!; [done|congruence|by left]|].
  apply nonzero_false in Erc2. rewrite (G4 Erc2), H2. split_and!; try done. congruence.
Qed.

Lemma file_phdrs_fields bytes : Forall byte_ok bytes → elf_inside bytes →
  Forall phdr_words (file_phdrs bytes) ∧
  Forall (λ p, 0 <= p_offset p ∧ p_offset p + p_filesz p <= zlen bytes) (file_phdrs bytes).
Proof.
  intros Hb (_ & _ & Hi). split; [by apply phdrs_words, Forall_take, Forall_drop|].
  rewrite list.Forall_forall in Hi. apply list.Forall_forall. intros p Hp. split; [|by apply Hi].
  unfold file_phdrs, phdrs_of in Hp. apply list_elem_of_fmap in Hp as (i & -> & _). apply field_nonneg.
  by apply Forall_drop, Forall_take, Forall_drop.
Qed.

(** C6: [payload_load] places the segments of the file.  For a file whose headers
    and segments lie inside it, success means that the header and every
    loadable segment passed the checks, and memory is the old memory with the
    segments placed in file order, each followed by its zeros; a refusal is
    exactly the failed check; and every result before the first segment leaves
    memory as it was. *)
Theorem payload_load_image eh_at ph_at name bytes (s : pl_st V) :
  files (pl_vol s) (payload_path name) = Some bytes → Forall byte_ok bytes → elf_inside bytes →
  let eh := file_ehdr bytes in
  let ph := file_phdrs bytes in
  let '(rc, entry, s') := payload_load (FIL := FIL) eh_at ph_at name s in
  (rc = 0 → ehdr_ok eh = true ∧ check_loop (e_entry eh) ph false = 0 ∧ entry = Some (e_entry eh) ∧
            pl_mem s' = fold_left (place bytes) ph (pl_mem s)) ∧
  (rc = PAYLOAD_ENOTELF → ehdr_ok eh = false) ∧
  (rc = PAYLOAD_ERANGE → ehdr_ok eh = true ∧ check_loop (e_entry eh) ph false = PAYLOAD_ERANGE) ∧
  (rc ≠ 0 → rc ≠ STORAGE_EIO → pl_mem s' = pl_mem s) ∧
  (rc = 0 ∨ rc = STORAGE_EIO ∨ rc = STORAGE_ENOTFOUND ∨ rc = PAYLOAD_ENOTELF ∨ rc = PAYLOAD_ERANGE).
Proof.
  intros Hfile Hb Hin eh ph. unfold payload_load. destruct (f_open _ _ _) as [[fr f] v] eqn:Ho.
  destruct (open_read_law _ _ _ _ _ Ho) as (_ & Hok & _).
  destruct (fr =? FR_OK) eqn:Efr; cbn [negb]; [|split_and!; try done; auto]. apply Z.eqb_eq in Efr.
  destruct (Hok Efr) as (Hg & Hf & Ht). rewrite Hfile in Hf. injection Hf as ->.
  destruct (file_phdrs_fields _ Hb Hin) as [Hw Hi].
  pose proof (check_content eh_at ph_at f (StorageSt (single_blocks (pl_sto s)) (clmt (pl_sto s)) false) v
    ltac:(by split) Hb Hin) as Hc.
  destruct (check _ _ _ _ _) as [[[[rc hdrs] f1] st1] v1]. destruct Hc as (Hmap & Hb1 & Hc).
  destruct hdrs as [h|].
  2: { destruct (f_close f1 v1) as [? v2].
       destruct Hc as [->|[-> Hc]]; (split_and!; [discriminate|..]; [discriminate || done|discriminate|done|auto]). }
  destruct Hc as (-> & He & ->). subst eh ph. destruct (nonzero _) eqn:Erc.
  { destruct (f_close f1 v1) as [? v2]. apply nonzero_true in Erc.
    assert (∀ e l ok, check_loop e l ok = 0 ∨ check_loop e l ok = PAYLOAD_ERANGE) as Hcl.
    { intros e l. induction l as [|p l IH]; intros ok; cbn [check_loop]; [destruct ok; auto|].
      destruct (skipped_phdr p); [apply IH|]. destruct (_ || _); [auto|apply IH]. }
    destruct (Hcl (e_entry (file_ehdr (fil_bytes f))) (file_phdrs (fil_bytes f)) false) as [H|H]; [by rewrite H in Erc|].
    rewrite H. split_and!; try done; auto. }
  apply nonzero_false in Erc. pose proof (check_loop_ok _ _ _ Erc) as [Hpok _].
  pose proof (load_segments_content (file_phdrs (fil_bytes f)) f1 (pl_detach (pl_card st1 v1 s)) Hmap Hw
    ltac:(by rewrite Hb1) Hpok) as Hl.
  destruct (load_segments _ _ _) as [[rc2 f2] s2]. destruct Hl as [Hl1 Hl2].
  destruct (f_close f2 (pl_vol s2)) as [? v3]. destruct (nonzero rc2) eqn:E2.
  - split_and!; try done; auto.
  - apply nonzero_false in E2. rewrite Hb1 in Hl2. split_and!; try done; auto.
Qed.
End content.

(** ** The list *)

Definition name_le (a b : list Z) : Prop := name_after a b = false.

Lemma name_le_total a b : name_after a b = true → name_le b a.
Proof.
  unfold name_le. revert b. induction a as [|x a IH]; intros [|y b]; cbn [name_after]; try done.
  rewrite (Z.eqb_sym y x). destruct (x =? y); [apply IH|]. lia.
Qed.
#[local] Instance name_le_trans : Transitive name_le.
Proof.
  unfold name_le. intros a. induction a as [|x a IH]; intros [|y b] [|z c]; cbn [name_after]; try done.
  destruct (x =? y) eqn:E1, (y =? z) eqn:E2; intros H1 H2.
  - apply Z.eqb_eq in E1 as ->, E2 as ->. rewrite Z.eqb_refl. by eapply IH.
  - apply Z.eqb_eq in E1 as ->. by rewrite E2.
  - apply Z.eqb_eq in E2 as ->. by rewrite E1.
  - replace (x =? z) with false by lia. lia.
Qed.

Lemma insert_down_perm n l : insert_down n l ≡ₚ n :: l.
Proof. induction l as [|k l IH]; cbn [insert_down]; [done|]. destruct (name_after k n); [|done]. rewrite IH. apply perm_swap. Qed.
Lemma insert_down_sorted n l : StronglySorted (flip name_le) l → StronglySorted (flip name_le) (insert_down n l).
Proof.
  induction 1 as [|k l Hs IH Hk]; cbn [insert_down]; [repeat constructor|].
  destruct (name_after k n) eqn:E.
  - constructor; [done|]. rewrite insert_down_perm. constructor; [by apply name_le_total|done].
  - constructor; [by constructor|]. constructor; [done|].
    eapply list.Forall_impl; [exact Hk|]. intros x Hx. unfold flip in *. by transitivity k.
Qed.

(** [StronglySorted] from the other end. *)
Lemma sorted_snoc {A} (R : A → A → Prop) l x : StronglySorted R l → Forall (λ y, R y x) l → StronglySorted R (l ++ [x]).
Proof.
  induction 1 as [|y l Hs IH Hy]; intros HF; cbn [app]; [repeat constructor|].
  apply list.Forall_cons in HF as [H1 H2]. constructor; [by apply IH|]. apply list.Forall_app. by split; [|constructor].
Qed.
Lemma sorted_rev {A} (R : A → A → Prop) l : StronglySorted (flip R) l → StronglySorted R (rev l).
Proof.
  induction 1 as [|y l Hs IH Hy]; cbn [rev]; [constructor|]. apply sorted_snoc; [done|]. by apply Forall_rev.
Qed.
Lemma insert_name_perm n l : insert_name n l ≡ₚ n :: l.
Proof. unfold insert_name. rewrite <-Permutation_rev, insert_down_perm. by rewrite <-Permutation_rev. Qed.
Lemma insert_name_sorted n l : StronglySorted name_le l → StronglySorted name_le (insert_name n l).
Proof.
  intros Hl. unfold insert_name. by apply sorted_rev, insert_down_sorted, sorted_rev.
Qed.

Section list_.
Context {V DIR : Type} (f_opendir : list Z → V → Z * DIR * V) (f_readdir : DIR → V → Z * (list Z * Z) * DIR * V)
  (f_closedir : DIR → V → Z * V).

(** [f_readdir] answers the entries [l], then an error or the empty name. *)
Inductive dir_reads : DIR → V → list (list Z * Z) → Prop :=
  | dir_end d v fr e d' v' : f_readdir d v = (fr, e, d', v') → fr ≠ FR_OK ∨ fst e = [] → dir_reads d v []
  | dir_entry d v e d' v' l :
      f_readdir d v = (FR_OK, e, d', v') → fst e ≠ [] → dir_reads d' v' l → dir_reads d v (e :: l).

(** The entries that count, in the order of the directory. *)
Definition payloads_of (l : list (list Z * Z)) : list (list Z) :=
  map fst (List.filter (λ e, negb (skipped_name (fst e) (snd e))) l).

Lemma list_loop_spec fuel d v l names :
  dir_reads d v l → (length l < fuel)%nat → StronglySorted name_le names → zlen names <= PAYLOAD_MAX →
  let '(names', _, _) := list_loop f_readdir fuel d names v in
  StronglySorted name_le names' ∧ names' ≡ₚ names ++ take (Z.to_nat (PAYLOAD_MAX - zlen names)) (payloads_of l).
Proof.
  intros Hr. revert fuel names. induction Hr as [d v fr e d' v' Hr He|d v e d' v' l Hr He Hl IH];
    intros [|fuel] names Hf Hs Hn; [cbn in Hf; lia| |cbn in Hf; lia|]; cbn [list_loop].
  - change (payloads_of []) with (@nil (list Z)). rewrite take_nil, app_nil_r.
    destruct (zlen names <? PAYLOAD_MAX); [|done].
    rewrite Hr. destruct e as [fname fattrib]. replace ((fr =? FR_OK) && _) with false; [done|].
    destruct He as [He|He]; [by rewrite (proj2 (Z.eqb_neq _ _) He)|]. cbn in He. subst. by rewrite andb_false_r.
  - destruct (zlen names <? PAYLOAD_MAX) eqn:E.
    2: { replace (PAYLOAD_MAX - zlen names) with 0 by lia. cbn. by rewrite app_nil_r. }
    rewrite Hr. destruct e as [fname fattrib]. cbn [fst] in He. cbn [FR_OK Z.eqb andb].
    rewrite nonzero_intro by (destruct fname; [done|rewrite zlen_cons; pose proof (zlen_nonneg fname); lia]).
    unfold payloads_of. cbn [List.filter fst snd]. destruct (skipped_name fname fattrib) eqn:Es; cbn [negb].
    + apply IH; [cbn in Hf; lia|done|done].
    + assert (zlen (insert_name fname names) = 1 + zlen names) as Hz.
      { unfold zlen. rewrite (Permutation_length (insert_name_perm fname names)). cbn. lia. }
      specialize (IH fuel (insert_name fname names) ltac:(cbn in Hf; lia) ltac:(by apply insert_name_sorted) ltac:(lia)).
      destruct (list_loop _ _ _ _ _) as [[names' d''] v'']. destruct IH as [H1 H2]. split; [done|]. rewrite H2, Hz, insert_name_perm.
      cbn [map]. replace (Z.to_nat (PAYLOAD_MAX - zlen names)) with (S (Z.to_nat (PAYLOAD_MAX - (1 + zlen names)))) by lia.
      cbn [take app fst]. by rewrite Permutation_middle.
Qed.

(** [payload_list] is the sorted list of the first 16 payloads.  Once the
    fuel exceeds the number of directory entries, the names are in the order of
    [strcmp] and are, as a multiset, the first 16 entries of the directory that are
    plain visible files with a name of less than 64 bytes. *)
Theorem payload_list_sorted fuel v fr d v1 l :
  f_opendir PAYLOAD_DIR v = (fr, d, v1) → dir_reads d v1 l → (length l < fuel)%nat →
  let names := fst (payload_list f_opendir f_readdir f_closedir fuel v) in
  if fr =? FR_OK
  then StronglySorted name_le names ∧ names ≡ₚ take (Z.to_nat PAYLOAD_MAX) (payloads_of l)
  else names = [].
Proof.
  intros Ho Hr Hf. unfold payload_list. rewrite Ho. destruct (fr =? FR_OK); [|done]. cbn [negb].
  pose proof (list_loop_spec fuel d v1 l [] Hr Hf ltac:(constructor) ltac:(done)) as H.
  destruct (list_loop _ _ _ _ _) as [[names d2] v2]. by destruct (f_closedir d2 v2).
Qed.
End list_.

(** ** Examples *)


(** ** A card with one payload

    Four bytes of code at [0x30008000], followed by four bytes of zeros. *)
Definition elf_bytes : list Z :=
  elf_magic ++ replicate 10 0 ++ le_split 2 2 ++ le_split 2 40 ++ le_split 4 1 ++ le_split 4 0x30008000 ++ le_split 4 52 ++
  le_split 4 0 ++ le_split 4 0 ++ le_split 2 52 ++ le_split 2 32 ++ le_split 2 1 ++ replicate 6 0 ++
  le_split 4 1 ++ le_split 4 84 ++ le_split 4 0 ++ le_split 4 0x30008000 ++ le_split 4 4 ++ le_split 4 8 ++ replicate 8 0 ++
  [0x1E; 0xFF; 0x2F; 0xE1].

Variant elf_card := ElfCard.

#[export] Instance elf_card_card : Card elf_card := {|
  sd_init v := (0, v);
  sd_high_speed v := (0, v);
  sd_read_block lba v := (-1, [], v);
  sd_write_block lba l v := (-1, v);
  sd_read_blocks lba n v := (-1, [], v);
|}.
(** A file object is its position. *)
#[export] Instance elf_card_volume : Volume elf_card Z := {|
  f_open p m v := if bool_decide (p = payload_path (bytes_of "a")) then (FR_OK, 0, v) else (FR_NO_FILE, 0, v);
  f_close f v := (1, v);
  f_read f n v := let l := take (Z.to_nat n) (drop (Z.to_nat f) elf_bytes) in (FR_OK, l, f + zlen l, v);
  f_write f l v := (1, 0, f, v);
  f_lseek f n v := (FR_OK, Z.min n (zlen elf_bytes), v);
  f_linkmap f n v := (17, [], f, v);
  f_unlink p v := (1, v);
  f_rename p q v := (1, v);
  f_tell f := f;
  f_size f := zlen elf_bytes;
  fs_csize v := 1;
  fs_database v := 0;
|}.
#[export, refine] Instance elf_volume_laws : VolumeLaws elf_card Z := {|
  files v p := if bool_decide (p = payload_path (bytes_of "a")) then Some elf_bytes else None;
  fil_path _ := payload_path (bytes_of "a");
  fil_data _ := [];
  apart p q := p ≠ q;
|}.
Proof.
  - done.
  - intros p v fr f v' H. split; [by destruct v, v'|]. intros ->. cbn in H. case_bool_decide; [|done]. by subst.
  - intros f l v fr put f' v' H. cbn in H. inversion H; subst. by try split_and!.
  - intros f v fr v' H. cbn in H. inversion H; subst. by try split_and!.
  - intros p v fr v' H. cbn in H. inversion H; subst. split_and!; try done. by left.
  - intros p q v fr v' _ H. cbn in H. inversion H; subst. split_and!; try done. left. split; [done|by left].
Defined.
#[export, refine] Instance elf_read_laws : ReadLaws elf_card Z := {|
  reading _ := True;
  fil_bytes _ := elf_bytes;
  sector_data _ _ := [];
  file_sector _ _ := False;
|}.
Proof.
  - intros f _. by split; [|vm_compute].
  - intros f n v fr l f' v' _ H. cbn in H. inversion H; subst. by split_and!.
  - intros f n v fr f' v' _ Hn H. cbn in H. inversion H; subst. by split_and!.
  - intros f n v fr t f' v' _ H. cbn in H. inversion H; subst. by split_and!.
  - intros lba n v rc l v' H. cbn in H. inversion H; subst. by split_and!.
  - intros v rc v' H. cbn in H. inversion H; subst. by split_and!.
  - intros v rc v' H. cbn in H. inversion H; subst. by split_and!.
Defined.
#[export] Instance elf_load_laws : LoadLaws elf_card Z.
Proof.
  constructor. intros p v fr f v' H. cbn in H |- *. case_bool_decide; inversion H; subst; split_and!; try done; by intros [?|?].
Qed.
#[export, refine] Instance elf_sane : SaneReads elf_card Z := {}.
Proof.
  - intros f n v fr l f' v' H. cbn in H. inversion H; subst. split; [unfold zlen; rewrite length_take; lia|].
    by apply Forall_take, Forall_drop, bytes_okb_spec.
  - by intros lba n v l v' [=].
Defined.

Definition elf_start : pl_st elf_card := PlSt ∅ (StorageSt false [] false) (LogSt 0x301B0000 0x301C0000) ElfCard [].

Theorem payload_load_safe_witness :
  let '(rc, entry, s') := payload_load (FIL := Z) 4 8 (bytes_of "a") elf_start in
  (∃ tr, pl_stores s' = [] ++ tr ∧ pl_mem s' = fold_left store_in tr ∅ ∧ Forall guarded_store tr) ∧
  (∀ a, ¬ loadable a → mget (pl_mem s') a = mget ∅ a) ∧
  (rc = 0 ↔ is_Some entry) ∧ (∀ e, entry = Some e → loadable e).
Proof. exact (payload_load_safe (FIL := Z) 4 8 (bytes_of "a") elf_start). Defined.

Theorem payload_load_image_witness :
  let eh := file_ehdr elf_bytes in
  let ph := file_phdrs elf_bytes in
  fst (payload_load (FIL := Z) 4 8 (bytes_of "a") elf_start) = (0, Some 0x30008000) ∧
  let '(rc, entry, s') := payload_load (FIL := Z) 4 8 (bytes_of "a") elf_start in
  (rc = 0 → ehdr_ok eh = true ∧ check_loop (e_entry eh) ph false = 0 ∧ entry = Some (e_entry eh) ∧
            pl_mem s' = fold_left (place elf_bytes) ph ∅) ∧
  (rc = PAYLOAD_ENOTELF → ehdr_ok eh = false) ∧
  (rc = PAYLOAD_ERANGE → ehdr_ok eh = true ∧ check_loop (e_entry eh) ph false = PAYLOAD_ERANGE) ∧
  (rc ≠ 0 → rc ≠ STORAGE_EIO → pl_mem s' = ∅) ∧
  (rc = 0 ∨ rc = STORAGE_EIO ∨ rc = STORAGE_ENOTFOUND ∨ rc = PAYLOAD_ENOTELF ∨ rc = PAYLOAD_ERANGE).
Proof.
  split; [by vm_compute|].
  refine (payload_load_image (FIL := Z) 4 8 (bytes_of "a") elf_bytes elf_start _ _ _);
    [by vm_compute|by apply bytes_okb_spec|].
  split_and!; [by vm_compute|by vm_compute|]. by apply (list.Forall_cons _ _ _); split; [vm_compute|constructor].
Defined.

(** A directory in memory: its entries are what is left to read. *)
Theorem payload_list_sorted_witness :
  let readdir (d : list (list Z * Z)) (v : unit) := match d with [] => (0, ([], 0), d, v) | e :: d' => (0, e, d', v) end in
  let names := fst (payload_list (λ _ v, (0, [(bytes_of "b", 32); (bytes_of ".x", 32); (bytes_of "d", 16); (bytes_of "a", 0)], v))
                      readdir (λ _ v, (0, v)) 5 tt) in
  StronglySorted name_le names ∧
  names ≡ₚ take (Z.to_nat PAYLOAD_MAX)
             (payloads_of [(bytes_of "b", 32); (bytes_of ".x", 32); (bytes_of "d", 16); (bytes_of "a", 0)]).
Proof.
  refine (payload_list_sorted
    (λ _ v, (0, [(bytes_of "b", 32); (bytes_of ".x", 32); (bytes_of "d", 16); (bytes_of "a", 0)], v))
    (λ (d : list (list Z * Z)) (v : unit), match d with [] => (0, ([], 0), d, v) | e :: d' => (0, e, d', v) end)
    (λ _ v, (0, v)) 5 tt 0 _ tt _ eq_refl _ _); [|cbn; lia].
  do 4 (eapply dir_entry; [reflexivity|done|]). eapply dir_end; [reflexivity|by right].
Defined.
