(* ===== verification/Mmu.v ===== *)
(** * Mmu: the section table ([src/baremetal/lib/mmu.c]) and the map of aipc-boot ([src/baremetal/aipc-boot/main.c])

    The first-level table of the ARM926 is a list of 4096 words, one for each
    megabyte.  [mmu_start] hands it to an assembly function and is not modelled;
    what the hardware makes of an entry is [translate]. *)
From S2P Require Import Prelude Machine Log Payload.

#[local] Existing Instance aipc_boot_log.

Definition L1_ENTRIES : Z := 4096.
Definition SECTION_SHIFT : Z := 20.
Definition SECTION_MASK : Z := 0xFFF00000.
Definition MMU_SECTION_SIZE : Z := 0x00100000.
Definition MMU_DEVICE : Z := 0x00000C12.
Definition MMU_BUFFERED : Z := MMU_DEVICE .| 0x00000004.
Definition MMU_CACHED : Z := MMU_BUFFERED .| 0x00000008.

(** [for (i = 0; i < L1_ENTRIES; i++) l1_table[i] = 0] *)
Fixpoint reset_loop (n : nat) (i : Z) (t : list Z) : list Z :=
  match n with O => t | S n' => reset_loop n' (i + 1) (zset t i 0) end.
Definition mmu_reset (t : list Z) : list Z := reset_loop (Z.to_nat L1_ENTRIES) 0 t.

(** The iterations from [i] on; [n] bounds them. *)
Fixpoint map_loop (n : nat) (first count flags i : Z) (t : list Z) : list Z :=
  match n with
  | O => t
  | S n' =>
      if (i <? count) && (u32 (first + i) <? L1_ENTRIES) then
        let addr := u32 (u32 (first + i) .<< SECTION_SHIFT) in
        map_loop n' first count flags (i + 1) (zset t (u32 (first + i)) ((addr .& SECTION_MASK) .| flags))
      else t
  end.
Definition mmu_map (base size flags : Z) (t : list Z) : list Z :=
  let first := base .>> SECTION_SHIFT in
  let count := u32 (size + MMU_SECTION_SIZE - 1) / MMU_SECTION_SIZE in
  let count := if count =? 0 then 1 else count in
  map_loop (Z.to_nat L1_ENTRIES) first count flags 0 t.

(** ** The map of aipc-boot *)

Definition DDR_SIZE : Z := 0x04000000.
Definition SYSCTRL_BASE : Z := 0x08000000.
Definition PERIPH_BASE : Z := 0x20000000.
Definition L2_BUF_BASE : Z := 0x48000000.

Definition map_memory (t : list Z) : list Z :=
  let t := mmu_reset t in
  let t := mmu_map DDR_BASE DDR_SIZE MMU_CACHED t in
  let t := mmu_map FB_ADDR MMU_SECTION_SIZE MMU_DEVICE t in
  let t := mmu_map FB_BACK_ADDR MMU_SECTION_SIZE MMU_DEVICE t in
  let t := mmu_map LOG_BASE MMU_SECTION_SIZE MMU_BUFFERED t in
  let t := mmu_map SYSCTRL_BASE MMU_SECTION_SIZE MMU_DEVICE t in
  let t := mmu_map PERIPH_BASE MMU_SECTION_SIZE MMU_DEVICE t in
  mmu_map L2_BUF_BASE MMU_SECTION_SIZE MMU_DEVICE t.

(** ** The table after a call *)

Lemma zset_length (t : list Z) i v : length (zset t i v) = length t.
Proof. apply length_insert. Qed.
Lemma map_loop_length n first count flags i t : length (map_loop n first count flags i t) = length t.
Proof.
  revert i t. induction n as [|n IH]; intros i t; cbn [map_loop]; [done|]. destruct (_ && _); [|done].
  cbv zeta. by rewrite IH, zset_length.
Qed.
Lemma mmu_map_length base size flags t : length (mmu_map base size flags t) = length t.
Proof. apply map_loop_length. Qed.
Lemma mmu_reset_zero t k : zlen t = L1_ENTRIES → 0 <= k < L1_ENTRIES → length (mmu_reset t) = length t ∧ znth (mmu_reset t) k = 0.
Proof.
  intros Ht Hk. unfold mmu_reset. split.
  - generalize 0, (Z.to_nat L1_ENTRIES). intros i n. clear Ht Hk. revert i t. induction n as [|n IH]; intros i t; [done|].
    cbn [reset_loop]. by rewrite IH, zset_length.
  - assert (∀ n i t, zlen t = L1_ENTRIES → 0 <= i → i + Z.of_nat n = L1_ENTRIES → (k < i → znth t k = 0) → znth (reset_loop n i t) k = 0) as H.
    { clear t Ht. induction n as [|n IH]; intros i t Ht Hi Hn Hz; cbn [reset_loop]; [apply Hz; lia|].
      apply IH; [unfold zlen in *; by rewrite zset_length|lia|lia|]. intros Hlt.
      destruct (decide (k = i)) as [->|Hne]; [apply znth_zset_eq; lia|]. rewrite znth_zset_ne by lia. apply Hz. lia. }
    apply H; [done|lia|done|lia].
Qed.

Lemma section_word k flags : 0 <= k < L1_ENTRIES → (u32 (k .<< SECTION_SHIFT) .& SECTION_MASK) .| flags = (k .<< SECTION_SHIFT) .| flags.
Proof.
  intros Hk. unfold L1_ENTRIES in Hk. f_equal. rewrite u32_id.
  - change SECTION_MASK with ((2 ^ 12 - 1) .<< SECTION_SHIFT). rewrite <-Z.shiftl_land, land_mod by done.
    by rewrite Z.mod_small.
  - unfold word_ok, SECTION_SHIFT. rewrite Z.shiftl_mul_pow2 by done. lia.
Qed.

Lemma map_loop_spec n first count flags i t k :
  zlen t = L1_ENTRIES → 0 <= first → 0 <= i → L1_ENTRIES - first - i <= Z.of_nat n → first + i <= 8192 → 0 <= k < L1_ENTRIES →
  znth (map_loop n first count flags i t) k =
  if (first + i <=? k) && (k <? first + count) then (k .<< SECTION_SHIFT) .| flags else znth t k.
Proof.
  revert i t. unfold L1_ENTRIES. induction n as [|n IH]; intros i t Ht Hf Hi Hn Hs Hk; cbn [map_loop].
  { destruct ((first + i <=? k) && _) eqn:E; [lia|done]. }
  rewrite u32_id by (unfold word_ok; lia). destruct ((i <? count) && (first + i <? L1_ENTRIES)) eqn:E; cbv zeta; unfold L1_ENTRIES in E.
  - rewrite section_word by (unfold L1_ENTRIES; lia). rewrite IH by (unfold zlen in *; rewrite ?zset_length; lia).
    destruct (decide (k = first + i)) as [->|Hne].
    + rewrite znth_zset_eq by lia. replace (first + i <=? first + i) with true by lia. replace (first + i <? first + count) with true by lia.
      cbn [andb]. by destruct (first + (i + 1) <=? first + i).
    + rewrite znth_zset_ne by lia. replace (first + (i + 1) <=? k) with (first + i <=? k) by (apply Bool.eq_true_iff_eq; lia). done.
  - destruct ((first + i <=? k) && (k <? first + count)) eqn:E2; [|done]. lia.
Qed.

(** The sections of a call: those of its base and of its size, rounded up. *)
Definition section_count (size : Z) : Z := Z.max 1 ((size + MMU_SECTION_SIZE - 1) / MMU_SECTION_SIZE).
Lemma mmu_map_spec base size flags t k :
  zlen t = L1_ENTRIES → word_ok base → 0 <= size <= 0xFFF00000 → 0 <= k < L1_ENTRIES →
  znth (mmu_map base size flags t) k =
  if (base / MMU_SECTION_SIZE <=? k) && (k <? base / MMU_SECTION_SIZE + section_count size)
  then (k .<< SECTION_SHIFT) .| flags else znth t k.
Proof.
  intros Ht Hb Hs Hk. unfold mmu_map. unfold SECTION_SHIFT at 1. rewrite Z.shiftr_div_pow2 by done.
  change (2 ^ 20) with MMU_SECTION_SIZE. unfold word_ok in Hb.
  assert (0 <= base / MMU_SECTION_SIZE < 4096) as Hf by (unfold MMU_SECTION_SIZE; zlia).
  rewrite u32_id by (unfold word_ok, MMU_SECTION_SIZE; lia).
  rewrite map_loop_spec by (done || unfold L1_ENTRIES; lia). rewrite Z.add_0_r.
  assert (0 <= (size + MMU_SECTION_SIZE - 1) / MMU_SECTION_SIZE) as H0 by (unfold MMU_SECTION_SIZE; zlia).
  unfold section_count. destruct (_ =? 0) eqn:E; [apply Z.eqb_eq in E; by rewrite E|]. apply Z.eqb_neq in E.
  by rewrite Z.max_r by lia.
Qed.

(** ** What the hardware does with it *)

(** The physical address, cacheable and bufferable; nothing for a fault. *)
Definition translate (t : list Z) (a : Z) : option (Z * bool * bool) :=
  let e := znth t (a .>> SECTION_SHIFT) in
  if (e .& 3) =? 2 then Some ((e .& SECTION_MASK) .| (a .& 0xFFFFF), Z.testbit e 3, Z.testbit e 2) else None.

(** The memory map of the boot menu. *)
Definition in_section (base a : Z) : bool := (base <=? a) && (a <? base + MMU_SECTION_SIZE).
Definition memory_map (a : Z) : option (Z * bool * bool) :=
  if in_section FB_ADDR a || in_section FB_BACK_ADDR a then Some (a, false, false)
  else if in_section 0x30100000 a then Some (a, false, true)
  else if in_ddr a then Some (a, true, true)
  else if in_section SYSCTRL_BASE a || in_section PERIPH_BASE a || in_section L2_BUF_BASE a then Some (a, false, false)
  else None.

Lemma translate_section t a flags :
  word_ok a → znth t (a / MMU_SECTION_SIZE) = ((a / MMU_SECTION_SIZE) .<< SECTION_SHIFT) .| flags →
  0 <= flags < 2 ^ 20 → flags .& 3 = 2 →
  translate t a = Some (a, Z.testbit flags 3, Z.testbit flags 2).
Proof.
  intros Ha He Hf H3. unfold translate. cbv zeta.
  replace (a .>> SECTION_SHIFT) with (a / MMU_SECTION_SIZE) by (unfold SECTION_SHIFT; by rewrite Z.shiftr_div_pow2).
  rewrite He. set (k := a / MMU_SECTION_SIZE). assert (0 <= k < 4096) as Hk by (unfold k, word_ok, MMU_SECTION_SIZE in *; zlia).
  unfold SECTION_SHIFT. rewrite (lor_concat k flags 20) by done. change (2 ^ 20) with 1048576 in *.
  rewrite (land_low _ 2 3) by done. change (2 ^ 2) with 4.
  assert ((k * 1048576 + flags) mod 4 = flags mod 4) as -> by (replace (k * 1048576 + flags) with (flags + k * 262144 * 4) by lia; apply Z.mod_add; done).
  assert (flags mod 4 = 2) as -> by (rewrite <-H3; symmetry; by apply (land_low flags 2 3)). rewrite Z.eqb_refl.
  assert (∀ j, 0 <= j < 20 → Z.testbit (k * 1048576 + flags) j = Z.testbit flags j) as Hbit.
  { intros j Hj. rewrite <-(Z.mod_pow2_bits_low (k * 1048576 + flags) 20), <-(Z.mod_pow2_bits_low flags 20) by lia.
    f_equal. change (2 ^ 20) with 1048576. rewrite Z.add_comm. by rewrite Z.mod_add. }
  rewrite !Hbit by lia. do 3 f_equal. 
  change SECTION_MASK with ((2 ^ 12 - 1) .<< 20). rewrite land_shifted_mask by done. rewrite land_mod by done.
  rewrite Z.shiftr_div_pow2 by done. change (2 ^ 20) with 1048576.
  rewrite Z.div_add_l, (Z.div_small flags), Z.add_0_r, Z.mod_small by lia.
  change (a .& 1048575) with (a .& (2 ^ 20 - 1)). rewrite land_mod by done. change (2 ^ 20) with 1048576.
  rewrite (lor_concat k _ 20) by (done || apply Z.mod_pos_bound; done). change (2 ^ 20) with 1048576.
  unfold k, MMU_SECTION_SIZE. pose proof (Z.div_mod a 1048576). lia.
Qed.

Lemma in_section_div base a :
  base mod MMU_SECTION_SIZE = 0 → in_section base a = (a / MMU_SECTION_SIZE =? base / MMU_SECTION_SIZE).
Proof. intros Hb. unfold in_section, MMU_SECTION_SIZE in *. apply Bool.eq_true_iff_eq. rewrite andb_true_iff, Z.leb_le, Z.ltb_lt, Z.eqb_eq. zlia. Qed.

(** A call for one megabyte changes one entry. *)
Lemma mmu_map_section k base s flags t :
  zlen t = L1_ENTRIES → word_ok base → base / MMU_SECTION_SIZE = s → 0 <= k < L1_ENTRIES →
  zlen (mmu_map base MMU_SECTION_SIZE flags t) = L1_ENTRIES ∧
  znth (mmu_map base MMU_SECTION_SIZE flags t) k = if k =? s then (k .<< SECTION_SHIFT) .| flags else znth t k.
Proof.
  intros Ht Hb Hs Hk. split; [unfold zlen in *; by rewrite mmu_map_length|].
  rewrite mmu_map_spec; [|done|done|unfold MMU_SECTION_SIZE; lia|done].
  rewrite Hs. change (section_count MMU_SECTION_SIZE) with 1.
  replace ((s <=? k) && (k <? s + 1)) with (k =? s); [done|].
  apply Bool.eq_true_iff_eq. rewrite andb_true_iff, Z.leb_le, Z.ltb_lt, Z.eqb_eq. lia.
Qed.
Lemma mmu_map_ddr k t :
  zlen t = L1_ENTRIES → 0 <= k < L1_ENTRIES →
  zlen (mmu_map DDR_BASE DDR_SIZE MMU_CACHED t) = L1_ENTRIES ∧
  znth (mmu_map DDR_BASE DDR_SIZE MMU_CACHED t) k =
  if (0x300 <=? k) && (k <? 0x340) then (k .<< SECTION_SHIFT) .| MMU_CACHED else znth t k.
Proof.
  intros Ht Hk. split; [unfold zlen in *; by rewrite mmu_map_length|].
  rewrite mmu_map_spec; [|done|done|done|done].
  change (DDR_BASE / MMU_SECTION_SIZE) with 0x300. by change (0x300 + section_count DDR_SIZE) with 0x340.
Qed.

Ltac one_section s :=
  match goal with L : zlen ?u = L1_ENTRIES, Hk : _ <= ?k < L1_ENTRIES |- context [mmu_map ?base MMU_SECTION_SIZE ?f ?u] =>
    let L' := fresh in
    destruct (mmu_map_section k base s f u L (conj (proj1 (Z.leb_le 0 base) eq_refl) (proj1 (Z.ltb_lt base (2 ^ 32)) eq_refl)) eq_refl Hk) as [L' <-];
    revert L'; generalize (mmu_map base MMU_SECTION_SIZE f u); clear u L; intros ? ? end.

(** The entry of every section once all calls are made. *)
Lemma map_memory_entry t k :
  zlen t = L1_ENTRIES → 0 <= k < L1_ENTRIES →
  znth (map_memory t) k =
  if k =? 0x480 then (k .<< SECTION_SHIFT) .| MMU_DEVICE else if k =? 0x200 then (k .<< SECTION_SHIFT) .| MMU_DEVICE
  else if k =? 0x080 then (k .<< SECTION_SHIFT) .| MMU_DEVICE else if k =? 0x301 then (k .<< SECTION_SHIFT) .| MMU_BUFFERED
  else if k =? 0x33C then (k .<< SECTION_SHIFT) .| MMU_DEVICE else if k =? 0x33B then (k .<< SECTION_SHIFT) .| MMU_DEVICE
  else if (0x300 <=? k) && (k <? 0x340) then (k .<< SECTION_SHIFT) .| MMU_CACHED else 0.
Proof.
  intros Ht Hk. destruct (mmu_reset_zero t k Ht Hk) as [Hl0 <-]. unfold map_memory. cbv zeta.
  assert (zlen (mmu_reset t) = L1_ENTRIES) as L0 by (unfold zlen in *; by rewrite Hl0).
  revert L0. generalize (mmu_reset t). clear t Ht Hl0. intros t0 L0.
  destruct (mmu_map_ddr k t0 L0 Hk) as [L1 <-]. revert L1. generalize (mmu_map DDR_BASE DDR_SIZE MMU_CACHED t0). clear t0 L0. intros t0 L0.
  one_section 0x33B. one_section 0x33C. one_section 0x301. one_section 0x080. one_section 0x200. by one_section 0x480.
Qed.

(** C30: the menu sees the machine as it is.  Whatever the table held, after
    [map_memory] every address is either a fault or itself: the DDR is cached except
    for both framebuffers and the section of the log, which are uncached, the log
    behind the write buffer; of the rest only the sections of the system registers, of the
    peripherals and of the L2 buffers are mapped, as devices. *)
Theorem map_memory_translates t a :
  zlen t = L1_ENTRIES → word_ok a → translate (map_memory t) a = memory_map a.
Proof.
  intros Ht Ha. set (k := a / MMU_SECTION_SIZE).
  assert (0 <= k < L1_ENTRIES) as Hk by (unfold k, word_ok, MMU_SECTION_SIZE, L1_ENTRIES in *; zlia).
  pose proof (map_memory_entry t k Ht Hk) as He. revert He. generalize (map_memory t). intros tf He. clear t Ht.
  unfold memory_map. rewrite !in_section_div by done. fold k.
  change (in_ddr a) with ((0x30000000 <=? a) && (a <? 0x34000000)).
  assert ((0x30000000 <=? a) && (a <? 0x34000000) = (0x300 <=? k) && (k <? 0x340)) as ->.
  { unfold k, MMU_SECTION_SIZE. apply Bool.eq_true_iff_eq. rewrite !andb_true_iff, !Z.leb_le, !Z.ltb_lt. zlia. }
  change (FB_ADDR / MMU_SECTION_SIZE) with 0x33B. change (FB_BACK_ADDR / MMU_SECTION_SIZE) with 0x33C.
  change (0x30100000 / MMU_SECTION_SIZE) with 0x301. change (SYSCTRL_BASE / MMU_SECTION_SIZE) with 0x080.
  change (PERIPH_BASE / MMU_SECTION_SIZE) with 0x200. change (L2_BUF_BASE / MMU_SECTION_SIZE) with 0x480.
  assert (∀ flags, znth tf k = (k .<< SECTION_SHIFT) .| flags → 0 <= flags < 2 ^ 20 → flags .& 3 = 2 →
    translate tf a = Some (a, Z.testbit flags 3, Z.testbit flags 2)) as Hsec by (intros; by apply translate_section).
  assert (znth tf k = 0 → translate tf a = None) as Hnone.
  { intros H0. unfold translate. cbv zeta. replace (a .>> SECTION_SHIFT) with k; [by rewrite H0|].
    unfold k, SECTION_SHIFT. by rewrite Z.shiftr_div_pow2. }
  clearbody k.
  destruct (k =? 0x480) eqn:E1; [apply Z.eqb_eq in E1; subst k; by apply (Hsec MMU_DEVICE)|].
  destruct (k =? 0x200) eqn:E2; [apply Z.eqb_eq in E2; subst k; by apply (Hsec MMU_DEVICE)|].
  destruct (k =? 0x080) eqn:E3; [apply Z.eqb_eq in E3; subst k; by apply (Hsec MMU_DEVICE)|].
  destruct (k =? 0x301) eqn:E4; [apply Z.eqb_eq in E4; subst k; by apply (Hsec MMU_BUFFERED)|].
  destruct (k =? 0x33C) eqn:E5; [apply Z.eqb_eq in E5; subst k; by apply (Hsec MMU_DEVICE)|].
  destruct (k =? 0x33B) eqn:E6; [apply Z.eqb_eq in E6; subst k; by apply (Hsec MMU_DEVICE)|].
  cbn [orb]. destruct ((0x300 <=? k) && (k <? 0x340)); [by apply (Hsec MMU_CACHED)|by apply Hnone].
Qed.

Theorem map_memory_translates_witness : translate (map_memory (replicate 4096 0)) 0x30208010 = memory_map 0x30208010.
Proof. refine (map_memory_translates (replicate 4096 0) 0x30208010 _ _); [done|unfold word_ok; lia]. Defined.
