(* ===== verification/Pf.v ===== *)
(** * Pf: the patch finder ([src/baremetal/lib/pf.c]) and its driver ([src/baremetal/cfw/core/core.c])

    A patch set is a list of mask patterns with callbacks, applied to a range of
    32-bit words.  The words are a map from word indexes, the callbacks and the
    functions of the components are variables of the sections; [panic] ends a
    computation with its message. *)
From S2P Require Import Prelude.

Definition ARENA_SIZE : Z := 4096.
(** [sizeof(pf_patchset_t)] and [sizeof(struct pf_maskmatch)] of the ARM ABI. *)
Definition PATCHSET_SIZE : Z := 8.
Definition MASKMATCH_SIZE : Z := 24.

(** [pf_patch] and [pf_maskmatch]; the callback is named by a number. *)
Record patch := Patch {
  pf_callback : Z; is_required : bool; has_fired : bool; should_match : bool; pf_name : list Z; pairs : list (Z * Z)
}.
Record pf_range := PfRange { r_va : Z; r_size : Z; r_base : Z }.

(** The words of memory by word index, the current patch set ([patch_head] first,
    and its [is_required]), the arena, [cfw_range], what was printed and the
    statics of the components. *)
Record pf_st (E : Type) := PfSt {
  text : gmap Z Z; patches : list patch; set_required : bool; arena_used : Z;
  cfw_range : option pf_range; printed : list Z; env : E
}.
Arguments PfSt {E} _ _ _ _ _ _ _.
Arguments text {E} _.
Arguments patches {E} _.
Arguments set_required {E} _.
Arguments arena_used {E} _.
Arguments cfw_range {E} _.
Arguments printed {E} _.
Arguments env {E} _.

(** ** Computations that can panic *)

Inductive outcome (S A : Type) := Done (a : A) (s : S) | Panic (message : list Z).
Arguments Done {S A} _ _.
Arguments Panic {S A} _.
Definition PM (S A : Type) : Type := S → outcome S A.
#[export] Instance PM_ret S : MRet (PM S) := λ A a s, Done a s.
#[export] Instance PM_bind S : MBind (PM S) := λ A B k m s, match m s with Done a s' => k a s' | Panic e => Panic e end.
Definition panic {S A} (message : list Z) : PM S A := λ _, Panic message.
Definition reads_st {S A} (f : S → A) : PM S A := λ s, Done (f s) s.
Definition sets_st {S} (f : S → S) : PM S unit := λ s, Done tt (f s).

Section Pf.
Context {E : Type}.
Abbreviation St := (pf_st E).
Abbreviation P := (PM St).

Definition set_text (t : gmap Z Z) (s : St) : St :=
  PfSt t (patches s) (set_required s) (arena_used s) (cfw_range s) (printed s) (env s).
Definition set_patches (l : list patch) (s : St) : St :=
  PfSt (text s) l (set_required s) (arena_used s) (cfw_range s) (printed s) (env s).
Definition set_arena (n : Z) (s : St) : St :=
  PfSt (text s) (patches s) (set_required s) n (cfw_range s) (printed s) (env s).
Definition set_range (r : option pf_range) (s : St) : St :=
  PfSt (text s) (patches s) (set_required s) (arena_used s) r (printed s) (env s).
Definition new_set (s : St) : St :=
  PfSt (text s) [] true (arena_used s) (cfw_range s) (printed s) (env s).
Definition say (l : list Z) : P unit :=
  sets_st (λ s, PfSt (text s) (patches s) (set_required s) (arena_used s) (cfw_range s) (printed s ++ l) (env s)).

Definition wget (t : gmap Z Z) (i : Z) : Z := default 0 (t !! i).

(** [malloc] of core.c; the result is an address in the arena, never NULL. *)
Definition malloc (size : Z) : P unit :=
  used ← reads_st arena_used;
  let size := u32 (size + 7) .& not32 7 in
  if ARENA_SIZE - used <? size then panic (bytes_of "cfw: out of memory")
  else sets_st (set_arena (u32 (used + size))).

Definition pf_patchset_create : P unit := malloc PATCHSET_SIZE;; sets_st new_set.

Definition clear_fired (p : patch) (fired : bool) : patch :=
  Patch (pf_callback p) (is_required p) fired (should_match p) (pf_name p) (pairs p).
Definition with_should_match (p : patch) (b : bool) : patch :=
  Patch (pf_callback p) (is_required p) (has_fired p) b (pf_name p) (pairs p).

Definition pair_matches (w : Z) (pr : Z * Z) : bool := (w .& snd pr) =? fst pr.

(** The words [get 0], [get 1], ... against the pairs. *)
Fixpoint pairs_match (get : Z → Z) (i : Z) (l : list (Z * Z)) : bool :=
  match l with
  | [] => true
  | pr :: l' => if negb (pair_matches (get i) pr) then false else pairs_match get (i + 1) l'
  end.

(** [stream] is the index of the current word. *)
Definition pf_maskmatch_match_32 (p : patch) (preread : list Z) (t : gmap Z Z) (stream : Z) : bool :=
  pairs_match (if zlen (pairs p) <? 8 then znth preread else λ i, wget t (stream + i)) 0 (pairs p).

Fixpoint bad_pair (i : Z) (l : list (Z * Z)) : option Z :=
  match l with
  | [] => None
  | (m, k) :: l' => if negb ((m .& k) =? m) then Some i else bad_pair (i + 1) l'
  end.

(** [zip matches masks] is [l]; the new patch is the head of the list. *)
Definition pf_maskmatch (name : list Z) (l : list (Z * Z)) (required : bool) (callback : Z) : P unit :=
  match bad_pair 0 l with
  | Some i => panic (bytes_of "Bad maskmatch: " ++ name ++ bytes_of " (index " ++ dec_digits i ++ bytes_of ")")
  | None =>
      malloc (u32 (MASKMATCH_SIZE + 8 * zlen l));;
      sets_st (λ s, set_patches (Patch callback required false true name l :: patches s) s)
  end.

(** A patch is named by its position in the list. *)
Definition upd_patch (k : nat) (f : patch → patch) : P unit := sets_st (λ s, set_patches (alter f k (patches s)) s).
Definition pf_disable_patch (k : nat) : P unit := upd_patch k (λ p, with_should_match p false).
Definition pf_enable_patch (k : nat) : P unit := upd_patch k (λ p, with_should_match p true).

(** ** The scan *)

(** [callback c k i]: the callback [c] on patch [k] and the word [i]. *)
Variable callback : Z → nat → Z → P bool.

Definition pf_maskmatch_match (k : nat) (p : patch) (preread : list Z) (stream : Z) : P unit :=
  t ← reads_st text;
  if pf_maskmatch_match_32 p preread t stream then
    b ← callback (pf_callback p) k stream;
    if (b : bool) then upd_patch k (λ p, clear_fired p true) else mret tt
  else mret tt.

(** The patches from position [k] on. *)
Fixpoint match_all (n k : nat) (preread : list Z) (stream : Z) : P unit :=
  match n with
  | O => mret tt
  | S n' =>
      l ← reads_st patches;
      match l !! k with
      | Some p => if should_match (p : patch) then pf_maskmatch_match k p preread stream else mret tt
      | None => mret tt
      end;;
      match_all n' (S k) preread stream
  end.

(** [stream] is the index of the first word of the range. *)
Fixpoint apply_loop (n : nat) (index : Z) (stream : Z) (preread : list Z) : P unit :=
  match n with
  | O => mret tt
  | S n' =>
      l ← reads_st patches;
      match_all (length l) 0 preread (stream + index);;
      t ← reads_st text;
      apply_loop n' (index + 1) stream (drop 1 preread ++ [wget t (stream + index + 8)])
  end.

Definition pf_apply_32 (range : pf_range) : P unit :=
  t ← reads_st text;
  let stream := r_base range / 4 in
  apply_loop (Z.to_nat (r_size range .>> 2)) 0 stream (map (λ i, wget t (stream + i)) (seqZ 0 8)).

Definition missing (l : list patch) : option patch := List.find (λ p, is_required p && negb (has_fired p)) l.

Definition pf_apply (range : pf_range) : P unit :=
  pf_apply_32 range;;
  s ← reads_st (λ s, s);
  if set_required s then
    match missing (patches s) with
    | Some p => panic (bytes_of "Missing patch: " ++ pf_name p)
    | None => mret tt
    end
  else mret tt.

Definition pf_patchset_destroy : P unit := sets_st (set_patches []).

(** [cfw_patch_once] of core.c. *)
Definition cfw_patch_once (k : nat) : P unit :=
  l ← reads_st patches;
  match l !! k with
  | Some p =>
      if has_fired p then panic (pf_name p ++ bytes_of ": Found twice")
      else say (bytes_of "  " ++ pf_name p ++ [10])
  | None => mret tt
  end.

(** ** The stages ([cfw_run] of core.c) *)

Record cfw_patch := CfwPatch { cp_stage : Z; cp_module : list Z; cp_patch : P unit }.
Record component := Component {
  c_id : list Z; c_init : option (P unit); c_finish : option (P unit); c_patches : list cfw_patch
}.

Variable range_of : list Z → P pf_range.

Definition has_stage (c : component) (stage : Z) : bool := existsb (λ p, cp_stage p =? stage) (c_patches c).

Definition call_opt (m : option (P unit)) : P unit := default (mret tt) m.

Fixpoint run_patches (stage : Z) (l : list cfw_patch) : P unit :=
  match l with
  | [] => mret tt
  | p :: l' =>
      (if negb (cp_stage p =? stage) then mret tt
       else
         range ← range_of (cp_module p);
         pf_patchset_create;;
         cp_patch p;;
         sets_st (set_range (Some range));;
         pf_apply range;;
         sets_st (set_range None);;
         pf_patchset_destroy;;
         sets_st (set_arena 0));;
      run_patches stage l'
  end.

Fixpoint run_components (cfw_enable stage i : Z) (cs : list component) : P unit :=
  match cs with
  | [] => mret tt
  | c :: cs' =>
      (if negb (nonzero (cfw_enable .& (1 .<< i))) || negb (has_stage c stage) then mret tt
       else
         say (c_id c ++ [10]);;
         call_opt (c_init c);;
         run_patches stage (c_patches c);;
         call_opt (c_finish c));;
      run_components cfw_enable stage (i + 1) cs'
  end.
Definition cfw_run (cfw_enable stage : Z) (cs : list component) : P unit := run_components cfw_enable stage 0 cs.
End Pf.

(** ** The scan against its specification *)

Section scan.
Context {E : Type} (callback : Z → nat → Z → PM (pf_st E) bool).
Abbreviation St := (pf_st E).

(** Every patch from position [k] on at word [i]; [matches now p] says whether the
    pattern of [p] matches there, [now] being the words at that moment. *)
Fixpoint patches_by (matches : gmap Z Z → patch → bool) (n k : nat) (i : Z) : PM St unit :=
  match n with
  | O => mret tt
  | S n' =>
      s ← reads_st (λ s, s);
      match patches s !! k with
      | Some p =>
          if should_match p && matches (text s) p
          then b ← callback (pf_callback p) k i; if (b : bool) then upd_patch k (λ p, clear_fired p true) else mret tt
          else mret tt
      | None => mret tt
      end;;
      patches_by matches n' (S k) i
  end.

(** What a pattern at word [i] is compared with.  [past j] are the words as they
    were when the scan came to word [j].  The eight words of look-ahead of a short
    pattern are each read when the scan is seven words before them, the first eight
    when it starts; a pattern of 8 pairs or more is compared with the words as they
    are now. *)
Definition read_ahead (base : Z) (past : Z → gmap Z Z) (j : Z) : Z := wget (past (Z.max base (j - 7))) j.
Definition delayed_match (base : Z) (past : Z → gmap Z Z) (i : Z) (now : gmap Z Z) (p : patch) : bool :=
  pairs_match (λ j, if zlen (pairs p) <? 8 then read_ahead base past (i + j) else wget now (i + j)) 0 (pairs p).

(** Every patch at every word of the range, in order. *)
Fixpoint delayed_scan (base : Z) (past : Z → gmap Z Z) (n : nat) (i : Z) : PM St unit :=
  match n with
  | O => mret tt
  | S n' =>
      s ← reads_st (λ s, s);
      let past := λ j, if j =? i then text s else past j in
      patches_by (delayed_match base past i) (length (patches s)) 0 i;;
      delayed_scan base past n' (i + 1)
  end.

Lemma pairs_match_ext get get' i l :
  (∀ j, i <= j < i + zlen l → get j = get' j) → pairs_match get i l = pairs_match get' i l.
Proof.
  revert i. induction l as [|pr l IH]; intros i Hg; cbn [pairs_match]; [done|]. rewrite zlen_cons in Hg.
  pose proof (zlen_nonneg l). rewrite (Hg i) by lia. destruct (negb _); [done|]. apply IH. intros j Hj. apply Hg. lia.
Qed.

(** A window that agrees with [matches] makes the scan of one word [patches_by]. *)
Lemma match_all_by matches preread n k i s :
  (∀ now p, pf_maskmatch_match_32 p preread now i = matches now p) →
  match_all callback n k preread i s = patches_by matches n k i s.
Proof.
  intros Hm. revert k s. induction n as [|n IH]; intros k s; cbn [match_all patches_by]; [done|].
  unfold mbind, PM_bind, reads_st. destruct (patches s !! k) as [p|]; [|apply IH].
  destruct (should_match p); cbn [andb]; [|apply IH]. unfold pf_maskmatch_match, mbind, PM_bind, reads_st. rewrite Hm.
  destruct (matches (text s) p); [|apply IH].
  destruct (callback _ k i s) as [b s1|]; [|done]. destruct b; apply IH.
Qed.

(** The eight words of the window when the scan starts at word [i]. *)
Definition window (orig : gmap Z Z) (i : Z) : list Z := map (λ j, wget orig (i + j)) (seqZ 0 8).
(** A window of eight words [get i], [get (i + 1)], ... *)
Definition window_of (get : Z → Z) (i : Z) : list Z := map (λ j, get (i + j)) (seqZ 0 8).
Lemma window_of_nth get i j : 0 <= j < 8 → znth (window_of get i) j = get (i + j).
Proof.
  intros Hj. unfold window_of. change (seqZ 0 8) with [0; 1; 2; 3; 4; 5; 6; 7].
  assert (j = 0 ∨ j = 1 ∨ j = 2 ∨ j = 3 ∨ j = 4 ∨ j = 5 ∨ j = 6 ∨ j = 7) as Hc by lia.
  by destruct Hc as [->|[->|[->|[->|[->|[->|[->| ->]]]]]]].
Qed.
Lemma window_of_ext get get' i : (∀ j, i <= j < i + 8 → get j = get' j) → window_of get i = window_of get' i.
Proof. intros H. unfold window_of. apply map_ext_in. intros j Hj. rewrite <-list_elem_of_In, elem_of_seqZ in Hj. apply H. lia. Qed.
Lemma window_of_step get i : drop 1 (window_of get i) ++ [get (i + 8)] = window_of get (i + 1).
Proof.
  unfold window_of. change (seqZ 0 8) with [0; 1; 2; 3; 4; 5; 6; 7]. cbn [map drop app].
  by rewrite <-!Z.add_assoc.
Qed.
Lemma window_of_match get now p i :
  pf_maskmatch_match_32 p (window_of get i) now i =
  pairs_match (λ j, if zlen (pairs p) <? 8 then get (i + j) else wget now (i + j)) 0 (pairs p).
Proof.
  unfold pf_maskmatch_match_32. destruct (zlen (pairs p) <? 8) eqn:E1; [|done].
  apply pairs_match_ext. intros j Hj. apply window_of_nth. lia.
Qed.

(** The window before the callbacks of word [i]. *)
Definition past_now (past : Z → gmap Z Z) (i : Z) (s : St) : Z → gmap Z Z := λ j, if j =? i then text s else past j.
Lemma apply_loop_delayed base past n i s :
  base <= i →
  apply_loop callback n (i - base) base (window_of (read_ahead base (past_now past i s)) i) s = delayed_scan base past n i s.
Proof.
  revert past i s. induction n as [|n IH]; intros past i s Hi; cbn [apply_loop delayed_scan]; [done|].
  unfold mbind, PM_bind, reads_st. replace (base + (i - base)) with i by lia. fold (past_now past i s).
  rewrite (match_all_by (delayed_match base (past_now past i s) i)) by (intros; apply window_of_match).
  destruct (patches_by _ _ 0 i s) as [[] s1|]; [|done].
  replace (i - base + 1) with (i + 1 - base) by lia. rewrite <-IH by lia. f_equal.
  rewrite (window_of_ext _ (read_ahead base (past_now (past_now past i s) (i + 1) s1)) i).
  2: { intros j Hj. unfold read_ahead. f_equal. unfold past_now at 2. by rewrite (proj2 (Z.eqb_neq (Z.max base (j - 7)) (i + 1))) by lia. }
  rewrite <-window_of_step. do 2 f_equal. unfold read_ahead. replace (Z.max base (i + 8 - 7)) with (i + 1) by lia.
  unfold past_now at 1. by rewrite Z.eqb_refl.
Qed.

Lemma pf_apply_32_delayed range s :
  pf_apply_32 callback range s =
  delayed_scan (r_base range / 4) (λ _, text s) (Z.to_nat (r_size range .>> 2)) (r_base range / 4) s.
Proof.
  unfold pf_apply_32, mbind, PM_bind, reads_st. cbn zeta. set (base := r_base range / 4).
  rewrite <-apply_loop_delayed, Z.sub_diag by lia. f_equal. apply map_ext. intros j. unfold read_ahead, past_now.
  by destruct (_ =? _).
Qed.

(** C35: the rolling window is an exact matcher, whatever the callbacks write.
    The result of the scan, the panics included, is that of trying every patch at
    every word of the range in order; a pattern of fewer than 8 pairs is compared
    with each word as it was when the scan was seven words before it (before the scan
    for the first eight words), so a callback that writes further ahead is seen and
    one that writes nearer is not; a longer pattern is compared with the words as they
    are.  Then a required patch that never fired ends in a panic. *)
Theorem pf_apply_scans range s :
  pf_apply callback range s =
  match delayed_scan (r_base range / 4) (λ _, text s) (Z.to_nat (r_size range .>> 2)) (r_base range / 4) s with
  | Done _ s' =>
      match (if set_required s' then missing (patches s') else None) with
      | Some p => Panic (bytes_of "Missing patch: " ++ pf_name p)
      | None => Done tt s'
      end
  | Panic e => Panic e
  end.
Proof.
  unfold pf_apply, mbind, PM_bind. rewrite pf_apply_32_delayed.
  destruct (delayed_scan _ _ _ _ s) as [[] s'|]; [|done]. unfold reads_st. destruct (set_required s'); [|done].
  by destruct (missing (patches s')).
Qed.

(** ** Callbacks that write near their match

    When no callback at word [i] changes a word from [i + 8] on, a short pattern is
    compared with the words as they were before the scan. *)
Hypothesis callback_near : ∀ c k i s b s', callback c k i s = Done b s' →
  ∀ j, i + 8 <= j → wget (text s') j = wget (text s) j.

Definition spec_match (orig now : gmap Z Z) (p : patch) (i : Z) : bool :=
  pairs_match (λ j, if zlen (pairs p) <? 8 then wget orig (i + j) else wget now (i + j)) 0 (pairs p).
Abbreviation spec_patches orig n k i := (patches_by (λ now p, spec_match orig now p i) n k i).
Fixpoint spec_scan (orig : gmap Z Z) (n : nat) (i : Z) : PM St unit :=
  match n with
  | O => mret tt
  | S n' => l ← reads_st patches; spec_patches orig (length l) 0 i;; spec_scan orig n' (i + 1)
  end.

Definition ahead_same (orig : gmap Z Z) (i : Z) (s : St) : Prop := ∀ j, i + 8 <= j → wget (text s) j = wget orig j.
Lemma spec_patches_ahead orig n k i s s' :
  ahead_same orig i s → spec_patches orig n k i s = Done tt s' → ahead_same orig i s'.
Proof.
  revert k s. induction n as [|n IH]; intros k s Ha; cbn [patches_by]; [by intros [= <-]|].
  unfold mbind, PM_bind, reads_st. destruct (patches s !! k) as [p|]; [|by apply IH].
  destruct (should_match p && _); [|by apply IH].
  destruct (callback _ k i s) as [b s1|] eqn:Ec; [|done].
  assert (ahead_same orig i s1) as Ha1 by (intros j Hj; rewrite <-Ha by done; by eapply callback_near).
  destruct b; by apply IH.
Qed.
Lemma apply_loop_spec orig n index stream s :
  ahead_same orig (stream + index) s →
  apply_loop callback n index stream (window_of (wget orig) (stream + index)) s = spec_scan orig n (stream + index) s.
Proof.
  revert index s. induction n as [|n IH]; intros index s Ha; cbn [apply_loop spec_scan]; [done|].
  unfold mbind, PM_bind, reads_st.
  rewrite (match_all_by (λ now p, spec_match orig now p (stream + index))) by (intros; apply window_of_match).
  destruct (patches_by _ (length (patches s)) 0 (stream + index) s) as [[] s1|] eqn:E1; [|done].
  apply spec_patches_ahead in E1; [|done]. rewrite (E1 (stream + index + 8)), window_of_step by lia.
  rewrite <-Z.add_assoc. apply IH. intros j Hj. apply E1. lia.
Qed.

Lemma pf_apply_32_scan range s :
  pf_apply_32 callback range s = spec_scan (text s) (Z.to_nat (r_size range .>> 2)) (r_base range / 4) s.
Proof.
  unfold pf_apply_32, mbind, PM_bind, reads_st. cbn zeta. change (map _ _) with (window_of (wget (text s)) (r_base range / 4)).
  pose proof (apply_loop_spec (text s) (Z.to_nat (r_size range .>> 2)) 0 (r_base range / 4) s) as H.
  rewrite Z.add_0_r in H. apply H. by intros j _.
Qed.

(** ** Patterns that must match once

    The callbacks of the components begin with [cfw_patch_once]. *)

Hypothesis callback_once : ∀ c k i s b s', callback c k i s = Done b s' →
  b = true ∧ patches s' = patches s ∧ set_required s' = set_required s ∧
  ∀ p, patches s !! k = Some p → has_fired p = false.

(** How often the pattern of [p] occurs at the first [n] words from [base] on. *)
Definition occurrences (orig : gmap Z Z) (base : Z) (p : patch) (n : nat) : nat :=
  length (List.filter (spec_match orig orig p) (seqZ base (Z.of_nat n))).

Definition counted (p : patch) : Prop := should_match p = true ∧ zlen (pairs p) < 8.

Lemma occurrences_S orig base p n :
  occurrences orig base p (S n) = (occurrences orig base p n + if spec_match orig orig p (base + Z.of_nat n) then 1 else 0)%nat.
Proof.
  unfold occurrences. replace (Z.of_nat (S n)) with (Z.of_nat n + 1) by lia.
  rewrite seqZ_app by lia. rewrite List.filter_app, length_app. f_equal. rewrite seqZ_cons, seqZ_nil by done.
  cbn [List.filter]. by destruct (spec_match _ _ _ _).
Qed.
Lemma spec_match_short orig now p i : zlen (pairs p) < 8 → spec_match orig now p i = spec_match orig orig p i.
Proof. intros H. unfold spec_match. by rewrite (proj2 (Z.ltb_lt _ _) H). Qed.

(** The patches are those of [l0] apart from [has_fired], which counts the
    occurrences at the first [lim k] words. *)
Definition tracks (orig : gmap Z Z) (base : Z) (l0 : list patch) (lim : nat → nat) (l : list patch) : Prop :=
  length l = length l0 ∧
  ∀ k p0 p, l0 !! k = Some p0 → l !! k = Some p →
    clear_fired p false = clear_fired p0 false ∧
    (counted p0 → occurrences orig base p0 (lim k) = if has_fired p then 1%nat else 0%nat).

Lemma clear_fired_same p p0 : clear_fired p false = clear_fired p0 false →
  pairs p = pairs p0 ∧ should_match p = should_match p0 ∧ is_required p = is_required p0 ∧ pf_name p = pf_name p0.
Proof. by intros [= ? ? ? ? ?]. Qed.
Lemma spec_match_same orig now p p0 i : pairs p = pairs p0 → spec_match orig now p i = spec_match orig now p0 i.
Proof. intros H. unfold spec_match. by rewrite H. Qed.

Lemma spec_patches_once orig base l0 n k idx s s' :
  (n + k = length l0)%nat → tracks orig base l0 (λ j, if (j <? k)%nat then S idx else idx) (patches s) →
  spec_patches orig n k (base + Z.of_nat idx) s = Done tt s' →
  tracks orig base l0 (λ _, S idx) (patches s') ∧ set_required s' = set_required s.
Proof.
  revert k s. induction n as [|n IH]; intros k s Hn Ht; cbn [patches_by].
  { intros [= <-]. split; [|done]. destruct Ht as [Hl Ht]. split; [done|]. intros j p0 p H0 H1.
    destruct (Ht j p0 p H0 H1) as [H2 H3]. split; [done|]. intros Hc. specialize (H3 Hc).
    apply lookup_lt_Some in H0. by rewrite (proj2 (Nat.ltb_lt j k)) in H3 by lia. }
  unfold mbind, PM_bind, reads_st. destruct Ht as [Hl Ht].
  destruct (lookup_lt_is_Some_2 l0 k ltac:(lia)) as [q0 Hq0].
  destruct (lookup_lt_is_Some_2 (patches s) k ltac:(lia)) as [q Hq].
  rewrite Hq. destruct (Ht k q0 q Hq0 Hq) as [Hsame Hcnt]. destruct (clear_fired_same _ _ Hsame) as (Hpairs & Hsm & _).
  rewrite Nat.ltb_irrefl in Hcnt.
  assert (∀ l, length l = length l0 →
    (∀ j, j ≠ k → l !! j = patches s !! j) →
    (∀ p, l !! k = Some p → clear_fired p false = clear_fired q0 false ∧
       (counted q0 → occurrences orig base q0 (S idx) = if has_fired p then 1%nat else 0%nat)) →
    tracks orig base l0 (λ j, if (j <? S k)%nat then S idx else idx) l) as Hstep.
  { intros l Hll Hne Hk. split; [done|]. intros j p0 p H0 H1. destruct (decide (j = k)) as [->|Hjk].
    - replace p0 with q0 by congruence. rewrite (proj2 (Nat.ltb_lt k (S k))) by lia. by apply Hk.
    - rewrite Hne in H1 by done. specialize (Ht j p0 p H0 H1).
      replace (j <? S k)%nat with (j <? k)%nat; [done|]. destruct (Nat.ltb_spec j k), (Nat.ltb_spec j (S k)); lia. }
  destruct (should_match q && spec_match orig (text s) q (base + Z.of_nat idx)) eqn:Em.
  - apply andb_true_iff in Em as [Em1 Em2].
    destruct (callback _ k _ s) as [b s1|] eqn:Ec; [|done].
    destruct (callback_once _ _ _ _ _ _ Ec) as (-> & Hp1 & Hr1 & Hf). specialize (Hf q Hq). cbn [upd_patch sets_st].
    intros H. apply IH in H as [H1 H2]; [split; [done|]|lia|].
    { rewrite H2. unfold set_patches. cbn. done. }
    apply Hstep.
    + cbn. rewrite Hp1, length_alter. done.
    + intros j Hj. cbn. rewrite list_lookup_alter_ne by done. by rewrite Hp1.
    + cbn. intros p. rewrite list_lookup_alter_eq, Hp1, Hq. intros [= <-]. split; [by rewrite <-Hsame|].
      intros Hc. cbn. rewrite occurrences_S, (Hcnt Hc), Hf. destruct Hc as [_ Hc].
      rewrite <-(spec_match_short _ (text s)), <-(spec_match_same _ _ q) by done. by rewrite Em2.
  - intros H. apply IH in H as [H1 H2]; [by split|lia|].
    apply Hstep; [done|done|]. intros p Hp. replace p with q by congruence. split; [done|].
    intros Hc. rewrite occurrences_S, (Hcnt Hc). destruct Hc as [Hc1 Hc2].
    rewrite Hsm, Hc1 in Em. cbn [andb] in Em.
    rewrite <-(spec_match_short _ (text s)), <-(spec_match_same _ _ q) by done. rewrite Em. lia.
Qed.

Lemma spec_scan_once orig base l0 n idx s s' :
  tracks orig base l0 (λ _, idx) (patches s) → spec_scan orig n (base + Z.of_nat idx) s = Done tt s' →
  tracks orig base l0 (λ _, (idx + n)%nat) (patches s') ∧ set_required s' = set_required s.
Proof.
  revert idx s. induction n as [|n IH]; intros idx s Ht; cbn [spec_scan].
  { intros [= <-]. by rewrite Nat.add_0_r. }
  unfold mbind, PM_bind, reads_st. destruct (patches_by _ _ _ _ _) as [[] s1|] eqn:Es; [|done].
  apply (spec_patches_once _ _ l0) in Es as [H1 H2]; [|destruct Ht; lia|exact Ht].
  replace (base + Z.of_nat idx + 1) with (base + Z.of_nat (S idx)) by lia. intros H.
  apply IH in H as [H3 H4]; [|done]. split; [|congruence]. by replace (idx + S n)%nat with (S idx + n)%nat by lia.
Qed.

(** A scan that succeeds patched every required place once.  With callbacks
    that begin with [cfw_patch_once], a short pattern of a fresh patch set occurs
    at most once in the range, and exactly once if it is required: an image in
    which it is missing or ambiguous ends in a panic. *)
Theorem pf_apply_once range s s' p :
  pf_apply callback range s = Done tt s' →
  Forall (λ p, has_fired p = false) (patches s) → p ∈ patches s → should_match p = true → zlen (pairs p) < 8 →
  let n := occurrences (text s) (r_base range / 4) p (Z.to_nat (r_size range .>> 2)) in
  (n <= 1)%nat ∧ (set_required s = true → is_required p = true → n = 1%nat).
Proof.
  intros Ha Hf Hp Hsm Hshort. unfold pf_apply, mbind, PM_bind in Ha. rewrite pf_apply_32_scan in Ha.
  destruct (spec_scan _ _ _ s) as [[] s1|] eqn:Es; [|done]. replace (r_base range / 4) with (r_base range / 4 + Z.of_nat 0) in Es by lia.
  apply (spec_scan_once _ _ (patches s)) in Es as [[Hl Ht] Hr].
  2: { split; [done|]. intros k p0 q H0 H1. replace q with p0 by congruence. split; [done|]. intros _.
       rewrite list.Forall_forall in Hf. rewrite (Hf p0); [done|]. by eapply list_elem_of_lookup_2. }
  apply list_elem_of_lookup in Hp as [k Hk]. destruct (lookup_lt_is_Some_2 (patches s1) k) as [q Hq].
  { rewrite Hl. by eapply lookup_lt_Some. }
  destruct (Ht k p q Hk Hq) as [Hsame Hc]. specialize (Hc (conj Hsm Hshort)). rewrite Nat.add_0_l in Hc. rewrite Hc. cbn zeta. split; [destruct (has_fired q); lia|].
  intros Hset Hreq. unfold reads_st in Ha. rewrite Hr, Hset in Ha. destruct (missing (patches s1)) eqn:Em; [done|].
  destruct (clear_fired_same _ _ Hsame) as (_ & _ & Hreq' & _).
  pose proof (List.find_none _ _ Em q) as H.
  destruct (has_fired q) eqn:Eq; [done|]. exfalso.
  assert (is_required q && negb (has_fired q) = false) as Hb by (apply H, list_elem_of_In; by eapply list_elem_of_lookup_2).
  rewrite Hreq', Hreq, Eq in Hb. done.
Qed.
End scan.

(** ** Example

    A range of four words and one pattern of two words, patched by the callback. *)
Definition example_text : gmap Z Z := list_to_map (zip (seqZ 100 12) [1; 2; 3; 4; 5; 6; 7; 8; 9; 10; 11; 12]).
Definition example_set : pf_st unit :=
  PfSt example_text [Patch 0 true false true (bytes_of "two") [(2, 255); (0, 0)]] true 0 None [] tt.
Definition example_callback (c : Z) (k : nat) (i : Z) : PM (pf_st unit) bool :=
  cfw_patch_once k;; sets_st (λ s, set_text (<[i + 1 := 99]> (text s)) s);; mret true.
Definition example_range : pf_range := PfRange 0 16 400.

Lemma example_callback_done c k i s b s' :
  example_callback c k i s = Done b s' →
  b = true ∧ patches s' = patches s ∧ set_required s' = set_required s ∧ text s' = <[i + 1 := 99]> (text s) ∧
  ∀ p, patches s !! k = Some p → has_fired p = false.
Proof.
  unfold example_callback, cfw_patch_once, mbind, PM_bind, reads_st.
  destruct (patches s !! k) as [p|] eqn:E; [destruct (has_fired p) eqn:Ef; [done|]|]; intros [= <- <-]; split_and!; try done.
  by intros q [= <-].
Qed.
Lemma example_callback_near c k i s b s' :
  example_callback c k i s = Done b s' → ∀ j, i + 8 <= j → wget (text s') j = wget (text s) j.
Proof.
  intros H%example_callback_done. destruct H as (_ & _ & _ & -> & _). intros j Hj. unfold wget.
  by rewrite lookup_insert_ne by lia.
Qed.

Theorem pf_apply_scans_witness :
  pf_apply example_callback example_range example_set =
  match delayed_scan example_callback 100 (λ _, example_text) 4 100 example_set with
  | Done _ s' =>
      match (if set_required s' then missing (patches s') else None) with
      | Some p => Panic (bytes_of "Missing patch: " ++ pf_name p)
      | None => Done tt s'
      end
  | Panic e => Panic e
  end.
Proof. exact (pf_apply_scans example_callback example_range example_set). Defined.

Theorem pf_apply_once_witness :
  let p := Patch 0 true false true (bytes_of "two") [(2, 255); (0, 0)] in
  (occurrences example_text 100 p 4 <= 1)%nat ∧ (true = true → true = true → occurrences example_text 100 p 4 = 1%nat).
Proof.
  assert (∃ s', pf_apply example_callback example_range example_set = Done tt s') as [s' Hs'] by (eexists; vm_compute; reflexivity).
  refine (pf_apply_once example_callback example_callback_near _ example_range example_set s'
    (Patch 0 true false true (bytes_of "two") [(2, 255); (0, 0)]) Hs' _ _ eq_refl eq_refl).
  - intros c k i s b s1 H%example_callback_done. destruct H as (? & ? & ? & _ & ?). by split_and!.
  - by repeat constructor.
  - by constructor.
Defined.
