(* ===== verification/Oneshot.v ===== *)
(** * Oneshot: patches that fire once

    Every callback of the cfw components has one shape: it may decline, and
    otherwise it begins with [cfw_patch_once], edits memory and accepts.  For a
    patch set of such callbacks the scan of [Pf] is a pure function on memory,
    [sweep]: the list of places it patched and the memory it leaves. *)
From S2P Require Import Prelude Pf.

Lemma pairs_match_at get i l j pr :
  pairs_match get i l = true → l !! j = Some pr → pair_matches (get (i + Z.of_nat j)) pr = true.
Proof.
  revert i j. induction l as [|q l IH]; intros i [|j]; cbn [pairs_match]; [done|done|..].
  - intros H [= ->]. rewrite Z.add_0_r. by destruct (pair_matches (get i) pr).
  - intros H Hj. destruct (negb (pair_matches (get i) q)); [done|]. replace (i + Z.of_nat (S j)) with (i + 1 + Z.of_nat j) by lia.
    by apply IH.
Qed.
Lemma pairs_match_intro get i l :
  (∀ j pr, l !! j = Some pr → pair_matches (get (i + Z.of_nat j)) pr = true) → pairs_match get i l = true.
Proof.
  revert i. induction l as [|q l IH]; intros i H; cbn [pairs_match]; [done|].
  pose proof (H 0%nat q eq_refl) as H0. rewrite Z.add_0_r in H0. rewrite H0. apply IH. intros j pr Hj.
  specialize (H (S j) pr Hj). by replace (i + 1 + Z.of_nat j) with (i + Z.of_nat (S j)) by lia.
Qed.

(** What one callback does: the words it accepts, and what it does to memory and
    to the statics of its component. *)
Record hook (E : Type) := Hook {
  h_pairs : list (Z * Z);
  h_accept : gmap Z Z → Z → bool;
  h_edit : Z → gmap Z Z → gmap Z Z;
  h_env : E → E
}.
Arguments Hook {E} _ _ _ _.
Arguments h_pairs {E} _.
Arguments h_accept {E} _ _ _.
Arguments h_edit {E} _ _ _.
Arguments h_env {E} _ _.

Section Oneshot.
Context {E : Type} (callback : Z → nat → Z → PM (pf_st E) bool).
Abbreviation St := (pf_st E).

(** Fewer than 8 pairs are compared with the look-ahead window [pre]. *)
Definition hits (pre : list Z) (t : gmap Z Z) (h : hook E) (i : Z) : bool :=
  pairs_match (if zlen (h_pairs h) <? 8 then znth pre else λ j, wget t (i + j)) 0 (h_pairs h) && h_accept h t i.

Fixpoint sweep_hooks (pre : list Z) (hs : list (hook E)) (k : nat) (i : Z) (t : gmap Z Z) (e : E) : gmap Z Z * E * list (nat * Z) :=
  match hs with
  | [] => (t, e, [])
  | h :: hs' =>
      if hits pre t h i
      then let '(t', e', fs) := sweep_hooks pre hs' (S k) i (h_edit h i t) (h_env h e) in (t', e', (k, i) :: fs)
      else sweep_hooks pre hs' (S k) i t e
  end.
(** The [n] words from [i] on. *)
Fixpoint sweep (pre : list Z) (hs : list (hook E)) (n : nat) (i : Z) (t : gmap Z Z) (e : E) : gmap Z Z * E * list (nat * Z) :=
  match n with
  | O => (t, e, [])
  | S n' =>
      let '(t1, e1, f1) := sweep_hooks pre hs 0 i t e in
      let '(t2, e2, f2) := sweep (drop 1 pre ++ [wget t1 (i + 8)]) hs n' (i + 1) t1 e1 in (t2, e2, f1 ++ f2)
  end.

Context (rng : option pf_range).

(** The callback number [c] is the hook [h]. *)
Definition behaves (h : hook E) (c : Z) : Prop := ∀ k i s p,
  patches s !! k = Some p → cfw_range s = rng →
  if h_accept h (text s) i then
    if has_fired p then callback c k i s = Panic (pf_name p ++ bytes_of ": Found twice")
    else ∃ s1, callback c k i s = Done true s1 ∧ text s1 = h_edit h i (text s) ∧ env s1 = h_env h (env s) ∧
               patches s1 = patches s ∧ set_required s1 = set_required s ∧ cfw_range s1 = cfw_range s
  else callback c k i s = Done false s.

Context (l0 : list patch) (hs : list (hook E)).
Hypothesis set_behaves : Forall2 (λ p h, pairs p = h_pairs h ∧ should_match p = true ∧ behaves h (pf_callback p)) l0 hs.

(** The patches with the fired ones marked. *)
Definition marked (fired : list nat) : list patch := imap (λ k p, clear_fired p (bool_decide (k ∈ fired))) l0.

(** The state that the hooks see. *)
Definition sees (s : St) (t : gmap Z Z) (e : E) (fired : list nat) (req : bool) : Prop :=
  text s = t ∧ env s = e ∧ patches s = marked fired ∧ set_required s = req ∧ cfw_range s = rng.

(** A scan from [s], after [fired], against what the sweep says. *)
Definition agrees (res : outcome St unit) (fired : list nat) (req : bool) (sw : gmap Z Z * E * list (nat * Z)) : Prop :=
  let '(t', e', fs) := sw in
  match res with
  | Done _ s' => NoDup (fired ++ fs.*1) ∧ sees s' t' e' (fired ++ fs.*1) req
  | Panic _ => ¬ NoDup (fired ++ fs.*1)
  end.

Lemma marked_lookup fired k : marked fired !! k = (λ p, clear_fired p (bool_decide (k ∈ fired))) <$> l0 !! k.
Proof. apply list_lookup_imap. Qed.
Lemma marked_snoc fired k : marked (fired ++ [k]) = alter (λ p, clear_fired p true) k (marked fired).
Proof.
  apply list_eq. intros j. destruct (decide (j = k)) as [->|Hne].
  - rewrite list_lookup_alter_eq, !marked_lookup. destruct (l0 !! k); [|done]. cbn. rewrite bool_decide_true by set_solver. done.
  - rewrite list_lookup_alter_ne, !marked_lookup by done. destruct (l0 !! j); [|done]. cbn. do 2 f_equal.
    apply bool_decide_ext. set_solver.
Qed.
Lemma marked_nil : Forall (λ p, has_fired p = false) l0 → marked [] = l0.
Proof.
  intros Hf. apply list_eq. intros k. rewrite marked_lookup. destruct (l0 !! k) as [p|] eqn:Ek; [|done]. cbn.
  rewrite list.Forall_forall in Hf. specialize (Hf p (list_elem_of_lookup_2 _ _ _ Ek)). by destruct p; cbn in *; subst.
Qed.

Lemma NoDup_app_head {A} (l k : list A) : NoDup (l ++ k) → NoDup l.
Proof. by intros (? & _)%list.NoDup_app. Qed.

Lemma match_all_sweep pre i fired req k s t e :
  (k <= length l0)%nat → sees s t e fired req → NoDup fired →
  agrees (match_all callback (length l0 - k) k pre i s) fired req (sweep_hooks pre (drop k hs) k i t e).
Proof.
  remember (length l0 - k)%nat as n eqn:Hn. revert k fired s t e Hn.
  induction n as [|n IH]; intros k fired s t e Hn Hk Hs Hd.
  { rewrite drop_ge by (apply Forall2_length in set_behaves; lia). cbn. rewrite app_nil_r. done. }
  destruct (lookup_lt_is_Some_2 l0 k ltac:(lia)) as [p Hp].
  destruct (Forall2_lookup_l _ _ _ _ _ set_behaves Hp) as (h & Hh & Hpairs & Hsm & Hb).
  rewrite (drop_S _ h) by done. cbn [match_all sweep_hooks]. unfold mbind, PM_bind, reads_st.
  destruct Hs as (<- & <- & Hps & Hreq & Hrng).
  pose proof (marked_lookup fired k) as Hl. rewrite <-Hps, Hp in Hl. cbn in Hl. rewrite Hl. cbn [should_match clear_fired]. rewrite Hsm.
  unfold pf_maskmatch_match, mbind, PM_bind, reads_st.
  unfold hits, pf_maskmatch_match_32. cbn [pairs clear_fired]. rewrite Hpairs.
  destruct (pairs_match _ 0 (h_pairs h)); cbn [andb].
  2: { apply IH; [lia|lia|done|done]. }
  specialize (Hb k i s _ Hl Hrng). cbn [pf_callback clear_fired has_fired pf_name] in *.
  destruct (h_accept h (text s) i).
  2: { rewrite Hb. apply IH; [lia|lia|done|done]. }
  case_bool_decide as Hin.
  - rewrite Hb. cbn. destruct (sweep_hooks _ _ _ _ _ _) as [[t' e'] fs]. cbn. intros (_ & Hno & _)%list.NoDup_app. apply (Hno k); [done|set_solver].
  - destruct Hb as (s1 & -> & Ht1 & He1 & Hp1 & Hr1 & Hg1). unfold upd_patch, sets_st.
    specialize (IH (S k) (fired ++ [k]) (set_patches (alter (λ p0, clear_fired p0 true) k (patches s1)) s1) (text s1) (env s1)).
    rewrite Ht1, He1 in IH. cbn [mret PM_ret] in *.
    destruct (sweep_hooks pre (drop (S k) hs) (S k) i (h_edit h i (text s)) (h_env h (env s))) as [[t' e'] fs] eqn:Esw.
    unfold agrees in *. cbn [fmap list_fmap fst]. rewrite <-app_assoc in IH. apply IH; [lia|lia| |].
    + split_and!; cbn; [done|done| |congruence|congruence]. rewrite Hp1, Hps. symmetry. apply marked_snoc.
    + apply list.NoDup_app. split_and!; [done|set_solver|apply list.NoDup_singleton].
Qed.

Lemma apply_loop_sweep pre n index stream fired req s t e :
  sees s t e fired req → NoDup fired →
  agrees (apply_loop callback n index stream pre s) fired req (sweep pre hs n (stream + index) t e).
Proof.
  revert pre index fired s t e. induction n as [|n IH]; intros pre index fired s t e Hs Hd; cbn [apply_loop sweep].
  { cbn. by rewrite app_nil_r. }
  unfold mbind, PM_bind, reads_st. assert (length (patches s) = length l0 - 0)%nat as ->.
  { destruct Hs as (_ & _ & -> & _). unfold marked. rewrite length_imap. lia. }
  pose proof (match_all_sweep pre (stream + index) fired req 0 s t e ltac:(lia) Hs Hd) as H. rewrite drop_0 in H.
  destruct (sweep_hooks pre hs 0 (stream + index) t e) as [[t1 e1] f1]. unfold agrees in H.
  destruct (match_all callback _ 0 pre (stream + index) s) as [[] s1|m].
  - destruct H as [Hd1 Hs1]. rewrite (proj1 Hs1). specialize (IH (drop 1 pre ++ [wget t1 (stream + index + 8)]) (index + 1) _ s1 t1 e1 Hs1 Hd1).
    rewrite Z.add_assoc in IH.
    destruct (sweep _ hs n (stream + index + 1) t1 e1) as [[t2 e2] f2]. unfold agrees in *. rewrite fmap_app, app_assoc. done.
  - destruct (sweep _ hs n _ t1 e1) as [[t2 e2] f2]. cbn. rewrite fmap_app, app_assoc. intros Hn. apply H. by apply NoDup_app_head in Hn.
Qed.

(** A patch set of fire-once hooks does what the sweep says: it succeeds exactly
    if no hook hits twice and every required one hits. *)
Lemma oneshot_apply range s :
  Forall (λ p, has_fired p = false) l0 → patches s = l0 → set_required s = true → cfw_range s = rng →
  let '(t', e', fs) := sweep (window (text s) (r_base range / 4)) hs (Z.to_nat (r_size range .>> 2)) (r_base range / 4) (text s) (env s) in
  match pf_apply callback range s with
  | Done _ s' =>
      NoDup fs.*1 ∧ (∀ k p, l0 !! k = Some p → is_required p = true → k ∈ fs.*1) ∧
      text s' = t' ∧ env s' = e' ∧ cfw_range s' = rng
  | Panic _ => ¬ (NoDup fs.*1 ∧ (∀ k p, l0 !! k = Some p → is_required p = true → k ∈ fs.*1))
  end.
Proof.
  intros Hf Hp Hreq Hrng. unfold pf_apply, pf_apply_32, mbind, PM_bind, reads_st. cbv zeta.
  pose proof (apply_loop_sweep (window (text s) (r_base range / 4)) (Z.to_nat (r_size range .>> 2)) 0 (r_base range / 4)
    [] true s (text s) (env s)) as H. rewrite Z.add_0_r in H. fold (window (text s) (r_base range / 4)).
  specialize (H ltac:(split_and!; try done; by rewrite marked_nil) NoDup_nil_2).
  destruct (sweep _ _ _ _ _ _) as [[t' e'] fs]. unfold agrees in H. cbn [app] in H.
  destruct (apply_loop callback _ _ _ _ s) as [[] s'|m].
  2: { by intros [? _]. }
  destruct H as (Hd & Ht & He & Hps & Hr & Hg). rewrite Hr. unfold missing.
  destruct (List.find _ (patches s')) as [p|] eqn:Em.
  - intros [_ Hall]. apply List.find_some in Em as [Hin Hb]. apply list_elem_of_In, list_elem_of_lookup in Hin as [k Hk].
    rewrite Hps, marked_lookup in Hk. destruct (l0 !! k) as [p0|] eqn:Ek; [|done]. injection Hk as <-.
    cbn in Hb. apply andb_true_iff in Hb as [Hb1 Hb2%negb_true_iff%bool_decide_eq_false]. apply Hb2. by eapply Hall.
  - cbn [mret PM_ret]. split_and!; try done. intros k p Hk Hrq.
    pose proof (List.find_none _ _ Em (clear_fired p (bool_decide (k ∈ fs.*1)))) as H.
    assert (In (clear_fired p (bool_decide (k ∈ fs.*1))) (patches s')) as Hin.
    { apply list_elem_of_In, list_elem_of_lookup. exists k. by rewrite Hps, marked_lookup, Hk. }
    specialize (H Hin). cbn in H. rewrite Hrq in H. cbn in H. by apply negb_false_iff, bool_decide_eq_true in H.
Qed.
End Oneshot.

(** ** The trace of a sweep *)

Section Trace.
Context {E : Type} (hs : list (hook E)) (t0 : gmap Z Z).

(** Memory after the edits of a trace. *)
Definition edits (fs : list (nat * Z)) : gmap Z Z :=
  fold_left (λ t x, match hs !! x.1 with Some h => h_edit h x.2 t | None => t end) fs t0.
(** Every word of the window was read after some prefix of the edits. *)
Definition looked (D : list (nat * Z)) (pre : list Z) (i : Z) : Prop :=
  length pre = 8%nat ∧ ∀ x, 0 <= x < 8 → ∃ D', D' `prefix_of` D ∧ znth pre x = wget (edits D') (i + x).
(** Hook [k] hits word [j] after the edits [D]. *)
Definition fires (D : list (nat * Z)) (x : nat * Z) : Prop :=
  ∃ h pre, hs !! x.1 = Some h ∧ hits pre (edits D) h x.2 = true ∧ looked D pre x.2.
Definition trace_ok (D fs : list (nat * Z)) : Prop := ∀ l1 x l2, fs = l1 ++ x :: l2 → fires (D ++ l1) x.

Lemma looked_app D D' pre i : looked D pre i → looked (D ++ D') pre i.
Proof.
  intros [Hl H]. split; [done|]. intros x Hx. destruct (H x Hx) as (D0 & Hp & ->). exists D0. split; [|done].
  by apply prefix_app_r.
Qed.
Lemma trace_nil D : trace_ok D [].
Proof. by intros [|? l1] x l2. Qed.
Lemma trace_cons D x fs : fires D x → trace_ok (D ++ [x]) fs → trace_ok D (x :: fs).
Proof.
  intros Hx Hfs [|y l1] z l2; cbn; [intros [= <- <-]; by rewrite app_nil_r|]. intros [= <- Hl].
  specialize (Hfs l1 z l2 Hl). by rewrite <-app_assoc in Hfs.
Qed.
Lemma trace_app D f1 f2 : trace_ok D f1 → trace_ok (D ++ f1) f2 → trace_ok D (f1 ++ f2).
Proof.
  revert D. induction f1 as [|x f1 IH]; intros D H1 H2; [by rewrite app_nil_r in H2|]. cbn. apply trace_cons.
  - specialize (H1 [] x f1 eq_refl). by rewrite app_nil_r in H1.
  - apply IH; [|by rewrite <-app_assoc]. intros l1 y l2 ->. specialize (H1 (x :: l1) y l2 eq_refl). by rewrite <-app_assoc.
Qed.
Lemma edits_snoc D k i h : hs !! k = Some h → edits (D ++ [(k, i)]) = h_edit h i (edits D).
Proof. intros Hk. unfold edits. rewrite fold_left_app. cbn. by rewrite Hk. Qed.

Lemma sweep_hooks_trace pre hs' k i D e t' e' fs :
  drop k hs = hs' → looked D pre i → sweep_hooks pre hs' k i (edits D) e = (t', e', fs) →
  t' = edits (D ++ fs) ∧ trace_ok D fs ∧ Forall (λ x, x.2 = i) fs.
Proof.
  revert k D e t' e' fs. induction hs' as [|h hs' IH]; intros k D e t' e' fs Hd Hl; cbn [sweep_hooks].
  { intros [= <- <- <-]. rewrite app_nil_r. split_and!; [done|apply trace_nil|done]. }
  assert (hs !! k = Some h) as Hk.
  { rewrite <-(Nat.add_0_r k), <-lookup_drop, Hd. done. }
  assert (drop (S k) hs = hs') as Hd'.
  { rewrite <-Nat.add_1_r, <-drop_drop, Hd. done. }
  destruct (hits pre (edits D) h i) eqn:Eh; [|by apply IH].
  destruct (sweep_hooks pre hs' (S k) i _ _) as [[t1 e1] f1] eqn:Es. intros [= <- <- <-].
  rewrite <-(edits_snoc _ _ _ _ Hk) in Es. apply IH in Es as (-> & Ht & Hf); [|done|by apply looked_app].
  split_and!; [by rewrite <-app_assoc| |by constructor]. apply trace_cons; [|done]. by exists h, pre.
Qed.

Lemma sweep_trace pre n i D e t' e' fs :
  looked D pre i → sweep pre hs n i (edits D) e = (t', e', fs) →
  t' = edits (D ++ fs) ∧ trace_ok D fs ∧ Forall (λ x, i <= x.2 < i + Z.of_nat n) fs.
Proof.
  revert pre i D e t' e' fs. induction n as [|n IH]; intros pre i D e t' e' fs Hl; cbn [sweep].
  { intros [= <- <- <-]. rewrite app_nil_r. split_and!; [done|apply trace_nil|done]. }
  destruct (sweep_hooks pre hs 0 i (edits D) e) as [[t1 e1] f1] eqn:E1.
  apply sweep_hooks_trace in E1 as (-> & Ht1 & Hf1); [|done|done].
  destruct (sweep _ hs n (i + 1) (edits (D ++ f1)) e1) as [[t2 e2] f2] eqn:E2. intros [= <- <- <-].
  apply IH in E2 as (-> & Ht2 & Hf2).
  - split_and!; [by rewrite app_assoc|by apply trace_app|]. apply list.Forall_app. split; eapply list.Forall_impl; try done.
    + intros x Hx. cbn in Hx. lia.
    + intros x Hx. cbn in Hx. lia.
  - destruct Hl as [Hlen Hl]. split; [rewrite length_app, length_drop, Hlen; done|]. intros x Hx.
    destruct (decide (x = 7)) as [->|Hne].
    + exists (D ++ f1). split; [done|]. unfold znth. rewrite app_nth2 by (rewrite length_drop, Hlen; cbn; lia).
      rewrite length_drop, Hlen. cbn. f_equal. lia.
    + destruct (Hl (x + 1) ltac:(lia)) as (D' & Hp & Hx'). exists D'. split; [by apply prefix_app_r|].
      replace (i + 1 + x) with (i + (x + 1)) by lia. rewrite <-Hx'. unfold znth. rewrite app_nth1 by (rewrite length_drop, Hlen; lia).
      replace (Z.to_nat (x + 1)) with (1 + Z.to_nat x)%nat by lia. by destruct pre as [|? ?]; destruct (Z.to_nat x).
Qed.
Lemma sweep_hooks_nil pre (hs' : list (hook E)) k i t e t' e' : sweep_hooks pre hs' k i t e = (t', e', []) → e' = e.
Proof.
  revert k. induction hs' as [|h hs' IH]; intros k; cbn [sweep_hooks]; [by intros [= <- <-]|].
  destruct (hits pre t h i); [by destruct (sweep_hooks _ _ _ _ _ _) as [[? ?] ?]|apply IH].
Qed.
Lemma sweep_nil pre n i t e t' e' : sweep pre hs n i t e = (t', e', []) → e' = e.
Proof.
  revert pre i t e. induction n as [|n IH]; intros pre i t e; cbn [sweep]; [by intros [= <- <-]|].
  destruct (sweep_hooks pre hs 0 i t e) as [[t1 e1] f1] eqn:E1. destruct (sweep _ hs n _ t1 e1) as [[t2 e2] f2] eqn:E2.
  intros [= <- <- Hf]. apply app_nil in Hf as [-> ->]. apply IH in E2 as ->. by eapply sweep_hooks_nil.
Qed.
Lemma window_looked i : looked [] (window t0 i) i.
Proof.
  split; [done|]. intros x Hx. exists []. split; [done|]. unfold window, edits. cbn [fold_left].
  change (seqZ 0 8) with [0; 1; 2; 3; 4; 5; 6; 7].
  assert (x = 0 ∨ x = 1 ∨ x = 2 ∨ x = 3 ∨ x = 4 ∨ x = 5 ∨ x = 6 ∨ x = 7) as Hc by lia.
  by destruct Hc as [->|[->|[->|[->|[->|[->|[->| ->]]]]]]].
Qed.
(** Before the first edit the window holds memory. *)
Lemma pairs_match_znth pre t i l : zlen l <= 8 → (∀ x, 0 <= x < 8 → znth pre x = wget t (i + x)) →
  pairs_match (znth pre) 0 l = pairs_match (λ j, wget t (i + j)) 0 l.
Proof. intros Hl H. apply pairs_match_ext. intros j Hj. apply H. lia. Qed.
Lemma looked_hits pre (h : hook E) i : looked [] pre i → hits pre t0 h i = pairs_match (λ j, wget t0 (i + j)) 0 (h_pairs h) && h_accept h t0 i.
Proof.
  intros [_ Hl]. unfold hits. destruct (_ <? 8) eqn:Es; [|done]. apply Z.ltb_lt in Es. f_equal. apply pairs_match_znth; [lia|].
  intros x Hx. destruct (Hl x Hx) as (D' & Hp & ->). by apply prefix_nil_inv in Hp as ->.
Qed.
End Trace.

(** ** A single hook *)

Section Single.
Context {E : Type} (h : hook E).

(** The hook hits word [i] of [t]. *)
Definition occurs (t : gmap Z Z) (i : Z) : bool := pairs_match (λ j, wget t (i + j)) 0 (h_pairs h) && h_accept h t i.
Lemma hits_long pre t i : 8 <= zlen (h_pairs h) → hits pre t h i = occurs t i.
Proof. intros long. unfold hits. by rewrite (proj2 (Z.ltb_ge _ _) long). Qed.

(** The sweep of one hook does not use the window. *)
Fixpoint sweep1 (n : nat) (i : Z) (t : gmap Z Z) (e : E) : gmap Z Z * E * list (nat * Z) :=
  match n with
  | O => (t, e, [])
  | S n' =>
      if occurs t i
      then let '(t', e', fs) := sweep1 n' (i + 1) (h_edit h i t) (h_env h e) in (t', e', (0%nat, i) :: fs)
      else sweep1 n' (i + 1) t e
  end.
Lemma sweep_single pre n i t e : 8 <= zlen (h_pairs h) → sweep pre [h] n i t e = sweep1 n i t e.
Proof.
  intros long. revert pre i t e. induction n as [|n IH]; intros pre i t e; [done|]. cbn [sweep sweep1 sweep_hooks]. rewrite hits_long by done.
  destruct (occurs t i); rewrite IH; by destruct (sweep1 _ _ _ _) as [[t' e'] fs].
Qed.
Lemma sweep1_none n i t e :
  snd (sweep1 n i t e) = [] ↔ (∀ j, i <= j < i + Z.of_nat n → occurs t j = false).
Proof.
  revert i. induction n as [|n IH]; intros i; cbn [sweep1]; [split; [lia|done]|].
  destruct (occurs t i) eqn:Eh.
  - split; [by destruct (sweep1 _ _ _ _) as [[t' e'] fs]|]. intros H. rewrite H in Eh by lia. done.
  - rewrite IH. split; intros H j Hj; [|apply H; lia]. destruct (decide (j = i)) as [->|]; [done|]. apply H. lia.
Qed.
Lemma sweep1_text n i t e : snd (sweep1 n i t e) = [] → fst (sweep1 n i t e) = (t, e).
Proof.
  revert i. induction n as [|n IH]; intros i; cbn [sweep1]; [done|].
  destruct (occurs t i); [by destruct (sweep1 _ _ _ _) as [[t' e'] fs]|apply IH].
Qed.
Lemma sweep1_hits n i t e t' e' fs :
  sweep1 n i t e = (t', e', fs) → Forall (λ x, x.1 = 0%nat) fs.
Proof.
  revert i t e t' e' fs. induction n as [|n IH]; intros i t e t' e' fs; cbn [sweep1]; [by intros [= <- <- <-]|].
  destruct (occurs t i); [|apply IH]. destruct (sweep1 n _ _ _) as [[t1 e1] f1] eqn:Es.
  intros [= <- <- <-]. constructor; [done|]. by eapply IH.
Qed.

(** The hook hits at [i], nowhere before it, and nowhere behind it once it is applied. *)
Definition single_at (orig : gmap Z Z) (lo hi i : Z) : Prop :=
  lo <= i < hi ∧ occurs orig i = true ∧ (∀ j, lo <= j < i → occurs orig j = false) ∧
  ∀ j, i < j < hi → occurs (h_edit h i orig) j = false.

Lemma sweep1_at orig n lo i e :
  single_at orig lo (lo + Z.of_nat n) i → sweep1 n lo orig e = (h_edit h i orig, h_env h e, [(0%nat, i)]).
Proof.
  revert lo. induction n as [|n IH]; intros lo (Hi & Hhit & Hb & Ha); cbn [sweep1]; [lia|].
  destruct (decide (i = lo)) as [->|Hne].
  - rewrite Hhit. pose proof (sweep1_none n (lo + 1) (h_edit h lo orig) (h_env h e)) as [_ Hnone].
    pose proof (sweep1_text n (lo + 1) (h_edit h lo orig) (h_env h e)) as Htext.
    destruct (sweep1 n (lo + 1) _ _) as [[t1 e1] f1]. cbn [fst snd] in Hnone, Htext.
    rewrite Hnone in Htext |- *; [by injection (Htext eq_refl) as -> ->|intros j Hj; apply Ha; lia..].
  - rewrite Hb by lia. apply IH. unfold single_at. split_and!; [lia|lia|done|intros j Hj; apply Hb; lia|intros j Hj; apply Ha; lia].
Qed.
Lemma sweep1_once orig n lo e t' e' fs :
  sweep1 n lo orig e = (t', e', fs) → NoDup fs.*1 → 0%nat ∈ fs.*1 →
  ∃ i, single_at orig lo (lo + Z.of_nat n) i.
Proof.
  revert lo. induction n as [|n IH]; intros lo; cbn [sweep1]; [intros [= <- <- <-]; set_solver|].
  destruct (occurs orig lo) eqn:Eh.
  - pose proof (sweep1_none n (lo + 1) (h_edit h lo orig) (h_env h e)) as Hnone.
    destruct (sweep1 n (lo + 1) _ _) as [[t1 e1] f1] eqn:Es. cbn [fst snd] in Hnone. intros [= <- <- <-] Hd _.
    pose proof (sweep1_hits _ _ _ _ _ _ _ Es) as Hz. cbn in Hd. assert (f1 = []) as ->.
    { destruct f1 as [|[k j] f1]; [done|]. apply list.Forall_cons in Hz as [Hz _]. cbn in Hz. subst k. apply list.NoDup_cons in Hd as [Hd _]. set_solver. }
    exists lo. unfold single_at. split_and!; [lia|lia|done|lia|].
    intros j Hj. rewrite Nat2Z.inj_succ in Hj. apply Hnone; [done|lia].
  - intros Hs Hd Hin. destruct (IH _ Hs Hd Hin) as (i & Hi & Hhit & Hb & Ha). exists i. unfold single_at.
    split_and!; [lia|lia|done| |intros j Hj; apply Ha; lia].
    intros j Hj. destruct (decide (j = lo)) as [->|]; [done|]. apply Hb. lia.
Qed.
End Single.

Lemma cfw_patch_once_spec {E} k (s : pf_st E) p :
  patches s !! k = Some p →
  cfw_patch_once k s =
  if has_fired p then Panic (pf_name p ++ bytes_of ": Found twice") else say (bytes_of "  " ++ pf_name p ++ [10]) s.
Proof. intros Hp. unfold cfw_patch_once, mbind, PM_bind, reads_st. rewrite Hp. by destruct (has_fired p). Qed.

(** The set of one required pattern, from its creation to its scan. *)
Section ApplyOne.
Context {E : Type} (callback : Z → nat → Z → PM (pf_st E) bool).

Definition one_patch (name : list Z) (l : list (Z * Z)) (c : Z) (range : pf_range) : PM (pf_st E) unit :=
  pf_patchset_create;;
  pf_maskmatch name l true c;;
  sets_st (set_range (Some range));;
  pf_apply callback range.

Definition range_lo (range : pf_range) : Z := r_base range / 4.
Definition range_hi (range : pf_range) : Z := r_base range / 4 + Z.of_nat (Z.to_nat (r_size range .>> 2)).

(** It succeeds exactly if there is a place where the hook hits and none before or
    behind it. *)
Lemma one_patch_spec name h c range s :
  bad_pair 0 (h_pairs h) = None → behaves callback (Some range) h c →
  8 <= zlen (h_pairs h) →
  match one_patch name (h_pairs h) c range s with
  | Done _ s' => ∃ i, single_at h (text s) (range_lo range) (range_hi range) i ∧
      text s' = h_edit h i (text s) ∧ env s' = h_env h (env s)
  | Panic _ => arena_used s = 0 → zlen (h_pairs h) <= 32 → ¬ ∃ i, single_at h (text s) (range_lo range) (range_hi range) i
  end.
Proof.
  intros Hbad Hb Hw. unfold one_patch, pf_patchset_create, pf_maskmatch, malloc. rewrite Hbad.
  unfold mbind, PM_bind, reads_st, sets_st. destruct (ARENA_SIZE - arena_used s <? _) eqn:E1.
  { intros H0. rewrite H0 in E1. done. }
  cbn [arena_used set_arena new_set]. destruct (ARENA_SIZE - _ <? u32 (u32 (MASKMATCH_SIZE + _) + 7) .& _) eqn:E2.
  { intros H0 Hl. exfalso. cbn in E2. rewrite H0 in E2. apply Z.ltb_lt in E2.
    change (u32 (0 + (u32 (PATCHSET_SIZE + 7) .& not32 7))) with 8 in E2. unfold MASKMATCH_SIZE, ARENA_SIZE in E2.
    pose proof (zlen_nonneg (h_pairs h)). rewrite (u32_id (24 + _)), u32_id in E2 by (unfold word_ok; lia).
    assert (∀ a, 0 <= a → a .& not32 7 <= a) as Hle by (intros a Ha; change (not32 7) with ((2 ^ 29 - 1) .<< 3);
      rewrite land_shifted_mask, land_mod by done; rewrite Z.shiftl_mul_pow2, Z.shiftr_div_pow2 by done;
      pose proof (Z.mod_le (a / 2 ^ 3) (2 ^ 29) ltac:(apply Z.div_pos; lia) ltac:(lia)); pose proof (Z.mul_div_le a (2 ^ 3) ltac:(lia)); lia).
    specialize (Hle (24 + 8 * zlen (h_pairs h) + 7)). lia. }
  set (s1 := set_range (Some range) _).
  pose proof (oneshot_apply callback (Some range) [Patch c true false true name (h_pairs h)] [h] ltac:(constructor; [exact (conj eq_refl (conj eq_refl Hb))|constructor]) range s1) as H.
  specialize (H ltac:(by repeat constructor) eq_refl eq_refl eq_refl). rewrite (sweep_single h _ _ _ _ _ Hw) in H.
  change (text s1) with (text s) in H. change (env s1) with (env s) in H.
  assert (∀ fs : list (nat * Z), (∀ k p, [Patch c true false true name (h_pairs h)] !! k = Some p → is_required p = true → k ∈ fs.*1) ↔ 0%nat ∈ fs.*1) as Hreq.
  { intros fs. split; [intros Hk; by eapply (Hk 0%nat)|]. intros H0 [|k] p; cbn; [done|]. by intros [=]. }
  pose proof (λ i, sweep1_at h (text s) (Z.to_nat (r_size range .>> 2)) (range_lo range) i (env s)) as Hat.
  pose proof (sweep1_once h (text s) (Z.to_nat (r_size range .>> 2)) (range_lo range) (env s)) as Hone.
  unfold range_lo in Hat, Hone. fold (range_hi range) in Hat, Hone.
  destruct (sweep1 h _ _ _ _) as [[t' e'] fs] eqn:Es. specialize (Hone _ _ _ eq_refl).
  destruct (pf_apply callback range s1) as [[] s'|m].
  - destruct H as (Hd & Hr & -> & -> & _). apply Hreq in Hr. destruct (Hone Hd Hr) as (i & Hi). exists i. split; [done|].
    apply Hat in Hi. by injection Hi as -> -> _.
  - intros _ _ (i & Hi). apply Hat in Hi. injection Hi as -> -> ->. apply H. split; [apply list.NoDup_singleton|]. apply Hreq. set_solver.
Qed.
End ApplyOne.
