(* ===== verification/Cfw.v ===== *)
(** * Cfw: the custom firmware's stages ([src/baremetal/cfw])

    The lookup of a module's code in the ROM image ([nkpf/romimage.c]) and the
    hand-off patch of the EBOOT stage ([eboot/handoff.c], [eboot/eboot.c]), over the
    patch finder of [Pf] and the fire-once hooks of [Oneshot]. *)
From S2P Require Import Prelude Machine Soc Log Pf Oneshot.

Definition NK_VA_OFFSET : Z := 0x50000000.
Definition NK_DDR_VA : Z := 0x80000000.
Definition NK_DDR_END : Z := 0x84000000.
Definition EBOOT_CODE_VA : Z := 0x80038000.
Definition ECEC_MAGIC : Z := 0x43454345.
Definition ROMHDR_BYTES : Z := 0x54.
Definition TOC_BYTES : Z := 32.
Definition O32_BYTES : Z := 24.
Definition SCN_CODE : Z := 0x20.
Definition SCN_COMPRESSED : Z := 0x2000.
Definition HDR_NUMMODS : Z := 4.
Definition TOC_NAME : Z := 4.
Definition TOC_E32 : Z := 5.
Definition TOC_O32 : Z := 6.
Definition O32_VSIZE : Z := 0.
Definition O32_PSIZE : Z := 2.
Definition O32_DATAPTR : Z := 3.
Definition O32_REALADDR : Z := 4.
Definition O32_FLAGS : Z := 5.

(** ** The ROM image *)

Definition nk_static_va (va bytes : Z) : bool :=
  (NK_DDR_VA <=? va) && (va <? NK_DDR_END) && (bytes <=? u32 (NK_DDR_END - va)).
Definition nk_ptr (va : Z) : Z := u32 (va - NK_VA_OFFSET).

(** [p[i]] of a pointer to words or to 16-bit values. *)
Definition word_at (m : mem) (p i : Z) : Z := le_join (mget_list m (p + 4 * i) 4).
Definition half_at (m : mem) (p : Z) : Z := le_join (mget_list m p 2).

Definition to_lower (c : Z) : Z := if (chr "A" <=? c) && (c <=? chr "Z") then u8 (c + (chr "a" - chr "A")) else c.

(** The loop of [name_is], on the bytes of the name. *)
Fixpoint name_loop (m : mem) (s : Z) (name : list Z) : bool :=
  match name with
  | [] => mget m s =? 0
  | c :: name' => if negb (to_lower (mget m s) =? c) then false else name_loop m (s + 1) name'
  end.
Definition name_is (m : mem) (va : Z) (name : list Z) : bool :=
  if negb (nk_static_va va 1) then false else name_loop m (nk_ptr va) name.

Abbreviation R := (PM mem).

Definition romhdr : R Z :=
  let nk := nk_ptr 0x80200000 in
  m ← reads_st (λ m, m);
  let hdr := word_at m nk (0x44 / 4) in
  if negb (word_at m nk (0x40 / 4) =? ECEC_MAGIC) then panic (bytes_of "No ECEC signature in NK")
  else if negb (nk_static_va hdr ROMHDR_BYTES) then panic (bytes_of "Bad ROMHDR pointer " ++ hex32_text hdr)
  else mret (nk_ptr hdr).

(** The loop over the o32 entries: the code section, if any. *)
Fixpoint code_loop (module : list Z) (n : nat) (o32 : Z) (code : option Z) : R (option Z) :=
  match n with
  | O => mret code
  | S n' =>
      m ← reads_st (λ m, m);
      if negb (nonzero (word_at m o32 O32_FLAGS .& SCN_CODE)) then code_loop module n' (o32 + O32_BYTES) code
      else
        match code with
        | Some _ => panic (module ++ bytes_of ": two code sections")
        | None => code_loop module n' (o32 + O32_BYTES) (Some o32)
        end
  end.

(** The range of the module of a table entry. *)
Definition module_code (module : list Z) (toc : Z) : R pf_range :=
  m ← reads_st (λ m, m);
  if negb (nk_static_va (word_at m toc TOC_E32) 2) then panic (module ++ bytes_of ": bad e32")
  else
    let nobj := half_at m (nk_ptr (word_at m toc TOC_E32)) in
    if (32 <? nobj) || negb (nk_static_va (word_at m toc TOC_O32) (nobj * O32_BYTES))
    then panic (module ++ bytes_of ": bad o32")
    else
      code ← code_loop module (Z.to_nat nobj) (nk_ptr (word_at m toc TOC_O32)) None;
      match code with
      | None => panic (module ++ bytes_of ": no code section")
      | Some code =>
          if nonzero (word_at m code O32_FLAGS .& SCN_COMPRESSED) ||
             (word_at m code O32_PSIZE <? word_at m code O32_VSIZE) ||
             negb (nk_static_va (word_at m code O32_DATAPTR) (word_at m code O32_VSIZE))
          then panic (module ++ bytes_of ": code section not in place")
          else
            mret (PfRange (word_at m code O32_REALADDR) (word_at m code O32_VSIZE .& not32 3)
                    (nk_ptr (word_at m code O32_DATAPTR)))
      end.

Fixpoint toc_loop (module : list Z) (n : nat) (toc : Z) : R (option pf_range) :=
  match n with
  | O => mret None
  | S n' =>
      m ← reads_st (λ m, m);
      if negb (name_is m (word_at m toc TOC_NAME) module) then toc_loop module n' (toc + TOC_BYTES)
      else r ← module_code module toc; mret (Some r)
  end.

Definition rom_code_range (module : list Z) : R (option pf_range) :=
  hdr ← romhdr;
  m ← reads_st (λ m, m);
  let n := word_at m hdr HDR_NUMMODS in
  let toc_va := u32 (hdr + NK_VA_OFFSET + ROMHDR_BYTES) in
  if (512 <? n) || negb (nk_static_va toc_va (u32 (n * TOC_BYTES))) then panic (bytes_of "Bad ROM module table")
  else toc_loop module (Z.to_nat n) (nk_ptr toc_va).

Definition module_range (module : list Z) : R pf_range :=
  r ← rom_code_range module;
  match r with Some range => mret range | None => panic (bytes_of "No ROM module " ++ module) end.

(** ** The ROM image, declaratively *)

(** The addresses of the table entries and of a module's o32 entries. *)
Definition toc_entries (m : mem) : list Z :=
  let hdr := nk_ptr (word_at m (nk_ptr 0x80200000) (0x44 / 4)) in
  map (λ i, nk_ptr (u32 (hdr + NK_VA_OFFSET + ROMHDR_BYTES)) + TOC_BYTES * i) (seqZ 0 (word_at m hdr HDR_NUMMODS)).
Definition is_code (m : mem) (o32 : Z) : bool := nonzero (word_at m o32 O32_FLAGS .& SCN_CODE).
Definition code_sections (m : mem) (toc : Z) : list Z :=
  List.filter (is_code m)
    (map (λ j, nk_ptr (word_at m toc TOC_O32) + O32_BYTES * j) (seqZ 0 (half_at m (nk_ptr (word_at m toc TOC_E32))))).

Lemma seqZ_map_cons (f : Z → Z) n : map f (seqZ 0 (Z.of_nat (S n))) = f 0 :: map (λ i, f (1 + i)) (seqZ 0 (Z.of_nat n)).
Proof.
  rewrite seqZ_cons by lia. cbn [map]. f_equal.
  replace (seqZ (Z.succ 0) (Z.pred (Z.of_nat (S n)))) with (map (Z.add 1) (seqZ 0 (Z.of_nat n)))
    by (replace (Z.pred (Z.of_nat (S n))) with (Z.of_nat n) by lia; exact (fmap_add_seqZ 1 0 (Z.of_nat n))).
  by rewrite map_map.
Qed.

Lemma code_loop_spec module n o32 code m :
  code_loop module n o32 code m =
  match option_list code ++ List.filter (is_code m) (map (λ j, o32 + O32_BYTES * j) (seqZ 0 (Z.of_nat n))) with
  | [] => Done None m
  | [c] => Done (Some c) m
  | _ => Panic (module ++ bytes_of ": two code sections")
  end.
Proof.
  revert o32 code. induction n as [|n IH]; intros o32 code; cbn [code_loop]; [by destruct code|].
  unfold mbind, PM_bind, reads_st. rewrite seqZ_map_cons. rewrite Z.mul_0_r, Z.add_0_r. cbn [List.filter].
  replace (map (λ i, o32 + O32_BYTES * (1 + i)) (seqZ 0 (Z.of_nat n)))
    with (map (λ j, o32 + O32_BYTES + O32_BYTES * j) (seqZ 0 (Z.of_nat n))) by (apply map_ext; intros i; lia).
  fold (is_code m o32). destruct (is_code m o32) eqn:E; cbn [negb]; [|by rewrite IH].
  destruct code as [c|]; [done|]. rewrite IH. done.
Qed.

Lemma half_at_nonneg m p : 0 <= half_at m p.
Proof. unfold half_at. apply le_join_bound, mget_list_ok. Qed.
Lemma word_at_range m p i : word_ok (word_at m p i).
Proof.
  unfold word_at. pose proof (le_join_bound _ (mget_list_ok m (p + 4 * i) 4)) as H.
  unfold zlen in H. rewrite mget_list_length in H. exact H.
Qed.

Lemma toc_loop_spec module n toc m r m' :
  toc_loop module n toc m = Done r m' →
  m' = m ∧
  match r with
  | None => Forall (λ t, name_is m (word_at m t TOC_NAME) module = false) (map (λ i, toc + TOC_BYTES * i) (seqZ 0 (Z.of_nat n)))
  | Some range => ∃ before t after,
      map (λ i, toc + TOC_BYTES * i) (seqZ 0 (Z.of_nat n)) = before ++ t :: after ∧
      Forall (λ t, name_is m (word_at m t TOC_NAME) module = false) before ∧
      name_is m (word_at m t TOC_NAME) module = true ∧ module_code module t m = Done range m
  end.
Proof.
  revert toc. induction n as [|n IH]; intros toc; cbn [toc_loop]; [by intros [= <- <-]|].
  unfold mbind, PM_bind, reads_st. rewrite seqZ_map_cons, Z.mul_0_r, Z.add_0_r.
  replace (map (λ i, toc + TOC_BYTES * (1 + i)) (seqZ 0 (Z.of_nat n)))
    with (map (λ j, toc + TOC_BYTES + TOC_BYTES * j) (seqZ 0 (Z.of_nat n))) by (apply map_ext; intros i; lia).
  destruct (name_is m (word_at m toc TOC_NAME) module) eqn:E; cbn [negb].
  - destruct (module_code module toc m) as [range m1|] eqn:Em; [|done]. intros [= <- <-].
    assert (m1 = m) as ->.
    { unfold module_code, mbind, PM_bind, reads_st in Em. destruct (negb _); [done|]. destruct (_ || _); [done|].
      rewrite code_loop_spec in Em. destruct (option_list None ++ _) as [|c [|? ?]]; [done| |done].
      destruct (_ || _); [done|]. by injection Em. }
    split; [done|]. by eexists [], toc, _.
  - intros H. apply IH in H as [-> H]. split; [done|]. destruct r as [range|]; [|by constructor].
    destruct H as (before & t & after & -> & Hb & Ht). exists (toc :: before), t, after. split_and!; [done|by constructor|..]; tauto.
Qed.

(** C36: a code range lies inside the DDR of the device.  When [rom_code_range]
    finds a module, the module is the first entry of the ROM's table with that
    name, it has exactly one code section, which is stored uncompressed, and the
    words of the range are whole words between the start and the end of DDR, so that
    a patch inside the range writes nothing else; without an entry of that name the
    answer is false, and the image is never changed. *)
Theorem rom_code_range_in_place module m r m' :
  rom_code_range module m = Done r m' →
  m' = m ∧
  match r with
  | None => Forall (λ t, name_is m (word_at m t TOC_NAME) module = false) (toc_entries m)
  | Some range => ∃ before t after c,
      toc_entries m = before ++ t :: after ∧
      Forall (λ t, name_is m (word_at m t TOC_NAME) module = false) before ∧
      name_is m (word_at m t TOC_NAME) module = true ∧
      code_sections m t = [c] ∧ word_at m c O32_FLAGS .& SCN_COMPRESSED = 0 ∧
      r_va range = word_at m c O32_REALADDR ∧ r_base range = nk_ptr (word_at m c O32_DATAPTR) ∧
      r_size range <= word_at m c O32_VSIZE < r_size range + 4 ∧ r_size range mod 4 = 0 ∧
      DDR_BASE <= r_base range ∧ r_base range + r_size range <= DDR_END
  end.
Proof.
  unfold rom_code_range, romhdr, mbind, PM_bind, reads_st. destruct (negb _); [done|]. destruct (negb _); [done|]. cbn [mret PM_ret].
  unfold toc_entries. set (hdr := nk_ptr (word_at m (nk_ptr 0x80200000) (0x44 / 4))).
  destruct (_ || _); [done|]. intros H. apply toc_loop_spec in H as [-> H].
  rewrite Z2Nat.id in H by apply word_at_range. split; [done|]. destruct r as [range|]; [|done].
  destruct H as (before & t & after & He & Hb & Hn & Hm). exists before, t, after.
  unfold module_code, mbind, PM_bind, reads_st in Hm. destruct (negb _); [done|]. destruct (_ || _); [done|].
  rewrite code_loop_spec in Hm. cbn [option_list app] in Hm. rewrite Z2Nat.id in Hm by apply half_at_nonneg.
  fold (code_sections m t) in Hm. destruct (code_sections m t) as [|c [|? ?]]; [done| |done].
  change (option_list None ++ [c]) with [c] in Hm. cbv beta iota in Hm.
  match type of Hm with context [if ?b then _ else _] => destruct b eqn:E end; [done|]. injection Hm as <-. rewrite !orb_false_iff in E.
  destruct E as [[E1%nonzero_false E2%Z.ltb_ge] E3%negb_false_iff]. unfold nk_static_va in E3. rewrite !andb_true_iff in E3.
  exists c. cbn [r_va r_size r_base].
  pose proof (word_at_range m c O32_VSIZE) as Hv. pose proof (word_at_range m c O32_DATAPTR) as Hd.
  set (vs := word_at m c O32_VSIZE) in *. set (dp := word_at m c O32_DATAPTR) in *.
  assert (vs .& not32 3 = vs - vs mod 4) as Hs.
  { change (not32 3) with (Z.shiftl (2 ^ 30 - 1) 2). rewrite land_shifted_mask, land_mod by done.
    rewrite Z.shiftl_mul_pow2, Z.shiftr_div_pow2 by done. change (2 ^ 2) with 4.
    rewrite Z.mod_small by (unfold word_ok in Hv; split; [apply Z.div_pos; lia|apply Z.div_lt_upper_bound; lia]).
    pose proof (Z.div_mod vs 4). lia. }
  rewrite Hs. pose proof (Z.mod_pos_bound vs 4 ltac:(lia)).
  unfold NK_DDR_VA, NK_DDR_END in E3. rewrite u32_id in E3 by (unfold word_ok; lia).
  assert (nk_ptr dp = dp - NK_VA_OFFSET) as Hp by (unfold nk_ptr, NK_VA_OFFSET; apply u32_id; unfold word_ok; lia).
  split_and!; try done; try lia.
  - rewrite Zminus_mod_idemp_r, Z.sub_diag. done.
  - rewrite Hp. unfold NK_VA_OFFSET, DDR_BASE. lia.
  - rewrite Hp. unfold NK_VA_OFFSET, DDR_END. lia.
Qed.

(** ** The hand-off patch *)

Definition EXACT : Z := 0xFFFFFFFF.
Definition handoff_match : list Z :=
  [0xE3A01070; 0xEE011F10; 0xE1A00000; 0xE1A0F002; 0xE1A00000; 0xE3A02000; 0xEE082F17; 0xE1A0F000; 0xE1A0F00E].
Definition handoff_mask : list Z := [EXACT; EXACT; EXACT; EXACT; EXACT; EXACT; EXACT; EXACT; EXACT].
Definition HANDOFF_JUMP : Z := 7.
Definition LDR_PC_PC_MINUS4 : Z := 0xE51FF004.

Section Handoff.
Context {E : Type}.
(** The address of the entry of the nk stage. *)
Variable nk_entry : Z.
Abbreviation St := (pf_st E).

Definition poke (i v : Z) : PM St unit := sets_st (λ s, set_text (<[i := v]> (text s)) s).

Definition handoff_callback (c : Z) (k : nat) (stream : Z) : PM St bool :=
  cfw_patch_once k;;
  poke (stream + (HANDOFF_JUMP + 1)) nk_entry;;
  poke (stream + HANDOFF_JUMP) LDR_PC_PC_MINUS4;;
  mret true.

Definition handoff_patch (range : pf_range) : PM St unit :=
  pf_patchset_create;;
  pf_maskmatch (bytes_of "handoff to nkpf") (zip handoff_match handoff_mask) true 0;;
  sets_st (set_range (Some range));;
  pf_apply handoff_callback range;;
  sets_st (set_range None);;
  pf_patchset_destroy.

(** The sequence occurs at word [i]. *)
Definition handoff_at (t : gmap Z Z) (i : Z) : bool := pairs_match (λ j, wget t (i + j)) 0 (zip handoff_match handoff_mask).
(** The words after the patch. *)
Definition handed_off (t : gmap Z Z) (i : Z) : gmap Z Z := <[i + 7 := LDR_PC_PC_MINUS4]> (<[i + 8 := nk_entry]> t).

Definition handoff_hook : hook E := Hook (zip handoff_match handoff_mask) (λ _ _, true) (λ i t, handed_off t i) id.

(** The sequence does not overlap itself. *)
Lemma handoff_disjoint t i i' : handoff_at t i = true → handoff_at t i' = true → i < i' → i + 8 < i'.
Proof.
  intros H H' Hlt. destruct (Z_lt_le_dec (i + 8) i') as [Hd|Hd]; [done|]. exfalso.
  pose proof (pairs_match_at _ _ _ 0 _ H' eq_refl) as H0. cbn [Z.of_nat] in H0. rewrite !Z.add_0_r in H0.
  assert (∀ j m, zip handoff_match handoff_mask !! j = Some (m, EXACT) → i' = i + Z.of_nat j → m = 0xE3A01070) as Hj.
  { intros j m Hm ->. pose proof (pairs_match_at _ _ _ j _ H Hm) as H1. rewrite Z.add_0_l in H1.
    apply Z.eqb_eq in H0, H1. cbn [fst snd] in H0, H1. congruence. }
  assert (i' = i + 1 ∨ i' = i + 2 ∨ i' = i + 3 ∨ i' = i + 4 ∨ i' = i + 5 ∨ i' = i + 6 ∨ i' = i + 7 ∨ i' = i + 8) as Hc by lia.
  destruct Hc as [Hc|[Hc|[Hc|[Hc|[Hc|[Hc|[Hc|Hc]]]]]]];
    [discriminate (Hj 1%nat _ eq_refl Hc)|discriminate (Hj 2%nat _ eq_refl Hc)|discriminate (Hj 3%nat _ eq_refl Hc)
    |discriminate (Hj 4%nat _ eq_refl Hc)|discriminate (Hj 5%nat _ eq_refl Hc)|discriminate (Hj 6%nat _ eq_refl Hc)
    |discriminate (Hj 7%nat _ eq_refl Hc)|discriminate (Hj 8%nat _ eq_refl Hc)].
Qed.
Lemma handoff_at_ext t t' i : (∀ j, i <= j < i + 9 → wget t j = wget t' j) → handoff_at t i = handoff_at t' i.
Proof. intros H. apply pairs_match_ext. intros j Hj. apply H. change (zlen _) with 9 in Hj. lia. Qed.

Lemma handoff_behaves rng : behaves handoff_callback rng handoff_hook 0.
Proof.
  intros k i s p Hp Hr. cbn [h_accept handoff_hook]. unfold handoff_callback, mbind, PM_bind.
  rewrite (cfw_patch_once_spec _ _ _ Hp). destruct (has_fired p); [done|]. by eexists.
Qed.
Lemma handoff_patch_one range s :
  handoff_patch range s =
  match one_patch handoff_callback (bytes_of "handoff to nkpf") (zip handoff_match handoff_mask) 0 range s with
  | Done _ s1 => Done tt (set_patches [] (set_range None s1))
  | Panic m => Panic m
  end.
Proof.
  unfold handoff_patch, one_patch, pf_patchset_destroy, mbind, PM_bind. destruct (pf_patchset_create s) as [[] s1|]; [|done].
  destruct (pf_maskmatch _ _ _ _ s1) as [[] s2|]; [|done]. destruct (sets_st _ s2) as [[] s3|]; [|done].
  by destruct (pf_apply handoff_callback range s3) as [[] s4|].
Qed.

(** The hand-off patch redirects the one jump to NK.  If [handoff_patch]
    returns, the nine-word sequence occurred at exactly one word of the range, and
    memory is unchanged but for the jump, which is now [ldr pc, [pc, #-4]], and the
    word after it, which holds the address of [nk_entry]: the sequence cannot overlap
    itself, so that the patch cannot hide a second copy.  Otherwise the stage panics. *)
Theorem handoff_patch_unique range s s' :
  handoff_patch range s = Done tt s' →
  let inside i := r_base range / 4 <= i < r_base range / 4 + Z.of_nat (Z.to_nat (r_size range .>> 2)) in
  ∃ i, inside i ∧ handoff_at (text s) i = true ∧ (∀ j, inside j → handoff_at (text s) j = true → j = i) ∧
       text s' = handed_off (text s) i.
Proof.
  rewrite handoff_patch_one. intros H inside.
  pose proof (one_patch_spec handoff_callback (bytes_of "handoff to nkpf") handoff_hook 0 range s eq_refl
    (handoff_behaves _) ltac:(done)) as Hs. cbn [h_pairs handoff_hook] in Hs.
  destruct (one_patch _ _ _ _ _ s) as [[] s1|]; [|done]. injection H as <-. destruct Hs as (i & (Hi & H1 & H3 & H4) & Ht & _).
  assert (∀ t j, occurs handoff_hook t j = handoff_at t j) as Hh by (intros; unfold occurs; by rewrite andb_true_r).
  setoid_rewrite Hh in H1. setoid_rewrite Hh in H3. setoid_rewrite Hh in H4. unfold range_lo, range_hi in *. exists i. split_and!; [exact Hi|done| |done].
  intros j Hj Hjo. destruct (Z.lt_trichotomy i j) as [Hlt|[->|Hlt]]; [|done|specialize (H3 j ltac:(subst inside; cbv beta in Hj; lia)); congruence].
  pose proof (handoff_disjoint _ _ _ H1 Hjo Hlt). specialize (H4 j ltac:(subst inside; cbv beta in Hj; lia)).
  rewrite <-(handoff_at_ext (text s)), Hjo in H4; [done|]. intros x Hx. cbn [h_edit handoff_hook]. unfold handed_off, wget.
  by rewrite !lookup_insert_ne by lia.
Qed.
End Handoff.

(** ** Examples *)

(** An image with the sequence at its third word. *)
Definition handoff_text : gmap Z Z := list_to_map (zip (seqZ 100 11) ([1; 2] ++ handoff_match)).
Definition handoff_start : pf_st unit := PfSt handoff_text [] false 0 None [] tt.

Theorem handoff_patch_unique_witness :
  let inside i := 100 <= i < 100 + 11 in
  ∃ i, inside i ∧ handoff_at handoff_text i = true ∧ (∀ j, inside j → handoff_at handoff_text j = true → j = i) ∧
       <[109 := LDR_PC_PC_MINUS4]> (<[110 := 0x3019A000]> handoff_text) = handed_off 0x3019A000 handoff_text i.
Proof.
  refine (handoff_patch_unique 0x3019A000 (PfRange 0 44 400) handoff_start
    (PfSt (<[109 := LDR_PC_PC_MINUS4]> (<[110 := 0x3019A000]> handoff_text)) [] true 0x68 None
       (bytes_of "  handoff to nkpf" ++ [10]) tt) _).
  vm_compute. reflexivity.
Defined.

(** An image with one module, one code section and no other words. *)
Definition rom_word (a v : Z) (m : mem) : mem := mset_list m a (le_split 4 v).
Definition rom_example : mem :=
  mset_list (rom_word 0x30200040 ECEC_MAGIC (rom_word 0x30200044 0x80200100 (rom_word 0x30200110 1
    (rom_word (0x30200154 + 16) 0x80200300 (rom_word (0x30200154 + 20) 0x80200400 (rom_word (0x30200154 + 24) 0x80200500
    (rom_word 0x30200400 1 (rom_word 0x30200500 0x1006 (rom_word 0x30200508 0x1006 (rom_word 0x3020050C 0x80201000
    (rom_word 0x30200510 0xC0001000 (rom_word 0x30200514 0x20 ∅)))))))))))) 0x30200300 (bytes_of "Nk.exe").

Theorem rom_code_range_in_place_witness :
  let range := PfRange 0xC0001000 0x1004 0x30201000 in
  rom_example = rom_example ∧
  ∃ before t after c,
    toc_entries rom_example = before ++ t :: after ∧
    Forall (λ t, name_is rom_example (word_at rom_example t TOC_NAME) (bytes_of "nk.exe") = false) before ∧
    name_is rom_example (word_at rom_example t TOC_NAME) (bytes_of "nk.exe") = true ∧
    code_sections rom_example t = [c] ∧ word_at rom_example c O32_FLAGS .& SCN_COMPRESSED = 0 ∧
    r_va range = word_at rom_example c O32_REALADDR ∧ r_base range = nk_ptr (word_at rom_example c O32_DATAPTR) ∧
    r_size range <= word_at rom_example c O32_VSIZE < r_size range + 4 ∧ r_size range mod 4 = 0 ∧
    DDR_BASE <= r_base range ∧ r_base range + r_size range <= DDR_END.
Proof.
  refine (rom_code_range_in_place (bytes_of "nk.exe") rom_example (Some (PfRange 0xC0001000 0x1004 0x30201000)) rom_example _).
  vm_compute. reflexivity.
Defined.
