(* ===== verification/Printf.v ===== *)
(** * Printf: the formatter of the firmware ([src/baremetal/cfw/core/printf.c])

    [printf] and the message that [panic] keeps for aipc-boot.  The characters
    that reach the log and the screen are a list; the message buffer is a list of
    its bytes.  The variable arguments are a list of numbers and strings, and a
    conversion whose argument is missing or of the other kind, which C leaves
    undefined, has no result. *)
From S2P Require Import Prelude.

Definition CFW_EBOOT : Z := 1.
Definition CFW_NK : Z := 2.
Definition MESSAGE_SIZE : Z := 96.

Inductive arg := ANum (v : Z) | AStr (l : list Z).

(** What was shown; [message], [capture] as an index into it and [capture_left];
    the status of the result. *)
Record out_st := OutSt { shown : list Z; message : list Z; capture : Z; capture_left : Z; status : Z }.

Definition out (c : Z) (s : out_st) : out_st :=
  let s := OutSt (shown s ++ [c]) (message s) (capture s) (capture_left s) (status s) in
  if 1 <? capture_left s then
    OutSt (shown s) (zset (zset (message s) (capture s) c) (capture s + 1) 0) (capture s + 1) (capture_left s - 1) (status s)
  else s.

Fixpoint out_list (l : list Z) (s : out_st) : out_st :=
  match l with [] => s | c :: l' => out_list l' (out c s) end.

(** The [do] loop: the digits from the last one; [buf] has 12 places. *)
Definition digit_of (d : Z) : Z := if d <? 10 then chr "0" + d else chr "A" + d - 10.
Fixpoint num_loop (fuel : nat) (v base : Z) : list Z :=
  match fuel with
  | O => []
  | S fuel' =>
      let d := v mod base in
      let v := v / base in
      digit_of d :: if nonzero v then num_loop fuel' v base else []
  end.
Definition num_text (v base width pad : Z) : list Z :=
  let buf := num_loop 12 v base in
  replicate (Z.to_nat (width - zlen buf)) pad ++ rev buf.
Definition out_num (v base width pad : Z) (s : out_st) : out_st := out_list (num_text v base width pad) s.

(** The digits of a width; [unsigned] arithmetic. *)
Fixpoint width_loop (fmt : list Z) (width : Z) : Z * list Z :=
  match fmt with
  | c :: fmt' => if is_dec c then width_loop fmt' (u32 (width * 10 + (c - chr "0"))) else (width, fmt)
  | [] => (width, [])
  end.

(** One conversion: the state and the arguments left. *)
Definition conversion (c width pad : Z) (ap : list arg) (s : out_st) : option (out_st * list arg) :=
  if c =? chr "c" then match ap with ANum v :: ap => Some (out (u8 v) s, ap) | _ => None end
  else if c =? chr "s" then match ap with AStr l :: ap => Some (out_list l s, ap) | _ => None end
  else if c =? chr "u" then match ap with ANum v :: ap => Some (out_num v 10 width pad s, ap) | _ => None end
  else if (c =? chr "x") || (c =? chr "X") then match ap with ANum v :: ap => Some (out_num v 16 width pad s, ap) | _ => None end
  else if c =? chr "p" then
    match ap with ANum v :: ap => Some (out_num v 16 8 (chr "0") (out (chr "x") (out (chr "0") s)), ap) | _ => None end
  else if c =? chr "%" then Some (out (chr "%") s, ap)
  else Some (out (chr "?") s, ap).

(** [fuel] bounds the characters of the format. *)
Fixpoint vprintf_loop (fuel : nat) (fmt : list Z) (ap : list arg) (s : out_st) : option out_st :=
  match fuel, fmt with
  | O, _ => None
  | S _, [] => Some s
  | S fuel', c :: fmt =>
      if negb (c =? chr "%") then vprintf_loop fuel' fmt ap (out c s)
      else
        let pad := if match fmt with d :: _ => d =? chr "0" | [] => false end then chr "0" else chr " " in
        let '(width, fmt) := width_loop fmt 0 in
        match fmt with
        | [] => None
        | c :: fmt =>
            match conversion c width pad ap s with
            | Some (s, ap) => vprintf_loop fuel' fmt ap s
            | None => None
            end
        end
  end.
Definition vprintf (fmt : list Z) (ap : list arg) (s : out_st) : option out_st := vprintf_loop (S (length fmt)) fmt ap s.
Definition printf (fmt : list Z) (ap : list arg) (s : out_st) : option out_st := vprintf fmt ap s.

(** [panic] up to the return to aipc-boot or the halt. *)
Definition panic (cfw_stage : Z) (fmt : list Z) (ap : list arg) (s : out_st) : option out_st :=
  if cfw_stage =? CFW_EBOOT then
    match printf (bytes_of "panic: ") [] s with
    | Some s =>
        match vprintf fmt ap (OutSt (shown s) (message s) 0 MESSAGE_SIZE (status s)) with
        | Some s =>
            match printf [10] [] (OutSt (shown s) (message s) (capture s) 0 (status s)) with
            | Some s => Some (OutSt (shown s) (message s) (capture s) (capture_left s) (-1))
            | None => None
            end
        | None => None
        end
    | None => None
    end
  else
    match printf ([10] ++ bytes_of "panic: ") [] s with
    | Some s =>
        match vprintf fmt ap s with
        | Some s => printf ([10] ++ bytes_of "System halted.") [] s
        | None => None
        end
    | None => None
    end.

(** ** Numbers *)

Definition digit_value (c : Z) : Z := if c <? chr "A" then c - chr "0" else c - chr "A" + 10.
Definition num_value (base : Z) (l : list Z) : Z := fold_left (λ acc c, acc * base + digit_value c) l 0.

Lemma digit_of_value d : 0 <= d < 16 → digit_value (digit_of d) = d.
Proof. intros Hd. unfold digit_of, digit_value. change (chr "0") with 48. change (chr "A") with 65. case_match; case_match; lia. Qed.
Lemma fold_value_acc base l acc : fold_left (λ acc c, acc * base + digit_value c) l acc = acc * base ^ zlen l + num_value base l.
Proof.
  unfold num_value. revert acc. induction l as [|c l IH]; intros acc; cbn [fold_left]; [rewrite zlen_nil; lia|].
  rewrite (IH (acc * base + _)), (IH (0 * base + _)). rewrite zlen_cons, Z.pow_add_r by (try lia; apply zlen_nonneg). lia.
Qed.
Lemma num_value_snoc base l c : num_value base (l ++ [c]) = num_value base l * base + digit_value c.
Proof. unfold num_value. by rewrite fold_left_app. Qed.

Lemma num_loop_spec fuel v base :
  2 <= base <= 16 → 0 <= v < base ^ Z.of_nat fuel → (0 < fuel)%nat →
  num_value base (rev (num_loop fuel v base)) = v ∧ (1 <= length (num_loop fuel v base) <= fuel)%nat ∧
  (v ≠ 0 → hd 0 (rev (num_loop fuel v base)) ≠ chr "0").
Proof.
  intros Hb. revert v. induction fuel as [|fuel IH]; intros v Hv Hf; [lia|]. cbn [num_loop].
  pose proof (Z.div_mod v base ltac:(lia)) as Hdm. pose proof (Z.mod_pos_bound v base ltac:(lia)) as Hm.
  assert (0 <= v / base < base ^ Z.of_nat fuel) as Hq.
  { split; [apply Z.div_pos; lia|]. apply Z.div_lt_upper_bound; [lia|].
    replace (Z.of_nat (S fuel)) with (Z.of_nat fuel + 1) in Hv by lia. rewrite Z.pow_add_r in Hv by lia. lia. }
  destruct (nonzero (v / base)) eqn:En.
  - apply nonzero_true in En. destruct fuel as [|fuel]; [cbn in Hq; lia|].
    destruct (IH (v / base) Hq ltac:(lia)) as (H1 & H2 & H3). cbn [rev length].
    rewrite num_value_snoc, H1, digit_of_value by lia. split_and!; [lia|lia|lia|].
    intros _. specialize (H3 En). destruct (rev (num_loop (S fuel) (v / base) base)) eqn:E; [|exact H3].
    apply (f_equal (@length Z)) in E. rewrite length_rev in E. cbn [length] in E. lia.
  - apply nonzero_false in En. cbn [rev app length hd]. unfold num_value. cbn [fold_left].
    rewrite digit_of_value by lia. split_and!; [lia|lia|lia|].
    intros Hv0. unfold digit_of. change (chr "0") with 48. change (chr "A") with 65. case_match; lia.
Qed.

(** A number is printed in full.  For a 32-bit number and base 10 or 16 the
    digit buffer of 12 places is never exceeded, the digits denote the number, the
    first one is not 0 unless the number is, and the padding in front brings the
    text to at least the width. *)
Theorem num_text_denotes v base width pad :
  word_ok v → base = 10 ∨ base = 16 →
  ∃ k digits, num_text v base width pad = replicate k pad ++ digits ∧
    num_value base digits = v ∧ 1 <= zlen digits <= 12 ∧ (v ≠ 0 → hd 0 digits ≠ chr "0") ∧
    Z.of_nat k = Z.max 0 (width - zlen digits).
Proof.
  intros Hv Hb. exists (Z.to_nat (width - zlen (num_loop 12 v base))), (rev (num_loop 12 v base)).
  destruct (num_loop_spec 12 v base) as (H1 & H2 & H3); [lia| |lia|].
  { unfold word_ok in Hv. split; [lia|]. destruct Hb as [-> | ->]; lia. }
  unfold zlen in *. rewrite length_rev. split_and!; try done; lia.
Qed.

(** ** The captured message *)

(** [l] was output from [s] to [s']: shown in full, and kept as far as it fits. *)
Definition emitted (l : list Z) (s s' : out_st) : Prop :=
  shown s' = shown s ++ l ∧ status s' = status s ∧
  let kept := take (Z.to_nat (capture_left s - 1)) l in
  capture s' = capture s + zlen kept ∧ capture_left s' = capture_left s - zlen kept ∧
  length (message s') = length (message s) ∧
  (0 <= capture s → capture s + capture_left s <= zlen (message s) →
   ∀ i, 0 <= i < zlen (message s) →
     znth (message s') i =
       if (capture s <=? i) && (i <? capture s + zlen kept) then znth kept (i - capture s)
       else if (i =? capture s + zlen kept) && (0 <? zlen kept) then 0 else znth (message s) i).

Lemma emitted_nil s : emitted [] s s.
Proof.
  unfold emitted. rewrite take_nil, app_nil_r. change (zlen []) with 0. rewrite Z.add_0_r, Z.sub_0_r. split_and!; try done.
  intros H1 H2 i Hi. destruct ((capture s <=? i) && (i <? capture s)) eqn:E; [lia|]. by rewrite andb_false_r.
Qed.
Lemma emitted_one c s : 0 <= capture s → capture s + capture_left s <= zlen (message s) → emitted [c] s (out c s).
Proof.
  intros Hc Hl. unfold emitted, out. cbn [capture_left]. destruct (1 <? capture_left s) eqn:E; cbn [shown status capture capture_left message].
  - replace (Z.to_nat (capture_left s - 1)) with (S (Z.to_nat (capture_left s - 2))) by lia. cbn [take]. rewrite take_nil.
    change (zlen [c]) with 1. split_and!; try done.
    + unfold zset. by rewrite !length_insert.
    + intros _ _ i Hi.
      assert (∀ (l : list Z) j v, zlen (zset l j v) = zlen l) as Hz by (intros; unfold zlen, zset; by rewrite length_insert).
      destruct (decide (i = capture s + 1)) as [->|Hne].
      { rewrite znth_zset_eq by (rewrite Hz; lia). replace ((capture s <=? capture s + 1) && _) with false by lia.
        by rewrite Z.eqb_refl. }
      rewrite znth_zset_ne by lia. replace (i =? capture s + 1) with false by lia. cbn [andb].
      destruct (decide (i = capture s)) as [->|Hne2].
      { rewrite znth_zset_eq by lia. replace ((capture s <=? capture s) && (capture s <? capture s + 1)) with true by lia.
        by rewrite Z.sub_diag. }
      rewrite znth_zset_ne by lia. by replace ((capture s <=? i) && (i <? capture s + 1)) with false by lia.
  - replace (Z.to_nat (capture_left s - 1)) with 0%nat by lia. cbn [take]. change (zlen []) with 0.
    rewrite Z.add_0_r, Z.sub_0_r. split_and!; try done. intros _ _ i Hi.
    destruct ((capture s <=? i) && (i <? capture s)) eqn:E2; [lia|]. by rewrite andb_false_r.
Qed.
Lemma emitted_app l k s s1 s2 :
  0 <= capture s → capture s + capture_left s <= zlen (message s) →
  emitted l s s1 → emitted k s1 s2 → emitted (l ++ k) s s2.
Proof.
  intros Hc Hl (A1 & A2 & A3 & A4 & A5 & A6) (B1 & B2 & B3 & B4 & B5 & B6). cbn zeta in *.
  set (n := Z.to_nat (capture_left s - 1)) in *. set (kl := take n l) in *.
  set (kk := take (Z.to_nat (capture_left s1 - 1)) k) in *.
  assert (take n (l ++ k) = kl ++ kk) as Hk.
  { rewrite take_app. fold kl. f_equal. unfold kk. rewrite A4. f_equal. unfold n, kl, zlen. rewrite length_take. lia. }
  unfold emitted. cbn zeta. fold n. rewrite Hk, zlen_app, B1, B2, B3, B4, B5, A1, A2, A3, A4, A5, app_assoc.
  pose proof (zlen_nonneg kl). pose proof (zlen_nonneg kk).
  assert (zlen (message s1) = zlen (message s)) as Hm by (unfold zlen; by rewrite A5).
  split_and!; try done; [lia|lia|]. intros _ _ i Hi. rewrite B6, A6, A3 by lia.
  assert (zlen kk = 0 ∨ 0 < zlen kk) as [Hz|Hz] by lia.
  - rewrite Hz, !Z.add_0_r. replace ((capture s + zlen kl <=? i) && (i <? capture s + zlen kl)) with false by lia.
    rewrite Z.ltb_irrefl, andb_false_r. destruct kk; [|unfold zlen in Hz; cbn in Hz; lia]. by rewrite app_nil_r.
  - rewrite (proj2 (Z.ltb_lt 0 (zlen kk))) by done. rewrite (proj2 (Z.ltb_lt 0 (zlen kl + zlen kk))) by lia. rewrite !andb_true_r.
    destruct ((capture s + zlen kl <=? i) && (i <? capture s + zlen kl + zlen kk)) eqn:E1.
    + replace ((capture s <=? i) && (i <? capture s + (zlen kl + zlen kk))) with true by lia.
      rewrite znth_app_r by lia. f_equal. lia.
    + destruct (i =? capture s + zlen kl + zlen kk) eqn:E2.
      * replace ((capture s <=? i) && (i <? capture s + (zlen kl + zlen kk))) with false by lia.
        by replace (i =? capture s + (zlen kl + zlen kk)) with true by lia.
      * destruct ((capture s <=? i) && (i <? capture s + zlen kl)) eqn:E3.
        -- replace ((capture s <=? i) && (i <? capture s + (zlen kl + zlen kk))) with true by lia.
           by rewrite znth_app_l by lia.
        -- replace ((capture s <=? i) && (i <? capture s + (zlen kl + zlen kk))) with false by lia.
           replace (i =? capture s + (zlen kl + zlen kk)) with false by lia.
           by replace (i =? capture s + zlen kl) with false by lia.
Qed.

(** The buffer has room for what [capture_left] says. *)
Definition room_ok (s : out_st) : Prop := 0 <= capture s ∧ capture s + capture_left s <= zlen (message s).
Definition emits (s s' : out_st) : Prop := room_ok s → room_ok s' ∧ ∃ l, emitted l s s'.

Lemma emitted_room l s s' : room_ok s → emitted l s s' → room_ok s'.
Proof.
  unfold room_ok, emitted, zlen. intros [H1 H2] (_ & _ & -> & -> & Hm & _). rewrite Hm. lia.
Qed.
#[local] Instance emits_preorder : PreOrder emits.
Proof.
  split; [intros s H; split; [done|]; exists []; apply emitted_nil|].
  intros s1 s2 s3 H12 H23 H. destruct (H12 H) as [H2 [l Hl]]. destruct (H23 H2) as [H3 [k Hk]]. split; [done|].
  exists (l ++ k). destruct H. by eapply emitted_app.
Qed.
Lemma out_emits c s : emits s (out c s).
Proof. intros [H1 H2]. pose proof (emitted_one c s H1 H2). split; [|by exists [c]]. by eapply emitted_room. Qed.
Lemma out_list_emitted l s : room_ok s → emitted l s (out_list l s).
Proof.
  revert s. induction l as [|c l IH]; intros s H; cbn [out_list]; [apply emitted_nil|].
  destruct (out_emits c s H) as [H1 _]. destruct H as [Ha Hb]. change (c :: l) with ([c] ++ l).
  eapply emitted_app; [done|done|by apply emitted_one|]. by apply IH.
Qed.
Lemma out_list_emits l s : emits s (out_list l s).
Proof. intros H. pose proof (out_list_emitted l s H). split; [by eapply emitted_room|by exists l]. Qed.
Lemma conversion_emits c width pad ap s s' ap' : conversion c width pad ap s = Some (s', ap') → emits s s'.
Proof.
  unfold conversion, out_num.
  repeat case_match; intros [= <- <-]; try apply out_emits; try apply out_list_emits.
  etrans; [apply out_emits|]. etrans; [apply out_emits|]. apply out_list_emits.
Qed.
Lemma vprintf_emits fmt ap s s' : vprintf fmt ap s = Some s' → emits s s'.
Proof.
  unfold vprintf. generalize (S (length fmt)). intros fuel. revert fmt ap s.
  induction fuel as [|fuel IH]; intros fmt ap s; cbn [vprintf_loop]; [done|].
  destruct fmt as [|c fmt]; [by intros [= <-]|]. destruct (negb (c =? chr "%")).
  { intros H%IH. etrans; [apply out_emits|exact H]. }
  destruct (width_loop fmt 0) as [width [|c' fmt']]; [done|].
  destruct (conversion _ _ _ _ _) as [[s1 ap1]|] eqn:Ec; [|done]. intros H%IH.
  etrans; [by eapply conversion_emits|exact H].
Qed.
Lemma vprintf_plain l s : Forall (λ c, c ≠ chr "%") l → vprintf l [] s = Some (out_list l s).
Proof.
  unfold vprintf. intros Hl. revert s. induction Hl as [|c l Hc Hl IH]; intros s; [done|].
  cbn [length]. cbn [vprintf_loop]. rewrite (proj2 (Z.eqb_neq _ _) Hc). cbn [negb out_list]. apply IH.
Qed.

Lemma out_list_closed l sh msg c st :
  out_list l (OutSt sh msg c 0 st) = OutSt (sh ++ l) msg c 0 st.
Proof.
  revert sh. induction l as [|x l IH]; intros sh; cbn [out_list]; [by rewrite app_nil_r|].
  unfold out. cbn [shown message capture capture_left status]. change (1 <? 0) with false. cbv iota. rewrite IH. by rewrite <-app_assoc.
Qed.

(** What the message buffer holds after a format that is captured. *)
Lemma vprintf_captured fmt ap sh msg st s' :
  zlen msg = MESSAGE_SIZE → vprintf fmt ap (OutSt sh msg 0 MESSAGE_SIZE st) = Some s' →
  ∃ l, shown s' = sh ++ l ∧ status s' = st ∧ zlen (message s') = MESSAGE_SIZE ∧
       let kept := take 95 l in
       (∀ i, 0 <= i < zlen kept → znth (message s') i = znth l i) ∧
       (l ≠ [] → znth (message s') (zlen kept) = 0).
Proof.
  intros Hm Hv. assert (room_ok (OutSt sh msg 0 MESSAGE_SIZE st)) as Hr.
  { unfold room_ok. cbn [capture capture_left message]. rewrite Hm. done. }
  destruct (vprintf_emits _ _ _ _ Hv Hr) as [_ [l Hl]]. clear Hv Hr. exists l.
  destruct Hl as (Hsh & Hst & _ & _ & Hlen & Hmsg). cbn [shown status message capture capture_left] in *.
  change (Z.to_nat (MESSAGE_SIZE - 1)) with 95%nat in *. cbn zeta in *.
  assert (zlen (message s') = MESSAGE_SIZE) as Hm' by (unfold zlen in *; lia).
  pose proof (zlen_nonneg (take 95 l)) as Hk0.
  assert (zlen (take 95 l) <= 95) as Hk by (unfold zlen; rewrite length_take; lia).
  specialize (Hmsg ltac:(lia) ltac:(lia)). split_and!; [done|done|done|..].
  - intros i Hi. unfold MESSAGE_SIZE in *. rewrite Hmsg by lia. rewrite Z.add_0_l, Z.sub_0_r.
    replace ((0 <=? i) && (i <? zlen (take 95 l))) with true by lia.
    change 95%nat with (Z.to_nat 95). apply znth_take. unfold zlen in *; lia.
  - intros Hne. unfold MESSAGE_SIZE in *. rewrite Hmsg by lia. rewrite Z.add_0_l, Z.eqb_refl.
    replace ((0 <=? zlen (take 95 l)) && (zlen (take 95 l) <? zlen (take 95 l))) with false by lia.
    destruct l as [|c l]; [done|]. cbn [take] in *. rewrite zlen_cons in *. pose proof (zlen_nonneg (take 94 l)).
    by replace (0 <? 1 + zlen (take 94 l)) with true by lia.
Qed.

(** A panic leaves its message for aipc-boot.  A panic of the EBOOT stage shows
    the whole text on the log and the screen and fails the stage, and its result
    holds the first 95 characters of the text with a NUL behind them: the buffer of 96
    bytes is never exceeded, whatever the format and its arguments. *)
Theorem panic_keeps_message fmt ap s s' :
  zlen (message s) = MESSAGE_SIZE → capture_left s = 0 →
  panic CFW_EBOOT fmt ap s = Some s' →
  ∃ l, shown s' = shown s ++ bytes_of "panic: " ++ l ++ [10] ∧ status s' = -1 ∧
       zlen (message s') = MESSAGE_SIZE ∧
       let kept := take 95 l in
       (∀ i, 0 <= i < zlen kept → znth (message s') i = znth l i) ∧
       (l ≠ [] → znth (message s') (zlen kept) = 0).
Proof.
  intros Hm Hleft. unfold panic, printf. change (CFW_EBOOT =? CFW_EBOOT) with true. cbv iota.
  rewrite vprintf_plain by (repeat constructor; done). destruct s as [sh msg c left st]. cbn [message capture_left capture shown] in *.
  subst left. rewrite out_list_closed. cbn [shown message status].
  destruct (vprintf fmt ap _) as [s3|] eqn:Ev; [|done].
  destruct (vprintf_captured _ _ _ _ _ _ Hm Ev) as (l & Hsh & Hst & Hm3 & Hk1 & Hk2).
  rewrite vprintf_plain by (repeat constructor; done). rewrite out_list_closed. intros [= <-]. cbn [shown message status].
  exists l. rewrite Hsh, <-!app_assoc. split_and!; done.
Qed.

Definition panic_start : out_st := OutSt [] (replicate 96 0) 0 0 0.

Theorem num_text_denotes_witness :
  ∃ k digits, num_text 0x3019C000 16 10 (chr "0") = replicate k (chr "0") ++ digits ∧
    num_value 16 digits = 0x3019C000 ∧ 1 <= zlen digits <= 12 ∧ (0x3019C000 ≠ 0 → hd 0 digits ≠ chr "0") ∧
    Z.of_nat k = Z.max 0 (10 - zlen digits).
Proof. refine (num_text_denotes 0x3019C000 16 10 (chr "0") _ _); [split; done|by right]. Defined.

Theorem panic_keeps_message_witness :
  let s' := OutSt (bytes_of "panic: module 3 bad" ++ [10]) (bytes_of "module 3 bad" ++ replicate 84 0) 12 0 (-1) in
  ∃ l, shown s' = [] ++ bytes_of "panic: " ++ l ++ [10] ∧ status s' = -1 ∧
       zlen (message s') = MESSAGE_SIZE ∧
       let kept := take 95 l in
       (∀ i, 0 <= i < zlen kept → znth (message s') i = znth l i) ∧
       (l ≠ [] → znth (message s') (zlen kept) = 0).
Proof.
  refine (panic_keeps_message (bytes_of "module %u bad") [ANum 3] panic_start
    (OutSt (bytes_of "panic: module 3 bad" ++ [10]) (bytes_of "module 3 bad" ++ replicate 84 0) 12 0 (-1)) _ _ _);
    [done|done|vm_compute; reflexivity].
Defined.
