(* ===== verification/Components.v ===== *)
(** * Components: the patches of the custom firmware ([src/baremetal/cfw/components], [cfw/eboot/eboot.c])

    Each component is a list of mask patterns with callbacks for the finder of
    [Pf]; [eboot_main] runs those of the EBOOT stage and then the hand-off patch of
    [Cfw].  The words of memory are the map [text], the word at address [a] at
    [a / 4]; the statics of the components are the environment of the finder. *)
From S2P Require Import Prelude Machine Log Step Printf Pf Oneshot Cfw.

Definition CFW_FIX : Z := 1 .<< 0.
Definition CFW_EXTRA : Z := 1 .<< 1.
Definition CFW_DEFAULT_ON : Z := 1 .<< 2.
Definition NK_RESIDENT_PHYS : Z := 0x3019C000.
Definition NK_RESIDENT_MAX : Z := 0x00004000.
Definition NK_RESIDENT_VA : Z := NK_RESIDENT_PHYS + NK_VA_OFFSET.

(** [found] of power_hold.c and [installed] of core/resident.c. *)
Record statics := Statics { found : bool; installed : bool }.

Section Components.
(** The symbols of the linked images, and the words of the nk resident. *)
Variables (nk_entry irq_hook ioctl_hook irq_orig ioctl_resume : Z) (nk_resident : list Z).
Abbreviation St := (pf_st statics).
Abbreviation P := (PM St).

(** [%p] of [printf]. *)
Definition ptr_text (v : Z) : list Z := bytes_of "0x" ++ num_text v 16 8 (chr "0").

(** The index of the literal of the [ldr rX, [pc, #imm]] at [ldr]. *)
Definition ldr_literal (t : gmap Z Z) (ldr : Z) : Z := (4 * ldr + 8 + (wget t ldr .& 0xFFF)) / 4.
(** [pf_ptr_to_va(cfw_range, stream)]; [cfw_range] is set while callbacks run. *)
Definition ptr_to_va (range : option pf_range) (stream : Z) : Z :=
  match range with Some r => u32 (r_va r + u32 (4 * stream - r_base r)) | None => 0 end.

Fixpoint put_words (dst : Z) (src : list Z) : P unit :=
  match src with [] => mret tt | w :: src' => poke dst w;; put_words (dst + 1) src' end.

(** ** Battery check *)

Definition MOV_R0_1 : Z := 0xE3A00001.
Definition BX_LR : Z := 0xE12FFF1E.
Definition check_match : list Z :=
  [0xE92D4030; 0xE3A04003; 0xEB000000; 0xEB000000; 0xE3500000; 0x1A000000; 0xEB000000; 0xE3A05000; 0xE3855001; 0xE1500005; 0xCA000000].
Definition check_mask : list Z :=
  [EXACT; EXACT; 0xFF000000; 0xFF000000; EXACT; 0xFF000000; 0xFF000000; 0xFFFFF000; EXACT; EXACT; 0xFF000000].
Definition check_callback (k : nat) (stream : Z) : P bool :=
  cfw_patch_once k;;
  poke stream MOV_R0_1;;
  poke (stream + 1) BX_LR;;
  mret true.
Definition battery_check_skip_patch : P unit :=
  pf_maskmatch (bytes_of "battery check") (zip check_match check_mask) true 0.

(** ** Power hold *)

Definition hold1582_match : list Z := [0xE3E03801; 0xE5802098; 0xE5803094; 0xE3E03000; 0xE580307C; 0xE3E03000].
Definition hold1582_mask : list Z := [EXACT; EXACT; EXACT; EXACT; EXACT; EXACT].
Definition hold1582_to : list Z := [0xE3822C02; 0xE1E03002; 0xE5802098; 0xE5803094; 0xE3E03000; 0xE580307C].
Definition hold188_match : list Z :=
  [0xE3E03000; 0xE580308C; 0xE3E03000; 0xE3A02000; 0xE5803094; 0xE58020E0; 0xE58020E4; 0xE58020E8; 0xE3E03000; 0xE58020EC;
   0xE58030F0; 0xE3E03000; 0xE58030F4; 0xE3E03000; 0xE58030F8; 0xE3E03000; 0xE58030FC; 0xE5802080; 0xE5802088; 0xE5802090;
   0xE5802098].
Definition hold188_mask : list Z :=
  [EXACT; EXACT; EXACT; EXACT; EXACT; EXACT; EXACT; EXACT; EXACT; EXACT; EXACT; EXACT; EXACT; EXACT; EXACT; EXACT; EXACT;
   EXACT; EXACT; EXACT; EXACT].
Definition HOLD188_DIR : Z := 2.
Definition MVN_R3_0x200 : Z := 0xE3E03C02.
Definition HOLD188_OUT : Z := 15.
Definition hold188_out_to : list Z := [0xE58030FC; 0xE5802080; 0xE5802088; 0xE5802090; 0xE3A02C02].

Definition set_found (e : statics) : statics := Statics true (installed e).
Definition env_upd (f : statics → statics) : P unit :=
  sets_st (λ s, PfSt (text s) (patches s) (set_required s) (arena_used s) (cfw_range s) (printed s) (f (env s))).

Definition hold1582_callback (k : nat) (stream : Z) : P bool :=
  cfw_patch_once k;;
  env_upd set_found;;
  put_words stream hold1582_to;;
  mret true.
Definition hold188_callback (k : nat) (stream : Z) : P bool :=
  cfw_patch_once k;;
  env_upd set_found;;
  poke (stream + HOLD188_DIR) MVN_R3_0x200;;
  put_words (stream + HOLD188_OUT) hold188_out_to;;
  mret true.
Definition power_hold_patch : P unit :=
  pf_maskmatch (bytes_of "power hold v1.58.2") (zip hold1582_match hold1582_mask) false 1;;
  pf_maskmatch (bytes_of "power hold v1.88") (zip hold188_match hold188_mask) false 2.
Definition power_hold_finish : P unit :=
  e ← reads_st env;
  if negb (found (e : statics)) then Pf.panic (bytes_of "Missing patch: power hold") else mret tt.

(** ** RTC stall *)

Definition BOOTARGS_RTC_PRESENT : Z := 0xA0020848.
Definition ARM_BX_LR : Z := 0xE12FFF1E.
Definition LDR_FLAG : Z := 6.
Definition POP_EARLY : Z := 13.
Definition rtc_match : list Z :=
  [0xE92D4000; 0xE59F4000; 0xE3A01000; 0xE5943068; 0xE3530000; 0x0A000000; 0xE59F3000; 0xE5933000; 0xE3530000; 0x059F2000;
   0x05923000; 0x02833001; 0x05823000; 0x08BD4000; 0x012FFF1E].
Definition rtc_mask : list Z :=
  [0xFFFFF000; 0xFFFFF000; EXACT; EXACT; EXACT; 0xFF000000; 0xFFFFF000; EXACT; EXACT; 0xFFFFF000; EXACT; EXACT; EXACT;
   0xFFFFF000; EXACT].
Definition rtc_stall_fix_callback (k : nat) (stream : Z) : P bool :=
  t ← reads_st text;
  if negb ((wget t stream .& 0xFFFF) =? (wget t (stream + POP_EARLY) .& 0xFFFF)) then mret false
  else if negb (wget t (ldr_literal t (stream + LDR_FLAG)) =? BOOTARGS_RTC_PRESENT) then mret false
  else
    cfw_patch_once k;;
    poke stream ARM_BX_LR;;
    range ← reads_st cfw_range;
    say (bytes_of "  RTC poll " ++ ptr_text (ptr_to_va range stream) ++ [10]);;
    mret true.
Definition rtc_stall_fix_patch : P unit :=
  pf_maskmatch (bytes_of "rtc_stall_fix") (zip rtc_match rtc_mask) true 3.

(** ** Diagnostics *)

Definition res_word (va value : Z) : P unit := poke (nk_ptr va / 4) value.

Definition IRQ_LDR_IP : Z := 11.
Definition irq_match : list Z :=
  [0xE24EE004; 0xE92D500F; 0xE28E0000; 0xE3500080; 0x3B000000; 0xE14F1000; 0xE92D0002; 0xE1A0000E; 0xE321F093; 0xE92D4000;
   0xE92D0001; 0xE59FC000; 0xE1A0E00F; 0xE12FFF1C].
Definition irq_mask : list Z :=
  [EXACT; EXACT; 0xFFFFF000; EXACT; 0xFF000000; EXACT; EXACT; EXACT; EXACT; EXACT; EXACT; 0xFFFFF000; EXACT; EXACT].
Definition irq_callback (k : nat) (stream : Z) : P bool :=
  t ← reads_st text;
  let lit := ldr_literal t (stream + IRQ_LDR_IP) in
  if negb (nk_static_va (wget t lit) 4) then mret false
  else
    cfw_patch_once k;;
    res_word irq_orig (wget t lit);;
    t ← reads_st text;
    say (bytes_of "  irq handler " ++ ptr_text (wget t lit) ++ [10]);;
    poke lit irq_hook;;
    mret true.
Definition irq_patch : P unit := pf_maskmatch (bytes_of "irq") (zip irq_match irq_mask) true 4.

Definition IOCTL_LDR_TABLE : Z := 6.
Definition ioctl_match : list Z :=
  [0xE92D4FF0; 0xE24DD008; 0xE1A09003; 0xE1A0A002; 0xE1A0B001; 0xE1A07000; 0xE59F6000; 0xE3A08000; 0xE3A05000; 0xE596E008].
Definition ioctl_mask : list Z := [EXACT; EXACT; EXACT; EXACT; EXACT; EXACT; 0xFFFFF000; EXACT; EXACT; EXACT].
Definition ioctl_callback (k : nat) (stream : Z) : P bool :=
  t ← reads_st text;
  range ← reads_st cfw_range;
  let table := wget t (ldr_literal t (stream + IOCTL_LDR_TABLE)) in
  let entry := ptr_to_va range stream in
  if negb (nk_static_va table 4) || negb ((wget t (nk_ptr table / 4) .& 0xFFFF0000) =? 0x01010000) then mret false
  else
    cfw_patch_once k;;
    res_word ioctl_resume (u32 (entry + 4));;
    poke stream (0xEA000000 .| ((u32 (ioctl_hook - entry - 8) .>> 2) .& 0x00FFFFFF));;
    say (bytes_of "  OEMIoControl " ++ ptr_text entry ++ [10]);;
    mret true.
Definition ioctl_patch : P unit := pf_maskmatch (bytes_of "ioctl") (zip ioctl_match ioctl_mask) true 5.

Definition set_installed (e : statics) : statics := Statics (found e) true.
Definition cfw_nk_resident_install : P unit :=
  e ← reads_st env;
  if installed (e : statics) then mret tt
  else
    env_upd set_installed;;
    put_words (NK_RESIDENT_PHYS / 4) (replicate (Z.to_nat (NK_RESIDENT_MAX / 4)) 0);;
    put_words (NK_RESIDENT_PHYS / 4) nk_resident;;
    say (bytes_of "  nk resident " ++ ptr_text NK_RESIDENT_VA ++ [10]).

(** ** The components and the EBOOT stage *)

(** The callbacks by the numbers that the patterns carry. *)
Definition component_callback (c : Z) (k : nat) (stream : Z) : P bool :=
  if c =? 0 then check_callback k stream
  else if c =? 1 then hold1582_callback k stream
  else if c =? 2 then hold188_callback k stream
  else if c =? 3 then rtc_stall_fix_callback k stream
  else if c =? 4 then irq_callback k stream
  else ioctl_callback k stream.

Definition cfw_power_hold : component :=
  Component (E := statics) (bytes_of "power_hold") None (Some power_hold_finish) [CfwPatch CFW_EBOOT [] power_hold_patch].
Definition cfw_battery_check_skip : component :=
  Component (E := statics) (bytes_of "battery_check_skip") None None [CfwPatch CFW_EBOOT [] battery_check_skip_patch].
Definition cfw_rtc_stall_fix : component :=
  Component (E := statics) (bytes_of "rtc_stall_fix") None None [CfwPatch CFW_NK (bytes_of "nk.exe") rtc_stall_fix_patch].
Definition cfw_diag : component :=
  Component (E := statics) (bytes_of "diag") (Some cfw_nk_resident_install) None
    [CfwPatch CFW_NK (bytes_of "nk.exe") irq_patch; CfwPatch CFW_NK (bytes_of "nk.exe") ioctl_patch].
Definition cfw_components : list component := [cfw_power_hold; cfw_battery_check_skip; cfw_rtc_stall_fix; cfw_diag].

(** [log_init()]; [printed] is what the log window holds. *)
Definition log_reset : P unit :=
  sets_st (λ s, PfSt (text s) (patches s) (set_required s) (arena_used s) (cfw_range s) [] (env s)).

Definition eboot_main (code bytes enable : Z) : P Z :=
  log_reset;;
  say (bytes_of "cfw: eboot stage" ++ [10]);;
  if nonzero (enable .>> zlen cfw_components) then Pf.panic (bytes_of "Unknown components 0x" ++ num_text enable 16 0 (chr " "))
  else
    let eboot_range := PfRange EBOOT_CODE_VA (bytes .& not32 3) code in
    cfw_run component_callback (λ _, mret eboot_range) enable CFW_EBOOT cfw_components;;
    handoff_patch nk_entry eboot_range;;
    mret 0.

(** ** The callbacks as hooks *)

Fixpoint words_at (i : Z) (l : list Z) (t : gmap Z Z) : gmap Z Z :=
  match l with [] => t | w :: l' => words_at (i + 1) l' (<[i := w]> t) end.
Lemma put_words_done i l s : put_words i l s = Done tt (set_text (words_at i l (text s)) s).
Proof.
  revert i s. induction l as [|w l IH]; intros i s; cbn [put_words words_at]; [by destruct s|].
  unfold mbind, PM_bind, poke, sets_st. by rewrite IH.
Qed.
Lemma words_at_lookup i l t j :
  wget (words_at i l t) j = if (i <=? j) && (j <? i + zlen l) then znth l (j - i) else wget t j.
Proof.
  revert i t. induction l as [|w l IH]; intros i t; cbn [words_at].
  { rewrite zlen_nil. by destruct ((i <=? j) && (j <? i + 0)) eqn:E; [lia|]. }
  rewrite IH, zlen_cons. pose proof (zlen_nonneg l). destruct (decide (j = i)) as [->|Hne].
  - replace (i + 1 <=? i) with false by lia. replace (i <=? i) with true by lia. replace (i <? i + (1 + zlen l)) with true by lia.
    cbn [andb]. rewrite Z.sub_diag. unfold wget. by rewrite lookup_insert_eq.
  - replace ((i + 1 <=? j) && (j <? i + 1 + zlen l)) with ((i <=? j) && (j <? i + (1 + zlen l))) by (apply Bool.eq_true_iff_eq; lia).
    destruct ((i <=? j) && _) eqn:E; [|unfold wget; by rewrite lookup_insert_ne by done].
    unfold znth. replace (Z.to_nat (j - i)) with (S (Z.to_nat (j - (i + 1)))) by lia. done.
Qed.

Definition check_hook : hook statics :=
  Hook (zip check_match check_mask) (λ _ _, true) (λ i t, words_at i [MOV_R0_1; BX_LR] t) id.
Definition hold1582_hook : hook statics :=
  Hook (zip hold1582_match hold1582_mask) (λ _ _, true) (λ i t, words_at i hold1582_to t) set_found.
Definition hold188_hook : hook statics :=
  Hook (zip hold188_match hold188_mask) (λ _ _, true)
    (λ i t, words_at (i + HOLD188_OUT) hold188_out_to (words_at (i + HOLD188_DIR) [MVN_R3_0x200] t)) set_found.

Lemma check_behaves rng : behaves component_callback rng check_hook 0.
Proof.
  intros k i s p Hp Hr. cbn [h_accept check_hook]. change (component_callback 0 k i) with (check_callback k i).
  unfold check_callback, mbind, PM_bind. rewrite (cfw_patch_once_spec _ _ _ Hp). destruct (has_fired p); [done|]. by eexists.
Qed.
Lemma hold1582_behaves rng : behaves component_callback rng hold1582_hook 1.
Proof.
  intros k i s p Hp Hr. cbn [h_accept hold1582_hook]. change (component_callback 1 k i) with (hold1582_callback k i).
  unfold hold1582_callback, mbind, PM_bind. rewrite (cfw_patch_once_spec _ _ _ Hp). destruct (has_fired p); [done|].
  unfold say, env_upd, sets_st. rewrite put_words_done. by eexists.
Qed.
Lemma hold188_behaves rng : behaves component_callback rng hold188_hook 2.
Proof.
  intros k i s p Hp Hr. cbn [h_accept hold188_hook]. change (component_callback 2 k i) with (hold188_callback k i).
  unfold hold188_callback, mbind, PM_bind. rewrite (cfw_patch_once_spec _ _ _ Hp). destruct (has_fired p); [done|].
  unfold say, env_upd, poke, sets_st. rewrite put_words_done. by eexists.
Qed.

(** ** The power hold patterns

    Both patterns are in one set, and the first may fire before the second: a
    place that fires was there before the stage all the same. *)

Definition hold_hooks : list (hook statics) := [hold188_hook; hold1582_hook].

Lemma hold188_occurs_back t i0 i : occurs hold188_hook (words_at i0 hold1582_to t) i = true → occurs hold188_hook t i = true.
Proof.
  unfold occurs. cbn [h_accept hold188_hook]. rewrite !andb_true_r. intros H.
  assert (∀ j pr, h_pairs hold188_hook !! j = Some pr → pair_matches (wget (words_at i0 hold1582_to t) (i + Z.of_nat j)) pr = true) as Hat
    by (intros j pr Hj; exact (pairs_match_at _ 0 _ j pr H Hj)).
  assert (i + 21 <= i0 ∨ i0 + 6 <= i) as Hd.
  { destruct (decide (i + 21 <= i0 ∨ i0 + 6 <= i)) as [|Hn]; [done|exfalso].
    assert (∀ j pr, h_pairs hold188_hook !! j = Some pr → 0 <= i + Z.of_nat j - i0 < 6 →
      pair_matches (znth hold1582_to (i + Z.of_nat j - i0)) pr = true) as Hin.
    { intros j pr Hj Hr. specialize (Hat j pr Hj). rewrite words_at_lookup in Hat. change (zlen hold1582_to) with 6 in Hat.
      by replace ((i0 <=? i + Z.of_nat j) && (i + Z.of_nat j <? i0 + 6)) with true in Hat by lia. }
    clear Hat H. destruct (decide (i <= i0)) as [Hle|Hgt].
    - destruct (lookup_lt_is_Some_2 (h_pairs hold188_hook) (Z.to_nat (i0 - i))) as [pr Hpr]; [change (length _) with 21%nat; lia|].
      specialize (Hin _ _ Hpr ltac:(lia)). replace (i + Z.of_nat (Z.to_nat (i0 - i)) - i0) with 0 in Hin by lia.
      assert (Forall (λ pr, pair_matches (znth hold1582_to 0) pr = false) (h_pairs hold188_hook)) as HF by (by repeat constructor).
      rewrite list.Forall_forall in HF. rewrite (HF pr) in Hin by (by eapply list_elem_of_lookup_2). done.
    - assert (i = i0 + 1 ∨ i = i0 + 2 ∨ i = i0 + 3 ∨ i = i0 + 4 ∨ i = i0 + 5) as [->|[->|[->|[->| ->]]]] by lia.
      all: pose proof (Hin 0%nat _ eq_refl ltac:(lia)) as H0; cbn [Z.of_nat] in H0; rewrite Z.add_0_r, Z.add_simpl_l in H0; try done.
      pose proof (Hin 1%nat _ eq_refl ltac:(lia)) as H1. replace (i0 + 4 + Z.of_nat 1 - i0) with 5 in H1 by lia. done. }
  apply pairs_match_intro. intros j pr Hj. specialize (Hat j pr Hj). rewrite words_at_lookup in Hat. change (zlen hold1582_to) with 6 in Hat.
  apply lookup_lt_Some in Hj. change (length _) with 21%nat in Hj.
  by replace ((i0 <=? i + Z.of_nat j) && (i + Z.of_nat j <? i0 + 6)) with false in Hat by (symmetry; lia).
Qed.

(** The words that the other patch writes are not in this pattern. *)
Lemma hold188_edit_word t i0 j :
  let v := wget (h_edit hold188_hook i0 t) j in
  v = wget t j ∨ Forall (λ pr, pair_matches v pr = false) (h_pairs hold1582_hook).
Proof.
  cbv zeta. cbn [h_edit hold188_hook]. rewrite !words_at_lookup. change (zlen hold188_out_to) with 5. change (zlen [MVN_R3_0x200]) with 1.
  destruct ((i0 + HOLD188_OUT <=? j) && _) eqn:E1.
  - right. unfold HOLD188_OUT in *. set (d := j - (i0 + 15)).
    assert (d = 0 ∨ d = 1 ∨ d = 2 ∨ d = 3 ∨ d = 4) as Hd by (unfold d; lia). clearbody d.
    by destruct Hd as [->|[->|[->|[->| ->]]]]; repeat constructor.
  - destruct ((i0 + HOLD188_DIR <=? j) && _) eqn:E2; [|by left]. right.
    replace (j - (i0 + HOLD188_DIR)) with 0 by (unfold HOLD188_DIR in *; lia). by repeat constructor.
Qed.

Lemma hold_fires_second t i0 i : fires hold_hooks t [(0%nat, i0)] (1%nat, i) → occurs hold1582_hook t i = true.
Proof.
  intros (h & pre & [= <-] & Hh & _ & Hl). unfold occurs. unfold hits in Hh. cbn [h_accept hold1582_hook] in *. rewrite andb_true_r in *.
  change (zlen (h_pairs hold1582_hook) <? 8) with true in Hh. apply pairs_match_intro. intros j pr Hj.
  pose proof (pairs_match_at _ _ _ _ _ Hh Hj) as Hp. pose proof (lookup_lt_Some _ _ _ Hj) as Hlt. change (length _) with 6%nat in Hlt.
  destruct (Hl (0 + Z.of_nat j) ltac:(lia)) as (D' & HD & Hx). cbn [fst snd] in Hx. rewrite Hx in Hp.
  destruct D' as [|y D']; [exact Hp|]. apply prefix_cons_inv_1 in HD as Hy. subst y.
  apply prefix_cons_inv_2, prefix_nil_inv in HD as ->.
  change (edits hold_hooks t [(0%nat, i0)]) with (h_edit hold188_hook i0 t) in Hp.
  destruct (hold188_edit_word t i0 (i + (0 + Z.of_nat j))) as [<-|HF]; [done|].
  rewrite list.Forall_forall in HF. rewrite (HF pr) in Hp by (by eapply list_elem_of_lookup_2). done.
Qed.
Lemma hold_fires_second' t i0 i : fires hold_hooks t [(1%nat, i0)] (0%nat, i) → occurs hold188_hook t i = true.
Proof.
  intros (h & pre & [= <-] & Hh & _). rewrite (hits_long hold188_hook) in Hh by done. exact (hold188_occurs_back t i0 i Hh).
Qed.

Lemma hold_trace_back t fs :
  trace_ok hold_hooks t [] fs → NoDup fs.*1 → Forall (λ x, ∃ h, hold_hooks !! x.1 = Some h ∧ occurs h t x.2 = true) fs.
Proof.
  intros Ht Hd.
  assert (∀ x l2, fs = x :: l2 → ∃ h, hold_hooks !! x.1 = Some h ∧ occurs h t x.2 = true) as Hfirst.
  { intros x l2 ->. destruct (Ht [] x l2 eq_refl) as (h & pre & Hk & Hh & Hl). exists h. split; [done|].
    by rewrite (looked_hits hold_hooks t) in Hh. }
  assert (∀ D x, fires hold_hooks t D x → (x.1 < 2)%nat) as Hlt.
  { intros D x (h & _ & Hk & _). by apply lookup_lt_Some in Hk. }
  destruct fs as [|x [|y fs]]; [done|by constructor; [eapply Hfirst|]|].
  pose proof (Ht [x] y fs eq_refl) as Hy. pose proof (Hlt _ _ (Ht [] x (y :: fs) eq_refl)) as Hkx. pose proof (Hlt _ _ Hy) as Hky.
  assert (fs = []) as ->.
  { destruct fs as [|z fs]; [done|]. pose proof (Hlt _ _ (Ht [x; y] z fs eq_refl)) as Hkz. exfalso. cbn in Hd.
    rewrite !list.NoDup_cons, !not_elem_of_cons in Hd. destruct x as [[|[|]] ?], y as [[|[|]] ?], z as [[|[|]] ?]; cbn in *; lia || tauto. }
  constructor; [by eapply Hfirst|constructor; [|done]]. cbn in Hd. rewrite !list.NoDup_cons, !not_elem_of_cons in Hd.
  destruct x as [[|[|kx]] ix], y as [[|[|ky]] iy]; cbn in *; try lia; try tauto.
  - exists hold1582_hook. split; [done|]. by eapply hold_fires_second.
  - exists hold188_hook. split; [done|]. by eapply hold_fires_second'.
Qed.

(** The NK stage: the guard of the RTC patch, and those of the two hooks. *)
Definition rtc_hook : hook statics :=
  Hook (zip rtc_match rtc_mask)
    (λ t i, ((wget t i .& 0xFFFF) =? (wget t (i + POP_EARLY) .& 0xFFFF)) &&
            (wget t (ldr_literal t (i + LDR_FLAG)) =? BOOTARGS_RTC_PRESENT))
    (λ i t, <[i := ARM_BX_LR]> t) id.
Definition irq_hook_at : hook statics :=
  Hook (zip irq_match irq_mask) (λ t i, nk_static_va (wget t (ldr_literal t (i + IRQ_LDR_IP))) 4)
    (λ i t, let lit := ldr_literal t (i + IRQ_LDR_IP) in <[lit := irq_hook]> (<[nk_ptr irq_orig / 4 := wget t lit]> t)) id.
Definition ioctl_hook_at (range : pf_range) : hook statics :=
  Hook (zip ioctl_match ioctl_mask)
    (λ t i, let table := wget t (ldr_literal t (i + IOCTL_LDR_TABLE)) in
            nk_static_va table 4 && ((wget t (nk_ptr table / 4) .& 0xFFFF0000) =? 0x01010000))
    (λ i t, let entry := ptr_to_va (Some range) i in
            <[i := branch_insn entry ioctl_hook]> (<[nk_ptr ioctl_resume / 4 := u32 (entry + 4)]> t)) id.

Lemma rtc_behaves rng : behaves component_callback rng rtc_hook 3.
Proof.
  intros k i s p Hp Hr. cbn [h_accept rtc_hook]. change (component_callback 3 k i) with (rtc_stall_fix_callback k i).
  unfold rtc_stall_fix_callback, mbind, PM_bind, reads_st. destruct (_ =? _); cbn [negb andb]; [|done].
  destruct (_ =? _); cbn [negb]; [|done].
  rewrite (cfw_patch_once_spec _ _ _ Hp). destruct (has_fired p); [done|]. by eexists.
Qed.
Lemma irq_behaves rng : behaves component_callback rng irq_hook_at 4.
Proof.
  intros k i s p Hp Hr. cbn [h_accept irq_hook_at]. change (component_callback 4 k i) with (irq_callback k i).
  unfold irq_callback, mbind, PM_bind, reads_st. destruct (nk_static_va _ 4); cbn [negb]; [|done].
  rewrite (cfw_patch_once_spec _ _ _ Hp). destruct (has_fired p); [done|]. by eexists.
Qed.
Lemma ioctl_behaves range : behaves component_callback (Some range) (ioctl_hook_at range) 5.
Proof.
  intros k i s p Hp Hr. cbn [h_accept ioctl_hook_at]. change (component_callback 5 k i) with (ioctl_callback k i).
  unfold ioctl_callback, mbind, PM_bind, reads_st. rewrite Hr. cbv zeta. destruct (nk_static_va _ 4); cbn [negb orb andb]; [|done].
  destruct (_ =? _); cbn [negb]; [|done].
  rewrite (cfw_patch_once_spec _ _ _ Hp). destruct (has_fired p); [done|]. by eexists.
Qed.

(** ** The EBOOT stage *)

(** The hook matches at [i] and nowhere else in the range. *)
Definition unique_at (h : hook statics) (t : gmap Z Z) (range : pf_range) (i : Z) : Prop :=
  range_lo range <= i < range_hi range ∧ occurs h t i = true ∧
  ∀ j, range_lo range <= j < range_hi range → occurs h t j = true → j = i.

Lemma check_unique t range i : single_at check_hook t (range_lo range) (range_hi range) i → unique_at check_hook t range i.
Proof.
  intros (Hi & Ho & Hb & Ha). split_and!; [lia|lia|done|]. intros j Hj Hoj.
  destruct (Z.lt_trichotomy i j) as [Hlt|[->|Hlt]]; [|done|rewrite Hb in Hoj by lia; done].
  specialize (Ha j ltac:(lia)). exfalso. unfold occurs in Ho, Hoj, Ha. cbn [h_accept check_hook] in *. rewrite !andb_true_r in *.
  destruct (decide (j = i + 1)) as [->|Hne].
  - pose proof (pairs_match_at _ _ _ 1 _ Ho eq_refl) as H1. pose proof (pairs_match_at _ _ _ 0 _ Hoj eq_refl) as H0.
    cbv beta in H0, H1. replace (i + 1 + (0 + Z.of_nat 0)) with (i + 1) in H0 by lia. replace (i + (0 + Z.of_nat 1)) with (i + 1) in H1 by lia.
    unfold pair_matches in H0, H1. cbn [fst snd] in H0, H1. apply Z.eqb_eq in H0, H1. unfold EXACT in H0, H1. rewrite H1 in H0; discriminate.
  - rewrite (pairs_match_ext _ (λ x, wget t (j + x))) in Ha; [congruence|]. intros x Hx. cbn [h_edit check_hook].
    rewrite words_at_lookup. change (zlen [MOV_R0_1; BX_LR]) with 2. by replace ((i <=? j + x) && (j + x <? i + 2)) with false by (symmetry; lia).
Qed.

Abbreviation stage_patches range := (run_patches component_callback (λ _, mret range) CFW_EBOOT).

(** One pattern of a stage. *)
Lemma run_patches_one (ro : list Z → P pf_range) stage m name l c rest range s :
  ro m s = Done range s →
  run_patches component_callback ro stage (CfwPatch stage m (pf_maskmatch name l true c) :: rest) s =
  match one_patch component_callback name l c range s with
  | Done _ s1 => run_patches component_callback ro stage rest (set_arena 0 (set_patches [] (set_range None s1)))
  | Panic m => Panic m
  end.
Proof.
  intros Hro. cbn [run_patches cp_stage cp_patch cp_module]. rewrite Z.eqb_refl. cbn [negb].
  unfold one_patch, pf_patchset_destroy, mbind, PM_bind. rewrite Hro. destruct (pf_patchset_create s) as [[] s1|]; [|done].
  destruct (pf_maskmatch _ _ _ _ s1) as [[] s2|]; [|done]. destruct (sets_st _ s2) as [[] s3|]; [|done].
  by destruct (pf_apply _ range s3) as [[] s4|].
Qed.
Lemma run_one (ro : list Z → P pf_range) stage m name h c rest range s s' :
  ro m s = Done range s → bad_pair 0 (h_pairs h) = None → behaves component_callback (Some range) h c → 8 <= zlen (h_pairs h) →
  run_patches component_callback ro stage (CfwPatch stage m (pf_maskmatch name (h_pairs h) true c) :: rest) s = Done tt s' →
  ∃ i s1, single_at h (text s) (range_lo range) (range_hi range) i ∧ text s1 = h_edit h i (text s) ∧ env s1 = h_env h (env s) ∧
    run_patches component_callback ro stage rest s1 = Done tt s'.
Proof.
  intros Hro Hbad Hb Hlen H. rewrite (run_patches_one _ _ _ _ _ _ _ _ _ Hro) in H.
  pose proof (one_patch_spec component_callback name h c range s Hbad Hb Hlen) as Hs.
  destruct (one_patch _ _ _ _ _ s) as [[] s1|]; [|done]. destruct Hs as (i & Hi & Ht & He). exists i, (set_arena 0 (set_patches [] (set_range None s1))). split_and!; done.
Qed.

Lemma battery_stage range s s' :
  stage_patches range (c_patches cfw_battery_check_skip) s = Done tt s' →
  ∃ i, unique_at check_hook (text s) range i ∧ text s' = words_at i [MOV_R0_1; BX_LR] (text s).
Proof.
  intros H. apply (run_one _ _ _ _ check_hook 0 [] range) in H as (i & s1 & Hi & Ht & _ & [= <-]);
    [|done|done|apply check_behaves|done]. exists i. split; [by apply check_unique|done].
Qed.

(** What the power hold patch does: the places are those of the image, each of the
    two patterns fires at most once. *)
Definition held (range : pf_range) (t t' : gmap Z Z) (fs : list (nat * Z)) : Prop :=
  NoDup fs.*1 ∧ t' = edits hold_hooks t fs ∧
  Forall (λ x, range_lo range <= x.2 < range_hi range ∧ ∃ h, hold_hooks !! x.1 = Some h ∧ occurs h t x.2 = true) fs.

Lemma hold_stage range s s' :
  stage_patches range (c_patches cfw_power_hold) s = Done tt s' →
  ∃ fs, held range (text s) (text s') fs ∧ (fs = [] → env s' = env s).
Proof.
  intros H. cbn [c_patches cfw_power_hold run_patches cp_stage cp_patch cp_module] in H.
  change (negb (CFW_EBOOT =? CFW_EBOOT)) with false in H. cbv iota in H.
  unfold power_hold_patch, pf_patchset_create, pf_maskmatch, malloc, pf_patchset_destroy in H.
  change (bad_pair 0 (zip hold1582_match hold1582_mask)) with (@None Z) in H.
  change (bad_pair 0 (zip hold188_match hold188_mask)) with (@None Z) in H.
  unfold mbind, PM_bind, reads_st, sets_st in H. cbn [mret PM_ret] in H.
  destruct (_ <? _) in H; [done|]. destruct (_ <? _) in H; [done|]. destruct (_ <? _) in H; [done|].
  set (s1 := set_range (Some range) _) in H.
  pose proof (oneshot_apply component_callback (Some range)
    [Patch 2 false false true (bytes_of "power hold v1.88") (zip hold188_match hold188_mask);
     Patch 1 false false true (bytes_of "power hold v1.58.2") (zip hold1582_match hold1582_mask)] hold_hooks) as Ho.
  specialize (Ho ltac:(constructor; [exact (conj eq_refl (conj eq_refl (hold188_behaves _)))|
    constructor; [exact (conj eq_refl (conj eq_refl (hold1582_behaves _)))|constructor]]) range s1 ltac:(by repeat constructor)
    eq_refl eq_refl eq_refl).
  assert (text s1 = text s ∧ env s1 = env s) as [Ht1 He1] by done. clearbody s1. rewrite Ht1, He1 in Ho.
  destruct (sweep _ hold_hooks _ _ (text s) (env s)) as [[t' e'] fs] eqn:Es.
  pose proof (sweep_trace hold_hooks (text s) _ _ _ [] _ _ _ _ (window_looked hold_hooks (text s) (r_base range / 4)) Es) as (Ht' & Htr & Hr).
  destruct (pf_apply _ range s1) as [[] s2|]; [|done]. injection H as <-. destruct Ho as (Hd & _ & Ht2 & He2 & _).
  exists fs. split.
  - split_and!; [done|exact (eq_trans Ht2 Ht')|]. pose proof (hold_trace_back _ _ Htr Hd) as Hback. rewrite list.Forall_forall in *.
    intros x Hx. split; [by apply Hr|by apply Hback].
  - intros ->. cbn. rewrite He2. by eapply sweep_nil.
Qed.

(** ** The stage as a whole *)

Lemma run_components_skip (cb : Z → nat → Z → P bool) (ro : list Z → P pf_range) enable stage i c cs s :
  has_stage c stage = false → run_components cb ro enable stage i (c :: cs) s = run_components cb ro enable stage (i + 1) cs s.
Proof. intros Hc. cbn [run_components]. rewrite Hc. cbn [negb]. by rewrite orb_true_r. Qed.

Definition hold_of (enable : Z) (range : pf_range) (t t' : gmap Z Z) : Prop :=
  if Z.testbit enable 0 then ∃ fs, fs ≠ [] ∧ held range t t' fs else t' = t.
Definition battery_of (enable : Z) (range : pf_range) (t t' : gmap Z Z) : Prop :=
  if Z.testbit enable 1 then ∃ i, unique_at check_hook t range i ∧ t' = words_at i [MOV_R0_1; BX_LR] t else t' = t.

Lemma enabled_bit enable i : 0 <= i → nonzero (enable .& (1 .<< i)) = Z.testbit enable i.
Proof.
  intros Hi. rewrite Z.shiftl_1_l. apply Bool.eq_true_iff_eq. unfold nonzero. rewrite negb_true_iff, Z.eqb_neq. split.
  - intros Hn. destruct (Z.testbit enable i) eqn:E; [done|]. exfalso. apply Hn. apply Z.bits_inj'. intros j Hj.
    rewrite Z.land_spec, Z.bits_0, Z.pow2_bits_eqb by done. destruct (Z.eqb_spec i j) as [<-|]; [by rewrite E|by rewrite andb_false_r].
  - intros Ht H0. assert (Z.testbit (enable .& 2 ^ i) i = false) as Hf by (rewrite H0; apply Z.bits_0).
    rewrite Z.land_spec, Z.pow2_bits_true, Ht in Hf by done. done.
Qed.

Lemma run_component (cb : Z → nat → Z → P bool) (ro : list Z → P pf_range) enable stage i c cs s s' :
  has_stage c stage = true → 0 <= i →
  run_components cb ro enable stage i (c :: cs) s = Done tt s' →
  if Z.testbit enable i then
    ∃ s0 si s1 s2, text s0 = text s ∧ env s0 = env s ∧ call_opt (c_init c) s0 = Done tt si ∧
      run_patches cb ro stage (c_patches c) si = Done tt s1 ∧
      call_opt (c_finish c) s1 = Done tt s2 ∧ run_components cb ro enable stage (i + 1) cs s2 = Done tt s'
  else run_components cb ro enable stage (i + 1) cs s = Done tt s'.
Proof.
  intros Hs Hi. cbn [run_components]. rewrite Hs, enabled_bit by done. cbn [negb]. rewrite orb_false_r.
  unfold mbind, PM_bind. destruct (Z.testbit enable i); cbn [negb]; [|done]. unfold say, sets_st.
  set (s0 := PfSt _ _ _ _ _ _ _). destruct (call_opt (c_init c) s0) as [[] si|] eqn:E0; [|discriminate].
  destruct (run_patches cb ro stage (c_patches c) si) as [[] s1|] eqn:E1; [|discriminate].
  fold (call_opt (c_finish c)). destruct (call_opt (c_finish c) s1) as [[] s2|] eqn:E2; [|discriminate].
  intros H. exists s0, si, s1, s2. split_and!; done.
Qed.

Lemma run_eboot_components enable range s s' :
  found (env s) = false →
  cfw_run component_callback (λ _, mret range) enable CFW_EBOOT cfw_components s = Done tt s' →
  ∃ t1, hold_of enable range (text s) t1 ∧ battery_of enable range t1 (text s').
Proof.
  intros Hf H. unfold cfw_run, cfw_components in H. unfold hold_of, battery_of.
  assert (∃ s3, (if Z.testbit enable 0 then ∃ fs, fs ≠ [] ∧ held range (text s) (text s3) fs else text s3 = text s) ∧
    run_components component_callback (λ _, mret range) enable CFW_EBOOT 1 [cfw_battery_check_skip; cfw_rtc_stall_fix; cfw_diag] s3 = Done tt s')
    as (s3 & H1 & H2).
  { apply run_component in H; [|done|done]. destruct (Z.testbit enable 0); [|by exists s].
    destruct H as (s0 & si & s1 & s2 & Ht0 & He0 & [= <-] & Hp & Hfin & Hrest). exists s2. split; [|done].
    apply hold_stage in Hp as (fs & Hh & Hnil). change (power_hold_finish s1 = Done tt s2) in Hfin. unfold power_hold_finish, mbind, PM_bind, reads_st in Hfin.
    destruct (found (env s1)) eqn:Ef; [|discriminate]. injection Hfin as <-. exists fs. rewrite <-Ht0. split; [|done].
    intros ->. rewrite Hnil, He0, Hf in Ef by done. done. }
  exists (text s3). split; [done|]. apply run_component in H2; [|done|done].
  assert (∀ s4, run_components component_callback (λ _, mret range) enable CFW_EBOOT (1 + 1) [cfw_rtc_stall_fix; cfw_diag] s4 = Done tt s' → s' = s4) as Hskip.
  { intros s4. rewrite !run_components_skip by done. by intros [= <-]. }
  destruct (Z.testbit enable 1); [|by apply Hskip in H2 as ->].
  destruct H2 as (s0 & si & s1 & s2 & Ht0 & _ & [= <-] & Hp & [= <-] & Hrest%Hskip). subst s'. rewrite <-Ht0. by apply battery_stage in Hp.
Qed.

(** C16: the EBOOT that starts is the one of NAND with exactly the enabled fixes.  If
    the stage returns, its result is 0 and the mask names existing components; with
    bit 0 at least one of the two power hold sequences was in the image and was
    rewritten, each at most once; with bit 1 the battery check was there exactly once
    and now returns 1 at once; the jump to NK was there exactly once and now goes to
    [nk_entry]; and no other word changed.  In every other case the stage panics. *)
Theorem eboot_main_patches code bytes enable s rc s' :
  found (env s) = false → 0 <= enable →
  eboot_main code bytes enable s = Done rc s' →
  let range := PfRange EBOOT_CODE_VA (bytes .& not32 3) code in
  rc = 0 ∧ enable < 16 ∧
  ∃ t1 t2 i, hold_of enable range (text s) t1 ∧ battery_of enable range t1 t2 ∧
    range_lo range <= i < range_hi range ∧ handoff_at t2 i = true ∧
    (∀ j, range_lo range <= j < range_hi range → handoff_at t2 j = true → j = i) ∧
    text s' = handed_off nk_entry t2 i.
Proof.
  intros Hf He H range. unfold eboot_main, mbind, PM_bind, log_reset, say, sets_st in H.
  set (s0 := PfSt (text _) _ _ _ _ _ _) in H. destruct (nonzero (enable .>> zlen cfw_components)) eqn:En; [done|].
  fold range in H. cbv zeta in H.
  destruct (cfw_run _ _ enable CFW_EBOOT cfw_components s0) as [[] s1|] eqn:E1; [|done].
  destruct (handoff_patch nk_entry range s1) as [[] s2|] eqn:E2; [|done]. injection H as <- <-.
  apply run_eboot_components in E1 as (t1 & Hh & Hb); [|done].
  apply handoff_patch_unique in E2 as (i & Hi & Ho & Hu & Ht). split_and!; [done| |by exists t1, (text s1), i].
  unfold nonzero in En. apply negb_false_iff, Z.eqb_eq in En. change (zlen cfw_components) with 4 in En.
  rewrite Z.shiftr_div_pow2 in En by done. change (2 ^ 4) with 16 in En. apply Z.div_small_iff in En; lia.
Qed.

(** ** The NK stage *)

(** The bytes of the words of memory, for the lookup in the ROM image. *)
Definition word_bytes (t : gmap Z Z) : mem := map_fold (λ i w m, mset_list m (4 * i) (le_split 4 w)) ∅ t.
(** [module_range] of the stage: it reads the image as it is at the call. *)
Definition nk_module_range (module : list Z) : P pf_range := λ s,
  match module_range module (word_bytes (text s)) with Done r _ => Done r s | Panic msg => Panic msg end.
(** The code range of the kernel, in the image with the words [t]. *)
Definition nk_code (t : gmap Z Z) (range : pf_range) : Prop :=
  ∃ m, module_range (bytes_of "nk.exe") (word_bytes t) = Done range m.

Definition rtc_of (enable : Z) (t t' : gmap Z Z) : Prop :=
  if Z.testbit enable 2
  then ∃ range i, nk_code t range ∧ single_at rtc_hook t (range_lo range) (range_hi range) i ∧ t' = <[i := ARM_BX_LR]> t
  else t' = t.
(** The resident, which is copied once. *)
Definition resident_at (t : gmap Z Z) : gmap Z Z :=
  words_at (NK_RESIDENT_PHYS / 4) nk_resident
    (words_at (NK_RESIDENT_PHYS / 4) (replicate (Z.to_nat (NK_RESIDENT_MAX / 4)) 0) t).
Definition diag_of (enable : Z) (t t' : gmap Z Z) : Prop :=
  if Z.testbit enable 3 then
    ∃ range range' i j, let t1 := resident_at t in let t2 := h_edit irq_hook_at i t1 in
      nk_code t1 range ∧ single_at irq_hook_at t1 (range_lo range) (range_hi range) i ∧
      nk_code t2 range' ∧ single_at (ioctl_hook_at range') t2 (range_lo range') (range_hi range') j ∧
      t' = h_edit (ioctl_hook_at range') j t2
  else t' = t.

Lemma resident_install_done s :
  installed (env s) = false →
  ∃ s1, cfw_nk_resident_install s = Done tt s1 ∧ text s1 = resident_at (text s).
Proof.
  intros Hi. unfold cfw_nk_resident_install, mbind, PM_bind, reads_st. rewrite Hi. unfold env_upd, sets_st.
  rewrite put_words_done, put_words_done. by eexists.
Qed.

(** A patch that was applied had a range. *)
Lemma nk_range_done stage m p rest s s' :
  run_patches component_callback nk_module_range stage (CfwPatch stage m p :: rest) s = Done tt s' →
  ∃ range mc, nk_module_range m s = Done range s ∧ module_range m (word_bytes (text s)) = Done range mc.
Proof.
  cbn [run_patches cp_stage cp_patch cp_module]. rewrite Z.eqb_refl. cbn [negb]. unfold mbind, PM_bind, nk_module_range.
  destruct (module_range m (word_bytes (text s))) as [range mc|]; [|done]. intros _. by exists range, mc.
Qed.

Lemma diag_stage s s' :
  run_patches component_callback nk_module_range CFW_NK (c_patches cfw_diag) s = Done tt s' →
  ∃ range range' i j, nk_code (text s) range ∧ single_at irq_hook_at (text s) (range_lo range) (range_hi range) i ∧
    nk_code (h_edit irq_hook_at i (text s)) range' ∧
    single_at (ioctl_hook_at range') (h_edit irq_hook_at i (text s)) (range_lo range') (range_hi range') j ∧
    text s' = h_edit (ioctl_hook_at range') j (h_edit irq_hook_at i (text s)).
Proof.
  intros H. destruct (nk_range_done _ _ _ _ _ _ H) as (range & mc & Hro & Hmr). move H at bottom.
  apply (run_one _ _ _ _ irq_hook_at 4 _ range) in H as (i & s1 & Hi & Ht & _ & H); [|done|done|apply irq_behaves|done].
  destruct (nk_range_done _ _ _ _ _ _ H) as (range' & mc' & Hro' & Hmr'). move H at bottom.
  apply (run_one _ _ _ _ (ioctl_hook_at range') 5 [] range') in H as (j & s2 & Hj & Ht2 & _ & [= <-]); [|done|done|apply ioctl_behaves|done].
  exists range, range', i, j. rewrite <-Ht. split_and!; [by exists mc|done|by exists mc'|done|done].
Qed.

(** C17: a WinCE that starts under the firmware has exactly the enabled patches.  If the
    stage returns: with bit 2 the polling loop of the clock, with its early return and
    its flag, was found once and returns at once; with bit 3 the resident was installed,
    then the literal of the interrupt vector and the first word of OEMIoControl were
    found once and redirected into it, the old handler and the entry plus 4 being kept
    in the resident's own words; without a bit nothing changed.  Each search is over
    the code range that [module_range] finds for nk.exe in the image of that moment. *)
Theorem nk_stage_patches enable s s' :
  installed (env s) = false →
  cfw_run component_callback nk_module_range enable CFW_NK cfw_components s = Done tt s' →
  ∃ t1, rtc_of enable (text s) t1 ∧ diag_of enable t1 (text s').
Proof.
  intros Hinst H. unfold cfw_run, cfw_components in H. do 2 (rewrite run_components_skip in H by done).
  unfold rtc_of, diag_of.
  assert (∃ s3, (if Z.testbit enable 2 then ∃ range i, nk_code (text s) range ∧
        single_at rtc_hook (text s) (range_lo range) (range_hi range) i ∧ text s3 = <[i := ARM_BX_LR]> (text s)
      else text s3 = text s) ∧ installed (env s3) = false ∧
    run_components component_callback nk_module_range enable CFW_NK 3 [cfw_diag] s3 = Done tt s') as (s3 & H1 & Hi3 & H2).
  { apply run_component in H; [|done|done]. destruct (Z.testbit enable (0 + 1 + 1)) eqn:Eb; change (0 + 1 + 1) with 2 in Eb; rewrite Eb; [|by exists s].
    destruct H as (s0 & si & s1 & s2 & Ht0 & He0 & [= <-] & Hp & [= <-] & Hrest).
    destruct (nk_range_done _ _ _ _ _ _ Hp) as (range & mc & Hro & Hmr). move Hp at bottom.
    apply (run_one _ _ _ _ rtc_hook 3 [] range) in Hp as (i & s4 & Hi & Ht & He & [= <-]); [|done|done|apply rtc_behaves|done].
    exists s4. rewrite <-Ht0. split_and!; [exists range, i; split_and!; [by exists mc|done|done]|by rewrite He, He0|done]. }
  exists (text s3). split; [done|]. apply run_component in H2; [|done|done].
  destruct (Z.testbit enable 3); [|by injection H2 as ->].
  destruct H2 as (s0 & si & s1 & s2 & Ht0 & He0 & Hini & Hp & [= <-] & [= <-]).
  destruct (resident_install_done s0 ltac:(by rewrite He0)) as (s5 & Hs5 & Ht5). change (cfw_nk_resident_install s0 = Done tt si) in Hini.
  rewrite Hini in Hs5. injection Hs5 as ->. rewrite <-Ht0, <-Ht5. apply diag_stage in Hp as (range & range' & i & j & Hp).
  by exists range, range', i, j.
Qed.

(** ** What the patched code does

    The instructions of the power hold sequences, executed: registers and the
    stores so far, as base, offset and value. *)
Record cpu := Cpu { regs : Z → Z; stores : list (Z * Z * Z) }.
Definition set_reg (c : cpu) (r v : Z) : cpu := Cpu (λ x, if x =? r then v else regs c x) (stores c).
Definition rotated_imm (w : Z) : Z :=
  let imm := w .& 0xFF in let r := 2 * ((w .>> 8) .& 0xF) in u32 ((imm .>> r) .| (imm .<< (32 - r))).
Definition orr (a b : Z) : Z := a .| b.
Definition exec1 (w : Z) (c : cpu) : option cpu :=
  let rn := (w .>> 16) .& 0xF in
  let rd := (w .>> 12) .& 0xF in
  let op := w .>> 20 in
  if op =? 0xE3A then Some (set_reg c rd (rotated_imm w))
  else if op =? 0xE3E then Some (set_reg c rd (not32 (rotated_imm w)))
  else if op =? 0xE38 then Some (set_reg c rd (orr (regs c rn) (rotated_imm w)))
  else if (op =? 0xE1E) && ((w .& 0xFF0) =? 0) then Some (set_reg c rd (not32 (regs c (w .& 0xF))))
  else if op =? 0xE58 then Some (Cpu (regs c) (stores c ++ [(regs c rn, w .& 0xFFF, regs c rd)]))
  else None.
Fixpoint exec (l : list Z) (c : cpu) : option cpu :=
  match l with [] => Some c | w :: l' => match exec1 w c with Some c' => exec l' c' | None => None end end.

Definition run_stores (l : list Z) (r : Z → Z) : option (list (Z * Z * Z)) := option_map stores (exec l (Cpu r [])).

(** The output and direction registers of the pin, and that it is driven high. *)
Definition pin_store (b : Z) (p : Z * Z) (st : Z * Z * Z) : Z * Z :=
  let '(base, off, v) := st in
  if base =? b then (if off =? 0x98 then (v, snd p) else if off =? 0x94 then (fst p, v) else p) else p.
Definition pin_high (p : Z * Z) : Prop := Z.testbit (fst p) 9 = true ∧ Z.testbit (snd p) 9 = false.
Fixpoint stays_high (b : Z) (p : Z * Z) (l : list (Z * Z * Z)) : Prop :=
  pin_high p ∧ match l with [] => True | st :: l' => stays_high b (pin_store b p st) l' end.
(** The stores to other registers. *)
Definition other_stores (l : list (Z * Z * Z)) : list (Z * Z * Z) :=
  List.filter (λ st, negb ((snd (fst st) =? 0x98) || (snd (fst st) =? 0x94))) l.

Definition words (t : gmap Z Z) (i : Z) (n : nat) : list Z := map (λ j, wget t (i + j)) (seqZ 0 (Z.of_nat n)).

Lemma exact_words t i l :
  (∀ j, word_ok (wget t j)) →
  pairs_match (λ j, wget t (i + j)) 0 (zip l (replicate (length l) EXACT)) = true → words t i (length l) = l.
Proof.
  intros Hw H. apply list_eq. intros k. unfold words. change (map ?f ?l) with (f <$> l). rewrite list_lookup_fmap.
  destruct (decide (k < length l)%nat) as [Hlt|Hge].
  2: { rewrite (lookup_ge_None_2 l) by lia. rewrite lookup_ge_None_2; [done|]. rewrite length_seqZ. lia. }
  rewrite lookup_seqZ_lt by lia. destruct (lookup_lt_is_Some_2 l k Hlt) as [m Hm]. rewrite Hm. cbn [fmap option_fmap option_map]. f_equal.
  assert (zip l (replicate (length l) EXACT) !! k = Some (m, EXACT)) as Hz
    by (apply lookup_zip_with_Some; exists m, EXACT; split_and!; [done|done|by apply lookup_replicate_2]).
  pose proof (pairs_match_at _ _ _ _ _ H Hz) as Hp. unfold pair_matches in Hp. cbn [fst snd] in Hp. apply Z.eqb_eq in Hp.
  change EXACT with (2 ^ 32 - 1) in Hp. rewrite land_mod in Hp by done. rewrite Z.mod_small in Hp by apply Hw. exact Hp.
Qed.
Lemma words_at_words t i l : words (words_at i l t) i (length l) = l.
Proof.
  apply list_eq. intros k. unfold words. change (map ?f ?l) with (f <$> l). rewrite list_lookup_fmap.
  destruct (decide (k < length l)%nat) as [Hlt|Hge].
  2: { rewrite (lookup_ge_None_2 l) by lia. rewrite lookup_ge_None_2; [done|]. rewrite length_seqZ. lia. }
  rewrite lookup_seqZ_lt by lia. cbn [fmap option_fmap option_map]. rewrite words_at_lookup. unfold zlen.
  replace ((i <=? i + (0 + Z.of_nat k)) && (i + (0 + Z.of_nat k) <? i + Z.of_nat (length l))) with true by (symmetry; lia).
  unfold znth. replace (Z.to_nat (i + (0 + Z.of_nat k) - i)) with k by lia.
  destruct (lookup_lt_is_Some_2 l k Hlt) as [m Hm]. rewrite Hm. f_equal. by apply nth_lookup_Some.
Qed.

(** The patched v1.88 sequence. *)
Definition hold188_to : list Z :=
  [0xE3E03000; 0xE580308C; 0xE3E03C02; 0xE3A02000; 0xE5803094; 0xE58020E0; 0xE58020E4; 0xE58020E8; 0xE3E03000; 0xE58020EC;
   0xE58030F0; 0xE3E03000; 0xE58030F4; 0xE3E03000; 0xE58030F8; 0xE58030FC; 0xE5802080; 0xE5802088; 0xE5802090; 0xE3A02C02;
   0xE5802098].
Lemma hold188_words t i : words t i 21 = hold188_match → words (h_edit hold188_hook i t) i 21 = hold188_to.
Proof.
  intros H. unfold words in *. change (seqZ 0 (Z.of_nat 21)) with [0; 1; 2; 3; 4; 5; 6; 7; 8; 9; 10; 11; 12; 13; 14; 15; 16; 17; 18; 19; 20] in *.
  cbn [h_edit hold188_hook map] in *. rewrite !words_at_lookup. change (zlen hold188_out_to) with 5. change (zlen [MVN_R3_0x200]) with 1.
  unfold HOLD188_OUT, HOLD188_DIR, hold188_match in *.
  injection H as H0 H1 H2 H3 H4 H5 H6 H7 H8 H9 H10 H11 H12 H13 H14 H15 H16 H17 H18 H19 H20.
  repeat match goal with |- context [(i + ?a <=? i + ?b) && (i + ?b <? i + ?a + ?n)] =>
    let c := eval vm_compute in ((a <=? b) && (b <? a + n)) in
    replace ((i + a <=? i + b) && (i + b <? i + a + n)) with c by (symmetry; lia); cbv iota end.
  repeat match goal with |- context [i + ?b - (i + ?a)] => let c := eval vm_compute in (b - a) in replace (i + b - (i + a)) with c by lia end.
  by rewrite H0, H1, H3, H4, H5, H6, H7, H8, H9, H10, H11, H12, H13, H14, H20.
Qed.

Lemma not32_bit9 v : Z.testbit (not32 v) 9 = negb (Z.testbit v 9).
Proof.
  assert (not32 v = Z.lnot v mod 2 ^ 32) as ->
    by (unfold not32, u32, Z.lnot; change (2 ^ 32) with 4294967296; zlia).
  rewrite Z.mod_pow2_bits_low by done. by apply Z.lnot_spec.
Qed.

(** The patched firmware keeps itself on.  Where one of the two sequences was, the
    code that replaces it, run from any registers while the power pin is a high
    output, keeps it a high output after every single store, and stores to the other
    registers exactly what the original stored. *)
Theorem power_hold_keeps_pin h t i r b p :
  h ∈ hold_hooks → (∀ j, word_ok (wget t j)) → occurs h t i = true → r 0 = b → pin_high p →
  let n := length (h_pairs h) in
  ∃ l l', run_stores (words t i n) r = Some l ∧ run_stores (words (h_edit h i t) i n) r = Some l' ∧
    stays_high b p l' ∧ other_stores l' = other_stores l.
Proof.
  intros Hh Hw Ho Hb Hp n. unfold occurs in Ho. apply andb_true_iff in Ho as [Ho _].
  unfold hold_hooks in Hh. rewrite !elem_of_cons in Hh. destruct Hh as [->|[->|Hh]]; [..|by apply elem_of_nil in Hh].
  - assert (words t i 21 = hold188_match) as Hm by (by apply (exact_words t i hold188_match)).
    subst n. change (length (h_pairs hold188_hook)) with 21%nat. rewrite (hold188_words t i Hm), Hm.
    eexists _, _. split; [vm_compute; reflexivity|]. split; [vm_compute; reflexivity|]. split; [|reflexivity].
    cbn -[Z.testbit]. rewrite Hb, Z.eqb_refl. destruct Hp. repeat split; done.
  - assert (words t i 6 = hold1582_match) as Hm by (by apply (exact_words t i hold1582_match)).
    subst n. change (length (h_pairs hold1582_hook)) with 6%nat. cbn [h_edit hold1582_hook].
    pose proof (words_at_words t i hold1582_to) as Hto. change (length hold1582_to) with 6%nat in Hto. rewrite Hto, Hm.
    eexists _, _. split; [lazy -[orr not32]; reflexivity|]. split; [lazy -[orr not32]; reflexivity|]. split; [|reflexivity].
    destruct Hp as [Hp1 Hp2]. cbn -[Z.testbit orr not32]. rewrite Hb, Z.eqb_refl. unfold pin_high. cbn [fst snd].
    rewrite !not32_bit9. unfold orr. rewrite !Z.lor_spec. change (Z.testbit 512 9) with true. rewrite !orb_true_r. repeat split; done.
Qed.
End Components.

(** ** Examples *)

(** An EBOOT with the v1.58.2 sequence, the battery check and the jump to NK. *)
Definition eboot_words : list Z := [1] ++ hold1582_match ++ [2] ++ check_match ++ [3] ++ handoff_match.
Definition eboot_code : Z := 0x30038000.
Definition example_state (t : gmap Z Z) : pf_st statics := PfSt t [] false 0 None [] (Statics false false).
Definition eboot_example : pf_st statics := example_state (words_at (eboot_code / 4) eboot_words ∅).
Abbreviation example_stage :=
  (eboot_main 0x3019A000 0x8019C010 0x8019C020 0x8019C100 0x8019C104 [] eboot_code (4 * zlen eboot_words) 3).

Theorem eboot_main_patches_witness :
  ∃ s', example_stage eboot_example = Done 0 s' ∧
  let range := PfRange EBOOT_CODE_VA ((4 * zlen eboot_words) .& not32 3) eboot_code in
  0 = 0 ∧ 3 < 16 ∧
  ∃ t1 t2 i, hold_of 3 range (text eboot_example) t1 ∧ battery_of 3 range t1 t2 ∧
    range_lo range <= i < range_hi range ∧ handoff_at t2 i = true ∧
    (∀ j, range_lo range <= j < range_hi range → handoff_at t2 j = true → j = i) ∧
    text s' = handed_off 0x3019A000 t2 i.
Proof.
  assert (∃ s', example_stage eboot_example = Done 0 s') as [s' Hs'] by (eexists; vm_compute; reflexivity).
  exists s'. split; [exact Hs'|].
  refine (eboot_main_patches 0x3019A000 0x8019C010 0x8019C020 0x8019C100 0x8019C104 [] eboot_code (4 * zlen eboot_words) 3
    eboot_example 0 s' _ _ Hs'); [reflexivity|lia].
Defined.

(** An NK with the clock's loop, the interrupt vector and OEMIoControl. *)
Definition nk_words : list Z :=
  [0xE92D4010; 0xE59F4000; 0xE3A01000; 0xE5943068; 0xE3530000; 0x0A000000; 0xE59F301C; 0xE5933000; 0xE3530000; 0x059F2000;
   0x05923000; 0x02833001; 0x05823000; 0x08BD4010; 0x012FFF1E; BOOTARGS_RTC_PRESENT] ++
  [0xE24EE004; 0xE92D500F; 0xE28E0000; 0xE3500080; 0x3B000000; 0xE14F1000; 0xE92D0002; 0xE1A0000E; 0xE321F093; 0xE92D4000;
   0xE92D0001; 0xE59FC004; 0xE1A0E00F; 0xE12FFF1C; 0x80201000] ++
  [0xE92D4FF0; 0xE24DD008; 0xE1A09003; 0xE1A0A002; 0xE1A0B001; 0xE1A07000; 0xE59F6008; 0xE3A08000; 0xE3A05000; 0xE596E008;
   0x80202000].
(** The ROM image around it: the signature, a table with the module nk.exe, and its
    one code section, which is these words. *)
Definition nk_image : gmap Z Z :=
  words_at (0x30200040 / 4) [ECEC_MAGIC; 0x80200100] (words_at (0x30200110 / 4) [1]
    (words_at ((0x30200154 + 16) / 4) [0x80200300; 0x80200400; 0x80200500]
    (words_at (0x30200300 / 4) [le_join (bytes_of "NK.e"); le_join (bytes_of "xe")] (words_at (0x30200400 / 4) [1]
    (words_at (0x30200500 / 4) [4 * zlen nk_words; 0; 4 * zlen nk_words; 0x80201000; 0x80201000; SCN_CODE]
    (words_at (0x30201000 / 4) nk_words ∅)))))).
Definition nk_example : pf_st statics := example_state (words_at (0x30202000 / 4) [0x01010004] nk_image).
Abbreviation nk_stage_example :=
  (cfw_run (component_callback 0x8019C010 0x8019C020 0x8019C100 0x8019C104) nk_module_range 12 CFW_NK
    (cfw_components [7; 8; 9])).

Definition finished {S A} (r : outcome S A) : bool := match r with Done _ _ => true | Panic _ => false end.
Lemma finished_done {S} (r : outcome S unit) : finished r = true → ∃ s, r = Done tt s.
Proof. destruct r as [[] s|]; [by exists s|done]. Qed.
Lemma nk_example_finished : finished (nk_stage_example nk_example) = true.
Proof. vm_compute. reflexivity. Qed.

Theorem nk_stage_patches_witness :
  ∃ s', nk_stage_example nk_example = Done tt s' ∧
  ∃ t1, rtc_of 12 (text nk_example) t1 ∧
    diag_of 0x8019C010 0x8019C020 0x8019C100 0x8019C104 [7; 8; 9] 12 t1 (text s').
Proof.
  destruct (finished_done _ nk_example_finished) as [s' Hs'].
  exists s'. split; [exact Hs'|].
  refine (nk_stage_patches 0x8019C010 0x8019C020 0x8019C100 0x8019C104 [7; 8; 9] 12 nk_example s' _ Hs'). reflexivity.
Defined.

Lemma words_at_ok l : Forall word_ok l → ∀ j, word_ok (wget (words_at 0 l ∅) j).
Proof.
  intros Hl j. rewrite words_at_lookup. destruct (_ && _); [|done]. unfold znth.
  destruct (nth_in_or_default (Z.to_nat (j - 0)) l 0) as [Hin| ->]; [|done].
  rewrite list.Forall_forall in Hl. by apply Hl, list_elem_of_In.
Qed.
Theorem power_hold_keeps_pin_witness :
  let t := words_at 0 hold188_match ∅ in
  ∃ l l', run_stores (words t 0 21) (λ _, 0) = Some l ∧ run_stores (words (h_edit hold188_hook 0 t) 0 21) (λ _, 0) = Some l' ∧
    stays_high 0 (0x200, 0) l' ∧ other_stores l' = other_stores l.
Proof.
  refine (power_hold_keeps_pin hold188_hook (words_at 0 hold188_match ∅) 0 (λ _, 0) 0 (0x200, 0) _ _ eq_refl eq_refl (conj eq_refl eq_refl)).
  - left.
  - apply words_at_ok. repeat constructor; done.
Defined.
