(* ===== verification/Sd.v ===== *)
(** * Sd: the SD card driver ([src/baremetal/lib/sd.c])

    Commands over the MCI controller, single-block transfers through the L2
    buffer, multiple-block reads with the L2 DMA engine.  The controller is the
    machine's device; the DMA engine writes DDR by itself, which a device of the
    model does not, so that for [sd_read_blocks] the theorems speak about what the
    driver tells the engine.  The delay loops make no access and are [skip]. *)
From S2P Require Import Prelude Machine Soc.

Definition SYSCTRL (off : Z) : Z := 0x08000000 + off.
Definition MCI (off : Z) : Z := 0x20020000 + off.
Definition MCI_CLOCK : Z := MCI 0x04.
Definition MCI_ARG : Z := MCI 0x08.
Definition MCI_CMD : Z := MCI 0x0C.
Definition MCI_RESP0 : Z := MCI 0x14.
Definition MCI_DATATIMER : Z := MCI 0x24.
Definition MCI_DATALEN : Z := MCI 0x28.
Definition MCI_DATACNT : Z := MCI 0x30.
Definition MCI_DATACTRL : Z := MCI 0x2C.
Definition MCI_STA : Z := MCI 0x34.
Definition MCI_MASK : Z := MCI 0x38.
Definition MCI_DMACTRL : Z := MCI 0x3C.
Definition MCI_FIFO : Z := MCI 0x40.
Definition MCI_ENABLE : Z := 1 .<< 20.
Definition MCI_FAIL : Z := 1 .<< 19.
Definition MCI_CLK_EN : Z := 1 .<< 16.
Definition MCI_PWRSAVE : Z := 1 .<< 17.
Definition CPSM_ENABLE : Z := 1 .<< 0.
Definition CPSM_RESPONSE : Z := 1 .<< 7.
Definition CPSM_LONGRSP : Z := 1 .<< 8.
Definition CPSM_RSPCRC_NOCHK : Z := 1 .<< 10.
Definition CPSM_WITHDATA : Z := 1 .<< 11.
Definition DPSM_ENABLE : Z := 1 .<< 0.
Definition DPSM_DIR_READ : Z := 1 .<< 1.
Definition DPSM_BUS_4BIT : Z := 1 .<< 3.
Definition DPSM_BLKSZ_512 : Z := 512 .<< 16.
Definition STA_RESPCRCFAIL : Z := 1 .<< 0.
Definition STA_RESPTIMEO : Z := 1 .<< 2.
Definition STA_RESPEND : Z := 1 .<< 4.
Definition STA_CMDSENT : Z := 1 .<< 5.
Definition STA_DATACRCFAIL : Z := 1 .<< 1.
Definition STA_DATATIMEO : Z := 1 .<< 3.
Definition STA_DATAEND : Z := 1 .<< 6.
Definition STA_DATABLOCKEND : Z := 1 .<< 7.
Definition STA_STARTBITERR : Z := 1 .<< 8.
Definition STA_RXACTIVE : Z := 1 .<< 11.
Definition STA_FIFOFULL : Z := 1 .<< 12.
Definition STA_DATA_ERROR : Z := STA_DATACRCFAIL .| STA_DATATIMEO .| STA_STARTBITERR.
Definition RESP_MASK : Z := STA_RESPEND .| STA_RESPTIMEO .| STA_RESPCRCFAIL.
Definition R1_ERRORS : Z := 0xFDF90008.
Definition R1_READY_FOR_DATA : Z := 1 .<< 8.
Definition R1_STATE (r : Z) : Z := (r .>> 9) .& 0xF.
Definition R1_STATE_TRAN : Z := 4.
Definition L2_CONBUF0_7 : Z := 0x2002C088.
Definition L2_BUFASSIGN1 : Z := 0x2002C090.
Definition L2_BUFSTAT1 : Z := 0x2002C0A0.
Definition L2_DMAREQ : Z := 0x2002C080.
Definition L2_DMA_ENABLE : Z := 1 .<< 0.
Definition L2_FRACTION : Z := 1 .<< 9.
Definition L2_REQ_MASK : Z := 0xFFFF0000.
Definition SD_L2_BUF_ID : Z := 4.
Definition SD_L2_BUF_ADDR : Z := 0x48000000 + SD_L2_BUF_ID * 512.
Definition SD_L2_DIR_WRITE : Z := 1 .<< (SD_L2_BUF_ID + 8).
Definition MCI_DMACTRL_L2 : Z := 0x01000001.
Definition L2_DMA_ADDR : Z := 0x2002C000 + SD_L2_BUF_ID * 4.
Definition L2_DMA_COUNT : Z := 0x2002C040 + SD_L2_BUF_ID * 4.
Definition L2_DMA_REQ : Z := 1 .<< (24 + SD_L2_BUF_ID).
Definition L2_DMA_CHUNK : Z := 8192.
Definition MCI_DATA_TIMEOUT : Z := 0x00200000.
Definition WAIT_LIMIT : Z := 500000.
Definition DMA_WAIT_LIMIT : Z := 20000000.
Definition SD_BLOCKS_MAX : Z := 1024.
Definition SD_ENOCMD23 : Z := -23.
Definition SD_READ_TRIES : nat := 5.
Definition SD_WRITE_TRIES : nat := 3.
Definition SD_SWITCH_TRIES : nat := 3.
Definition GPIO1_DIR : Z := SYSCTRL 0x7C.
Definition GPIO1_IN : Z := SYSCTRL 0xBC.
Definition SD_CD_BIT : Z := 1 .<< 13.

(** The static variables. *)
Record pin_save := PinSave { sc_0c : Z; sc_74 : Z; sc_78 : Z; sc_a0 : Z; valid : bool }.
Record sd_st := SdSt { g_sdhc : bool; g_bus_4bit : bool; g_rca_arg : Z; g_pin_save : pin_save }.
Record sd_image (D : Type) := SdImage { sd_mach : machine D; sd_vars : sd_st }.
Arguments SdImage {D} _ _.
Arguments sd_mach {D} _.
Arguments sd_vars {D} _.

#[export] Instance sd_machine D : HasMachine (sd_image D) D.
Proof.
  refine {| machine_of := sd_mach; set_machine m s := SdImage m (sd_vars s) |}; by intros ? *; try destruct s.
Defined.

Definition getS {D A} (f : sd_st → A) : M (sd_image D) A := gets (λ s, f (sd_vars s)).
Definition updS {D} (f : sd_st → sd_st) : M (sd_image D) unit := modify (λ s, SdImage (sd_mach s) (f (sd_vars s))).
Definition set_sdhc (b : bool) (u : sd_st) : sd_st := SdSt b (g_bus_4bit u) (g_rca_arg u) (g_pin_save u).
Definition set_bus_4bit (b : bool) (u : sd_st) : sd_st := SdSt (g_sdhc u) b (g_rca_arg u) (g_pin_save u).
Definition set_rca_arg (v : Z) (u : sd_st) : sd_st := SdSt (g_sdhc u) (g_bus_4bit u) v (g_pin_save u).
Definition set_pin_save (p : pin_save) (u : sd_st) : sd_st := SdSt (g_sdhc u) (g_bus_4bit u) (g_rca_arg u) p.

(** A polling loop with variables: at most [limit] rounds, each of which goes on
    with new variables or leaves with a result. *)
Definition spin_acc {S A B} (limit : Z) (body : A → M S (A + B)) (a : A) : M S (A + B) := λ s,
  match iter_z limit (λ '(a, s), match body a s with
                                 | (inl a', s') => inl (a', s')
                                 | (inr b, s') => inr (b, s') end) (a, s) with
  | inl (a', s') => (inl a', s')
  | inr (b, s') => (inr b, s')
  end.

Section Sd.
Context {D : Type} `{!Device D}.
Abbreviation St := (sd_image D).

Definition small_delay : M St unit := skip.

(** The status, or 0 when the limit is reached. *)
Definition wait_sta (mask : Z) : M St Z :=
  r ← spin WAIT_LIMIT (sta ← rd32 MCI_STA; mret (if nonzero (sta .& mask) then Some sta else None));
  mret (default 0 r).

Definition sd_stop_transfer : M St unit :=
  wr32 MCI_CMD 0;;
  wr32 MCI_DATACTRL 0;;
  wr32 MCI_DATALEN 0;;
  wr32 MCI_DMACTRL 0;;
  wr32 MCI_MASK 0;;
  reg_or L2_CONBUF0_7 (1 .<< (SD_L2_BUF_ID + 24)).

Definition sd_quiesce : M St unit :=
  sd_stop_transfer;;
  reg_clear L2_BUFASSIGN1 (7 .<< 12).

(** The result and, if it is wanted, the response. *)
Definition send_resp (cmd_idx arg flags : Z) (want : bool) : M St (Z * Z) :=
  cmd ← rd32 MCI_CMD;
  when (nonzero (cmd .& CPSM_ENABLE)) (wr32 MCI_CMD 0;; small_delay);;
  wr32 MCI_ARG arg;;
  wr32 MCI_MASK 0x1FF;;
  wr32 MCI_CMD (CPSM_ENABLE .| flags .| (cmd_idx .<< 1));;
  sta ← wait_sta RESP_MASK;
  if negb (nonzero (sta .& (STA_RESPEND .| STA_RESPCRCFAIL))) then mret (-1, 0)
  else if want then v ← rd32 MCI_RESP0; mret (0, v) else mret (0, 0).

Definition sd_set_clock_divider (divider : Z) : M St unit :=
  cur ← rd32 MCI_CLOCK;
  let low := divider - (divider .>> 1) in
  let high := divider .>> 1 in
  wr32 MCI_CLOCK ((cur .& 0xFFFF0000 .& not32 MCI_PWRSAVE) .| (high .<< 8) .| low);;
  when (nonzero (cur .& MCI_CLK_EN)) (reg_or MCI_CLOCK MCI_CLK_EN);;
  small_delay.

Definition sd_bind_l2 : M St unit :=
  reg_or L2_CONBUF0_7 ((1 .<< SD_L2_BUF_ID) .| (1 .<< (SD_L2_BUF_ID + 16)));;
  rmw W32 L2_BUFASSIGN1 (λ v, (v .& not32 (7 .<< 12)) .| (SD_L2_BUF_ID .<< 12));;
  reg_or L2_CONBUF0_7 (1 .<< (SD_L2_BUF_ID + 24)).

(** ** Initialization *)

Definition save_pins : M St unit :=
  p ← getS g_pin_save;
  when (negb (valid p)) (
    a ← rd32 (SYSCTRL 0x0C);
    b ← rd32 (SYSCTRL 0x74);
    c ← rd32 (SYSCTRL 0x78);
    d ← rd32 (SYSCTRL 0xA0);
    updS (set_pin_save (PinSave a b c d true))).

(** Up to [n] tries of CMD8. *)
Fixpoint cmd8_loop (n : nat) (r : Z) : M St bool :=
  match n with
  | O => mret false
  | S n' =>
      when (nonzero r) small_delay;;
      res ← send_resp 8 0x1AA CPSM_RESPONSE true;
      let '(rc, resp8) := (res : Z * Z) in
      if (rc =? 0) && (resp8 =? 0x1AA) then mret true else cmd8_loop n' (r + 1)
  end.

(** Up to [n] rounds of ACMD41: the OCR of a card that is ready. *)
Fixpoint acmd41_loop (n : nat) (a ocr_arg : Z) : M St (option Z) :=
  match n with
  | O => mret None
  | S n' =>
      res ← send_resp 55 0 CPSM_RESPONSE true;
      if fst (res : Z * Z) <? 0 then mret None
      else
        res ← send_resp 41 ocr_arg (CPSM_RESPONSE .| CPSM_RSPCRC_NOCHK) true;
        let '(rc, ocr) := (res : Z * Z) in
        if rc <? 0 then mret None
        else if nonzero (ocr .& 0x80000000) then mret (Some ocr)
        else
          small_delay;;
          acmd41_loop n' (a + 1)
            (if (a =? 0) && nonzero (ocr .& 0x00FFFFFF) then (ocr .& 0x40FF8000) .| 0x40FF8000 else ocr_arg)
  end.

(** Before the first command: the clock gate, the pins and the controller. *)
Definition sd_power_up : M St unit :=
  reg_or (SYSCTRL 0x0C) (1 .<< 2);;
  small_delay;;
  reg_clear (SYSCTRL 0x0C) (1 .<< 2);;
  small_delay;;
  reg_or (SYSCTRL 0x78) (1 .<< 29);;
  rmw W32 (SYSCTRL 0x78) (λ v, (v .& not32 (7 .<< 16)) .| (7 .<< 16));;
  rmw W32 (SYSCTRL 0x74) (λ v, (v .& not32 (3 .<< 3)) .| (2 .<< 3));;
  small_delay;;
  reg_or (SYSCTRL 0xA0) 0x180;;
  small_delay;;
  wr32 MCI_CLOCK (MCI_ENABLE .| MCI_FAIL);;
  small_delay;;
  wr32 MCI_CLOCK (MCI_ENABLE .| MCI_FAIL .| MCI_CLK_EN .| MCI_PWRSAVE .| 0xF0);;
  small_delay;;
  wr32 MCI_CMD 0;;
  wr32 MCI_DATACTRL 0;;
  wr32 MCI_DMACTRL 0;;
  wr32 MCI_DATATIMER MCI_DATA_TIMEOUT;;
  wr32 MCI_MASK 0;;
  wr32 MCI_ARG 0;;
  wr32 MCI_CMD CPSM_ENABLE;;
  _ ← wait_sta (STA_CMDSENT .| STA_RESPTIMEO);
  small_delay.

(** After ACMD41: the address of the card and the bus width. *)
Definition sd_select : M St Z :=
  wr32 MCI_ARG 0;;
  wr32 MCI_MASK 0x1FF;;
  wr32 MCI_CMD (CPSM_ENABLE .| CPSM_RESPONSE .| CPSM_LONGRSP .| (2 .<< 1));;
  sta ← wait_sta RESP_MASK;
  if negb (nonzero (sta .& STA_RESPEND)) then mret (-2)
  else
    res ← send_resp 3 0 CPSM_RESPONSE true;
    let '(rc, r6) := (res : Z * Z) in
    if rc <? 0 then mret (-3)
    else
      updS (set_rca_arg (r6 .& 0xFFFF0000));;
      rca ← getS g_rca_arg;
      res ← send_resp 7 rca CPSM_RESPONSE false;
      if fst (res : Z * Z) <? 0 then mret (-7)
      else
        small_delay;;
        res ← send_resp 55 rca CPSM_RESPONSE true;
        (if 0 <=? fst (res : Z * Z) then
           res ← send_resp 6 2 CPSM_RESPONSE true;
           when (0 <=? fst (res : Z * Z)) (updS (set_bus_4bit true))
         else skip);;
        sd_set_clock_divider 4;;
        sd_bind_l2;;
        mret 0.

Definition sd_init : M St Z :=
  updS (set_sdhc false);;
  updS (set_bus_4bit false);;
  updS (set_rca_arg 0);;
  save_pins;;
  sd_power_up;;
  ok8 ← cmd8_loop 10 0;
  if negb (ok8 : bool) then mret (-8)
  else
    ready ← acmd41_loop 100 0 0x40FF8000;
    match (ready : option Z) with
    | None => mret (-41)
    | Some ocr => updS (set_sdhc (nonzero (ocr .& 0x40000000)));; sd_select
    end.

Definition sd_release_pins : M St unit :=
  sd_quiesce;;
  p ← getS g_pin_save;
  when (valid p) (
    wr32 (SYSCTRL 0x0C) (sc_0c p);;
    wr32 (SYSCTRL 0x74) (sc_74 p);;
    wr32 (SYSCTRL 0x78) (sc_78 p);;
    wr32 (SYSCTRL 0xA0) (sc_a0 p);;
    updS (set_pin_save (PinSave (sc_0c p) (sc_74 p) (sc_78 p) (sc_a0 p) false))).

(** ** Single blocks *)

(** [g_sdhc ? lba : (lba << 9)] and the 4-bit field of DATACTRL *)
Definition block_arg (lba : Z) : M St Z := sdhc ← getS g_sdhc; mret (if (sdhc : bool) then lba else u32 (lba .<< 9)).
Definition bus_mode : M St Z := b ← getS g_bus_4bit; mret (if (b : bool) then DPSM_BUS_4BIT else 0).

Definition clear_controller : M St unit :=
  wr32 MCI_CMD 0;;
  wr32 MCI_DATACTRL 0;;
  wr32 MCI_DMACTRL 0.

(** The loops over the 128 words of the L2 buffer. *)
Definition copy_from_l2 (dst : Z) : M St unit :=
  for_to 128 (λ w, v ← rd32 (SD_L2_BUF_ADDR + 4 * w); wr32 (dst + 4 * w) v).
Definition copy_to_l2 (src : Z) : M St unit :=
  for_to 128 (λ w, v ← rd32 (src + 4 * w); wr32 (SD_L2_BUF_ADDR + 4 * w) v).

Definition sd_read_block_once (lba dst : Z) : M St Z :=
  arg ← block_arg lba;
  clear_controller;;
  reg_or L2_CONBUF0_7 (1 .<< (SD_L2_BUF_ID + 24));;
  wr32 MCI_DMACTRL MCI_DMACTRL_L2;;
  wr32 MCI_DATATIMER MCI_DATA_TIMEOUT;;
  wr32 MCI_DATALEN 512;;
  mode ← bus_mode;
  wr32 MCI_DATACTRL (DPSM_ENABLE .| DPSM_DIR_READ .| DPSM_BLKSZ_512 .| mode);;
  wr32 MCI_ARG arg;;
  wr32 MCI_MASK 0x1FF;;
  wr32 MCI_CMD (CPSM_ENABLE .| CPSM_RESPONSE .| (17 .<< 1));;
  sta ← wait_sta RESP_MASK;
  if negb (nonzero (sta .& STA_RESPEND)) then sd_stop_transfer;; mret (-1)
  else
    _ ← rd32 MCI_RESP0;
    r ← spin WAIT_LIMIT
          (v ← rd32 L2_BUFSTAT1; mret (if ((v .>> (SD_L2_BUF_ID * 4)) .& 0xF) <? 8 then None else Some tt));
    match (r : option unit) with
    | None => sd_stop_transfer;; mret (-2)
    | Some _ =>
        copy_from_l2 dst;;
        sd_stop_transfer;;
        mret 0
    end.

(** [for (try = 0; try < TRIES; try++)], with the last result. *)
Fixpoint tries (n : nat) (once : M St Z) (rc : Z) : M St Z :=
  match n with
  | O => mret rc
  | S n' => rc ← once; if (rc : Z) =? 0 then mret 0 else tries n' once rc
  end.

Definition sd_read_block (lba dst : Z) : M St Z := tries SD_READ_TRIES (sd_read_block_once lba dst) (-1).

Definition sd_wait_ready : M St Z :=
  r ← spin 40000 (
        rca ← getS g_rca_arg;
        res ← send_resp 13 rca CPSM_RESPONSE true;
        let '(rc, r1) := (res : Z * Z) in
        if (rc =? 0) && nonzero (r1 .& R1_READY_FOR_DATA) && (R1_STATE r1 =? R1_STATE_TRAN) then mret (Some 0)
        else small_delay;; mret None);
  mret (default (-13) r).

(** The data phase of a write: one round with [i] and [seen]. *)
Definition write_phase (v : Z * Z) : M St (Z * Z + Z) :=
  let '(i, seen) := v in
  sta ← rd32 MCI_STA;
  let seen := seen .| sta in
  mret (if nonzero (sta .& STA_DATA_ERROR) then inr (-2)
        else if (seen .& (STA_DATAEND .| STA_DATABLOCKEND)) =? (STA_DATAEND .| STA_DATABLOCKEND) then inr 0
        else if WAIT_LIMIT <=? i then inr (-3)
        else inl (i + 1, seen)).

Definition sd_write_block_once (lba src : Z) : M St Z :=
  arg ← block_arg lba;
  clear_controller;;
  res ← send_resp 24 arg (CPSM_RESPONSE .| CPSM_WITHDATA) true;
  let '(rc, r1) := (res : Z * Z) in
  if (rc <? 0) || nonzero (r1 .& R1_ERRORS) then sd_stop_transfer;; mret (-24)
  else
    reg_or L2_CONBUF0_7 (1 .<< (SD_L2_BUF_ID + 24));;
    reg_or L2_CONBUF0_7 SD_L2_DIR_WRITE;;
    copy_to_l2 src;;
    wr32 MCI_DMACTRL MCI_DMACTRL_L2;;
    wr32 MCI_DATATIMER MCI_DATA_TIMEOUT;;
    wr32 MCI_DATALEN 512;;
    mode ← bus_mode;
    wr32 MCI_DATACTRL (DPSM_ENABLE .| DPSM_BLKSZ_512 .| mode);;
    r ← spin_acc (WAIT_LIMIT + 1) write_phase (0, 0);
    let rc := match (r : Z * Z + Z) with inr rc => rc | inl _ => -3 end in
    sd_stop_transfer;;
    reg_clear L2_CONBUF0_7 SD_L2_DIR_WRITE;;
    when (nonzero rc) (_ ← send_resp 12 0 CPSM_RESPONSE false; skip);;
    ready ← sd_wait_ready;
    if nonzero ready then mret (if nonzero rc then rc else -4) else mret rc.

Definition sd_write_block (lba src : Z) : M St Z := tries SD_WRITE_TRIES (sd_write_block_once lba src) (-1).

(** ** Several blocks *)

Definition l2_dma_chunk (addr bytes : Z) : M St unit :=
  wr32 L2_DMA_ADDR addr;;
  wr32 L2_DMA_COUNT (bytes / 64);;
  rmw W32 L2_DMAREQ (λ v, (v .& not32 (L2_FRACTION .| L2_REQ_MASK)) .| L2_DMA_ENABLE .| L2_DMA_REQ).

(** One round of the data phase, with [i], [sent] and [seen]. *)
Definition read_phase (addr total : Z) (v : Z * Z * Z) : M St (Z * Z * Z + Z) :=
  let '(i, sent, seen) := v in
  sta ← rd32 MCI_STA;
  let seen := seen .| sta in
  let wait := if DMA_WAIT_LIMIT <=? i then inr (-22) else inl (i + 1, sent, seen) in
  if nonzero (sta .& STA_DATA_ERROR) then mret (inr (-20))
  else
    req ← rd32 L2_DMAREQ;
    if negb (nonzero (req .& L2_DMA_REQ)) then
      if sent <? total then
        let b := if total - sent <? L2_DMA_CHUNK then total - sent else L2_DMA_CHUNK in
        l2_dma_chunk (u32 (addr + sent)) b;;
        mret (inl (1, sent + b, seen))
      else if nonzero (seen .& STA_DATAEND) then
        cnt ← rd32 MCI_DATACNT;
        mret (inr (if nonzero cnt then -21 else 0))
      else mret wait
    else mret wait.

(** Enough rounds for every chunk to wait for its whole limit. *)
Definition read_rounds (total : Z) : Z := (total / L2_DMA_CHUNK + 2) * (DMA_WAIT_LIMIT + 1).

Definition sd_read_blocks (lba n dst : Z) : M St Z :=
  let total := u32 (n * 512) in
  req ← rd32 L2_DMAREQ;
  let enable := req .& L2_DMA_ENABLE in
  if (n =? 0) || (SD_BLOCKS_MAX <? n) || nonzero (dst .& 63) then mret (-1)
  else
    res ← send_resp 23 n CPSM_RESPONSE true;
    let '(rc, r1) := (res : Z * Z) in
    if (rc <? 0) || nonzero (r1 .& R1_ERRORS) then mret SD_ENOCMD23
    else
      clear_controller;;
      reg_or L2_CONBUF0_7 (1 .<< (SD_L2_BUF_ID + 24));;
      let sent := if total <? L2_DMA_CHUNK then total else L2_DMA_CHUNK in
      l2_dma_chunk dst sent;;
      wr32 MCI_DMACTRL MCI_DMACTRL_L2;;
      wr32 MCI_DATATIMER MCI_DATA_TIMEOUT;;
      wr32 MCI_DATALEN total;;
      mode ← bus_mode;
      wr32 MCI_DATACTRL (DPSM_ENABLE .| DPSM_DIR_READ .| DPSM_BLKSZ_512 .| mode);;
      arg ← block_arg lba;
      wr32 MCI_ARG arg;;
      wr32 MCI_MASK 0x1FF;;
      wr32 MCI_CMD (CPSM_ENABLE .| CPSM_RESPONSE .| CPSM_WITHDATA .| (18 .<< 1));;
      sta ← wait_sta RESP_MASK;
      rc ← (if negb (nonzero (sta .& STA_RESPEND)) then mret (-18)
            else
              r1 ← rd32 MCI_RESP0;
              if nonzero (r1 .& R1_ERRORS) then mret (-18)
              else
                r ← spin_acc (read_rounds total) (read_phase dst total) (0, sent, 0);
                mret (match (r : Z * Z * Z + Z) with inr rc => rc | inl _ => -22 end));
      sd_stop_transfer;;
      req ← rd32 L2_DMAREQ;
      when (nonzero (req .& L2_DMA_REQ)) (wr32 L2_DMA_COUNT 0);;
      rmw W32 L2_DMAREQ (λ v, (v .& not32 (L2_FRACTION .| L2_REQ_MASK .| L2_DMA_ENABLE)) .| enable);;
      when (nonzero rc) (_ ← send_resp 12 0 CPSM_RESPONSE false; skip);;
      mret rc.

(** ** High speed *)

(** The wait for one word of the switch status, with [i] and [seen]. *)
Definition status_wait (v : Z * Z) : M St (Z * Z + option Z) :=
  let '(i, seen) := v in
  sta ← rd32 MCI_STA;
  let seen := seen .| sta in
  mret (if nonzero (sta .& STA_DATA_ERROR) || (WAIT_LIMIT <=? i + 1) then inr None
        else if (sta .& (STA_FIFOFULL .| STA_RXACTIVE)) =? (STA_FIFOFULL .| STA_RXACTIVE) then inr (Some seen)
        else inl (i + 1, seen)).

(** The words of the status and [seen], or nothing after an error. *)
Fixpoint status_loop (n : nat) (seen : Z) (status : list Z) : M St (option (list Z * Z)) :=
  match n with
  | O => mret (Some (status, seen))
  | S n' =>
      r ← spin_acc WAIT_LIMIT status_wait (0, seen);
      match (r : Z * Z + option Z) with
      | inr (Some seen) => v ← rd32 MCI_FIFO; status_loop n' seen (status ++ [v])
      | _ => sd_stop_transfer;; mret None
      end
  end.

Definition switch_high_speed : M St Z :=
  sd_stop_transfer;;
  wr32 MCI_DATATIMER MCI_DATA_TIMEOUT;;
  wr32 MCI_DATALEN 64;;
  mode ← bus_mode;
  wr32 MCI_DATACTRL (DPSM_ENABLE .| DPSM_DIR_READ .| (64 .<< 16) .| mode);;
  res ← send_resp 6 0x80FFFFF1 (CPSM_RESPONSE .| CPSM_WITHDATA) true;
  let '(rc, r1) := (res : Z * Z) in
  if (rc <? 0) || nonzero (r1 .& R1_ERRORS) then sd_stop_transfer;; mret (-6)
  else
    r ← status_loop 16 0 [];
    match (r : option (list Z * Z)) with
    | None => mret (-62)
    | Some (status, seen) =>
        _ ← (if nonzero (seen .& STA_DATAEND) then mret (inl 0)
             else spin_acc WAIT_LIMIT
               (λ seen, sta ← rd32 MCI_STA;
                        let seen := seen .| sta in
                        mret (if nonzero (seen .& STA_DATAEND) then inr tt else inl seen)) seen : M St (Z + unit));
        sd_stop_transfer;;
        mret (if (znth status 4 .& 0xF) =? 1 then 0 else -64)
    end.

Definition sd_high_speed : M St Z :=
  rc ← tries SD_SWITCH_TRIES switch_high_speed (-1);
  if nonzero rc then mret rc
  else
    sd_set_clock_divider 2;;
    sd_wait_ready.

Definition sd_card_present : M St bool :=
  reg_or GPIO1_DIR SD_CD_BIT;;
  v ← rd32 GPIO1_IN;
  mret ((v .& SD_CD_BIT) =? 0).
End Sd.

(** ** Invariants of the driver's parts *)

(** A register other than those of the DMA engine. *)
Definition sd_reg (a : Z) : bool := negb (in_ddr a) && negb (existsb (Z.eqb a) [L2_DMA_ADDR; L2_DMA_COUNT; L2_DMAREQ]).

Lemma steps_spin_acc {S A B} (R : S → S → Prop) `{!PreOrder R} n (body : A → M S (A + B)) a :
  (∀ a, steps R (body a)) → steps R (spin_acc n body a).
Proof.
  intros Hb s. unfold spin_acc. rewrite iter_z_nat.
  pose proof (iter_nat_inv (λ v, R s (snd v)) (λ '(b, s'), R s s') (Z.to_nat n)
    (λ '(a, s), match body a s with (inl a', s') => inl (a', s') | (inr b, s') => inr (b, s') end) (a, s)) as H.
  match goal with |- context [iter_nat ?n ?f ?s] => destruct (iter_nat n f s) as [[a' s']|[b s']] end;
    apply H; try (cbn; reflexivity); clear H;
    intros [a1 s1] H1; specialize (Hb a1 s1); destruct (body a1 s1) as [[a2|b2] s2]; cbn in *; by etransitivity.
Qed.

Section walks.
Context {D : Type} `{!Device D} (R : sd_image D → sd_image D → Prop) `{!PreOrder R}.
Abbreviation St := (sd_image D).
Hypothesis R_rd : ∀ w a, steps R (rd w a : M St Z).
Hypothesis R_wr : ∀ w a v, sd_reg a = true → steps R (wr w a v : M St unit).
Hypothesis R_upd : ∀ f, (∀ u, g_pin_save (f u) = g_pin_save u) → steps R (updS f : M St unit).

Lemma walk_rmw a f : sd_reg a = true → steps R (rmw W32 a f : M St unit).
Proof. intros Ha. apply (steps_bind R); [apply R_rd|intros v; by apply R_wr]. Qed.

Ltac sd_leaf :=
  lazymatch goal with
  | |- steps _ (rd _ _) => apply R_rd
  | |- steps _ (wr _ _ _) => apply R_wr; reflexivity
  | |- steps _ (rmw _ _ _) => apply walk_rmw; reflexivity
  | |- steps _ (reg_or _ _) => apply walk_rmw; reflexivity
  | |- steps _ (reg_clear _ _) => apply walk_rmw; reflexivity
  | |- steps _ (updS _) => apply R_upd; intros []; reflexivity
  | |- steps _ (getS _) => apply steps_gets; apply _
  | |- steps _ (mret _) => apply steps_ret; apply _
  | |- steps _ skip => apply steps_skip; apply _
  | |- steps _ small_delay => apply steps_skip; apply _
  | |- _ => auto
  end.
Ltac sd_walk := steps_walk ltac:(idtac; sd_leaf).

Lemma walk_wait_sta mask : steps R (wait_sta mask : M St Z).
Proof. unfold wait_sta. sd_walk. Qed.
Lemma walk_stop : steps R (sd_stop_transfer : M St unit).
Proof. unfold sd_stop_transfer. sd_walk. Qed.
Lemma walk_send_resp c a f w : steps R (send_resp c a f w : M St (Z * Z)).
Proof. unfold send_resp. pose proof walk_wait_sta. sd_walk. Qed.
Lemma walk_clear : steps R (clear_controller : M St unit).
Proof. unfold clear_controller. sd_walk. Qed.
Lemma walk_arg lba : steps R (block_arg lba : M St Z).
Proof. unfold block_arg. sd_walk. Qed.
Lemma walk_mode : steps R (bus_mode : M St Z).
Proof. unfold bus_mode. sd_walk. Qed.
Lemma walk_divider d : steps R (sd_set_clock_divider d : M St unit).
Proof. unfold sd_set_clock_divider. sd_walk. Qed.
Lemma walk_bind : steps R (sd_bind_l2 : M St unit).
Proof. unfold sd_bind_l2. sd_walk. Qed.
Lemma walk_ready : steps R (sd_wait_ready : M St Z).
Proof. unfold sd_wait_ready. pose proof walk_send_resp. sd_walk. Qed.
Lemma walk_cmd8 n r : steps R (cmd8_loop n r : M St bool).
Proof. pose proof walk_send_resp. revert r. induction n as [|n IH]; intros r; cbn [cmd8_loop]; sd_walk. Qed.
Lemma walk_acmd41 n a arg : steps R (acmd41_loop n a arg : M St (option Z)).
Proof. pose proof walk_send_resp. revert a arg. induction n as [|n IH]; intros a arg; cbn [acmd41_loop]; sd_walk. Qed.
Lemma walk_power_up : steps R (sd_power_up : M St unit).
Proof. unfold sd_power_up. pose proof walk_wait_sta. sd_walk. Qed.
Lemma walk_select : steps R (sd_select : M St Z).
Proof. unfold sd_select. pose proof walk_wait_sta. pose proof walk_send_resp. pose proof walk_divider. pose proof walk_bind. sd_walk. Qed.
Lemma walk_quiesce : steps R (sd_quiesce : M St unit).
Proof. unfold sd_quiesce. pose proof walk_stop. sd_walk. Qed.

(** [sd_init] after the pins are saved. *)
Definition init_rest : M St Z :=
  sd_power_up;;
  ok8 ← cmd8_loop 10 0;
  if negb (ok8 : bool) then mret (-8)
  else
    ready ← acmd41_loop 100 0 0x40FF8000;
    match (ready : option Z) with
    | None => mret (-41)
    | Some ocr => updS (set_sdhc (nonzero (ocr .& 0x40000000)));; sd_select
    end.
Lemma walk_init_rest : steps R init_rest.
Proof. unfold init_rest. pose proof walk_power_up. pose proof walk_cmd8. pose proof walk_acmd41. pose proof walk_select. sd_walk. Qed.
Lemma walk_tries n once rc : steps R once → steps R (tries n once rc : M St Z).
Proof. intros H. revert rc. induction n as [|n IH]; intros rc; cbn [tries]; sd_walk. Qed.

Lemma walk_write_block lba src : steps R (sd_write_block lba src : M St Z).
Proof.
  apply walk_tries. unfold sd_write_block_once.
  pose proof walk_arg. pose proof walk_clear. pose proof walk_send_resp. pose proof walk_stop. pose proof walk_mode. pose proof walk_ready.
  assert (∀ n v, steps R (spin_acc n write_phase v : M St _)) as Hphase.
  { intros n v. apply (steps_spin_acc R). intros [i seen]. unfold write_phase. sd_walk. }
  assert (steps R (copy_to_l2 src : M St unit)) as Hcopy.
  { apply (steps_for_lt R). intros w Hw. apply (steps_bind R); [apply R_rd|intros v]. apply R_wr.
    unfold sd_reg. rewrite in_ddr_false by (unfold SD_L2_BUF_ADDR, SD_L2_BUF_ID, DDR_END; lia). cbn [negb andb existsb].
    unfold SD_L2_BUF_ADDR, SD_L2_BUF_ID, L2_DMA_ADDR, L2_DMA_COUNT, L2_DMAREQ, SD_L2_BUF_ID.
    rewrite !(proj2 (Z.eqb_neq _ _)) by lia. done. }
  sd_walk.
Qed.

(** A read, when the writes to its destination are allowed. *)
Lemma walk_read_block lba dst :
  (∀ w v, 0 <= w < 128 → steps R (wr32 (dst + 4 * w) v : M St unit)) → steps R (sd_read_block lba dst : M St Z).
Proof.
  intros Hdst. apply walk_tries. unfold sd_read_block_once.
  pose proof walk_arg. pose proof walk_clear. pose proof walk_stop. pose proof walk_mode. pose proof walk_wait_sta.
  assert (steps R (copy_from_l2 dst : M St unit)) as Hcopy.
  { apply (steps_for_lt R). intros w Hw. apply (steps_bind R); [apply R_rd|intros v]. apply Hdst. lia. }
  sd_walk.
Qed.

Lemma walk_status n seen l : steps R (status_loop n seen l : M St _).
Proof.
  pose proof walk_stop. revert seen l. induction n as [|n IH]; intros seen l; cbn [status_loop]; [apply (steps_ret R)|].
  assert (∀ n v, steps R (spin_acc n status_wait v : M St _)) as Hw.
  { intros k v. apply (steps_spin_acc R). intros [i sn]. unfold status_wait. sd_walk. }
  sd_walk.
Qed.
Lemma walk_high_speed : steps R (sd_high_speed : M St Z).
Proof.
  unfold sd_high_speed. pose proof walk_divider. pose proof walk_ready.
  assert (steps R (switch_high_speed : M St Z)) as Hsw.
  { unfold switch_high_speed. pose proof walk_stop. pose proof walk_mode. pose proof walk_send_resp. pose proof walk_status.
    assert (∀ n b, (∀ a, steps R (b a : M St (Z + unit))) → ∀ a, steps R (spin_acc n b a)) as Hacc
      by (intros; by apply (steps_spin_acc R)).
    sd_walk. apply Hacc. sd_walk. }
  pose proof (walk_tries SD_SWITCH_TRIES switch_high_speed (-1) Hsw). sd_walk.
Qed.

(** A multiple-block read, when the DMA engine may be programmed. *)
Lemma walk_read_blocks lba n dst :
  (∀ a v, steps R (wr32 L2_DMA_ADDR a : M St unit) ∧ steps R (wr32 L2_DMA_COUNT a : M St unit) ∧
          steps R (wr32 L2_DMAREQ v : M St unit)) →
  steps R (sd_read_blocks lba n dst : M St Z).
Proof.
  intros Hdma. unfold sd_read_blocks.
  assert (∀ a, steps R (wr32 L2_DMA_ADDR a : M St unit)) as H1 by (intros; by apply (Hdma _ 0)).
  assert (∀ a, steps R (wr32 L2_DMA_COUNT a : M St unit)) as H2 by (intros; by apply (Hdma _ 0)).
  assert (∀ f, steps R (rmw W32 L2_DMAREQ f : M St unit)) as H3
    by (intros; apply (steps_bind R); [apply R_rd|intros v; by apply (Hdma 0)]).
  assert (∀ a b, steps R (l2_dma_chunk a b : M St unit)) as H4.
  { intros. unfold l2_dma_chunk. apply (steps_bind R); [done|intros ?]. apply (steps_bind R); [done|intros ?]. done. }
  assert (∀ k v, steps R (spin_acc k (read_phase dst (u32 (n * 512))) v : M St _)) as H5.
  { intros k v. apply (steps_spin_acc R). intros [[i sent] seen]. unfold read_phase. sd_walk. }
  pose proof walk_send_resp. pose proof walk_clear. pose proof walk_mode. pose proof walk_arg. pose proof walk_wait_sta.
  pose proof walk_stop.
  steps_walk ltac:(idtac; lazymatch goal with
    | |- steps _ (wr _ L2_DMA_COUNT _) => apply H2
    | |- steps _ (rmw _ L2_DMAREQ _) => apply H3
    | |- _ => sd_leaf end).
Qed.
End walks.

(** ** What the driver writes to memory *)

Section frame.
Context {D : Type} `{!Device D}.
Abbreviation St := (sd_image D).

Definition kept (P : Z → Prop) (s s' : St) : Prop := ∀ a, ¬ P a → mget (ram (sd_mach s')) a = mget (ram (sd_mach s)) a.
#[local] Instance kept_preorder P : PreOrder (kept P).
Proof. split; [by intros s a|]. intros s1 s2 s3 H12 H23 a Ha. by rewrite H23, H12. Qed.

Lemma kept_bus P : dev_frame (kept P).
Proof. by intros d s a. Qed.
Lemma kept_read P w a : steps (kept P) (rd w a : M St Z).
Proof.
  intros s x Hx. unfold rd, bus_read. destruct (in_ddr a); [by destruct s|]. by destruct (dev_read w a _).
Qed.
Lemma kept_write P w a v : in_ddr a = false → steps (kept P) (wr w a v : M St unit).
Proof. intros Ha. apply steps_wr_dev; [done|apply kept_bus]. Qed.
Lemma kept_reg P w a v : sd_reg a = true → steps (kept P) (wr w a v : M St unit).
Proof. intros [Ha%negb_true_iff _]%andb_true_iff. by apply kept_write. Qed.
Lemma kept_upd P f : steps (kept P) (updS f : M St unit).
Proof. by intros s x Hx. Qed.

(** The driver writes memory only where a block is read to.  Whatever the card
    and the controller answer, and however often a transfer is retried,
    [sd_read_block] changes at most the 512 bytes of its destination, and every other
    function of the driver leaves memory as it was; the data of [sd_read_blocks] are
    written by the DMA engine. *)
Theorem sd_memory_frame lba n p s a :
  let unchanged {A} (m : M St A) := mget (ram (sd_mach (snd (m s)))) a = mget (ram (sd_mach s)) a in
  (¬ (p <= a < p + 512) → unchanged (sd_read_block lba p)) ∧
  unchanged sd_init ∧ unchanged sd_release_pins ∧ unchanged (sd_write_block lba p) ∧ unchanged (sd_read_blocks lba n p) ∧
  unchanged sd_high_speed ∧ unchanged sd_card_present.
Proof.
  assert (∀ f, (∀ u, g_pin_save (f u) = g_pin_save u) → steps (kept (λ _, False)) (updS f : M St unit)) as Hu by (intros; apply kept_upd).
  assert (∀ A (m : M St A), steps (kept (λ _, False)) m → mget (ram (sd_mach (snd (m s)))) a = mget (ram (sd_mach s)) a) as Hq
    by (intros A m Hm; apply Hm; intros []).
  pose proof (kept_read (λ _, False)) as Hrd. pose proof (kept_reg (λ _, False)) as Hwr.
  split_and!.
  - intros Hout. refine (walk_read_block (kept (λ x, p <= x < p + 512)) (kept_read _) (kept_reg _) lba p _ s a Hout).
    intros w v Hw s1 x Hx. unfold wr, bus_write. destruct (in_ddr (p + 4 * w)); [|done].
    change (mget (mset_list (ram (sd_mach s1)) (p + 4 * w) (le_split 4 v)) x = mget (ram (sd_mach s1)) x).
    apply mget_mset_list_out. unfold zlen. rewrite le_split_length. lia.
  - apply Hq. apply (steps_bind (kept (λ _, False))); [apply kept_upd|intros _].
    apply (steps_bind (kept (λ _, False))); [apply kept_upd|intros _].
    apply (steps_bind (kept (λ _, False))); [apply kept_upd|intros _].
    apply (steps_bind (kept (λ _, False))); [|intros _; exact (walk_init_rest (kept (λ _, False)) Hrd Hwr Hu)].
    apply (steps_bind (kept (λ _, False))); [apply (steps_gets (kept (λ _, False)))|intros q].
    apply (steps_when (kept (λ _, False))). do 4 (apply (steps_bind (kept (λ _, False))); [apply kept_read|intros ?]). apply kept_upd.
  - apply Hq. apply (steps_bind (kept (λ _, False))); [by apply (walk_quiesce (kept (λ _, False)))|intros _].
    apply (steps_bind (kept (λ _, False))); [apply (steps_gets (kept (λ _, False)))|intros q].
    apply (steps_when (kept (λ _, False))). do 4 (apply (steps_bind (kept (λ _, False))); [by apply kept_write|intros ?]). apply kept_upd.
  - apply Hq. by apply (walk_write_block (kept (λ _, False))).
  - apply Hq. apply (walk_read_blocks (kept (λ _, False))); [done|done|]. intros x v. split_and!; by apply kept_write.
  - apply Hq. by apply (walk_high_speed (kept (λ _, False))).
  - apply Hq. apply (steps_bind (kept (λ _, False))); [|intros _].
    { apply (steps_bind (kept (λ _, False))); [apply kept_read|intros ?; by apply kept_write]. }
    apply (steps_bind (kept (λ _, False))); [apply kept_read|intros ?; apply (steps_ret (kept (λ _, False)))].
Qed.
End frame.

(** ** The polling loops end with a result *)

Lemma spin_acc_ends {S A B} (Inv : A → Prop) (μ : A → Z) limit (body : A → M S (A + B)) a s :
  Inv a → μ a < limit → (∀ a, Inv a → 0 <= μ a) →
  (∀ a s a', Inv a → fst (body a s) = inl a' → Inv a' ∧ μ a' < μ a) →
  ∃ b, fst (spin_acc limit body a s) = inr b.
Proof.
  intros Ha Hlt Hpos Hb. unfold spin_acc. rewrite iter_z_nat.
  assert (∀ k a s, Inv a → μ a < Z.of_nat k → ∃ b s', iter_nat k (λ '(a, s), match body a s with
     (inl a', s') => inl (a', s') | (inr b, s') => inr (b, s') end) (a, s) = inr (b, s')) as H.
  { induction k as [|k IH]; intros a1 s1 H1 Hk; cbn [iter_nat].
    - pose proof (Hpos a1 H1). lia.
    - specialize (Hb a1 s1). destruct (body a1 s1) as [[a2|b2] s2]; [|by eauto].
      destruct (Hb a2 H1 eq_refl) as [H2 H3]. apply IH; [done|lia]. }
  pose proof (Hpos a Ha). destruct (H (Z.to_nat limit) a s Ha ltac:(lia)) as (b & s' & ->). by exists b.
Qed.

Section ends.
Context {D : Type} `{!Device D}.
Abbreviation St := (sd_image D).

(** The chunks that are left, and the rounds that one of them may wait. *)
Definition chunks_left (total sent : Z) : Z := (total - sent + (L2_DMA_CHUNK - 1)) / L2_DMA_CHUNK.

Lemma chunks_left_step total sent :
  0 <= sent < total →
  let b := if total - sent <? L2_DMA_CHUNK then total - sent else L2_DMA_CHUNK in
  0 < b ∧ sent + b <= total ∧ chunks_left total (sent + b) = chunks_left total sent - 1.
Proof.
  intros Hs b. unfold chunks_left, L2_DMA_CHUNK in *. change (8192 - 1) with 8191. unfold b. destruct (total - sent <? 8192) eqn:E.
  - split_and!; [lia|lia|]. replace (total - (sent + (total - sent)) + 8191) with 8191 by lia.
    change (8191 / 8192) with 0. replace (total - sent + 8191) with (1 * 8192 + (total - sent - 1)) by lia.
    rewrite Z.div_add_l, Z.div_small by lia. lia.
  - split_and!; [lia|lia|]. replace (total - sent + 8191) with (1 * 8192 + (total - (sent + 8192) + 8191)) by lia.
    rewrite Z.div_add_l by lia. lia.
Qed.
Lemma chunks_left_nonneg total sent : sent <= total → 0 <= chunks_left total sent.
Proof. intros H. unfold chunks_left, L2_DMA_CHUNK. apply Z.div_pos; lia. Qed.

Definition phase_ok (total : Z) (v : Z * Z * Z) : Prop := let '(i, sent, _) := v in 0 <= i <= DMA_WAIT_LIMIT ∧ 0 <= sent <= total.
Definition phase_left (total : Z) (v : Z * Z * Z) : Z :=
  let '(i, sent, _) := v in chunks_left total sent * (DMA_WAIT_LIMIT + 1) + (DMA_WAIT_LIMIT - i).

Lemma read_phase_step addr total v (s : St) v' :
  phase_ok total v → fst (read_phase addr total v s) = inl v' → phase_ok total v' ∧ phase_left total v' < phase_left total v.
Proof.
  destruct v as [[i sent] seen]. intros [Hi Hs]. unfold read_phase, mbind, M_bind.
  destruct (rd32 MCI_STA s) as [sta s1]. destruct (nonzero (sta .& STA_DATA_ERROR)); [done|].
  destruct (rd32 L2_DMAREQ s1) as [req s2].
  assert (∀ seen', (if DMA_WAIT_LIMIT <=? i then inr (-22) else inl (i + 1, sent, seen')) = (inl v' : Z * Z * Z + Z) →
          phase_ok total v' ∧ phase_left total v' < phase_left total (i, sent, seen)) as Hwait.
  { intros seen' H. destruct (DMA_WAIT_LIMIT <=? i) eqn:E; [done|]. injection H as <-. unfold phase_ok, phase_left. lia. }
  destruct (negb (nonzero (req .& L2_DMA_REQ))); [|apply Hwait].
  destruct (sent <? total) eqn:Es.
  - destruct (chunks_left_step total sent) as (Hb1 & Hb2 & Hb3); [lia|]. set (b := if total - sent <? L2_DMA_CHUNK then _ else _) in *.
    destruct (l2_dma_chunk _ b s2) as [[] s3]. cbn [fst]. intros [= <-]. unfold phase_ok, phase_left. rewrite Hb3.
    unfold DMA_WAIT_LIMIT in *. lia.
  - destruct (nonzero _); [by destruct (rd32 MCI_DATACNT s2)|apply Hwait].
Qed.

(** C32: a transfer is decided.  The polling loops of the data phases never use up
    the rounds they are given, for any card: the write and the switch status end
    within their limit, and a multiple-block read within the limit of each of
    its chunks, so that every function of the driver returns with a result of the
    loop itself. *)
Theorem sd_polls_decide n addr seen (s : St) :
  0 < n <= SD_BLOCKS_MAX →
  let total := u32 (n * 512) in
  let first := if total <? L2_DMA_CHUNK then total else L2_DMA_CHUNK in
  (∃ rc, fst (spin_acc (read_rounds total) (read_phase addr total) (0, first, 0) s) = inr rc) ∧
  (∃ rc, fst (spin_acc (WAIT_LIMIT + 1) write_phase (0, 0) s) = inr rc) ∧
  (∃ r, fst (spin_acc WAIT_LIMIT status_wait (0, seen) s) = inr r).
Proof.
  intros Hn total first. unfold SD_BLOCKS_MAX in Hn.
  assert (total = n * 512) as Ht by (apply u32_id; unfold word_ok; lia). clearbody total. subst total. split_and!.
  - assert (0 <= first <= n * 512) as Hf by (unfold first, L2_DMA_CHUNK; case_match; lia).
    apply (spin_acc_ends (phase_ok (n * 512)) (phase_left (n * 512))).
    + unfold phase_ok, DMA_WAIT_LIMIT. lia.
    + unfold phase_left, read_rounds. assert (chunks_left (n * 512) first <= n * 512 / L2_DMA_CHUNK + 1) as Hc.
      { unfold chunks_left, L2_DMA_CHUNK. rewrite <-Z.div_add by lia. apply Z.div_le_mono; lia. }
      unfold DMA_WAIT_LIMIT in *. lia.
    + intros [[i sent] sn] [H1 H2]. unfold phase_left. pose proof (chunks_left_nonneg (n * 512) sent).
      unfold DMA_WAIT_LIMIT in *. lia.
    + intros v s1 v' Hv. by apply read_phase_step.
  - apply (spin_acc_ends (λ v, 0 <= fst v <= WAIT_LIMIT) (λ v, WAIT_LIMIT - fst v)); [unfold WAIT_LIMIT; cbn; lia..| |].
    { intros v Hv. lia. }
    intros [i sn] s1 v' Hv. unfold write_phase, mbind, M_bind. destruct (rd32 MCI_STA s1) as [sta s2]. cbn [fst mret M_ret].
    destruct (nonzero _); [done|]. destruct (_ =? _); [done|]. destruct (WAIT_LIMIT <=? i) eqn:E; [done|].
    intros [= <-]. cbn [fst] in *. lia.
  - apply (spin_acc_ends (λ v, 0 <= fst v < WAIT_LIMIT) (λ v, WAIT_LIMIT - 1 - fst v)); [unfold WAIT_LIMIT; cbn; lia..| |].
    { intros v Hv. lia. }
    intros [i sn] s1 v' Hv. unfold status_wait, mbind, M_bind. destruct (rd32 MCI_STA s1) as [sta s2]. cbn [fst mret M_ret].
    destruct (_ || _) eqn:E; [done|]. destruct (_ =? _); [done|]. intros [= <-]. cbn [fst] in *.
    apply orb_false_iff in E as [_ E]. lia.
Qed.
End ends.

(** ** What the DMA engine is told *)

(** An observer of the engine's registers: the address and the count, and the
    requests made with them. *)
Record dma_obs := DmaObs { o_addr : Z; o_count : Z; o_chunks : list (Z * Z) }.
Definition dma_step (c : dma_obs) (e : io) : dma_obs :=
  match e with
  | IoWr W32 a v =>
      if a =? L2_DMA_ADDR then DmaObs v (o_count c) (o_chunks c)
      else if a =? L2_DMA_COUNT then DmaObs (o_addr c) v (o_chunks c)
      else if (a =? L2_DMAREQ) && nonzero (v .& L2_DMA_REQ) then
        DmaObs (o_addr c) (o_count c) (o_chunks c ++ [(o_addr c, o_count c)])
      else c
  | _ => c
  end.

(** The first [k] chunks of a transfer: the address and the number of 64-byte
    operations. *)
Definition dma_chunks (addr total k : Z) : list (Z * Z) :=
  map (λ i, (addr + L2_DMA_CHUNK * i, Z.min L2_DMA_CHUNK (total - L2_DMA_CHUNK * i) / 64)) (seqZ 0 k).

Section dma.
Context {D : Type} `{!Device D}.
Abbreviation St := (sd_image (logged D)).

Lemma gwp_spin_acc {C A B} (step : C → io → C) (I : A → C → St → Prop) (P : B → C → St → Prop) n
    (body : A → M St (A + B)) a c s :
  I a c s →
  (∀ a c s, I a c s → gwp step (body a) (λ r c' s', match r with inl a' => I a' c' s' | inr b => P b c' s' end) c s) →
  gwp step (spin_acc n body a) (λ r c' s', match r with inl a' => I a' c' s' | inr b => P b c' s' end) c s.
Proof.
  intros H0 Hb. unfold gwp, spin_acc. rewrite iter_z_nat.
  assert (∀ k a1 s1 l, log_of s1 = log_of s ++ l → I a1 (replay step c l) s1 →
    match iter_nat k (λ '(a, s), match body a s with
            (inl a', s') => inl (a', s') | (inr b, s') => inr (b, s') end) (a1, s1) with
    | inl (a', s') => ∃ l, log_of s' = log_of s ++ l ∧ I a' (replay step c l) s'
    | inr (b, s') => ∃ l, log_of s' = log_of s ++ l ∧ P b (replay step c l) s'
    end) as H.
  { induction k as [|k IH]; intros a1 s1 l Hl HI; cbn [iter_nat]; [by exists l|].
    destruct (Hb _ _ _ HI) as (l1 & Hl1 & HI1). destruct (body a1 s1) as [[a2|b2] s2]; cbn in Hl1, HI1.
    - apply (IH a2 s2 (l ++ l1)); [by rewrite Hl1, Hl, app_assoc|]. unfold replay in *. by rewrite fold_left_app.
    - exists (l ++ l1). split; [by rewrite Hl1, Hl, app_assoc|]. unfold replay in *. by rewrite fold_left_app. }
  specialize (H (Z.to_nat n) a s []). rewrite app_nil_r in H. specialize (H eq_refl H0).
  destruct (iter_nat _ _ _) as [[a' s']|[b s']]; exact H.
Qed.

(** Parts that do not program the engine. *)
Definition dma_quiet (s s' : St) : Prop := ∃ l, log_of s' = log_of s ++ l ∧ ∀ c, replay dma_step c l = c.
#[local] Instance dma_quiet_preorder : PreOrder dma_quiet.
Proof.
  split; [intros s; exists []; by rewrite app_nil_r|]. intros s1 s2 s3 (l & Hl & H1) (k & Hk & H2).
  exists (l ++ k). split; [by rewrite Hk, Hl, app_assoc|]. intros c. unfold replay in *. by rewrite fold_left_app, H1, H2.
Qed.
Lemma quiet_rd w a : steps dma_quiet (rd w a : M St Z).
Proof.
  intros s. unfold rd, bus_read. destruct (in_ddr a); [exists []; rewrite app_nil_r; by destruct s|].
  unfold dev_read, log_device. destruct (dev_read w a _) as [v d] eqn:E. by exists [IoRd w a (wtrunc w v)].
Qed.
Lemma quiet_wr w a v : sd_reg a = true → steps dma_quiet (wr w a v : M St unit).
Proof.
  intros [Ha%negb_true_iff Hn%negb_true_iff]%andb_true_iff s. cbn [existsb] in Hn. rewrite !orb_false_iff in Hn.
  destruct Hn as (H1 & H2 & H3 & _). exists [IoWr w a (wtrunc w v)]. split.
  - unfold wr, bus_write. by rewrite Ha.
  - intros c. cbn. destruct w; [done|done|]. by rewrite H1, H2, H3.
Qed.
Lemma quiet_upd f : steps dma_quiet (updS f : M St unit).
Proof. intros s. exists []. by rewrite app_nil_r. Qed.

Lemma gwp_steps_quiet {A} (m : M St A) Q c s :
  steps dma_quiet m → (∀ a s', Q a c s') → gwp dma_step m Q c s.
Proof. intros Hm HQ. destruct (Hm s) as (l & Hl & Hc). exists l. split; [done|]. by rewrite Hc. Qed.

(** The bit of the request, set for a chunk and clear afterwards. *)
Lemma dma_req_set v : nonzero (u32 ((v .& not32 (L2_FRACTION .| L2_REQ_MASK)) .| L2_DMA_ENABLE .| L2_DMA_REQ) .& L2_DMA_REQ) = true.
Proof.
  unfold L2_DMA_REQ. rewrite nonzero_land_bit, testbit_u32, Z.lor_spec by done.
  change (Z.testbit (1 .<< (24 + SD_L2_BUF_ID)) (24 + SD_L2_BUF_ID)) with true. by rewrite orb_true_r.
Qed.
Lemma dma_req_clear v e : nonzero (u32 ((v .& not32 (L2_FRACTION .| L2_REQ_MASK .| L2_DMA_ENABLE)) .| (e .& L2_DMA_ENABLE)) .& L2_DMA_REQ) = false.
Proof.
  unfold L2_DMA_REQ. rewrite nonzero_land_bit, testbit_u32, Z.lor_spec, !Z.land_spec by done.
  change (Z.testbit L2_DMA_ENABLE (24 + SD_L2_BUF_ID)) with false.
  change (Z.testbit (not32 (L2_FRACTION .| L2_REQ_MASK .| L2_DMA_ENABLE)) (24 + SD_L2_BUF_ID)) with false.
  by rewrite !andb_false_r.
Qed.

Lemma gwp_chunk addr bytes Q c s :
  word_ok addr → word_ok bytes →
  (∀ s', Q tt (DmaObs addr (bytes / 64) (o_chunks c ++ [(addr, bytes / 64)])) s') →
  gwp dma_step (l2_dma_chunk addr bytes) Q c s.
Proof.
  intros Ha Hb HQ. unfold l2_dma_chunk, rmw. do 3 (gwp_step; gwp_step). gwp_step.
  cbn [wtrunc dma_step]. change (L2_DMAREQ =? L2_DMA_ADDR) with false. change (L2_DMAREQ =? L2_DMA_COUNT) with false.
  rewrite Z.eqb_refl, dma_req_set. cbn [andb]. change (L2_DMA_COUNT =? L2_DMA_ADDR) with false. rewrite !Z.eqb_refl.
  cbn [o_addr o_count o_chunks]. rewrite (u32_id addr) by done.
  rewrite (u32_id (bytes / 64)) by (unfold word_ok in *; split; [apply Z.div_pos; lia|apply Z.div_lt_upper_bound; lia]).
  apply HQ.
Qed.

Lemma dma_chunks_snoc addr total k :
  0 <= k → dma_chunks addr total (k + 1) =
    dma_chunks addr total k ++ [(addr + L2_DMA_CHUNK * k, Z.min L2_DMA_CHUNK (total - L2_DMA_CHUNK * k) / 64)].
Proof.
  intros Hk. unfold dma_chunks. by rewrite seqZ_app, map_app by lia.
Qed.
(** The bytes of the first chunks. *)
Lemma dma_chunks_bytes addr total k :
  0 <= total → total mod 64 = 0 → 0 <= k → L2_DMA_CHUNK * (k - 1) <= total →
  foldr (λ p acc, 64 * snd p + acc) 0 (dma_chunks addr total k) = Z.min (L2_DMA_CHUNK * k) total.
Proof.
  intros H0 Ht Hk. revert k Hk. refine (natlike_ind _ _ _).
  - intros _. rewrite Z.mul_0_r. change (0 = Z.min 0 total). lia.
  - intros k Hk IH Hb. unfold Z.succ in *. rewrite dma_chunks_snoc by done.
    assert (∀ (l k : list (Z * Z)), foldr (λ p acc, 64 * snd p + acc) 0 (l ++ k) =
              foldr (λ p acc, 64 * snd p + acc) 0 l + foldr (λ p acc, 64 * snd p + acc) 0 k) as Happ.
    { induction l as [|p l IHl]; intros m; cbn [foldr app]; [lia|]. rewrite IHl. lia. }
    rewrite Happ, IH by (unfold L2_DMA_CHUNK in *; lia). cbn [foldr snd]. unfold L2_DMA_CHUNK in *.
    assert (64 * (Z.min 8192 (total - 8192 * k) / 64) = Z.min 8192 (total - 8192 * k)) as ->; [|lia].
    rewrite <-Z_div_exact_full_2; [done|done|].
    destruct (Z.min_spec 8192 (total - 8192 * k)) as [[_ ->]|[_ ->]]; [done|].
    replace (total - 8192 * k) with (total + - (128 * k) * 64) by lia. by rewrite Z.mod_add.
Qed.

(** The state of a transfer: the requests are the first [k] chunks of it. *)
Definition dma_upto (c0 : dma_obs) (dst total : Z) (sent : Z) (c : dma_obs) : Prop :=
  ∃ k, 1 <= k ∧ L2_DMA_CHUNK * (k - 1) < total ∧ sent = Z.min (L2_DMA_CHUNK * k) total ∧
       o_chunks c = o_chunks c0 ++ dma_chunks dst total k.

Lemma gwp_read_phase c0 dst total v c s :
  0 <= dst → dst + total <= 4294967296 → 0 < total →
  dma_upto c0 dst total (snd (fst v)) c →
  gwp dma_step (read_phase dst total v)
    (λ r c' _, match r with
               | inl v' => dma_upto c0 dst total (snd (fst v')) c'
               | inr rc => ∃ sent, dma_upto c0 dst total sent c' ∧ (rc = 0 → sent = total) ∧ rc ≠ -1 ∧ rc ≠ SD_ENOCMD23
               end) c s.
Proof.
  intros Hd Hdt Ht Hc. destruct v as [[i sent] seen]. cbn [fst snd] in Hc. unfold read_phase.
  apply gwp_bind, gwp_steps_quiet; [apply quiet_rd|intros sta s1].
  destruct (nonzero (sta .& STA_DATA_ERROR)); [apply gwp_ret; exists sent; by split_and!|].
  apply gwp_bind, gwp_steps_quiet; [apply quiet_rd|intros req s2].
  assert (∀ seen' s', gwp dma_step (mret (if DMA_WAIT_LIMIT <=? i then inr (-22) else inl (i + 1, sent, seen')) : M St (Z * Z * Z + Z))
    (λ r c' _, match r with
               | inl v' => dma_upto c0 dst total (snd (fst v')) c'
               | inr rc => ∃ sent, dma_upto c0 dst total sent c' ∧ (rc = 0 → sent = total) ∧ rc ≠ -1 ∧ rc ≠ SD_ENOCMD23
               end) c s') as Hwait.
  { intros seen' s'. apply gwp_ret. destruct (DMA_WAIT_LIMIT <=? i); [exists sent; by split_and!|done]. }
  destruct (negb (nonzero (req .& L2_DMA_REQ))); [|apply Hwait].
  destruct Hc as (k & Hk1 & Hk2 & Hsent & Hch). destruct (sent <? total) eqn:Es.
  - set (b := if total - sent <? L2_DMA_CHUNK then total - sent else L2_DMA_CHUNK).
    assert (sent = L2_DMA_CHUNK * k ∧ b = Z.min L2_DMA_CHUNK (total - L2_DMA_CHUNK * k)) as [Hs Hb]
      by (subst b; unfold L2_DMA_CHUNK in *; destruct (total - sent <? 8192) eqn:Eb; lia).
    clearbody b. apply gwp_bind, gwp_chunk; [apply u32_range|unfold word_ok, L2_DMA_CHUNK in *; lia|intros s3].
    apply gwp_ret. cbn [fst snd]. exists (k + 1). cbn [o_chunks]. rewrite dma_chunks_snoc, <-Hb, <-Hs, Hch, app_assoc by lia.
    rewrite u32_id by (unfold word_ok; unfold L2_DMA_CHUNK in *; lia).
    split_and!; [lia|unfold L2_DMA_CHUNK in *; lia|unfold L2_DMA_CHUNK in *; lia|done].
  - destruct (nonzero (_ .& STA_DATAEND)); [|apply Hwait].
    apply gwp_bind, gwp_steps_quiet; [apply quiet_rd|intros cnt s3]. apply gwp_ret. exists sent. split_and!.
    + by exists k.
    + intros _. lia.
    + by destruct (nonzero cnt).
    + by destruct (nonzero cnt).
Qed.

(** C11: the DMA engine is told exactly the transfer.  For every card and
    controller, the requests of [sd_read_blocks] are a prefix of the chunks of at most
    8 KiB that tile the destination in ascending order; a success made all of
    them, [512 * n] bytes in total, from an aligned address; a refusal of the
    arguments or of CMD23 made none, which is why the caller may go on without a new
    [sd_init]. *)
Theorem sd_read_blocks_dma lba n dst c s :
  0 <= n → 0 <= dst → dst + 512 * n <= 4294967296 →
  gwp dma_step (sd_read_blocks lba n dst)
    (λ rc c' _, ∃ k, 0 <= k ∧ L2_DMA_CHUNK * (k - 1) < 512 * n ∧ o_chunks c' = o_chunks c ++ dma_chunks dst (512 * n) k ∧
       (rc = 0 → 0 < n <= SD_BLOCKS_MAX ∧ dst mod 64 = 0 ∧
                 foldr (λ p acc, 64 * snd p + acc) 0 (dma_chunks dst (512 * n) k) = 512 * n) ∧
       (rc = -1 ∨ rc = SD_ENOCMD23 → k = 0)) c s.
Proof.
  intros Hn Hd Hdt. unfold sd_read_blocks.
  pose proof (walk_send_resp dma_quiet quiet_rd quiet_wr) as Wresp.
  pose proof (walk_clear dma_quiet quiet_wr) as Wclear.
  pose proof (walk_stop dma_quiet quiet_rd quiet_wr) as Wstop.
  pose proof (walk_mode dma_quiet) as Wmode. pose proof (walk_arg dma_quiet) as Warg.
  pose proof (walk_wait_sta dma_quiet quiet_rd) as Wsta.
  assert (∀ a f, sd_reg a = true → steps dma_quiet (rmw W32 a f : M St unit)) as Wrmw
    by (intros; by apply (walk_rmw dma_quiet quiet_rd quiet_wr)).
  apply gwp_bind, gwp_steps_quiet; [apply quiet_rd|intros req0 s0].
  assert (∀ rc s', rc ≠ 0 → gwp dma_step (mret rc : M St Z)
    (λ rc c' _, ∃ k, 0 <= k ∧ L2_DMA_CHUNK * (k - 1) < 512 * n ∧ o_chunks c' = o_chunks c ++ dma_chunks dst (512 * n) k ∧
       (rc = 0 → 0 < n <= SD_BLOCKS_MAX ∧ dst mod 64 = 0 ∧
                 foldr (λ p acc, 64 * snd p + acc) 0 (dma_chunks dst (512 * n) k) = 512 * n) ∧
       (rc = -1 ∨ rc = SD_ENOCMD23 → k = 0)) c s') as Hnone.
  { intros rc s' Hrc. apply gwp_ret. exists 0. rewrite app_nil_r. unfold L2_DMA_CHUNK. split_and!; (done || lia). }
  destruct ((n =? 0) || (SD_BLOCKS_MAX <? n) || nonzero (dst .& 63)) eqn:Earg; [by apply Hnone|].
  rewrite !orb_false_iff in Earg. destruct Earg as [[En1 En2] Ed%nonzero_false]. rewrite (land_low _ 6 63) in Ed by done.
  change (2 ^ 6) with 64 in Ed.
  assert (0 < n <= SD_BLOCKS_MAX) as Hn' by lia. assert (0 < 512 * n <= 524288) as Htot by (unfold SD_BLOCKS_MAX in Hn'; lia).
  replace (u32 (n * 512)) with (512 * n) by (rewrite u32_id; [lia|unfold word_ok; lia]).
  apply gwp_bind, gwp_steps_quiet; [apply Wresp|intros [rc r1] s1].
  destruct ((rc <? 0) || nonzero (r1 .& R1_ERRORS)); [by apply Hnone|]. clear Hnone.
  apply gwp_bind, gwp_steps_quiet; [apply Wclear|intros _ s2].
  apply gwp_bind, gwp_steps_quiet; [by apply Wrmw|intros _ s3]. cbn zeta.
  set (first := if 512 * n <? L2_DMA_CHUNK then 512 * n else L2_DMA_CHUNK).
  assert (first = Z.min (L2_DMA_CHUNK * 1) (512 * n)) as Hfirst by (unfold first, L2_DMA_CHUNK; case_match; lia).
  apply gwp_bind, gwp_chunk; [unfold word_ok; lia|unfold word_ok, L2_DMA_CHUNK in *; lia|intros s4].
  set (c1 := DmaObs dst (first / 64) (o_chunks c ++ [(dst, first / 64)])).
  assert (dma_upto c dst (512 * n) first c1) as Hup.
  { exists 1. split_and!; [lia|unfold L2_DMA_CHUNK; lia|done|]. cbn [o_chunks c1]. f_equal. unfold dma_chunks.
    change (seqZ 0 1) with [0]. cbn [map]. rewrite Z.mul_0_r, Z.add_0_r, Z.sub_0_r. rewrite Hfirst. by rewrite Z.mul_1_r. }
  clearbody c1. clear Hfirst.
  do 3 (apply gwp_bind, gwp_steps_quiet; [by apply quiet_wr|intros _ ?]).
  apply gwp_bind, gwp_steps_quiet; [apply Wmode|intros mode ?].
  apply gwp_bind, gwp_steps_quiet; [by apply quiet_wr|intros _ ?].
  apply gwp_bind, gwp_steps_quiet; [apply Warg|intros arg ?].
  do 3 (apply gwp_bind, gwp_steps_quiet; [by apply quiet_wr|intros _ ?]).
  apply gwp_bind, gwp_steps_quiet; [apply Wsta|intros sta ?].
  apply gwp_bind.
  apply gwp_mono with (Q := λ rc c' _, ∃ sent, dma_upto c dst (512 * n) sent c' ∧ (rc = 0 → sent = 512 * n) ∧ rc ≠ -1 ∧ rc ≠ SD_ENOCMD23).
  { destruct (negb (nonzero (sta .& STA_RESPEND))); [apply gwp_ret; exists first; by split_and!|].
    apply gwp_bind, gwp_steps_quiet; [apply quiet_rd|intros r ?].
    destruct (nonzero (r .& R1_ERRORS)); [apply gwp_ret; exists first; by split_and!|].
    apply gwp_bind. eapply gwp_mono.
    - apply (gwp_spin_acc dma_step (λ v c' _, dma_upto c dst (512 * n) (snd (fst v)) c')
        (λ rc c' _, ∃ sent, dma_upto c dst (512 * n) sent c' ∧ (rc = 0 → sent = 512 * n) ∧ rc ≠ -1 ∧ rc ≠ SD_ENOCMD23));
        [exact Hup|]. intros v c2 s5 Hv. apply gwp_read_phase; [done|lia|lia|done].
    - intros [v|rc'] c2 s5 Hv; apply gwp_ret; [|exact Hv]. exists (snd (fst v)). by split_and!. }
  intros rc' c2 s5 (sent & (k & Hk1 & Hk2 & Hk3 & Hk4) & Hz & Hm1 & Hm2).
  apply gwp_bind, gwp_steps_quiet; [apply Wstop|intros _ s6].
  apply gwp_bind, gwp_steps_quiet; [apply quiet_rd|intros req s7].
  assert (∀ s' c', o_chunks c' = o_chunks c2 → gwp dma_step
    (rmw W32 L2_DMAREQ (λ v, (v .& not32 (L2_FRACTION .| L2_REQ_MASK .| L2_DMA_ENABLE)) .| (req0 .& L2_DMA_ENABLE));;
     when (nonzero rc') (_ ← send_resp 12 0 CPSM_RESPONSE false; skip);;
     mret rc')
    (λ rc c' _, ∃ k, 0 <= k ∧ L2_DMA_CHUNK * (k - 1) < 512 * n ∧ o_chunks c' = o_chunks c ++ dma_chunks dst (512 * n) k ∧
       (rc = 0 → 0 < n <= SD_BLOCKS_MAX ∧ dst mod 64 = 0 ∧
                 foldr (λ p acc, 64 * snd p + acc) 0 (dma_chunks dst (512 * n) k) = 512 * n) ∧
       (rc = -1 ∨ rc = SD_ENOCMD23 → k = 0)) c' s') as Hend.
  { intros s9 c' Hc'. unfold rmw. do 2 gwp_step. gwp_step. gwp_step.
    cbn [wtrunc dma_step]. change (L2_DMAREQ =? L2_DMA_ADDR) with false. change (L2_DMAREQ =? L2_DMA_COUNT) with false.
    rewrite Z.eqb_refl, dma_req_clear. cbn [andb].
    apply gwp_bind, gwp_steps_quiet; [|intros _ s8].
    { apply (steps_when dma_quiet), (steps_bind dma_quiet); [apply Wresp|intros ?; apply (steps_skip dma_quiet)]. }
    apply gwp_ret. exists k. split_and!; [lia|done|congruence| |intros [?|?]; done].
    intros Hrc. split_and!; [lia|lia|done|]. rewrite dma_chunks_bytes; [rewrite <-(Hz Hrc); lia|lia| |lia|lia].
    replace (512 * n) with (8 * n * 64) by lia. by rewrite Z.mod_mul. }
  apply gwp_bind. destruct (nonzero (req .& L2_DMA_REQ)); cbn [when].
  - gwp_step. apply Hend. done.
  - gwp_step. by apply Hend.
Qed.
End dma.

(** ** The pins *)

(** An observer of the bus: the value of the first access to a register if that is
    a read, and the last value written. *)
Record pin_obs := PinObs { first_read : gmap Z Z; last_written : gmap Z Z }.
Definition pin_step (c : pin_obs) (e : io) : pin_obs :=
  match e with
  | IoRd W32 a v =>
      match first_read c !! a, last_written c !! a with
      | None, None => PinObs (<[a := v]> (first_read c)) (last_written c)
      | _, _ => c
      end
  | IoWr W32 a v => PinObs (first_read c) (<[a := v]> (last_written c))
  | _ => c
  end.

Definition shared_pins : list Z := [SYSCTRL 0x0C; SYSCTRL 0x74; SYSCTRL 0x78; SYSCTRL 0xA0].

Section pins.
Context {D : Type} `{!Device D}.
Abbreviation St := (sd_image (logged D)).

Lemma gwp_rd32 {C} (step : C → io → C) a Q c (s : St) :
  in_ddr a = false →
  (∀ v m, word_ok v → Q v (step c (IoRd W32 a v)) (set_machine m s)) → gwp step (rd32 a) Q c s.
Proof.
  intros Ha HQ. unfold gwp, rd, log_of, bus_read. rewrite Ha. cbn.
  destruct (dev_read W32 a _) as [v d]. eexists. split; [done|]. cbn. apply (HQ (u32 v)). apply u32_range.
Qed.

Lemma first_read_kept l c a v : first_read c !! a = Some v → first_read (replay pin_step c l) !! a = Some v.
Proof.
  revert c. induction l as [|e l IH]; intros c H; [done|]. apply (IH (pin_step c e)).
  destruct e as [[] b w|[] b w]; try done. cbn [pin_step].
  destruct (first_read c !! b) eqn:E1; [done|]. destruct (last_written c !! b); [done|]. cbn [first_read].
  rewrite lookup_insert_ne; [done|congruence].
Qed.

Definition pins_kept (s s' : St) : Prop :=
  (∃ l, log_of s' = log_of s ++ l) ∧ g_pin_save (sd_vars s') = g_pin_save (sd_vars s).
#[local] Instance pins_kept_preorder : PreOrder pins_kept.
Proof.
  split; [intros s; split; [exists []; by rewrite app_nil_r|done]|]. intros s1 s2 s3 [[l Hl] H1] [[k Hk] H2].
  split; [|congruence]. exists (l ++ k). by rewrite Hk, Hl, app_assoc.
Qed.
Lemma pins_rd w a : steps pins_kept (rd w a : M St Z).
Proof.
  intros s. unfold rd, bus_read. destruct (in_ddr a); [split; [exists []; rewrite app_nil_r; by destruct s|by destruct s]|].
  unfold dev_read, log_device. destruct (dev_read w a _) as [v d] eqn:E. split; [by exists [IoRd w a (wtrunc w v)]|done].
Qed.
Lemma pins_wr w a v : sd_reg a = true → steps pins_kept (wr w a v : M St unit).
Proof.
  intros [Ha%negb_true_iff _]%andb_true_iff s. split; [|done]. exists [IoWr w a (wtrunc w v)].
  unfold wr, bus_write. by rewrite Ha.
Qed.
Lemma pins_upd f : (∀ u, g_pin_save (f u) = g_pin_save u) → steps pins_kept (updS f : M St unit).
Proof. intros Hf s. split; [exists []; by rewrite app_nil_r|apply Hf]. Qed.

(** The saved values are those that were read first. *)
Definition pins_saved (p : pin_save) (c : pin_obs) : Prop :=
  valid p = true ∧ Forall word_ok [sc_0c p; sc_74 p; sc_78 p; sc_a0 p] ∧
  map (λ a, first_read c !! a) shared_pins = [Some (sc_0c p); Some (sc_74 p); Some (sc_78 p); Some (sc_a0 p)].
Lemma pins_saved_kept p c l : pins_saved p c → pins_saved p (replay pin_step c l).
Proof.
  intros (Hv & Hw & Hm). split_and!; [done|done|]. injection Hm as H1 H2 H3 H4. cbn [map shared_pins].
  by rewrite (first_read_kept l c _ _ H1), (first_read_kept l c _ _ H2), (first_read_kept l c _ _ H3), (first_read_kept l c _ _ H4).
Qed.
Lemma gwp_pins {A} (m : M St A) Q c s :
  steps pins_kept m → pins_saved (g_pin_save (sd_vars s)) c →
  (∀ a c' s', pins_saved (g_pin_save (sd_vars s')) c' → Q a c' s') → gwp pin_step m Q c s.
Proof.
  intros Hm Hs HQ. destruct (Hm s) as [[l Hl] Hp]. exists l. split; [done|]. apply HQ. rewrite Hp. by apply pins_saved_kept.
Qed.

Lemma gwp_init c (s : St) :
  c = PinObs ∅ ∅ ∧ valid (g_pin_save (sd_vars s)) = false ∨ pins_saved (g_pin_save (sd_vars s)) c →
  gwp pin_step sd_init (λ _ c' s', pins_saved (g_pin_save (sd_vars s')) c') c s.
Proof.
  intros Hs. change (sd_init (D := logged D)) with
    (updS (set_sdhc false);; updS (set_bus_4bit false);; updS (set_rca_arg 0);; save_pins;; init_rest (D := logged D)).
  do 3 (apply gwp_bind, gwp_modify; [done|]). apply gwp_bind.
  apply gwp_mono with (Q := λ _ c' s', pins_saved (g_pin_save (sd_vars s')) c').
  2: { intros _ c1 s1 H1. apply gwp_pins; [|done|done].
       apply (walk_init_rest pins_kept pins_rd pins_wr). intros f Hf. by apply pins_upd. }
  unfold save_pins. apply gwp_bind, gwp_gets. cbn [sd_vars set_rca_arg set_bus_4bit set_sdhc g_pin_save sd_mach].
  destruct Hs as [[-> Hv]|Hs].
  - rewrite Hv. cbn [negb when]. do 4 (apply gwp_bind, gwp_rd32; [done|intros ? ? ?]). apply gwp_modify; [done|].
    cbn [sd_vars set_pin_save g_pin_save]. split; [done|split].
    { do 4 (apply list.Forall_cons_2; [done|]). constructor. }
    cbn [map shared_pins sc_0c sc_74 sc_78 sc_a0]. vm_compute. reflexivity.
  - pose proof (proj1 Hs) as Hv. rewrite Hv. cbn [negb when]. apply gwp_skip. exact Hs.
Qed.

(** Initializations in a row. *)
Fixpoint inits (n : nat) : M St Z :=
  match n with O => sd_init | S n' => _ ← sd_init; inits n' end.

Lemma gwp_inits n c (s : St) :
  c = PinObs ∅ ∅ ∧ valid (g_pin_save (sd_vars s)) = false ∨ pins_saved (g_pin_save (sd_vars s)) c →
  gwp pin_step (inits n) (λ _ c' s', pins_saved (g_pin_save (sd_vars s')) c') c s.
Proof.
  revert c s. induction n as [|n IH]; intros c s Hs; cbn [inits]; [by apply gwp_init|].
  apply gwp_bind. eapply gwp_mono; [by apply gwp_init|]. intros rc c1 s1 H1. apply IH. by right.
Qed.

(** Each shared pad has the value that it had. *)
Definition pads_restored (c : pin_obs) : Prop :=
  Forall (λ a, ∃ v, first_read c !! a = Some v ∧ last_written c !! a = Some v) shared_pins.
Lemma gwp_release c (s : St) :
  pins_saved (g_pin_save (sd_vars s)) c →
  gwp pin_step sd_release_pins (λ _ c' s', pads_restored c' ∧ valid (g_pin_save (sd_vars s')) = false) c s.
Proof.
  intros H0. unfold sd_release_pins.
  apply gwp_bind, gwp_pins; [by apply (walk_quiesce pins_kept pins_rd pins_wr)|done|]. clear c s H0. intros _ c1 s1 H1.
  apply gwp_bind, gwp_gets. destruct H1 as (Hval & Hw & Hm). rewrite Hval. cbn [when].
  set (p := g_pin_save (sd_vars s1)) in *. do 4 (gwp_step; gwp_step). apply gwp_modify; [done|].
  split; [|done]. unfold pads_restored. cbn [wtrunc pin_step first_read last_written].
  rewrite !list.Forall_cons in Hw. destruct Hw as (W1 & W2 & W3 & W4 & _). rewrite !u32_id by done.
  injection Hm as M1 M2 M3 M4. unfold shared_pins. rewrite !list.Forall_cons.
  split_and!; [exists (sc_0c p); split; [exact M1|]|exists (sc_74 p); split; [exact M2|]
              |exists (sc_78 p); split; [exact M3|]|exists (sc_a0 p); split; [exact M4|]|constructor].
  - rewrite 3 lookup_insert_ne by done. apply lookup_insert_eq.
  - rewrite 2 lookup_insert_ne by done. apply lookup_insert_eq.
  - rewrite lookup_insert_ne by done. apply lookup_insert_eq.
  - apply lookup_insert_eq.
Qed.

(** C12: the pads go back to the NAND controller.  After any number of
    initializations, successful or not, [sd_release_pins] leaves each of the four
    shared system registers with the value that the first [sd_init] read from it
    before it wrote any register. *)
Theorem sd_release_restores n (s : St) :
  valid (g_pin_save (sd_vars s)) = false →
  gwp pin_step (_ ← inits n; sd_release_pins)
    (λ _ c' s', Forall (λ a, ∃ v, first_read c' !! a = Some v ∧ last_written c' !! a = Some v) shared_pins ∧
                valid (g_pin_save (sd_vars s')) = false) (PinObs ∅ ∅) s.
Proof.
  intros Hv. apply gwp_bind. eapply gwp_mono; [apply gwp_inits; by left|]. intros rc c1 s1 H1. by apply gwp_release.
Qed.
End pins.

(** ** Examples *)

Section example.
#[local] Existing Instance null_device.
Definition sd_start {D} (d : D) : sd_image D := SdImage (Machine ∅ d) (SdSt false false 0 (PinSave 0 0 0 0 false)).

Theorem sd_memory_frame_witness :
  let m : M (sd_image unit) Z := sd_read_block 7 0x30000000 in
  mget (ram (sd_mach (snd (m (sd_start tt))))) 0x30000200 = mget (ram (sd_mach (sd_start tt))) 0x30000200.
Proof. refine (proj1 (sd_memory_frame 7 1 0x30000000 (sd_start tt) 0x30000200) _). lia. Defined.

Theorem sd_polls_decide_witness :
  ∃ rc, fst (spin_acc (read_rounds (u32 (20 * 512))) (read_phase 0x30000000 (u32 (20 * 512)))
               (0, if u32 (20 * 512) <? L2_DMA_CHUNK then u32 (20 * 512) else L2_DMA_CHUNK, 0) (sd_start tt)) = inr rc.
Proof. refine (proj1 (sd_polls_decide 20 0x30000000 0 (sd_start tt) _)). unfold SD_BLOCKS_MAX. lia. Defined.

Theorem sd_read_blocks_dma_witness :
  gwp dma_step (sd_read_blocks 7 20 0x30000000)
    (λ rc c' _, ∃ k, 0 <= k ∧ L2_DMA_CHUNK * (k - 1) < 512 * 20 ∧ o_chunks c' = [] ++ dma_chunks 0x30000000 (512 * 20) k ∧
       (rc = 0 → 0 < 20 <= SD_BLOCKS_MAX ∧ 0x30000000 mod 64 = 0 ∧
                 foldr (λ p acc, 64 * snd p + acc) 0 (dma_chunks 0x30000000 (512 * 20) k) = 512 * 20) ∧
       (rc = -1 ∨ rc = SD_ENOCMD23 → k = 0)) (DmaObs 0 0 []) (sd_start (Logged tt [])).
Proof. refine (sd_read_blocks_dma 7 20 0x30000000 (DmaObs 0 0 []) (sd_start (Logged tt [])) _ _ _); lia. Defined.

Theorem sd_release_restores_witness :
  gwp pin_step (_ ← inits 1; sd_release_pins)
    (λ _ c' s', Forall (λ a, ∃ v, first_read c' !! a = Some v ∧ last_written c' !! a = Some v) shared_pins ∧
                valid (g_pin_save (sd_vars s')) = false) (PinObs ∅ ∅) (sd_start (Logged tt [])).
Proof. refine (sd_release_restores 1 (sd_start (Logged tt [])) _). done. Defined.
End example.
