(* ===== verification/Ring.v ===== *)
(** * Ring: queues in an array that lose their oldest element

    The queues of the keyboard drivers are arrays of [N] words with the index of the
    oldest element and the index behind the newest one; a push to a full ring moves the
    first index as well.  Here a ring is the list of its elements. *)
From S2P Require Import Prelude.

(** The last [n] elements. *)
Definition newest {A} (n : nat) (l : list A) : list A := drop (length l - n) l.

Lemma newest_short {A} n (l : list A) : (length l <= n)%nat → newest n l = l.
Proof. intros. unfold newest. by replace (length l - n)%nat with 0%nat by lia. Qed.
Lemma newest_app {A} n (l k : list A) : newest n (newest n l ++ k) = newest n (l ++ k).
Proof.
  unfold newest. rewrite !length_app, length_drop. destruct (decide (length l <= n)%nat).
  - replace (length l - n)%nat with 0%nat by lia. rewrite drop_0. do 2 f_equal. lia.
  - rewrite <-(drop_app_le l k (length l - n)) by lia. rewrite drop_drop. f_equal. lia.
Qed.
Lemma newest_map {A B} (f : A → B) n l : map f (newest n l) = newest n (map f l).
Proof. unfold newest. rewrite length_map. by rewrite <-!fmap_drop. Qed.

Section Ring.
Context (N : Z) (HN : 1 < N).

Definition ring (q : list Z) (r n : Z) : list Z := map (λ i, znth q ((r + i) mod N)) (seqZ 0 n).
(** The elements between the two indices, the oldest first. *)
Definition contents (q : list Z) (r w : Z) : list Z := ring q r ((w - r) mod N).

Lemma ring_snoc q r n : 0 <= n → ring q r (n + 1) = ring q r n ++ [znth q ((r + n) mod N)].
Proof. intros Hn. unfold ring. rewrite seqZ_app by lia. rewrite map_app. done. Qed.
Lemma ring_cons q r n : 0 <= n → ring q r (n + 1) = znth q (r mod N) :: ring q ((r + 1) mod N) n.
Proof.
  intros Hn. unfold ring. rewrite seqZ_cons by lia. cbn [map]. rewrite Z.add_0_r. f_equal.
  replace (seqZ (Z.succ 0) (Z.pred (n + 1))) with (map (Z.add 1) (seqZ 0 n))
    by (replace (Z.pred (n + 1)) with n by lia; exact (fmap_add_seqZ 1 0 n)).
  rewrite map_map. apply map_ext. intros i. f_equal. rewrite Zplus_mod_idemp_l. f_equal. lia.
Qed.
Lemma ring_length q r n : 0 <= n → length (ring q r n) = Z.to_nat n.
Proof. intros Hn. unfold ring. by rewrite length_map, length_seqZ. Qed.

(** A sum of two indices. *)
Lemma wrap x : 0 <= x < 2 * N → x mod N = if x <? N then x else x - N.
Proof.
  intros Hx. destruct (x <? N) eqn:E; [apply Z.mod_small; lia|]. apply Z.ltb_ge in E.
  symmetry. apply (Z.mod_unique _ _ 1); lia.
Qed.
Lemma wrap_sub x : - N <= x < N → x mod N = if x <? 0 then x + N else x.
Proof.
  intros Hx. destruct (x <? 0) eqn:E; [|apply Z.mod_small; lia]. apply Z.ltb_lt in E.
  symmetry. apply (Z.mod_unique _ _ (-1)); lia.
Qed.
Ltac wraps := repeat first [rewrite wrap by lia | rewrite wrap_sub by lia]; repeat case_match; try lia.

Context (q : list Z) (r w : Z) (Hq : zlen q = N) (Hr : 0 <= r < N) (Hw : 0 <= w < N).

Lemma contents_length : length (contents q r w) = Z.to_nat ((w - r) mod N) ∧ (length (contents q r w) <= Z.to_nat (N - 1))%nat.
Proof.
  pose proof (Z.mod_pos_bound (w - r) N ltac:(lia)). unfold contents. rewrite ring_length by lia. split; [done|lia].
Qed.

(** A push adds the newest element; a full ring loses the oldest one. *)
Lemma contents_push v :
  let w' := (w + 1) mod N in
  contents (zset q w v) (if w' =? r then (r + 1) mod N else r) w' = newest (Z.to_nat (N - 1)) (contents q r w ++ [v]).
Proof.
  intros w'. set (n := (w - r) mod N).
  assert (0 <= n < N) as Hn by (apply Z.mod_pos_bound; lia).
  assert ((r + n) mod N = w) as Hw' by (unfold n; rewrite Zplus_mod_idemp_r; replace (r + (w - r)) with w by lia; apply Z.mod_small; lia).
  assert (∀ i, 0 <= i < n → (r + i) mod N ≠ w) as Hne.
  { intros i Hi. rewrite wrap by lia. revert Hw'. rewrite wrap by lia. repeat case_match; lia. }
  assert (ring (zset q w v) r (n + 1) = contents q r w ++ [v]) as Hring.
  { rewrite ring_snoc, Hw', znth_zset_eq by lia. unfold contents. fold n. f_equal. unfold ring. apply map_ext_in.
    intros i Hi%list_elem_of_In%elem_of_seqZ. apply znth_zset_ne; [lia|apply Z.mod_pos_bound; lia|intros Heq; by apply (Hne i); [lia|]]. }
  rewrite <-Hring. unfold contents. destruct (w' =? r) eqn:E.
  - apply Z.eqb_eq in E. assert (n = N - 1) as Hnn by (revert Hw' E; unfold w'; rewrite !wrap by lia; repeat case_match; lia).
    assert (((w' - (r + 1) mod N) mod N) = N - 1) as -> by (rewrite E, (wrap (r + 1)) by lia; case_match; rewrite wrap_sub by lia; case_match; lia).
    rewrite Hnn, ring_cons by lia. unfold newest. cbn [length]. rewrite ring_length by lia.
    by replace (S (Z.to_nat (N - 1)) - Z.to_nat (N - 1))%nat with 1%nat by lia.
  - apply Z.eqb_neq in E. assert ((w' - r) mod N = n + 1 ∧ n + 1 < N) as [-> Hlt].
    { revert E. unfold w', n. rewrite (wrap (w + 1)), (wrap_sub (w - r)) by lia. repeat case_match; rewrite wrap_sub by lia; case_match; lia. }
    rewrite newest_short; [done|]. rewrite ring_length by lia. lia.
Qed.

(** A pop takes the oldest element. *)
Lemma contents_pop : r ≠ w → contents q r w = znth q r :: contents q ((r + 1) mod N) w.
Proof.
  intros Hne. unfold contents.
  assert ((w - r) mod N = (w - (r + 1) mod N) mod N + 1) as ->.
  { rewrite (wrap (r + 1)), (wrap_sub (w - r)) by lia. repeat case_match; rewrite wrap_sub by lia; case_match; lia. }
  rewrite ring_cons by (apply Z.mod_pos_bound; lia). by rewrite (Z.mod_small r) by lia.
Qed.
Lemma contents_empty : r = w → contents q r w = [].
Proof. intros ->. unfold contents. rewrite Z.sub_diag, Z.mod_0_l by lia. done. Qed.
End Ring.
