(* ===== verification/Ch374.v ===== *)
(** * Ch374: the internal keyboard ([src/baremetal/lib/ch374.c], [src/baremetal/aipc-boot/kbd.c])

    A USB keyboard behind a CH374 host bridge on SPI: SPI transactions under a
    hand-driven chip select, USB tokens, enumeration, and the reports, which
    become events in a ring.  Chip and keyboard are the machine's device.
    [short_delay] makes no access and is [skip]. *)
From S2P Require Import Prelude Machine Soc Log Timer Partial Clock Ring.

Definition SYSCTRL (off : Z) : Z := 0x08000000 + off.
Definition SPI_BASE : Z := 0x20024000.
Definition SPI_CTRL : Z := SPI_BASE + 0x00.
Definition SPI_STATUS : Z := SPI_BASE + 0x04.
Definition SPI_COUNT : Z := SPI_BASE + 0x0C.
Definition SPI_MODE_TX : Z := SPI_BASE + 0x10.
Definition SPI_MODE_RX : Z := SPI_BASE + 0x14.
Definition SPI_TXDATA : Z := SPI_BASE + 0x18.
Definition SPI_RXDATA : Z := SPI_BASE + 0x1C.
Definition SPI_CFG2 : Z := SPI_BASE + 0x20.
Definition SPI_CLK_GATE_MASK : Z := 0x00000004.
Definition SHAREPIN1_SPI_CLK : Z := 0x40000000.
Definition SHAREPIN1_SPI_DATA : Z := 0x00000006.
Definition SHAREPIN1_WLED_PWM : Z := 0x00000010.
Definition CS_GPIO_BIT : Z := 1 .<< 20.
Definition CS_SHAREPIN_MASK : Z := 1 .<< 8.
Definition CH374_OK : Z := 20.
Definition CH374_ERR_NAK : Z := 42.
Definition CH374_ERR_TIMEOUT : Z := 250.
Definition CH374_PID_IN : Z := 9.
Definition CH374_PID_SETUP : Z := 13.
Definition USB_ADDR : Z := 2.
Definition HID_IN_EP : Z := 1.
Definition MAX_REPORTS_PER_POLL : nat := 4.
Definition QUEUE_SIZE : Z := 32.
Definition RETRY_DELAY_MS : Z := 1000.
Definition CH374_USAGE_MODIFIER_BASE : Z := 0xE0.

(** The static variables. *)
Record ch374_st := Ch374St {
  s_queue : list Z; s_read_idx : Z; s_write_idx : Z; s_prev_keys : list Z; s_prev_modifiers : Z;
  s_in_toggle : Z; s_next_enumerate_ms : Z; s_initialized : bool; s_ready : bool
}.
Definition ch374_st0 : ch374_st :=
  Ch374St (replicate 32 0) 0 0 (replicate 6 0) 0 0 0 false false.

Definition set_queue (q : list Z) (k : ch374_st) : ch374_st :=
  Ch374St q (s_read_idx k) (s_write_idx k) (s_prev_keys k) (s_prev_modifiers k)
    (s_in_toggle k) (s_next_enumerate_ms k) (s_initialized k) (s_ready k).
Definition set_read_idx (v : Z) (k : ch374_st) : ch374_st :=
  Ch374St (s_queue k) v (s_write_idx k) (s_prev_keys k) (s_prev_modifiers k)
    (s_in_toggle k) (s_next_enumerate_ms k) (s_initialized k) (s_ready k).
Definition set_write_idx (v : Z) (k : ch374_st) : ch374_st :=
  Ch374St (s_queue k) (s_read_idx k) v (s_prev_keys k) (s_prev_modifiers k)
    (s_in_toggle k) (s_next_enumerate_ms k) (s_initialized k) (s_ready k).
Definition set_prev_keys (l : list Z) (k : ch374_st) : ch374_st :=
  Ch374St (s_queue k) (s_read_idx k) (s_write_idx k) l (s_prev_modifiers k)
    (s_in_toggle k) (s_next_enumerate_ms k) (s_initialized k) (s_ready k).
Definition set_prev_modifiers (v : Z) (k : ch374_st) : ch374_st :=
  Ch374St (s_queue k) (s_read_idx k) (s_write_idx k) (s_prev_keys k) v
    (s_in_toggle k) (s_next_enumerate_ms k) (s_initialized k) (s_ready k).
Definition set_in_toggle (v : Z) (k : ch374_st) : ch374_st :=
  Ch374St (s_queue k) (s_read_idx k) (s_write_idx k) (s_prev_keys k) (s_prev_modifiers k)
    v (s_next_enumerate_ms k) (s_initialized k) (s_ready k).
Definition set_next_ms (v : Z) (k : ch374_st) : ch374_st :=
  Ch374St (s_queue k) (s_read_idx k) (s_write_idx k) (s_prev_keys k) (s_prev_modifiers k)
    (s_in_toggle k) v (s_initialized k) (s_ready k).
Definition set_initialized (b : bool) (k : ch374_st) : ch374_st :=
  Ch374St (s_queue k) (s_read_idx k) (s_write_idx k) (s_prev_keys k) (s_prev_modifiers k)
    (s_in_toggle k) (s_next_enumerate_ms k) b (s_ready k).
Definition set_ready (b : bool) (k : ch374_st) : ch374_st :=
  Ch374St (s_queue k) (s_read_idx k) (s_write_idx k) (s_prev_keys k) (s_prev_modifiers k)
    (s_in_toggle k) (s_next_enumerate_ms k) (s_initialized k) b.

(** ** Reports and events *)

Definition queue_push (pressed : bool) (usage : Z) (k : ch374_st) : ch374_st :=
  if usage =? 0 then k
  else
    let k := set_queue (zset (s_queue k) (s_write_idx k) (u16 ((b2z pressed .<< 8) .| usage))) k in
    let k := set_write_idx ((s_write_idx k + 1) mod QUEUE_SIZE) k in
    if s_write_idx k =? s_read_idx k then set_read_idx ((s_read_idx k + 1) mod QUEUE_SIZE) k else k.

Definition report_contains (keys : list Z) (usage : Z) : bool := existsb (λ k, k =? usage) keys.

Definition push_modifier (modifiers bit : Z) (k : ch374_st) : ch374_st :=
  let mask := u8 (1 .<< bit) in
  let usage := u8 (CH374_USAGE_MODIFIER_BASE + bit) in
  if negb (nonzero (s_prev_modifiers k .& mask)) && nonzero (modifiers .& mask) then queue_push true usage k
  else if nonzero (s_prev_modifiers k .& mask) && negb (nonzero (modifiers .& mask)) then queue_push false usage k
  else k.

(** [if (usage != 0 && !report_contains(other, usage)) queue_push(pressed, usage)] *)
Definition push_missing (pressed : bool) (other : list Z) (usage : Z) (k : ch374_st) : ch374_st :=
  if nonzero usage && negb (report_contains other usage) then queue_push pressed usage k else k.

Definition process_report (report : list Z) (k : ch374_st) : ch374_st :=
  let modifiers := znth report 0 in
  let keys := take 6 (drop 2 report) in
  let k := fold_left (λ k bit, push_modifier modifiers bit k) [0; 1; 2; 3; 4; 5; 6; 7] k in
  let prev := s_prev_keys k in
  let k := fold_left (λ k usage, push_missing false keys usage k) prev k in
  let k := fold_left (λ k usage, push_missing true prev usage k) keys k in
  let k := set_prev_keys keys k in
  set_prev_modifiers modifiers k.

(** The oldest event: usage and whether it is a press. *)
Definition ch374_kbd_pop (k : ch374_st) : option (Z * bool) * ch374_st :=
  if s_read_idx k =? s_write_idx k then (None, k)
  else
    let packed := znth (s_queue k) (s_read_idx k) in
    (Some (u8 (packed .& 0xFF), nonzero ((packed .>> 8) .& 1)),
     set_read_idx ((s_read_idx k + 1) mod QUEUE_SIZE) k).

Definition ch374_kbd_ready (k : ch374_st) : bool := s_ready k.

(** ** The keys of the menu ([kbd.c]) *)

Definition KBD_UP : Z := 1.
Definition KBD_DOWN : Z := 2.
Definition KBD_LEFT : Z := 3.
Definition KBD_RIGHT : Z := 4.
Definition KBD_ENTER : Z := 5.
Definition KBD_ESC : Z := 6.
Definition KBD_HOME : Z := 7.
Definition KBD_END : Z := 8.

Definition usage_to_key (usage : Z) : Z :=
  match usage with
  | 0x28 => KBD_ENTER
  | 0x58 => KBD_ENTER
  | 0x2C => KBD_ENTER
  | 0x29 => KBD_ESC
  | 0x4A => KBD_HOME
  | 0x4D => KBD_END
  | 0x4F => KBD_RIGHT
  | 0x50 => KBD_LEFT
  | 0x51 => KBD_DOWN
  | 0x52 => KBD_UP
  | _ => 0
  end.

(** [None] if the fuel ends first; a ring has at most 31 events. *)
Fixpoint pop_loop (fuel : nat) (k : ch374_st) : option (option (Z * bool) * ch374_st) :=
  match fuel with
  | O => None
  | S fuel' =>
      match ch374_kbd_pop k with
      | (None, k) => Some (None, k)
      | (Some (usage, pressed), k) =>
          let mapped := usage_to_key usage in
          if nonzero mapped then Some (Some (mapped, pressed), k) else pop_loop fuel' k
      end
  end.
Definition kbd_pop (k : ch374_st) : option (option (Z * bool) * ch374_st) := pop_loop 32 k.

(** ** The driver *)

Record kbd (D : Type) := Kbd { k_boot : boot D; k_st : ch374_st }.
Arguments Kbd {D} _ _.
Arguments k_boot {D} _.
Arguments k_st {D} _.

#[export] Instance kbd_machine D : HasMachine (kbd D) D.
Proof.
  refine {| machine_of s := machine_of (k_boot s); set_machine m s := Kbd (set_machine m (k_boot s)) (k_st s) |};
    intros; try destruct s as [[] ?]; done.
Defined.

Definition getK {D A} (f : ch374_st → A) : M (kbd D) A := gets (λ s, f (k_st s)).
Definition updK {D} (f : ch374_st → ch374_st) : M (kbd D) unit := modify (λ s, Kbd (k_boot s) (f (k_st s))).
(** The functions of log.c and timer.c. *)
Definition on_boot {D A} (m : M (boot D) A) : M (kbd D) A := λ s, let '(a, b) := m (k_boot s) in (a, Kbd b (k_st s)).
Definition on_bootp {D A} (m : MO (boot D) A) : MO (kbd D) A := λ s,
  match m (k_boot s) with Some (a, b) => Some (a, Kbd b (k_st s)) | None => None end.

Section Ch374.
Context {D : Type} `{!Device D} {build : LogBuild}.
Abbreviation St := (kbd D).
(** The fuel of each delay. *)
Variable fuel : nat.

Definition timer_delay (ms : Z) : MO St unit := on_bootp (delay fuel ms).
Definition say (text : string) : M St unit := on_boot (log_puts (bytes_of text ++ [10])).

Definition short_delay : M St unit := skip.

Definition wait_mask (addr mask value : Z) : M St bool :=
  r ← spin 1000000 (v ← rd32 addr; mret (if (v .& mask) =? value then Some tt else None));
  mret (match (r : option unit) with Some _ => true | None => false end).

Definition cs_set (high : bool) : M St unit :=
  reg_clear (SYSCTRL 0x74) CS_SHAREPIN_MASK;;
  reg_clear (SYSCTRL 0x8C) CS_GPIO_BIT;;
  if high then reg_or (SYSCTRL 0x90) CS_GPIO_BIT else reg_clear (SYSCTRL 0x90) CS_GPIO_BIT.

Definition cs_assert : M St unit := cs_set false;; reg_or SPI_CTRL 0x20.
Definition cs_deassert : M St unit := reg_clear SPI_CTRL 0x20;; cs_set true.

Definition spi_enable : M St unit :=
  share1 ← rd32 (SYSCTRL 0x78);
  cs_set true;;
  reg_clear (SYSCTRL 0x0C) SPI_CLK_GATE_MASK;;
  let share1 := share1 .| SHAREPIN1_SPI_CLK in
  let share1 := share1 .| SHAREPIN1_WLED_PWM in
  let share1 := share1 .& not32 SHAREPIN1_SPI_DATA in
  wr32 (SYSCTRL 0x78) share1;;
  wr32 SPI_CTRL ((0xFF .<< 8) .| 0x52);;
  wr32 SPI_CFG2 0x00FFFFFF.

(** The end of a transfer: the count is down and the controller is done. *)
Definition tx_end : M St bool :=
  done ← wait_mask SPI_COUNT 0xFFFF 0;
  if negb (done : bool) then mret false else wait_mask SPI_STATUS 0x100 0x100.

Definition spi_tx_words (count w0 w1 : Z) : M St bool :=
  reg_clear SPI_CTRL 0x01;;
  reg_or SPI_CTRL 0x02;;
  wr32 SPI_MODE_TX 0;;
  wr32 SPI_COUNT count;;
  ok ← wait_mask SPI_STATUS 0x04 0x04;
  if negb (ok : bool) then mret false
  else
    wr32 SPI_TXDATA w0;;
    if 4 <? count then
      ok ← wait_mask SPI_STATUS 0x04 0x04;
      if negb (ok : bool) then mret false
      else
        wr32 SPI_TXDATA w1;;
        tx_end
    else tx_end.

(** The first [n] bytes of a word. *)
Definition store_rx_bytes (word n : Z) : list Z := map (λ i, u8 (word .>> (i * 8))) (seqZ 0 n).

(** The bytes of [n] words behind [dst]; nothing when a word does not come. *)
Fixpoint rx_words (n : nat) (dst : list Z) : M St (option (list Z)) :=
  match n with
  | O => mret (Some dst)
  | S n' =>
      ok ← wait_mask SPI_STATUS 0x40 0x40;
      if negb (ok : bool) then mret None
      else w ← rd32 SPI_RXDATA; rx_words n' (dst ++ store_rx_bytes w 4)
  end.

(** The bytes that are received; a caller does not use those of a failure. *)
Definition spi_rx_bytes (count : Z) : M St (option (list Z)) :=
  let words := count .>> 2 in
  let rem := count .& 3 in
  reg_or SPI_CTRL 0x01;;
  reg_clear SPI_CTRL 0x02;;
  wr32 SPI_MODE_RX 0;;
  wr32 SPI_COUNT count;;
  r ← rx_words (Z.to_nat words) [];
  match (r : option (list Z)) with
  | None => mret None
  | Some dst =>
      ok ← wait_mask SPI_COUNT 0xFFFF 0;
      if negb (ok : bool) then mret None
      else if nonzero rem then w ← rd32 SPI_RXDATA; mret (Some (dst ++ store_rx_bytes w rem))
      else mret (Some dst)
  end.

Definition ch374_reg_write (reg value : Z) : M St unit :=
  cs_assert;;
  _ ← spi_tx_words 3 (reg .| (0x80 .<< 8) .| (value .<< 16)) 0;
  cs_deassert.

Definition ch374_reg_read (reg : Z) : M St Z :=
  cs_assert;;
  ok ← spi_tx_words 2 (reg .| (0xC0 .<< 8)) 0;
  value ← (if (ok : bool) then r ← spi_rx_bytes 1; mret (match (r : option (list Z)) with Some l => znth l 0 | None => 0 end)
           else mret 0);
  cs_deassert;;
  mret value.

Definition ch374_set_data8 (w0 w1 : Z) : M St unit :=
  cs_assert;;
  _ ← spi_tx_words 2 (64 .| (0x80 .<< 8)) 0;
  _ ← spi_tx_words 8 w0 w1;
  cs_deassert.

Definition ch374_read_buffer (len : Z) : M St (option (list Z)) :=
  cs_assert;;
  ok ← spi_tx_words 2 (0xC0 .| (0xC0 .<< 8)) 0;
  r ← (if (ok : bool) then spi_rx_bytes len else mret None);
  cs_deassert;;
  mret r.

Definition ch374_wait_irq : M St Z :=
  r ← spin 500 (r9 ← ch374_reg_read 9; mret (if nonzero (r9 .& 0x0F) then Some r9 else None));
  mret (default 0 r).

Definition ch374_issue_token (endpoint pid toggle : Z) : M St Z :=
  ch374_reg_write 13 (u8 ((endpoint .& 0x0F) .| (pid .<< 4)));;
  ch374_reg_write 14 (if nonzero toggle then 0xC8 else 0x08);;
  short_delay;;
  r9 ← ch374_wait_irq;
  if r9 =? 0 then mret CH374_ERR_TIMEOUT
  else if (r9 .& 1) =? 0 then ch374_reg_write 9 31;; mret CH374_ERR_TIMEOUT
  else
    ch374_reg_write 9 17;;
    r10 ← ch374_reg_read 10;
    let code := r10 .& 0x0F in
    mret (if pid =? CH374_PID_SETUP then if code =? 2 then CH374_OK else code
          else if ((r10 .& 7) =? 3) && nonzero (r10 .& 0x10) then CH374_OK
          else if (code =? 14) || (code =? 10) || nonzero (r10 .& 3) then code .| 0x20
          else CH374_ERR_NAK).

Fixpoint token_retry_loop (budget : nat) (endpoint pid toggle : Z) : MO St Z :=
  match budget with
  | O => mret CH374_ERR_NAK
  | S budget' =>
      ret ← lift (ch374_issue_token endpoint pid toggle);
      if negb (ret =? CH374_ERR_NAK) then mret ret
      else timer_delay 1;; token_retry_loop budget' endpoint pid toggle
  end.
Definition ch374_issue_token_retry (endpoint pid toggle budget : Z) : MO St Z :=
  token_retry_loop (Z.to_nat budget) endpoint pid toggle.

Definition ch374_control_status_in (setup_w0 setup_w1 : Z) : MO St Z :=
  ret ← lift (
    ch374_set_data8 setup_w0 setup_w1;;
    ch374_reg_write 11 8;;
    short_delay;;
    ch374_issue_token 0 CH374_PID_SETUP 0);
  if negb (ret =? CH374_OK) then mret ret
  else
    lift (ch374_reg_write 11 0;; short_delay);;
    ch374_issue_token_retry 0 CH374_PID_IN 1 20.

Definition ch374_stage2 : M St unit :=
  ch374_reg_write 6 192;;
  reg2 ← ch374_reg_read 2;
  ch374_reg_write 2 (u8 (reg2 .& 0x7F)).

Definition ch374_stage1 : M St unit :=
  ch374_reg_write 6 0;;
  ch374_reg_write 8 0;;
  ch374_reg_write 14 0;;
  ch374_reg_write 9 31;;
  ch374_reg_write 7 3;;
  ch374_reg_write 5 64;;
  ch374_stage2.

(** [reg_write(reg, f(reg_read(reg)))] *)
Definition chip_rmw (reg : Z) (f : Z → Z) : M St unit := v ← ch374_reg_read reg; ch374_reg_write reg (u8 (f v)).

Definition ch374_port0_reset_enable : MO St unit :=
  lift (
    ch374_reg_write 14 0;;
    ch374_reg_write 8 0;;
    chip_rmw 2 (λ reg2, (reg2 .& 0xF9) .| 0x02));;
  timer_delay 20;;
  lift (chip_rmw 2 (λ v, v .& 0xFD));;
  timer_delay 1;;
  lift (
    ch374_reg_write 9 22;;
    chip_rmw 2 (λ v, v .| 0x01);;
    chip_rmw 2 (λ v, v .| 0x04);;
    chip_rmw 6 (λ v, v .| 0x60));;
  timer_delay 20.

Definition ch374_enumerate : MO St bool :=
  lift (
    updK (set_ready false);;
    updK (set_in_toggle 0);;
    updK (set_prev_keys (replicate 6 0));;
    ch374_stage1;;
    ch374_stage2);;
  ch374_port0_reset_enable;;
  r ← lift (ch374_reg_read 2);
  if (r .& 0x08) =? 0 then lift (say "ch374: no device on port0");; mret false
  else
    ret ← ch374_control_status_in 0x00020500 0;
    if negb (ret =? CH374_OK) then lift (say "ch374: SET_ADDRESS failed");; mret false
    else
      timer_delay 2;;
      lift (ch374_reg_write 8 USB_ADDR);;
      ret ← ch374_control_status_in 0x00010900 0;
      if negb (ret =? CH374_OK) then lift (say "ch374: SET_CONFIGURATION failed");; mret false
      else
        lift (updK (set_ready true);; say "ch374: ready");;
        mret true.

(** The token's result, the report and its length. *)
Definition read_report : M St (Z * list Z * Z) :=
  toggle ← getK s_in_toggle;
  ret ← ch374_issue_token HID_IN_EP CH374_PID_IN toggle;
  if negb (ret =? CH374_OK) then mret (ret, [], 0)
  else
    len ← ch374_reg_read 11;
    let len := if 8 <? len then 8 else len in
    r ← ch374_read_buffer len;
    match (r : option (list Z)) with
    | None => mret (CH374_ERR_TIMEOUT, [], len)
    | Some bytes =>
        updK (λ k, set_in_toggle (b2z (s_in_toggle k =? 0)) k);;
        mret (CH374_OK, bytes ++ replicate (8 - length bytes) 0, len)
    end.

Definition retry_later : M St unit :=
  now ← on_boot timer_ms; updK (set_next_ms (u32 (now + RETRY_DELAY_MS))).

(** [if (!ch374_enumerate()) s_next_enumerate_ms = timer_ms() + RETRY_DELAY_MS] *)
Definition try_enumerate : MO St unit := ok ← ch374_enumerate; lift (when (negb (ok : bool)) retry_later).

Definition ch374_kbd_init : MO St unit :=
  lift (
    updK (set_queue (replicate 32 0));;
    updK (set_prev_keys (replicate 6 0));;
    updK (set_read_idx 0);;
    updK (set_write_idx 0);;
    updK (set_prev_modifiers 0);;
    updK (set_in_toggle 0);;
    spi_enable;;
    cs_deassert;;
    updK (set_initialized true));;
  try_enumerate.

(** Up to [n] reports. *)
Fixpoint report_loop (n : nat) : M St unit :=
  match n with
  | O => skip
  | S n' =>
      res ← read_report;
      let '(ret, report, len) := (res : Z * list Z * Z) in
      if (ret =? CH374_OK) && (8 <=? len) then updK (process_report report);; report_loop n'
      else when (negb (ret =? CH374_ERR_NAK)) (
        say "ch374: lost device";;
        updK (set_ready false);;
        retry_later)
  end.

Definition ch374_kbd_poll : MO St unit :=
  initialized ← lift (getK s_initialized);
  if negb (initialized : bool) then mret tt
  else
    ready ← lift (getK s_ready);
    if negb (ready : bool) then
      now ← lift (on_boot timer_ms);
      next ← lift (getK s_next_enumerate_ms);
      if next <=? now then try_enumerate else mret tt
    else lift (
      ch374_reg_write 8 USB_ADDR;;
      report_loop MAX_REPORTS_PER_POLL).
End Ch374.

(** ** The ring as a list of events *)

Abbreviation event := (Z * bool)%type.
Definition unpack (packed : Z) : event := (u8 (packed .& 0xFF), nonzero ((packed .>> 8) .& 1)).
(** The queued events, the oldest first. *)
Definition events (k : ch374_st) : list event := map unpack (contents QUEUE_SIZE (s_queue k) (s_read_idx k) (s_write_idx k)).

Definition ring_ok (k : ch374_st) : Prop :=
  zlen (s_queue k) = QUEUE_SIZE ∧ 0 <= s_read_idx k < QUEUE_SIZE ∧ 0 <= s_write_idx k < QUEUE_SIZE ∧
  zlen (s_prev_keys k) = 6 ∧ Forall byte_ok (s_prev_keys k) ∧ byte_ok (s_prev_modifiers k).

Lemma unpack_pack p u : byte_ok u → unpack (u16 ((b2z p .<< 8) .| u)) = (u, p).
Proof.
  intros Hu. unfold byte_ok in Hu. unfold unpack.
  assert ((b2z p .<< 8) .| u = b2z p * 256 + u) as -> by (apply (lor_concat (b2z p) u 8); [done|done]).
  rewrite u16_id by (destruct p; cbn; lia).
  rewrite (land_low _ 8) by done. change (2 ^ 8) with 256. rewrite Z.shiftr_div_pow2 by done. change (2 ^ 8) with 256.
  rewrite Z.add_comm, Z.mod_add, Z.div_add, Z.mod_small, Z.div_small by lia. rewrite u8_id by done. by destruct p.
Qed.

Lemma ring_ok_push p u k : ring_ok k → ring_ok (queue_push p u k).
Proof.
  intros (Hq & Hr & Hw & Hk). unfold queue_push. destruct (u =? 0); [done|]. unfold ring_ok, QUEUE_SIZE in *.
  cbn [s_write_idx s_read_idx set_write_idx set_queue].
  destruct (_ =? _); cbn [s_queue s_read_idx s_write_idx s_prev_keys s_prev_modifiers set_read_idx set_write_idx set_queue];
    (split; [unfold zlen, zset in *; rewrite length_insert; lia|]); split_and!; try tauto; zlia.
Qed.

Lemma events_length k : ring_ok k → (length (events k) <= 31)%nat.
Proof. intros (_ & Hr & Hw & _). unfold events. rewrite length_map. by apply (contents_length QUEUE_SIZE). Qed.

(** A push adds the newest event; a full ring loses the oldest one. *)
Lemma events_push p u k :
  ring_ok k → byte_ok u → u ≠ 0 → events (queue_push p u k) = newest 31 (events k ++ [(u, p)]).
Proof.
  intros (Hq & Hr & Hw & _) Hu Hnz. unfold queue_push. rewrite (proj2 (Z.eqb_neq u 0)) by done.
  cbn [s_write_idx s_read_idx set_write_idx set_queue]. set (v := u16 _). unfold events.
  rewrite <-(unpack_pack p u) by done. fold v. change [unpack v] with (map unpack [v]). rewrite <-map_app, <-newest_map.
  change 31%nat with (Z.to_nat (QUEUE_SIZE - 1)).
  rewrite <-(contents_push QUEUE_SIZE ltac:(done) (s_queue k) (s_read_idx k) (s_write_idx k) Hq Hr Hw v).
  by destruct (_ =? _).
Qed.

Lemma pop_spec k :
  ring_ok k →
  let '(r, k') := ch374_kbd_pop k in
  ring_ok k' ∧ events k = match r with Some e => e :: events k' | None => [] end ∧
  (r = None → k' = k) ∧ s_prev_keys k' = s_prev_keys k ∧ s_prev_modifiers k' = s_prev_modifiers k.
Proof.
  intros Hok. pose proof Hok as (Hq & Hr & Hw & Hk). unfold ch374_kbd_pop, events.
  destruct (s_read_idx k =? s_write_idx k) eqn:E.
  - apply Z.eqb_eq in E. by rewrite contents_empty.
  - apply Z.eqb_neq in E. rewrite (contents_pop QUEUE_SIZE) by done.
    unfold ring_ok, QUEUE_SIZE in *. cbn [s_queue s_read_idx s_write_idx s_prev_keys s_prev_modifiers set_read_idx map].
    split_and!; try tauto; try done; apply Z.mod_pos_bound; lia.
Qed.

(** ** What a report means *)

(** The changes of a report, in the order of the events. *)
Definition modifier_event (prev mods bit : Z) : option event :=
  match Z.testbit prev bit, Z.testbit mods bit with
  | false, true => Some (CH374_USAGE_MODIFIER_BASE + bit, true)
  | true, false => Some (CH374_USAGE_MODIFIER_BASE + bit, false)
  | _, _ => None
  end.
Definition bits : list Z := [0; 1; 2; 3; 4; 5; 6; 7].
(** The keys of [l] that [other] does not have. *)
Definition only_in (l other : list Z) : list Z := List.filter (λ u, nonzero u && negb (report_contains other u)) l.
Definition report_events (prev mods : Z) (prev_keys keys : list Z) : list event :=
  omap (modifier_event prev mods) bits ++
  map (λ u, (u, false)) (only_in prev_keys keys) ++
  map (λ u, (u, true)) (only_in keys prev_keys).

(** The keys that are down, by usage. *)
Definition held (mods : Z) (keys : list Z) : gset Z :=
  list_to_set (map (Z.add CH374_USAGE_MODIFIER_BASE) (List.filter (Z.testbit mods) bits)) ∪
  list_to_set (List.filter nonzero keys).
Definition held_keys (k : ch374_st) : gset Z := held (s_prev_modifiers k) (s_prev_keys k).

(** What a client that follows the events takes to be down. *)
Definition apply_event (h : gset Z) (e : event) : gset Z := if snd e then {[fst e]} ∪ h else h ∖ {[fst e]}.

Definition push_all (l : list event) (k : ch374_st) : ch374_st := fold_left (λ k e, queue_push (snd e) (fst e) k) l k.

Lemma push_prev p u k :
  s_prev_keys (queue_push p u k) = s_prev_keys k ∧ s_prev_modifiers (queue_push p u k) = s_prev_modifiers k.
Proof. unfold queue_push. destruct (u =? 0); [done|]. cbn [s_write_idx s_read_idx set_write_idx set_queue]. by destruct (_ =? _). Qed.
Lemma push_all_prev l k : s_prev_keys (push_all l k) = s_prev_keys k ∧ s_prev_modifiers (push_all l k) = s_prev_modifiers k.
Proof.
  revert k. induction l as [|[u p] l IH]; intros k; cbn [push_all fold_left fst snd]; [done|].
  destruct (IH (queue_push p u k)) as [H1 H2]. destruct (push_prev p u k) as [H3 H4]. fold (push_all l (queue_push p u k)). split; congruence.
Qed.
Lemma push_all_ok l k : ring_ok k → ring_ok (push_all l k).
Proof. revert k. induction l as [|[u p] l IH]; intros k Hk; [done|]. apply IH. by apply ring_ok_push. Qed.
Lemma push_all_events l k :
  ring_ok k → Forall (λ e, byte_ok (fst e) ∧ fst e ≠ 0) l → events (push_all l k) = newest 31 (events k ++ l).
Proof.
  intros Hk Hl. revert k Hk. induction Hl as [|[u p] l [Hu Hn] Hl IH]; intros k Hk; cbn [push_all fold_left fst snd].
  - rewrite app_nil_r, newest_short; [done|]. by apply events_length.
  - fold (push_all l (queue_push p u k)). rewrite IH by (by apply ring_ok_push). rewrite events_push by done.
    by rewrite newest_app, <-app_assoc.
Qed.

Lemma push_modifiers l mods k :
  Forall (λ b, 0 <= b < 8) l →
  fold_left (λ k bit, push_modifier mods bit k) l k = push_all (omap (modifier_event (s_prev_modifiers k) mods) l) k.
Proof.
  intros Hl. revert k. induction Hl as [|b l Hb Hl IH]; intros k; [done|]. cbn [fold_left]. rewrite IH.
  change (omap ?f (b :: l)) with (match f b with Some e => e :: omap f l | None => omap f l end).
  assert (u8 (1 .<< b) = 1 .<< b) as Hm.
  { apply u8_id. unfold byte_ok. rewrite Z.shiftl_1_l. split; [apply Z.pow_nonneg; lia|]. change 256 with (2 ^ 8). apply Z.pow_lt_mono_r; lia. }
  assert (u8 (CH374_USAGE_MODIFIER_BASE + b) = CH374_USAGE_MODIFIER_BASE + b) as Hu
    by (apply u8_id; unfold byte_ok, CH374_USAGE_MODIFIER_BASE; lia).
  unfold push_modifier, modifier_event. rewrite Hm, Hu, !nonzero_land_bit by lia.
  destruct (Z.testbit (s_prev_modifiers k) b), (Z.testbit mods b); cbn [negb andb]; try done;
    rewrite (proj2 (push_prev _ _ k)); done.
Qed.
Lemma push_missings p other l k :
  fold_left (λ k usage, push_missing p other usage k) l k = push_all (map (λ u, (u, p)) (only_in l other)) k.
Proof.
  revert k. induction l as [|u l IH]; intros k; [done|]. cbn [fold_left only_in List.filter]. fold (only_in l other). rewrite IH. unfold push_missing.
  by destruct (nonzero u && _).
Qed.
Lemma push_all_app l l' k : push_all (l ++ l') k = push_all l' (push_all l k).
Proof. apply fold_left_app. Qed.

Lemma process_report_eq report k :
  process_report report k =
  set_prev_modifiers (znth report 0) (set_prev_keys (take 6 (drop 2 report))
    (push_all (report_events (s_prev_modifiers k) (znth report 0) (s_prev_keys k) (take 6 (drop 2 report))) k)).
Proof.
  unfold process_report, report_events. cbv zeta. fold bits. rewrite push_modifiers by (repeat constructor; lia).
  rewrite !push_missings, !push_all_app. by rewrite (proj1 (push_all_prev _ k)).
Qed.

Lemma only_in_spec l other u : u ∈ only_in l other ↔ u ∈ l ∧ u ≠ 0 ∧ u ∉ other.
Proof.
  unfold only_in. rewrite list_elem_of_In, filter_In, <-list_elem_of_In, andb_true_iff, negb_true_iff. unfold report_contains.
  assert (existsb (λ k, k =? u) other = false ↔ u ∉ other) as ->.
  { rewrite <-not_true_iff_false, existsb_exists, list_elem_of_In.
    split; [intros H Hin; apply H; exists u; by rewrite Z.eqb_refl|intros H (x & Hx & ->%Z.eqb_eq); done]. }
  split; intros (H1 & H2 & H3); split_and!; try done; [by apply nonzero_true|by apply nonzero_intro].
Qed.
Lemma held_spec mods keys x :
  x ∈ held mods keys ↔ (∃ b, b ∈ bits ∧ x = CH374_USAGE_MODIFIER_BASE + b ∧ Z.testbit mods b = true) ∨ (x ∈ keys ∧ x ≠ 0).
Proof.
  unfold held. rewrite elem_of_union, !elem_of_list_to_set, list_elem_of_In, in_map_iff, list_elem_of_In, filter_In, <-list_elem_of_In.
  split.
  - intros [(b & <- & [Hb Ht]%filter_In)|[H1 H2]]; [left; exists b; rewrite list_elem_of_In; done|right; by split; [|apply nonzero_true]].
  - intros [(b & Hb & -> & Ht)|[H1 H2]]; [left; exists b; split; [done|]; rewrite filter_In, <-list_elem_of_In; done|right; by split; [|apply nonzero_intro]].
Qed.
Lemma modifier_events_spec prev mods x (p : bool) :
  (x, p) ∈ omap (modifier_event prev mods) bits ↔
  ∃ b, b ∈ bits ∧ x = CH374_USAGE_MODIFIER_BASE + b ∧ Z.testbit mods b = p ∧ Z.testbit prev b = negb p.
Proof.
  rewrite list_elem_of_omap. unfold modifier_event. split.
  - intros (b & Hb & H). exists b. split; [done|]. by destruct (Z.testbit prev b), (Z.testbit mods b); inversion H.
  - intros (b & Hb & -> & H1 & H2). exists b. split; [done|]. rewrite H1, H2. by destruct p.
Qed.

(** Usages that are not those of modifiers. *)
Definition plain_keys (keys : list Z) : Prop := Forall (λ u, byte_ok u ∧ ¬ (CH374_USAGE_MODIFIER_BASE <= u < CH374_USAGE_MODIFIER_BASE + 8)) keys.

Lemma bits_range b : b ∈ bits ↔ 0 <= b < 8.
Proof. unfold bits. rewrite !elem_of_cons, elem_of_nil. lia. Qed.

Lemma report_events_spec prev mods prev_keys keys x (p : bool) :
  plain_keys prev_keys → plain_keys keys →
  (x, p) ∈ report_events prev mods prev_keys keys ↔
  (if p then x ∉ held prev prev_keys ∧ x ∈ held mods keys else x ∈ held prev prev_keys ∧ x ∉ held mods keys).
Proof.
  intros Hp Hk. unfold report_events. rewrite !elem_of_app, modifier_events_spec, !list_elem_of_fmap.
  assert (∀ (q : bool) (l : list Z), (∃ y, (x, p) = (y, q) ∧ y ∈ l) ↔ p = q ∧ x ∈ l) as Hm by (intros q l; split; [intros (? & [= -> ->] & ?); done|intros [-> ?]; by eexists]).
  rewrite !Hm, !only_in_spec. unfold plain_keys in Hp, Hk; rewrite list.Forall_forall in Hp, Hk.
  destruct (decide (CH374_USAGE_MODIFIER_BASE <= x < CH374_USAGE_MODIFIER_BASE + 8)) as [Hx|Hx].
  - set (b := x - CH374_USAGE_MODIFIER_BASE). assert (x = CH374_USAGE_MODIFIER_BASE + b) as Hxb by (unfold b; lia).
    assert (b ∈ bits) as Hb by (apply bits_range; unfold b; lia).
    assert (x ∉ prev_keys) as N1 by (intros H; by apply Hp in H as [_ H]).
    assert (x ∉ keys) as N2 by (intros H; by apply Hk in H as [_ H]).
    assert (∀ m l, x ∉ l → x ∈ held m l ↔ Z.testbit m b = true) as Hheld.
    { intros m l Hl. rewrite held_spec. split; [|intros Ht; left; by exists b].
      intros [(b' & _ & Hb' & Ht)|[H _]]; [|done]. by replace b with b' by lia. }
    pose proof (Hheld prev prev_keys N1) as G1. pose proof (Hheld mods keys N2) as G2. split.
    + intros [(b' & _ & Hb' & H1 & H2)|[[_ [? _]]|[_ [? _]]]]; [|done|done]. replace b' with b in * by lia.
      rewrite H1 in G2. rewrite H2 in G1. destruct p; cbn [negb] in G1; rewrite G1, G2; naive_solver.
    + intros H. left. exists b. split_and!; [done|done|..]; destruct p; destruct (Z.testbit prev b), (Z.testbit mods b); naive_solver.
  - assert (∀ m l, x ∈ held m l ↔ x ∈ l ∧ x ≠ 0) as Hheld.
    { intros m l. rewrite held_spec. split; [|by right]. intros [(b & Hb%bits_range & -> & _)|H]; [lia|done]. }
    pose proof (Hheld prev prev_keys) as G1. pose proof (Hheld mods keys) as G2. split.
    + intros [(b & Hb%bits_range & -> & _)|[(-> & H)|(-> & H)]]; [lia|rewrite G1, G2; tauto|rewrite G1, G2; tauto].
    + destruct p; rewrite G1, G2; intros [H1 H2]; right; [right|left]; split_and!; tauto.
Qed.

Lemma apply_events_spec l h x :
  (∀ p, (x, p) ∈ l → (x, negb p) ∉ l) →
  x ∈ fold_left apply_event l h ↔ (x, true) ∈ l ∨ (x ∈ h ∧ (x, false) ∉ l).
Proof.
  revert h. induction l as [|[y q] l IH]; intros h Hc; cbn [fold_left].
  - rewrite !elem_of_nil. tauto.
  - assert (∀ p, (x, p) ∈ l → (x, negb p) ∉ l) as Hc'.
    { intros p Hin Hn. apply (Hc p); by apply list_elem_of_further. }
    rewrite IH by done. unfold apply_event. cbn [fst snd]. rewrite !elem_of_cons.
    destruct (decide (x = y)) as [->|Hne].
    + assert ((y, negb q) ∉ l) as Hn by (intros Hin; apply (Hc q); [by left|by right]).
      destruct q; cbn [negb] in Hn; set_solver.
    + destruct q; set_solver.
Qed.

Lemma only_in_length l other : (length (only_in l other) <= length l)%nat.
Proof. apply filter_length_le. Qed.
Lemma omap_length {A B} (f : A → option B) l : (length (omap f l) <= length l)%nat.
Proof.
  induction l as [|x l IH]; [done|].
  change (omap f (x :: l)) with (match f x with Some e => e :: omap f l | None => omap f l end).
  destruct (f x); cbn [length]; lia.
Qed.
Lemma report_events_length prev mods prev_keys keys :
  (length (report_events prev mods prev_keys keys) <= 8 + length prev_keys + length keys)%nat.
Proof.
  unfold report_events. rewrite !length_app, !length_map.
  pose proof (omap_length (modifier_event prev mods) bits). pose proof (only_in_length prev_keys keys).
  pose proof (only_in_length keys prev_keys). cbn [length bits] in *. lia.
Qed.
Lemma report_events_ok prev mods prev_keys keys :
  Forall byte_ok prev_keys → Forall byte_ok keys →
  Forall (λ e, byte_ok (fst e) ∧ fst e ≠ 0) (report_events prev mods prev_keys keys).
Proof.
  intros Hp Hk. rewrite list.Forall_forall in Hp. rewrite list.Forall_forall in Hk. apply list.Forall_forall. intros [x p]. cbn [fst]. unfold report_events.
  rewrite !elem_of_app, modifier_events_spec, !list_elem_of_fmap.
  intros [(b & Hb%bits_range & -> & _)|[(y & [= -> ->] & Hy%only_in_spec)|(y & [= -> ->] & Hy%only_in_spec)]].
  - unfold byte_ok, CH374_USAGE_MODIFIER_BASE. lia.
  - split; [apply Hp|]; tauto.
  - split; [apply Hk|]; tauto.
Qed.

Lemma process_report_ok report k :
  ring_ok k → length report = 8%nat → Forall byte_ok report → ring_ok (process_report report k).
Proof.
  intros Hk Hl Hb. rewrite process_report_eq. set (evs := report_events _ _ _ _).
  destruct (push_all_ok evs k Hk) as (H1 & H2 & H3 & _). unfold ring_ok. cbn. split_and!; try tauto.
  - unfold zlen. rewrite length_take, length_drop. lia.
  - by apply Forall_take, Forall_drop.
  - by apply znth_ok.
Qed.

(** C18: the events of the keyboard tell what is held.  For a report of eight bytes, the
    queue takes exactly the changes since the last report, at most twenty: no
    key that is already down is pressed again, none that is up is released, and a
    client that follows the events holds exactly the keys and modifiers of the
    report.  The ring keeps the newest 31 events. *)
Theorem process_report_tracks report k :
  ring_ok k → length report = 8%nat → Forall byte_ok report →
  plain_keys (s_prev_keys k) → plain_keys (take 6 (drop 2 report)) →
  let k' := process_report report k in
  let evs := report_events (s_prev_modifiers k) (znth report 0) (s_prev_keys k) (take 6 (drop 2 report)) in
  events k' = newest 31 (events k ++ evs) ∧ (length evs <= 20)%nat ∧
  held_keys k' = held (znth report 0) (take 6 (drop 2 report)) ∧
  fold_left apply_event evs (held_keys k) = held_keys k' ∧
  ∀ u p, (u, p) ∈ evs → (u ∈ held_keys k ↔ p = false).
Proof.
  intros Hok Hlen Hb Hpp Hpk k' evs. pose proof Hok as (_ & _ & _ & Hl6 & Hpb & _).
  unfold k'. rewrite process_report_eq. fold evs.
  assert (∀ x p, (x, p) ∈ evs → (x, negb p) ∉ evs) as Hcons.
  { intros x p H1 H2. apply report_events_spec in H1, H2; [|done..]. destruct p; cbn [negb] in *; tauto. }
  split_and!.
  - change (events (set_prev_modifiers _ _)) with (events (push_all evs k)). apply push_all_events; [done|].
    apply report_events_ok; [done|]. by apply Forall_take, Forall_drop.
  - unfold evs. etrans; [apply report_events_length|]. unfold zlen in Hl6. rewrite length_take, length_drop. lia.
  - done.
  - change (held_keys (set_prev_modifiers _ _)) with (held (znth report 0) (take 6 (drop 2 report))).
    apply set_eq. intros x. rewrite apply_events_spec by (intros p; apply Hcons). unfold evs. rewrite !report_events_spec by done.
    fold (held_keys k). destruct (decide (x ∈ held_keys k)), (decide (x ∈ held (znth report 0) (take 6 (drop 2 report)))); tauto.
  - intros u p H. apply report_events_spec in H; [|done..]. fold (held_keys k) in H. destruct p; naive_solver.
Qed.

(** A key that is down when the keyboard is enumerated again: [ch374_enumerate]
    forgets it, and a keyboard that comes back with the key up releases nothing. *)
Lemma reconnect_releases_nothing k mods keys u :
  ¬ (CH374_USAGE_MODIFIER_BASE <= u < CH374_USAGE_MODIFIER_BASE + 8) →
  (u, false) ∉ report_events (s_prev_modifiers k) mods (s_prev_keys (set_prev_keys (replicate 6 0) k)) keys.
Proof.
  intros Hu. unfold report_events. rewrite !elem_of_app, modifier_events_spec, !list_elem_of_fmap.
  intros [(b & Hb%bits_range & -> & _)|[(y & [= ->] & Hy%only_in_spec)|(y & [=] & _)]]; [lia|].
  cbn [s_prev_keys set_prev_keys replicate] in Hy. set_solver.
Qed.

(** ** The menu's keys *)

Lemma pop_loop_spec fuel k :
  ring_ok k → (length (events k) < fuel)%nat →
  ∃ skipped r k', pop_loop fuel k = Some (r, k') ∧ ring_ok k' ∧ Forall (λ e, usage_to_key (fst e) = 0) skipped ∧
    match r with
    | None => events k = skipped ∧ events k' = []
    | Some (key, p) => ∃ u, events k = skipped ++ (u, p) :: events k' ∧ usage_to_key u = key ∧ key ≠ 0
    end.
Proof.
  revert k. induction fuel as [|fuel IH]; intros k Hk Hf; [lia|]. cbn [pop_loop].
  pose proof (pop_spec k Hk) as H. destruct (ch374_kbd_pop k) as [[[u p]|] k1]; destruct H as (H1 & H2 & H3 & _).
  - destruct (nonzero (usage_to_key u)) eqn:E.
    + exists [], (Some (usage_to_key u, p)), k1. split_and!; try done. exists u. split_and!; try done. by apply nonzero_true.
    + apply nonzero_false in E. destruct (IH k1 H1) as (sk & r & k' & H4 & H5 & H6 & H7); [rewrite H2 in Hf; cbn in Hf; lia|].
      exists ((u, p) :: sk), r, k'. split_and!; [done|done|by constructor|]. rewrite H2. destruct r as [[key q]|].
      * destruct H7 as (v & -> & Hv). by exists v.
      * destruct H7 as [-> H7]. done.
  - exists [], None, k1. split_and!; try done. by rewrite (H3 eq_refl).
Qed.

(** The menu gets its keys in order.  [kbd_pop] returns; its answer is the key of
    the oldest queued event that the menu maps, the events before it and no others are
    dropped, and without one the queue is empty. *)
Theorem kbd_pop_next k :
  ring_ok k →
  ∃ skipped r k', kbd_pop k = Some (r, k') ∧ ring_ok k' ∧ Forall (λ e, usage_to_key (fst e) = 0) skipped ∧
    match r with
    | None => events k = skipped ∧ events k' = []
    | Some (key, p) => ∃ u, events k = skipped ++ (u, p) :: events k' ∧ usage_to_key u = key ∧ key ≠ 0
    end.
Proof. intros Hk. apply pop_loop_spec; [done|]. pose proof (events_length k Hk). lia. Qed.

(** ** What a report is *)

Section received.
Context {D : Type} `{!Device D} {build : LogBuild}.
Abbreviation St := (kbd D).

Lemma store_rx_bytes_ok w n : 0 <= n → zlen (store_rx_bytes w n) = n ∧ Forall byte_ok (store_rx_bytes w n).
Proof.
  intros Hn. unfold store_rx_bytes, zlen. rewrite length_map, length_seqZ. split; [lia|].
  apply Forall_map, list.Forall_forall. intros i _. apply u8_range.
Qed.
Lemma rx_words_ok n dst (s : St) :
  Forall byte_ok dst → wp (rx_words n dst) (λ r _, ∀ l, r = Some l → zlen l = zlen dst + 4 * Z.of_nat n ∧ Forall byte_ok l) s.
Proof.
  revert dst s. induction n as [|n IH]; intros dst s Hd; cbn [rx_words].
  - apply wp_ret. intros l [= <-]. split; [lia|done].
  - apply wp_bind, wp_any. intros ok s1. destruct (negb ok); [by apply wp_ret|]. apply wp_bind, wp_any. intros w s2.
    destruct (store_rx_bytes_ok w 4) as [H1 H2]; [done|].
    eapply wp_mono; [apply IH, Forall_app_2; done|]. intros r s3 H l Hl. destruct (H l Hl) as [H3 H4].
    rewrite zlen_app, H1 in H3. split; [lia|done].
Qed.
Lemma spi_rx_bytes_ok count (s : St) :
  0 <= count → wp (spi_rx_bytes count) (λ r _, ∀ l, r = Some l → zlen l = count ∧ Forall byte_ok l) s.
Proof.
  intros Hc. unfold spi_rx_bytes. cbv zeta. do 4 (apply wp_bind, wp_any; intros ? ?). apply wp_bind.
  eapply wp_mono; [by apply rx_words_ok|]. intros [dst|] s1 H; [|by apply wp_ret].
  destruct (H dst eq_refl) as [H1 H2]. apply wp_bind, wp_any. intros ok s2. destruct (negb ok); [by apply wp_ret|].
  rewrite Z2Nat.id, Z.shiftr_div_pow2, zlen_nil in H1 by (done || by apply Z.shiftr_nonneg). change (2 ^ 2) with 4 in H1.
  change (count .& 3) with (count .& (2 ^ 2 - 1)). rewrite land_mod by done. change (2 ^ 2) with 4.
  pose proof (Z.div_mod count 4). pose proof (Z.mod_pos_bound count 4).
  destruct (nonzero (count mod 4)) eqn:E.
  - apply wp_bind, wp_any. intros w s3. apply wp_ret. intros l [= <-].
    destruct (store_rx_bytes_ok w (count mod 4)) as [Hs1 Hs2]; [lia|]. rewrite zlen_app. split; [lia|by apply Forall_app_2].
  - apply nonzero_false in E. apply wp_ret. intros l [= <-]. split; [lia|done].
Qed.
Lemma ch374_reg_read_ok reg (s : St) : wp (ch374_reg_read reg) (λ v _, byte_ok v) s.
Proof.
  unfold ch374_reg_read. do 2 (apply wp_bind, wp_any; intros ? ?). apply wp_bind.
  apply wp_mono with (Q := λ v _, byte_ok v). 2: { intros v s1 Hv. apply wp_bind, wp_any. intros _ s2. by apply wp_ret. }
  destruct a0; [|by apply wp_ret]. apply wp_bind. eapply wp_mono; [by apply spi_rx_bytes_ok|].
  intros [l|] s1 H; apply wp_ret; [|done]. by apply znth_ok, (H l eq_refl).
Qed.

(** A report that is used has eight bytes. *)
Definition report_wf (r : Z * list Z * Z) : Prop :=
  let '(ret, report, len) := r in ret = CH374_OK → 8 <= len → length report = 8%nat ∧ Forall byte_ok report.
Lemma read_report_wf (s : St) : report_wf (fst (read_report s)).
Proof.
  change (wp read_report (λ r _, report_wf r) s). unfold read_report. do 2 (apply wp_bind, wp_any; intros ? ?).
  destruct (negb (a0 =? CH374_OK)) eqn:E.
  { apply wp_ret. intros ->. by rewrite Z.eqb_refl in E. }
  apply wp_bind. eapply wp_mono; [apply ch374_reg_read_ok|]. intros len s1 Hlen. cbv zeta.
  set (n := if 8 <? len then 8 else len). assert (0 <= n <= 8) as Hn by (unfold n, byte_ok in *; case_match; lia). clearbody n.
  apply wp_bind. unfold ch374_read_buffer. apply wp_bind, wp_any. intros _ s2. apply wp_bind, wp_any. intros ok s3. apply wp_bind.
  apply wp_mono with (Q := λ r _, ∀ l, r = Some l → zlen l = n ∧ Forall byte_ok l).
  { destruct ok; [apply spi_rx_bytes_ok; lia|by apply wp_ret]. }
  intros r s4 Hr. apply wp_bind, wp_any. intros _ s5. apply wp_ret. destruct r as [l|]; [|apply wp_ret; by intros [=]].
  destruct (Hr l eq_refl) as [H1 H2]. apply wp_bind, wp_any. intros _ s6. apply wp_ret. intros _ H8.
  assert (length l = 8%nat) as Hl by (unfold zlen in H1; lia). rewrite Hl. cbn. by rewrite app_nil_r.
Qed.
End received.

(** ** Walks through the driver *)

(** The driver above the SPI transactions, for a relation that these keep. *)
Section walks.
Context {D : Type} `{!Device D} {build : LogBuild} (fuel : nat) (R : kbd D → kbd D → Prop) `{!PreOrder R}.
Abbreviation St := (kbd D).
Hypothesis R_reg_write : ∀ reg v, steps R (ch374_reg_write reg v : M St unit).
Hypothesis R_reg_read : ∀ reg, steps R (ch374_reg_read reg : M St Z).
Hypothesis R_set_data8 : ∀ w0 w1, steps R (ch374_set_data8 w0 w1 : M St unit).
Hypothesis R_read_buffer : ∀ len, steps R (ch374_read_buffer len : M St (option (list Z))).
Hypothesis R_enable : steps R (spi_enable;; cs_deassert : M St unit).
Hypothesis R_upd : ∀ f, (∀ k, ring_ok k → ring_ok (f k)) → steps R (updK f : M St unit).
Hypothesis R_say : ∀ t, steps R (say t : M St unit).
Hypothesis R_ms : steps R (on_boot timer_ms : M St Z).
Hypothesis R_delay : ∀ ms, psteps R (timer_delay fuel ms : MO St unit).

Ltac leaf :=
  lazymatch goal with
  | |- steps _ (updK _) => apply R_upd; intros [] (? & ? & ? & ? & ? & ?); unfold ring_ok in *; cbn in *;
                           split_and!; first [done|lia|by apply bytes_okb_spec]
  | |- steps _ (ch374_reg_write _ _) => apply R_reg_write
  | |- steps _ (ch374_reg_read _) => apply R_reg_read
  | |- steps _ (ch374_set_data8 _ _) => apply R_set_data8
  | |- steps _ (ch374_read_buffer _) => apply R_read_buffer
  | |- steps _ (say _) => apply R_say
  | |- steps _ (on_boot timer_ms) => apply R_ms
  | |- psteps _ (timer_delay _ _) => apply R_delay
  | |- steps _ short_delay => apply steps_skip; apply _
  | |- steps _ skip => apply steps_skip; apply _
  | |- steps _ (mret _) => apply steps_ret; apply _
  | |- steps _ (getK _) => apply steps_gets; apply _
  end.
Ltac walk tac := steps_walk ltac:(idtac; first [leaf|tac]).
Ltac pwalk tac := psteps_walk ltac:(idtac; lazymatch goal with |- steps _ _ => walk tac | |- _ => first [leaf|tac] end).

Lemma walk_token e p t : steps R (ch374_issue_token e p t : M St Z).
Proof. unfold ch374_issue_token, ch374_wait_irq. walk fail. Qed.
Lemma walk_retry n e p t : psteps R (token_retry_loop fuel n e p t : MO St Z).
Proof. induction n as [|n IH]; cbn [token_retry_loop]; pwalk ltac:(first [apply walk_token|apply IH]). Qed.
Lemma walk_control w0 w1 : psteps R (ch374_control_status_in fuel w0 w1 : MO St Z).
Proof. unfold ch374_control_status_in. pwalk ltac:(first [apply walk_token|apply walk_retry]). Qed.
Lemma walk_stage2 : steps R (ch374_stage2 : M St unit).
Proof. unfold ch374_stage2. walk fail. Qed.
Lemma walk_stage1 : steps R (ch374_stage1 : M St unit).
Proof. unfold ch374_stage1. walk ltac:(apply walk_stage2). Qed.
Lemma walk_chip_rmw reg f : steps R (chip_rmw reg f : M St unit).
Proof. unfold chip_rmw. walk fail. Qed.
Lemma walk_port0 : psteps R (ch374_port0_reset_enable fuel : MO St unit).
Proof. unfold ch374_port0_reset_enable. pwalk ltac:(apply walk_chip_rmw). Qed.
Lemma walk_enumerate : psteps R (ch374_enumerate fuel : MO St bool).
Proof.
  unfold ch374_enumerate.
  pwalk ltac:(first [apply walk_stage1|apply walk_stage2|apply walk_port0|apply walk_control]).
Qed.
Lemma walk_retry_later : steps R (retry_later : M St unit).
Proof. unfold retry_later. walk fail. Qed.
Lemma walk_try : psteps R (try_enumerate fuel : MO St unit).
Proof. unfold try_enumerate. pwalk ltac:(first [apply walk_enumerate|apply walk_retry_later]). Qed.
Lemma walk_read_report : steps R (read_report : M St (Z * list Z * Z)).
Proof. unfold read_report. walk ltac:(apply walk_token). Qed.

Hypothesis R_report : ∀ report, length report = 8%nat → Forall byte_ok report → steps R (updK (process_report report) : M St unit).
Lemma walk_reports n : steps R (report_loop n : M St unit).
Proof.
  induction n as [|n IH]; cbn [report_loop]; [apply (steps_skip R)|].
  apply (steps_bind_res R report_wf); [apply walk_read_report|apply read_report_wf|]. intros [[ret report] len] Hwf.
  destruct ((ret =? CH374_OK) && (8 <=? len)) eqn:E; [|walk ltac:(apply walk_retry_later)].
  apply andb_true_iff in E as [->%Z.eqb_eq H8%Z.leb_le]. destruct (Hwf eq_refl H8) as [Hl Hb].
  apply (steps_bind R); [by apply R_report|done].
Qed.
Lemma walk_poll : psteps R (ch374_kbd_poll fuel : MO St unit).
Proof. unfold ch374_kbd_poll. pwalk ltac:(first [apply walk_try|apply walk_reports]). Qed.
End walks.

(** ** Safety of the driver *)

Section safety.
Context {D : Type} `{!Device D} {build : LogBuild} (fuel : nat).
Abbreviation St := (kbd D).

Definition in_log (a : Z) : Prop := LOG_BASE <= a < LOG_BASE + LOG_SIZE.
(** The ring stays well-formed, and memory outside the log window as it is. *)
Definition safe (s s' : St) : Prop :=
  (ring_ok (k_st s) → ring_ok (k_st s')) ∧
  (log_ok (k_boot s) → log_ok (k_boot s') ∧
     ∀ a, ¬ in_log a → mget (ram (b_mach (k_boot s'))) a = mget (ram (b_mach (k_boot s))) a).
#[local] Instance safe_preorder : PreOrder safe.
Proof.
  split; [done|]. intros s1 s2 s3 [A1 B1] [A2 B2]. split; [tauto|]. intros H.
  destruct (B1 H) as [H1 H2], (B2 (proj1 (B1 H))) as [H3 H4]. split; [done|]. intros a Ha. by rewrite H4, H2.
Qed.

Lemma safe_frame : dev_frame safe.
Proof. intros d s. by split. Qed.
Lemma safe_upd f : (∀ k, ring_ok k → ring_ok (f k)) → steps safe (updK f : M St unit).
Proof. intros Hf s. split; [apply Hf|done]. Qed.
Lemma safe_boot s b :
  ram (b_mach b) = ram (b_mach (k_boot s)) → b_log b = b_log (k_boot s) → safe s (Kbd b (k_st s)).
Proof. intros Hr Hl. split; [done|]. cbn [k_boot]. unfold log_ok. rewrite Hl, Hr. done. Qed.
Lemma safe_say t : steps safe (say t : M St unit).
Proof.
  intros s. unfold say, on_boot. set (l := _ ++ [10]). destruct (log_puts l (k_boot s)) as [[] b] eqn:E. cbn [snd]. split; [done|].
  cbn [k_boot]. intros Hok. pose proof (log_puts_text l (k_boot s) Hok) as Ht. rewrite E in Ht. cbn [snd] in Ht.
  split; [by eapply logged_ok|]. destruct Ht as (Hr & _). intros a Ha. rewrite Hr. apply mget_mset_list_out.
  unfold in_log, log_ok, room in *. unfold zlen. rewrite length_take. lia.
Qed.
Lemma safe_ms : steps safe (on_boot timer_ms : M St Z).
Proof.
  intros s. unfold on_boot. pose proof (clock_timer_ms (k_boot s)) as (H1 & H2 & _). destruct (timer_ms (k_boot s)) as [v b].
  by apply safe_boot.
Qed.
Lemma safe_delay ms : psteps safe (timer_delay fuel ms : MO St unit).
Proof.
  intros s a s'. unfold timer_delay, on_bootp. destruct (delay fuel ms (k_boot s)) as [[[] b]|] eqn:E; [|done]. intros [= <- <-].
  apply clock_delay in E as (H1 & H2 & _). by apply safe_boot.
Qed.

Ltac reg_leaf :=
  lazymatch goal with
  | |- steps _ (rd _ _) => apply steps_rd_dev; [reflexivity|apply safe_frame]
  | |- steps _ (wr _ _ _) => apply steps_wr_dev; [reflexivity|apply safe_frame]
  | |- steps _ (reg_or _ _) => apply steps_reg_or; [apply _|reflexivity|apply safe_frame]
  | |- steps _ (reg_clear _ _) => apply steps_reg_clear; [apply _|reflexivity|apply safe_frame]
  | |- steps _ (mret _) => apply steps_ret; apply _
  end.
Ltac walk tac := steps_walk ltac:(idtac; first [reg_leaf|tac]).

Lemma safe_wait a m v : in_ddr a = false → steps safe (wait_mask a m v : M St bool).
Proof.
  intros Ha. unfold wait_mask. walk ltac:(apply steps_rd_dev; [done|apply safe_frame]).
Qed.
Lemma safe_cs_set h : steps safe (cs_set h : M St unit).
Proof. unfold cs_set. walk fail. Qed.
Lemma safe_cs : steps safe (cs_assert : M St unit) ∧ steps safe (cs_deassert : M St unit).
Proof. unfold cs_assert, cs_deassert. split; walk ltac:(apply safe_cs_set). Qed.
Lemma safe_tx n w0 w1 : steps safe (spi_tx_words n w0 w1 : M St bool).
Proof. unfold spi_tx_words, tx_end. walk ltac:(by apply safe_wait). Qed.
Lemma safe_rx n : steps safe (spi_rx_bytes n : M St (option (list Z))).
Proof.
  assert (∀ k dst, steps safe (rx_words k dst : M St (option (list Z)))) as Hw.
  { intros k. induction k as [|k IH]; intros dst; cbn [rx_words]; walk ltac:(first [by apply safe_wait|apply IH]). }
  unfold spi_rx_bytes. walk ltac:(first [by apply safe_wait|apply Hw]).
Qed.
Ltac spi_walk := walk ltac:(first [apply safe_cs|apply safe_cs_set|apply safe_tx|apply safe_rx]).

Lemma safe_reg_write r v : steps safe (ch374_reg_write r v : M St unit).
Proof. unfold ch374_reg_write. spi_walk. Qed.
Lemma safe_reg_read r : steps safe (ch374_reg_read r : M St Z).
Proof. unfold ch374_reg_read. spi_walk. Qed.
Lemma safe_set_data8 w0 w1 : steps safe (ch374_set_data8 w0 w1 : M St unit).
Proof. unfold ch374_set_data8. spi_walk. Qed.
Lemma safe_read_buffer n : steps safe (ch374_read_buffer n : M St (option (list Z))).
Proof. unfold ch374_read_buffer. spi_walk. Qed.
Lemma safe_enable : steps safe (spi_enable;; cs_deassert : M St unit).
Proof. unfold spi_enable. spi_walk. Qed.

Lemma safe_try : psteps safe (try_enumerate fuel : MO St unit).
Proof.
  apply (walk_try fuel safe safe_reg_write safe_reg_read safe_set_data8 safe_upd safe_say safe_ms safe_delay).
Qed.
Lemma kbd_safe_poll : psteps safe (ch374_kbd_poll fuel : MO St unit).
Proof.
  apply (walk_poll fuel safe safe_reg_write safe_reg_read safe_set_data8 safe_read_buffer safe_upd safe_say safe_ms safe_delay).
  intros report Hl Hb. apply safe_upd. intros k Hk. by apply process_report_ok.
Qed.

(** *** A client: polls and pops in any order *)

Inductive kbd_op := OpPoll | OpPop.
Definition kbd_do (op : kbd_op) : MO St (list event) :=
  match op with
  | OpPoll => ch374_kbd_poll fuel;; mret []
  | OpPop => lift (λ s, let '(r, k) := ch374_kbd_pop (k_st s) in (option_list r, Kbd (k_boot s) k))
  end.
(** The events that the client gets. *)
Fixpoint kbd_run (ops : list kbd_op) : MO St (list event) :=
  match ops with
  | [] => mret []
  | op :: ops' => l ← kbd_do op; l' ← kbd_run ops'; mret (l ++ l')
  end.

Definition kbd_session (ops : list kbd_op) : MO St (list event) := ch374_kbd_init fuel;; kbd_run ops.

Lemma safe_run ops : psteps safe (kbd_run ops).
Proof.
  induction ops as [|op ops IH]; cbn [kbd_run]; [apply (psteps_ret safe)|].
  apply (psteps_bind safe); [|intros l; apply (psteps_bind safe); [exact IH|intros ?; apply (psteps_ret safe)]].
  destruct op; cbn [kbd_do].
  - apply (psteps_bind safe); [apply kbd_safe_poll|intros _; apply (psteps_ret safe)].
  - apply psteps_lift. intros s. pose proof (pop_spec (k_st s)) as H. destruct (ch374_kbd_pop (k_st s)) as [r k].
    split; [|done]. intros Hk. by apply (H Hk).
Qed.

Lemma init_resets (s : St) a s' : ch374_kbd_init fuel s = Some (a, s') → log_ok (k_boot s) → ring_ok (k_st s') ∧ safe s s'.
Proof.
  unfold ch374_kbd_init. rewrite lift_bind. match goal with |- context [let '(_, _) := ?r in _] => destruct r as [u s1] eqn:E1 end.
  intros E2 Hl. apply safe_try in E2.
  assert (ring_ok (k_st s1) ∧ safe s s1) as [Hr1 Hs1].
  { revert E1. unfold mbind, M_bind, updK, modify. cbn [k_boot k_st]. set (s0 := Kbd _ _).
    assert (ring_ok (k_st s0)) as Hr0 by (unfold s0, ring_ok; cbn; split_and!; first [done|lia|by apply bytes_okb_spec]).
    assert (safe s s0) as Hs0 by (split; done). clearbody s0.
    pose proof (safe_enable s0) as He. unfold mbind, M_bind in He. destruct (spi_enable s0) as [[] s2], (cs_deassert s2) as [[] s3].
    cbn [snd] in He. intros [= <- <-].
    assert (safe s3 (Kbd (k_boot s3) (set_initialized true (k_st s3)))) as H3 by (split; done).
    split; [|by repeat (etransitivity; [eassumption|])]. apply H3, He, Hr0. }
  split; [by apply E2|by etransitivity].
Qed.

Lemma session_safe ops (s : St) l s' :
  log_ok (k_boot s) → kbd_session ops s = Some (l, s') →
  ring_ok (k_st s') ∧ log_ok (k_boot s') ∧
  (∀ a, ¬ in_log a → mget (ram (b_mach (k_boot s'))) a = mget (ram (b_mach (k_boot s))) a).
Proof.
  intros Hl. unfold kbd_session, mbind, MO_bind. destruct (ch374_kbd_init fuel s) as [[u s1]|] eqn:E1; [|done]. intros E2.
  apply init_resets in E1 as [Hr1 [_ H1]]; [|done]. apply safe_run in E2 as [Hr2 H2].
  destruct (H1 Hl) as [Hl1 Hm1], (H2 Hl1) as [Hl2 Hm2]. split_and!; [by apply Hr2|done|].
  intros a Ha. by rewrite Hm2, Hm1.
Qed.
End safety.

(** ** The driver returns *)

(** The calls that wait, on a clock that stands still between readings.  One
    unit of time is what a delay, or a reading of the timer, takes at most. *)
Section returning.
Context {D : Type} `{!Device D, !Clock D, !StillClock D} {build : LogBuild} (fuel : nat) (t0 : Z).
Abbreviation St := (kbd D).
Hypothesis enough : 252000 < Z.of_nat fuel.

Definition unit_ticks : Z := (Z.of_nat fuel + 2) * 67108864.
(** Where the millisecond counter leaves the range of the delays. *)
Definition clock_end : Z := 18446673704965373952.

(** [m] returns, within [n] units. *)
Definition returns_in {A} (n : Z) (m : MO St A) : Prop :=
  ∀ s, in_time t0 (k_boot s) → ticks t0 (k_boot s) + n * unit_ticks < clock_end →
  ∃ a s', m s = Some (a, s') ∧ in_time t0 (k_boot s') ∧ ticks t0 (k_boot s') <= ticks t0 (k_boot s) + n * unit_ticks.

Lemma unit_pos : 67108864 < unit_ticks.
Proof using enough. unfold unit_ticks. lia. Qed.
Lemma ret_mono {A} n n' (m : MO St A) : n <= n' → returns_in n m → returns_in n' m.
Proof using enough.
  intros Hn Hm s Hs Ht. pose proof unit_pos. destruct (Hm s Hs ltac:(nia)) as (a & s' & H1 & H2 & H3).
  exists a, s'. split_and!; [done|done|nia].
Qed.
Lemma ret_bind {A B} n1 n2 n (m : MO St A) (k : A → MO St B) :
  returns_in n1 m → (∀ a, returns_in n2 (k a)) → 0 <= n2 → n1 + n2 <= n → returns_in n (m ≫= k).
Proof using enough.
  intros Hm Hk H2 Hn. eapply ret_mono; [exact Hn|]. intros s Hs Ht. pose proof unit_pos.
  destruct (Hm s Hs ltac:(nia)) as (a & s1 & E1 & I1 & T1). destruct (Hk a s1 I1 ltac:(nia)) as (b & s2 & E2 & I2 & T2).
  exists b, s2. unfold mbind, MO_bind. rewrite E1. split_and!; [done|done|nia].
Qed.
Lemma ret_lift_bind {A B} n1 n2 n (m : M St A) (k : A → M St B) :
  returns_in n1 (lift m) → (∀ a, returns_in n2 (lift (k a))) → 0 <= n2 → n1 + n2 <= n → returns_in n (lift (m ≫= k)).
Proof using enough.
  intros Hm Hk H2 Hn s Hs Ht. destruct (ret_bind n1 n2 n (lift m) (λ a, lift (k a)) Hm Hk H2 Hn s Hs Ht) as (a & s' & H).
  exists a, s'. rewrite <-(proj1 H). split; [|apply H]. unfold mbind, MO_bind, M_bind, lift. by destruct (m s).
Qed.

(** What leaves the timer alone takes no time. *)
Definition no_time (s s' : St) : Prop := timeless (k_boot s) (k_boot s').
#[local] Instance no_time_preorder : PreOrder no_time.
Proof. split; [done|]. intros s1 s2 s3 [? ?] [? ?]. split; congruence. Qed.
Lemma ret_no_time {A} (m : M St A) : steps no_time m → returns_in 0 (lift m).
Proof.
  intros Hm s Hs Ht. specialize (Hm s). unfold lift. destruct (m s) as [a s1]. exists a, s1.
  destruct (timeless_in_time t0 _ _ Hm Hs) as [H1 H2]. split_and!; [done|done|]. cbn [snd] in H2. lia.
Qed.
Lemma ret_ret {A} n (a : A) : 0 <= n → returns_in n (mret a).
Proof using enough. intros Hn. apply (ret_mono 0); [done|]. change (returns_in 0 (lift (mret a : M St A))). apply ret_no_time, (steps_ret no_time). Qed.
Lemma ret_ms : returns_in 1 (lift (on_boot timer_ms)).
Proof using enough.
  intros s Hs Ht. pose proof unit_pos. unfold clock_end in Ht.
  destruct (timer_ms_clock t0 (k_boot s) Hs ltac:(lia)) as (b & E & Hb & Hk). unfold lift, on_boot. rewrite E.
  eexists _, _. split_and!; [done|done|]. cbn [k_boot]. lia.
Qed.
Lemma ret_delay ms : 0 <= ms <= 20 → returns_in 1 (timer_delay fuel ms).
Proof using enough.
  intros Hms s Hs Ht. unfold unit_ticks, clock_end in *.
  destruct (delay_returns fuel t0 ms (k_boot s) Hs ltac:(lia) ltac:(lia) ltac:(lia)) as (b & E & Hb & Hk).
  unfold timer_delay, on_bootp. rewrite E. eexists _, _. split_and!; [done|done|]. cbn [k_boot]. lia.
Qed.

(** *** The transactions *)

Lemma still_rd w a : a ≠ TIMER2_LIVE → steps no_time (rd w a : M St Z).
Proof.
  intros Ha s. unfold rd, bus_read. cbn [machine_of kbd_machine]. destruct (in_ddr a); [by destruct s as [[] ?]|].
  destruct (dev_read w a _) as [v d] eqn:E. split; [by destruct s as [[] ?]|]. cbn. by apply still_read in E.
Qed.
Lemma still_wr w a v : steps no_time (wr w a v : M St unit).
Proof. intros s. unfold wr, bus_write. destruct (in_ddr a); [done|]. split; [done|]. apply still_write. Qed.
Lemma still_upd f : steps no_time (updK f : M St unit).
Proof. by intros s. Qed.
Lemma still_say t : steps no_time (say t : M St unit).
Proof.
  intros s. unfold say, on_boot. pose proof (timeless_puts (bytes_of t ++ [10]) (k_boot s)) as H.
  destruct (log_puts _ (k_boot s)) as [[] b]. exact H.
Qed.

Ltac still_leaf :=
  lazymatch goal with
  | |- steps _ (rd _ _) => by apply still_rd
  | |- steps _ (wr _ _ _) => apply still_wr
  | |- steps _ (reg_or _ _) => unfold reg_or, rmw
  | |- steps _ (reg_clear _ _) => unfold reg_clear, rmw
  | |- steps _ (mret _) => apply steps_ret; apply _
  end.
Ltac still tac := steps_walk ltac:(idtac; first [still_leaf|tac]).

Lemma still_wait a m v : a ≠ TIMER2_LIVE → steps no_time (wait_mask a m v : M St bool).
Proof. intros Ha. unfold wait_mask. still ltac:(by apply still_rd). Qed.
Lemma still_rmw a f : a ≠ TIMER2_LIVE → steps no_time (rmw W32 a f : M St unit).
Proof. intros Ha. unfold rmw. still ltac:(by apply still_rd). Qed.
Lemma still_cs_set h : steps no_time (cs_set h : M St unit).
Proof. unfold cs_set, reg_or, reg_clear. still ltac:(by apply still_rmw). Qed.
Lemma still_cs : steps no_time (cs_assert : M St unit) ∧ steps no_time (cs_deassert : M St unit).
Proof. unfold cs_assert, cs_deassert, reg_or, reg_clear. split; still ltac:(first [apply still_cs_set|by apply still_rmw]). Qed.
Lemma still_tx n w0 w1 : steps no_time (spi_tx_words n w0 w1 : M St bool).
Proof. unfold spi_tx_words, tx_end, reg_or, reg_clear. still ltac:(first [by apply still_wait|by apply still_rmw]). Qed.
Lemma still_rx n : steps no_time (spi_rx_bytes n : M St (option (list Z))).
Proof.
  assert (∀ k dst, steps no_time (rx_words k dst : M St (option (list Z)))) as Hw.
  { intros k. induction k as [|k IH]; intros dst; cbn [rx_words]; still ltac:(first [by apply still_wait|apply IH]). }
  unfold spi_rx_bytes, reg_or, reg_clear. still ltac:(first [by apply still_wait|by apply still_rmw|apply Hw]).
Qed.
Ltac spi_still := still ltac:(first [apply still_cs|apply still_cs_set|apply still_tx|apply still_rx|by apply still_rmw]).
Lemma still_reg_write r v : steps no_time (ch374_reg_write r v : M St unit).
Proof. unfold ch374_reg_write. spi_still. Qed.
Lemma still_reg_read r : steps no_time (ch374_reg_read r : M St Z).
Proof. unfold ch374_reg_read. spi_still. Qed.
Lemma still_set_data8 w0 w1 : steps no_time (ch374_set_data8 w0 w1 : M St unit).
Proof. unfold ch374_set_data8. spi_still. Qed.
Lemma still_read_buffer n : steps no_time (ch374_read_buffer n : M St (option (list Z))).
Proof. unfold ch374_read_buffer. spi_still. Qed.
Lemma still_enable : steps no_time (spi_enable;; cs_deassert : M St unit).
Proof. unfold spi_enable, reg_or, reg_clear. spi_still. Qed.

Ltac quiet_with tac :=
  steps_walk ltac:(idtac; lazymatch goal with
    | |- steps _ (ch374_reg_write _ _) => apply still_reg_write
    | |- steps _ (ch374_reg_read _) => apply still_reg_read
    | |- steps _ (ch374_set_data8 _ _) => apply still_set_data8
    | |- steps _ (ch374_read_buffer _) => apply still_read_buffer
    | |- steps _ (say _) => apply still_say
    | |- steps _ (updK _) => apply still_upd
    | |- steps _ (getK _) => apply (steps_gets no_time)
    | |- steps _ skip => apply (steps_skip no_time)
    | |- steps _ short_delay => apply (steps_skip no_time)
    | |- steps _ (mret _) => apply (steps_ret no_time)
    | |- _ => tac end).
Ltac quiet := quiet_with fail.

Lemma still_token e p t : steps no_time (ch374_issue_token e p t : M St Z).
Proof. unfold ch374_issue_token, ch374_wait_irq. quiet. Qed.
Lemma still_stage2 : steps no_time (ch374_stage2 : M St unit).
Proof. unfold ch374_stage2. quiet. Qed.
Lemma still_stage1 : steps no_time (ch374_stage1 : M St unit).
Proof. unfold ch374_stage1. quiet_with ltac:(apply still_stage2). Qed.
Lemma still_chip_rmw r f : steps no_time (chip_rmw r f : M St unit).
Proof. unfold chip_rmw. quiet. Qed.
Lemma still_read_report : steps no_time (read_report : M St (Z * list Z * Z)).
Proof. unfold read_report. quiet_with ltac:(apply still_token). Qed.

(** *** The calls that wait *)

Lemma ret_retry n e p t : returns_in (Z.of_nat n) (token_retry_loop fuel n e p t : MO St Z).
Proof using enough StillClock0.
  induction n as [|n IH]; cbn [token_retry_loop]; [by apply ret_ret|].
  eapply (ret_bind 0 (1 + Z.of_nat n)); [apply ret_no_time, still_token|intros r|lia|lia].
  destruct (negb _); [apply ret_ret; lia|]. eapply (ret_bind 1 (Z.of_nat n)); [apply ret_delay; lia|intros _; exact IH|lia|lia].
Qed.
Lemma ret_control w0 w1 : returns_in 20 (ch374_control_status_in fuel w0 w1 : MO St Z).
Proof using enough StillClock0.
  unfold ch374_control_status_in. eapply (ret_bind 0 20); [|intros r|lia|lia].
  { apply ret_no_time. quiet_with ltac:(apply still_token). }
  destruct (negb _); [by apply ret_ret|]. eapply (ret_bind 0 20); [apply ret_no_time; quiet|intros _|lia|lia].
  unfold ch374_issue_token_retry. set (n := Z.to_nat 20). assert (Z.of_nat n = 20) as <- by done. apply ret_retry.
Qed.
Lemma ret_port0 : returns_in 3 (ch374_port0_reset_enable fuel : MO St unit).
Proof using enough StillClock0.
  unfold ch374_port0_reset_enable.
  eapply (ret_bind 0 3); [apply ret_no_time; quiet_with ltac:(apply still_chip_rmw)|intros _|lia|lia].
  eapply (ret_bind 1 2); [apply ret_delay; lia|intros _|lia|lia].
  eapply (ret_bind 0 2); [apply ret_no_time, still_chip_rmw|intros _|lia|lia].
  eapply (ret_bind 1 1); [apply ret_delay; lia|intros _|lia|lia].
  eapply (ret_bind 0 1); [apply ret_no_time; quiet_with ltac:(apply still_chip_rmw)|intros _|lia|lia].
  apply ret_delay; lia.
Qed.
(** [lift (say t);; mret b] *)
Lemma ret_say {A} n t (a : A) : 0 <= n → returns_in n (lift (say t);; mret a).
Proof using enough StillClock0.
  intros Hn. eapply (ret_bind 0 n); [apply ret_no_time, still_say|intros _; by apply ret_ret|lia|lia].
Qed.
Lemma ret_enumerate : returns_in 44 (ch374_enumerate fuel : MO St bool).
Proof using enough StillClock0.
  unfold ch374_enumerate.
  eapply (ret_bind 0 44); [apply ret_no_time; quiet_with ltac:(idtac; lazymatch goal with |- steps _ ch374_stage1 => apply still_stage1 | _ => apply still_stage2 end)|intros _|lia|lia].
  eapply (ret_bind 3 41); [apply ret_port0|intros _|lia|lia].
  eapply (ret_bind 0 41); [apply ret_no_time, still_reg_read|intros r|lia|lia].
  destruct (_ =? 0); [by apply ret_say|].
  eapply (ret_bind 20 21); [apply ret_control|intros r1|lia|lia].
  destruct (negb _); [by apply ret_say|].
  eapply (ret_bind 1 20); [apply ret_delay; lia|intros _|lia|lia].
  eapply (ret_bind 0 20); [apply ret_no_time, still_reg_write|intros _|lia|lia].
  eapply (ret_bind 20 0); [apply ret_control|intros r2|lia|lia].
  destruct (negb _); [by apply ret_say|].
  eapply (ret_bind 0 0); [apply ret_no_time; quiet|intros _; by apply ret_ret|lia|lia].
Qed.
Lemma ret_later : returns_in 1 (lift (retry_later : M St unit)).
Proof using enough.
  unfold retry_later. eapply (ret_lift_bind 1 0); [apply ret_ms|intros v; apply ret_no_time, still_upd|lia|lia].
Qed.
Lemma ret_try : returns_in 45 (try_enumerate fuel : MO St unit).
Proof using enough StillClock0.
  unfold try_enumerate. eapply (ret_bind 44 1); [apply ret_enumerate|intros b|lia|lia].
  destruct b; cbn [negb when]; [|apply ret_later].
  apply (ret_mono 0); [lia|]. apply ret_no_time, (steps_skip no_time).
Qed.
Lemma ret_reports n : returns_in 1 (lift (report_loop n : M St unit)).
Proof using enough StillClock0.
  induction n as [|n IH]; cbn [report_loop].
  { apply (ret_mono 0); [lia|]. apply ret_no_time, (steps_skip no_time). }
  eapply (ret_lift_bind 0 1); [apply ret_no_time, still_read_report|intros [[ret report] len]|lia|lia].
  destruct (_ && _).
  - eapply (ret_lift_bind 0 1); [apply ret_no_time, still_upd|intros _; exact IH|lia|lia].
  - destruct (negb _); cbn [when].
    + eapply (ret_lift_bind 0 1); [apply ret_no_time, still_say|intros _|lia|lia].
      eapply (ret_lift_bind 0 1); [apply ret_no_time, still_upd|intros _; apply ret_later|lia|lia].
    + apply (ret_mono 0); [lia|]. apply ret_no_time, (steps_skip no_time).
Qed.
Lemma ret_poll : returns_in 46 (ch374_kbd_poll fuel : MO St unit).
Proof using enough StillClock0.
  unfold ch374_kbd_poll. eapply (ret_bind 0 46); [apply ret_no_time, (steps_gets no_time)|intros i|lia|lia].
  destruct (negb i); [by apply ret_ret|].
  eapply (ret_bind 0 46); [apply ret_no_time, (steps_gets no_time)|intros r|lia|lia].
  destruct (negb r).
  - eapply (ret_bind 1 45); [apply ret_ms|intros t|lia|lia].
    eapply (ret_bind 0 45); [apply ret_no_time, (steps_gets no_time)|intros x|lia|lia].
    destruct (x <=? t); [apply ret_try|by apply ret_ret].
  - eapply (ret_lift_bind 0 46); [apply ret_no_time, still_reg_write|intros _|lia|lia].
    apply (ret_mono 1); [lia|apply ret_reports].
Qed.
Lemma ret_init : returns_in 46 (ch374_kbd_init fuel : MO St unit).
Proof using enough StillClock0.
  unfold ch374_kbd_init. eapply (ret_bind 0 46); [apply ret_no_time|intros _|lia|lia].
  - do 6 (apply (steps_bind no_time); [apply still_upd|intros _]). 
    apply (steps_bind no_time); [|intros _; apply (steps_bind no_time); [apply still_cs|intros _; apply still_upd]].
    unfold spi_enable, reg_or, reg_clear. spi_still.
  - apply (ret_mono 45); [lia|apply ret_try].
Qed.
Lemma ret_run ops : returns_in (46 * zlen ops) (kbd_run fuel ops : MO St (list event)).
Proof using enough StillClock0.
  induction ops as [|op ops IH]; cbn [kbd_run]; [by apply ret_ret|]. rewrite zlen_cons. pose proof (zlen_nonneg ops).
  eapply (ret_bind 46 (46 * zlen ops)); [|intros l|lia|lia].
  - destruct op; cbn [kbd_do].
    + eapply (ret_bind 46 0); [apply ret_poll|intros _; by apply ret_ret|lia|lia].
    + apply (ret_mono 0); [lia|]. apply ret_no_time. intros s. by destruct (ch374_kbd_pop (k_st s)).
  - eapply (ret_bind (46 * zlen ops) 0); [exact IH|intros l'; by apply ret_ret|lia|lia].
Qed.

(** C19: the keyboard driver is safe and returns for every chip.  On a running
    clock that stands still between readings of the timer, whatever else the
    bus answers, [ch374_kbd_init] and any sequence of polls and pops return,
    enumerations with their delays included, if the clock is not at the end of
    its range; then the indices of the ring and the lengths of its arrays are in
    bounds, and memory outside the log window is untouched. *)
Theorem ch374_safe ops (s : St) :
  log_ok (k_boot s) → in_time t0 (k_boot s) →
  ticks t0 (k_boot s) + 46 * (1 + zlen ops) * unit_ticks < clock_end →
  ∃ l s', kbd_session fuel ops s = Some (l, s') ∧ ring_ok (k_st s') ∧ log_ok (k_boot s') ∧
          ∀ a, ¬ in_log a → mget (ram (b_mach (k_boot s'))) a = mget (ram (b_mach (k_boot s))) a.
Proof using enough StillClock0.
  intros Hl Hs Ht. assert (returns_in (46 * (1 + zlen ops)) (kbd_session fuel ops : MO St (list event))) as Hret.
  { unfold kbd_session. pose proof (zlen_nonneg ops).
    eapply (ret_bind 46 (46 * zlen ops)); [apply ret_init|intros _; apply ret_run|lia|lia]. }
  destruct (Hret s Hs Ht) as (l & s' & E & _). exists l, s'. split; [done|]. by eapply session_safe.
Qed.
End returning.

(** ** The chip select *)

(** The pin, and whether all data moved while it was low. *)
Record spi_obs := SpiObs { cs_low : bool; spi_good : bool }.
Definition spi_step (c : spi_obs) (e : io) : spi_obs :=
  match e with
  | IoWr W32 a v =>
      if a =? SYSCTRL 0x90 then SpiObs (negb (Z.testbit v 20)) (spi_good c)
      else if a =? SPI_TXDATA then SpiObs (cs_low c) (spi_good c && cs_low c)
      else c
  | IoRd W32 a v => if a =? SPI_RXDATA then SpiObs (cs_low c) (spi_good c && cs_low c) else c
  | _ => c
  end.

Section chip_select.
Context {D : Type} `{!Device D} {build : LogBuild} (fuel : nat).

(** Runs that take the observer from [c] back to [c]. *)
Definition keeps {S} `{!HasMachine S (logged D)} (c : spi_obs) (s s' : S) : Prop :=
  ∃ l, log_of s' = log_of s ++ l ∧ replay spi_step c l = c.
#[local] Instance keeps_preorder {S} `{!HasMachine S (logged D)} c : PreOrder (keeps (S := S) c).
Proof.
  split; [intros s; exists []; by rewrite app_nil_r|]. intros s1 s2 s3 (l & Hl & H1) (k & Hk & H2). exists (l ++ k).
  unfold replay in *. rewrite fold_left_app, H1, Hk, Hl. by rewrite app_assoc.
Qed.

Section generic.
Context {S : Type} `{!HasMachine S (logged D)} (c : spi_obs).
Lemma keeps_rd w a : (a = SPI_RXDATA → spi_step c (IoRd w a 0) = c) → steps (keeps c) (rd w a : M S Z).
Proof.
  intros Ha s. unfold keeps, rd, bus_read, log_of. destruct (in_ddr a).
  { exists []. cbn. by rewrite machine_of_set, app_nil_r. }
  cbn. destruct (dev_read w a _) as [v d]. cbn. rewrite machine_of_set. cbn. eexists. split; [done|]. cbn.
  destruct w; try done. destruct (a =? SPI_RXDATA) eqn:E; [|done]. apply Z.eqb_eq in E. specialize (Ha E). cbn in Ha. by rewrite E in Ha.
Qed.
Lemma keeps_wr w a v :
  a ≠ SYSCTRL 0x90 → (a = SPI_TXDATA → spi_step c (IoWr w a 0) = c) → steps (keeps c) (wr w a v : M S unit).
Proof.
  intros Hn Ha s. unfold keeps, wr, bus_write, log_of. destruct (in_ddr a); cbn; rewrite machine_of_set; cbn.
  { exists []. by rewrite app_nil_r. }
  eexists. split; [done|]. cbn. destruct w; try done. rewrite (proj2 (Z.eqb_neq a (SYSCTRL 0x90))) by done.
  destruct (a =? SPI_TXDATA) eqn:E; [|done]. apply Z.eqb_eq in E. specialize (Ha E). cbn in Ha.
  rewrite (proj2 (Z.eqb_neq a (SYSCTRL 0x90))), (proj2 (Z.eqb_eq a SPI_TXDATA)) in Ha by done. done.
Qed.
End generic.

Abbreviation St := (kbd (logged D)).
Definition idle : spi_obs := SpiObs false true.
Definition active : spi_obs := SpiObs true true.

Lemma gwp_keeps {A} c (m : M St A) Q s : steps (keeps c) m → (∀ a s', Q a c s') → gwp spi_step m Q c s.
Proof. intros Hm HQ. destruct (Hm s) as (l & Hl & Hr). exists l. split; [done|]. rewrite Hr. apply HQ. Qed.
Lemma keeps_gwp {A} c (m : M St A) : (∀ s, gwp spi_step m (λ _ c' _, c' = c) c s) → steps (keeps c) m.
Proof. intros Hm s. destruct (Hm s) as (l & Hl & Hr). by exists l. Qed.

(** Registers other than the pin and the data. *)
Definition plain_reg (a : Z) : bool := negb (existsb (Z.eqb a) [SYSCTRL 0x90; SPI_TXDATA; SPI_RXDATA]).
Lemma plain_rd c w a : plain_reg a = true → steps (keeps c) (rd w a : M St Z).
Proof. intros H. apply keeps_rd. intros ->. discriminate H. Qed.
Lemma plain_wr c w a v : plain_reg a = true → steps (keeps c) (wr w a v : M St unit).
Proof. intros H. apply keeps_wr; [intros -> |intros ->]; discriminate H. Qed.
Lemma plain_rmw c w a f : plain_reg a = true → steps (keeps c) (rmw w a f : M St unit).
Proof. intros H. apply (steps_bind (keeps c)); [by apply plain_rd|intros ?; by apply plain_wr]. Qed.

Ltac reg_leaf :=
  lazymatch goal with
  | |- steps _ (rd _ _) => apply plain_rd; reflexivity
  | |- steps _ (wr _ _ _) => apply plain_wr; reflexivity
  | |- steps _ (reg_or _ _) => apply plain_rmw; reflexivity
  | |- steps _ (reg_clear _ _) => apply plain_rmw; reflexivity
  | |- steps _ (mret _) => apply steps_ret; apply _
  end.
Ltac walk tac := steps_walk ltac:(idtac; first [reg_leaf|tac]).

(** The pin alone. *)
Lemma cs_pin (high : bool) c s Q :
  (∀ s', Q tt (SpiObs (negb high) (spi_good c)) s') → gwp spi_step (cs_set high : M St unit) Q c s.
Proof.
  intros HQ. unfold cs_set. do 2 (apply gwp_bind, gwp_keeps; [by apply plain_rmw|intros _ ?]).
  assert (∀ v, Z.testbit (u32 (v .| CS_GPIO_BIT)) 20 = true ∧ Z.testbit (u32 (v .& not32 CS_GPIO_BIT)) 20 = false) as Hb.
  { intros v. rewrite !testbit_u32, Z.lor_spec, Z.land_spec by lia. split; [apply orb_true_r|].
    change (Z.testbit (not32 CS_GPIO_BIT) 20) with false. apply andb_false_r. }
  assert (steps (keeps c) (rd32 (SYSCTRL 0x90) : M St Z)) as Hrd by (apply keeps_rd; intros H; discriminate H).
  destruct high; apply gwp_bind, gwp_keeps; [exact Hrd| |exact Hrd|]; intros v s'';
    (apply gwp_wr; [done|]; intros m _; cbn [spi_step]; rewrite Z.eqb_refl; cbn [wtrunc];
     rewrite ?(proj1 (Hb v)), ?(proj2 (Hb v)); apply HQ).
Qed.
Lemma cs_low_from c s Q : spi_good c = true → (∀ s', Q tt active s') → gwp spi_step (cs_assert : M St unit) Q c s.
Proof.
  intros Hg HQ. unfold cs_assert. apply gwp_bind, cs_pin. intros s1. rewrite Hg. apply gwp_keeps; [by apply plain_rmw|intros []; apply HQ].
Qed.
Lemma cs_high_from c s Q : spi_good c = true → (∀ s', Q tt idle s') → gwp spi_step (cs_deassert : M St unit) Q c s.
Proof.
  intros Hg HQ. unfold cs_deassert. apply gwp_bind, gwp_keeps; [by apply plain_rmw|intros _ s1]. apply cs_pin. intros s2. by rewrite Hg.
Qed.

(** Data while the pin is low. *)
Lemma active_wait a m v : plain_reg a = true → steps (keeps active) (wait_mask a m v : M St bool).
Proof. intros Ha. unfold wait_mask. walk ltac:(by apply plain_rd). Qed.
Lemma active_data : (∀ v, steps (keeps active) (wr32 SPI_TXDATA v : M St unit)) ∧ steps (keeps active) (rd32 SPI_RXDATA : M St Z).
Proof. split; [intros v; by apply keeps_wr|by apply keeps_rd]. Qed.
Lemma active_tx n w0 w1 : steps (keeps active) (spi_tx_words n w0 w1 : M St bool).
Proof. unfold spi_tx_words, tx_end. walk ltac:(first [by apply active_wait|apply active_data]). Qed.
Lemma active_rx n : steps (keeps active) (spi_rx_bytes n : M St (option (list Z))).
Proof.
  assert (∀ k dst, steps (keeps active) (rx_words k dst : M St (option (list Z)))) as Hw.
  { intros k. induction k as [|k IH]; intros dst; cbn [rx_words]; walk ltac:(first [by apply active_wait|apply active_data|apply IH]). }
  unfold spi_rx_bytes. walk ltac:(first [by apply active_wait|apply active_data|apply Hw]).
Qed.

(** Whole transactions, from high to high. *)
Lemma idle_write r v : steps (keeps idle) (ch374_reg_write r v : M St unit).
Proof.
  apply keeps_gwp. intros s. unfold ch374_reg_write. apply gwp_bind, cs_low_from; [done|intros s1].
  apply gwp_bind, gwp_keeps; [apply active_tx|intros _ s2]. by apply cs_high_from.
Qed.
Lemma idle_read r : steps (keeps idle) (ch374_reg_read r : M St Z).
Proof.
  apply keeps_gwp. intros s. unfold ch374_reg_read. apply gwp_bind, cs_low_from; [done|intros s1].
  apply gwp_bind, gwp_keeps; [apply active_tx|intros ok s2].
  apply gwp_bind, gwp_keeps; [walk ltac:(apply active_rx)|intros v s3].
  apply gwp_bind. apply cs_high_from; [done|intros s4]. by apply gwp_ret.
Qed.
Lemma idle_data8 w0 w1 : steps (keeps idle) (ch374_set_data8 w0 w1 : M St unit).
Proof.
  apply keeps_gwp. intros s. unfold ch374_set_data8. apply gwp_bind, cs_low_from; [done|intros s1].
  do 2 (apply gwp_bind, gwp_keeps; [apply active_tx|intros ? ?]). by apply cs_high_from.
Qed.
Lemma idle_buffer n : steps (keeps idle) (ch374_read_buffer n : M St (option (list Z))).
Proof.
  apply keeps_gwp. intros s. unfold ch374_read_buffer. apply gwp_bind, cs_low_from; [done|intros s1].
  apply gwp_bind, gwp_keeps; [apply active_tx|intros ok s2].
  apply gwp_bind, gwp_keeps; [walk ltac:(apply active_rx)|intros v s3].
  apply gwp_bind. apply cs_high_from; [done|intros s4]. by apply gwp_ret.
Qed.

(** *** The rest of the driver *)

Lemma idle_upd f : steps (keeps idle) (updK f : M St unit).
Proof. intros s. exists []. by rewrite app_nil_r. Qed.
Lemma idle_enable b s Q :
  (∀ s', Q tt idle s') → gwp spi_step (spi_enable;; cs_deassert : M St unit) Q (SpiObs b true) s.
Proof.
  intros HQ. apply gwp_bind. unfold spi_enable. apply gwp_bind, gwp_keeps; [by apply plain_rd|intros v s1].
  apply gwp_bind, cs_pin. intros s2. cbn [negb spi_good]. apply gwp_bind, gwp_keeps; [by apply plain_rmw|intros _ s3]. cbv zeta.
  do 2 (apply gwp_bind, gwp_keeps; [by apply plain_wr|intros _ ?]). apply gwp_keeps; [by apply plain_wr|intros _ s4].
  by apply cs_high_from.
Qed.

Abbreviation Bt := (boot (logged D)).
(** The log and the timer are not on the SPI. *)
Lemma boot_rd w a : in_ddr a = false → plain_reg a = true → steps (keeps idle) (rd w a : M Bt Z).
Proof. intros _ Ha. apply keeps_rd. intros ->. discriminate Ha. Qed.
Lemma boot_wr w a v : plain_reg a = true → steps (keeps idle) (wr w a v : M Bt unit).
Proof. intros Ha. apply keeps_wr; [intros -> |intros ->]; discriminate Ha. Qed.
Lemma boot_puts l : steps (keeps idle) (log_puts l : M Bt unit).
Proof.
  induction l as [|c l IH]; cbn [log_puts]; [apply (steps_skip (keeps idle))|].
  apply (steps_bind (keeps idle)); [|intros _; exact IH]. unfold log_putc, uart_putc, reg_or, rmw.
  steps_walk ltac:(idtac; lazymatch goal with
    | |- steps _ (wr W8 _ _) => intros s; unfold keeps, wr, bus_write, log_of; destruct (in_ddr _); cbn;
                                 [exists []; by rewrite app_nil_r|eexists; by split]
    | |- steps _ (rd _ _) => by apply boot_rd
    | |- steps _ (wr _ _ _) => by apply boot_wr
    | |- steps _ (updL _) => intros s; exists []; by rewrite app_nil_r
    | |- steps _ (getL _) => apply steps_gets; apply _
    | |- steps _ (mret _) => apply steps_ret; apply _
    | |- steps _ skip => apply steps_skip; apply _
    end).
Qed.
Lemma boot_upd f : steps (keeps idle) (updM f : M Bt unit).
Proof. intros s. exists []. by rewrite app_nil_r. Qed.

Lemma on_boot_keeps {A} (m : M Bt A) : steps (keeps idle) m → steps (keeps idle) (on_boot m : M St A).
Proof. intros Hm s. specialize (Hm (k_boot s)). unfold on_boot. destruct (m (k_boot s)) as [a b]. exact Hm. Qed.
Lemma idle_say t : steps (keeps idle) (say t : M St unit).
Proof. apply on_boot_keeps, boot_puts. Qed.
Lemma idle_ms : steps (keeps idle) (on_boot timer_ms : M St Z).
Proof. apply on_boot_keeps, (steps_timer_ms (keeps idle)); [by apply boot_rd|exact boot_upd]. Qed.
Lemma idle_delay ms : psteps (keeps idle) (timer_delay fuel ms : MO St unit).
Proof.
  intros s a s'. unfold timer_delay, on_bootp. destruct (delay fuel ms (k_boot s)) as [[[] b]|] eqn:E; [|done]. intros [= <- <-].
  assert (psteps (keeps idle) (delay fuel ms : MO Bt unit)) as Hd by (apply (psteps_delay (keeps idle)); [by apply boot_rd|exact boot_upd]).
  by apply Hd in E.
Qed.
Lemma idle_try : psteps (keeps idle) (try_enumerate fuel : MO St unit).
Proof.
  apply (walk_try fuel (keeps idle) idle_write idle_read idle_data8); [|apply idle_say|apply idle_ms|apply idle_delay].
  intros f _. apply idle_upd.
Qed.
Lemma idle_poll : psteps (keeps idle) (ch374_kbd_poll fuel : MO St unit).
Proof.
  apply (walk_poll fuel (keeps idle) idle_write idle_read idle_data8 idle_buffer);
    [|apply idle_say|apply idle_ms|apply idle_delay|]; intros; apply idle_upd.
Qed.
Lemma idle_run ops : psteps (keeps idle) (kbd_run fuel ops : MO St (list event)).
Proof.
  induction ops as [|op ops IH]; cbn [kbd_run]; [apply (psteps_ret (keeps idle))|].
  apply (psteps_bind (keeps idle)); [|intros l; apply (psteps_bind (keeps idle)); [exact IH|intros ?; apply (psteps_ret (keeps idle))]].
  destruct op; cbn [kbd_do].
  - apply (psteps_bind (keeps idle)); [apply idle_poll|intros _; apply (psteps_ret (keeps idle))].
  - apply psteps_lift. intros s. destruct (ch374_kbd_pop (k_st s)) as [r k]. exists []. by rewrite app_nil_r.
Qed.

(** C20: the chip is selected for all data and for nothing else.  For every device,
    from any level of the chip-select pin, the initialization and every later
    sequence of polls and pops move data words over the SPI only while they hold
    the pin low, and leave the pin high, so that no transaction runs into
    another. *)
Theorem ch374_chip_select ops (s : St) r s' :
  kbd_session fuel ops s = Some (r, s') →
  ∀ b, ∃ l, log_of s' = log_of s ++ l ∧ replay spi_step (SpiObs b true) l = SpiObs false true.
Proof.
  intros H b. unfold kbd_session, mbind, MO_bind in H. destruct (ch374_kbd_init fuel s) as [[u s1]|] eqn:E1; [|done].
  destruct (idle_run ops s1 _ _ H) as (l2 & Hl2 & Hr2).
  unfold ch374_kbd_init in E1. rewrite lift_bind in E1.
  match type of E1 with context [let '(_, _) := ?m s in _] => set (setup := m : M St unit) in E1 end.
  assert (gwp spi_step setup (λ _ c' _, c' = idle) (SpiObs b true) s) as (l0 & Hl0 & Hr0).
  { unfold setup. do 6 (apply gwp_bind, gwp_modify; [done|]). 
    assert (∀ s, gwp spi_step (spi_enable;; cs_deassert;; updK (set_initialized true) : M St unit) (λ _ c' _, c' = idle) (SpiObs b true) s) as He.
    { intros s0. pose proof (idle_enable b s0 (λ _ c' _, c' = idle) ltac:(done)) as (l & Hl & Hr). exists l.
      unfold mbind, M_bind in *. destruct (spi_enable s0) as [[] s2]. destruct (cs_deassert s2) as [[] s3]. by split. }
    apply He. }
  destruct (setup s) as [u0 s0]. cbn [snd] in Hl0. destruct (idle_try s0 _ _ E1) as (l1 & Hl1 & Hr1).
  exists (l0 ++ l1 ++ l2). rewrite Hl2, Hl1, Hl0, <-!app_assoc. split; [done|].
  unfold replay in *. by rewrite !fold_left_app, Hr0, Hr1.
Qed.
End chip_select.

(** ** Examples *)

(** A chip with a keyboard that holds left shift and the usage 2 down: the time,
    the register of the last command and the last token. *)
Record chip := Chip { c_time : Z; c_reg : Z; c_pid : Z }.
Definition chip_answer (d : chip) : Z :=
  match c_reg d with
  | 2 => 8
  | 9 => 1
  | 10 => if c_pid d =? CH374_PID_SETUP then 2 else 0x13
  | 11 => 8
  | _ => 2
  end.
Definition chip_device : Device chip := {|
  dev_read w a d :=
    if a =? TIMER2_LIVE then (counter (12000 * (c_time d + 1)), Chip (c_time d + 1) (c_reg d) (c_pid d))
    else if a =? SPI_STATUS then (0x144, d)
    else if a =? SPI_RXDATA then (chip_answer d, d)
    else (0, d);
  dev_write w a v d :=
    if a =? SPI_TXDATA then
      let reg := v .& 0xFF in
      Chip (c_time d) reg (if reg =? 13 then (v .>> 20) .& 0xF else c_pid d)
    else d;
|}.

Section example.
#[local] Existing Instance chip_device.
#[local] Existing Instance aipc_boot_log.
#[local, refine] Instance chip_clock : Clock chip := {| now d := 12000 * c_time d |}.
Proof.
  intros d v d' [= <- <-]. cbn [c_time]. split; [|lia]. rewrite land_mask. unfold counter. apply Z.mod_mod. lia.
Defined.
#[local] Instance chip_still : StillClock chip.
Proof.
  split.
  - intros w a d v d' He Ha. cbn in He. rewrite (proj2 (Z.eqb_neq a TIMER2_LIVE)) in He by done.
    by repeat case_match; injection He as _ <-.
  - intros w a v d. cbn. by case_match.
Defined.
Definition kbd_start {D} (d : D) : kbd D := Kbd (Boot (Machine ∅ d) (LogSt 0 0) (TimerSt 0 0) (NandSt 0 0 0)) ch374_st0.
Definition kbd_ops : list kbd_op := [OpPoll; OpPop; OpPop; OpPop].

(** What the client gets, and whether the keyboard is ready. *)
Definition kbd_result {D} (r : option (list event * kbd D)) : option (list event * bool) :=
  match r with Some (l, s) => Some (l, s_ready (k_st s)) | None => None end.
Example example_run :
  kbd_result (kbd_session 100 kbd_ops (kbd_start (Chip 0 0 0))) = Some ([(0xE1, true); (2, true)], true).
Proof. by vm_compute. Qed.

Definition returned {A} (r : option A) : bool := match r with Some _ => true | None => false end.
Lemma example_runs {A} (r : option A) : returned r = true → ∃ a, r = Some a.
Proof. destruct r; [by eexists|done]. Qed.

Lemma example_returns : returned (kbd_session 100 kbd_ops (kbd_start (Chip 0 0 0))) = true.
Proof. by vm_compute. Qed.
Lemma example_returns_logged : returned (kbd_session 100 kbd_ops (kbd_start (Logged (Chip 0 0 0) []))) = true.
Proof. by vm_compute. Qed.

Theorem ch374_safe_witness :
  ∃ l s', kbd_session (Z.to_nat 300000) kbd_ops (kbd_start (Chip 0 0 0)) = Some (l, s') ∧ ring_ok (k_st s') ∧
          log_ok (k_boot s') ∧
          ∀ a, ¬ in_log a → mget (ram (b_mach (k_boot s'))) a = mget (ram (b_mach (k_boot (kbd_start (Chip 0 0 0))))) a.
Proof.
  refine (ch374_safe (Z.to_nat 300000) 0 _ kbd_ops (kbd_start (Chip 0 0 0)) _ _ _).
  - rewrite Z2Nat.id; lia.
  - by left.
  - by split.
  - unfold unit_ticks. rewrite Z2Nat.id by lia. vm_compute. reflexivity.
Defined.

Theorem ch374_chip_select_witness :
  ∃ r s', kbd_session 100 kbd_ops (kbd_start (Logged (Chip 0 0 0) [])) = Some (r, s') ∧
    ∃ l, log_of s' = log_of (kbd_start (Logged (Chip 0 0 0) [])) ++ l ∧ replay spi_step (SpiObs true true) l = SpiObs false true.
Proof.
  destruct (example_runs (kbd_session 100 kbd_ops (kbd_start (Logged (Chip 0 0 0) []))) example_returns_logged) as [[r s'] E]. exists r, s'.
  exact (conj E (ch374_chip_select 100 kbd_ops (kbd_start (Logged (Chip 0 0 0) [])) r s' E true)).
Defined.

(** A and left shift go down. *)
Definition example_report : list Z := [2; 0; 4; 0; 0; 0; 0; 0].

Theorem process_report_tracks_witness :
  let k' := process_report example_report ch374_st0 in
  let evs := report_events (s_prev_modifiers ch374_st0) (znth example_report 0) (s_prev_keys ch374_st0) (take 6 (drop 2 example_report)) in
  events k' = newest 31 (events ch374_st0 ++ evs) ∧ (length evs <= 20)%nat ∧
  held_keys k' = held (znth example_report 0) (take 6 (drop 2 example_report)) ∧
  fold_left apply_event evs (held_keys ch374_st0) = held_keys k' ∧
  ∀ u p, (u, p) ∈ evs → (u ∈ held_keys ch374_st0 ↔ p = false).
Proof.
  refine (process_report_tracks example_report ch374_st0 _ _ _ _ _).
  - unfold ring_ok. cbn. split_and!; first [done|lia|by apply bytes_okb_spec].
  - done.
  - by apply bytes_okb_spec.
  - unfold plain_keys, byte_ok, CH374_USAGE_MODIFIER_BASE. repeat constructor; lia.
  - unfold plain_keys, byte_ok, CH374_USAGE_MODIFIER_BASE. repeat constructor; lia.
Defined.

Lemma example_ring_ok : ring_ok ch374_st0.
Proof. unfold ring_ok. cbn. split_and!; first [done|lia|by apply bytes_okb_spec]. Qed.
Theorem kbd_pop_next_witness :
  ∃ skipped r k', kbd_pop (queue_push true 0x28 (queue_push true 4 ch374_st0)) = Some (r, k') ∧ ring_ok k' ∧
    Forall (λ e, usage_to_key (fst e) = 0) skipped ∧
    match r with
    | None => events (queue_push true 0x28 (queue_push true 4 ch374_st0)) = skipped ∧ events k' = []
    | Some (key, p) => ∃ u, events (queue_push true 0x28 (queue_push true 4 ch374_st0)) = skipped ++ (u, p) :: events k' ∧
                            usage_to_key u = key ∧ key ≠ 0
    end.
Proof. refine (kbd_pop_next _ _). by do 2 apply ring_ok_push; apply example_ring_ok. Defined.

Example example_events : events (process_report example_report ch374_st0) = [(0xE1, true); (4, true)].
Proof. by vm_compute. Qed.
End example.
