(* ===== verification/Fbcon.v ===== *)
(** * Fbcon: the framebuffer console ([src/baremetal/lib/fbcon.c])

    Text in one rectangle of an RGB565 framebuffer.  The framebuffer is memory of
    the machine, the statics are a record beside it.  The font is the table of [Font]. *)
From S2P Require Import Prelude Machine Font.

Definition RGB565_BLACK : Z := 0x0000.
Definition RGB565_WHITE : Z := 0xFFFF.
Definition RGB565_GREEN : Z := 0x07E0.
Definition RGB565_RED : Z := 0xF800.
Definition RGB565_CYAN : Z := 0x07FF.
Definition RGB565_GRAY : Z := 0x8410.

(** The static variables; [gFramebuffer] is an address, 0 before [screen_init]. *)
Record fbcon_st := FbconSt {
  gFramebuffer : Z; gWidth : Z; gHeight : Z; gRowPixels : Z; y_cursor : Z; x_cursor : Z; scale_factor : Z;
  bannerHeight : Z; basecolor : Z; fgcolor : Z; opaque : bool
}.
Definition fbcon_st0 : fbcon_st := FbconSt 0 0 0 0 0 0 0 0 0 0 false.

Record console (D : Type) := Console { c_mach : machine D; c_st : fbcon_st }.
Arguments Console {D} _ _.
Arguments c_mach {D} _.
Arguments c_st {D} _.
#[export] Instance console_machine D : HasMachine (console D) D.
Proof.
  refine {| machine_of := c_mach; set_machine m s := Console m (c_st s) |}; by intros ? *; try destruct s.
Defined.

Definition getC {D A} (f : fbcon_st → A) : M (console D) A := gets (λ s, f (c_st s)).
Definition updC {D} (f : fbcon_st → fbcon_st) : M (console D) unit := modify (λ s, Console (c_mach s) (f (c_st s))).
Definition set_y (v : Z) (c : fbcon_st) : fbcon_st :=
  FbconSt (gFramebuffer c) (gWidth c) (gHeight c) (gRowPixels c) v (x_cursor c) (scale_factor c) (bannerHeight c)
    (basecolor c) (fgcolor c) (opaque c).
Definition set_x (v : Z) (c : fbcon_st) : fbcon_st :=
  FbconSt (gFramebuffer c) (gWidth c) (gHeight c) (gRowPixels c) (y_cursor c) v (scale_factor c) (bannerHeight c)
    (basecolor c) (fgcolor c) (opaque c).
Definition set_banner (v : Z) (c : fbcon_st) : fbcon_st :=
  FbconSt (gFramebuffer c) (gWidth c) (gHeight c) (gRowPixels c) (y_cursor c) (x_cursor c) (scale_factor c) v
    (basecolor c) (fgcolor c) (opaque c).
Definition set_fg (v : Z) (c : fbcon_st) : fbcon_st :=
  FbconSt (gFramebuffer c) (gWidth c) (gHeight c) (gRowPixels c) (y_cursor c) (x_cursor c) (scale_factor c) (bannerHeight c)
    (basecolor c) v (opaque c).

Definition LEFT_MARGIN (c : fbcon_st) : Z := 4 * scale_factor c.
Definition ROW_HEIGHT (c : fbcon_st) : Z := 1 + 8 * scale_factor c.

Section Fbcon.
Context {D : Type} `{!Device D}.
Abbreviation St := (console D).

(** [gFramebuffer[ind] = color] *)
Definition put_pixel (ind color : Z) : M St unit := fb ← getC gFramebuffer; wr16 (fb + 2 * ind) color.

Definition fill_row (y : Z) : M St unit :=
  c ← getC (λ c, c);
  for_to (gWidth c) (λ x, put_pixel (u32 (x + y * gRowPixels c)) (basecolor c)).

(** [for (y = from; y < to && y < gHeight; y++)] *)
Definition screen_fill_rows (from to : Z) : M St unit :=
  c ← getC (λ c, c);
  if negb (opaque c) then skip
  else for_range from (Z.to_nat (Z.min to (gHeight c) - from)) fill_row.

Definition screen_clear_all : M St unit :=
  updC (λ c, set_y (bannerHeight c) c);;
  updC (λ c, set_x (LEFT_MARGIN c) c);;
  c ← getC (λ c, c);
  screen_fill_rows (bannerHeight c) (gHeight c).

Definition screen_clear_row : M St unit :=
  c ← getC (λ c, c);
  screen_fill_rows (y_cursor c) (u32 (y_cursor c + ROW_HEIGHT c)).

(** The cursor after a line feed or at the end of a line. *)
Definition next_line : M St unit :=
  c ← getC (λ c, c);
  updC (if gHeight c <? u32 (y_cursor c + 2 * ROW_HEIGHT c) then set_y (bannerHeight c)
        else set_y (u32 (y_cursor c + ROW_HEIGHT c)));;
  updC (λ c, set_x (LEFT_MARGIN c) c);;
  screen_clear_row.

(** The bit of the glyph of [c] for the pixel [x], [y] of its cell. *)
Definition glyph_bit (c scale x y : Z) : bool :=
  nonzero (znth (nth (Z.to_nat (c .& 0x7F)) font8x8_basic []) (y / scale) .& (1 .<< (x / scale))).

Definition draw_pixel (ch x y : Z) : M St unit :=
  c ← getC (λ c, c);
  let ind := u32 ((x + x_cursor c) + (y + y_cursor c) * gRowPixels c) in
  if glyph_bit ch (scale_factor c) x y then put_pixel ind (fgcolor c)
  else when (opaque c) (put_pixel ind (basecolor c)).

Definition draw_glyph (ch : Z) : M St unit :=
  s ← getC scale_factor;
  for_to (8 * s) (λ x, for_to (8 * s) (λ y, draw_pixel ch x y)).

(** The cursor after a backspace. *)
Definition back_cursor (c : fbcon_st) : fbcon_st :=
  let c := if 8 * scale_factor c <? x_cursor c then set_x (x_cursor c - 8 * scale_factor c) c else set_x 0 c in
  if x_cursor c <? LEFT_MARGIN c then set_x (LEFT_MARGIN c) c else c.

Definition screen_putc (ch : Z) : M St unit :=
  fb ← getC gFramebuffer;
  if fb =? 0 then skip
  else if ch =? 8 then updC back_cursor
  else
    c ← getC (λ c, c);
    when ((ch =? 10) || (u32 (gWidth c - LEFT_MARGIN c) <? u32 (x_cursor c + 8 * scale_factor c))) next_line;;
    if ch =? 10 then skip
    else if ch =? 13 then
      updC (λ c, set_x (LEFT_MARGIN c) c);;
      screen_clear_row
    else
      draw_glyph ch;;
      updC (λ c, set_x (u32 (x_cursor c + 8 * scale_factor c)) c).

Fixpoint screen_write (l : list Z) : M St unit :=
  match l with [] => skip | ch :: l' => screen_putc ch;; screen_write l' end.

Definition screen_puts (l : list Z) : M St unit := screen_write l;; screen_putc 10.

Definition screen_mark_banner : M St unit := updC (λ c, set_banner (y_cursor c) c).
Definition screen_set_color (color : Z) : M St unit := updC (set_fg color).

Definition screen_set_row (n : Z) : M St unit :=
  updC (λ c, set_y (u32 (bannerHeight c + n * ROW_HEIGHT c)) c);;
  updC (λ c, set_x (LEFT_MARGIN c) c);;
  screen_clear_row.

Definition screen_init (fb row_pixels x0 y0 width height scale base : Z) (is_opaque : bool) : M St unit :=
  updC (λ c, FbconSt (fb + 2 * x0 + 2 * u32 (y0 * row_pixels)) width height row_pixels (y_cursor c) (x_cursor c) scale 0
               base (u16 (Z.lnot base)) is_opaque);;
  screen_clear_all;;
  updC (set_y 0).
End Fbcon.

(** ** The rectangle *)

Definition in_rect (c : fbcon_st) (a : Z) : Prop :=
  ∃ x y, 0 <= x < gWidth c ∧ 0 <= y < gHeight c ∧
         gFramebuffer c + 2 * (x + y * gRowPixels c) <= a < gFramebuffer c + 2 * (x + y * gRowPixels c) + 2.

(** The rectangle is in DDR and has room for a character; the cursor is at a place
    where a character fits vertically, and at most at the right margin. *)
Definition con_ok (c : fbcon_st) : Prop :=
  DDR_BASE <= gFramebuffer c ∧ gFramebuffer c + 2 * ((gHeight c - 1) * gRowPixels c + gWidth c) <= DDR_END ∧
  1 <= scale_factor c ∧ 16 * scale_factor c <= gWidth c <= gRowPixels c ∧
  0 <= bannerHeight c ∧ bannerHeight c + ROW_HEIGHT c <= gHeight c ∧
  0 <= y_cursor c ∧ y_cursor c + ROW_HEIGHT c <= gHeight c ∧
  LEFT_MARGIN c <= x_cursor c <= gWidth c - LEFT_MARGIN c.

Definition geometry (c : fbcon_st) : Z * Z * Z * Z * Z :=
  (gFramebuffer c, gWidth c, gHeight c, gRowPixels c, scale_factor c).

(** Everything outside the rectangle is as before. *)
Definition painted {D} (c : fbcon_st) (s s' : console D) : Prop :=
  dev (c_mach s') = dev (c_mach s) ∧ ∀ a, ¬ in_rect c a → mget (ram (c_mach s')) a = mget (ram (c_mach s)) a.
#[export] Instance painted_preorder {D} c : PreOrder (@painted D c).
Proof.
  split; [by intros s|]. intros s1 s2 s3 [H1 H2] [H3 H4]. split; [congruence|]. intros a Ha. by rewrite H4, H2.
Qed.

Lemma con_small c : con_ok c → gHeight c + 2 * ROW_HEIGHT c < 4294967296 ∧ gWidth c <= 33554432 ∧ 8 * scale_factor c < 4294967296.
Proof. unfold con_ok, ROW_HEIGHT, LEFT_MARGIN, DDR_BASE, DDR_END. intros H. nia. Qed.

Lemma pixel_index c x y :
  con_ok c → 0 <= x < gWidth c → 0 <= y < gHeight c →
  u32 (x + y * gRowPixels c) = x + y * gRowPixels c ∧
  DDR_BASE <= gFramebuffer c + 2 * (x + y * gRowPixels c) ∧ gFramebuffer c + 2 * (x + y * gRowPixels c) + 2 <= DDR_END.
Proof.
  intros (Hb & He & Hs & HW & _) Hx Hy.
  assert (x + y * gRowPixels c <= (gHeight c - 1) * gRowPixels c + gWidth c - 1) as Hi by nia.
  assert (0 <= x + y * gRowPixels c) as H0 by nia. unfold DDR_BASE, DDR_END in *.
  split; [apply u32_id; unfold word_ok; lia|lia].
Qed.

Section paint.
Context {D : Type} `{!Device D}.
Abbreviation St := (console D).

(** Runs from statics [c] that keep them and paint. *)
Definition paints (c : fbcon_st) (s s' : St) : Prop := c_st s = c → c_st s' = c ∧ painted c s s'.
#[local] Instance paints_preorder c : PreOrder (paints c).
Proof.
  split; [by intros s Hs|]. intros s1 s2 s3 H12 H23 H1. destruct (H12 H1) as [H2 P12]. destruct (H23 H2) as [H3 P23].
  split; [done|by etransitivity].
Qed.
Lemma paints_get {A} (c : fbcon_st) (k : fbcon_st → M St A) : steps (paints c) (k c) → steps (paints c) (x ← getC (λ c, c); k x).
Proof. intros Hk s Hs. unfold getC, gets, mbind, M_bind. rewrite Hs. by apply Hk. Qed.

Lemma paints_pixel c x y color :
  con_ok c → 0 <= x < gWidth c → 0 <= y < gHeight c →
  steps (paints c) (put_pixel (u32 (x + y * gRowPixels c)) color : M St unit).
Proof.
  intros Hc Hx Hy s Hs. destruct (pixel_index c x y Hc Hx Hy) as (-> & Ha & Hb).
  unfold put_pixel, getC, gets, wr, bus_write, mbind, M_bind. rewrite Hs. cbn [machine_of console_machine].
  rewrite in_ddr_true by lia. split; [done|]. split; [done|]. intros a Hout. cbn.
  change (mget (mset_list (ram (c_mach s)) (gFramebuffer c + 2 * (x + y * gRowPixels c)) (le_split 2 color)) a = mget (ram (c_mach s)) a).
  apply mget_mset_list_out. unfold zlen. rewrite le_split_length.
  destruct (Z_lt_le_dec a (gFramebuffer c + 2 * (x + y * gRowPixels c))); [by left|right].
  destruct (Z_lt_le_dec a (gFramebuffer c + 2 * (x + y * gRowPixels c) + 2)); [|done].
  exfalso. apply Hout. exists x, y. split_and!; lia.
Qed.

Lemma paints_row c y : con_ok c → 0 <= y < gHeight c → steps (paints c) (fill_row y : M St unit).
Proof.
  intros Hc Hy. unfold fill_row. apply paints_get. apply steps_for_lt; [apply _|].
  intros x Hx. apply paints_pixel; [done| |done]. destruct Hc as (_ & _ & H1 & H2 & _). lia.
Qed.
Lemma paints_fill c from to : con_ok c → 0 <= from → steps (paints c) (screen_fill_rows from to : M St unit).
Proof.
  intros Hc Hf. unfold screen_fill_rows. apply paints_get. destruct (negb (opaque c)); [apply (steps_skip (paints c))|].
  apply steps_for_lt; [apply _|]. intros y Hy. apply paints_row; [done|lia].
Qed.
Lemma paints_clear_row c : con_ok c → steps (paints c) (screen_clear_row : M St unit).
Proof. intros Hc. unfold screen_clear_row. apply paints_get, paints_fill; [done|]. unfold con_ok in Hc. lia. Qed.

Lemma paints_glyph c ch :
  con_ok c → x_cursor c + 8 * scale_factor c <= gWidth c → steps (paints c) (draw_glyph ch : M St unit).
Proof.
  intros Hc Hx. unfold draw_glyph.
  change (steps (paints c) (d ← getC (λ c, c); for_to (8 * scale_factor d) (λ x, for_to (8 * scale_factor d) (λ y, draw_pixel ch x y)) : M St unit)).
  apply paints_get. pose proof Hc as (_ & _ & Hs & HW & _ & _ & Hy0 & Hy & HX). unfold ROW_HEIGHT, LEFT_MARGIN in *.
  apply steps_for_lt; [apply _|]. intros x Hxr. apply steps_for_lt; [apply _|]. intros y Hyr.
  unfold draw_pixel. apply paints_get. cbv zeta.
  assert (∀ v, steps (paints c) (put_pixel (u32 (x + x_cursor c + (y + y_cursor c) * gRowPixels c)) v : M St unit)) as Hp
    by (intros v; apply paints_pixel; [done|lia|lia]).
  destruct (glyph_bit ch (scale_factor c) x y); [apply Hp|]. destruct (opaque c); [apply Hp|apply (steps_skip (paints c))].
Qed.

(** ** Every operation *)

(** [s'] comes from [s] by painting in the rectangle and moving the cursor. *)
Definition drawn (s s' : St) : Prop :=
  con_ok (c_st s') ∧ geometry (c_st s') = geometry (c_st s) ∧ painted (c_st s) s s'.

Lemma painted_geometry c c' (s s' : St) : geometry c = geometry c' → painted c s s' → painted c' s s'.
Proof.
  unfold geometry. intros [= H1 H2 H3 H4 H5] [Hd Hm]. split; [done|]. intros a Ha. apply Hm. intros (x & y & Hx & Hy & Hr).
  apply Ha. exists x, y. congruence || (rewrite <-H1, <-H2, <-H3, <-H4; done).
Qed.
Lemma drawn_trans s1 s2 s3 : drawn s1 s2 → drawn s2 s3 → drawn s1 s3.
Proof.
  intros (H1 & G1 & P1) (H2 & G2 & P2). split_and!; [done|congruence|]. etransitivity; [exact P1|].
  by apply (painted_geometry (c_st s2)).
Qed.
Lemma drawn_upd f (s : St) : con_ok (f (c_st s)) → geometry (f (c_st s)) = geometry (c_st s) → drawn s (snd (updC f s)).
Proof. intros H1 H2. split_and!; [done|done|by split]. Qed.
Lemma drawn_paints {A} (m : M St A) (s : St) : con_ok (c_st s) → steps (paints (c_st s)) m → drawn s (snd (m s)) ∧ c_st (snd (m s)) = c_st s.
Proof. intros Hc Hm. destruct (Hm s eq_refl) as [H1 H2]. unfold drawn. rewrite H1. done. Qed.

(** A sequence of drawing steps; the second sees the state of the first. *)
Lemma drawn_bind {A B} (m : M St A) (k : A → M St B) (s : St) :
  drawn s (snd (m s)) → (∀ a, drawn (snd (m s)) (snd (k a (snd (m s))))) → drawn s (snd ((m ≫= k) s)).
Proof.
  unfold mbind, M_bind. destruct (m s) as [a s1]. cbn [snd]. intros H1 H2. by apply (drawn_trans s s1).
Qed.
Lemma drawn_clear_row (s : St) : con_ok (c_st s) → drawn s (snd (screen_clear_row s)) ∧ c_st (snd (screen_clear_row s)) = c_st s.
Proof. intros Hc. apply drawn_paints; [done|]. by apply paints_clear_row. Qed.
(** A new position of the cursor, and its row cleared. *)
Lemma drawn_move f (s : St) :
  con_ok (f (c_st s)) → geometry (f (c_st s)) = geometry (c_st s) →
  drawn s (snd ((updC f;; screen_clear_row) s)) ∧ c_st (snd ((updC f;; screen_clear_row) s)) = f (c_st s).
Proof.
  intros Hf Hg. destruct (drawn_clear_row (snd (updC f s)) Hf) as [H1 H2]. split; [|exact H2].
  apply drawn_bind; [by apply drawn_upd|intros []; exact H1].
Qed.

Definition next_cursor (c : fbcon_st) : fbcon_st :=
  set_x (LEFT_MARGIN c) (if gHeight c <? u32 (y_cursor c + 2 * ROW_HEIGHT c) then set_y (bannerHeight c) c
                         else set_y (u32 (y_cursor c + ROW_HEIGHT c)) c).
Lemma next_line_eq (s : St) : next_line s = (updC next_cursor;; screen_clear_row) s.
Proof. unfold next_line, next_cursor, getC, updC, gets, modify, mbind, M_bind. cbn. by case_match. Qed.

Ltac con_solve := unfold con_ok, ROW_HEIGHT, LEFT_MARGIN in *; cbn [gFramebuffer gWidth gHeight gRowPixels y_cursor x_cursor
  scale_factor bannerHeight set_x set_y set_banner set_fg] in *; (lia || (split_and!; lia)).

Lemma next_cursor_ok c : con_ok c → con_ok (next_cursor c) ∧ geometry (next_cursor c) = geometry c ∧ x_cursor (next_cursor c) = LEFT_MARGIN c.
Proof.
  intros Hc. pose proof (con_small c Hc) as (Hs & _). unfold next_cursor. rewrite !u32_id by (unfold word_ok; con_solve).
  destruct (gHeight c <? y_cursor c + 2 * ROW_HEIGHT c) eqn:E.
  - split_and!; [|done|done]. con_solve.
  - apply Z.ltb_ge in E. split_and!; [|done|done]. con_solve.
Qed.
Lemma back_cursor_ok c : con_ok c → con_ok (back_cursor c) ∧ geometry (back_cursor c) = geometry c.
Proof.
  intros Hc. unfold back_cursor. destruct (8 * scale_factor c <? x_cursor c) eqn:E1; cbv zeta;
    cbn [x_cursor set_x]; match goal with |- context [if ?b then _ else _] => destruct b eqn:E2 end; (split; [|done]); con_solve.
Qed.

Lemma drawn_putc ch (s : St) : con_ok (c_st s) → drawn s (snd (screen_putc ch s)).
Proof.
  intros Hc. unfold screen_putc. unfold getC at 1. change (gets ?f ≫= ?k) with (gets f ≫= k).
  change (drawn s (snd ((if gFramebuffer (c_st s) =? 0 then skip else if ch =? 8 then updC back_cursor else
    c ← getC (λ c, c);
    when ((ch =? 10) || (u32 (gWidth c - LEFT_MARGIN c) <? u32 (x_cursor c + 8 * scale_factor c))) next_line;;
    if ch =? 10 then skip
    else if ch =? 13 then updC (λ c, set_x (LEFT_MARGIN c) c);; screen_clear_row
    else draw_glyph ch;; updC (λ c, set_x (u32 (x_cursor c + 8 * scale_factor c)) c)) s))).
  rewrite (proj2 (Z.eqb_neq (gFramebuffer (c_st s)) 0)) by (unfold con_ok, DDR_BASE in Hc; lia).
  destruct (ch =? 8); [apply drawn_upd; by apply back_cursor_ok|].
  set (rest := (λ _ : unit, if ch =? 10 then skip
    else if ch =? 13 then updC (λ c, set_x (LEFT_MARGIN c) c);; screen_clear_row
    else draw_glyph ch;; updC (λ c, set_x (u32 (x_cursor c + 8 * scale_factor c)) c)) : unit → M St unit).
  set (full := (ch =? 10) || (u32 (gWidth (c_st s) - LEFT_MARGIN (c_st s)) <? u32 (x_cursor (c_st s) + 8 * scale_factor (c_st s)))).
  change (drawn s (snd ((when full next_line ≫= rest) s))).
  assert (∀ s1 : St, con_ok (c_st s1) → (ch ≠ 10 → x_cursor (c_st s1) + 8 * scale_factor (c_st s1) <= gWidth (c_st s1) - LEFT_MARGIN (c_st s1)) →
    drawn s1 (snd (rest tt s1))) as Hrest.
  { intros s1 H1 Hx. unfold rest. destruct (ch =? 10) eqn:E10; [by split_and!|]. apply Z.eqb_neq in E10. specialize (Hx E10).
    destruct (ch =? 13).
    - apply (drawn_move (λ c, set_x (LEFT_MARGIN c) c)); [|done]. con_solve.
    - destruct (drawn_paints (draw_glyph ch) s1 H1) as [Hg Hcs]; [apply paints_glyph; [done|con_solve]|].
      apply drawn_bind; [done|]. intros _. apply drawn_upd; [|done]. rewrite Hcs.
      pose proof (con_small _ H1) as (_ & Hw & _). rewrite u32_id by (unfold word_ok; con_solve). con_solve. }
  pose proof (con_small _ Hc) as (_ & Hw & _).
  destruct full eqn:Ef.
  - destruct (next_cursor_ok _ Hc) as (Hn1 & Hn2 & Hn3).
    destruct (drawn_move next_cursor s Hn1 Hn2) as [H1 H2]. rewrite <-next_line_eq in H1, H2.
    apply drawn_bind; [exact H1|]. intros []. cbn [when] in *. apply Hrest; [by rewrite H2|]. intros _. rewrite H2, Hn3.
    clear - Hn1 Hn2 Hc. revert Hn1 Hn2. generalize (next_cursor (c_st s)). intros c' Hn1 Hn2.
    unfold geometry in Hn2. injection Hn2 as _ G2 _ _ G5. unfold LEFT_MARGIN. rewrite G5, G2. con_solve.
  - apply Hrest; [done|]. intros _. unfold full in Ef. apply orb_false_iff in Ef as [_ Ef%Z.ltb_ge].
    assert (0 <= gWidth (c_st s) - LEFT_MARGIN (c_st s) ∧ 0 <= x_cursor (c_st s) + 8 * scale_factor (c_st s) < 4294967296)
      as [Hf1 Hf2] by (pose proof (con_small _ Hc); unfold con_ok, LEFT_MARGIN in *; lia).
    rewrite !u32_id in Ef by (unfold word_ok, con_ok, LEFT_MARGIN in *; lia). exact Ef.
Qed.

Lemma drawn_refl (s : St) : con_ok (c_st s) → drawn s s.
Proof. intros Hc. by split_and!. Qed.
Lemma drawn_write l (s : St) : con_ok (c_st s) → drawn s (snd (screen_write l s)).
Proof.
  revert s. induction l as [|ch l IH]; intros s Hc; cbn [screen_write]; [by apply drawn_refl|].
  pose proof (drawn_putc ch s Hc) as H. apply drawn_bind; [done|]. intros _. apply IH, H.
Qed.
Lemma drawn_clear_all (s : St) : con_ok (c_st s) → drawn s (snd (screen_clear_all s)).
Proof.
  intros Hc. set (c1 := set_x (LEFT_MARGIN (c_st s)) (set_y (bannerHeight (c_st s)) (c_st s))).
  assert (con_ok c1) as H1 by (unfold c1; con_solve).
  change (drawn s (snd ((updC (λ _, c1);; (c ← getC (λ c, c); screen_fill_rows (bannerHeight c) (gHeight c))) s))).
  apply drawn_bind; [by apply drawn_upd|]. intros _.
  apply (drawn_paints (c ← getC (λ c, c); screen_fill_rows (bannerHeight c) (gHeight c)) (snd (updC (λ _, c1) s)) H1).
  apply paints_get, paints_fill; [done|]. change (0 <= bannerHeight (c_st s)). unfold con_ok in Hc. lia.
Qed.

(** The banner only changes with [screen_mark_banner] and [screen_init]. *)
Definition same_banner (s s' : St) : Prop := bannerHeight (c_st s') = bannerHeight (c_st s).
#[local] Instance same_banner_preorder : PreOrder same_banner.
Proof. split; [done|]. intros s1 s2 s3. unfold same_banner. congruence. Qed.
Ltac banner_leaf :=
  lazymatch goal with
  | |- steps _ (updC _) => let c := fresh in intros ?; unfold same_banner, updC, modify; cbn;
      unfold back_cursor, set_x, set_y, set_fg; cbn; repeat (case_match; cbn); done
  | |- steps _ (getC _) => intros ?; done
  | |- steps _ skip => apply (steps_skip same_banner)
  | |- steps _ (wr _ _ _) => intros ?; done
  end.
Lemma banner_fill from to : steps same_banner (screen_fill_rows from to : M St unit).
Proof. unfold screen_fill_rows, fill_row, put_pixel. steps_walk ltac:(idtac; banner_leaf). Qed.
Lemma banner_putc ch : steps same_banner (screen_putc ch : M St unit).
Proof.
  unfold screen_putc, next_line, screen_clear_row, draw_glyph, draw_pixel, put_pixel. steps_walk ltac:(first [apply banner_fill|idtac; banner_leaf]).
Qed.
Lemma banner_set_row n : steps same_banner (screen_set_row n : M St unit).
Proof. unfold screen_set_row, screen_clear_row. steps_walk ltac:(first [apply banner_fill|idtac; banner_leaf]). Qed.

(** A printable character that fits moves the cursor by a cell. *)
Definition plain (ch : Z) : Prop := ch ≠ 8 ∧ ch ≠ 10 ∧ ch ≠ 13.
Lemma putc_plain ch (s : St) :
  con_ok (c_st s) → plain ch → x_cursor (c_st s) + 8 * scale_factor (c_st s) <= gWidth (c_st s) - LEFT_MARGIN (c_st s) →
  screen_putc ch s = (draw_glyph ch;; updC (λ c, set_x (u32 (x_cursor c + 8 * scale_factor c)) c)) s.
Proof.
  intros Hc (H8 & H10 & H13) Hx. generalize (eq_refl : c_st s = c_st s). generalize (c_st s) at 2 as c. intros c Hcs. rewrite Hcs in Hc, Hx.
  pose proof (con_small c Hc) as (_ & Hw & _).
  pose proof Hc as (Hfb & _ & Hsc & HW & _ & _ & _ & _ & HX). unfold LEFT_MARGIN in Hx, HX.
  unfold screen_putc, getC, gets, mbind, M_bind, skip. rewrite Hcs.
  rewrite (proj2 (Z.eqb_neq (gFramebuffer c) 0)) by (unfold DDR_BASE in Hfb; lia).
  rewrite (proj2 (Z.eqb_neq ch 8)), (proj2 (Z.eqb_neq ch 10)), (proj2 (Z.eqb_neq ch 13)) by done. unfold LEFT_MARGIN. rewrite !Hcs.
  rewrite !u32_id by (unfold word_ok; lia). rewrite (proj2 (Z.ltb_ge (gWidth c - 4 * scale_factor c) _)) by lia. done.
Qed.
Lemma putc_plain_cursor ch (s : St) :
  con_ok (c_st s) → plain ch → x_cursor (c_st s) + 8 * scale_factor (c_st s) <= gWidth (c_st s) - LEFT_MARGIN (c_st s) →
  c_st (snd (screen_putc ch s)) = set_x (x_cursor (c_st s) + 8 * scale_factor (c_st s)) (c_st s).
Proof.
  intros Hc Hp Hx. rewrite putc_plain by done. pose proof (con_small _ Hc) as (_ & Hw & _).
  destruct (paints_glyph (c_st s) ch Hc ltac:(con_solve) s eq_refl) as [H1 _].
  unfold mbind, M_bind. destruct (draw_glyph ch s) as [u s1]. cbn [snd] in *. unfold updC, modify. cbn [snd c_st c_mach]. rewrite H1.
  by rewrite u32_id by (unfold word_ok; con_solve).
Qed.

(** The operations of a client. *)
Inductive con_op :=
  | Putc (ch : Z) | Write (l : list Z) | Puts (l : list Z) | MarkBanner | SetColor (color : Z) | ClearAll | SetRow (n : Z).
Definition con_do (op : con_op) : M St unit :=
  match op with
  | Putc ch => screen_putc ch
  | Write l => screen_write l
  | Puts l => screen_puts l
  | MarkBanner => screen_mark_banner
  | SetColor color => screen_set_color color
  | ClearAll => screen_clear_all
  | SetRow n => screen_set_row n
  end.
(** A row is one of those below the banner. *)
Definition op_ok (c : fbcon_st) (op : con_op) : Prop :=
  match op with SetRow n => 0 <= n ∧ bannerHeight c + (n + 1) * ROW_HEIGHT c <= gHeight c | _ => True end.

Lemma drawn_op op (s : St) : con_ok (c_st s) → op_ok (c_st s) op → drawn s (snd (con_do op s)).
Proof.
  intros Hc Hop. destruct op as [ch|l|l| |color| |n]; cbn [con_do].
  - by apply drawn_putc.
  - by apply drawn_write.
  - pose proof (drawn_write l s Hc) as H. apply drawn_bind; [done|]. intros _. apply drawn_putc, H.
  - apply drawn_upd; [|done]. con_solve.
  - apply drawn_upd; [|done]. con_solve.
  - by apply drawn_clear_all.
  - destruct Hop as [Hn Hh]. pose proof (con_small _ Hc) as (Hs & _).
    pose proof Hc as (_ & _ & Hsc & _ & Hb & _). unfold ROW_HEIGHT in *.
    assert (u32 (bannerHeight (c_st s) + n * (1 + 8 * scale_factor (c_st s))) = bannerHeight (c_st s) + n * (1 + 8 * scale_factor (c_st s))) as Hu
      by (apply u32_id; unfold word_ok; nia).
    set (f c := set_x (LEFT_MARGIN c) (set_y (u32 (bannerHeight c + n * ROW_HEIGHT c)) c)).
    change (drawn s (snd ((updC f;; screen_clear_row) s))). apply drawn_move; [|done]. unfold f, ROW_HEIGHT. rewrite Hu.
    con_solve || (unfold con_ok, ROW_HEIGHT, LEFT_MARGIN in *; cbn; split_and!; nia).
Qed.

(** What a client can reach from a state. *)
Inductive con_steps (s : St) : St → Prop :=
  | con_start : con_steps s s
  | con_next s1 op : con_steps s s1 → op_ok (c_st s1) op → con_steps s (snd (con_do op s1)).

(** The rectangle of [screen_init]: inside the framebuffer, and with room for a character. *)
Definition init_ok (fb row_pixels x0 y0 width height scale : Z) : Prop :=
  DDR_BASE <= fb ∧ 0 <= x0 ∧ 0 <= y0 ∧ x0 + width <= row_pixels ∧ fb + 2 * (row_pixels * (y0 + height)) <= DDR_END ∧
  1 <= scale ∧ 16 * scale <= width ∧ 1 + 8 * scale <= height.

(** The pixels of the rectangle of [screen_init]. *)
Definition in_screen (fb row_pixels x0 y0 width height a : Z) : Prop :=
  ∃ x y, x0 <= x < x0 + width ∧ y0 <= y < y0 + height ∧
         fb + 2 * (x + y * row_pixels) <= a < fb + 2 * (x + y * row_pixels) + 2.

Lemma screen_init_drawn fb row_pixels x0 y0 width height scale base is_opaque (s : St) :
  init_ok fb row_pixels x0 y0 width height scale →
  let s' := snd (screen_init fb row_pixels x0 y0 width height scale base is_opaque s) in
  ∃ s1, c_mach s1 = c_mach s ∧ geometry (c_st s1) = (fb + 2 * x0 + 2 * (y0 * row_pixels), width, height, row_pixels, scale) ∧
    drawn s1 s' ∧ bannerHeight (c_st s') = 0 ∧ ∀ a, in_rect (c_st s1) a → in_screen fb row_pixels x0 y0 width height a.
Proof.
  intros (Hfb & Hx0 & Hy0 & Hw & He & Hs & H16 & Hh) s'.
  set (c0 := FbconSt (fb + 2 * x0 + 2 * u32 (y0 * row_pixels)) width height row_pixels (y_cursor (c_st s)) (x_cursor (c_st s))
               scale 0 base (u16 (Z.lnot base)) is_opaque).
  assert (u32 (y0 * row_pixels) = y0 * row_pixels) as Hu by (apply u32_id; unfold word_ok, DDR_BASE, DDR_END in *; nia).
  set (c1 := set_x (4 * scale) (set_y 0 c0)).
  assert (con_ok c1) as Hc1.
  { unfold con_ok, LEFT_MARGIN, ROW_HEIGHT, c1, c0. cbn. rewrite Hu. unfold DDR_BASE, DDR_END in *. split_and!; try lia; nia. }
  set (s1 := Console (c_mach s) c1). exists s1.
  assert (s' = snd ((screen_clear_all;; updC (set_y 0)) s1)) as Hs' by done.
  split_and!; [done|change (geometry (c_st s1)) with (fb + 2 * x0 + 2 * u32 (y0 * row_pixels), width, height, row_pixels, scale); by rewrite Hu| | |].
  - rewrite Hs'. pose proof (drawn_clear_all s1 Hc1) as H. apply drawn_bind; [done|]. intros _. destruct H as (H & _).
    apply drawn_upd; [|done]. con_solve.
  - rewrite Hs'. assert (steps same_banner (screen_clear_all;; updC (set_y 0) : M St unit)) as Hb
      by (unfold screen_clear_all; steps_walk ltac:(first [apply banner_fill|idtac; banner_leaf])).
    exact (Hb s1).
  - intros a (x & y & Hx & Hy & Hr). cbn in Hx, Hy, Hr. rewrite Hu in Hr. exists (x0 + x), (y0 + y). split_and!; lia.
Qed.

(** C28: the console never leaves its rectangle.  After [screen_init] with a rectangle
    inside the framebuffer that has room for a character, any text, control
    characters included, and any calls of the other functions, with rows below the
    banner, write pixels of the rectangle only; the cursor stays where a character
    fits, and no register is touched. *)
Theorem console_in_rectangle fb row_pixels x0 y0 width height scale base is_opaque (s : St) s' :
  init_ok fb row_pixels x0 y0 width height scale →
  con_steps (snd (screen_init fb row_pixels x0 y0 width height scale base is_opaque s)) s' →
  con_ok (c_st s') ∧ dev (c_mach s') = dev (c_mach s) ∧
  ∀ a, ¬ in_screen fb row_pixels x0 y0 width height a → mget (ram (c_mach s')) a = mget (ram (c_mach s)) a.
Proof.
  intros Hok Hsteps. destruct (screen_init_drawn fb row_pixels x0 y0 width height scale base is_opaque s Hok) as (s1 & Hm & _ & Hinit & _ & Hin).
  assert (drawn s1 s') as (Hc' & _ & Hd & Hout).
  { induction Hsteps as [|s2 op _ IH Hop]; [done|]. apply (drawn_trans s1 s2); [done|]. apply drawn_op; [apply IH|done]. }
  rewrite Hm in Hd, Hout. split_and!; [done|done|]. intros a Ha. apply Hout. intros Hr. by apply Ha, Hin.
Qed.
End paint.

(** ** What a character draws *)

Section glyphs.
Context {D : Type} `{!Device D}.
Abbreviation St := (console D).

(** The pixel [x], [y] of the rectangle. *)
Definition pixel (c : fbcon_st) (m : mem) (x y : Z) : Z :=
  le_join (mget_list m (gFramebuffer c + 2 * (x + y * gRowPixels c)) 2).
Definition in_cell (c : fbcon_st) (x y : Z) : bool :=
  (x_cursor c <=? x) && (x <? x_cursor c + 8 * scale_factor c) &&
  (y_cursor c <=? y) && (y <? y_cursor c + 8 * scale_factor c).
(** What the cell of a character shows. *)
Definition shown (c : fbcon_st) (m : mem) (ch x y : Z) : Z :=
  if glyph_bit ch (scale_factor c) (x - x_cursor c) (y - y_cursor c) then u16 (fgcolor c)
  else if opaque c then u16 (basecolor c) else pixel c m x y.

Lemma pixel_set c m x y v x' y' :
  con_ok c → 0 <= x < gWidth c → 0 <= y → 0 <= x' < gWidth c → 0 <= y' →
  pixel c (mset_list m (gFramebuffer c + 2 * (x + y * gRowPixels c)) (le_split 2 v)) x' y' =
  if (x =? x') && (y =? y') then u16 v else pixel c m x' y'.
Proof.
  intros (_ & _ & _ & HW & _) Hx Hy Hx' Hy'. unfold pixel. destruct ((x =? x') && (y =? y')) eqn:E.
  - apply andb_true_iff in E as [->%Z.eqb_eq ->%Z.eqb_eq].
    pose proof (mget_list_mset_list m (gFramebuffer c + 2 * (x' + y' * gRowPixels c)) (le_split 2 v) (le_split_ok 2 v)) as H.
    rewrite le_split_length in H. rewrite H, le_join_split. done.
  - f_equal. apply mget_list_ext. intros a Ha. apply mget_mset_list_out. unfold zlen. rewrite le_split_length.
    assert (x ≠ x' ∨ y ≠ y') as Hne by lia. assert (x + y * gRowPixels c ≠ x' + y' * gRowPixels c).
    { destruct (Z.lt_trichotomy y y') as [Hlt|[->|Hlt]]; [nia|lia|nia]. }
    lia.
Qed.

(** One pixel of the cell. *)
Definition drawn_at (c : fbcon_st) (m0 : mem) (ch : Z) (done : Z → Z → bool) (s : St) : Prop :=
  c_st s = c ∧
  ∀ x y, 0 <= x < gWidth c → 0 <= y < gHeight c →
    pixel c (ram (c_mach s)) x y = if in_cell c x y && done (x - x_cursor c) (y - y_cursor c) then shown c m0 ch x y else pixel c m0 x y.

Lemma draw_pixel_at c m0 ch dn i j (s : St) :
  con_ok c → x_cursor c + 8 * scale_factor c <= gWidth c → 0 <= i < 8 * scale_factor c → 0 <= j < 8 * scale_factor c →
  dn i j = false → drawn_at c m0 ch dn s →
  drawn_at c m0 ch (λ x y, dn x y || ((x =? i) && (y =? j))) (snd (draw_pixel ch i j s)).
Proof.
  intros Hc Hx Hi Hj Hdn [Hs Hp]. pose proof Hc as (_ & _ & _ & HW & _ & _ & Hy0 & Hy & HX). unfold ROW_HEIGHT, LEFT_MARGIN in *.
  set (px := i + x_cursor c). set (py := j + y_cursor c).
  destruct (pixel_index c px py) as (Hu & Ha & Hb); [done|lia|lia|].
  assert (pixel c (ram (c_mach s)) px py = pixel c m0 px py) as Hold.
  { rewrite Hp by lia. replace (px - x_cursor c) with i by lia. replace (py - y_cursor c) with j by lia. by rewrite Hdn, andb_false_r. }
  assert (∀ x y, 0 <= x < gWidth c → 0 <= y < gHeight c → (px =? x) && (py =? y) = false →
    in_cell c x y && (dn (x - x_cursor c) (y - y_cursor c) || ((x - x_cursor c =? i) && (y - y_cursor c =? j))) =
    in_cell c x y && dn (x - x_cursor c) (y - y_cursor c)) as Hother.
  { intros x y _ _ E. replace ((x - x_cursor c =? i) && (y - y_cursor c =? j)) with ((px =? x) && (py =? y)); [by rewrite E, orb_false_r|].
    unfold px, py. f_equal; lia. }
  assert (in_cell c px py && (dn (px - x_cursor c) (py - y_cursor c) || ((px - x_cursor c =? i) && (py - y_cursor c =? j))) = true) as Hthis.
  { unfold in_cell, px, py. lia. }
  assert (∀ v, drawn_at c m0 ch (λ x y, dn x y || ((x =? i) && (y =? j))) (snd (put_pixel (u32 (px + py * gRowPixels c)) v s)) ↔
               u16 v = shown c m0 ch px py) as Hput.
  { intros v. unfold put_pixel, getC, gets, wr, bus_write, mbind, M_bind. rewrite Hs, Hu. cbn [machine_of console_machine].
    rewrite in_ddr_true by lia. unfold drawn_at. cbn [snd c_st c_mach ram set_machine console_machine].
    change (nbytes W16) with 2%nat. split.
    - intros [_ H]. specialize (H px py ltac:(lia) ltac:(lia)). rewrite pixel_set, !Z.eqb_refl in H by (done || lia). cbn [andb] in H.
      by rewrite Hthis in H.
    - intros Hv. split; [done|]. intros x y Hxr Hyr. rewrite pixel_set by (done || lia).
      destruct ((px =? x) && (py =? y)) eqn:E; [|by rewrite Hother, Hp].
      apply andb_true_iff in E as [<-%Z.eqb_eq <-%Z.eqb_eq]. by rewrite Hthis. }
  unfold draw_pixel, getC at 1, gets, mbind at 1, M_bind at 1. rewrite Hs. fold px py.
  assert (shown c m0 ch px py = if glyph_bit ch (scale_factor c) i j then u16 (fgcolor c) else if opaque c then u16 (basecolor c) else pixel c m0 px py) as Hsh.
  { unfold shown. by replace (px - x_cursor c) with i by lia; replace (py - y_cursor c) with j by lia. }
  destruct (glyph_bit ch (scale_factor c) i j); [by apply Hput|]. destruct (opaque c); [by apply Hput|].
  split; [done|]. intros x y Hxr Hyr. cbn [when skip snd].
  destruct ((px =? x) && (py =? y)) eqn:E; [|by rewrite Hother, Hp].
  apply andb_true_iff in E as [<-%Z.eqb_eq <-%Z.eqb_eq]. by rewrite Hthis, Hsh, Hold.
Qed.

Lemma drawn_at_ext c m0 ch dn dn' (s : St) :
  (∀ x y, 0 <= x < 8 * scale_factor c → 0 <= y < 8 * scale_factor c → dn x y = dn' x y) →
  drawn_at c m0 ch dn s → drawn_at c m0 ch dn' s.
Proof.
  intros He [Hs Hp]. split; [done|]. intros x y Hx Hy. rewrite Hp by done. destruct (in_cell c x y) eqn:E; [|done].
  unfold in_cell in E. cbn [andb]. by rewrite He by lia.
Qed.

Lemma draw_glyph_at c m0 ch (s : St) :
  con_ok c → x_cursor c + 8 * scale_factor c <= gWidth c → drawn_at c m0 ch (λ _ _, false) s →
  drawn_at c m0 ch (λ _ _, true) (snd (draw_glyph ch s)).
Proof.
  intros Hc Hx H0. pose proof Hc as (_ & _ & Hs & _). set (n := 8 * scale_factor c) in *.
  assert (draw_glyph ch s = for_to n (λ x, for_to n (λ y, draw_pixel ch x y)) s) as ->.
  { unfold draw_glyph, getC, gets, mbind, M_bind. by rewrite (proj1 H0). }
  change (wp (for_to n (λ x, for_to n (λ y, draw_pixel ch x y))) (λ _ s', drawn_at c m0 ch (λ _ _, true) s') s). unfold for_to at 1.
  eapply wp_mono; [apply (wp_for_range (λ i s', drawn_at c m0 ch (λ x _, x <? i) s') 0)|].
  - apply (drawn_at_ext c m0 ch (λ _ _, false)); [|done]. intros; lia.
  - intros i s1 Hi H1. unfold for_to.
    eapply wp_mono; [apply (wp_for_range (λ j s', drawn_at c m0 ch (λ x y, (x <? i) || ((x =? i) && (y <? j))) s') 0)|].
    + apply (drawn_at_ext c m0 ch (λ x _, x <? i)); [|done]. intros; lia.
    + intros j s2 Hj H2. apply (drawn_at_ext c m0 ch (λ x y, ((x <? i) || ((x =? i) && (y <? j))) || ((x =? i) && (y =? j)))).
      { intros; lia. }
      apply draw_pixel_at; [done|done|lia|lia|lia|done].
    + intros [] s2. cbv beta. apply drawn_at_ext. intros x y Hx1 Hy1; unfold n in *; rewrite Z2Nat.id by lia; rewrite (proj2 (Z.ltb_lt y _)) by lia; rewrite andb_true_r; apply Bool.eq_true_iff_eq; lia.
  - intros [] s1. cbv beta. apply drawn_at_ext. intros x y Hx1 Hy1; unfold n in *; rewrite Z2Nat.id by lia; apply Z.ltb_lt; lia.
Qed.

(** A character is its glyph.  When a printable character fits on the line,
    [screen_putc] shows exactly its glyph in the cell at the cursor, in the colours of
    the console and scaled, leaves every other pixel as it was, and moves the
    cursor by the width of a cell. *)
Theorem putc_draws_glyph ch (s : St) :
  let c := c_st s in
  con_ok c → ch ≠ 8 → ch ≠ 10 → ch ≠ 13 → x_cursor c + 8 * scale_factor c <= gWidth c - LEFT_MARGIN c →
  let s' := snd (screen_putc ch s) in
  c_st s' = set_x (x_cursor c + 8 * scale_factor c) c ∧
  ∀ x y, 0 <= x < gWidth c → 0 <= y < gHeight c →
    pixel c (ram (c_mach s')) x y = if in_cell c x y then shown c (ram (c_mach s)) ch x y else pixel c (ram (c_mach s)) x y.
Proof.
  intros c. generalize (eq_refl : c_st s = c). clearbody c. intros Hcs Hc H8 H10 H13 Hx s'.
  pose proof (con_small c Hc) as (_ & Hw & _).
  pose proof Hc as (_ & _ & Hsc & HW & _ & _ & _ & _ & HX).
  unfold s'. rewrite putc_plain by (rewrite ?Hcs; done). unfold LEFT_MARGIN in Hx, HX.
  pose proof (draw_glyph_at c (ram (c_mach s)) ch s Hc ltac:(lia) ltac:(split; [done|]; intros; by rewrite andb_false_r)) as [H1 H2].
  unfold mbind, M_bind. destruct (draw_glyph ch s) as [u s1]. cbn [snd] in *. unfold updC, modify. cbn [snd c_st c_mach]. rewrite H1.
  split; [by rewrite u32_id by (unfold word_ok; lia)|]. intros x y Hxr Hyr. rewrite H2 by done. by rewrite andb_true_r.
Qed.
End glyphs.

(** ** Examples *)

Section example.
#[local] Existing Instance null_device.
(** The console of the nk stage: the whole screen, transparent. *)
Definition blank_console : console unit := Console (Machine ∅ tt) fbcon_st0.
Definition nk_console : console unit := snd (screen_init 0x33B00000 800 0 0 800 480 1 RGB565_BLACK false blank_console).

Theorem console_in_rectangle_witness :
  let s' := snd (con_do (Putc 65) nk_console) in
  con_ok (c_st s') ∧ dev (c_mach s') = dev (c_mach blank_console) ∧
  ∀ a, ¬ in_screen 0x33B00000 800 0 0 800 480 a →
       mget (ram (c_mach s')) a = mget (ram (c_mach blank_console)) a.
Proof.
  refine (console_in_rectangle 0x33B00000 800 0 0 800 480 1 RGB565_BLACK false blank_console _ _ _).
  - unfold init_ok, DDR_BASE, DDR_END. lia.
  - apply (con_next _ _ (Putc 65)); [apply con_start|done].
Defined.

Theorem putc_draws_glyph_witness :
  let c := c_st nk_console in
  let s' := snd (screen_putc 65 nk_console) in
  c_st s' = set_x (x_cursor c + 8 * scale_factor c) c ∧
  ∀ x y, 0 <= x < gWidth c → 0 <= y < gHeight c →
    pixel c (ram (c_mach s')) x y = if in_cell c x y then shown c (ram (c_mach nk_console)) 65 x y else pixel c (ram (c_mach nk_console)) x y.
Proof.
  refine (putc_draws_glyph 65 nk_console _ _ _ _ _); [|done|done|done|by vm_compute].
  unfold con_ok, DDR_BASE, DDR_END, ROW_HEIGHT, LEFT_MARGIN. vm_compute. by split_and!.
Defined.
End example.
