(* ===== verification/Resident.v ===== *)
(** * Resident: the diagnostics panel under Windows CE ([src/baremetal/cfw/residents/nk/diag.c])

    Hooks that WinCE calls on interrupts and OAL IOCTL calls count them and draw
    ten rows of text with the console of [Fbcon].  The framebuffer is written
    through the uncached alias of WinCE; the machine has its physical address.  What
    a pointer of WinCE refers to is an argument of the hook. *)
From S2P Require Import Prelude Machine Font Fbcon.

Definition NK_UNCACHED_OFFSET : Z := 0x70000000.
Definition NK_DDR_VA : Z := 0x80000000.
Definition NK_DDR_END : Z := 0x84000000.
Definition FB_PHYS : Z := 0x33B00000.
Definition FB_WIDTH : Z := 800.
Definition FB : Z := FB_PHYS + NK_UNCACHED_OFFSET.
Definition phys (va : Z) : Z := va - NK_UNCACHED_OFFSET.
Definition DRAW_EVERY : Z := 512.
Definition IOCTL_LOG : nat := 6.
Definition PANEL_COLS : Z := 36.
Definition PANEL_ROWS : Z := 4 + 6.
Definition PANEL_WIDTH : Z := PANEL_COLS * 8 + 8.
Definition PANEL_HEIGHT : Z := PANEL_ROWS * 9.
Definition LABEL_COLS : Z := 8.
Definition CH374_CS_PIN : Z := 0x54.

Inductive arg_state := ARG_NONE | ARG_OK | ARG_UNREADABLE.
Record ioctl_entry := IoctlEntry { e_code : Z; e_arg : Z * Z; e_state : arg_state * arg_state; e_slot : Z }.

(** The static variables. *)
Record diag_st := DiagSt {
  irqs : Z; last_pc : Z; seen_lo : Z; seen_hi : Z; win_lo : Z; win_hi : Z; ioctls : Z; ch374_ioctls : Z;
  ioctl_log : list ioctl_entry; screen_ready : bool; col : Z
}.
Definition no_entry : ioctl_entry := IoctlEntry 0 (0, 0) (ARG_NONE, ARG_NONE) 0.
Definition diag_st0 : diag_st := DiagSt 0 0 0 0 0 0 0 0 (replicate IOCTL_LOG no_entry) false 0.

Definition set_col (v : Z) (d : diag_st) : diag_st :=
  DiagSt (irqs d) (last_pc d) (seen_lo d) (seen_hi d) (win_lo d) (win_hi d) (ioctls d) (ch374_ioctls d) (ioctl_log d) (screen_ready d) v.
Definition set_screen_ready (d : diag_st) : diag_st :=
  DiagSt (irqs d) (last_pc d) (seen_lo d) (seen_hi d) (win_lo d) (win_hi d) (ioctls d) (ch374_ioctls d) (ioctl_log d) true (col d).
Definition set_seen (lo hi wlo whi : Z) (d : diag_st) : diag_st :=
  DiagSt (irqs d) (last_pc d) lo hi wlo whi (ioctls d) (ch374_ioctls d) (ioctl_log d) (screen_ready d) (col d).
Definition set_irq (n pc : Z) (d : diag_st) : diag_st :=
  DiagSt n pc (seen_lo d) (seen_hi d) (win_lo d) (win_hi d) (ioctls d) (ch374_ioctls d) (ioctl_log d) (screen_ready d) (col d).
Definition set_ioctls (n c : Z) (l : list ioctl_entry) (d : diag_st) : diag_st :=
  DiagSt (irqs d) (last_pc d) (seen_lo d) (seen_hi d) (win_lo d) (win_hi d) n c l (screen_ready d) (col d).

Record resident (D : Type) := ResidentSt { r_con : console D; r_diag : diag_st }.
Arguments ResidentSt {D} _ _.
Arguments r_con {D} _.
Arguments r_diag {D} _.

(** Whether the hooks may read at the address [a]. *)
Definition readable (a : Z) : bool :=
  if nonzero (a .& 3) then false
  else ((0x00010000 <=? a) && (a <? 0x42000000)) || ((NK_DDR_VA <=? a) && (a <? NK_DDR_END)).

Section Resident.
Context {D : Type} `{!Device D}.
Abbreviation St := (resident D).

Definition on_con {A} (m : M (console D) A) : M St A := λ s, let '(a, c) := m (r_con s) in (a, ResidentSt c (r_diag s)).
Definition getR {A} (f : diag_st → A) : M St A := gets (λ s, f (r_diag s)).
Definition updR (f : diag_st → diag_st) : M St unit := modify (λ s, ResidentSt (r_con s) (f (r_diag s))).

Definition put_c (c : Z) : M St unit := on_con (screen_putc (u8 c));; updR (λ d, set_col (u32 (col d + 1)) d).
Fixpoint put_s (l : list Z) : M St unit := match l with [] => skip | c :: l' => put_c c;; put_s l' end.

(** [while (col < n)]; [col] grows by one at a time, so that [n] bounds the iterations. *)
Fixpoint pad_loop (fuel : nat) (n : Z) : M St unit :=
  match fuel with
  | O => skip
  | S fuel' => c ← getR col; if (c : Z) <? n then put_c (chr " ");; pad_loop fuel' n else skip
  end.
Definition pad_to (n : Z) : M St unit := pad_loop (Z.to_nat n) n.

Definition hex : list Z := bytes_of "0123456789ABCDEF".
Definition hex_chars (v : Z) : list Z := map (λ i, znth hex ((v .>> (i * 4)) .& 0xF)) [7; 6; 5; 4; 3; 2; 1; 0].
Definition put_hex (v : Z) : M St unit := put_s (hex_chars v).

(** The [do] loop of [put_dec]: digits from the last one; [buf] has 10 places. *)
Fixpoint dec_buf (fuel : nat) (v : Z) : list Z :=
  match fuel with O => [] | S fuel' => (chr "0" + v mod 10) :: if nonzero (v / 10) then dec_buf fuel' (v / 10) else [] end.
Definition put_dec (v : Z) : M St unit := put_s (rev (dec_buf 10 v)).

Definition put_label (label : list Z) : M St unit :=
  on_con (screen_set_color RGB565_CYAN);; put_s label;; on_con (screen_set_color RGB565_WHITE).
Definition line (row : Z) (label : list Z) : M St unit :=
  on_con (screen_set_row row);;
  updR (set_col 0);;
  on_con (screen_set_color RGB565_CYAN);;
  put_s label;;
  pad_to LABEL_COLS;;
  on_con (screen_set_color RGB565_WHITE).
Definition put_arg (st : arg_state) (arg : Z) : M St unit :=
  match st with ARG_OK => put_hex arg | ARG_NONE => put_c (chr "-") | ARG_UNREADABLE => put_c (chr "?") end.

(** The iterations from [i] on. *)
Fixpoint sysintr_loop (n : nat) (i : Z) : M St unit :=
  match n with
  | O => skip
  | S n' =>
      d ← getR (λ d, d);
      let bit := 1 .<< (i .& 31) in
      let seen := if i <? 32 then seen_lo d else seen_hi d in
      let win := if i <? 32 then win_lo d else win_hi d in
      if negb (nonzero (seen .& bit)) then sysintr_loop n' (i + 1)
      else if PANEL_COLS <? u32 (col d + 3) then
        on_con (screen_set_color RGB565_WHITE);;
        put_c (chr "+")
      else
        on_con (screen_set_color (if nonzero (win .& bit) then RGB565_WHITE else RGB565_GRAY));;
        put_dec i;;
        put_c (chr " ");;
        sysintr_loop n' (i + 1)
  end.
Definition put_sysintrs : M St unit := sysintr_loop 64 0.

(** The rows of [draw]. *)
Definition draw_irq : M St unit :=
  line 0 (bytes_of "irq");;
  d ← getR (λ d, d);
  put_dec (irqs d);;
  put_s (bytes_of " ");;
  put_label (bytes_of "pc");;
  put_s (bytes_of " ");;
  put_hex (last_pc d).
Definition draw_sysintr : M St unit := line 1 (bytes_of "sysintr");; put_sysintrs.
Definition draw_ioctl : M St unit :=
  line 2 (bytes_of "ioctl");;
  d ← getR (λ d, d);
  put_dec (ioctls d);;
  put_s (bytes_of " ");;
  put_label (bytes_of "ch374");;
  put_s (bytes_of " ");;
  put_dec (ch374_ioctls d).
Definition draw_titles : M St unit :=
  on_con (screen_set_row 3);;
  updR (set_col 0);;
  on_con (screen_set_color RGB565_CYAN);;
  put_s (bytes_of "slot");;
  pad_to 5;;
  put_s (bytes_of "code");;
  pad_to 14;;
  put_s (bytes_of "in0");;
  pad_to 23;;
  put_s (bytes_of "in1");;
  on_con (screen_set_color RGB565_WHITE).
Definition draw_entry (i : Z) : M St unit :=
  l ← getR ioctl_log;
  let e := nth (Z.to_nat i) l no_entry in
  on_con (screen_set_row (4 + i));;
  updR (set_col 0);;
  if negb (nonzero (e_code e)) then skip
  else
    (if e_slot e =? 0xFF then put_c (chr "?") else put_dec (e_slot e));;
    pad_to 5;;
    put_hex (e_code e);;
    pad_to 14;;
    put_arg (fst (e_state e)) (fst (e_arg e));;
    pad_to 23;;
    put_arg (snd (e_state e)) (snd (e_arg e)).

Definition draw_rows : M St unit :=
  draw_irq;; draw_sysintr;; draw_ioctl;; draw_titles;;
  for_to (Z.of_nat IOCTL_LOG) draw_entry;;
  updR (λ d, set_seen (seen_lo d) (seen_hi d) 0 0 d).
Definition init_panel : M (console D) unit :=
  screen_init (phys FB) FB_WIDTH (FB_WIDTH - PANEL_WIDTH) 0 PANEL_WIDTH PANEL_HEIGHT 1 RGB565_BLACK true.
Definition draw : M St unit :=
  ready ← getR screen_ready;
  when (negb ready) (
    on_con init_panel;;
    updR set_screen_ready);;
  draw_rows.

(** ** The hooks *)

Definition resident_irq (pc : Z) : M St unit := updR (λ d, set_irq (u32 (irqs d + 1)) pc d).

Definition see (sysintr : Z) (d : diag_st) : diag_st :=
  if sysintr <? 32 then
    set_seen (seen_lo d .| (1 .<< sysintr)) (seen_hi d) (win_lo d .| (1 .<< sysintr)) (win_hi d) d
  else if sysintr <? 64 then
    set_seen (seen_lo d) (seen_hi d .| (1 .<< (sysintr - 32))) (win_lo d) (win_hi d .| (1 .<< (sysintr - 32))) d
  else d.
Definition resident_sysintr (sysintr : Z) : M St Z :=
  updR (see sysintr);;
  n ← getR irqs;
  when (n mod DRAW_EVERY =? 0) draw;;
  mret sysintr.

(** What the hook finds in memory: the words at [in] and the current process. *)
Record user_mem := UserMem { in_word : Z → Z; cur_proc : Z; proc_byte : Z }.

Definition entry_arg (u : user_mem) (ok : bool) (in_size i : Z) : arg_state * Z :=
  if in_size <? 4 * (i + 1) then (ARG_NONE, 0) else if negb ok then (ARG_UNREADABLE, 0) else (ARG_OK, in_word u i).
Definition new_entry (u : user_mem) (code inp in_size : Z) : ioctl_entry :=
  let '(s0, a0) := entry_arg u (readable inp) in_size 0 in
  let '(s1, a1) := entry_arg u (readable inp) in_size 1 in
  IoctlEntry code (a0, a1) (s0, s1) (if readable (cur_proc u) then proc_byte u else 0xFF).
Definition resident_ioctl (u : user_mem) (code inp in_size : Z) : M St unit :=
  updR (λ d,
    let n := u32 (ioctls d + 1) in
    if readable inp && (4 <=? in_size) && (in_word u 0 =? CH374_CS_PIN) &&
       ((code =? 0x010120D0) || (code =? 0x010120D4) || (code =? 0x010120E4))
    then set_ioctls n (u32 (ch374_ioctls d + 1)) (ioctl_log d) d
    else set_ioctls n (ch374_ioctls d) (new_entry u code inp in_size :: take (IOCTL_LOG - 1) (ioctl_log d)) d).

(** ** The panel *)

(** The console of the panel: its rectangle, no banner. *)
Definition panel_ok (c : fbcon_st) : Prop :=
  con_ok c ∧ geometry c = (FB_PHYS + 2 * (FB_WIDTH - PANEL_WIDTH), PANEL_WIDTH, PANEL_HEIGHT, FB_WIDTH, 1) ∧ bannerHeight c = 0.

(** [s'] comes from [s] by drawing in the panel. *)
Definition panel (s s' : St) : Prop :=
  panel_ok (c_st (r_con s)) → panel_ok (c_st (r_con s')) ∧ painted (c_st (r_con s)) (r_con s) (r_con s').
#[local] Instance panel_preorder : PreOrder panel.
Proof.
  split; [by intros s Hs|]. intros s1 s2 s3 H12 H23 H1. destruct (H12 H1) as [H2 P12]. destruct (H23 H2) as [H3 P23].
  split; [done|]. etransitivity; [done|]. apply (painted_geometry (c_st (r_con s2))); [|done].
  by destruct H1 as (_ & -> & _), H2 as (_ & -> & _).
Qed.

Lemma steps_on_con {A} (m : M (console D) A) :
  (∀ c, con_ok (c_st c) → bannerHeight (c_st c) = 0 → geometry (c_st c) = (FB_PHYS + 2 * (FB_WIDTH - PANEL_WIDTH), PANEL_WIDTH, PANEL_HEIGHT, FB_WIDTH, 1) →
     drawn c (snd (m c)) ∧ same_banner c (snd (m c))) → steps panel (on_con m).
Proof.
  intros Hm s (Hc & Hg & Hb). destruct (Hm (r_con s) Hc Hb Hg) as [(H1 & H2 & H3) H4]. unfold on_con.
  destruct (m (r_con s)) as [a c]. cbn [snd r_con] in *. split; [|done]. split_and!; [done|congruence|]. unfold same_banner in H4. congruence.
Qed.
Lemma panel_putc ch : steps panel (on_con (screen_putc ch)).
Proof. apply steps_on_con. intros c Hc _ _. split; [by apply drawn_putc|apply banner_putc]. Qed.
Lemma panel_set_color v : steps panel (on_con (screen_set_color v)).
Proof. apply steps_on_con. intros c Hc _ _. split; [by apply (drawn_op (SetColor v))|done]. Qed.
Lemma panel_set_row n : 0 <= n < PANEL_ROWS → steps panel (on_con (screen_set_row n)).
Proof.
  intros Hn. apply steps_on_con. intros c Hc Hb Hg. split; [|apply banner_set_row]. apply (drawn_op (SetRow n)); [done|].
  unfold geometry in Hg. injection Hg as _ _ Hh _ Hs. cbn [op_ok]. unfold ROW_HEIGHT. rewrite Hb, Hh, Hs. unfold PANEL_HEIGHT, PANEL_ROWS in *. lia.
Qed.
Lemma panel_upd f : steps panel (updR f).
Proof. intros s Hs. by split. Qed.
Lemma panel_get {A} (f : diag_st → A) : steps panel (getR f).
Proof. intros s Hs. by split. Qed.
Lemma panel_skip : steps panel skip.
Proof. intros s Hs. by split. Qed.
Ltac panel_leaf := first [apply panel_putc|apply panel_set_color|apply panel_upd|apply panel_get|apply panel_skip].

Lemma panel_put_c c : steps panel (put_c c).
Proof. unfold put_c. steps_walk ltac:(idtac; panel_leaf). Qed.
Lemma panel_put_s l : steps panel (put_s l).
Proof. induction l as [|c l IH]; cbn [put_s]; [apply panel_skip|]. apply (steps_bind panel); [apply panel_put_c|done]. Qed.
Lemma panel_pad n : steps panel (pad_to n).
Proof.
  unfold pad_to. induction (Z.to_nat n) as [|k IH]; cbn [pad_loop]; [apply panel_skip|].
  steps_walk ltac:(first [apply panel_put_c|exact IH|panel_leaf]).
Qed.
Ltac panel_walk := steps_walk ltac:(first [apply panel_put_c|apply panel_put_s|apply panel_pad|panel_leaf]).
Lemma panel_line n l : 0 <= n < PANEL_ROWS → steps panel (line n l).
Proof. intros Hn. unfold line. apply (steps_bind panel); [by apply panel_set_row|]. panel_walk. Qed.
Lemma panel_sysintr_loop n i : steps panel (sysintr_loop n i).
Proof.
  revert i. induction n as [|n IH]; intros i; cbn [sysintr_loop]; [apply panel_skip|]. unfold put_dec.
  steps_walk ltac:(first [apply IH|apply panel_put_c|apply panel_put_s|panel_leaf]).
Qed.
Lemma panel_entry i : 0 <= i < 6 → steps panel (draw_entry i).
Proof.
  intros Hi. unfold draw_entry, put_arg, put_dec, put_hex. apply (steps_bind panel); [apply panel_get|]. intros l. cbv zeta.
  apply (steps_bind panel); [apply panel_set_row; unfold PANEL_ROWS; lia|]. panel_walk.
Qed.
Lemma panel_irq_row : steps panel draw_irq.
Proof. unfold draw_irq, put_label, put_dec, put_hex. apply (steps_bind panel); [by apply panel_line|]. panel_walk. Qed.
Lemma panel_sysintr_row : steps panel draw_sysintr.
Proof. unfold draw_sysintr. apply (steps_bind panel); [by apply panel_line|intros _]. apply panel_sysintr_loop. Qed.
Lemma panel_ioctl_row : steps panel draw_ioctl.
Proof. unfold draw_ioctl, put_label, put_dec. apply (steps_bind panel); [by apply panel_line|]. panel_walk. Qed.
Lemma panel_titles_row : steps panel draw_titles.
Proof. unfold draw_titles. apply (steps_bind panel); [by apply panel_set_row|]. panel_walk. Qed.
Lemma panel_rows : steps panel draw_rows.
Proof.
  unfold draw_rows.
  apply (steps_bind panel); [apply panel_irq_row|intros _]. apply (steps_bind panel); [apply panel_sysintr_row|intros _].
  apply (steps_bind panel); [apply panel_ioctl_row|intros _]. apply (steps_bind panel); [apply panel_titles_row|intros _].
  apply (steps_bind panel); [|intros _; apply panel_upd]. unfold for_to. apply steps_for_lt; [apply _|].
  intros i Hi. apply panel_entry. unfold IOCTL_LOG in Hi. lia.
Qed.

(** ** A row is a row

    [at_col d r k s]: the panel is set up and [k] characters of row [r] are drawn; the
    other statics are those of [d]. *)
Definition at_col (d : diag_st) (r k : Z) (s : St) : Prop :=
  panel_ok (c_st (r_con s)) ∧ y_cursor (c_st (r_con s)) = r * 9 ∧ x_cursor (c_st (r_con s)) = 4 + 8 * k ∧
  r_diag s = set_col k d ∧ 0 <= k <= PANEL_COLS.

Lemma at_putc d r k c s : at_col d r k s → k < PANEL_COLS → plain (u8 c) → wp (put_c c) (λ _, at_col d r (k + 1)) s.
Proof.
  intros (Hp & Hy & Hx & Hk & Hb) Hlt Hc. unfold put_c, wp, mbind, M_bind.
  pose proof Hp as (Hok & Hg & _). unfold geometry in Hg. injection Hg as Hf Hw Hh Hr Hs. unfold PANEL_WIDTH, PANEL_COLS in *.
  pose proof (putc_plain_cursor (u8 c) (r_con s) Hok Hc) as Hcur. unfold LEFT_MARGIN in Hcur. rewrite Hx, Hw, Hs in Hcur.
  specialize (Hcur ltac:(lia)). pose proof (panel_putc (u8 c) s Hp) as [Hp' _]. unfold on_con in *.
  destruct (screen_putc (u8 c) (r_con s)) as [a c']. cbn [snd r_con r_diag] in *. cbn [fst snd updR modify r_con r_diag set_col col].
  unfold at_col. cbn [r_con r_diag set_col col]. split_and!; [done|by rewrite Hcur|rewrite Hcur; cbn; lia|rewrite Hk; unfold set_col at 2; cbn [col]; rewrite u32_id by (unfold word_ok; lia); done|lia|unfold PANEL_COLS; lia].
Qed.
Lemma at_puts d r k l s : at_col d r k s → k + zlen l <= PANEL_COLS → Forall (λ c, plain (u8 c)) l → wp (put_s l) (λ _, at_col d r (k + zlen l)) s.
Proof.
  revert k s. induction l as [|c l IH]; intros k s Hs Hl Hf; cbn [put_s].
  { unfold wp. cbn. by rewrite zlen_nil, Z.add_0_r. }
  apply list.Forall_cons in Hf as [Hc Hf]. rewrite zlen_cons in *. pose proof (zlen_nonneg l).
  apply wp_bind. eapply wp_mono; [apply (at_putc d r k); [done|lia|done]|]. intros ? s1 H1. cbv beta in H1.
  eapply wp_mono; [apply (IH (k + 1)); [done|lia|done]|]. intros ? s2. cbv beta. by replace (k + (1 + zlen l)) with (k + 1 + zlen l) by lia.
Qed.
Lemma at_pad d r k n s : at_col d r k s → n <= PANEL_COLS → wp (pad_to n) (λ _, at_col d r (Z.max k n)) s.
Proof.
  intros Hs Hn. unfold pad_to. assert (Z.max 0 (n - k) <= Z.of_nat (Z.to_nat n)) as Hfuel by (destruct Hs as (_ & _ & _ & _ & ?); lia).
  revert k s Hs Hfuel. induction (Z.to_nat n) as [|f IH]; intros k s Hs Hfuel; cbn [pad_loop].
  { unfold wp. cbn. by replace (Z.max k n) with k by lia. }
  apply wp_bind. unfold getR. apply wp_gets. assert (col (r_diag s) = k) as -> by (destruct Hs as (_ & _ & _ & -> & _); done). destruct (k <? n) eqn:E.
  - apply wp_bind. eapply wp_mono; [apply (at_putc d r k); [done|lia|done]|]. intros ? s1 H1. cbv beta in H1.
    eapply wp_mono; [apply (IH (k + 1)); [done|lia]|]. intros ? s2. cbv beta. by replace (Z.max (k + 1) n) with (Z.max k n) by lia.
  - unfold wp. cbn. by replace (Z.max k n) with k by lia.
Qed.
Lemma at_color d r k v s : at_col d r k s → wp (on_con (screen_set_color v)) (λ _, at_col d r k) s.
Proof.
  intros (Hp & Hy & Hx & Hk & Hb). destruct (panel_set_color v s Hp) as [Hp' _]. split_and!; try done; apply Hb.
Qed.
Lemma at_start r s : panel_ok (c_st (r_con s)) → 0 <= r < PANEL_ROWS →
  wp (on_con (screen_set_row r);; updR (set_col 0)) (λ _, at_col (r_diag s) r 0) s.
Proof.
  intros Hp Hr. destruct (panel_set_row r Hr s Hp) as [Hp' _]. pose proof Hp as (Hok & Hg & Hb).
  assert (c_st (snd (screen_set_row r (r_con s))) = set_x (LEFT_MARGIN (c_st (r_con s))) (set_y (r * 9) (c_st (r_con s)))) as Hcur.
  { unfold geometry in Hg. injection Hg as Hf Hw Hh Hro Hs.
    set (f c := set_x (LEFT_MARGIN c) (set_y (u32 (bannerHeight c + r * ROW_HEIGHT c)) c)).
    assert (f (c_st (r_con s)) = set_x (LEFT_MARGIN (c_st (r_con s))) (set_y (r * 9) (c_st (r_con s)))) as Hf'.
    { unfold f. rewrite Hb. unfold ROW_HEIGHT. rewrite Hs. rewrite u32_id by (unfold word_ok, PANEL_ROWS in *; lia). by replace (0 + r * (1 + 8 * 1)) with (r * 9) by lia. }
    change (screen_set_row r (r_con s)) with ((updC f;; screen_clear_row) (r_con s)). rewrite <-Hf'.
    assert (con_ok (f (c_st (r_con s)))) as Hcf.
    { rewrite Hf'. unfold con_ok, LEFT_MARGIN, ROW_HEIGHT in *. unfold PANEL_HEIGHT, PANEL_ROWS in *. cbn. rewrite Hs, Hh, Hw in *. split_and!; lia. }
    by apply drawn_move. }
  unfold wp, mbind, M_bind. unfold on_con in *. destruct (screen_set_row r (r_con s)) as [a c']. cbn [fst snd r_con r_diag updR modify set_col col] in *.
  unfold at_col. cbn [r_con r_diag set_col col]. split_and!; [done|by rewrite Hcur|rewrite Hcur|done|lia|done].
  unfold geometry in Hg. injection Hg as _ _ _ _ Hs. cbn. unfold LEFT_MARGIN. rewrite Hs. done.
Qed.

Lemma plain_bytes l : Forall (λ c, 14 <= c < 256) l → Forall (λ c, plain (u8 c)) l.
Proof. intros H. eapply list.Forall_impl; [exact H|]. intros c Hc. cbv beta in Hc. rewrite u8_id by (unfold byte_ok; lia). unfold plain. lia. Qed.
Lemma dec_buf_plain n v : 0 <= v → Forall (λ c, 14 <= c < 256) (dec_buf n v).
Proof.
  revert v. induction n as [|n IH]; intros v Hv; cbn [dec_buf]; [done|]. constructor; [change (chr "0") with 48; zlia|].
  destruct (nonzero (v / 10)); [|done]. apply IH. apply Z.div_pos; lia.
Qed.
Lemma dec_buf_len n v k : 0 <= v < 10 ^ Z.of_nat (S k) → (length (dec_buf n v) <= S k)%nat.
Proof.
  revert v k. induction n as [|n IH]; intros v k Hv; cbn [dec_buf length]; [lia|]. destruct (nonzero (v / 10)) eqn:E; [|cbn; lia].
  apply nonzero_true in E. destruct k as [|k].
  - exfalso. apply E. apply Z.div_small. change (10 ^ Z.of_nat 1) with 10 in Hv. lia.
  - enough (length (dec_buf n (v / 10)) <= S k)%nat by lia. apply IH. split; [apply Z.div_pos; lia|].
    apply Z.div_lt_upper_bound; [lia|]. rewrite Nat2Z.inj_succ, Z.pow_succ_r in Hv by lia. lia.
Qed.
Lemma hex_chars_plain v : Forall (λ c, 14 <= c < 256) (hex_chars v).
Proof.
  apply list.Forall_forall. intros c Hc. unfold hex_chars in Hc. apply list_elem_of_In, in_map_iff in Hc as (i & <- & _).
  assert (0 <= (v .>> (i * 4)) .& 0xF < 16) as Hr by (change 0xF with (2 ^ 4 - 1); rewrite land_mod by done; apply Z.mod_pos_bound; done).
  revert Hr. generalize ((v .>> (i * 4)) .& 0xF). intros x Hx. unfold znth.
  assert (Forall (λ c, 14 <= c < 256) hex) as HF by (repeat constructor; done). rewrite list.Forall_forall in HF. apply HF, list_elem_of_In, nth_In.
  change (length hex) with 16%nat. lia.
Qed.

Section rows.
Variables (d : diag_st) (r : Z).
Abbreviation at_ k := (at_col d r k).

Lemma at_dec k v w s : at_ k s → 0 <= v < 10 ^ Z.of_nat (S w) → k + Z.of_nat (S w) <= PANEL_COLS →
  wp (put_dec v) (λ _ s', ∃ k', k <= k' <= k + Z.of_nat (S w) ∧ at_ k' s') s.
Proof.
  intros Hs Hv Hk. unfold put_dec. pose proof (dec_buf_len 10 v w Hv) as Hl.
  assert (zlen (rev (dec_buf 10 v)) <= Z.of_nat (S w)) as Hz by (unfold zlen; rewrite length_rev; lia).
  eapply wp_mono; [apply (at_puts d r k); [done|lia|]|].
  - apply plain_bytes. apply list.Forall_forall. intros c Hc. rewrite list_elem_of_In, <-in_rev, <-list_elem_of_In in Hc.
    pose proof (dec_buf_plain 10 v (proj1 Hv)) as HF. rewrite list.Forall_forall in HF. by apply HF.
  - intros ? s' H. eexists. split; [|exact H]. pose proof (zlen_nonneg (rev (dec_buf 10 v))). lia.
Qed.
Lemma at_hex k v s : at_ k s → k + 8 <= PANEL_COLS → wp (put_hex v) (λ _, at_ (k + 8)) s.
Proof. intros Hs Hk. exact (at_puts d r k (hex_chars v) s Hs Hk (plain_bytes _ (hex_chars_plain v))). Qed.
Lemma at_arg k st arg s : at_ k s → k + 8 <= PANEL_COLS → wp (put_arg st arg) (λ _ s', ∃ k', k <= k' <= k + 8 ∧ at_ k' s') s.
Proof.
  intros Hs Hk. destruct st; cbn [put_arg].
  - eapply wp_mono; [apply (at_putc d r k); [done|lia|done]|]. intros ? s' H. exists (k + 1). split; [lia|done].
  - eapply wp_mono; [by apply at_hex|]. intros ? s' H. exists (k + 8). split; [lia|done].
  - eapply wp_mono; [apply (at_putc d r k); [done|lia|done]|]. intros ? s' H. exists (k + 1). split; [lia|done].
Qed.
Lemma at_string k l s : at_ k s → k + zlen l <= PANEL_COLS → Forall (λ c, 14 <= c < 256) l → wp (put_s l) (λ _, at_ (k + zlen l)) s.
Proof. intros Hs Hk Hf. apply at_puts; [done|done|by apply plain_bytes]. Qed.
Lemma at_label k l s : at_ k s → k + zlen l <= PANEL_COLS → Forall (λ c, 14 <= c < 256) l → wp (put_label l) (λ _, at_ (k + zlen l)) s.
Proof.
  intros Hs Hk Hf. unfold put_label. apply wp_bind. eapply wp_mono; [by apply (at_color d r k)|]. intros ? s1 H1.
  apply wp_bind. eapply wp_mono; [by apply (at_string k)|]. intros ? s2 H2. by apply (at_color d r (k + zlen l)).
Qed.
End rows.

Lemma at_line r l s :
  panel_ok (c_st (r_con s)) → 0 <= r < PANEL_ROWS → zlen l <= LABEL_COLS → Forall (λ c, 14 <= c < 256) l →
  wp (line r l) (λ _, at_col (r_diag s) r LABEL_COLS) s.
Proof.
  intros Hp Hr Hl Hf. unfold line. apply wp_bind. eapply wp_mono; [exact (wp_bind_inv _ _ _ _ (at_start r s Hp Hr))|]. intros ? s1 H1.
  apply wp_bind. eapply wp_mono; [exact H1|]. intros ? s2 H2.
  apply wp_bind. eapply wp_mono; [by apply (at_color (r_diag s) r 0)|]. intros ? s3 H3.
  apply wp_bind. eapply wp_mono; [apply (at_string (r_diag s) r 0); [done|unfold LABEL_COLS, PANEL_COLS in *; lia|done]|]. intros ? s4 H4.
  apply wp_bind. eapply wp_mono; [exact (at_pad (r_diag s) r (0 + zlen l) LABEL_COLS s4 H4 ltac:(done))|]. intros ? s5 H5. cbv beta in H5.
  replace (Z.max (0 + zlen l) LABEL_COLS) with LABEL_COLS in H5 by lia. by apply at_color.
Qed.

(** The counters are 32-bit words and the slots bytes. *)
Definition entry_ok (e : ioctl_entry) : Prop := 0 <= e_slot e < 256.
Definition diag_ok (d : diag_st) : Prop :=
  word_ok (irqs d) ∧ word_ok (ioctls d) ∧ word_ok (ch374_ioctls d) ∧ Forall entry_ok (ioctl_log d).

(** The text of row [r] is on row [r]. *)
Definition on_row (r : Z) (s' : St) : Prop := ∃ d k, at_col d r k s'.

Ltac row_side := solve [done | by repeat constructor | unfold PANEL_COLS, LABEL_COLS, zlen in *; cbn in *; lia].
Ltac row_line :=
  apply wp_bind; eapply wp_mono;
    [apply at_line; [done|row_side|row_side|row_side]|let H := fresh "Hrow" in intros ? ? H; cbv beta in H].
Ltac row_start r :=
  match goal with |- wp _ _ ?s =>
    apply wp_bind; eapply wp_mono; [exact (wp_bind_inv _ _ _ _ (at_start r s ltac:(done) ltac:(unfold PANEL_ROWS; lia)))|];
    let H := fresh in intros ? ? H; apply wp_bind; eapply wp_mono; [exact H|clear H]; let H := fresh "Hrow" in intros ? ? H; cbv beta in H end.
(** The statics at a row are those at its start. *)
Ltac row_get :=
  apply wp_bind; apply wp_gets;
  match goal with H : at_col ?d ?r ?k ?s |- context [r_diag ?s] =>
    let E := fresh in assert (r_diag s = set_col k d) as E by apply H; rewrite E; clear E end.
(** One more text behind what the row holds. *)
Ltac row_after tac :=
  match goal with H : at_col _ _ _ ?s |- wp _ _ ?s =>
    eapply wp_mono; [tac H|clear H; let H' := fresh "Hrow" in intros ? ? H'; cbv beta in H'] end.
Ltac row_step tac := apply wp_bind; row_after tac.

(** Every row of the panel fits, but for the second.  From any counters, the texts
    of the interrupt row, the IOCTL row, the titles and the six entries have at most 36
    columns: the console never wraps them into another row. *)
Theorem panel_rows_fit s i :
  panel_ok (c_st (r_con s)) → diag_ok (r_diag s) → 0 <= i < Z.of_nat IOCTL_LOG →
  wp draw_irq (λ _, on_row 0) s ∧ wp draw_ioctl (λ _, on_row 2) s ∧ wp draw_titles (λ _, on_row 3) s ∧
  wp (draw_entry i) (λ _, on_row (4 + i)) s.
Proof.
  intros Hp (Hirq & Hio & Hch & Hlog) Hi. unfold word_ok in *. split_and!.
  - unfold draw_irq. row_line. row_get.
    row_step ltac:(fun H => apply (at_dec _ _ _ _ 9 _ H); row_side). destruct Hrow as (k & Hk & Hrow).
    row_step ltac:(fun H => apply (at_string _ _ _ _ _ H); row_side).
    row_step ltac:(fun H => apply (at_label _ _ _ _ _ H); row_side).
    row_step ltac:(fun H => apply (at_string _ _ _ _ _ H); row_side).
    row_after ltac:(fun H => apply (at_hex _ _ _ _ _ H); row_side). by eexists _, _.
  - unfold draw_ioctl. row_line. row_get.
    row_step ltac:(fun H => apply (at_dec _ _ _ _ 9 _ H); row_side). destruct Hrow as (k & Hk & Hrow).
    row_step ltac:(fun H => apply (at_string _ _ _ _ _ H); row_side).
    row_step ltac:(fun H => apply (at_label _ _ _ _ _ H); row_side).
    row_step ltac:(fun H => apply (at_string _ _ _ _ _ H); row_side).
    row_after ltac:(fun H => apply (at_dec _ _ _ _ 9 _ H); row_side). destruct Hrow as (k' & Hk' & Hrow). by eexists _, _.
  - unfold draw_titles. row_start 3. row_step ltac:(fun H => apply (at_color _ _ _ _ _ H)).
    do 3 (row_step ltac:(fun H => apply (at_string _ _ _ _ _ H); row_side); row_step ltac:(fun H => apply (at_pad _ _ _ _ _ H); row_side)).
    row_step ltac:(fun H => apply (at_string _ _ _ _ _ H); row_side).
    row_after ltac:(fun H => apply (at_color _ _ _ _ _ H)). by eexists _, _.
  - unfold draw_entry. apply wp_bind. apply wp_gets. cbv zeta. set (e := nth _ _ _).
    assert (entry_ok e) as He.
    { destruct (nth_in_or_default (Z.to_nat i) (ioctl_log (r_diag s)) no_entry) as [Hin|Hd]; [|by unfold e; rewrite Hd].
      rewrite list.Forall_forall in Hlog. by apply Hlog, list_elem_of_In. }
    clearbody e. unfold IOCTL_LOG in Hi. row_start (4 + i). destruct (negb _); [by eexists _, _|].
    apply wp_bind. apply (wp_mono _ (λ _ s', ∃ k, 0 <= k <= 3 ∧ at_col (r_diag s) (4 + i) k s')).
    { destruct (e_slot e =? 0xFF).
      - row_after ltac:(fun H => apply (at_putc _ _ _ _ _ H); row_side). exists 1. split; [lia|done].
      - row_after ltac:(fun H => apply (at_dec _ _ _ _ 2 _ H); [unfold entry_ok in He; change (10 ^ Z.of_nat 3) with 1000; lia|row_side]).
        destruct Hrow as (k & Hk & Hrow). exists k. split; [lia|done]. }
    clear Hrow. intros ? ? (k & Hk & Hrow). row_step ltac:(fun H => apply (at_pad _ _ _ 5 _ H); row_side).
    replace (Z.max k 5) with 5 in Hrow by lia. row_step ltac:(fun H => apply (at_hex _ _ _ _ _ H); row_side).
    row_step ltac:(fun H => apply (at_pad _ _ _ 14 _ H); row_side). change (Z.max (5 + 8) 14) with 14 in Hrow.
    row_step ltac:(fun H => apply (at_arg _ _ _ _ _ _ H); row_side). destruct Hrow as (k2 & Hk2 & Hrow).
    row_step ltac:(fun H => apply (at_pad _ _ _ 23 _ H); row_side). replace (Z.max k2 23) with 23 in Hrow by lia.
    row_after ltac:(fun H => apply (at_arg _ _ _ _ _ _ H); row_side). destruct Hrow as (k3 & Hk3 & Hrow). by eexists _, _.
Qed.

(** ** The hooks over time *)

Inductive hook_call :=
  | CallIrq (pc : Z) | CallSysintr (sysintr : Z) | CallIoctl (u : user_mem) (code inp in_size : Z).
Definition do_call (c : hook_call) : M St unit :=
  match c with
  | CallIrq pc => resident_irq pc
  | CallSysintr n => resident_sysintr n;; skip
  | CallIoctl u code inp in_size => resident_ioctl u code inp in_size
  end.
Fixpoint run_calls (l : list hook_call) : M St unit := match l with [] => skip | c :: l' => do_call c;; run_calls l' end.

(** Nothing but the panel changes, and it is set up once a row was drawn. *)
Definition in_panel : Z → Prop := in_screen FB_PHYS FB_WIDTH (FB_WIDTH - PANEL_WIDTH) 0 PANEL_WIDTH PANEL_HEIGHT.
Definition resident_ok (s : St) : Prop := screen_ready (r_diag s) = true → panel_ok (c_st (r_con s)).
Definition inside (s s' : St) : Prop :=
  resident_ok s → resident_ok s' ∧ dev (c_mach (r_con s')) = dev (c_mach (r_con s)) ∧
  ∀ a, ¬ in_panel a → mget (ram (c_mach (r_con s'))) a = mget (ram (c_mach (r_con s))) a.
#[local] Instance inside_preorder : PreOrder inside.
Proof.
  split; [by intros s Hs|]. intros s1 s2 s3 H12 H23 H1. destruct (H12 H1) as (H2 & D12 & M12). destruct (H23 H2) as (H3 & D23 & M23).
  split_and!; [done|congruence|]. intros a Ha. by rewrite M23, M12.
Qed.

Lemma rect_panel c a : panel_ok c → in_rect c a → in_panel a.
Proof.
  intros (_ & Hg & _) (x & y & Hx & Hy & Hr). unfold geometry in Hg. injection Hg as Hf Hw Hh Hro Hs.
  rewrite Hf, Hro in Hr. rewrite Hw in Hx. rewrite Hh in Hy. exists (FB_WIDTH - PANEL_WIDTH + x), y. split_and!; lia.
Qed.
Lemma panel_inside (m : M St unit) s : steps panel m → panel_ok (c_st (r_con s)) →
  resident_ok (snd (m s)) ∧ dev (c_mach (r_con (snd (m s)))) = dev (c_mach (r_con s)) ∧
  ∀ a, ¬ in_panel a → mget (ram (c_mach (r_con (snd (m s))))) a = mget (ram (c_mach (r_con s))) a.
Proof.
  intros Hm Hp. destruct (Hm s Hp) as [Hp' [Hd Ho]]. split_and!; [by intros _|done|]. intros a Ha. apply Ho. intros Hin.
  apply Ha. exact (rect_panel _ a Hp Hin).
Qed.

Lemma init_panel_drawn c :
  let c' := snd (init_panel c) in
  ∃ c1, c_mach c1 = c_mach c ∧
    geometry (c_st c1) = (phys FB + 2 * (FB_WIDTH - PANEL_WIDTH) + 2 * (0 * FB_WIDTH), PANEL_WIDTH, PANEL_HEIGHT, FB_WIDTH, 1) ∧
    drawn c1 c' ∧ bannerHeight (c_st c') = 0 ∧ ∀ a, in_rect (c_st c1) a → in_panel a.
Proof.
  unfold init_panel, in_panel.
  assert (init_ok (phys FB) FB_WIDTH (FB_WIDTH - PANEL_WIDTH) 0 PANEL_WIDTH PANEL_HEIGHT 1) as Hi by (vm_compute; by split_and!).
  exact (screen_init_drawn (phys FB) FB_WIDTH (FB_WIDTH - PANEL_WIDTH) 0 PANEL_WIDTH PANEL_HEIGHT 1 RGB565_BLACK true c Hi).
Qed.
#[local] Opaque draw_rows init_panel.
Lemma draw_eq s :
  draw s = draw_rows (if screen_ready (r_diag s) then s else ResidentSt (snd (init_panel (r_con s))) (set_screen_ready (r_diag s))).
Proof.
  unfold draw, getR, gets, mbind, M_bind. destruct (screen_ready (r_diag s)); cbn [negb when]; [done|].
  unfold on_con, updR, modify. destruct (init_panel (r_con s)). reflexivity.
Qed.
Lemma inside_draw : steps inside draw.
Proof.
  intros s Hs. rewrite draw_eq. unfold resident_ok in Hs. destruct (screen_ready (r_diag s)).
  { apply (panel_inside draw_rows s panel_rows). by apply Hs. }
  destruct (init_panel_drawn (r_con s))
    as (s1 & Hm & Hg & (Hc & Hg' & Hd & Ho) & Hb & Hin).
  set (c2 := snd (init_panel (r_con s))) in *. clearbody c2.
  assert (panel_ok (c_st c2)) as Hp by (split_and!; [done|rewrite Hg', Hg; by vm_compute|done]).
  destruct (panel_inside draw_rows (ResidentSt c2 (set_screen_ready (r_diag s))) panel_rows Hp) as (H1 & H2 & H3).
  cbn [r_con] in H2, H3. split_and!; [done|congruence|]. intros a Ha. rewrite H3 by done. rewrite Ho, Hm; [done|].
  intros Hr. by apply Ha, Hin.
Qed.

Lemma inside_upd f : (∀ d, screen_ready (f d) = screen_ready d) → steps inside (updR f).
Proof.
  intros Hf s Hs. split_and!; [|done|done]. intros H. apply Hs. rewrite <-H. symmetry. apply Hf.
Qed.
Lemma inside_call c : steps inside (do_call c).
Proof.
  destruct c as [pc|n|u code inp size]; cbn [do_call].
  - by apply inside_upd.
  - unfold resident_sysintr. apply (steps_bind inside); [|intros ?; intros s Hs; by split_and!].
    apply (steps_bind inside); [apply inside_upd; intros d; unfold see; by repeat case_match|intros _].
    apply (steps_bind inside); [intros s Hs; by split_and!|intros k].
    apply (steps_bind inside); [|intros ?; intros s Hs; by split_and!].
    destruct (k mod DRAW_EVERY =? 0); [apply inside_draw|intros s Hs; by split_and!].
  - apply inside_upd. intros d. by case_match.
Qed.

(** C29: the hooks touch nothing of WinCE.  From the start on, any sequence of
    interrupts and IOCTL calls, with any arguments, changes memory only in the panel
    in the upper right corner of the screen and reads and writes no device; the text
    rows are drawn by the console inside its rectangle. *)
Theorem resident_stays_in_panel l s :
  screen_ready (r_diag s) = false →
  let s' := snd (run_calls l s) in
  dev (c_mach (r_con s')) = dev (c_mach (r_con s)) ∧
  ∀ a, ¬ in_panel a → mget (ram (c_mach (r_con s'))) a = mget (ram (c_mach (r_con s))) a.
Proof.
  intros Hr. assert (steps inside (run_calls l)) as H.
  { induction l as [|c l IH]; cbn [run_calls]; [intros s1 H1; by split_and!|]. apply (steps_bind inside); [apply inside_call|by intros _]. }
  destruct (H s) as (_ & H1 & H2); [|done]. intros Ht. congruence.
Qed.
End Resident.

(** ** Examples *)

Section example.
#[local] Existing Instance null_device.
Definition blank_resident : resident unit := ResidentSt (Console (Machine ∅ tt) fbcon_st0) diag_st0.
(** The panel after [screen_init]. *)
Definition ready_resident (d : diag_st) : resident unit :=
  ResidentSt (snd (init_panel (Console (Machine ∅ tt) fbcon_st0))) (set_screen_ready d).

(** The row of the SYSINTR values has no room for the [+] when it is full to the last
    column: the console wraps it into the row of the IOCTL counts, which is drawn next
    over it. *)
Definition full_row : diag_st := set_seen 0x00103CFF 0 0 0 diag_st0.
Lemma sysintr_plus_wraps :
  y_cursor (c_st (r_con (snd (draw_sysintr (ready_resident full_row))))) = 2 * 9.
Proof. vm_compute. reflexivity. Qed.

Theorem panel_rows_fit_witness :
  let s := ready_resident diag_st0 in
  wp draw_irq (λ _, on_row 0) s ∧ wp draw_ioctl (λ _, on_row 2) s ∧ wp draw_titles (λ _, on_row 3) s ∧
  wp (draw_entry 0) (λ _, on_row (4 + 0)) s.
Proof.
  refine (panel_rows_fit (ready_resident diag_st0) 0 _ _ _).
  - unfold panel_ok, con_ok, DDR_BASE, DDR_END, ROW_HEIGHT, LEFT_MARGIN. vm_compute. by split_and!.
  - unfold diag_ok. split_and!; [done|done|done|by repeat constructor].
  - by split.
Defined.
Theorem resident_stays_in_panel_witness :
  let s' := snd (run_calls [CallIrq 0x80201234; CallSysintr 5; CallIoctl (UserMem (λ _, 7) 0x80300000 3) 0x01010004 0x80300000 8] blank_resident) in
  dev (c_mach (r_con s')) = dev (c_mach (r_con blank_resident)) ∧
  ∀ a, ¬ in_panel a → mget (ram (c_mach (r_con s'))) a = mget (ram (c_mach (r_con blank_resident))) a.
Proof.
  refine (resident_stays_in_panel [CallIrq 0x80201234; CallSysintr 5; CallIoctl (UserMem (λ _, 7) 0x80300000 3) 0x01010004 0x80300000 8]
    blank_resident _). done.
Defined.
End example.
