(* ===== verification/Lcd.v ===== *)
(** * Lcd: the display controller and the fade ([src/baremetal/lib/lcd.c], [aipc-boot/fade.c])

    The controller scans a framebuffer in DDR out to the panel.  [fade_out] draws
    each step into the framebuffer that is not shown and then flips to it.  The
    delays [busy_wait] and the assembly of [drain_write_buffer] change no state and are
    left out.  Every volatile access of the two files is also recorded, in order, so
    that what the controller shows is read from its register writes and status reads
    ([view_of]) and not from the static [shown].  [frame], the cached copy of the screen, is filled from the shown
    framebuffer in one [memcpy] and then only read: it is a list of words here. *)
From S2P Require Import Prelude Machine Payload.

Definition RAMCTRL_AHB_PRIORITY : Z := 0x2002D014.
Definition LCD_RGB_BASE : Z := 0x14.
Definition LCD_OPERATION : Z := 0xB8.
Definition SCAN_OUT_STOP : Z := 0x00000001.
Definition SCAN_OUT_START : Z := 0x00000004.
Definition LCD_STATUS : Z := 0xBC.
Definition STATUS_REFRESH_START : Z := 0x00000010.
Definition LCD_SOFT_CTRL : Z := 0xC8.
Definition SOFT_CTRL_COMMIT : Z := 0x00000800.
Definition FRAME_SPIN_LIMIT : Z := 20000000.
Definition SYSCTRL_CLK_LCD_EN_N : Z := 0x00000008.
Definition SYSCTRL_LCD_RESET : Z := 0x00080000.
Definition BACKLIGHT_PERIOD : Z := 12000.
Definition FB_DMA_ADDR : Z := FB_ADDR .& 0x0FFFFFFF.
Definition LCD_DIVIDER_DEFAULT : Z := 8.
Definition FADE_STEPS : Z := 16.

Definition SYSCTRL (off : Z) : Z := 0x08000000 + off.
Definition LCD (off : Z) : Z := 0x20010000 + off.

(** A volatile access of lcd.c or fade.c: the address and the value. *)
Inductive access := Wr (a v : Z) | Rd (a v : Z).

(** [l_trace]: the volatile accesses so far, the last one first. *)
Record lcd (D : Type) := LcdSt { l_mach : machine D; shown : Z; l_trace : list access }.
Arguments LcdSt {D} _ _ _.
Arguments l_mach {D} _.
Arguments shown {D} _.
Arguments l_trace {D} _.
#[export] Program Instance lcd_machine {D} : HasMachine (lcd D) D := {|
  machine_of := l_mach; set_machine m s := LcdSt m (shown s) (l_trace s) |}.
Next Obligation. done. Qed.
Next Obligation. by intros D [? ? ?]. Qed.
Next Obligation. done. Qed.

Section access.
Context {D : Type} `{!Device D}.
Abbreviation St := (lcd D).

(** A volatile store and load, with their place in the order of accesses. *)
Definition note (e : access) : M St unit := modify (λ s, LcdSt (l_mach s) (shown s) (e :: l_trace s)).
Definition vput (w : width) (a v : Z) : M St unit := wr w a v;; note (Wr a v).
Definition vget (w : width) (a : Z) : M St Z := v ← rd w a; note (Rd a v);; mret v.
End access.
Abbreviation put16 := (vput W16).
Abbreviation put32 := (vput W32).
Abbreviation get32 := (vget W32).

Section Lcd.
Context {D : Type} `{!Device D}.
Abbreviation St := (lcd D).

Definition set_shown (a : Z) : M St unit := modify (λ s, LcdSt (l_mach s) a (l_trace s)).

Definition lcd_fill (color : Z) : M St unit := for_to (FB_WIDTH * FB_HEIGHT) (λ i, put16 (FB_ADDR + 2 * i) color).

Definition lcd_backlight (percent : Z) : M St unit :=
  if percent =? 0 then put32 (SYSCTRL 0x2C) BACKLIGHT_PERIOD
  else if 100 <=? percent then put32 (SYSCTRL 0x2C) 0xFFFF0000
  else
    let high := u32 (BACKLIGHT_PERIOD * percent) / 100 in
    put32 (SYSCTRL 0x2C) ((high .<< 16) .| (BACKLIGHT_PERIOD - high)).

Definition lcd_init_divider (divider : Z) : M St unit :=
  put32 (SYSCTRL 0x74) 0x00000008;;
  put32 (SYSCTRL 0x78) 0x564F0010;;
  v ← get32 (SYSCTRL 0x0C);
  let clk_gate := v .& not32 SYSCTRL_CLK_LCD_EN_N in
  put32 (SYSCTRL 0x0C) (clk_gate .| SYSCTRL_LCD_RESET);;
  put32 (SYSCTRL 0x0C) clk_gate;;
  v ← get32 RAMCTRL_AHB_PRIORITY;
  put32 RAMCTRL_AHB_PRIORITY (v .& not32 0x0000007F);;
  lcd_fill 0x0000;;
  put32 (LCD 0x3C) 0x00000000;;
  put32 (LCD 0xE8) (0x00000101 .| ((divider .& 0x7F) .<< 1));;
  put32 (LCD 0x00) 0x00000040;;
  put32 (LCD 0x10) 0x00300006;;
  put32 (LCD 0x40) 0x00080003;;
  put32 (LCD 0x44) 0x00058320;;
  put32 (LCD 0x48) 0x00050420;;
  put32 (LCD 0x4C) 0x00000018;;
  put32 (LCD 0x50) 0x00000001;;
  put32 (LCD 0x54) 0x00F00000;;
  put32 (LCD 0x58) 0x000001F9;;
  put32 (LCD 0x00) 0x80A80050;;
  put32 (LCD 0xB0) 0x000C81E0;;
  put32 (LCD 0x14) FB_DMA_ADDR;;
  set_shown FB_ADDR;;
  put32 (LCD 0x18) 0x032001E0;;
  put32 (LCD 0x1C) 0x00000000;;
  put32 (LCD 0x20) 0x00000000;;
  put32 (LCD 0xA8) 0x00000000;;
  put32 (LCD 0xAC) 0x000C81E0;;
  put32 (LCD 0x00) 0x80A80058;;
  put32 (LCD 0xC8) 0x00000800;;
  put32 (LCD 0xB8) 0x00000004;;
  lcd_backlight 100.
Definition lcd_init : M St unit := lcd_init_divider LCD_DIVIDER_DEFAULT.

Definition wait_refresh_start : M St unit :=
  get32 (LCD LCD_STATUS);;
  spin FRAME_SPIN_LIMIT (v ← get32 (LCD LCD_STATUS); mret (if nonzero (v .& STATUS_REFRESH_START) then Some tt else None));;
  skip.

Definition lcd_flip (addr : Z) : M St unit :=
  put32 (LCD LCD_RGB_BASE) (addr .& 0x0FFFFFFF);;
  put32 (LCD LCD_SOFT_CTRL) SOFT_CTRL_COMMIT;;
  wait_refresh_start;;
  set_shown addr.
Definition lcd_shown : M St Z := gets shown.

Definition lcd_dark : M St unit :=
  lcd_backlight 0;;
  put32 (LCD LCD_OPERATION) SCAN_OUT_STOP.
Definition lcd_light (percent : Z) : M St unit :=
  put32 (LCD LCD_OPERATION) SCAN_OUT_START;;
  wait_refresh_start;;
  wait_refresh_start;;
  lcd_backlight percent.

(** ** The fade *)

Definition dim (p a : Z) : Z :=
  let x := (p .| u32 (p .<< 16)) .& 0x07E0F81F in
  let x := (u32 (x * a) .>> 5) .& 0x07E0F81F in
  (x .| (x .>> 16)) .& 0xFFFF.
Definition dim2 (w a : Z) : Z := dim (w .& 0xFFFF) a .| u32 (dim (w .>> 16) a .<< 16).

(** The words at [a]. *)
Definition words_from (m : mem) (a n : Z) : list Z := map (λ i, le_join (mget_list m (a + 4 * i) 4)) (seqZ 0 n).

Definition fade_draw (frame : list Z) (base a : Z) : M St unit :=
  for_to (FB_BYTES / 4) (λ i, put32 (base + 4 * i) (dim2 (znth frame i) a)).
Definition fade_base (steps step : Z) : Z := if nonzero ((steps - step) mod 2) then FB_BACK_ADDR else FB_ADDR.
Definition fade_level (steps step : Z) : Z := 32 * (steps - step) / steps.
Definition fade_step (frame : list Z) (steps step : Z) : M St unit :=
  fade_draw frame (fade_base steps step) (fade_level steps step);;
  lcd_flip (fade_base steps step).
Definition fade_steps (from : Z) : Z := if from =? FB_ADDR then FADE_STEPS else FADE_STEPS - 1.
Definition fade_out : M St unit :=
  from ← lcd_shown;
  let steps := fade_steps from in
  frame ← gets (λ s, words_from (ram (l_mach s)) from (FB_BYTES / 4));
  for_range 1 (Z.to_nat steps) (fade_step frame steps).
End Lcd.

(** ** One pixel *)

Definition red (p : Z) : Z := p / 2048.
Definition green (p : Z) : Z := (p / 32) mod 64.
Definition blue (p : Z) : Z := p mod 32.
Definition rgb565 (r g b : Z) : Z := r * 2048 + g * 32 + b.

(** A claim on 16-bit numbers, checked on all of them. *)
Fixpoint all_from (n : nat) (i : Z) (f : Z → bool) : bool :=
  match n with O => true | S n' => f i && all_from n' (i + 1) f end.
Lemma all_from_spec n i f : all_from n i f = true → ∀ v, i <= v < i + Z.of_nat n → f v = true.
Proof.
  revert i. induction n as [|n IH]; intros i H v Hv; [lia|]. cbn [all_from] in H. apply andb_true_iff in H as [Hi H].
  destruct (decide (v = i)) as [->|]; [done|]. apply (IH (i + 1)); [done|lia].
Qed.
Lemma all16 f : all_from (Z.to_nat 65536) 0 f = true → ∀ v, 0 <= v < 65536 → f v = true.
Proof. intros H v Hv. by apply (all_from_spec _ _ _ H). Qed.

Lemma spread_pixel p : 0 <= p < 65536 →
  (p .| u32 (p .<< 16)) .& 0x07E0F81F = green p * 2 ^ 21 + red p * 2 ^ 11 + blue p.
Proof.
  intros Hp. apply Z.eqb_eq. revert p Hp.
  apply (all16 (λ p, (p .| u32 (p .<< 16)) .& 0x07E0F81F =? green p * 2 ^ 21 + red p * 2 ^ 11 + blue p)). vm_compute. reflexivity.
Qed.
Lemma low_channels v : 0 <= v < 65536 → v .& 0xF81F = v / 2048 * 2048 + v mod 32.
Proof.
  intros Hv. apply Z.eqb_eq. revert v Hv. apply (all16 (λ v, v .& 0xF81F =? v / 2048 * 2048 + v mod 32)). vm_compute. reflexivity.
Qed.
Lemma green_channel v : 0 <= v < 2048 → v .& 0x7E0 = v / 32 * 32.
Proof.
  intros Hv. assert (0 <= v < 65536) as Hv' by lia. revert Hv.
  enough ((2048 <=? v) || (v .& 0x7E0 =? v / 32 * 32) = true) as H by (intros ?; lia). revert v Hv'.
  apply (all16 (λ v, (2048 <=? v) || (v .& 0x7E0 =? v / 32 * 32))). vm_compute. reflexivity.
Qed.

(** The mask on a word of two halves. *)
Lemma mask_halves hi lo : 0 <= lo < 65536 → (hi * 65536 + lo) .& 0x07E0F81F = (hi .& 0x7E0) * 65536 + (lo .& 0xF81F).
Proof.
  intros Hlo. assert (∀ h l, 0 <= l < 65536 → h * 65536 + l = (h .<< 16) .| l) as Hcat.
  { intros h l Hl. rewrite (lor_concat h l 16) by (change (2 ^ 16) with 65536; lia). reflexivity. }
  rewrite Hcat by done. change 0x07E0F81F with ((0x7E0 .<< 16) .| 0xF81F). rewrite Hcat.
  2: { rewrite low_channels by done. zlia. }
  apply Z.bits_inj'. intros n Hn. rewrite Z.land_spec, !Z.lor_spec, Z.land_spec.
  destruct (Z_lt_le_dec n 16).
  - rewrite !(Z.shiftl_spec_low _ _ n) by lia. done.
  - assert (∀ x, 0 <= x < 65536 → Z.testbit x n = false) as Hz.
    { intros x Hx. destruct (decide (x = 0)) as [->|]; [apply Z.bits_0|]. apply Z.bits_above_log2; [lia|]. apply Z.log2_lt_pow2; [lia|].
      apply Z.lt_le_trans with (2 ^ 16); [lia|]. apply Z.pow_le_mono_r; lia. }
    rewrite (Hz lo Hlo), (Hz 0xF81F) by lia. cbn [andb]. rewrite !orb_false_r, !Z.shiftl_spec, Z.land_spec by lia. done.
Qed.

Lemma channel_bound c a n : 0 <= c < n → 0 <= a <= 32 → 0 <= c * a <= (n - 1) * 32.
Proof. nia. Qed.

(** Each channel of the dimmed pixel. *)
Lemma dim_rgb p a : 0 <= p < 65536 → 0 <= a <= 32 → dim p a = rgb565 (red p * a / 32) (green p * a / 32) (blue p * a / 32).
Proof.
  intros Hp Ha. unfold dim. rewrite spread_pixel by done.
  assert (0 <= red p < 32 ∧ 0 <= green p < 64 ∧ 0 <= blue p < 32) as (Hr & Hg & Hb) by (unfold red, green, blue; zlia).
  set (r := red p) in *. set (g := green p) in *. set (b := blue p) in *. clearbody r g b.
  pose proof (channel_bound r a 32 Hr Ha) as Hra. pose proof (channel_bound g a 64 Hg Ha) as Hga. pose proof (channel_bound b a 32 Hb Ha) as Hba.
  replace ((g * 2 ^ 21 + r * 2 ^ 11 + b) * a) with (g * a * 2097152 + r * a * 2048 + b * a) by (change (2 ^ 21) with 2097152; change (2 ^ 11) with 2048; ring).
  set (R := r * a) in *. set (G := g * a) in *. set (B := b * a) in *. clearbody R G B. cbv zeta.
  rewrite u32_id by (unfold word_ok; lia).
  assert ((G * 2097152 + R * 2048 + B) .>> 5 = G * 65536 + (R * 64 + B / 32)) as ->.
  { rewrite Z.shiftr_div_pow2 by done. change (2 ^ 5) with 32. zlia. }
  rewrite mask_halves by zlia. rewrite green_channel by lia. rewrite low_channels by zlia.
  replace ((R * 64 + B / 32) / 2048) with (R / 32) by zlia. replace ((R * 64 + B / 32) mod 32) with (B / 32) by zlia.
  assert (0 <= R / 32 < 32 ∧ 0 <= G / 32 < 64 ∧ 0 <= B / 32 < 32) as (Hr5 & Hg5 & Hb5) by zlia.
  set (r5 := R / 32) in *. set (g5 := G / 32) in *. set (b5 := B / 32) in *. clearbody r5 g5 b5. clear - Hr5 Hg5 Hb5. unfold rgb565.
  rewrite Z.shiftr_div_pow2 by done. change (2 ^ 16) with 65536.
  rewrite Z.div_add_l, (Z.div_small (r5 * 2048 + b5)), Z.add_0_r by lia.
  rewrite Z.land_lor_distr_l. change 0xFFFF with (2 ^ 16 - 1). rewrite !land_mod by done. change (2 ^ 16) with 65536.
  rewrite (Z.add_comm _ (r5 * 2048 + b5)), Z.mod_add, !Z.mod_small by lia.
  pose proof (lor_concat r5 b5 11 ltac:(lia) ltac:(change (2 ^ 11) with 2048; lia)) as H11.
  pose proof (lor_concat r5 (g5 * 32 + b5) 11 ltac:(lia) ltac:(change (2 ^ 11) with 2048; lia)) as H11'.
  pose proof (lor_concat g5 b5 5 ltac:(lia) ltac:(change (2 ^ 5) with 32; lia)) as H5.
  rewrite !Z.shiftl_mul_pow2 in * by lia. change (2 ^ 11) with 2048 in *. change (2 ^ 5) with 32 in *.
  rewrite <-H11, <-Z.lor_assoc, (Z.lor_comm b5), H5, H11'. lia.
Qed.

(** A word of two pixels, dimmed; at level 0 it is black. *)
Lemma dim_range p a : 0 <= p < 65536 → 0 <= a <= 32 → 0 <= dim p a < 65536.
Proof.
  intros Hp Ha. rewrite dim_rgb by done. unfold rgb565.
  assert (0 <= red p < 32 ∧ 0 <= green p < 64 ∧ 0 <= blue p < 32) as (Hr & Hg & Hb) by (unfold red, green, blue; zlia).
  pose proof (channel_bound (red p) a 32 Hr Ha). pose proof (channel_bound (green p) a 64 Hg Ha). pose proof (channel_bound (blue p) a 32 Hb Ha). zlia.
Qed.
Lemma half_pixels w : word_ok w → 0 <= w .& 0xFFFF < 65536 ∧ 0 <= w .>> 16 < 65536.
Proof.
  intros Hw. unfold word_ok in Hw. change 0xFFFF with (2 ^ 16 - 1). rewrite land_mod, Z.shiftr_div_pow2 by done. change (2 ^ 16) with 65536. zlia.
Qed.
Lemma dim2_halves w a : word_ok w → 0 <= a <= 32 → dim2 w a = dim (w .>> 16) a * 65536 + dim (w .& 0xFFFF) a.
Proof.
  intros Hw Ha. destruct (half_pixels w Hw) as [Hl Hh]. pose proof (dim_range _ a Hl Ha). pose proof (dim_range _ a Hh Ha).
  unfold dim2. rewrite u32_id by (rewrite Z.shiftl_mul_pow2 by done; change (2 ^ 16) with 65536; unfold word_ok; lia).
  rewrite Z.lor_comm, lor_concat by (change (2 ^ 16) with 65536; lia). reflexivity.
Qed.
Lemma dim2_ok w a : word_ok w → 0 <= a <= 32 → word_ok (dim2 w a).
Proof.
  intros Hw Ha. rewrite dim2_halves by done. destruct (half_pixels w Hw) as [Hl Hh].
  pose proof (dim_range _ a Hl Ha). pose proof (dim_range _ a Hh Ha). unfold word_ok. lia.
Qed.
Lemma dim2_black w : word_ok w → dim2 w 0 = 0.
Proof.
  intros Hw. rewrite dim2_halves by (done || lia). destruct (half_pixels w Hw) as [Hl Hh]. rewrite !dim_rgb by (done || lia).
  rewrite !Z.mul_0_r. reflexivity.
Qed.

(** ** What is on the screen

    The controller as src/docs/soc/lcd.md describes it.  A write of the frame buffer
    base waits for the commit strobe, a committed base for the next refresh; every
    status bit clears on read, so the first read after a commit may still report a
    refresh that began before it. *)
Record view := View {
  v_base : Z;   (* the base register *)
  v_next : Z;   (* the committed base: shown from the next refresh on *)
  v_cur : Z;    (* the base that may still be scanned out *)
  v_missed : Z  (* status reads since the commit that reported no refresh; -1: none yet *)
}.
Definition see (e : access) (v : view) : view :=
  match e with
  | Wr a x =>
      if a =? LCD LCD_RGB_BASE then View x (v_next v) (v_cur v) (v_missed v)
      else if (a =? LCD LCD_SOFT_CTRL) && nonzero (x .& SOFT_CTRL_COMMIT) then View (v_base v) (v_base v) (v_cur v) (-1)
      else v
  | Rd a x =>
      if negb (a =? LCD LCD_STATUS) then v
      else if v_missed v <? 0 then View (v_base v) (v_next v) (v_cur v) 0
      else if nonzero (x .& STATUS_REFRESH_START) then View (v_base v) (v_next v) (v_next v) (v_missed v)
      else View (v_base v) (v_next v) (v_cur v) (v_missed v + 1)
  end.
Fixpoint view_of (t : list access) : view :=
  match t with [] => View 0 0 0 0 | e :: t' => see e (view_of t') end.

(** The bus address of the display's DMA. *)
Definition dma (a : Z) : Z := a .& 0x0FFFFFFF.
(** A frame at [base] contains the byte [a]. *)
Definition scans (base a : Z) : Prop := base <= dma a < base + FB_BYTES.
(** The byte is in no frame that is or will be scanned out; a wait of
    FRAME_SPIN_LIMIT reads that saw no refresh leaves the old one undecided. *)
Definition unseen (v : view) (a : Z) : Prop :=
  ¬ scans (v_next v) a ∧ (¬ scans (v_cur v) a ∨ FRAME_SPIN_LIMIT <= v_missed v).
(** [fb] is committed, and shown unless the wait for the refresh gave up; a base
    of 0 is the controller before it is set up. *)
Definition screen (fb : Z) (v : view) : Prop :=
  v_next v = dma fb ∧ (v_cur v = dma fb ∨ v_cur v = 0 ∨ FRAME_SPIN_LIMIT <= v_missed v).

Lemma dma_ddr a : DDR_BASE <= a < DDR_END → dma a = a - DDR_BASE.
Proof.
  intros Ha. unfold dma. change 0x0FFFFFFF with (2 ^ 28 - 1). rewrite land_mod by done. change (2 ^ 28) with 268435456.
  unfold DDR_BASE, DDR_END in *. zlia.
Qed.

Section fade.
Context {D : Type} `{!Device D}.
Abbreviation St := (lcd D).

(** The word [i] of the framebuffer at [base]. *)
Definition fb_word (s : St) (base i : Z) : Z := le_join (mget_list (ram (l_mach s)) (base + 4 * i) 4).
Definition in_fb (base a : Z) : Prop := base <= a < base + FB_BYTES.
Definition a_fb (base : Z) : Prop := base = FB_ADDR ∨ base = FB_BACK_ADDR.

Lemma words_from_nth m a n i : 0 <= i < n → znth (words_from m a n) i = le_join (mget_list m (a + 4 * i) 4).
Proof.
  intros Hi. unfold znth, words_from. apply nth_lookup_Some. change (map ?f ?l) with (f <$> l).
  rewrite list_lookup_fmap, lookup_seqZ_lt by lia. by replace (0 + Z.of_nat (Z.to_nat i)) with i by lia.
Qed.
Lemma fb_word_ok (s : St) base i : word_ok (fb_word s base i).
Proof. exact (le_join_bound _ (mget_list_ok (ram (l_mach s)) (base + 4 * i) 4)). Qed.

(** A store to one of the first [n] words of the framebuffer at [base]. *)
Definition draws (base n : Z) (e : access) : Prop := ∃ i x, e = Wr (base + 4 * i) x ∧ 0 <= i < n.
(** Drawing [n] words changes exactly them. *)
Lemma fade_draw_loop frame base a n lo (s : St) :
  0 <= lo → DDR_BASE <= base → base + 4 * (lo + Z.of_nat n) <= DDR_END →
  (∀ i, lo <= i < lo + Z.of_nat n → word_ok (dim2 (znth frame i) a)) →
  let s' := snd (for_range lo n (λ i, put32 (base + 4 * i) (dim2 (znth frame i) a)) s) in
  (∃ evs, l_trace s' = evs ++ l_trace s ∧ Forall (draws base (lo + Z.of_nat n)) evs) ∧
  (∀ i, lo <= i < lo + Z.of_nat n → fb_word s' base i = dim2 (znth frame i) a) ∧
  ∀ x, ¬ (base + 4 * lo <= x < base + 4 * (lo + Z.of_nat n)) → mget (ram (l_mach s')) x = mget (ram (l_mach s)) x.
Proof.
  revert lo s. induction n as [|n IH]; intros lo s H0 Hlo Hhi Hw; cbn [for_range].
  { cbv zeta. split_and!; [by exists []|intros; lia|done]. }
  set (v := dim2 (znth frame lo) a). set (l := le_split 4 v).
  set (s1 := LcdSt (Machine (mset_list (ram (l_mach s)) (base + 4 * lo) l) (dev (l_mach s))) (shown s) (Wr (base + 4 * lo) v :: l_trace s)).
  assert (put32 (base + 4 * lo) v s = (tt, s1)) as H1.
  { unfold vput, wr, bus_write, mbind, M_bind. rewrite in_ddr_true by (unfold DDR_BASE, DDR_END in *; lia). reflexivity. }
  unfold mbind, M_bind. rewrite H1. destruct (IH (lo + 1) s1) as ((evs & He & Hf) & Hin & Hout); [lia|lia|lia|intros i Hi; apply Hw; lia|].
  cbv zeta. split_and!.
  - exists (evs ++ [Wr (base + 4 * lo) v]). split; [by rewrite <-app_assoc|]. apply list.Forall_app. split.
    + by replace (lo + Z.of_nat (Datatypes.S n)) with (lo + 1 + Z.of_nat n) by lia.
    + apply list.Forall_singleton. exists lo, v. split; [done|lia].
  - intros i Hi. destruct (decide (i = lo)) as [->|]; [|apply Hin; lia].
    unfold fb_word. rewrite (mget_list_ext _ (ram (l_mach s1)) _ 4) by (intros x Hx; apply Hout; lia).
    unfold s1. cbn [l_mach ram]. change 4%nat with (length l). rewrite mget_list_mset_list by apply le_split_ok.
    unfold l. rewrite le_join_split. apply Z.mod_small. apply Hw. lia.
  - intros x Hx. rewrite Hout by lia. unfold s1. cbn [l_mach ram]. apply mget_mset_list_out.
    change (zlen l) with 4. lia.
Qed.

Lemma fb_range base : a_fb base → DDR_BASE <= base ∧ base + FB_BYTES <= DDR_END.
Proof. intros [->| ->]; split; done. Qed.
Lemma fade_draw_spec frame base a (s : St) :
  a_fb base → 0 <= a <= 32 → (∀ i, 0 <= i < FB_BYTES / 4 → word_ok (znth frame i)) →
  let s' := snd (fade_draw frame base a s) in
  (∃ evs, l_trace s' = evs ++ l_trace s ∧ Forall (draws base (FB_BYTES / 4)) evs) ∧
  (∀ i, 0 <= i < FB_BYTES / 4 → fb_word s' base i = dim2 (znth frame i) a) ∧
  ∀ x, ¬ in_fb base x → mget (ram (l_mach s')) x = mget (ram (l_mach s)) x.
Proof.
  intros Hb Ha Hw. destruct (fb_range base Hb) as [Hlo Hhi]. change FB_BYTES with 768000 in *. unfold in_fb. change FB_BYTES with 768000.
  change (768000 / 4) with 192000 in *. unfold fade_draw, for_to. change (FB_BYTES / 4) with 192000.
  pose proof (fade_draw_loop frame base a (Z.to_nat 192000) 0 s) as H. rewrite Z2Nat.id in H by done.
  destruct H as (H1 & H2 & H3); [lia|lia|lia|intros i Hi; apply dim2_ok; [apply Hw; lia|done]|].
  cbv zeta. split_and!; [done|done|]. intros x Hx. apply H3. lia.
Qed.

(** *** The trace *)

(** What an access may do: a store to memory only where nothing is scanned out. *)
Definition hidden (v : view) (e : access) : Prop :=
  match e with Wr a _ => in_ddr a = true → unseen v a | Rd _ _ => True end.
(** Every access of [evs], after those of [t]. *)
Fixpoint all_hidden (evs t : list access) : Prop :=
  match evs with [] => True | e :: evs' => hidden (view_of (evs' ++ t)) e ∧ all_hidden evs' t end.
Lemma all_hidden_app evs evs' t : all_hidden evs (evs' ++ t) → all_hidden evs' t → all_hidden (evs ++ evs') t.
Proof. intros H H'. induction evs as [|e evs IH]; cbn in *; [done|]. destruct H as [He H]. rewrite <-app_assoc. auto. Qed.
Lemma all_hidden_at evs t post a x pre :
  all_hidden evs t → evs = post ++ Wr a x :: pre → in_ddr a = true → unseen (view_of (pre ++ t)) a.
Proof.
  intros H -> Ha. induction post as [|e post IH]; cbn in H; [by apply H|apply IH, H].
Qed.

Definition tearless (s s' : St) : Prop := ∃ evs, l_trace s' = evs ++ l_trace s ∧ all_hidden evs (l_trace s).
#[local] Instance tearless_preorder : PreOrder tearless.
Proof.
  split; [by exists []|]. intros s1 s2 s3 (e1 & H1 & Ha1) (e2 & H2 & Ha2). exists (e2 ++ e1).
  rewrite H2, H1. split; [by rewrite app_assoc|]. apply all_hidden_app; [by rewrite <-H1|done].
Qed.
(** An access to a register. *)
Lemma tearless_vput w a v : in_ddr a = false → steps tearless (vput w a v).
Proof. intros Ha s. exists [Wr a v]. split; [done|]. cbn. rewrite Ha. done. Qed.
Lemma tearless_vget w a : steps tearless (vget w a).
Proof. intros s. unfold vget, rd, mbind, M_bind. destruct (bus_read w a (machine_of s)) as [x m]. by exists [Rd a x]. Qed.

Definition same_ram (s s' : St) : Prop := ram (l_mach s') = ram (l_mach s).
#[local] Instance same_ram_preorder : PreOrder same_ram.
Proof. split; [done|]. intros ? ? ? H1 H2. unfold same_ram in *. congruence. Qed.
Lemma same_ram_vput w a v : in_ddr a = false → steps same_ram (vput w a v).
Proof. intros Ha. unfold vput. steps_walk ltac:(first [by apply steps_wr_dev|by intros ?]). Qed.
Lemma same_ram_vget w a : in_ddr a = false → steps same_ram (vget w a).
Proof. intros Ha. unfold vget. steps_walk ltac:(first [by apply steps_rd_dev|by intros ?]). Qed.

(** A read of the status. *)
Lemma get_status (s : St) : ∃ x, fst (get32 (LCD LCD_STATUS) s) = x ∧ l_trace (snd (get32 (LCD LCD_STATUS) s)) = Rd (LCD LCD_STATUS) x :: l_trace s.
Proof. unfold vget, rd, mbind, M_bind. destruct (bus_read _ _ (machine_of s)) as [x m]. by exists x. Qed.

(** The wait ends at the first refresh after the commit, or gives up. *)
Lemma spin_view n (s : St) b nx c m :
  view_of (l_trace s) = View b nx c m → 0 <= m →
  match iter_nat n (λ s, match (v ← get32 (LCD LCD_STATUS); mret (if nonzero (v .& STATUS_REFRESH_START) then Some tt else None)) s with
                         | (None, s') => inl s' | (Some a, s') => inr (a, s') end) s with
  | inl s' => view_of (l_trace s') = View b nx c (m + Z.of_nat n)
  | inr (_, s') => ∃ m', view_of (l_trace s') = View b nx nx m'
  end.
Proof.
  revert s m. induction n as [|n IH]; intros s m Hv Hm; cbn [iter_nat]; [by rewrite Z.add_0_r|].
  unfold mbind at 1, M_bind at 1. destruct (get_status s) as (x & Hx & Ht).
  destruct (get32 (LCD LCD_STATUS) s) as [x' s1]. cbn [fst snd] in Hx, Ht. subst x'.
  assert (view_of (l_trace s1) = if nonzero (x .& STATUS_REFRESH_START) then View b nx nx m else View b nx c (m + 1)) as Hv1.
  { rewrite Ht. cbn [view_of see]. rewrite Hv. cbn [v_base v_next v_cur v_missed]. rewrite Z.eqb_refl. by rewrite (proj2 (Z.ltb_ge m 0)) by lia. }
  cbn [mret M_ret]. unfold mret, M_ret. destruct (nonzero _); [by exists m|].
  apply IH in Hv1; [|lia]. replace (m + Z.of_nat (Datatypes.S n)) with (m + 1 + Z.of_nat n) by lia. exact Hv1.
Qed.
Lemma wait_view (s : St) b nx c :
  view_of (l_trace s) = View b nx c (-1) →
  let v := view_of (l_trace (snd (wait_refresh_start s))) in v_next v = nx ∧ (v_cur v = nx ∨ FRAME_SPIN_LIMIT <= v_missed v).
Proof.
  intros Hv. cbv zeta. destruct (get_status s) as (x & Hx & Ht).
  set (s1 := snd (get32 (LCD LCD_STATUS) s)) in *.
  assert (view_of (l_trace s1) = View b nx c 0) as Hv1 by (rewrite Ht; cbn [view_of see]; rewrite Hv; done).
  assert (snd (wait_refresh_start s) = snd (spin FRAME_SPIN_LIMIT
    (v ← get32 (LCD LCD_STATUS); mret (if nonzero (v .& STATUS_REFRESH_START) then Some tt else None)) s1)) as ->.
  { unfold wait_refresh_start, s1. unfold mbind at 1, M_bind at 1. destruct (get32 _ s) as [? s2]. cbn [snd].
    unfold mbind at 1, M_bind at 1. by destruct (spin _ _ s2). }
  unfold spin. rewrite iter_z_nat. pose proof (spin_view (Z.to_nat FRAME_SPIN_LIMIT) s1 b nx c 0 Hv1 ltac:(lia)) as H.
  destruct (iter_nat _ _ s1) as [s2|[[] s2]]; cbn [snd].
  - rewrite H. split; [done|right]. unfold v_missed. rewrite Z2Nat.id by done. lia.
  - destruct H as [m' ->]. split; [done|by left].
Qed.

Lemma flip_spec addr (s : St) :
  let s' := snd (lcd_flip addr s) in
  shown s' = addr ∧ ram (l_mach s') = ram (l_mach s) ∧ tearless s s' ∧
  let v := view_of (l_trace s') in v_next v = dma addr ∧ (v_cur v = dma addr ∨ FRAME_SPIN_LIMIT <= v_missed v).
Proof.
  cbv zeta. split; [|split; [|split]].
  - unfold lcd_flip, mbind, M_bind. destruct (put32 _ _ _) as [? ?]. destruct (put32 _ _ _) as [? ?]. by destruct (wait_refresh_start _).
  - assert (steps same_ram (lcd_flip addr)) as H; [|exact (H s)]. unfold lcd_flip, wait_refresh_start.
    steps_walk ltac:(first [by apply same_ram_vput|by apply same_ram_vget|by apply (steps_ret same_ram)|apply (steps_skip same_ram)|by intros ?]).
  - assert (steps tearless (lcd_flip addr)) as H; [|exact (H s)]. unfold lcd_flip, wait_refresh_start, set_shown.
    steps_walk ltac:(first [by apply tearless_vput|apply tearless_vget|by apply (steps_ret tearless)|apply (steps_skip tearless)|by intros ?; exists []]).
  - set (s1 := snd (put32 (LCD LCD_SOFT_CTRL) SOFT_CTRL_COMMIT (snd (put32 (LCD LCD_RGB_BASE) (dma addr) s)))).
    assert (l_trace (snd (lcd_flip addr s)) = l_trace (snd (wait_refresh_start s1))) as ->.
    { unfold lcd_flip. unfold mbind at 1, M_bind at 1. unfold s1, dma. destruct (put32 _ _ s) as [? s2]. cbn [snd].
      unfold mbind at 1, M_bind at 1. destruct (put32 _ _ s2) as [? s3]. cbn [snd]. unfold mbind, M_bind. by destruct (wait_refresh_start s3). }
    assert (view_of (l_trace s1) = View (dma addr) (dma addr) (v_cur (view_of (l_trace s))) (-1)) as Hv by reflexivity.
    by apply wait_view in Hv.
Qed.

(** [lcd_init] of a controller that shows nothing leaves the first framebuffer
    committed. *)
Lemma wp_vput w a x (Q : unit → St → Prop) s :
  (∀ s', view_of (l_trace s') = see (Wr a x) (view_of (l_trace s)) → shown s' = shown s → Q tt s') → wp (vput w a x) Q s.
Proof. intros H. by apply H. Qed.
Definition keeps_cur (s s' : St) : Prop := v_cur (view_of (l_trace s')) = v_cur (view_of (l_trace s)).
#[local] Instance keeps_cur_preorder : PreOrder keeps_cur.
Proof. split; [done|]. intros ? ? ? H1 H2. unfold keeps_cur in *. congruence. Qed.
Lemma keeps_cur_vput w a x : steps keeps_cur (vput w a x).
Proof.
  intros s. unfold keeps_cur. change (l_trace (snd (vput w a x s))) with (Wr a x :: l_trace s). cbn [view_of see].
  by destruct (a =? LCD LCD_RGB_BASE), (a =? LCD LCD_SOFT_CTRL), (nonzero (x .& SOFT_CTRL_COMMIT)).
Qed.
Lemma keeps_cur_vget w a : a ≠ LCD LCD_STATUS → steps keeps_cur (vget w a).
Proof.
  intros Ha s. unfold vget, note, modify, rd, mret, M_ret, mbind, M_bind. destruct (bus_read w a (machine_of s)) as [x m]. unfold keeps_cur. cbn [snd l_trace view_of see].
  by rewrite (proj2 (Z.eqb_neq a _)).
Qed.
Lemma lcd_init_screen (s : St) :
  v_cur (view_of (l_trace s)) = 0 →
  let s' := snd (lcd_init s) in shown s' = FB_ADDR ∧ screen FB_ADDR (view_of (l_trace s')).
Proof.
  intros Hc. assert (steps keeps_cur lcd_init) as Hk.
  { unfold lcd_init, lcd_init_divider, lcd_fill, lcd_backlight, set_shown.
    steps_walk ltac:(first [apply keeps_cur_vput|apply keeps_cur_vget; by vm_compute|by intros ?]). }
  specialize (Hk s). unfold keeps_cur in Hk. rewrite Hc in Hk.
  enough (wp lcd_init (λ _ s', shown s' = FB_ADDR ∧ v_next (view_of (l_trace s')) = dma FB_ADDR) s) as [H1 H2].
  { cbv zeta. split; [done|]. split; [done|]. by right; left. }
  clear Hk Hc. unfold lcd_init, lcd_init_divider, set_shown. change (lcd_backlight 100) with (put32 (SYSCTRL 0x2C) 0xFFFF0000).
  repeat (cbv zeta; lazymatch goal with
  | |- wp (mbind _ (vput W32 (LCD 20) _)) _ _ => fail
  | |- wp (mbind _ _) _ _ => apply wp_bind, wp_any; intros ? ?
  end).
  repeat (cbv beta; lazymatch goal with
  | |- wp (mbind _ (vput _ _ _)) _ _ => apply wp_bind, wp_vput; intros ? ? ?
  | |- wp (mbind _ (modify _)) _ _ => apply wp_bind, wp_modify
  end).
  apply wp_vput. intros ? ? ?. cbn [shown l_trace] in *. split; [congruence|].
  repeat match goal with H : view_of (l_trace ?s) = see _ _ |- context [view_of (l_trace ?s)] => rewrite H; clear H end.
  destruct (view_of _) as [b n c m]. reflexivity.
Qed.

(** The state after the first [k] steps. *)
Definition faded (k : Z) (s : St) : St :=
  snd (for_range 1 (Z.to_nat k) (fade_step (words_from (ram (l_mach s)) (shown s) (FB_BYTES / 4)) (fade_steps (shown s))) s).

Lemma for_range_last {S} lo n (body : Z → M S unit) s :
  snd (for_range lo (Datatypes.S n) body s) = snd (body (lo + Z.of_nat n) (snd (for_range lo n body s))).
Proof.
  revert lo s. induction n as [|n IH]; intros lo s.
  - cbn. unfold mbind, M_bind. rewrite Z.add_0_r. by destruct (body lo s).
  - cbn [for_range]. unfold mbind, M_bind. destruct (body lo s) as [u s1]. specialize (IH (lo + 1) s1). cbn [for_range] in IH.
    unfold mbind, M_bind in IH. rewrite IH. by replace (lo + 1 + Z.of_nat n) with (lo + Z.of_nat (Datatypes.S n)) by lia.
Qed.

Lemma base_a_fb steps k : a_fb (fade_base steps k).
Proof. unfold fade_base, a_fb. destruct (nonzero _); auto. Qed.
Lemma base_switches steps k : fade_base steps k ≠ fade_base steps (k + 1).
Proof.
  unfold fade_base, nonzero. destruct ((steps - k) mod 2 =? 0) eqn:E1, ((steps - (k + 1)) mod 2 =? 0) eqn:E2; cbn [negb]; try done; zlia.
Qed.
Lemma base_start from : a_fb from → fade_base (fade_steps from) 0 = from.
Proof. intros [->| ->]; reflexivity. Qed.
Lemma level_range steps k : 0 < steps → 0 <= k <= steps → 0 <= fade_level steps k <= 32.
Proof. intros Hs Hk. unfold fade_level. split; [apply Z.div_pos; lia|]. apply Z.div_le_upper_bound; nia. Qed.

(** Stores into one framebuffer, seen from the controller: nothing happens, and no
    frame is touched while the other framebuffer is on the screen. *)
Lemma draws_ddr base e : a_fb base → draws base (FB_BYTES / 4) e →
  ∃ a x, e = Wr a x ∧ DDR_BASE <= a < DDR_END ∧ in_fb base a.
Proof.
  intros Hb (i & x & -> & Hi). exists (base + 4 * i), x. destruct (fb_range base Hb) as [Hlo Hhi]. unfold in_fb.
  change (FB_BYTES / 4) with 192000 in Hi. change FB_BYTES with 768000 in *. split_and!; [done|lia..].
Qed.
Lemma draws_view base evs t : a_fb base → Forall (draws base (FB_BYTES / 4)) evs → view_of (evs ++ t) = view_of t.
Proof.
  intros Hb. induction 1 as [|e evs He _ IH]; [done|]. cbn [app view_of]. rewrite IH.
  destruct (draws_ddr base e Hb He) as (a & x & -> & Ha & _). cbn [see].
  rewrite !(proj2 (Z.eqb_neq a _)); [done|..]; unfold DDR_BASE, LCD, LCD_RGB_BASE, LCD_SOFT_CTRL in *; lia.
Qed.
Lemma other_unseen fb base a v : a_fb fb → a_fb base → fb ≠ base → screen fb v → in_fb base a → unseen v a.
Proof.
  intros Hf Hb Hne [Hn Hc] Ha. destruct (fb_range base Hb) as [Hlo Hhi].
  assert (dma a = a - DDR_BASE) as Hd by (apply dma_ddr; unfold in_fb in Ha; lia).
  assert (¬ scans (dma fb) a) as Hns.
  { unfold scans, in_fb in *. rewrite Hd. destruct Hf as [-> | ->], Hb as [-> | ->]; try done;
      [change (dma FB_ADDR) with 0x3B00000|change (dma FB_BACK_ADDR) with 0x3C00000];
      change FB_BYTES with 768000 in *; unfold FB_ADDR, FB_BACK_ADDR, DDR_BASE in *; lia. }
  split; [by rewrite Hn|]. destruct Hc as [->|[->|Hm]]; [by left| |by right]. left. unfold scans, in_fb in *. rewrite Hd.
  destruct Hb as [-> | ->]; change FB_BYTES with 768000 in *; unfold FB_ADDR, FB_BACK_ADDR, DDR_BASE in *; lia.
Qed.
Lemma draws_hidden fb base evs t :
  a_fb fb → a_fb base → fb ≠ base → screen fb (view_of t) → Forall (draws base (FB_BYTES / 4)) evs → all_hidden evs t.
Proof.
  intros Hf Hb Hne Hs. induction 1 as [|e evs He Hevs IH]; [done|]. split; [|exact IH]. rewrite (draws_view base) by done.
  destruct (draws_ddr base e Hb He) as (a & x & -> & _ & Ha). intros _. by apply (other_unseen fb base).
Qed.

(** One step: the buffer that is not on the screen gets the dimmed frame, and is shown. *)
Lemma fade_step_spec frame steps k fb (s : St) :
  0 < steps → 0 <= k <= steps → (∀ i, 0 <= i < FB_BYTES / 4 → word_ok (znth frame i)) →
  let base := fade_base steps k in
  let s' := snd (fade_step frame steps k s) in
  a_fb fb → fb ≠ base → screen fb (view_of (l_trace s)) →
  shown s' = base ∧ screen base (view_of (l_trace s')) ∧ tearless s s' ∧
  (∀ i, 0 <= i < FB_BYTES / 4 → fb_word s' base i = dim2 (znth frame i) (fade_level steps k)) ∧
  ∀ x, ¬ in_fb base x → mget (ram (l_mach s')) x = mget (ram (l_mach s)) x.
Proof.
  intros Hs Hk Hw base s' Hfb Hne Hsc. subst s'. pose proof (level_range steps k Hs Hk) as Hl.
  destruct (fade_draw_spec frame base (fade_level steps k) s (base_a_fb steps k) Hl Hw) as ((evs & He & Hf) & Hin & Hout).
  unfold fade_step, mbind, M_bind. fold base. destruct (fade_draw frame base _ s) as [? s1]. cbn [snd] in *.
  assert (tearless s s1) as Ht1.
  { exists evs. split; [done|]. by apply (draws_hidden fb base); [|apply base_a_fb|..]. }
  destruct (flip_spec base s1) as (H1 & H2 & Ht2 & Hn & Hc). split_and!; [done| |by etransitivity| |].
  - split; [done|]. destruct Hc as [Hc|Hc]; auto.
  - intros i Hi. unfold fb_word. rewrite H2. by apply Hin.
  - intros x Hx. rewrite H2. by apply Hout.
Qed.

Lemma steps_pos from : 1 <= fade_steps from.
Proof. unfold fade_steps. by destruct (_ =? _). Qed.
Lemma faded_succ k (s : St) : 1 <= k →
  faded k s = snd (fade_step (words_from (ram (l_mach s)) (shown s) (FB_BYTES / 4)) (fade_steps (shown s)) k (faded (k - 1) s)).
Proof.
  intros Hk. unfold faded. replace (Z.to_nat k) with (Datatypes.S (Z.to_nat (k - 1))) by lia. rewrite for_range_last.
  by replace (1 + Z.of_nat (Z.to_nat (k - 1))) with k by lia.
Qed.

(** The state of the screen after [k] steps. *)
Lemma faded_screen n (s : St) :
  a_fb (shown s) → screen (shown s) (view_of (l_trace s)) → Z.of_nat n <= fade_steps (shown s) →
  let k := Z.of_nat n in screen (fade_base (fade_steps (shown s)) k) (view_of (l_trace (faded k s))) ∧ tearless s (faded k s).
Proof.
  intros Hs Hsc. induction n as [|n IH]; intros Hn; cbv zeta.
  { change (faded 0 s) with s. rewrite base_start by done. done. }
  destruct IH as [Hsc1 Ht1]; [lia|]. rewrite faded_succ by lia. replace (Z.of_nat (Datatypes.S n) - 1) with (Z.of_nat n) by lia.
  destruct (fade_step_spec (words_from (ram (l_mach s)) (shown s) (FB_BYTES / 4)) (fade_steps (shown s)) (Z.of_nat (Datatypes.S n))
    (fade_base (fade_steps (shown s)) (Z.of_nat n)) (faded (Z.of_nat n) s)) as (_ & H1 & H2 & _); [lia|lia| |apply base_a_fb| |done|].
  - intros i Hi. rewrite words_from_nth by done. apply fb_word_ok.
  - pose proof (base_switches (fade_steps (shown s)) (Z.of_nat n)) as Hb. by replace (Z.of_nat n + 1) with (Z.of_nat (Datatypes.S n)) in Hb by lia.
  - split; [done|]. by etransitivity.
Qed.

(** The picture of step [k]. *)
Lemma fade_step_at k (s : St) :
  a_fb (shown s) → screen (shown s) (view_of (l_trace s)) → 1 <= k <= fade_steps (shown s) →
  let steps := fade_steps (shown s) in
  shown (faded k s) = fade_base steps k ∧
  (∀ i, 0 <= i < FB_BYTES / 4 → fb_word (faded k s) (fade_base steps k) i = dim2 (fb_word s (shown s) i) (fade_level steps k)) ∧
  ∀ x, ¬ in_fb (fade_base steps k) x → mget (ram (l_mach (faded k s))) x = mget (ram (l_mach (faded (k - 1) s))) x.
Proof.
  intros Hs Hsc Hk steps. destruct (faded_screen (Z.to_nat (k - 1)) s Hs Hsc) as [Hsc1 _]; [lia|]. rewrite Z2Nat.id in Hsc1 by lia.
  rewrite faded_succ by lia. fold steps in Hsc1 |- *. set (frame := words_from (ram (l_mach s)) (shown s) (FB_BYTES / 4)).
  assert (∀ i, 0 <= i < FB_BYTES / 4 → znth frame i = fb_word s (shown s) i) as Hf by (intros i Hi; by apply words_from_nth).
  destruct (fade_step_spec frame steps k (fade_base steps (k - 1)) (faded (k - 1) s)) as (H1 & _ & _ & Hin & Hout);
    [lia|unfold steps; lia| |apply base_a_fb| |done|].
  - intros i Hi. rewrite Hf by done. apply fb_word_ok.
  - pose proof (base_switches steps (k - 1)) as Hb. by replace (k - 1 + 1) with k in Hb by lia.
  - split; [done|]. split; [|exact Hout]. intros i Hi. rewrite Hin, Hf by done. done.
Qed.

(** Memory outside both framebuffers. *)
Lemma faded_frame n x (s : St) :
  a_fb (shown s) → screen (shown s) (view_of (l_trace s)) → Z.of_nat n <= fade_steps (shown s) →
  ¬ in_fb FB_ADDR x → ¬ in_fb FB_BACK_ADDR x → mget (ram (l_mach (faded (Z.of_nat n) s))) x = mget (ram (l_mach s)) x.
Proof.
  intros Hs Hsc Hn Hx1 Hx2. induction n as [|n IH]; [done|].
  destruct (fade_step_at (Z.of_nat (Datatypes.S n)) s Hs Hsc) as (_ & _ & H); [lia|].
  rewrite H; [replace (Z.of_nat (Datatypes.S n) - 1) with (Z.of_nat n) by lia; apply IH; lia|].
  by destruct (base_a_fb (fade_steps (shown s)) (Z.of_nat (Datatypes.S n))) as [->| ->].
Qed.

(** C22: the fade never stores into a frame that the controller scans out or will
    scan out next, and ends black on the first framebuffer.  What is scanned out is
    read off the register writes and status reads: at each store of the fade the byte
    is in no committed frame, and in no frame that may still be shown unless a wait
    saw no refresh in FRAME_SPIN_LIMIT reads.  After step [k] the committed base is that
    of the step, whose framebuffer holds the first picture dimmed, pixel by pixel, to
    the level of the step; at the end FB_ADDR is committed and holds zeros, and nothing
    outside the two framebuffers has changed.  The fade starts with the framebuffer
    [shown] committed and settled, as [lcd_init] and every flip leave it. *)
Theorem fade_out_tearless (s : St) :
  a_fb (shown s) → screen (shown s) (view_of (l_trace s)) →
  let steps := fade_steps (shown s) in
  let s' := snd (fade_out s) in
  (∃ evs, l_trace s' = evs ++ l_trace s ∧
    ∀ post a x pre, evs = post ++ Wr a x :: pre → in_ddr a = true → unseen (view_of (pre ++ l_trace s)) a) ∧
  s' = faded steps s ∧
  (∀ k, 1 <= k <= steps →
    screen (fade_base steps k) (view_of (l_trace (faded k s))) ∧
    (∀ i, 0 <= i < FB_BYTES / 4 → fb_word (faded k s) (fade_base steps k) i = dim2 (fb_word s (shown s) i) (fade_level steps k)) ∧
    ∀ x, ¬ in_fb (fade_base steps k) x → mget (ram (l_mach (faded k s))) x = mget (ram (l_mach (faded (k - 1) s))) x) ∧
  screen FB_ADDR (view_of (l_trace s')) ∧ shown s' = FB_ADDR ∧
  (∀ i, 0 <= i < FB_BYTES / 4 → fb_word s' FB_ADDR i = 0) ∧
  ∀ x, ¬ in_fb FB_ADDR x → ¬ in_fb FB_BACK_ADDR x → mget (ram (l_mach s')) x = mget (ram (l_mach s)) x.
Proof.
  intros Hs Hsc steps s'. assert (s' = faded steps s) as Hrun by reflexivity. clearbody s'. subst s'.
  pose proof (steps_pos (shown s)) as Hpos. fold steps in Hpos.
  assert (∀ k, 0 <= k <= steps → screen (fade_base steps k) (view_of (l_trace (faded k s))) ∧ tearless s (faded k s)) as Hall.
  { intros k Hk. pose proof (faded_screen (Z.to_nat k) s Hs Hsc) as H. rewrite Z2Nat.id in H by lia. apply H. fold steps. lia. }
  assert (fade_base steps steps = FB_ADDR) as Hlast by (unfold fade_base; by rewrite Z.sub_diag).
  destruct (fade_step_at steps s Hs Hsc) as (H1 & H2 & _); [fold steps; lia|]. fold steps in H1, H2. rewrite Hlast in H1, H2.
  destruct (Hall steps) as [Hend (evs & He & Hh)]; [lia|]. rewrite Hlast in Hend.
  split; [exists evs; split; [done|intros post a x pre; by apply all_hidden_at]|]. split; [done|]. split; [|split_and!; [done|done| |]].
  - intros k Hk. split; [apply Hall; lia|]. by apply fade_step_at.
  - intros i Hi. rewrite H2 by done. replace (fade_level steps steps) with 0 by (unfold fade_level; by rewrite Z.sub_diag, Z.mul_0_r, Z.div_0_l by lia).
    apply dim2_black, fb_word_ok.
  - intros x Hx1 Hx2. pose proof (faded_frame (Z.to_nat steps) x s Hs Hsc) as H. rewrite Z2Nat.id in H by lia. by apply H.
Qed.

(** Dimming with one multiplication is dimming each channel.  For every RGB565 pixel
    and every level up to 32, the spread form gives each of the three channels times
    the level over 32, rounded down. *)
Theorem dim_scales_channels p a : 0 <= p < 65536 → 0 <= a <= 32 →
  red (dim p a) = red p * a / 32 ∧ green (dim p a) = green p * a / 32 ∧ blue (dim p a) = blue p * a / 32.
Proof.
  intros Hp Ha. rewrite dim_rgb by done.
  assert (0 <= red p < 32 ∧ 0 <= green p < 64 ∧ 0 <= blue p < 32) as (Hr & Hg & Hb) by (unfold red, green, blue; zlia).
  pose proof (channel_bound (red p) a 32 Hr Ha). pose proof (channel_bound (green p) a 64 Hg Ha). pose proof (channel_bound (blue p) a 32 Hb Ha).
  set (r := red p * a) in *. set (g := green p * a) in *. set (b := blue p * a) in *. clearbody r g b. unfold red, green, blue, rgb565.
  assert (0 <= r / 32 < 32 ∧ 0 <= g / 32 < 64 ∧ 0 <= b / 32 < 32) as (? & ? & ?) by zlia.
  set (r5 := r / 32) in *. set (g5 := g / 32) in *. set (b5 := b / 32) in *. clearbody r5 g5 b5. split_and!.
  - symmetry. apply (Z.div_unique _ _ _ (g5 * 32 + b5)); lia.
  - rewrite <-(Z.div_unique (r5 * 2048 + g5 * 32 + b5) 32 (r5 * 64 + g5) b5) by lia. symmetry. apply (Z.mod_unique _ _ r5); lia.
  - symmetry. apply (Z.mod_unique _ _ (r5 * 64 + g5)); lia.
Qed.

(** ** The backlight *)

(** The register at a duty between: the halves add up to the period, and the high time
    is the percentage of it, rounded down. *)
Lemma lcd_backlight_duty percent (s : St) : 0 < percent < 100 →
  ∃ high low, lcd_backlight percent s = put32 (SYSCTRL 0x2C) (high * 65536 + low) s ∧
    high + low = BACKLIGHT_PERIOD ∧ 0 < high < 65536 ∧ 0 < low < 65536 ∧ high * 100 <= BACKLIGHT_PERIOD * percent < (high + 1) * 100.
Proof.
  intros Hp. unfold lcd_backlight, BACKLIGHT_PERIOD. replace (percent =? 0) with false by lia. replace (100 <=? percent) with false by lia.
  rewrite u32_id by (unfold word_ok; lia). exists (12000 * percent / 100), (12000 - 12000 * percent / 100).
  rewrite lor_concat by (change (2 ^ 16) with 65536; zlia). change (2 ^ 16) with 65536. split_and!; try done; zlia.
Qed.
End fade.

(** ** Examples *)

Section example.
#[local] Existing Instance null_device.
(** The second framebuffer, committed and shown. *)
Definition example_screen : lcd unit :=
  LcdSt (Machine ∅ tt) FB_BACK_ADDR
    [Rd (LCD LCD_STATUS) STATUS_REFRESH_START; Rd (LCD LCD_STATUS) 0; Wr (LCD LCD_SOFT_CTRL) SOFT_CTRL_COMMIT; Wr (LCD LCD_RGB_BASE) (dma FB_BACK_ADDR)].
Theorem fade_out_tearless_witness :
  a_fb (shown example_screen) ∧ screen (shown example_screen) (view_of (l_trace example_screen)) ∧
  shown (snd (fade_out example_screen)) = FB_ADDR.
Proof.
  assert (a_fb (shown example_screen)) as H1 by by right.
  assert (screen (shown example_screen) (view_of (l_trace example_screen))) as H2 by by split; [|left].
  split; [exact H1|]. split; [exact H2|]. destruct (fade_out_tearless example_screen H1 H2) as (_ & _ & _ & _ & H & _). exact H.
Defined.
Theorem dim_scales_channels_witness : red (dim 0xFFFF 30) = 29 ∧ green (dim 0xFFFF 30) = 59 ∧ blue (dim 0xFFFF 30) = 29.
Proof. refine (dim_scales_channels 0xFFFF 30 _ _); lia. Defined.
End example.
