(* ===== verification/Cardslot.v ===== *)
(** * Cardslot: the card that goes in and out ([src/baremetal/aipc-boot/card.c])

    The menu polls the slot: a card that goes in is mounted after a settle time, one
    that comes out is unmounted.  The state is that of the boot image, of the SD
    driver and of the storage layer; [f_mount] and [f_unmount] are FatFS. *)
From S2P Require Import Prelude Machine Soc Log Timer Partial Clock Sd Storage.

#[local] Existing Instance aipc_boot_log.

Definition SETTLE_MS : Z := 300.
Definition MOUNT_TRIES : Z := 3.
Definition MOUNT_RETRY_MS : Z := 200.

Inductive card_state := CARD_NONE | CARD_SETTLING | CARD_READY | CARD_ERROR.
#[export] Instance card_state_eq_dec : EqDecision card_state.
Proof. solve_decision. Defined.

Record slot (D V : Type) := Slot {
  c_boot : boot D; c_sd : sd_st; c_state : card_state; c_settle_end : Z; c_storage : storage_st; c_disk : disk_st; c_vol : V
}.
Arguments Slot {D V} _ _ _ _ _ _ _.
Arguments c_boot {D V} _.
Arguments c_sd {D V} _.
Arguments c_state {D V} _.
Arguments c_settle_end {D V} _.
Arguments c_storage {D V} _.
Arguments c_disk {D V} _.
Arguments c_vol {D V} _.

Section Cardslot.
Context {D V : Type} `{!Device D, !Storage.Card V}.
Abbreviation St := (slot D V).
Variable f_mount : (disk_st → V → Z * disk_st * V) → disk_st → V → Z * disk_st * V.
Variable f_unmount : V → V.
(** The fuel of a delay. *)
Variable fuel : nat.

Definition on_boot {A} (m : M (boot D) A) : M St A := λ s,
  let '(a, b) := m (c_boot s) in (a, Slot b (c_sd s) (c_state s) (c_settle_end s) (c_storage s) (c_disk s) (c_vol s)).
Definition on_bootp {A} (m : MO (boot D) A) : MO St A := λ s,
  match m (c_boot s) with
  | Some (a, b) => Some (a, Slot b (c_sd s) (c_state s) (c_settle_end s) (c_storage s) (c_disk s) (c_vol s))
  | None => None
  end.
(** The functions of sd.c, on the same machine. *)
Definition on_sd {A} (m : M (sd_image D) A) : M St A := λ s,
  let '(a, i) := m (SdImage (b_mach (c_boot s)) (c_sd s)) in
  (a, Slot (set_machine (sd_mach i) (c_boot s)) (sd_vars i) (c_state s) (c_settle_end s) (c_storage s) (c_disk s) (c_vol s)).
Definition do_mount : M St Z := λ s,
  let '(rc, st, d, v) := storage_mount f_mount (c_storage s) (c_disk s) (c_vol s) in
  (rc, Slot (c_boot s) (c_sd s) (c_state s) (c_settle_end s) st d v).
Definition do_unmount : M St unit := modify (λ s,
  Slot (c_boot s) (c_sd s) (c_state s) (c_settle_end s) (c_storage s) (c_disk s) (f_unmount (c_vol s))).
Definition set_state (c : card_state) : M St unit := modify (λ s,
  Slot (c_boot s) (c_sd s) c (c_settle_end s) (c_storage s) (c_disk s) (c_vol s)).
Definition set_settle_end (t : Z) : M St unit := modify (λ s,
  Slot (c_boot s) (c_sd s) (c_state s) t (c_storage s) (c_disk s) (c_vol s)).

(** The iterations of [mount] from [i] on, with the last result. *)
Fixpoint mount_loop (n : nat) (i rc : Z) : MO St unit :=
  match n with
  | O => lift (on_boot (log_puts (bytes_of "card: mount"));; on_boot (log_rc rc);; set_state CARD_ERROR)
  | S n' =>
      pwhen (nonzero i) (on_bootp (delay fuel MOUNT_RETRY_MS));;
      rc ← lift do_mount;
      if (rc : Z) =? 0 then lift (set_state CARD_READY) else mount_loop n' (i + 1) rc
  end.
Definition mount : MO St unit := mount_loop (Z.to_nat MOUNT_TRIES) 0 0.

Definition card_init : MO St Z :=
  was ← lift (gets c_state);
  present ← lift (on_sd sd_card_present);
  (if present : bool then mount else lift (set_state CARD_NONE));;
  now ← lift (gets c_state);
  mret (b2z (negb (bool_decide (now = was)))).

Definition card_poll : MO St Z :=
  present ← lift (on_sd sd_card_present);
  state ← lift (gets c_state);
  if negb (present : bool) then
    if bool_decide (state = CARD_NONE) then mret 0
    else lift do_unmount;; lift (set_state CARD_NONE);; mret 1
  else
    match (state : card_state) with
    | CARD_NONE =>
        lift (set_state CARD_SETTLING);;
        ms ← lift (on_boot timer_ms);
        lift (set_settle_end (u32 (ms + SETTLE_MS)));;
        mret 0
    | CARD_SETTLING =>
        settle_end ← lift (gets c_settle_end);
        ms ← lift (on_boot timer_ms);
        if 0 <? i32 (u32 (settle_end - ms)) then mret 0 else mount;; mret 1
    | _ => mret 0
    end.

Definition card_state_of : M St card_state := gets c_state.

(** [n] polls of the main loop. *)
Fixpoint polls (n : nat) : MO St unit := match n with O => mret tt | S n' => card_poll;; polls n' end.
End Cardslot.

(** ** What a poll reports *)

Section reports.
Context {D V : Type} `{!Device D, !Storage.Card V}.
Abbreviation St := (slot D V).
Context (f_mount : (disk_st → V → Z * disk_st * V) → disk_st → V → Z * disk_st * V) (f_unmount : V → V) (fuel : nat).

Lemma lift_run {S A} (m : M S A) s : lift m s = Some (m s).
Proof. reflexivity. Qed.
Lemma on_sd_state {A} (m : M (sd_image D) A) (s : St) :
  c_state (snd (on_sd m s)) = c_state s ∧ c_settle_end (snd (on_sd m s)) = c_settle_end s.
Proof. unfold on_sd. by destruct (m _). Qed.
Lemma on_boot_state {A} (m : M (boot D) A) (s : St) :
  c_state (snd (on_boot m s)) = c_state s ∧ c_settle_end (snd (on_boot m s)) = c_settle_end s.
Proof. unfold on_boot. by destruct (m _). Qed.

(** A mount that returns has decided. *)
Lemma mount_loop_decides n i rc (s : St) u s' :
  mount_loop f_mount fuel n i rc s = Some (u, s') → c_state s' = CARD_READY ∨ c_state s' = CARD_ERROR.
Proof.
  revert i rc s. induction n as [|n IH]; intros i rc s; cbn [mount_loop].
  - unfold lift, mbind, M_bind. destruct (on_boot _ s) as [? s1]. destruct (on_boot _ s1) as [? s2]. intros [= _ <-]. by right.
  - unfold mbind, MO_bind. destruct (pwhen _ _ s) as [[? s1]|]; [|done]. unfold lift at 1. destruct (do_mount f_mount s1) as [rc1 s2].
    destruct (rc1 =? 0); [|apply IH]. intros [= _ <-]. by left.
Qed.

(** What the poll answers is what the menu must redraw.  A poll that returns
    answers 1 exactly when the state became empty, ready or failed, and only a card
    that was settling is mounted; [card_init] never leaves a card settling and
    answers whether the state changed. *)
Theorem card_poll_reports (s : St) r s' :
  (card_poll f_mount f_unmount fuel s = Some (r, s') →
    r = b2z (bool_decide (c_state s' ≠ c_state s ∧ c_state s' ≠ CARD_SETTLING)) ∧
    (c_state s' ≠ c_state s → (c_state s' = CARD_READY ∨ c_state s' = CARD_ERROR) → c_state s = CARD_SETTLING)) ∧
  (card_init f_mount fuel s = Some (r, s') →
    r = b2z (bool_decide (c_state s' ≠ c_state s)) ∧ c_state s' ≠ CARD_SETTLING).
Proof.
  split.
  - unfold card_poll, mbind, MO_bind, lift, mret, MO_ret, gets. destruct (on_sd_state sd_card_present s) as [Hs _].
    destruct (on_sd sd_card_present s) as [present s1]. cbn [snd] in Hs. rewrite <-Hs. destruct present; cbn [negb].
    2: { destruct (bool_decide_reflect (c_state s1 = CARD_NONE)) as [E|E]; intros [= <- <-]; rewrite bool_decide_decide; cbn [c_state].
         - by rewrite decide_False by tauto.
         - cbn. rewrite decide_True by (split; congruence). split; [done|]. by intros _ [|]. }
    destruct (c_state s1) eqn:E.
    + unfold set_state, modify. match goal with |- context [on_boot timer_ms ?x] => destruct (on_boot_state timer_ms x) as [Ht _]; destruct (on_boot timer_ms x) as [ms s2] end. cbn [snd c_state] in Ht.
      intros [= <- <-]. unfold set_settle_end, modify. cbn [c_state snd]. rewrite Ht. split; [done|]. intros _ [|]; done.
    + destruct (on_boot_state timer_ms s1) as [Ht _]. destruct (on_boot timer_ms s1) as [ms s2]. cbn [snd] in Ht. destruct (0 <? _).
      * intros [= <- <-]. rewrite Ht, E. by split.
      * unfold mount. destruct (mount_loop _ _ _ _ _ s2) as [[u s3]|] eqn:Em; [|done]. intros [= <- <-].
        apply mount_loop_decides in Em. by destruct Em as [-> | ->].
    + intros [= <- <-]. rewrite E. split; [done|]. intros Hne; by destruct Hne.
    + intros [= <- <-]. rewrite E. split; [done|]. intros Hne; by destruct Hne.
  - unfold card_init, mbind, MO_bind, lift, mret, MO_ret, gets. destruct (on_sd_state sd_card_present s) as [Hs _].
    destruct (on_sd sd_card_present s) as [present s1]. cbn [snd] in Hs.
    assert (∀ s2 : St, negb (bool_decide (c_state s2 = c_state s)) = bool_decide (c_state s2 ≠ c_state s)) as Hb
      by (intros s2; by rewrite bool_decide_not).
    destruct present; [|intros [= <- <-]; cbn [c_state]; by rewrite <-bool_decide_not].
    unfold mount. destruct (mount_loop _ _ _ _ _ s1) as [[u s2]|] eqn:Em; [|done]. intros [= <- <-]. rewrite Hb. split; [done|].
    apply mount_loop_decides in Em. by destruct Em as [-> | ->].
Qed.
End reports.

(** ** A card that stays in is mounted *)

(** A slot with a card. *)
Class CardIn (D : Type) `{!Device D} := {
  in_cd d v d' : dev_read W32 GPIO1_IN d = (v, d') → v .& SD_CD_BIT = 0
}.

Section settles.
Context {D V : Type} `{!Device D, !Clock D, !StillClock D, !CardIn D, !Storage.Card V}.
Abbreviation St := (slot D V).
Context (f_mount : (disk_st → V → Z * disk_st * V) → disk_st → V → Z * disk_st * V) (f_unmount : V → V) (fuel : nat).

#[local] Existing Instance timeless_preorder.

(** The card is seen. *)
Lemma present_in (s : St) :
  ∃ b u, on_sd sd_card_present s = (true, Slot b u (c_state s) (c_settle_end s) (c_storage s) (c_disk s) (c_vol s)) ∧ timeless (c_boot s) b.
Proof.
  unfold on_sd, sd_card_present, reg_or, rmw, rd, wr, bus_read, bus_write, mbind, M_bind, mret, M_ret.
  change (in_ddr GPIO1_DIR) with false. change (in_ddr GPIO1_IN) with false. cbn [machine_of set_machine sd_machine sd_mach sd_vars].
  destruct (dev_read W32 GPIO1_DIR _) as [v d] eqn:E1. cbn [machine_of set_machine sd_machine sd_mach sd_vars dev ram].
  destruct (dev_read W32 GPIO1_IN _) as [v2 d2] eqn:E2. pose proof (in_cd _ _ _ E2) as Hv.
  apply still_read in E1; [|done]. apply still_read in E2; [|done]. rewrite still_write in E2.
  exists (set_machine (Machine (ram (b_mach (c_boot s))) d2) (c_boot s)), (c_sd s).
  split; [|split; [reflexivity|cbn [b_mach set_machine boot_machine dev]; congruence]].
  cbn [wtrunc sd_mach sd_vars]. f_equal. apply Z.eqb_eq. unfold u32, SD_CD_BIT in *. change (1 .<< 13) with (2 ^ 13) in *.
  apply Z.bits_inj'. intros n Hn. rewrite Z.land_spec, Z.bits_0, Z.pow2_bits_eqb by done. destruct (Z.eqb_spec 13 n) as [<-|]; [|apply andb_false_r].
  change 4294967296 with (2 ^ 32). rewrite Z.mod_pow2_bits_low by done. rewrite andb_true_r.
  apply (f_equal (λ x, Z.testbit x 13)) in Hv. by rewrite Z.land_spec, Z.pow2_bits_true, andb_true_r, Z.bits_0 in Hv by done.
Qed.

(** A mount that has the fuel for its delays returns. *)
Lemma mount_loop_returns t0 n i rc (s : St) :
  in_time t0 (c_boot s) → 12000 * (MOUNT_RETRY_MS + 1) < Z.of_nat fuel →
  ticks t0 (c_boot s) + (Z.of_nat n + 1) * ((Z.of_nat fuel + 2) * 67108864) < 18446673704965373952 →
  ∃ s', mount_loop f_mount fuel n i rc s = Some (tt, s') ∧ in_time t0 (c_boot s') ∧ ticks t0 (c_boot s) <= ticks t0 (c_boot s').
Proof.
  revert i rc s. induction n as [|n IH]; intros i rc s Hs Hf Hmax; cbn [mount_loop].
  - unfold lift, mbind, M_bind. set (b1 := snd (log_puts (bytes_of "card: mount") (c_boot s))). set (b2 := snd (log_rc rc b1)).
    assert (timeless (c_boot s) b2) as Hb.
    { etransitivity; [exact (timeless_puts (bytes_of "card: mount") (c_boot s))|]. exact (timeless_puts (rc_text rc) b1). }
    destruct (timeless_in_time t0 _ _ Hb Hs) as [H1 H2]. exists (Slot b2 (c_sd s) CARD_ERROR (c_settle_end s) (c_storage s) (c_disk s) (c_vol s)).
    split; [|cbn [c_boot]; split; [done|lia]]. unfold on_boot. subst b2 b1. destruct (log_puts _ (c_boot s)) as [? b1]. cbn [snd c_boot].
    by destruct (log_rc rc b1).
  - assert (∃ s1, pwhen (nonzero i) (on_bootp (delay fuel MOUNT_RETRY_MS)) s = Some (tt, s1) ∧ in_time t0 (c_boot s1) ∧
      ticks t0 (c_boot s) <= ticks t0 (c_boot s1) <= ticks t0 (c_boot s) + (Z.of_nat fuel + 1) * 67108864) as (s1 & H1 & Hin1 & Ht1).
    { destruct (nonzero i); cbn [pwhen].
      - destruct (delay_returns fuel t0 MOUNT_RETRY_MS (c_boot s) Hs) as (b & Hb & Hin & Ht); [done|done|lia|]. unfold on_bootp. rewrite Hb.
        eexists. split; [reflexivity|]. done.
      - exists s. split; [done|]. split; [done|lia]. }
    unfold mbind, MO_bind. rewrite H1. unfold lift at 1. destruct (do_mount f_mount s1) as [rc1 s2] eqn:E.
    assert (c_boot s2 = c_boot s1) as Hb2 by (unfold do_mount in E; destruct (storage_mount _ _ _ _) as [[[? ?] ?] ?]; by injection E as _ <-).
    destruct (rc1 =? 0).
    + eexists. split; [reflexivity|]. cbn [c_boot]. rewrite Hb2. split; [done|lia].
    + destruct (IH (i + 1) rc1 s2) as (s3 & H3 & Hin3 & Ht3); [by rewrite Hb2|done|rewrite Hb2; lia|].
      exists s3. rewrite Hb2 in Ht3. split_and!; [done|done|lia].
Qed.

Lemma settle_left x y : -2147483648 <= x + SETTLE_MS - y < 2147483648 → i32 (u32 (u32 (u32 x + SETTLE_MS) - u32 y)) = x + SETTLE_MS - y.
Proof.
  intros Hr. unfold u32. rewrite Zplus_mod_idemp_l, <-Zminus_mod. set (d := x + SETTLE_MS - y) in *. clearbody d.
  unfold i32. destruct (Z_lt_le_dec d 0).
  - replace (d mod 4294967296) with (d + 4294967296) by (apply (Z.mod_unique _ _ (-1)); lia).
    unfold u32. rewrite (Z.mod_small (d + _)) by lia. destruct (_ <? _) eqn:E; lia.
  - rewrite (Z.mod_small d) by lia. unfold u32. rewrite Z.mod_small by lia. destruct (_ <? _) eqn:E; lia.
Qed.

(** A settling card whose arrival was seen at tick [a], at a later time. *)
Definition settling (t0 a : Z) (s : St) : Prop :=
  c_state s = CARD_SETTLING ∧ c_settle_end s = u32 (u32 (a / TICKS_PER_MS) + SETTLE_MS) ∧
  in_time t0 (c_boot s) ∧ 0 <= a <= ticks t0 (c_boot s) ∧ ticks t0 (c_boot s) / TICKS_PER_MS - a / TICKS_PER_MS < SETTLE_MS.
Definition decided (s : St) : Prop := c_state s = CARD_READY ∨ c_state s = CARD_ERROR.
Definition long_after (a : Z) : Z := a + 12000 * (SETTLE_MS + 5594) + 5 * ((Z.of_nat fuel + 2) * 67108864).

(** A poll of a settling card waits or mounts. *)
Lemma poll_settling t0 a (s : St) :
  settling t0 a s → long_after a < 18446673704965373952 → 12000 * (MOUNT_RETRY_MS + 1) < Z.of_nat fuel →
  ∃ r s', card_poll f_mount f_unmount fuel s = Some (r, s') ∧
    ((settling t0 a s' ∧ ticks t0 (c_boot s) < ticks t0 (c_boot s')) ∨
     (decided s' ∧ SETTLE_MS <= ticks t0 (c_boot s') / TICKS_PER_MS - a / TICKS_PER_MS)).
Proof.
  intros (Hs & He & Hin & Ha & Hd) Hmax Hf. unfold long_after, SETTLE_MS, TICKS_PER_MS in *.
  destruct (present_in s) as (b & u & H1 & Hb). destruct (timeless_in_time t0 _ _ Hb Hin) as [Hinb Htb].
  destruct (timer_ms_clock t0 b Hinb) as (b2 & H2 & Hin2 & Ht2); [zlia|].
  assert (ticks t0 b2 / 12000 <= ticks t0 b / 12000 + 5593 ∧ ticks t0 b / 12000 <= ticks t0 b2 / 12000) as Hstep by (pose proof (ms_between (ticks t0 b) (ticks t0 b2)); lia).
  assert (a / 12000 <= ticks t0 b / 12000) as Hle by (apply Z.div_le_mono; lia). rewrite Htb in *.
  set (s2 := Slot b2 u (c_state s) (c_settle_end s) (c_storage s) (c_disk s) (c_vol s)).
  assert (card_poll f_mount f_unmount fuel s =
    if 0 <? i32 (u32 (c_settle_end s - u32 (ticks t0 b2 / 12000))) then Some (0, s2) else (mount f_mount fuel;; mret 1) s2) as ->.
  { unfold card_poll, mbind, MO_bind, lift, gets, mret, MO_ret. rewrite H1. cbn [negb c_state c_settle_end]. rewrite Hs.
    unfold on_boot. cbn [c_boot]. rewrite H2. cbn [c_sd c_state c_settle_end c_storage c_disk c_vol]. subst s2. rewrite Hs. by destruct (_ <? _). }
  rewrite He. change 300 with SETTLE_MS. pose proof (settle_left (a / 12000) (ticks t0 b2 / 12000)) as ->; [|unfold SETTLE_MS; lia]. unfold SETTLE_MS.
  destruct (0 <? _) eqn:E.
  - exists 0, s2. split; [done|]. left. unfold settling, SETTLE_MS, TICKS_PER_MS, s2. cbn [c_state c_settle_end c_boot]. split_and!; try done; lia.
  - destruct (mount_loop_returns t0 (Z.to_nat MOUNT_TRIES) 0 0 s2) as (s3 & H3 & Hin3 & Ht3); [done|done| |].
    { unfold s2. cbn [c_boot]. change (Z.of_nat (Z.to_nat MOUNT_TRIES)) with 3. zlia. }
    exists 1, s3. unfold mbind, MO_bind. unfold mount. rewrite H3. split; [done|]. right. split; [by eapply mount_loop_decides|].
    unfold s2 in Ht3. cbn [c_boot] in Ht3. assert (ticks t0 b2 / 12000 <= ticks t0 (c_boot s3) / 12000) by (apply Z.div_le_mono; lia). lia.
Qed.
Lemma polls_S n (s : St) r s1 : card_poll f_mount f_unmount fuel s = Some (r, s1) →
  polls f_mount f_unmount fuel (S n) s = polls f_mount f_unmount fuel n s1.
Proof. intros Hp. cbn [polls]. unfold mbind, MO_bind. by rewrite Hp. Qed.
Lemma polls_settle t0 a n (s : St) :
  settling t0 a s → long_after a < 18446673704965373952 → 12000 * (MOUNT_RETRY_MS + 1) < Z.of_nat fuel →
  12000 * (SETTLE_MS + 1) + a - ticks t0 (c_boot s) < Z.of_nat n →
  ∃ m s', (m <= n)%nat ∧ polls f_mount f_unmount fuel m s = Some (tt, s') ∧ decided s' ∧
    SETTLE_MS <= ticks t0 (c_boot s') / TICKS_PER_MS - a / TICKS_PER_MS.
Proof.
  revert s. induction n as [|n IH]; intros s Hs Hmax Hf Hn.
  { exfalso. destruct Hs as (_ & _ & _ & Ha & Hd). unfold SETTLE_MS, TICKS_PER_MS in *. zlia. }
  destruct (poll_settling t0 a s Hs Hmax Hf) as (r & s1 & H1 & [[Hs1 Ht]|[Hd He]]).
  - destruct (IH s1 Hs1 Hmax Hf ltac:(lia)) as (m & s2 & Hm & H2 & Hd & He). exists (S m), s2. rewrite (polls_S _ _ _ _ H1). split_and!; [lia|done|done|done].
  - exists 1%nat, s1. rewrite (polls_S 0 _ _ _ H1). split_and!; [lia|done|done|done].
Qed.

(** C21: a card that goes in and stays in becomes ready or failed.  On a running clock
    and with fuel for the delays between the tries, the first poll sees the card and
    lets it settle, and at most 3612001 further polls, each of which takes at least one
    tick of the timer, mount it or give up; not before the millisecond counter has
    advanced by 300 since the card was seen, which is more than 299 ms of time. *)
Theorem card_settles t0 (s : St) :
  c_state s = CARD_NONE → in_time t0 (c_boot s) → 12000 * (MOUNT_RETRY_MS + 1) < Z.of_nat fuel →
  ticks t0 (c_boot s) + 6 * ((Z.of_nat fuel + 6000) * 67108864) < 18446673704965373952 →
  ∃ s1 n s', card_poll f_mount f_unmount fuel s = Some (0, s1) ∧ c_state s1 = CARD_SETTLING ∧
    Z.of_nat n <= 3612001 ∧ polls f_mount f_unmount fuel n s1 = Some (tt, s') ∧ decided s' ∧
    SETTLE_MS <= ticks t0 (c_boot s') / TICKS_PER_MS - ticks t0 (c_boot s1) / TICKS_PER_MS ∧
    12000 * (SETTLE_MS - 1) < ticks t0 (c_boot s') - ticks t0 (c_boot s1).
Proof.
  intros Hs Hin Hf Hmax. destruct (present_in s) as (b & u & H1 & Hb). destruct (timeless_in_time t0 _ _ Hb Hin) as [Hinb Htb].
  assert (0 <= ticks t0 (c_boot s)) as Hpos by (destruct Hin; unfold ticks; lia).
  destruct (timer_ms_clock t0 b Hinb) as (b2 & H2 & Hin2 & Ht2); [lia|].
  set (s1 := Slot b2 u CARD_SETTLING (u32 (u32 (ticks t0 b2 / TICKS_PER_MS) + SETTLE_MS)) (c_storage s) (c_disk s) (c_vol s)).
  assert (card_poll f_mount f_unmount fuel s = Some (0, s1)) as Hpoll.
  { unfold card_poll, mbind, MO_bind, lift, gets, mret, MO_ret. rewrite H1. cbn [negb c_state]. rewrite Hs. unfold set_state, modify, on_boot. cbn [c_boot].
    rewrite H2. reflexivity. }
  destruct (polls_settle t0 (ticks t0 b2) (Z.to_nat 3612001) s1) as (m & s' & Hm & H3 & Hd & He).
  - unfold settling, s1. cbn [c_state c_settle_end c_boot]. split_and!; try done; unfold SETTLE_MS; lia.
  - unfold long_after, SETTLE_MS. lia.
  - done.
  - rewrite Z2Nat.id by done. unfold s1, SETTLE_MS. cbn [c_boot]. lia.
  - exists s1, m, s'. split_and!; try done; [lia|]. unfold s1. cbn [c_boot]. unfold SETTLE_MS, TICKS_PER_MS in *. zlia.
Qed.
End settles.

(** ** Examples *)

(** A card in the slot of the ticking machine, which FatFS mounts. *)
#[export] Instance ticker_card_in : CardIn ticker.
Proof. split. intros d v d' He. cbn in He. by injection He as <- <-. Defined.
Definition no_blocks : Storage.Card unit := {|
  Storage.sd_init v := (0, v); Storage.sd_high_speed v := (0, v); Storage.sd_read_block _ v := (0, [], v);
  Storage.sd_write_block _ _ v := (0, v); Storage.sd_read_blocks _ _ v := (0, [], v) |}.
#[local] Existing Instance no_blocks.
Definition example_slot (c : card_state) : slot ticker unit :=
  Slot ticker_boot (SdSt false false 0 (PinSave 0 0 0 0 false)) c 0 (StorageSt false [] false) (DiskSt false []) tt.
Definition example_mount (init : disk_st → unit → Z * disk_st * unit) (d : disk_st) (v : unit) : Z * disk_st * unit := init d v.

Definition example_fuel : nat := Z.to_nat 2500000.
Lemma example_fuel_val : Z.of_nat example_fuel = 2500000.
Proof. unfold example_fuel. by rewrite Z2Nat.id. Qed.
#[local] Opaque example_fuel.
Lemma fuel_enough : 12000 * (MOUNT_RETRY_MS + 1) < Z.of_nat example_fuel.
Proof. by rewrite example_fuel_val. Qed.
Lemma example_in_time : in_time 0 (c_boot (example_slot CARD_NONE)).
Proof. split; done. Qed.
Lemma time_enough :
  ticks 0 (c_boot (example_slot CARD_NONE)) + 6 * ((Z.of_nat example_fuel + 6000) * 67108864) < 18446673704965373952.
Proof. by rewrite example_fuel_val. Qed.
Theorem card_settles_witness :
  ∃ s1 n s', card_poll example_mount id example_fuel (example_slot CARD_NONE) = Some (0, s1) ∧ c_state s1 = CARD_SETTLING ∧
    Z.of_nat n <= 3612001 ∧ polls example_mount id example_fuel n s1 = Some (tt, s') ∧ decided s' ∧
    SETTLE_MS <= ticks 0 (c_boot s') / TICKS_PER_MS - ticks 0 (c_boot s1) / TICKS_PER_MS ∧
    12000 * (SETTLE_MS - 1) < ticks 0 (c_boot s') - ticks 0 (c_boot s1).
Proof.
  exact (card_settles example_mount id example_fuel 0 (example_slot CARD_NONE) eq_refl example_in_time fuel_enough time_enough).
Defined.
Lemma example_poll : ∃ s', card_poll example_mount id 0 (example_slot CARD_NONE) = Some (0, s').
Proof. eexists. vm_compute. reflexivity. Qed.
Theorem card_poll_reports_witness :
  ∃ s', card_poll example_mount id 0 (example_slot CARD_NONE) = Some (0, s') ∧
    0 = b2z (bool_decide (c_state s' ≠ c_state (example_slot CARD_NONE) ∧ c_state s' ≠ CARD_SETTLING)).
Proof.
  destruct example_poll as [s' Hs']. exists s'. split; [exact Hs'|].
  exact (proj1 (proj1 (card_poll_reports example_mount id 0 (example_slot CARD_NONE) 0 s') Hs')).
Defined.
