(* ===== verification/Boot.v ===== *)
(** * Boot: starting Linux, WinCE and payloads ([src/baremetal/aipc-boot/boot.c])

    The preparations before the caches go off and a payload is entered: the ATAG list
    of a Linux kernel, the EBOOT from NAND and the custom firmware that patches it.
    The entries themselves ([jump_payload], [jump_linux], [handoff_eboot]) and
    [mmu_cache_disable] are assembly; the firmware image is linked by another build and
    is a list of bytes here, its entry [eboot_stage] an argument. *)
From S2P Require Import Prelude Machine Soc Log Timer Ini Settings Nand Sd Components.

#[local] Existing Instance aipc_boot_log.

Definition IMAGE_BASE : Z := 0x33000000.
Definition ZIMAGE_DST : Z := 0x30008000.
Definition ZIMAGE_MAX : Z := IMAGE_BASE - ZIMAGE_DST.
Definition ATAGS_ADDR : Z := 0x30000100.
Definition ATAG_CORE : Z := 0x54410001.
Definition ATAG_CMDLINE : Z := 0x54410009.
Definition EBOOT_DST : Z := 0x30037FD4.
Definition EBOOT_BYTES : Z := 0x00064000.
Definition EBOOT_CODE : Z := EBOOT_DST + 0x2C.
Definition BOOT_ECFW : Z := -20.
Definition CFW_PHYS : Z := 0x30190000.
Definition CFW_MAX : Z := 0x0000A000.

(** ** The ATAG list *)

Definition align4 (n : Z) : Z := u32 (n + 3) .& not32 3.
Definition put_word (a v : Z) (m : mem) : mem := mset_list m a (le_split 4 v).
(** [memset] and [memcpy] *)
Definition set_bytes (a v n : Z) (m : mem) : mem := mset_list m a (replicate (Z.to_nat n) v).

Definition build_atags (cmdline : list Z) (m : mem) : Z * mem :=
  let t := ATAGS_ADDR in
  let len := zlen cmdline + 1 in
  let m := put_word t 2 m in
  let m := put_word (t + 4) ATAG_CORE m in
  let m := put_word (t + 8) (2 + u32 (len + 3) / 4) m in
  let m := put_word (t + 12) ATAG_CMDLINE m in
  let t := t + 16 in
  let m := set_bytes t 0 (align4 len) m in
  let m := mset_list m t (cmdline ++ [0]) in
  let t := t + 4 * (u32 (len + 3) / 4) in
  let m := put_word t 0 m in
  let m := put_word (t + 4) 0 m in
  (ATAGS_ADDR, m).

(** ** The firmware image *)

Section Cfwimage.
(** The bytes from [cfw_start] to [cfw_end], and the settings. *)
Variable cfw_image : list Z.
Variable ks : list key.

Definition img32 (off : Z) : Z := le_join [znth cfw_image off; znth cfw_image (off + 1); znth cfw_image (off + 2); znth cfw_image (off + 3)].
(** The offset in the image of what a pointer of the image points to. *)
Definition cfw_blob_ptr (p : Z) : Z := p - CFW_PHYS.
Definition cfw_component_count : Z := img32 4.
Definition cfw_component (i : Z) : Z := cfw_blob_ptr (img32 (cfw_blob_ptr (img32 8) + 4 * i)).
(** The fields of the [cfw_component_info] at an offset. *)
Fixpoint c_string (l : list Z) : list Z := match l with [] => [] | c :: l' => if c =? 0 then [] else c :: c_string l' end.
Definition info_id (c : Z) : list Z := c_string (drop (Z.to_nat c) cfw_image).
Definition info_flags (c : Z) : Z := img32 (c + 224).

Definition cfw_component_on (c : Z) : Z :=
  let on := settings_cfw (info_id c) ks in
  if on <? 0 then b2z (nonzero (info_flags c .& CFW_DEFAULT_ON)) else on.

Fixpoint mask_loop (n : nat) (i mask : Z) : Z :=
  match n with
  | O => mask
  | S n' => mask_loop n' (i + 1) (if nonzero (cfw_component_on (cfw_component i)) then mask .| u32 (1 .<< i) else mask)
  end.
Definition cfw_mask : Z := mask_loop (Z.to_nat cfw_component_count) 0 0.

Fixpoint held_loop (n : nat) (i : Z) : Z :=
  match n with
  | O => 0
  | S n' =>
      if str_eq (info_id (cfw_component i)) (bytes_of "power_hold") then cfw_component_on (cfw_component i) else held_loop n' (i + 1)
  end.
Definition wince_power_held (cfw : bool) : Z := if cfw then held_loop (Z.to_nat cfw_component_count) 0 else 0.
End Cfwimage.

(** ** WinCE *)

Record host (D : Type) := Host { h_boot : boot D; h_sd : sd_st; cfw_message : list Z }.
Arguments Host {D} _ _ _.
Arguments h_boot {D} _.
Arguments h_sd {D} _.
Arguments cfw_message {D} _.

Record eboot_args := EbootArgs { a_code : Z; a_bytes : Z; a_enable : Z }.

Section Boot.
Context {D : Type} `{!Device D}.
Abbreviation St := (host D).
Context {locals : NandLocals}.
Variables (cfw_image : list Z) (ks : list key).
(** The entry of the image: the status and the message, and what it did to the machine. *)
Variable eboot_stage : eboot_args → M (machine D) (Z * list Z).

Definition on_host {A} (m : M (boot D) A) : M St A := λ s,
  let '(a, b) := m (h_boot s) in (a, Host b (h_sd s) (cfw_message s)).
Definition on_sdcard {A} (m : M (sd_image D) A) : M St A := λ s,
  let '(a, i) := m (SdImage (b_mach (h_boot s)) (h_sd s)) in
  (a, Host (set_machine (sd_mach i) (h_boot s)) (sd_vars i) (cfw_message s)).
Definition on_machine {A} (m : M (machine D) A) : M St A := λ s,
  let '(a, mc) := m (b_mach (h_boot s)) in (a, Host (set_machine mc (h_boot s)) (h_sd s) (cfw_message s)).
Definition set_message (l : list Z) : M St unit := modify (λ s, Host (h_boot s) (h_sd s) l).

Definition quiesce : M St unit := on_host timer_stop.

Definition cfw_install : M St unit := on_machine (λ m, (tt, Machine (mset_list (ram m) CFW_PHYS cfw_image) (dev m))).

Definition cfw_eboot_stage : M St Z :=
  cfw_install;;
  r ← on_machine (eboot_stage (EbootArgs EBOOT_CODE (EBOOT_BYTES - 0x2C) (cfw_mask cfw_image ks)));
  let '(status, message) := (r : Z * list Z) in
  if nonzero status then
    on_host (log_puts (bytes_of "cfw: "));;
    on_host (log_puts (c_string message));;
    on_host (log_putc 10);;
    set_message (take 95 message ++ [0]);;
    mret BOOT_ECFW
  else mret 0.

Definition wince_prepare (cfw : bool) : M St Z :=
  on_sdcard sd_release_pins;;
  on_host nf_hw_init;;
  on_host nand_init;;
  rc ← on_host nand_probe_geometry;
  if nonzero rc then
    on_host (log_puts (bytes_of "nand: geometry"));;
    on_host (log_rc rc);;
    mret rc
  else
    rc ← on_host (nand_load_image EBOOT_DST IPL_START_BLOCK EBOOT_BYTES);
    if nonzero rc then
      on_host (log_puts (bytes_of "nand: eboot load"));;
      on_host (log_rc rc);;
      mret rc
    else if cfw then cfw_eboot_stage else mret 0.

(** Up to the hand-off in assembly. *)
Definition wince_enter : M St unit := on_host (log_puts (bytes_of "eboot: entering" ++ [10]));; quiesce.
Definition boot_jump : M St unit := on_host (log_puts (bytes_of "payload: entering" ++ [10]));; quiesce.
End Boot.

(** ** What Linux finds

    The kernel walks the list from tag to tag, by their sizes in words, up to a tag of
    size 0. *)
Definition word_of (m : mem) (a : Z) : Z := le_join (mget_list m a 4).
Fixpoint parse_atags (fuel : nat) (m : mem) (a : Z) : option (list (Z * list Z)) :=
  match fuel with
  | O => None
  | S fuel' =>
      if word_of m a =? 0 then Some []
      else match parse_atags fuel' m (a + 4 * word_of m a) with
           | Some tags => Some ((word_of m (a + 4), mget_list m (a + 8) (Z.to_nat (4 * (word_of m a - 2)))) :: tags)
           | None => None
           end
  end.

Lemma lookup_mset_list m a l x :
  mset_list m a l !! x = if (a <=? x) && (x <? a + zlen l) then Some (u8 (znth l (x - a))) else m !! x.
Proof.
  revert m a. induction l as [|v l IH]; intros m a; cbn [mset_list].
  { rewrite zlen_nil. by destruct ((a <=? x) && (x <? a + 0)) eqn:E; [lia|]. }
  rewrite IH, zlen_cons. pose proof (zlen_nonneg l). unfold mset. destruct (decide (x = a)) as [->|Hne].
  - replace ((a + 1 <=? a) && (a <? a + 1 + zlen l)) with false by (symmetry; lia). replace ((a <=? a) && (a <? a + (1 + zlen l))) with true by (symmetry; lia).
    rewrite lookup_insert_eq, Z.sub_diag. done.
  - rewrite lookup_insert_ne by done. replace ((a + 1 <=? x) && (x <? a + 1 + zlen l)) with ((a <=? x) && (x <? a + (1 + zlen l))) by (apply Bool.eq_true_iff_eq; lia).
    destruct ((a <=? x) && _) eqn:E; [|done]. unfold znth. replace (Z.to_nat (x - a)) with (S (Z.to_nat (x - (a + 1)))) by lia. done.
Qed.
(** A text over a range of zeros. *)
Lemma text_over_zeros m a l n : zlen l <= Z.of_nat n →
  mset_list (mset_list m a (replicate n 0)) a l = mset_list m a (l ++ replicate (n - length l) 0).
Proof.
  intros Hn. apply map_eq. intros x. rewrite !lookup_mset_list, zlen_app. unfold zlen in *. rewrite !length_replicate.
  assert (Z.of_nat (length l) + Z.of_nat (n - length l) = Z.of_nat n) as -> by lia.
  destruct ((a <=? x) && (x <? a + Z.of_nat (length l))) eqn:E1.
  - replace ((a <=? x) && (x <? a + Z.of_nat n)) with true by (symmetry; lia). by rewrite znth_app_l by (unfold zlen; lia).
  - destruct ((a <=? x) && (x <? a + Z.of_nat n)) eqn:E2; [|done]. rewrite znth_app_r by (unfold zlen; lia).
    unfold znth. by rewrite !nth_zeros.
Qed.
Lemma mget_list_part m a p q r : Forall byte_ok (p ++ q ++ r) →
  mget_list (mset_list m a (p ++ q ++ r)) (a + zlen p) (length q) = q.
Proof.
  intros Hok. pose proof (mget_list_mset_list m a (p ++ q ++ r) Hok) as H. rewrite !length_app, !mget_list_app in H.
  apply app_inj_1 in H as [_ H]; [|by rewrite mget_list_length]. by apply app_inj_1 in H as [H _]; [|by rewrite mget_list_length].
Qed.

Definition cmdline_words (c : list Z) : Z := (zlen c + 1 + 3) / 4.
Definition cmdline_field (c : list Z) : list Z := (c ++ [0]) ++ replicate (Z.to_nat (4 * cmdline_words c) - length (c ++ [0])) 0.
Definition atag_bytes (c : list Z) : list Z :=
  le_split 4 2 ++ le_split 4 ATAG_CORE ++ le_split 4 (2 + cmdline_words c) ++ le_split 4 ATAG_CMDLINE ++
  cmdline_field c ++ le_split 4 0 ++ le_split 4 0.

Lemma align4_words n : 0 <= n → n + 3 < 4294967296 → align4 n = 4 * ((n + 3) / 4).
Proof.
  intros Hn Hmax. unfold align4. rewrite u32_id by (unfold word_ok; lia).
  change (not32 3) with (Z.shiftl (2 ^ 30 - 1) 2). rewrite land_shifted_mask, land_mod by done.
  rewrite Z.shiftl_mul_pow2, Z.shiftr_div_pow2 by done. change (2 ^ 30) with 1073741824. change (2 ^ 2) with 4.
  rewrite Z.mod_small by zlia. lia.
Qed.
Lemma cmdline_field_len c : zlen (cmdline_field c) = 4 * cmdline_words c.
Proof.
  unfold cmdline_field, zlen, cmdline_words, zlen. rewrite length_app, length_replicate, !length_app. cbn [length]. zlia.
Qed.
Lemma build_atags_bytes c m : zlen c < 4096 → build_atags c m = (ATAGS_ADDR, mset_list m ATAGS_ADDR (atag_bytes c)).
Proof.
  intros Hc. pose proof (zlen_nonneg c) as Hp. unfold build_atags, atag_bytes. f_equal.
  rewrite align4_words by lia. rewrite !u32_id by (unfold word_ok; lia). fold (cmdline_words c).
  unfold set_bytes. rewrite text_over_zeros.
  2: { unfold cmdline_words. rewrite zlen_app. change (zlen [0]) with 1. zlia. }
  fold (cmdline_field c). rewrite !mset_list_app. rewrite cmdline_field_len. unfold put_word.
  change (zlen (le_split 4 _)) with 4. rewrite <-!Z.add_assoc. repeat (f_equal; try lia).
Qed.

Lemma atag_bytes_ok c : Forall byte_ok c → Forall byte_ok (atag_bytes c).
Proof.
  intros Hc. unfold atag_bytes, cmdline_field. rewrite !list.Forall_app. split_and!; try apply le_split_ok; [done|by repeat constructor|].
  by apply list.Forall_replicate.
Qed.
(** A word of the list. *)
Lemma atag_word m p v r : Forall byte_ok (p ++ le_split 4 v ++ r) → word_ok v →
  word_of (mset_list m ATAGS_ADDR (p ++ le_split 4 v ++ r)) (ATAGS_ADDR + zlen p) = v.
Proof.
  intros Hok Hv. unfold word_of. change 4%nat with (length (le_split 4 v)) at 1. rewrite mget_list_part by done.
  rewrite le_join_split. by apply Z.mod_small.
Qed.
Lemma c_string_zeros c l : Forall (λ b, b ≠ 0) c → c_string (c ++ 0 :: l) = c.
Proof. induction 1 as [|b c Hb Hc IH]; [done|]. cbn [app c_string]. rewrite (proj2 (Z.eqb_neq b 0)) by done. by rewrite IH. Qed.

(** C23: Linux finds the command line.  For a command line as the entries hold it, the
    list that [build_atags] writes is walked by the kernel to its end as an empty
    ATAG_CORE and an ATAG_CMDLINE whose string is the command line; only the bytes of
    the list change, and it ends below the kernel at ZIMAGE_DST. *)
Theorem build_atags_parsed c m :
  Forall (λ b, 0 < b < 256) c → zlen c < 256 →
  let '(a, m') := build_atags c m in
  a = ATAGS_ADDR ∧
  (∃ field, parse_atags 3 m' a = Some [(ATAG_CORE, []); (ATAG_CMDLINE, field)] ∧ c_string field = c) ∧
  ATAGS_ADDR + zlen (atag_bytes c) <= ZIMAGE_DST ∧
  ∀ x, ¬ (ATAGS_ADDR <= x < ATAGS_ADDR + zlen (atag_bytes c)) → mget m' x = mget m x.
Proof.
  intros Hc Hlen. rewrite build_atags_bytes by lia. pose proof (zlen_nonneg c) as Hp.
  assert (Forall byte_ok (atag_bytes c)) as Hok by (apply atag_bytes_ok; eapply list.Forall_impl; [exact Hc|]; intros b Hb; cbv beta in Hb; unfold byte_ok; lia).
  assert (1 <= cmdline_words c <= 65) as Hw by (unfold cmdline_words; zlia).
  assert (zlen (atag_bytes c) = 24 + 4 * cmdline_words c) as Hz.
  { unfold atag_bytes. rewrite !zlen_app, cmdline_field_len. change (zlen (le_split 4 _)) with 4. lia. }
  split; [done|]. split; [|split; [rewrite Hz; unfold ATAGS_ADDR, ZIMAGE_DST; lia|intros x Hx; apply mget_mset_list_out; lia]].
  set (F := cmdline_field c). set (m' := mset_list m ATAGS_ADDR (atag_bytes c)).
  set (w1 := le_split 4 2). set (w2 := le_split 4 ATAG_CORE). set (w3 := le_split 4 (2 + cmdline_words c)). set (w4 := le_split 4 ATAG_CMDLINE). set (w0 := le_split 4 0).
  assert (∀ p v r, atag_bytes c = p ++ le_split 4 v ++ r → word_ok v → word_of m' (ATAGS_ADDR + zlen p) = v) as Hword.
  { intros p v r E Hv. unfold m'. rewrite E. apply atag_word; [by rewrite <-E|done]. }
  assert (word_of m' ATAGS_ADDR = 2) as H1 by (rewrite <-(Z.add_0_r ATAGS_ADDR); exact (Hword [] 2 (w2 ++ w3 ++ w4 ++ F ++ w0 ++ w0) eq_refl ltac:(done))).
  assert (word_of m' (ATAGS_ADDR + 4) = ATAG_CORE) as H2 by exact (Hword w1 ATAG_CORE (w3 ++ w4 ++ F ++ w0 ++ w0) eq_refl ltac:(done)).
  assert (word_of m' (ATAGS_ADDR + 8) = 2 + cmdline_words c) as H3
    by exact (Hword (w1 ++ w2) (2 + cmdline_words c) (w4 ++ F ++ w0 ++ w0) eq_refl ltac:(unfold word_ok; lia)).
  assert (word_of m' (ATAGS_ADDR + 12) = ATAG_CMDLINE) as H4 by exact (Hword (w1 ++ w2 ++ w3) ATAG_CMDLINE (F ++ w0 ++ w0) eq_refl ltac:(done)).
  assert (word_of m' (ATAGS_ADDR + 8 + 4 * (2 + cmdline_words c)) = 0) as H5.
  { rewrite <-(Hword (w1 ++ w2 ++ w3 ++ w4 ++ F) 0 w0); [|unfold atag_bytes; by rewrite <-!app_assoc|done].
    f_equal. rewrite !zlen_app. unfold F. rewrite cmdline_field_len. change (zlen w1) with 4. change (zlen w2) with 4. change (zlen w3) with 4.
    change (zlen w4) with 4. lia. }
  assert (mget_list m' (ATAGS_ADDR + 16) (Z.to_nat (4 * cmdline_words c)) = F) as H6.
  { pose proof (mget_list_part m ATAGS_ADDR (w1 ++ w2 ++ w3 ++ w4) F (w0 ++ w0)) as Hpart.
    replace ((w1 ++ w2 ++ w3 ++ w4) ++ F ++ w0 ++ w0) with (atag_bytes c) in Hpart by (unfold atag_bytes; by rewrite <-!app_assoc).
    specialize (Hpart Hok). rewrite <-(cmdline_field_len c). unfold zlen. rewrite Nat2Z.id. exact Hpart. }
  exists F. split.
  - cbn [parse_atags]. rewrite H1. change (2 =? 0) with false. cbv iota. rewrite H2. change (4 * 2) with 8. rewrite H3.
    replace (2 + cmdline_words c =? 0) with false by lia. rewrite H5. change (0 =? 0) with true. cbv iota.
    change (ATAGS_ADDR + 8 + 4) with (ATAGS_ADDR + 12). rewrite H4. change (ATAGS_ADDR + 8 + 8) with (ATAGS_ADDR + 16).
    replace (4 * (2 + cmdline_words c - 2)) with (4 * cmdline_words c) by lia. rewrite H6. reflexivity.
  - unfold F, cmdline_field. rewrite <-app_assoc. apply c_string_zeros. eapply list.Forall_impl; [exact Hc|]. intros b Hb. cbv beta in Hb. lia.
Qed.

(** ** The enabled components *)

(** What the components of [Components] declare: the id and the flags. *)
Definition cfw_infos : list (list Z * Z) :=
  [(bytes_of "power_hold", CFW_FIX .| CFW_DEFAULT_ON); (bytes_of "battery_check_skip", CFW_FIX .| CFW_DEFAULT_ON);
   (bytes_of "rtc_stall_fix", CFW_FIX .| CFW_DEFAULT_ON); (bytes_of "diag", CFW_EXTRA)].
(** The header, the pointers and the descriptions of an image say so. *)
Definition describes (image : list Z) (infos : list (list Z * Z)) : Prop :=
  cfw_component_count image = zlen infos ∧
  ∀ i id flags, infos !! i = Some (id, flags) →
    info_id image (cfw_component image (Z.of_nat i)) = id ∧ info_flags image (cfw_component image (Z.of_nat i)) = flags.
(** A component is on if the settings say so, or by default. *)
Definition enabled (ks : list key) (info : list Z * Z) : bool :=
  let on := settings_cfw (fst info) ks in if on =? -1 then Z.testbit (snd info) 2 else on =? 1.

Lemma settings_cfw_range id ks : settings_cfw id ks = -1 ∨ settings_cfw id ks = 0 ∨ settings_cfw id ks = 1.
Proof. unfold settings_cfw. repeat case_match; auto. Qed.
Lemma component_on_enabled image ks c id flags :
  info_id image c = id → info_flags image c = flags → cfw_component_on image ks c = b2z (enabled ks (id, flags)).
Proof.
  intros <- <-. unfold cfw_component_on, enabled. cbn [fst snd]. destruct (settings_cfw_range (info_id image c) ks) as [->|[->| ->]]; try done.
  cbn [Z.ltb Z.compare Z.eqb]. change CFW_DEFAULT_ON with (1 .<< 2). by rewrite nonzero_land_bit.
Qed.
Lemma in_range_true a b x : a <= x < b → (a <=? x) && (x <? b) = true.
Proof. intros [H1 H2]. apply andb_true_iff. split; [by apply Z.leb_le|by apply Z.ltb_lt]. Qed.
Lemma in_range_false a b x : ¬ (a <= x < b) → (a <=? x) && (x <? b) = false.
Proof. intros Hn. apply not_true_iff_false. intros [H1%Z.leb_le H2%Z.ltb_lt]%andb_true_iff. by apply Hn. Qed.
Lemma mask_loop_bits image ks n i mask :
  0 <= i → i + Z.of_nat n <= 32 → (∀ j, i <= j → Z.testbit mask j = false) →
  ∀ j, 0 <= j → Z.testbit (mask_loop image ks n i mask) j =
    if (i <=? j) && (j <? i + Z.of_nat n) then nonzero (cfw_component_on image ks (cfw_component image j)) else Z.testbit mask j.
Proof.
  revert i mask. induction n as [|n IH]; intros i mask Hi Hmax Hm j Hj; cbn [mask_loop].
  { change (Z.of_nat 0) with 0. by rewrite in_range_false by lia. }
  assert (u32 (1 .<< i) = 2 ^ i) as ->.
  { rewrite Z.shiftl_1_l. apply u32_id. unfold word_ok. split; [apply Z.pow_nonneg; lia|]. change 4294967296 with (2 ^ 32). apply Z.pow_lt_mono_r; lia. }
  set (mask' := if nonzero _ then _ else _).
  assert (∀ k, 0 <= k → Z.testbit mask' k = if k =? i then nonzero (cfw_component_on image ks (cfw_component image i)) else Z.testbit mask k) as Hm'.
  { intros k Hk. unfold mask'. destruct (nonzero _) eqn:E.
    - rewrite Z.lor_spec, Z.pow2_bits_eqb by lia. rewrite (Z.eqb_sym i k). destruct (k =? i); [apply orb_true_r|apply orb_false_r].
    - destruct (Z.eqb_spec k i) as [->|]; [|done]. apply Hm. lia. }
  rewrite IH; [|lia|lia| |done].
  2: { intros k Hk. rewrite Hm' by lia. rewrite (proj2 (Z.eqb_neq k i)) by lia. apply Hm. lia. }
  rewrite Hm' by done. destruct (Z.eqb_spec j i) as [->|Hne].
  - by rewrite in_range_false, in_range_true by lia.
  - destruct (decide (i <= j < i + Z.of_nat (S n))); [by rewrite !in_range_true by lia|by rewrite !in_range_false by lia].
Qed.

(** C24: the mask that EBOOT is patched with is what the menu shows.  For an image that
    describes the firmware's components, whatever the settings hold, the mask has
    exactly the bits of the enabled ones and passes the check of [eboot_main]; the menu
    lets go of the power key exactly when the bit of the power hold patch is in it. *)
Theorem cfw_mask_enables image ks :
  describes image cfw_infos →
  let mask := cfw_mask image ks in
  0 <= mask < 2 ^ zlen cfw_infos ∧
  (∀ i info, cfw_infos !! i = Some info → Z.testbit mask (Z.of_nat i) = enabled ks info) ∧
  wince_power_held image ks true = b2z (Z.testbit mask 0) ∧ wince_power_held image ks false = 0 ∧
  cfw_mask image [] = 7.
Proof.
  intros [Hn Hd] mask.
  assert (∀ ks' j, 0 <= j → Z.testbit (cfw_mask image ks') j =
    if j <? 4 then nonzero (cfw_component_on image ks' (cfw_component image j)) else false) as Hbits.
  { intros ks' j Hj. unfold cfw_mask. rewrite Hn. rewrite mask_loop_bits; [|lia|done|intros; apply Z.bits_0|done].
    change (Z.of_nat (Z.to_nat (zlen cfw_infos))) with 4. destruct (j <? 4) eqn:E; [by rewrite in_range_true by lia|].
    rewrite in_range_false by lia. apply Z.bits_0. }
  assert (∀ ks' i info, cfw_infos !! i = Some info → Z.testbit (cfw_mask image ks') (Z.of_nat i) = enabled ks' info) as Hen.
  { intros ks' i [id flags] Hi. rewrite Hbits by lia. assert (i < 4)%nat as Hlt by exact (lookup_lt_Some _ _ _ Hi).
    replace (Z.of_nat i <? 4) with true by lia. destruct (Hd i id flags Hi) as [H1 H2].
    rewrite (component_on_enabled image ks' _ id flags H1 H2). by destruct (enabled ks' (id, flags)). }
  assert (∀ ks', 0 <= cfw_mask image ks' < 2 ^ 4) as Hrange.
  { intros ks'. assert (cfw_mask image ks' = cfw_mask image ks' mod 2 ^ 4) as ->; [|apply Z.mod_pos_bound; done].
    apply Z.bits_inj'. intros j Hj. destruct (Z_lt_le_dec j 4); [by rewrite Z.mod_pow2_bits_low|].
    rewrite Z.mod_pow2_bits_high by lia. rewrite Hbits by done. by replace (j <? 4) with false by lia. }
  split; [apply Hrange|]. split; [apply Hen|]. split; [|split; [done|]].
  - unfold wince_power_held. rewrite Hn. change (Z.to_nat (zlen cfw_infos)) with 4%nat. cbn [held_loop].
    destruct (Hd 0%nat _ _ eq_refl) as [H1 H2]. change (Z.of_nat 0) with 0 in *. rewrite H1. cbn [str_eq].
    rewrite (component_on_enabled image ks _ _ _ H1 H2). unfold mask. pose proof (Hen ks 0%nat _ eq_refl) as H0. change (Z.of_nat 0) with 0 in H0. rewrite H0. done.
  - assert (∀ i, (i < 4)%nat → Z.testbit (cfw_mask image []) (Z.of_nat i) = Z.testbit 7 (Z.of_nat i)) as H.
    { intros i Hi. destruct (lookup_lt_is_Some_2 cfw_infos i Hi) as [info Hinfo]. rewrite (Hen [] i info Hinfo).
      destruct i as [|[|[|[|i]]]]; [by injection Hinfo as <-..|lia]. }
    apply Z.bits_inj'. intros j Hj. destruct (Z_lt_le_dec j 4) as [Hlt|Hge].
    + specialize (H (Z.to_nat j) ltac:(lia)). by rewrite Z2Nat.id in H by done.
    + rewrite Hbits by done. replace (j <? 4) with false by lia. symmetry. apply Z.bits_above_log2; [done|]. change (Z.log2 7) with 2. lia.
Qed.

(** ** Preparing WinCE *)

Section prepare.
Context {D : Type} `{!Device D} {locals : NandLocals} (cfw_image : list Z) (ks : list key).
Context (eboot_stage : eboot_args → M (machine D) (Z * list Z)).
Abbreviation St := (host D).
Abbreviation prepare := (wince_prepare cfw_image ks eboot_stage).

(** Memory changes in [P] and in the log window only. *)
Definition host_frame (P : Z → Prop) (s s' : St) : Prop := frame P (h_boot s) (h_boot s').
#[local] Instance host_frame_preorder P : PreOrder (host_frame P).
Proof.
  split; [by intros s Hs|]. intros s1 s2 s3 H12 H23 Hok. destruct (H12 Hok) as [Hok2 H2]. destruct (H23 Hok2) as [Hok3 H3].
  split; [done|]. intros a Ha Hl. by rewrite H3, H2.
Qed.
Lemma steps_on_host P {A} (m : M (boot D) A) : steps (frame P) m → steps (host_frame P) (on_host m : M St A).
Proof. intros Hm s. unfold on_host, host_frame. specialize (Hm (h_boot s)). by destruct (m (h_boot s)). Qed.
Lemma steps_on_sd P {A} (m : M (sd_image D) A) : steps (kept (λ _, False)) m → steps (host_frame P) (on_sdcard m : M St A).
Proof.
  intros Hm s Hok. unfold on_sdcard. specialize (Hm (SdImage (b_mach (h_boot s)) (h_sd s))). destruct (m _) as [x i].
  split; [done|]. intros a _ _. apply (Hm a). intros [].
Qed.
Lemma steps_on_machine P {A} (m : M (machine D) A) :
  (∀ mc a, ¬ P a → ¬ (LOG_BASE <= a < LOG_BASE + LOG_SIZE) → mget (ram (snd (m mc))) a = mget (ram mc) a) → steps (host_frame P) (on_machine m : M St A).
Proof.
  intros Hm s Hok. unfold on_machine. specialize (Hm (b_mach (h_boot s))). destruct (m _) as [x mc]. split; [done|]. exact Hm.
Qed.

#[local] Existing Instance kept_preorder.
#[local] Existing Instance frame_preorder.
Lemma release_kept : steps (kept (λ _, False)) (sd_release_pins : M (sd_image D) unit).
Proof.
  apply (steps_bind (kept (λ _, False))); [apply (walk_quiesce (kept (λ _, False))); [apply kept_read|apply kept_reg]|intros _].
  apply (steps_bind (kept (λ _, False))); [apply (steps_gets (kept (λ _, False)))|intros q].
  apply (steps_when (kept (λ _, False))). do 4 (apply (steps_bind (kept (λ _, False))); [by apply kept_write|intros ?]). apply kept_upd.
Qed.

(** Where the preparation may write. *)
Definition prepares (x : Z) : Prop :=
  EBOOT_DST <= x < EBOOT_DST + EBOOT_BYTES ∨ CFW_PHYS <= x < CFW_PHYS + CFW_MAX ∨
  nand_local x ∨ probe_page <= x < probe_page + PAGE_SIZE.

Lemma prepares_puts l : steps (host_frame prepares) (on_host (log_puts l) : M St unit).
Proof. apply steps_on_host, frame_log_puts. Qed.
Lemma frame_nf_hw_init P : steps (frame P) (nf_hw_init : M (boot D) unit).
Proof.
  unfold nf_hw_init, l2_init, reg_or, reg_clear.
  do 6 (apply (steps_bind (frame P)); [by apply frame_rmw|intros _]). by apply frame_wr_dev.
Qed.
Lemma frame_nand_init P : steps (frame P) (nand_init : M (boot D) unit).
Proof.
  unfold nand_init. do 3 (apply (steps_bind (frame P)); [by apply frame_wr_dev|intros _]). apply frame_updN.
Qed.
Lemma prepares_stage :
  zlen cfw_image <= CFW_MAX →
  (∀ args mc a, ¬ prepares a → ¬ (LOG_BASE <= a < LOG_BASE + LOG_SIZE) → mget (ram (snd (eboot_stage args mc))) a = mget (ram mc) a) →
  steps (host_frame prepares) (cfw_eboot_stage cfw_image ks eboot_stage : M St Z).
Proof.
  intros Hlen Hstage. unfold cfw_eboot_stage. apply (steps_bind (host_frame prepares)).
  { apply steps_on_machine. intros mc a Ha _. cbn [snd ram]. apply mget_mset_list_out. unfold prepares in Ha. lia. }
  intros _. apply (steps_bind (host_frame prepares)); [apply steps_on_machine; intros mc a; apply Hstage|]. intros [status message].
  destruct (nonzero status); [|apply (steps_ret (host_frame prepares))].
  apply (steps_bind (host_frame prepares)); [apply prepares_puts|intros _]. apply (steps_bind (host_frame prepares)); [apply prepares_puts|intros _].
  apply (steps_bind (host_frame prepares)); [apply steps_on_host, frame_log_putc|intros _].
  apply (steps_bind (host_frame prepares)); [by intros s Hok|intros _; apply (steps_ret (host_frame prepares))].
Qed.

(** Preparing WinCE writes where it may.  Whatever the flash, the controllers and the
    engine answer, with or without the firmware, memory changes only in EBOOT's image,
    in the firmware's place, in the two local buffers of the NAND reader and in the log
    window; the firmware's own stage is assumed to keep to that. *)
Theorem wince_prepare_frame cfw (s : St) a :
  log_ok (h_boot s) → zlen cfw_image <= CFW_MAX →
  (∀ args mc x, ¬ prepares x → ¬ (LOG_BASE <= x < LOG_BASE + LOG_SIZE) → mget (ram (snd (eboot_stage args mc))) x = mget (ram mc) x) →
  ¬ prepares a → ¬ (LOG_BASE <= a < LOG_BASE + LOG_SIZE) →
  mget (ram (b_mach (h_boot (snd (prepare cfw s))))) a = mget (ram (b_mach (h_boot s))) a.
Proof.
  intros Hok Hlen Hstage Ha Hlog. assert (steps (host_frame prepares) (prepare cfw)) as Hs; [|exact (proj2 (Hs s Hok) a Ha Hlog)].
  unfold wince_prepare.
  apply (steps_bind (host_frame prepares)); [apply steps_on_sd, release_kept|intros _].
  apply (steps_bind (host_frame prepares)); [apply steps_on_host, frame_nf_hw_init|intros _].
  apply (steps_bind (host_frame prepares)); [apply steps_on_host, frame_nand_init|intros _].
  assert (∀ l rc, steps (host_frame prepares) (on_host (log_puts l);; on_host (log_rc rc);; mret rc : M St Z)) as Herr.
  { intros l rc. apply (steps_bind (host_frame prepares)); [apply prepares_puts|intros _].
    apply (steps_bind (host_frame prepares)); [apply prepares_puts|intros _; apply (steps_ret (host_frame prepares))]. }
  apply (steps_bind (host_frame prepares)); [apply steps_on_host, frame_probe; intros x Hx; unfold prepares; tauto|intros rc].
  destruct (nonzero rc); [apply Herr|].
  apply (steps_bind (host_frame prepares)); [apply steps_on_host, frame_load_image; [done|intros x Hx; unfold prepares; tauto..]|intros rc2].
  destruct (nonzero rc2); [apply Herr|]. destruct cfw; [by apply prepares_stage|apply (steps_ret (host_frame prepares))].
Qed.

Lemma on_host_message {A} (m : M (boot D) A) (s : St) : cfw_message (snd (on_host m s)) = cfw_message s.
Proof. unfold on_host. by destruct (m (h_boot s)). Qed.
(** The report of a failure. *)
Lemma report_fails l rc (s : St) :
  ∃ s', (on_host (log_puts l);; on_host (log_rc rc);; mret rc : M St Z) s = (rc, s') ∧ cfw_message s' = cfw_message s.
Proof.
  eexists. split.
  - unfold mbind, M_bind, mret, M_ret. rewrite (surjective_pairing (on_host (log_puts l) s)). by rewrite (surjective_pairing (on_host (log_rc rc) _)).
  - by rewrite !on_host_message.
Qed.

(** C13: the first failure is the answer.  Whatever the hardware answers: a geometry that
    is not found or a load that fails is the result, without the firmware; with the
    firmware, its refusal is BOOT_ECFW and the first 95 characters of its message are
    kept, terminated; 0 means that EBOOT was loaded and, with the firmware, that the
    stage ran on it from the installed image with the mask of the settings, and what
    it left is what is started. *)
Theorem wince_prepare_errors cfw (s : St) :
  let s1 := snd ((on_sdcard sd_release_pins;; on_host nf_hw_init;; on_host nand_init) s) in
  let '(rc1, b2) := nand_probe_geometry (h_boot s1) in
  let '(rc2, b3) := nand_load_image EBOOT_DST IPL_START_BLOCK EBOOT_BYTES b2 in
  let installed := Machine (mset_list (ram (b_mach b3)) CFW_PHYS cfw_image) (dev (b_mach b3)) in
  let '(status, message, patched) := eboot_stage (EbootArgs EBOOT_CODE (EBOOT_BYTES - 0x2C) (cfw_mask cfw_image ks)) installed in
  let refused := cfw && nonzero status in
  let '(rc, s') := prepare cfw s in
  rc = (if nonzero rc1 then rc1 else if nonzero rc2 then rc2 else if refused then BOOT_ECFW else 0) ∧
  cfw_message s' = (if (rc1 =? 0) && (rc2 =? 0) && refused then take 95 message ++ [0] else cfw_message s) ∧
  (rc = 0 → b_mach (h_boot s') = if cfw then patched else b_mach b3).
Proof.
  cbv zeta. unfold wince_prepare, mbind, M_bind.
  destruct (on_sdcard sd_release_pins s) as [[] sa] eqn:Ea. destruct (on_host nf_hw_init sa) as [[] sb] eqn:Eb.
  destruct (on_host nand_init sb) as [[] s1] eqn:Ec. cbn [snd].
  assert (cfw_message s1 = cfw_message s) as Hmsg.
  { unfold on_host, on_sdcard in *. destruct (sd_release_pins _). destruct (nf_hw_init _). destruct (nand_init _).
    injection Ea as _ <-. injection Eb as _ <-. by injection Ec as _ <-. }
  clear Ea Eb Ec. unfold on_host at 1. destruct (nand_probe_geometry (h_boot s1)) as [rc1 b2].
  destruct (nand_load_image EBOOT_DST IPL_START_BLOCK EBOOT_BYTES b2) as [rc2 b3] eqn:El.
  destruct (eboot_stage _ _) as [[status message] patched] eqn:Es. unfold nonzero.
  destruct (Z.eqb_spec rc1 0) as [->|H1]; cbn [negb].
  2: { destruct (report_fails (bytes_of "nand: geometry") rc1 (Host b2 (h_sd s1) (cfw_message s1))) as (s' & Hs' & Hm).
       unfold mbind, M_bind in Hs'. rewrite Hs'. cbn [andb]. rewrite ?andb_false_r. split_and!; [done|by rewrite Hm|congruence]. }
  unfold on_host at 1. cbn [h_boot h_sd cfw_message]. rewrite El. destruct (Z.eqb_spec rc2 0) as [->|H2]; cbn [negb].
  2: { destruct (report_fails (bytes_of "nand: eboot load") rc2 (Host b3 (h_sd s1) (cfw_message s1))) as (s' & Hs' & Hm).
       unfold mbind, M_bind in Hs'. rewrite Hs'. cbn [andb]. split_and!; [done|by rewrite Hm|congruence]. }
  destruct cfw; [|by cbn]. unfold cfw_eboot_stage, cfw_install, on_machine, mbind, M_bind. cbn [h_boot h_sd cfw_message b_mach set_machine boot_machine ram dev].
  rewrite Es. unfold nonzero. destruct (Z.eqb_spec status 0) as [->|H3]; cbn [negb andb]; [by cbn|].
  match goal with |- context [on_host (log_puts ?l) ?x] => rewrite (surjective_pairing (on_host (log_puts l) x)) end.
  match goal with |- context [on_host (log_puts (c_string ?l)) ?x] => rewrite (surjective_pairing (on_host (log_puts (c_string l)) x)) end.
  match goal with |- context [on_host (log_putc ?l) ?x] => rewrite (surjective_pairing (on_host (log_putc l) x)) end. done.
Qed.
End prepare.

(** ** Examples *)

Section example.
#[local] Existing Instance null_device.

Theorem build_atags_parsed_witness :
  let c := bytes_of "console=ttySAK0 root=/dev/mmcblk0p2" in
  let '(a, m') := build_atags c ∅ in
  a = ATAGS_ADDR ∧
  (∃ field, parse_atags 3 m' a = Some [(ATAG_CORE, []); (ATAG_CMDLINE, field)] ∧ c_string field = c) ∧
  ATAGS_ADDR + zlen (atag_bytes c) <= ZIMAGE_DST ∧
  ∀ x, ¬ (ATAGS_ADDR <= x < ATAGS_ADDR + zlen (atag_bytes c)) → mget m' x = mget ∅ x.
Proof.
  refine (build_atags_parsed (bytes_of "console=ttySAK0 root=/dev/mmcblk0p2") ∅ _ _); [|vm_compute; done].
  apply list.Forall_forall. intros b Hb. assert (forallb (λ b, (0 <? b) && (b <? 256)) (bytes_of "console=ttySAK0 root=/dev/mmcblk0p2") = true) as Hall by reflexivity.
  rewrite forallb_forall in Hall. apply list_elem_of_In, Hall in Hb. lia.
Defined.

(** A firmware image of the four components: the header, the pointers, the descriptions. *)
Definition padded (n : nat) (l : list Z) : list Z := l ++ replicate (n - length l) 0.
Definition info_bytes (info : list Z * Z) : list Z := padded 224 (fst info) ++ le_split 4 (snd info).
Definition example_image : list Z :=
  le_split 4 CFW_PHYS ++ le_split 4 4 ++ le_split 4 (CFW_PHYS + 12) ++
  flat_map (λ i, le_split 4 (CFW_PHYS + 28 + 228 * i)) [0; 1; 2; 3] ++ flat_map info_bytes cfw_infos.
Lemma example_describes : describes example_image cfw_infos.
Proof.
  split; [reflexivity|]. intros i id flags Hi. pose proof (lookup_lt_Some _ _ _ Hi) as Hlt. change (length cfw_infos) with 4%nat in Hlt.
  destruct i as [|[|[|[|i]]]]; [injection Hi as <- <-; split; vm_compute; reflexivity..|lia].
Qed.
Theorem cfw_mask_enables_witness :
  let ks := settings_set_cfw (bytes_of "diag") true (settings_set_cfw (bytes_of "power_hold") false []) in
  let mask := cfw_mask example_image ks in
  0 <= mask < 2 ^ zlen cfw_infos ∧
  (∀ i info, cfw_infos !! i = Some info → Z.testbit mask (Z.of_nat i) = enabled ks info) ∧
  wince_power_held example_image ks true = b2z (Z.testbit mask 0) ∧ wince_power_held example_image ks false = 0 ∧
  cfw_mask example_image [] = 7.
Proof.
  exact (cfw_mask_enables example_image
    (settings_set_cfw (bytes_of "diag") true (settings_set_cfw (bytes_of "power_hold") false [])) example_describes).
Defined.
#[local] Existing Instance example_locals.
Theorem wince_prepare_frame_witness :
  let s := Host example_boot (SdSt false false 0 (PinSave 0 0 0 0 false)) [] in
  mget (ram (b_mach (h_boot (snd (wince_prepare example_image [] (λ _ mc, ((0, []), mc)) true s))))) 0x33B00000 =
  mget (ram (b_mach (h_boot s))) 0x33B00000.
Proof.
  refine (wince_prepare_frame example_image [] (λ _ mc, ((0, []), mc)) true
    (Host example_boot (SdSt false false 0 (PinSave 0 0 0 0 false)) []) 0x33B00000 _ _ _ _ _).
  - by left.
  - vm_compute. done.
  - done.
  - unfold prepares, nand_local, EBOOT_DST, EBOOT_BYTES, CFW_PHYS, CFW_MAX, PAGE_SIZE. cbn. lia.
  - unfold LOG_SIZE. cbn. lia.
Defined.
End example.
