(* ===== verification/Sysinfo.v ===== *)
(** * Sysinfo: what the NAND says about the device ([src/baremetal/aipc-boot/sysinfo.c])

    The firmware version is a string in the EBOOT partition; the kind of the first
    stage is told from block 0.  Both are scans of the static buffer [buf], which is
    memory at the address [buf_at]. *)
From S2P Require Import Prelude Machine Soc Log Nand Sd Boot.

#[local] Existing Instance aipc_boot_log.

Definition IPL_SCAN_BYTES : Z := 16384.
Definition PAGE_BYTES : Z := 2048.
Definition CHUNK_BYTES : Z := 512.
Definition HDR_SIGNATURE : Z := 0x04.
Definition HDR_PAGE_COUNT : Z := 0x0D.
Definition NBOOT_SCAN_PAGES : Z := 31.
Definition NBOOT_MIN_PAGES : Z := 8.
Definition BUF_BYTES : Z := (NBOOT_SCAN_PAGES + 1) * PAGE_BYTES.
Definition FW_VERSION_SIZE : Z := 16.
Definition NBOOT_NAME_SIZE : Z := 32.

Inductive nboot_kind := NBOOT_UNKNOWN | NBOOT_STOCK | NBOOT_OPENNBOOT.
Definition nboot_value (k : nboot_kind) : Z := match k with NBOOT_UNKNOWN => 0 | NBOOT_STOCK => 1 | NBOOT_OPENNBOOT => 2 end.

(** ** Scanning the buffer

    A scan runs over the bytes that were read into [buf], and answers [None] if
    it looks at a byte outside them. *)

Definition byte_at (hay : list Z) (i : Z) : option Z := if 0 <=? i then hay !! Z.to_nat i else None.
(** [s] is at the index [p]. *)
Definition at_index (hay : list Z) (p : Z) (s : list Z) : bool := bool_decide (take (length s) (drop (Z.to_nat p) hay) = s).
(** [memcmp(p, s, strlen(s)) == 0] *)
Definition cmp_at (hay : list Z) (p : Z) (s : list Z) : option bool :=
  if (0 <=? p) && (p + zlen s <=? zlen hay) then Some (at_index hay p s) else None.

(** The first index from [p] on where [needle] is, below the limit [lim]. *)
Fixpoint find_loop (n : nat) (hay : list Z) (lim : Z) (needle : list Z) (p : Z) : option (option Z) :=
  match n with
  | O => Some None
  | S n' =>
      if p + zlen needle <=? lim then
        found ← cmp_at hay p needle;
        if (found : bool) then Some (Some p) else find_loop n' hay lim needle (p + 1)
      else Some None
  end.
Definition find_str (hay : list Z) (lim : Z) (needle : list Z) (from : Z) : option (option Z) :=
  find_loop (Z.to_nat (lim - from)) hay lim needle from.

(** The loop that counts the printable characters from [p] on. *)
Fixpoint printable_loop (k : nat) (hay : list Z) (lim cap p n : Z) : option Z :=
  match k with
  | O => Some n
  | S k' =>
      if p + n <? lim then
        c ← byte_at hay (p + n);
        if (0x20 <=? c) && (c <? 0x7F) && (n <? cap) then printable_loop k' hay lim cap p (n + 1) else Some n
      else Some n
  end.
(** These characters, at most [cap]. *)
Definition printable_at (hay : list Z) (lim cap p : Z) : option (list Z) :=
  n ← printable_loop (Z.to_nat (lim - p)) hay lim cap p 0;
  Some (take (Z.to_nat n) (drop (Z.to_nat p) hay)).

(** The iterations of [read_fw_version] from [p] on; each starts behind the last match. *)
Fixpoint version_loop (fuel : nat) (buf : list Z) (p : Z) : option (option (list Z)) :=
  match fuel with
  | O => Some None
  | S fuel' =>
      found ← find_str buf IPL_SCAN_BYTES (bytes_of " Version:") p;
      match (found : option Z) with
      | None => Some None
      | Some p =>
          hardware ← (if 8 <=? p then cmp_at buf (p - 8) (bytes_of "Hardware") else Some false);
          if (hardware : bool) then version_loop fuel' buf (p + 1)
          else text ← printable_at buf IPL_SCAN_BYTES (FW_VERSION_SIZE - 1) (p + 9); Some (Some text)
      end
  end.
Definition version_of (buf : list Z) : option (option (list Z)) := version_loop (length buf) buf 0.

(** [memcpy(dst, text, n); dst[n] = 0] *)
Definition store_string (text old : list Z) : list Z := text ++ [0] ++ drop (length text + 1) old.

(** The pages of the first stage that are scanned, from the header in page 0. *)
Definition has_header (page0 : list Z) : bool := at_index page0 HDR_SIGNATURE (bytes_of "ANYKA382").
Definition scan_pages (page0 : list Z) : Z :=
  let header := has_header page0 in
  let pages := if header then znth page0 HDR_PAGE_COUNT else 0 in
  let pages := if pages <? NBOOT_MIN_PAGES then NBOOT_MIN_PAGES else pages in
  if NBOOT_SCAN_PAGES <? pages then NBOOT_SCAN_PAGES else pages.
(** The kind, and the banner of openNBOOT, from the pages that were read. *)
Definition nboot_of (header : bool) (buf : list Z) (pages : Z) : option (nboot_kind * option (list Z)) :=
  let limit := (pages + 1) * PAGE_BYTES in
  banner ← find_str buf limit (bytes_of "openNBOOT") PAGE_BYTES;
  match (banner : option Z) with
  | Some p => text ← printable_at buf limit (NBOOT_NAME_SIZE - 1) p; Some (NBOOT_OPENNBOOT, Some text)
  | None => Some (if header then NBOOT_STOCK else NBOOT_UNKNOWN, None)
  end.

(** ** Reading the flash *)

Record sysinfo_st := SysinfoSt { fw_version : list Z; nboot_name : list Z; nboot : nboot_kind }.
(** [si_wild]: a scan has looked outside the bytes that were read. *)
Record sysinfo (D : Type) := SysinfoImage { si_host : host D; si_vars : sysinfo_st; si_wild : bool }.
Arguments SysinfoImage {D} _ _ _.
Arguments si_host {D} _.
Arguments si_vars {D} _.
Arguments si_wild {D} _.

Section Sysinfo.
Context {D : Type} `{!Device D}.
Abbreviation St := (sysinfo D).
Context {locals : NandLocals}.
Variable buf_at : Z.

Definition on_h {A} (m : M (host D) A) : M St A := λ s, let '(a, h) := m (si_host s) in (a, SysinfoImage h (si_vars s) (si_wild s)).
Definition on_b {A} (m : M (boot D) A) : M St A := on_h (on_host m).
Definition updI (f : sysinfo_st → sysinfo_st) : M St unit := modify (λ s, SysinfoImage (si_host s) (f (si_vars s)) (si_wild s)).
Definition wild : M St unit := modify (λ s, SysinfoImage (si_host s) (si_vars s) true).
(** [n] bytes of [buf]. *)
Definition buf_bytes (n : Z) : M St (list Z) := gets (λ s, mget_list (ram (b_mach (h_boot (si_host s)))) buf_at (Z.to_nat n)).

Definition read_fw_version : M St unit :=
  rc ← on_b nand_probe_geometry;
  rc ← (if (rc : Z) =? 0 then on_b (nand_load_image buf_at IPL_START_BLOCK IPL_SCAN_BYTES) else mret rc);
  if nonzero rc then
    on_b (log_puts (bytes_of "sysinfo: ipl"));;
    on_b (log_rc rc)
  else
    buf ← buf_bytes IPL_SCAN_BYTES;
    match version_of buf with
    | Some (Some text) => updI (λ i, SysinfoSt (store_string text (fw_version i)) (nboot_name i) (nboot i))
    | Some None => skip
    | None => wild
    end.

(** The chunks of a page from [c] on. *)
Fixpoint chunk_loop (n : nat) (page dst c : Z) : M St Z :=
  match n with
  | O => mret 0
  | S n' =>
      rc ← on_b (nand_read_raw page c (dst + c) CHUNK_BYTES);
      if nonzero rc then
        on_b (log_puts (bytes_of "sysinfo: block 0 page "));;
        on_b (log_dec page);;
        on_b (log_rc rc);;
        mret rc
      else chunk_loop n' page dst (c + CHUNK_BYTES)
  end.
Definition read_page_raw (page dst : Z) : M St Z := chunk_loop (Z.to_nat (PAGE_BYTES / CHUNK_BYTES)) page dst 0.

(** [n] pages from [p] on: whether all were read. *)
Fixpoint pages_loop (n : nat) (p : Z) : M St bool :=
  match n with
  | O => mret true
  | S n' => rc ← read_page_raw p (buf_at + p * PAGE_BYTES); if nonzero rc then mret false else pages_loop n' (p + 1)
  end.

Fixpoint log_words (l : list Z) : M St unit :=
  match l with
  | b0 :: b1 :: b2 :: b3 :: l' => on_b (log_hex32 (b0 .| (b1 .<< 8) .| (b2 .<< 16) .| (b3 .<< 24)));; log_words l'
  | _ => skip
  end.
Definition log_bytes (l : list Z) : M St unit := log_words l;; on_b (log_putc 10).

Definition set_nboot (k : nboot_kind) (i : sysinfo_st) : sysinfo_st := SysinfoSt (fw_version i) (nboot_name i) k.
Definition read_nboot : M St unit :=
  updI (set_nboot NBOOT_UNKNOWN);;
  rc ← read_page_raw 0 buf_at;
  if nonzero rc then skip
  else
    page0 ← buf_bytes PAGE_BYTES;
    let pages := scan_pages page0 in
    ok ← pages_loop (Z.to_nat pages) 1;
    if negb (ok : bool) then skip
    else
      buf ← buf_bytes ((pages + 1) * PAGE_BYTES);
      match nboot_of (has_header page0) buf pages with
      | None => wild
      | Some (kind, banner) =>
          updI (λ i, match banner with Some text => SysinfoSt (fw_version i) (store_string text (nboot_name i)) kind | None => set_nboot kind i end);;
          on_b (log_puts (bytes_of "sysinfo: block 0 "));;
          log_bytes (take 16 buf);;
          on_b (log_puts (bytes_of "sysinfo: nboot "));;
          on_b (log_dec (nboot_value kind));;
          on_b (log_putc 10)
      end.

Definition sysinfo_read : M St unit :=
  on_h (on_sdcard sd_release_pins);;
  on_b nf_hw_init;;
  on_b nand_init;;
  read_fw_version;;
  read_nboot.

Definition sysinfo_fw_version (i : sysinfo_st) : option (list Z) :=
  if nonzero (znth (fw_version i) 0) then Some (c_string (fw_version i)) else None.
Definition sysinfo_nboot_name (i : sysinfo_st) : list Z :=
  match nboot i with NBOOT_OPENNBOOT => c_string (nboot_name i) | NBOOT_STOCK => bytes_of "Stock" | NBOOT_UNKNOWN => bytes_of "Unknown" end.
End Sysinfo.

(** ** What the scans find *)

Lemma at_index_inside hay p s : 0 <= p → s ≠ [] → at_index hay p s = true → p + zlen s <= zlen hay.
Proof.
  intros Hp Hs H. apply bool_decide_eq_true in H. apply (f_equal length) in H. rewrite length_take, length_drop in H.
  assert (0 < length s)%nat by (destruct s; [done|cbn; lia]). unfold zlen. lia.
Qed.
Lemma cmp_at_inside hay p s : 0 <= p → p + zlen s <= zlen hay → cmp_at hay p s = Some (at_index hay p s).
Proof. intros. unfold cmp_at. by rewrite (proj2 (Z.leb_le _ _)), (proj2 (Z.leb_le _ _)). Qed.
Lemma zlen_pos {A} (l : list A) : l ≠ [] → 0 < zlen l.
Proof. destruct l; [done|]. intros _. rewrite zlen_cons. pose proof (zlen_nonneg l). lia. Qed.
(** Over all of a buffer, a search stays inside and finds the first place. *)
Lemma find_loop_first n hay needle p :
  0 <= p → needle ≠ [] → zlen hay - p <= Z.of_nat n →
  ∃ r, find_loop n hay (zlen hay) needle p = Some r ∧
    match r with
    | Some q => p <= q ∧ at_index hay q needle = true ∧ ∀ r, p <= r < q → at_index hay r needle = false
    | None => ∀ r, p <= r → at_index hay r needle = false
    end.
Proof.
  intros Hp Hne. pose proof (zlen_pos needle Hne) as Hpos. revert p Hp.
  induction n as [|n IH]; intros p Hp Hn; cbn [find_loop].
  { exists None. split; [done|]. intros r Hr. apply not_true_iff_false. intros H%at_index_inside; [|lia|done]. lia. }
  destruct (p + zlen needle <=? zlen hay) eqn:E.
  2: { apply Z.leb_gt in E. exists None. split; [done|]. intros r Hr. apply not_true_iff_false. intros H%at_index_inside; [lia|lia|done]. }
  apply Z.leb_le in E. rewrite cmp_at_inside by done. cbn [mbind option_bind].
  destruct (at_index hay p needle) eqn:Em; [exists (Some p); split_and!; [done|lia|done|intros; lia]|].
  destruct (IH (p + 1) ltac:(lia) ltac:(lia)) as ([q|] & -> & IHr).
  - exists (Some q). destruct IHr as (H1 & H2 & H3). split_and!; [done|lia|done|].
    intros r Hr. destruct (decide (r = p)) as [->|]; [done|apply H3; lia].
  - exists None. split; [done|]. intros r Hr. destruct (decide (r = p)) as [->|]; [done|apply IHr; lia].
Qed.
Lemma find_str_first hay needle p : 0 <= p → needle ≠ [] →
  ∃ r, find_str hay (zlen hay) needle p = Some r ∧
    match r with
    | Some q => p <= q ∧ at_index hay q needle = true ∧ ∀ r, p <= r < q → at_index hay r needle = false
    | None => ∀ r, p <= r → at_index hay r needle = false
    end.
Proof. intros Hp Hn. apply find_loop_first; [done|done|lia]. Qed.

Definition is_printable (c : Z) : Prop := 0x20 <= c < 0x7F.
(** The printable characters in front, at most [k]. *)
Fixpoint printable (k : nat) (l : list Z) : list Z :=
  match k, l with
  | S k', c :: l' => if (0x20 <=? c) && (c <? 0x7F) then c :: printable k' l' else []
  | _, _ => []
  end.
Lemma printable_ok k l : Forall is_printable (printable k l) ∧ (length (printable k l) <= k)%nat.
Proof.
  revert l. induction k as [|k IH]; intros [|c l]; cbn [printable]; try (split; [done|cbn; lia]).
  destruct ((0x20 <=? c) && (c <? 0x7F)) eqn:E; [|split; [done|cbn; lia]].
  destruct (IH l) as (H1 & H2). split; [constructor; [unfold is_printable; lia|done]|cbn; lia].
Qed.

(** The counting loop stays inside and counts the printable characters. *)
Lemma printable_loop_ok k hay cap p n :
  0 <= p → 0 <= n <= cap → zlen hay - p - n <= Z.of_nat k →
  printable_loop k hay (zlen hay) cap p n =
  Some (n + zlen (printable (Z.to_nat (cap - n)) (drop (Z.to_nat (p + n)) hay))).
Proof.
  intros Hp. revert n. induction k as [|k IH]; intros n Hn Hk; cbn [printable_loop].
  { rewrite drop_ge by (unfold zlen in *; lia). destruct (Z.to_nat (cap - n)); cbn [printable]; rewrite zlen_nil; f_equal; lia. }
  destruct (p + n <? zlen hay) eqn:E.
  2: { apply Z.ltb_ge in E. rewrite drop_ge by (unfold zlen in *; lia).
       destruct (Z.to_nat (cap - n)); cbn [printable]; rewrite zlen_nil; f_equal; lia. }
  apply Z.ltb_lt in E. unfold byte_at. rewrite (proj2 (Z.leb_le _ _)) by lia.
  destruct (lookup_lt_is_Some_2 hay (Z.to_nat (p + n))) as [c Hc]; [unfold zlen in E; lia|]. rewrite Hc. cbn [mbind option_bind].
  rewrite (drop_S _ c) by done. destruct (n <? cap) eqn:En.
  - apply Z.ltb_lt in En. replace (Z.to_nat (cap - n)) with (S (Z.to_nat (cap - (n + 1)))) by lia. cbn [printable]. rewrite andb_true_r.
    destruct ((0x20 <=? c) && (c <? 0x7F)); [|rewrite zlen_nil; f_equal; lia].
    rewrite IH by lia. rewrite zlen_cons. replace (S (Z.to_nat (p + n))) with (Z.to_nat (p + (n + 1))) by lia. f_equal. lia.
  - apply Z.ltb_ge in En. rewrite andb_false_r. replace (Z.to_nat (cap - n)) with 0%nat by lia. cbn [printable].
    rewrite zlen_nil. f_equal. lia.
Qed.
Lemma printable_prefix k l : take (length (printable k l)) l = printable k l.
Proof.
  revert l. induction k as [|k IH]; intros [|c l]; cbn [printable]; try done.
  destruct (_ && _); [|done]. cbn [length take]. by rewrite IH.
Qed.
Lemma printable_at_ok hay cap p :
  0 <= p → 0 <= cap → printable_at hay (zlen hay) cap p = Some (printable (Z.to_nat cap) (drop (Z.to_nat p) hay)).
Proof.
  intros Hp Hc. unfold printable_at. rewrite printable_loop_ok by lia. cbn [mbind option_bind].
  rewrite Z.sub_0_r, Z.add_0_r, Z.add_0_l. unfold zlen. by rewrite Nat2Z.id, printable_prefix.
Qed.

(** The banner of the firmware at [p]: not the version of the hardware. *)
Definition version_at (buf : list Z) (p : Z) : Prop :=
  at_index buf p (bytes_of " Version:") = true ∧ ¬ (8 <= p ∧ at_index buf (p - 8) (bytes_of "Hardware") = true).
Definition first_version (buf : list Z) (r : option (list Z)) : Prop :=
  match r with
  | Some text => ∃ p, 0 <= p ∧ version_at buf p ∧ (∀ q, 0 <= q < p → ¬ version_at buf q) ∧
      text = printable 15 (drop (Z.to_nat (p + 9)) buf) ∧ zlen text < FW_VERSION_SIZE
  | None => ∀ q, 0 <= q → ¬ version_at buf q
  end.

Lemma version_loop_first buf fuel p :
  zlen buf = IPL_SCAN_BYTES → 0 <= p → zlen buf - p <= Z.of_nat fuel → (∀ q, 0 <= q < p → ¬ version_at buf q) →
  ∃ r, version_loop fuel buf p = Some r ∧ first_version buf r.
Proof.
  intros Hbuf. revert p. induction fuel as [|fuel IH]; intros p Hp Hf Hb; cbn [version_loop].
  { exists None. split; [done|]. intros q Hq Hv. destruct (Z_lt_le_dec q p) as [Hlt|Hge]; [apply (Hb q); [lia|done]|].
    destruct Hv as [Hm _]. apply at_index_inside in Hm; [|lia|done]. change (zlen (bytes_of " Version:")) with 9 in Hm. lia. }
  rewrite <-Hbuf. destruct (find_str_first buf (bytes_of " Version:") p Hp ltac:(done)) as ([q|] & -> & Hfind); cbn [mbind option_bind].
  2: { exists None. split; [done|]. intros q Hq Hv. destruct (Z_lt_le_dec q p); [apply (Hb q); [lia|done]|].
       destruct Hv as [Hv _]. by rewrite Hfind in Hv by done. }
  destruct Hfind as (Hq & Hm & Hbefore). pose proof (at_index_inside buf q (bytes_of " Version:") ltac:(lia) ltac:(done) Hm) as Hin.
  change (zlen (bytes_of " Version:")) with 9 in Hin.
  assert (∀ r, 0 <= r < q → ¬ version_at buf r) as Hnone.
  { intros r Hr Hv. destruct (Z_lt_le_dec r p); [apply (Hb r); [lia|done]|]. destruct Hv as [Hv _]. by rewrite Hbefore in Hv by lia. }
  assert ((if 8 <=? q then cmp_at buf (q - 8) (bytes_of "Hardware") else Some false) =
          Some ((8 <=? q) && at_index buf (q - 8) (bytes_of "Hardware"))) as ->.
  { destruct (8 <=? q) eqn:E8; [|done]. apply Z.leb_le in E8. apply cmp_at_inside; [lia|].
    change (zlen (bytes_of "Hardware")) with 8. lia. }
  cbn [mbind option_bind]. destruct ((8 <=? q) && at_index buf (q - 8) (bytes_of "Hardware")) eqn:E.
  - apply andb_true_iff in E as [E1%Z.leb_le E2]. apply IH; [lia|lia|]. intros r Hr. destruct (decide (r = q)) as [->|]; [|apply Hnone; lia].
    intros [_ Hn]. apply Hn. split; [lia|done].
  - rewrite printable_at_ok by (unfold FW_VERSION_SIZE; lia). cbn [mbind option_bind]. eexists. split; [done|].
    exists q. split_and!; [lia| |done|done|].
    + split; [done|]. intros [H1 H2]. rewrite H2, andb_true_r in E. lia.
    + change (Z.to_nat (FW_VERSION_SIZE - 1)) with 15%nat.
      destruct (printable_ok 15 (drop (Z.to_nat (q + 9)) buf)) as (_ & Hl). unfold zlen, FW_VERSION_SIZE. lia.
Qed.

(** The version that is shown is that of the banner.  In any 16384 bytes, the loop
    looks only at these, finds the first " Version:" that is not the hardware's, and
    takes the printable characters behind it, at most 15; it finds nothing exactly
    when there is none. *)
Lemma version_of_ok buf : zlen buf = IPL_SCAN_BYTES → ∃ r, version_of buf = Some r ∧ first_version buf r.
Proof. intros Hb. apply version_loop_first; [done|done|unfold zlen; lia|intros; lia]. Qed.
Theorem version_of_first buf : zlen buf = IPL_SCAN_BYTES → ∃ r, version_of buf = Some r ∧ first_version buf r.
Proof. apply version_of_ok. Qed.

(** The kind of the first stage: openNBOOT by its first banner behind page 0. *)
Lemma nboot_of_first header buf pages :
  zlen buf = (pages + 1) * PAGE_BYTES →
  ∃ r, nboot_of header buf pages = Some r ∧
  match r with
  | (NBOOT_OPENNBOOT, Some text) => ∃ p, PAGE_BYTES <= p ∧ at_index buf p (bytes_of "openNBOOT") = true ∧
      (∀ q, PAGE_BYTES <= q < p → at_index buf q (bytes_of "openNBOOT") = false) ∧ text = printable 31 (drop (Z.to_nat p) buf)
  | (k, None) => k = (if header then NBOOT_STOCK else NBOOT_UNKNOWN) ∧ ∀ q, PAGE_BYTES <= q → at_index buf q (bytes_of "openNBOOT") = false
  | _ => False
  end.
Proof.
  intros Hbuf. unfold nboot_of. rewrite <-Hbuf.
  destruct (find_str_first buf (bytes_of "openNBOOT") PAGE_BYTES ltac:(done) ltac:(done)) as ([p|] & -> & H); cbn [mbind option_bind].
  - destruct H as (H1 & H2 & H3). assert (0 <= p) by (unfold PAGE_BYTES in H1; lia).
    rewrite printable_at_ok by done. eexists. split; [done|]. by exists p.
  - eexists. split; [done|]. by destruct header.
Qed.

(** ** The arrays and the memory *)

Lemma c_string_app text l : Forall is_printable text → c_string (text ++ 0 :: l) = text.
Proof. intros Ht. apply c_string_zeros. eapply list.Forall_impl; [exact Ht|]. intros c Hc. unfold is_printable in Hc. lia. Qed.
Lemma store_string_ok text old n : Forall is_printable text → zlen text < n → zlen old = n →
  zlen (store_string text old) = n ∧ c_string (store_string text old) = text.
Proof.
  intros Ht Hl Ho. unfold store_string. cbn [app]. split; [|by apply c_string_app].
  subst n. unfold zlen in *. rewrite length_app. cbn [length]. rewrite length_drop.
  assert (length text < length old)%nat by lia. f_equal. lia.
Qed.
Lemma version_printable buf text : first_version buf (Some text) → Forall is_printable text ∧ zlen text < FW_VERSION_SIZE.
Proof. intros (p & _ & _ & _ & -> & Hl). by destruct (printable_ok 15 (drop (Z.to_nat (p + 9)) buf)) as (H1 & _). Qed.
Lemma banner_printable (l : list Z) text : text = printable 31 l → Forall is_printable text ∧ zlen text < NBOOT_NAME_SIZE.
Proof. intros ->. destruct (printable_ok 31 l) as (H1 & H2). split; [done|]. unfold zlen, NBOOT_NAME_SIZE. lia. Qed.

(** Both strings are arrays of their size, and terminated in them. *)
Definition info_ok (i : sysinfo_st) : Prop :=
  (zlen (fw_version i) = FW_VERSION_SIZE ∧ zlen (c_string (fw_version i)) < FW_VERSION_SIZE) ∧
  (zlen (nboot_name i) = NBOOT_NAME_SIZE ∧ zlen (c_string (nboot_name i)) < NBOOT_NAME_SIZE).

Section safe.
Context {D : Type} `{!Device D} {locals : NandLocals} (buf_at : Z).
Abbreviation St := (sysinfo D).

Definition scans (x : Z) : Prop :=
  buf_at <= x < buf_at + BUF_BYTES ∨ nand_local x ∨ probe_page <= x < probe_page + PAGE_SIZE.
Definition info_frame (s s' : St) : Prop :=
  frame scans (h_boot (si_host s)) (h_boot (si_host s')) ∧ (info_ok (si_vars s) → info_ok (si_vars s')) ∧ si_wild s' = si_wild s.
#[local] Existing Instance frame_preorder.
#[local] Instance info_frame_preorder : PreOrder info_frame.
Proof.
  split; [by intros s; split; [reflexivity|]|]. intros s1 s2 s3 (H1 & I1 & W1) (H2 & I2 & W2).
  split_and!; [by etransitivity|auto|congruence].
Qed.

Lemma info_on_h {A} (m : M (host D) A) : steps (host_frame scans) m → steps info_frame (on_h m : M St A).
Proof. intros Hm s. unfold on_h, info_frame. specialize (Hm (si_host s)). destruct (m (si_host s)) as [a h]. by split. Qed.
Lemma info_on_b {A} (m : M (boot D) A) : steps (frame scans) m → steps info_frame (on_b m : M St A).
Proof. intros Hm. by apply info_on_h, steps_on_host. Qed.
Lemma info_puts l : steps info_frame (on_b (log_puts l) : M St unit).
Proof. apply info_on_b, frame_log_puts. Qed.
Lemma info_upd f : (∀ i, info_ok i → info_ok (f i)) → steps info_frame (updI f : M St unit).
Proof. intros Hf s. split_and!; [reflexivity|apply Hf|done]. Qed.
Lemma buf_bytes_length n (s : St) : 0 <= n → zlen (fst (buf_bytes buf_at n s)) = n.
Proof. intros Hn. unfold buf_bytes, gets. cbn [fst]. unfold zlen. rewrite mget_list_length. lia. Qed.
Ltac info_leaf := first [apply info_puts|apply (steps_skip info_frame)|apply (steps_ret info_frame)|apply (steps_gets info_frame)|apply info_on_b, frame_log_putc].

Lemma info_chunks n page dst c :
  (∀ x, dst + c <= x < dst + c + CHUNK_BYTES * Z.of_nat n → scans x) → steps info_frame (chunk_loop n page dst c : M St Z).
Proof.
  revert c. induction n as [|n IH]; intros c Hx; cbn [chunk_loop]; [apply (steps_ret info_frame)|].
  apply (steps_bind info_frame); [apply info_on_b, frame_read_raw; [done|intros x Hc; apply Hx; unfold CHUNK_BYTES in *; lia]|intros rc].
  destruct (nonzero rc); [|apply IH; intros x Hc; apply Hx; unfold CHUNK_BYTES in *; lia].
  unfold log_dec, log_rc. do 3 (apply (steps_bind info_frame); [apply info_puts|intros _]). apply (steps_ret info_frame).
Qed.
Lemma info_page page dst : (∀ x, dst <= x < dst + PAGE_BYTES → scans x) → steps info_frame (read_page_raw page dst : M St Z).
Proof.
  intros Hx. apply info_chunks. change (Z.to_nat (PAGE_BYTES / CHUNK_BYTES)) with 4%nat. intros x Hc. apply Hx. unfold CHUNK_BYTES, PAGE_BYTES in *. lia.
Qed.
Lemma info_pages n p : 0 <= p → p + Z.of_nat n <= NBOOT_SCAN_PAGES + 1 → steps info_frame (pages_loop buf_at n p : M St bool).
Proof.
  revert p. induction n as [|n IH]; intros p Hp Hn; cbn [pages_loop]; [apply (steps_ret info_frame)|].
  apply (steps_bind info_frame); [|intros rc; destruct (nonzero rc); [apply (steps_ret info_frame)|apply IH; lia]].
  apply info_page. intros x Hx. left. unfold BUF_BYTES, PAGE_BYTES, NBOOT_SCAN_PAGES in *. lia.
Qed.
Lemma info_words l : steps info_frame (log_words l : M St unit).
Proof.
  assert (∀ n l, (length l <= n)%nat → steps info_frame (log_words l : M St unit)) as H; [|by apply (H (length l))].
  induction n as [|n IH]; intros k Hk; destruct k as [|b0 [|b1 [|b2 [|b3 k]]]]; cbn [log_words length] in *; try apply (steps_skip info_frame); [lia|].
  apply (steps_bind info_frame); [apply info_puts|intros _]. apply IH. lia.
Qed.
Lemma scan_pages_range page0 : NBOOT_MIN_PAGES <= scan_pages page0 <= NBOOT_SCAN_PAGES.
Proof.
  unfold scan_pages. set (n := if has_header page0 then _ else _). clearbody n. unfold NBOOT_MIN_PAGES, NBOOT_SCAN_PAGES.
  destruct (n <? 8) eqn:E; [done|]. apply Z.ltb_ge in E. destruct (31 <? n) eqn:E2; [done|]. apply Z.ltb_ge in E2. lia.
Qed.

Lemma info_fw_version : steps info_frame (read_fw_version buf_at : M St unit).
Proof.
  unfold read_fw_version, log_rc. apply (steps_bind info_frame); [apply info_on_b, frame_probe; intros x Hx; unfold scans; tauto|intros rc].
  apply (steps_bind info_frame).
  { destruct (rc =? 0); [|apply (steps_ret info_frame)]. apply info_on_b, frame_load_image; [done|intros x Hx; unfold scans, BUF_BYTES in *..].
    - change ((NBOOT_SCAN_PAGES + 1) * PAGE_BYTES) with 65536. unfold IPL_SCAN_BYTES in Hx. lia.
    - tauto. }
  intros rc2. destruct (nonzero rc2); [apply (steps_bind info_frame); [apply info_puts|intros _; apply info_puts]|].
  apply (steps_bind_res info_frame (λ l, zlen l = IPL_SCAN_BYTES)); [apply (steps_gets info_frame)|intros; by apply buf_bytes_length|intros buf Hbuf].
  destruct (version_of_ok buf Hbuf) as ([text|] & -> & Hv); [|apply (steps_skip info_frame)].
  apply version_printable in Hv as [H1 H2]. apply info_upd. intros i [[Hl Hc] Hn]. split; [|done]. cbn [fw_version].
  destruct (store_string_ok text (fw_version i) FW_VERSION_SIZE H1 H2 Hl) as [-> ->]. done.
Qed.
Lemma info_nboot : steps info_frame (read_nboot buf_at : M St unit).
Proof.
  unfold read_nboot. apply (steps_bind info_frame); [by apply info_upd|intros _].
  apply (steps_bind info_frame); [apply info_page; intros x Hx; left; unfold BUF_BYTES, PAGE_BYTES, NBOOT_SCAN_PAGES in *; lia|intros rc].
  destruct (nonzero rc); [apply (steps_skip info_frame)|].
  apply (steps_bind info_frame); [apply (steps_gets info_frame)|intros page0]. pose proof (scan_pages_range page0) as Hpages.
  apply (steps_bind info_frame); [apply info_pages; [done|unfold NBOOT_MIN_PAGES, NBOOT_SCAN_PAGES in *; rewrite Z2Nat.id; lia]|intros ok].
  destruct (negb ok); [apply (steps_skip info_frame)|].
  apply (steps_bind_res info_frame (λ l, zlen l = (scan_pages page0 + 1) * PAGE_BYTES));
    [apply (steps_gets info_frame)|intros; apply buf_bytes_length; unfold NBOOT_MIN_PAGES, PAGE_BYTES in *; lia|intros buf Hbuf].
  destruct (nboot_of_first (has_header page0) buf (scan_pages page0) Hbuf) as ([kind banner] & -> & Hb).
  apply (steps_bind info_frame).
  { apply info_upd. destruct banner as [text|]; [|done]. destruct kind; [done|done|]. destruct Hb as (p & _ & _ & _ & Ht).
    apply banner_printable in Ht as [H1 H2]. intros i [Hf [Hl Hc]]. split; [done|]. cbn [nboot_name].
    destruct (store_string_ok text (nboot_name i) NBOOT_NAME_SIZE H1 H2 Hl) as [-> ->]. done. }
  intros _. unfold log_bytes, log_dec. apply (steps_bind info_frame); [apply info_puts|intros _].
  apply (steps_bind info_frame); [apply (steps_bind info_frame); [apply info_words|intros _; apply info_on_b, frame_log_putc]|intros _].
  do 2 (apply (steps_bind info_frame); [apply info_puts|intros _]). apply info_on_b, frame_log_putc.
Qed.

End safe.

(** ** Examples *)

Section example.
#[local] Existing Instance null_device.
#[local] Existing Instance example_locals.
Definition banner_bytes : list Z := bytes_of "Hardware Version:7 x Version:1.58.2" ++ [13; 10].
Lemma version_example : version_of (banner_bytes ++ replicate (16384 - length banner_bytes) 0) = Some (Some (bytes_of "1.58.2")).
Proof. by vm_compute. Qed.
(** A scan past the bytes that were read is noticed. *)
Lemma wild_example : version_of (bytes_of "short") = None.
Proof. by vm_compute. Qed.
Definition example_info : sysinfo () :=
  SysinfoImage (Host example_boot (SdSt false false 0 (PinSave 0 0 0 0 false)) []) (SysinfoSt (replicate 16 0) (replicate 32 0) NBOOT_UNKNOWN) false.
End example.
