(* ===== verification/Opennboot.v ===== *)
(** * Opennboot: the first stage ([src/baremetal/opennboot/main.c])

    What the boot ROM loads from the flash: it looks for BOOT.BIN on an SD card and
    starts it bare, and otherwise loads EBOOT from the flash.  The card is the driver of
    [Sd] on the same machine, so that the FAT reader runs over the driver; the sectors of
    the reader go through one buffer, and the file is stored at its destination when the
    reader returns, so that a load that fails stores less than the code does.  The hand-offs are jumps in assembly and are the outcome. *)
From S2P Require Import Prelude Machine Soc Log Storage Fat Nand Sd.

#[local] Existing Instance default_log.

Definition HANDOFF_DST : Z := 0x30037FD4.
Definition HANDOFF_BYTES : Z := 0x00064000.
Definition SD_BOOT_DST : Z := 0x33000000.
Definition SD_BOOT_MAX : Z := 0x00A00000.

(** [handoff_bare], [handoff_eboot], and the endless loop of [halt]. *)
Inductive handoff := Bare (entry : Z) | Eboot | Halted (rc : Z).

Record nboot (D : Type) := Nboot { n_boot : boot D; n_sd : sd_st; n_fat : fat_st }.
Arguments Nboot {D} _ _ _.
Arguments n_boot {D} _.
Arguments n_sd {D} _.
Arguments n_fat {D} _.

#[export] Instance nboot_machine D : HasMachine (nboot D) D.
Proof.
  refine {| machine_of s := b_mach (n_boot s); set_machine m s := Nboot (set_machine m (n_boot s)) (n_sd s) (n_fat s) |};
    by intros ? *; try destruct s as [[] ? ?].
Defined.

Definition sum32 (l : list Z) : Z := fold_left (λ s b, u32 (u32 (s .<< 1) + (s .>> 31) + b)) l 0.

Section Opennboot.
Context {D : Type} `{!Device D}.
Abbreviation St := (nboot D).
(** The address of the FAT reader's buffer. *)
Context {locals : NandLocals}.
Variable sector_buf : Z.

(** The driver as the card of the FAT reader. *)
#[local] Instance driver_card : Card (sd_image D) := {|
  Storage.sd_init := Sd.sd_init;
  Storage.sd_high_speed := Sd.sd_high_speed;
  Storage.sd_read_block lba s :=
    let '(rc, s) := Sd.sd_read_block lba sector_buf s in (rc, mget_list (ram (sd_mach s)) sector_buf 512, s);
  Storage.sd_write_block lba l s :=
    Sd.sd_write_block lba sector_buf (SdImage (Machine (mset_list (ram (sd_mach s)) sector_buf l) (dev (sd_mach s))) (sd_vars s));
  Storage.sd_read_blocks lba n s :=
    let '(rc, s) := Sd.sd_read_blocks lba n sector_buf s in (rc, mget_list (ram (sd_mach s)) sector_buf (Z.to_nat (512 * n)), s);
|}.

Definition with_boot {A} (m : M (boot D) A) : M St A := λ s, let '(a, b) := m (n_boot s) in (a, Nboot b (n_sd s) (n_fat s)).
Definition with_sd {A} (m : M (sd_image D) A) : M St A := λ s,
  let '(a, i) := m (SdImage (b_mach (n_boot s)) (n_sd s)) in (a, Nboot (set_machine (sd_mach i) (n_boot s)) (sd_vars i) (n_fat s)).

(** [fat_load_file] to [dst]: the result and the size. *)
Definition load_file (name11 : list Z) (dst max_bytes : Z) : M St (Z * Z) := λ s,
  let '(rc, data, f, i) := fat_load_file name11 max_bytes (n_fat s) (SdImage (b_mach (n_boot s)) (n_sd s)) in
  ((rc, zlen data),
   Nboot (set_machine (Machine (mset_list (ram (sd_mach i)) dst data) (dev (sd_mach i))) (n_boot s)) (sd_vars i) f).

(** The result and, if it is 0, the size of the file. *)
Definition sd_try_boot : M St (Z * Z) :=
  rc ← with_sd Sd.sd_init;
  if nonzero rc then
    with_boot (log_puts (bytes_of "sd: no card"));;
    with_boot (log_rc rc);;
    with_sd sd_release_pins;;
    mret (rc, 0)
  else
    r ← load_file (bytes_of "BOOT    BIN") SD_BOOT_DST SD_BOOT_MAX;
    let '(rc, size) := (r : Z * Z) in
    with_sd sd_release_pins;;
    if nonzero rc then
      with_boot (log_puts (bytes_of "sd: no BOOT.BIN"));;
      with_boot (log_rc rc);;
      mret (rc, 0)
    else mret (0, size).

Definition halt (why : list Z) (rc : Z) : M St handoff :=
  with_boot (log_puts (bytes_of "halt: "));;
  with_boot (log_puts why);;
  with_boot (log_rc rc);;
  mret (Halted rc).

Definition boot_flash : M St handoff :=
  with_boot nf_hw_init;;
  with_boot nand_init;;
  rc ← with_boot nand_probe_geometry;
  if nonzero rc then halt (bytes_of "geometry probe") rc
  else
    rc ← with_boot (nand_load_image HANDOFF_DST IPL_START_BLOCK HANDOFF_BYTES);
    if nonzero rc then halt (bytes_of "ipl load") rc
    else
      with_boot (log_puts (bytes_of "ipl loaded, sum="));;
      m ← gets (λ s, ram (b_mach (n_boot s)));
      with_boot (log_hex32 (sum32 (mget_list m HANDOFF_DST (Z.to_nat HANDOFF_BYTES))));;
      with_boot (log_puts (bytes_of " corrections="));;
      c ← with_boot nand_corrections;
      with_boot (log_dec c);;
      with_boot (log_puts (bytes_of " retries="));;
      r ← with_boot nand_retries;
      with_boot (log_dec r);;
      with_boot (log_puts ([10] ++ bytes_of "eboot: entering" ++ [10]));;
      mret Eboot.

Definition boot_main : M St handoff :=
  with_boot uart_init;;
  with_boot log_init;;
  with_boot (log_puts (bytes_of "openNBOOT" ++ [10]));;
  with_boot l2_init;;
  r ← sd_try_boot;
  let '(rc, size) := (r : Z * Z) in
  if rc =? 0 then
    with_boot (log_puts (bytes_of "sd: BOOT.BIN "));;
    with_boot (log_dec size);;
    with_boot (log_puts (bytes_of " bytes, entering" ++ [10]));;
    mret (Bare SD_BOOT_DST)
  else boot_flash.
End Opennboot.

(** ** The pads after the card

    The SD card and the flash share four pad registers. *)
Section pads.
Context {D : Type} `{!Device D} (sector_buf : Z).
Abbreviation St := (nboot (logged D)).
#[local] Existing Instance driver_card.
#[local] Existing Instance pins_kept_preorder.

(** Accesses that do not write a shared register; the log itself is written in bytes. *)
Definition spares_pads (e : io) : Prop := match e with IoWr W32 a _ => a ∉ shared_pins | _ => True end.
Definition logs_only (s s' : boot (logged D)) : Prop := ∃ l, log_of s' = log_of s ++ l ∧ Forall spares_pads l.
#[local] Instance logs_only_preorder : PreOrder logs_only.
Proof.
  split; [intros s; exists []; by rewrite app_nil_r|]. intros s1 s2 s3 (l & Hl & Fl) (k & Hk & Fk).
  exists (l ++ k). rewrite Hk, Hl, app_assoc. split; [done|by apply Forall_app].
Qed.
Lemma logs_rd w a : steps logs_only (rd w a : M (boot (logged D)) Z).
Proof.
  intros s. unfold rd, bus_read. destruct (in_ddr a); [exists []; rewrite app_nil_r; by destruct s|].
  unfold dev_read, log_device. destruct (dev_read w a _) as [v d] eqn:E. exists [IoRd w a (wtrunc w v)]. by repeat constructor.
Qed.
Lemma logs_wr w a v : w = W8 ∨ bool_decide (a ∉ shared_pins) = true → steps logs_only (wr w a v : M (boot (logged D)) unit).
Proof.
  intros Ha s. unfold wr, bus_write. destruct (in_ddr a); [exists []; by rewrite app_nil_r|].
  exists [IoWr w a (wtrunc w v)]. split; [done|]. constructor; [|done]. destruct w; [done..|]. destruct Ha as [|Ha]; [done|]. by apply bool_decide_eq_true in Ha.
Qed.
Lemma logs_puts l : steps logs_only (log_puts l : M (boot (logged D)) unit).
Proof.
  induction l as [|c l IH]; cbn [log_puts]; [apply (steps_skip logs_only)|]. apply (steps_bind logs_only); [|by intros _].
  unfold log_putc, uart_putc, reg_or, rmw, getL, updL.
  steps_walk ltac:(idtac; lazymatch goal with
    | |- steps _ (gets _) => apply (steps_gets logs_only)
    | |- steps _ (modify _) => by intros ?; exists []; rewrite app_nil_r
    | |- steps _ (wr _ _ _) => intros; apply logs_wr; first [by left | right; reflexivity]
    | |- steps _ (rd _ _) => apply logs_rd
    | |- steps _ skip => apply (steps_skip logs_only)
    | |- steps _ (mret _) => apply (steps_ret logs_only) end).
Qed.

Lemma restored_spared c l : Forall spares_pads l → pads_restored c → pads_restored (replay pin_step c l).
Proof.
  intros Hl. revert c. induction Hl as [|e l He _ IH]; intros c Hc; [done|]. apply (IH (pin_step c e)). clear IH.
  unfold pads_restored in *. rewrite list.Forall_forall in *. intros a Ha. destruct (Hc a Ha) as (v & H1 & H2). exists v.
  split; [exact (first_read_kept [e] c a v H1)|]. destruct e as [[] b w|[] b w]; try done; cbn [pin_step].
  - by destruct (first_read c !! b), (last_written c !! b).
  - cbn [last_written]. rewrite lookup_insert_ne; [done|]. intros ->. by apply He.
Qed.

Lemma gwp_with_sd {A} (m : M (sd_image (logged D)) A) (Q : A → pin_obs → St → Prop) c (s : St) :
  gwp pin_step m (λ a c' i, Q a c' (Nboot (set_machine (sd_mach i) (n_boot s)) (sd_vars i) (n_fat s))) c (SdImage (b_mach (n_boot s)) (n_sd s)) →
  gwp pin_step (with_sd m) Q c s.
Proof. intros (l & Hl & HQ). unfold gwp, with_sd in *. destruct (m _) as [a i]. by exists l. Qed.
Lemma gwp_with_boot {A} (m : M (boot (logged D)) A) (Q : A → pin_obs → St → Prop) c (s : St) :
  steps logs_only m → (∀ a l b, Forall spares_pads l → Q a (replay pin_step c l) (Nboot b (n_sd s) (n_fat s))) →
  gwp pin_step (with_boot m) Q c s.
Proof.
  intros Hm HQ. destruct (Hm (n_boot s)) as (l & Hl & Fl). unfold gwp, with_boot. destruct (m _) as [a b].
  exists l. split; [exact Hl|by apply HQ].
Qed.

Lemma pins_read_block lba : steps pins_kept (Sd.sd_read_block lba sector_buf : M (sd_image (logged D)) Z).
Proof.
  apply (walk_read_block pins_kept pins_rd pins_wr). intros w v _ s. split; [|done]. unfold wr, bus_write.
  destruct (in_ddr _); [exists []; by rewrite app_nil_r|by eexists].
Qed.
Lemma walk_file name max_bytes st (i : sd_image (logged D)) :
  pins_kept i (snd (@fat_load_file _ (driver_card sector_buf) name max_bytes st i)).
Proof.
  apply fat_load_walk; [apply _|]. intros lba v. pose proof (pins_read_block lba v) as Hr. cbn [Storage.sd_read_block driver_card].
  by destruct (Sd.sd_read_block lba sector_buf v).
Qed.
Lemma gwp_load_file name dst max_bytes (Q : Z * Z → pin_obs → St → Prop) c (s : St) :
  pins_saved (g_pin_save (n_sd s)) c →
  (∀ r c' s', pins_saved (g_pin_save (n_sd s')) c' → Q r c' s') →
  gwp pin_step (load_file sector_buf name dst max_bytes) Q c s.
Proof.
  intros Hs HQ. pose proof (walk_file name max_bytes (n_fat s) (SdImage (b_mach (n_boot s)) (n_sd s))) as H. unfold gwp, load_file.
  destruct (fat_load_file _ _ _ _) as [[[rc data] f] i']. destruct H as [[l Hl] Hp]. cbn [snd] in Hl, Hp.
  exists l. split; [exact Hl|]. apply HQ. cbn [n_sd fst snd]. rewrite Hp. by apply pins_saved_kept.
Qed.

(** C15: the flash gets its pads back.  Whether there is a card, and whatever it holds and
    answers, the attempt to boot from it leaves each of the four registers that the
    card shares with the flash with the value that it had before the attempt, while the
    log is written before and after. *)
Theorem sd_try_boot_restores (s : St) :
  valid (g_pin_save (n_sd s)) = false →
  gwp pin_step (sd_try_boot sector_buf)
    (λ _ c' s', pads_restored c' ∧ valid (g_pin_save (n_sd s')) = false) (PinObs ∅ ∅) s.
Proof.
  intros Hv. unfold sd_try_boot. apply gwp_bind, gwp_with_sd. eapply gwp_mono; [apply gwp_init; by left|].
  intros rc c1 i1 H1. cbv beta. set (s1 := Nboot _ _ _). assert (pins_saved (g_pin_save (n_sd s1)) c1) as Hs1 by exact H1. clearbody s1. clear i1 H1.
  destruct (nonzero rc).
  - apply gwp_bind, gwp_with_boot; [apply logs_puts|]. intros _ l b _. apply gwp_bind, gwp_with_boot; [apply logs_puts|]. intros _ l2 b2 _.
    apply gwp_bind, gwp_with_sd. eapply gwp_mono; [apply gwp_release; by do 2 apply pins_saved_kept|].
    intros [] c2 i2 Hr. apply gwp_ret. exact Hr.
  - apply gwp_bind, gwp_load_file; [done|]. intros [rc2 size] c2 s2 Hs2.
    apply gwp_bind, gwp_with_sd. eapply gwp_mono; [by apply gwp_release|]. intros [] c3 i3 [H3 Hv3].
    destruct (nonzero rc2); [|by apply gwp_ret].
    apply gwp_bind, gwp_with_boot; [apply logs_puts|]. intros _ l b Fl. apply gwp_bind, gwp_with_boot; [apply logs_puts|]. intros _ l2 b2 Fl2.
    apply gwp_ret. split; [exact (restored_spared _ l2 Fl2 (restored_spared _ l Fl H3))|exact Hv3].
Qed.
End pads.

(** ** Examples *)

Section example.
#[local] Existing Instance null_device.
Definition example_nboot {D} (d : D) : nboot D :=
  Nboot (Boot (Machine ∅ d) (LogSt 0 0) (TimerSt 0 0) (NandSt 0 0 0)) (SdSt false false 0 (PinSave 0 0 0 0 false)) small_st.
Theorem sd_try_boot_restores_witness :
  gwp pin_step (sd_try_boot 0x30100000)
    (λ _ c' s', pads_restored c' ∧ valid (g_pin_save (n_sd s')) = false) (PinObs ∅ ∅) (example_nboot (Logged tt [])).
Proof. refine (sd_try_boot_restores 0x30100000 (example_nboot (Logged tt [])) _). reflexivity. Defined.
Example sum32_rotates : sum32 [0x80; 1; 2] = 0x204.
Proof. reflexivity. Qed.
End example.
