(* ===== verification/Battery.v ===== *)
(** * Battery: the voltage of the battery ([src/baremetal/aipc-boot/battery.c])

    Five samples of an analog input, with delays in between and a limited number of
    empty reads. *)
From S2P Require Import Prelude Machine Soc Log Timer Partial Clock.

Definition ADC (off : Z) : Z := 0x08000000 + off.
Definition CLKDIV2 : Z := 0x08.
Definition ADC1_DIVIDER : Z := 0x00000007.
Definition ADC1_CLOCK : Z := 0x00000008.
Definition ADC1_NRESET : Z := 0x00400000.
Definition ADC1_POWER_DOWN : Z := 0x20000000.
Definition ANALOG1 : Z := 0x5C.
Definition PD_REFERENCE : Z := 0x00000001.
Definition AD5_SEL1 : Z := 0x20000000.
Definition ADC1_TIMING : Z := 0x60.
Definition BIT_CYCLES : Z := 0x0000FFFF.
Definition ANALOG2 : Z := 0x64.
Definition ADC1_ENABLE : Z := 0x00000100.
Definition AD5_SEL2 : Z := 0x00000800.
Definition ADC1_STATUS : Z := 0x70.
Definition AD5_VALUE : Z := 0x000003FF.
Definition SAMPLES : Z := 5.
Definition ZERO_RETRIES : Z := 100.

Record battery (D : Type) := Battery { v_boot : boot D; ready : bool }.
Arguments Battery {D} _ _.
Arguments v_boot {D} _.
Arguments ready {D} _.

#[export] Instance battery_machine D : HasMachine (battery D) D.
Proof.
  refine {| machine_of s := b_mach (v_boot s); set_machine m s := Battery (set_machine m (v_boot s)) (ready s) |};
    by intros ? *; try destruct s as [[] ?].
Defined.

Section Battery.
Context {D : Type} `{!Device D}.
Abbreviation St := (battery D).
(** The fuel of a delay. *)
Variable fuel : nat.

Definition wait_ms (ms : Z) : MO St unit := λ s,
  match delay fuel ms (v_boot s) with Some (u, b) => Some (u, Battery b (ready s)) | None => None end.

Definition adc_init : M St unit :=
  reg_clear (ADC CLKDIV2) ADC1_NRESET;;
  rmw W32 (ADC CLKDIV2) (λ v,
    (v .& not32 (ADC1_NRESET .| ADC1_POWER_DOWN .| ADC1_CLOCK .| ADC1_DIVIDER)) .| ADC1_NRESET .| ADC1_CLOCK .| 2);;
  rmw W32 (ADC ADC1_TIMING) (λ v, (v .& not32 BIT_CYCLES) .| 800);;
  reg_clear (ADC ANALOG1) PD_REFERENCE;;
  reg_or (ADC ANALOG2) ADC1_ENABLE;;
  modify (λ s, Battery (v_boot s) true).

(** The loop: the sum and the number of the samples; [None] if [n] iterations are not
    enough; each one adds to one of the two counts. *)
Fixpoint sample_loop (n : nat) (sum samples zeros : Z) : MO St (Z * Z) :=
  match n with
  | O => λ _, None
  | S n' =>
      if samples <? SAMPLES then
        v ← lift (rd32 (ADC ADC1_STATUS));
        let val := v .& AD5_VALUE in
        if nonzero val then wait_ms 1;; sample_loop n' (u32 (sum + val)) (samples + 1) zeros
        else if ZERO_RETRIES <? zeros + 1 then mret (sum, samples)
        else wait_ms 2;; sample_loop n' sum samples (zeros + 1)
      else mret (sum, samples)
  end.

Definition battery_mv : MO St Z :=
  s ← lift (gets id);
  pwhen (negb (ready s)) (lift adc_init);;
  lift (reg_clear (ADC ANALOG1) AD5_SEL1);;
  wait_ms 12;;
  lift (reg_or (ADC ANALOG2) AD5_SEL2);;
  r ← sample_loop 106 0 0 0;
  let '(sum, samples) := (r : Z * Z) in
  lift (reg_or (ADC ANALOG1) AD5_SEL1);;
  lift (reg_clear (ADC ANALOG2) AD5_SEL2);;
  mret (if samples <? SAMPLES then -1 else i32 (u32 (u32 (u32 (333 * (sum / SAMPLES)) / 1024 * 2) * 20))).
End Battery.

(** ** What the converter answered *)

(** The values that the driver took from the converter, in their order. *)
Definition adc_value (e : io) : option Z :=
  match e with IoRd W32 a v => if a =? ADC ADC1_STATUS then Some (v .& AD5_VALUE) else None | _ => None end.
Definition adc_values (l : list io) : list Z := omap adc_value l.
(** The samples among them, and how many were empty. *)
Definition hits (vals : list Z) : list Z := List.filter nonzero vals.
Definition empties (vals : list Z) : Z := zlen (List.filter (λ v, negb (nonzero v)) vals).
Definition total (l : list Z) : Z := fold_right Z.add 0 l.

Section decides.
Context {D : Type} `{!Device D, !Clock D, !StillClock D} (fuel : nat) (t0 : Z).
Abbreviation St := (battery (logged D)).
#[local] Existing Instance timeless_preorder.

(** From [s] to [s'] the converter was read, with these values. *)
Definition took (vals : list Z) (s s' : boot (logged D)) : Prop :=
  ∃ l, iolog (dev (b_mach s')) = iolog (dev (b_mach s)) ++ l ∧ adc_values l = vals.
Lemma took_trans a b s1 s2 s3 : took a s1 s2 → took b s2 s3 → took (a ++ b) s1 s3.
Proof.
  intros (l1 & H1 & <-) (l2 & H2 & <-). exists (l1 ++ l2). rewrite H2, H1. unfold adc_values. by rewrite omap_app, <-app_assoc.
Qed.
#[local] Instance took_preorder : PreOrder (took []).
Proof. split; [intros s; exists []; by rewrite app_nil_r|]. intros s1 s2 s3. by apply took_trans. Qed.
Lemma took_rd w a (s : boot (logged D)) :
  in_ddr a = false →
  took (option_list (adc_value (IoRd w a (fst (rd w a s))))) s (snd (rd w a s)).
Proof.
  intros Ha. unfold rd, bus_read. rewrite Ha. destruct s as [[m [d l]] lg ti na]. cbn. destruct (dev_read w a d) as [v d1].
  cbn. eexists. split; [reflexivity|]. cbn. by destruct w, (a =? ADC ADC1_STATUS).
Qed.
Lemma took_wr w a v (s : boot (logged D)) : in_ddr a = false → took [] s (snd (wr w a v s)).
Proof.
  intros Ha. unfold wr, bus_write. rewrite Ha. destruct s as [[m [d l]] lg ti na]. eexists. split; reflexivity.
Qed.

(** The ticks that one delay can take. *)
Definition slack : Z := (Z.of_nat fuel + 1) * 67108864.
Definition within (T : Z) (s : St) : Prop := in_time t0 (v_boot s) ∧ ticks t0 (v_boot s) <= T.

(** Neither the timer nor the converter is read. *)
Definition still (s s' : St) : Prop := timeless (v_boot s) (v_boot s') ∧ took [] (v_boot s) (v_boot s').
#[local] Instance still_preorder : PreOrder still.
Proof. split; [by intros ?|]. intros s1 s2 s3 [H1 H2] [H3 H4]. split; by etransitivity. Qed.
Lemma rd_boot a (s : St) : rd32 a s = (fst (rd32 a (v_boot s)), Battery (snd (rd32 a (v_boot s))) (ready s)).
Proof. unfold rd. cbn. by destruct (bus_read W32 a _). Qed.
Lemma sampled_rmw a f : a ≠ TIMER2_LIVE → a ≠ ADC ADC1_STATUS → in_ddr a = false → steps still (rmw W32 a f : M St unit).
Proof.
  intros Ha Hs Hd. unfold rmw. apply (steps_bind still); [|intros v s].
  - intros s. rewrite rd_boot. split; [exact (timeless_rd W32 a Ha (v_boot s))|].
    pose proof (took_rd W32 a (v_boot s) Hd) as H. cbn [adc_value] in H. by rewrite (proj2 (Z.eqb_neq _ _)) in H by done.
  - split; [exact (timeless_wr W32 a (f v) (v_boot s))|exact (took_wr W32 a (f v) (v_boot s) Hd)].
Qed.
Lemma still_run T {A} (m : M St A) s : steps still m → within T s →
  within T (snd (m s)) ∧ took [] (v_boot s) (v_boot (snd (m s))).
Proof. intros Hm [Hs HT]. destruct (Hm s) as [Ht Hk]. destruct (timeless_in_time t0 _ _ Ht Hs) as [H1 H2]. by split; [split; [|lia]|]. Qed.
Lemma still_init : steps still (adc_init : M St unit).
Proof. unfold adc_init. do 5 (apply (steps_bind still); [by apply sampled_rmw|intros _]). by intros s. Qed.

Hypothesis fuel_ok : 12000 * 13 < Z.of_nat fuel.
Lemma wait_within ms T s : 0 <= ms <= 12 → within T s → T + slack + 67108864 < 18446673704965373952 →
  ∃ s', wait_ms fuel ms s = Some (tt, s') ∧ within (T + slack) s' ∧ took [] (v_boot s) (v_boot s').
Proof.
  intros Hms [Hs HT] Hmax. unfold slack in *. destruct (delay_returns fuel t0 ms (v_boot s)) as (b & Hb & H1 & H2); [done|lia|lia|lia|].
  exists (Battery b (ready s)). unfold wait_ms. rewrite Hb. split; [done|]. split; [split; [done|cbn [v_boot]; lia]|]. cbn [v_boot].
  assert (psteps (took []) (delay (D := logged D) fuel ms)) as Hq; [|by apply Hq in Hb].
  apply (psteps_delay (took [])); [|intros f s0; exists []; by rewrite app_nil_r].
  intros s0. exact (took_rd W32 TIMER2_LIVE s0 eq_refl).
Qed.

Lemma ad5_value v : nonzero (v .& AD5_VALUE) = true → 1 <= v .& AD5_VALUE <= 1023.
Proof. intros H%nonzero_true. change AD5_VALUE with (Z.ones 10) in *. rewrite Z.land_ones in * by done. zlia. Qed.

(** How the loop ends: after the fifth sample, or with the empty read that is
    one too many. *)
Definition sampled (vals : list Z) (sum samples zeros sum' samples' : Z) : Prop :=
  samples' = samples + zlen (hits vals) ∧ sum' = sum + total (hits vals) ∧
  (samples' = SAMPLES ∧ zeros + empties vals <= ZERO_RETRIES ∨ samples' < SAMPLES ∧ zeros + empties vals = ZERO_RETRIES + 1).

Lemma sample_loop_ends n sum samples zeros T s :
  within T s → T + Z.of_nat n * slack + 67108864 < 18446673704965373952 →
  0 <= samples <= 5 → 0 <= zeros <= 100 → samples <= sum <= 1023 * samples → (5 - samples) + (100 - zeros) < Z.of_nat n →
  ∃ sum' samples' s' vals, sample_loop fuel n sum samples zeros s = Some ((sum', samples'), s') ∧
    0 <= samples' <= 5 ∧ samples' <= sum' <= 1023 * samples' ∧ within (T + Z.of_nat n * slack) s' ∧
    took vals (v_boot s) (v_boot s') ∧ sampled vals sum samples zeros sum' samples'.
Proof.
  assert (0 <= slack) as Hsl by (unfold slack; lia).
  revert sum samples zeros T s. induction n as [|n IH]; intros sum samples zeros T s Hs Hmax Hk Hz Hsum Hn; [lia|].
  assert (∀ x : St, within T x → within (T + Z.of_nat (S n) * slack) x) as Hdone by (intros x [? ?]; split; [done|lia]).
  assert (T + Z.of_nat (S n) * slack = T + slack + Z.of_nat n * slack) as HT by lia.
  cbn [sample_loop]. unfold SAMPLES at 1. destruct (Z.ltb_spec samples 5).
  2: { exists sum, samples, s, []. split_and!; [done|lia..|by apply Hdone|reflexivity|]. unfold sampled, hits, empties, SAMPLES, ZERO_RETRIES. cbn. rewrite !zlen_nil. lia. }
  unfold mbind, MO_bind at 1, lift at 1. rewrite rd_boot.
  pose proof (took_rd W32 (ADC ADC1_STATUS) (v_boot s) eq_refl) as Hv. cbn [adc_value] in Hv. rewrite Z.eqb_refl in Hv.
  pose proof (timeless_rd (D := logged D) W32 (ADC ADC1_STATUS) ltac:(done) (v_boot s)) as Ht. destruct (timeless_in_time t0 _ _ Ht (proj1 Hs)) as [Hi1 Ht1].
  destruct (rd32 (ADC ADC1_STATUS) (v_boot s)) as [v b]. cbn [fst snd option_list] in Hv, Hi1, Ht1 |- *. clear Ht. set (s1 := Battery b (ready s)).
  assert (within T s1) as Hs1 by (split; [done|]; cbn [v_boot s1]; destruct Hs; lia). cbv zeta. set (val := v .& AD5_VALUE) in *.
  destruct (nonzero val) eqn:Ev.
  - pose proof (ad5_value v Ev) as Hval. fold val in Hval. unfold MO_bind. destruct (wait_within 1 T s1) as (s2 & -> & Hs2 & Hq2); [lia|done|lia|].
    destruct (IH (u32 (sum + val)) (samples + 1) zeros (T + slack) s2) as (a & b' & s' & vals & -> & Hb & Ha & Hs' & Hq & H1 & H2 & H3);
      [done|lia|lia|lia|rewrite ?u32_id by (unfold word_ok; lia); lia|lia|].
    exists a, b', s', (val :: vals). split_and!; [done|lia..|by rewrite HT| |].
    + exact (took_trans [val] vals _ _ _ (took_trans [val] [] _ _ _ Hv Hq2) Hq).
    + unfold sampled, hits, empties in *. cbn [List.filter]. rewrite Ev. cbn [negb total fold_right]. fold (total (List.filter nonzero vals)).
      rewrite zlen_cons. rewrite u32_id in H2 by (unfold word_ok; lia). split_and!; [lia|lia|exact H3].
  - unfold ZERO_RETRIES at 1. destruct (Z.ltb_spec 100 (zeros + 1)).
    + exists sum, samples, s1, [val]. split_and!; [done|lia..|by apply Hdone|done|].
      unfold sampled, hits, empties, SAMPLES, ZERO_RETRIES. cbn [List.filter]. rewrite Ev. cbn. rewrite ?zlen_cons, !zlen_nil. lia.
    + unfold MO_bind. destruct (wait_within 2 T s1) as (s2 & -> & Hs2 & Hq2); [lia|done|lia|].
      destruct (IH sum samples (zeros + 1) (T + slack) s2) as (a & b' & s' & vals & -> & Hb & Ha & Hs' & Hq & H1 & H2 & H3); [done|lia..|].
      exists a, b', s', (val :: vals). split_and!; [done|lia..|by rewrite HT| |].
      * exact (took_trans [val] vals _ _ _ (took_trans [val] [] _ _ _ Hv Hq2) Hq).
      * unfold sampled, hits, empties in *. cbn [List.filter]. rewrite Ev. cbn [negb]. rewrite zlen_cons. split_and!; [lia|lia|lia].
Qed.

Lemma init_first (s : St) T : within T s →
  ∃ s1, pwhen (negb (ready s)) (lift (adc_init : M St unit)) s = Some (tt, s1) ∧ within T s1 ∧ took [] (v_boot s) (v_boot s1).
Proof.
  intros Hs. unfold pwhen, lift. destruct (negb (ready s)); [|by exists s]. destruct (still_run T _ s still_init Hs) as [H1 H2].
  exists (snd (adc_init s)). by destruct (adc_init s) as [[] ?].
Qed.
(** A change of a register of the analog part. *)
Lemma reg_next T a f (s : St) : within T s → a ≠ TIMER2_LIVE → a ≠ ADC ADC1_STATUS → in_ddr a = false →
  ∃ s', rmw W32 a f s = (tt, s') ∧ within T s' ∧ took [] (v_boot s) (v_boot s').
Proof.
  intros Hs H1 H2 H3. destruct (still_run T _ s (sampled_rmw a f H1 H2 H3) Hs) as [H4 H5].
  exists (snd (rmw W32 a f s)). by destruct (rmw W32 a f s) as [[] ?].
Qed.

(** C33: the voltage is there in the end, and is that of the samples.  On a running
    clock, with fuel for the delays, and whatever the converter answers, [battery_mv]
    returns.  With the values that it read from the converter: -1 when it got fewer
    than five samples before the 101st empty read, and otherwise the millivolts of the
    mean of the five samples that it got, 40 for each of the 333 * mean / 1024 steps. *)
Theorem battery_mv_decides (s : St) :
  in_time t0 (v_boot s) → ticks t0 (v_boot s) + 108 * slack < 18446673704965373952 →
  ∃ r s' l, battery_mv fuel s = Some (r, s') ∧ in_time t0 (v_boot s') ∧ log_of s' = log_of s ++ l ∧
    let vals := adc_values l in
    (r = -1 ∧ zlen (hits vals) < SAMPLES ∧ empties vals = ZERO_RETRIES + 1) ∨
    (zlen (hits vals) = SAMPLES ∧ empties vals <= ZERO_RETRIES ∧
     r = 40 * (333 * (total (hits vals) / SAMPLES) / 1024) ∧ 0 <= r <= 13280).
Proof.
  intros Hin Hmax. assert (0 <= slack ∧ 67108864 <= slack) as Hsl by (unfold slack; lia). set (T := ticks t0 (v_boot s)) in *.
  assert (within T s) as Hs by (by split). unfold battery_mv, mbind. unfold MO_bind at 1, lift at 1, gets.
  destruct (init_first s T Hs) as (s1 & H1 & Hs1 & Q1). unfold MO_bind at 1. cbn [id]. rewrite H1. unfold MO_bind at 1, lift at 1.
  destruct (reg_next T (ADC ANALOG1) (λ v, v .& not32 AD5_SEL1) s1 Hs1) as (s2 & E2 & Hs2 & Q2); [done..|]. unfold reg_clear at 1. rewrite E2.
  unfold MO_bind at 1. destruct (wait_within 12 T s2) as (s3 & -> & Hs3 & Q3); [lia|done|lia|]. unfold MO_bind at 1, lift at 1.
  destruct (reg_next _ (ADC ANALOG2) (λ v, v .| AD5_SEL2) s3 Hs3) as (s4 & E4 & Hs4 & Q4); [done..|]. unfold reg_or at 1. rewrite E4. unfold MO_bind at 1.
  destruct (sample_loop_ends 106 0 0 0 (T + slack) s4) as (sum & samples & s5 & vals & -> & Hk & Hsum & Hs5 & Q5 & HS1 & HS2 & HS3); [done|lia..|].
  unfold MO_bind at 1, lift at 1.
  destruct (reg_next _ (ADC ANALOG1) (λ v, v .| AD5_SEL1) s5 Hs5) as (s6 & E6 & Hs6 & Q6); [done..|]. unfold reg_or at 1. rewrite E6. unfold MO_bind, lift.
  destruct (reg_next _ (ADC ANALOG2) (λ v, v .& not32 AD5_SEL2) s6 Hs6) as (s7 & E7 & Hs7 & Q7); [done..|]. unfold reg_clear. rewrite E7.
  assert (took vals (v_boot s) (v_boot s7)) as (l & Hl & Hvals).
  { rewrite <-(app_nil_r vals). eapply took_trans; [|etransitivity; [exact Q6|exact Q7]].
    change vals with ([] ++ vals). eapply took_trans; [|exact Q5]. do 3 (etransitivity; [eassumption|]). exact Q4. }
  eexists _, s7, l. split; [done|]. split; [apply Hs7|]. split; [exact Hl|]. cbv zeta. rewrite Hvals.
  rewrite Z.add_0_l in HS1, HS2, HS3. subst samples sum. unfold SAMPLES, ZERO_RETRIES in *.
  destruct (Z.ltb_spec (zlen (hits vals)) 5) as [Hlt|Hge]; [left; split_and!; [done|done|lia]|right].
  assert (1 <= total (hits vals) / 5 <= 1023) as Hm by zlia. split; [lia|]. split; [lia|].
  rewrite (u32_id (333 * _)) by (unfold word_ok; lia). rewrite (u32_id (_ / 1024 * 2)) by (unfold word_ok; zlia).
  rewrite u32_id, i32_small by (unfold word_ok; zlia). split; [lia|zlia].
Qed.
End decides.

(** ** Examples *)

Section example.
(** A converter that answers 700, beside the ticking timer. *)
#[local] Instance adc_device : Device ticker := {|
  dev_read w a d :=
    if a =? TIMER2_LIVE then (counter (t_now d + 12000), Ticker (t_now d + 12000))
    else (if a =? ADC ADC1_STATUS then 700 else 0, d);
  dev_write w a v d := d;
|}.
#[local, refine] Instance adc_clock : Clock ticker := {| now := t_now |}.
Proof.
  intros d v d' [= <- <-]. cbn [t_now]. split; [|lia]. rewrite land_mask. unfold counter. apply Z.mod_mod. lia.
Defined.
#[local] Instance adc_still : StillClock ticker.
Proof.
  split; [|done]. intros w a d v d' He Ha. cbn in He. rewrite (proj2 (Z.eqb_neq a TIMER2_LIVE)) in He by done. by injection He as _ <-.
Qed.
Definition example_battery : battery (logged ticker) :=
  Battery (Boot (Machine ∅ (Logged (Ticker 5) [])) (LogSt 0 0) (TimerSt (counter 5) 5) (NandSt 0 0 0)) false.
Definition battery_fuel : nat := Z.to_nat 160000.
Lemma battery_fuel_val : Z.of_nat battery_fuel = 160000.
Proof. unfold battery_fuel. by rewrite Z2Nat.id. Qed.
Lemma battery_value : option_map fst (battery_mv 100 example_battery) = Some 9080.
Proof. by vm_compute. Qed.
#[local] Opaque battery_fuel.
Lemma battery_fuel_enough : 12000 * 13 < Z.of_nat battery_fuel.
Proof. by rewrite battery_fuel_val. Qed.
Lemma battery_time : in_time 0 (v_boot example_battery).
Proof. split; done. Qed.
Lemma battery_time_enough : ticks 0 (v_boot example_battery) + 108 * slack battery_fuel < 18446673704965373952.
Proof. unfold slack. by rewrite battery_fuel_val. Qed.
Theorem battery_mv_decides_witness :
  ∃ r s' l, battery_mv battery_fuel example_battery = Some (r, s') ∧ in_time 0 (v_boot s') ∧ log_of s' = log_of example_battery ++ l ∧
    let vals := adc_values l in
    (r = -1 ∧ zlen (hits vals) < SAMPLES ∧ empties vals = ZERO_RETRIES + 1) ∨
    (zlen (hits vals) = SAMPLES ∧ empties vals <= ZERO_RETRIES ∧
     r = 40 * (333 * (total (hits vals) / SAMPLES) / 1024) ∧ 0 <= r <= 13280).
Proof. exact (battery_mv_decides battery_fuel 0 battery_fuel_enough example_battery battery_time battery_time_enough). Defined.
End example.
