(* ===== verification/Flash.v ===== *)
(** * Flash: the tool that writes the first stage ([src/tools/opennboot/stub])

    Code that the host loads over USB and runs on the bare machine: [read_main] is
    the stub of nf_read.c, [write_main] the one of nf_write.c, over the functions of
    nf_common.c.  The whole hardware is the machine's device; the initialization in
    the boot ROM is a variable.

    What reaches the flash chip is stated with an observer of the bus: it keeps the
    last value of every register, runs the sequence in the slots when the
    sequencer is started, and gives the bus cycles to a model of the chip that
    collects the erases and programs it is told to make. *)
From S2P Require Import Prelude Machine.

Definition NF_SEQ : Z := 0x2002A100.
Definition NF_CTRL : Z := 0x2002A158.
Definition NF_TIM_A : Z := 0x2002A15C.
Definition NF_TIM_B : Z := 0x2002A160.
Definition NF_INFO : Z := 0x2002A150.
Definition NF_DMA : Z := 0x2002B000.
Definition L2_DMA_PATH : Z := 0x2002C084.
Definition L2_BUF_CFG : Z := 0x2002C088.
Definition L2_ASSIGN : Z := 0x2002C090.
Definition L2_STAT : Z := 0x2002C0A0.
Definition L2_BUF5 : Z := 0x48000A00.
Definition COL_CYCLES : nat := 2.
Definition ROW_CYCLES : nat := 3.
Definition SPIN : Z := 0x400000.
Definition TIM_A : Z := 0x000F5AD1.
Definition TIM_B : Z := 0x000F5C5C.
Definition ST_FAIL : Z := 0x01.
Definition NF_PAGE_DATA : Z := 2048.
Definition NF_PAGE_RAW : Z := 2112.
Definition NF_CHUNK : Z := 512.
Definition NF_BUF : Z := 0x30120000.
Definition NF_MAX_PAGES : Z := 64.
Definition NF_OK : Z := 0.
Definition NF_E_SEQ : Z := 1.
Definition NF_E_L2 : Z := 2.
Definition NF_E_DMA : Z := 3.
Definition NF_E_FAIL : Z := 4.
Definition NF_E_ARG : Z := 5.
Definition CMD_ROW : Z := 0.
Definition CMD_COUNT : Z := 1.
Definition CMD_RC : Z := 2.
Definition CMD_FAIL : Z := 3.
Definition CMD_ID : Z := 4.
Definition CMD_STATUS : Z := 4.
(** The word [i] of the command block of each stub. *)
Definition read_cmd (i : Z) : Z := 0x30113000 + 4 * i.
Definition write_cmd (i : Z) : Z := 0x30117000 + 4 * i.

#[export] Program Instance bare_machine {D} : HasMachine (machine D) D := {|
  machine_of m := m;
  set_machine m _ := m;
|}.
Solve All Obligations with done.

Section Flash.
Context {D : Type} `{!Device D}.
Abbreviation St := (machine D).
(** The routine at 0x2648 of the boot ROM. *)
Variable rom_nf_boot_hw_init : M St unit.

Definition seq_start : M St unit := rmw W32 NF_CTRL (λ v, (v .& 0x7FFFF3FF) .| 0x40008400).
Definition seq_wait : M St bool :=
  r ← spin SPIN (v ← rd32 NF_CTRL; mret (if nonzero (v .& 0x80000000) then Some tt else None));
  mret (match r with Some _ => true | None => false end).

Definition l2_bind : M St unit :=
  rmw W32 L2_DMA_PATH (λ v, v .| 0x30000000);;
  rmw W32 L2_BUF_CFG (λ v, v .| 0x00200000);;
  rmw W32 L2_ASSIGN (λ v, (v .& not32 0xE00) .| 0xA00);;
  rmw W32 L2_BUF_CFG (λ v, v .| 0x20000000).
Definition l2_dir_write (on : bool) : M St unit :=
  if on then rmw W32 L2_BUF_CFG (λ v, v .| (1 .<< 13)) else rmw W32 L2_BUF_CFG (λ v, v .& not32 (1 .<< 13)).

Definition dma_wait : M St Z :=
  r ← spin SPIN (v ← rd32 NF_DMA; if nonzero (v .& 0x40) then rmw W32 NF_DMA (λ v, v .| 0x40);; mret (Some tt) else mret None);
  mret (match r with Some _ => NF_OK | None => NF_E_DMA end).

(** The next free slot. *)
Definition emit_addr (slot row col : Z) (with_col : bool) : M St Z :=
  slot ← (if with_col then
            for_range 0 COL_CYCLES (λ i, wr32 (slot + 4 * i) ((((col .>> (8 * i)) .& 0xFF) .<< 11) .| 0x62));;
            mret (slot + 4 * Z.of_nat COL_CYCLES)
          else mret slot);
  for_range 0 ROW_CYCLES (λ i, wr32 (slot + 4 * i) ((((row .>> (8 * i)) .& 0xFF) .<< 11) .| 0x62));;
  mret (slot + 4 * Z.of_nat ROW_CYCLES).

(** The result and the status; the status is only there when the result is 0. *)
Definition read_status : M St (Z * option Z) :=
  wr32 NF_CTRL 0;;
  wr32 NF_SEQ ((0x70 .<< 11) .| 0x64);;
  wr32 (NF_SEQ + 4) (0x58 .| 0x001);;
  seq_start;;
  ok ← seq_wait;
  if negb ok then mret (NF_E_SEQ, None)
  else v ← rd32 NF_INFO; mret (NF_OK, Some (v .& 0xFF)).

(** The result and the new value of the caller's status. *)
Definition check_status (status : Z) : M St (Z * Z) :=
  r ← read_status;
  let '(rc, out) := (r : Z * option Z) in
  let status := default status out in
  mret (if nonzero rc then (rc, status) else if nonzero (status .& ST_FAIL) then (NF_E_FAIL, status) else (NF_OK, status)).

Definition nf_read_id (id : Z) : M St (Z * Z) :=
  wr32 NF_CTRL 0;;
  wr32 NF_SEQ ((0x90 .<< 11) .| 0x64);;
  wr32 (NF_SEQ + 4) 0x62;;
  wr32 (NF_SEQ + 8) (((4 - 1) .<< 11) .| 0x58 .| 0x001);;
  seq_start;;
  ok ← seq_wait;
  if negb ok then mret (NF_E_SEQ, id)
  else v ← rd32 NF_INFO; mret (NF_OK, v).

Definition nf_hw_init : M St unit :=
  rom_nf_boot_hw_init;;
  wr32 NF_TIM_A TIM_A;;
  wr32 NF_TIM_B TIM_B;;
  wr32 NF_DMA 0x00010000.

Definition copy_words (dst src : Z) (n : nat) : M St unit :=
  for_range 0 n (λ w, v ← rd32 (src + 4 * w); wr32 (dst + 4 * w) v).

Definition nf_read_raw (row col dst len : Z) : M St Z :=
  wr32 NF_CTRL 0;;
  wr32 NF_SEQ 0x64;;
  slot ← emit_addr (NF_SEQ + 4) row col true;
  wr32 slot 0x18464;;
  wr32 (slot + 4) 0x201;;
  seq_start;;
  l2_bind;;
  ok ← seq_wait;
  if negb ok then mret NF_E_SEQ
  else
    wr32 NF_DMA ((len .<< 7) .| 0x100018);;
    wr32 NF_CTRL 0;;
    wr32 NF_SEQ (((len - 1) .<< 11) .| 0x119);;
    seq_start;;
    ok ← seq_wait;
    if negb ok then mret NF_E_SEQ
    else
      r ← spin SPIN (v ← rd32 L2_STAT; mret (if len .>> 6 <=? (v .>> 20) .& 0xF then Some tt else None));
      match r with
      | None => mret NF_E_L2
      | Some _ => copy_words dst L2_BUF5 (Z.to_nat (len .>> 2));; dma_wait
      end.

Fixpoint read_chunks (n : nat) (c row dst : Z) : M St Z :=
  match n with
  | O => nf_read_raw row NF_PAGE_DATA (dst + NF_PAGE_DATA) (NF_PAGE_RAW - NF_PAGE_DATA)
  | S n' =>
      rc ← nf_read_raw row (c * NF_CHUNK) (dst + c * NF_CHUNK) NF_CHUNK;
      if nonzero rc then mret rc else read_chunks n' (c + 1) row dst
  end.
Definition nf_read_page (row dst : Z) : M St Z := read_chunks (Z.to_nat (NF_PAGE_DATA / NF_CHUNK)) 0 row dst.

Definition nf_erase_block (row status : Z) : M St (Z * Z) :=
  wr32 NF_CTRL 0;;
  wr32 NF_SEQ ((0x60 .<< 11) .| 0x64);;
  slot ← emit_addr (NF_SEQ + 4) row 0 false;
  wr32 slot ((0xD0 .<< 11) .| 0x64);;
  wr32 (slot + 4) 0x201;;
  seq_start;;
  ok ← seq_wait;
  if negb ok then mret (NF_E_SEQ, status) else check_status status.

Definition program_chunk (src : Z) : M St Z :=
  copy_words L2_BUF5 src (Z.to_nat (NF_CHUNK / 4));;
  wr32 NF_DMA ((NF_CHUNK .<< 7) .| 0x10001C);;
  wr32 NF_CTRL 0;;
  wr32 NF_SEQ (((NF_CHUNK - 1) .<< 11) .| 0x128 .| 0x001);;
  seq_start;;
  ok ← seq_wait;
  if negb ok then mret NF_E_SEQ else dma_wait.

Fixpoint program_chunks (n : nat) (c src : Z) : M St Z :=
  match n with
  | O => mret NF_OK
  | S n' => rc ← program_chunk (src + c * NF_CHUNK); if nonzero rc then mret rc else program_chunks n' (c + 1) src
  end.

Definition program_data (row src : Z) : M St Z :=
  wr32 NF_CTRL 0;;
  wr32 NF_SEQ ((0x80 .<< 11) .| 0x64);;
  slot ← emit_addr (NF_SEQ + 4) row 0 true;
  rmw W32 (slot - 4) (λ v, v .| 0x001);;
  seq_start;;
  ok ← seq_wait;
  if negb ok then mret NF_E_SEQ
  else
    rc ← program_chunks (Z.to_nat (NF_PAGE_DATA / NF_CHUNK)) 0 src;
    if nonzero rc then mret rc
    else
      wr32 NF_CTRL 0;;
      wr32 NF_SEQ ((0x10 .<< 11) .| 0x64);;
      wr32 (NF_SEQ + 4) 0x201;;
      seq_start;;
      ok ← seq_wait;
      mret (if (ok : bool) then NF_OK else NF_E_SEQ).

Definition nf_program_page (row src status : Z) : M St (Z * Z) :=
  l2_bind;;
  l2_dir_write true;;
  rc ← program_data row src;
  l2_dir_write false;;
  if nonzero rc then mret (rc, status) else check_status status.

(** The pages from number [p] on: the result, the page that failed and its status. *)
Fixpoint program_pages (n : nat) (p row status : Z) : M St (Z * Z * Z) :=
  match n with
  | O => mret (NF_OK, p, status)
  | S n' =>
      r ← nf_program_page (u32 (row + p)) (NF_BUF + p * NF_PAGE_RAW) status;
      let '(rc, status) := (r : Z * Z) in
      if nonzero rc then mret (rc, p, status) else program_pages n' (p + 1) row status
  end.

Definition write_main : M St unit :=
  row ← rd32 (write_cmd CMD_ROW);
  count ← rd32 (write_cmd CMD_COUNT);
  wr32 (write_cmd CMD_RC) 0xDEAD;;
  wr32 (write_cmd CMD_FAIL) 0;;
  wr32 (write_cmd CMD_STATUS) 0;;
  if NF_MAX_PAGES <? count then wr32 (write_cmd CMD_RC) NF_E_ARG
  else
    nf_hw_init;;
    r ← nf_erase_block row 0;
    let '(rc, status) := (r : Z * Z) in
    if nonzero rc then
      wr32 (write_cmd CMD_FAIL) count;;
      wr32 (write_cmd CMD_STATUS) status;;
      wr32 (write_cmd CMD_RC) (u32 rc)
    else
      r ← program_pages (Z.to_nat count) 0 row status;
      let '(rc, p, status) := (r : Z * Z * Z) in
      wr32 (write_cmd CMD_FAIL) p;;
      wr32 (write_cmd CMD_STATUS) status;;
      wr32 (write_cmd CMD_RC) (u32 rc).

Fixpoint read_pages (n : nat) (p row : Z) : M St (Z * Z) :=
  match n with
  | O => mret (NF_OK, p)
  | S n' =>
      rc ← nf_read_page (u32 (row + p)) (NF_BUF + p * NF_PAGE_RAW);
      if nonzero rc then mret (rc, p) else read_pages n' (p + 1) row
  end.

Definition read_main : M St unit :=
  row ← rd32 (read_cmd CMD_ROW);
  count ← rd32 (read_cmd CMD_COUNT);
  wr32 (read_cmd CMD_RC) 0xDEAD;;
  wr32 (read_cmd CMD_FAIL) 0;;
  wr32 (read_cmd CMD_ID) 0;;
  if (count =? 0) || (NF_MAX_PAGES <? count) then wr32 (read_cmd CMD_RC) NF_E_ARG
  else
    nf_hw_init;;
    r ← nf_read_id 0;
    let '(rc, id) := (r : Z * Z) in
    wr32 (read_cmd CMD_ID) id;;
    r ← (if nonzero rc then mret (rc, 0) else read_pages (Z.to_nat count) 0 row);
    let '(rc, p) := (r : Z * Z) in
    wr32 (read_cmd CMD_FAIL) p;;
    wr32 (read_cmd CMD_RC) (u32 rc).
End Flash.

(** ** The chip behind the sequencer *)

Inductive flash_op := Erase (row : Z) | Program (row col : Z) (data : list Z).
Inductive cycle := CCmd (c : Z) | CAddr (b : Z) | CData (words : list Z).
Record chip := Chip { c_cmd : Z; c_addr : list Z; c_data : list Z; c_ops : list flash_op }.

(** 60h, three row bytes, D0h erase; 80h, two column and three row bytes, data, 10h
    program; every other command changes nothing in the array. *)
Definition chip_cycle (k : chip) (x : cycle) : chip :=
  match x with
  | CCmd c =>
      Chip c [] []
        (if (c =? 0xD0) && (c_cmd k =? 0x60) then c_ops k ++ [Erase (le_join (c_addr k))]
         else if (c =? 0x10) && (c_cmd k =? 0x80) then
           c_ops k ++ [Program (le_join (drop 2 (c_addr k))) (le_join (take 2 (c_addr k))) (c_data k)]
         else c_ops k)
  | CAddr b => Chip (c_cmd k) (c_addr k ++ [b]) (c_data k) (c_ops k)
  | CData ws => Chip (c_cmd k) (c_addr k) (c_data k ++ ws) (c_ops k)
  end.

(** Data goes out when the DMA word has its direction and its count and the buffer has
    its direction. *)
Definition l2_words (regs : Z → Z) (n : Z) : list Z := map (λ i, regs (L2_BUF5 + 4 * i)) (seqZ 0 (n / 4)).
Definition out_words (regs : Z → Z) (n : Z) : list Z :=
  if Z.testbit (regs NF_DMA) 2 && Z.testbit (regs L2_BUF_CFG) 13 && (((regs NF_DMA .>> 7) .& 0x1FFF) =? n) then l2_words regs n else [].

(** A slot: the opcode in the low 11 bits, of which bit 0 marks the last one, and
    the argument above. *)
Definition slot_cycle (regs : Z → Z) (w : Z) : option cycle :=
  let arg := (w .>> 11) .& 0x7FF in
  let op := w .& 0x7FE in
  if (op =? 0x64) || (op =? 0x464) then Some (CCmd arg)
  else if op =? 0x62 then Some (CAddr arg)
  else if op =? 0x128 then Some (CData (out_words regs (arg + 1)))
  else None.
Fixpoint run_slots (n : nat) (a : Z) (regs : Z → Z) (k : chip) : chip :=
  match n with
  | O => k
  | S n' =>
      let k' := match slot_cycle regs (regs a) with Some x => chip_cycle k x | None => k end in
      if Z.testbit (regs a) 0 then k' else run_slots n' (a + 4) regs k'
  end.

Record flash_obs := FlashObs { f_regs : Z → Z; f_chip : chip }.
Definition flash_step (c : flash_obs) (e : io) : flash_obs :=
  match e with
  | IoRd _ _ _ => c
  | IoWr _ a v =>
      let regs := λ x, if x =? a then v else f_regs c x in
      FlashObs regs (if (a =? NF_CTRL) && Z.testbit v 30 then run_slots 16 NF_SEQ regs (f_chip c) else f_chip c)
  end.

(** ** The cycles of the functions *)

(** The slot registers can be read back. *)
Class SlotsReadBack (D : Type) `{!Device D} : Prop :=
  slots_read_back : ∀ a v (d : D), NF_SEQ <= a < NF_SEQ + 0x40 → word_ok v → fst (dev_read W32 a (dev_write W32 a v d)) = v.

Section cycles.
Context {D : Type} `{!Device D}.
Abbreviation St := (machine (logged D)).
Implicit Types (s : St) (c : flash_obs).

Lemma gwp_ddr_rd a (Q : Z → flash_obs → St → Prop) c s :
  in_ddr a = true → Q (le_join (mget_list (ram s) a 4)) c s → gwp flash_step (rd32 a) Q c s.
Proof.
  intros Ha HQ. unfold rd, bus_read. change (machine_of s) with s. eexists []. rewrite app_nil_r. cbn. rewrite Ha. cbn.
  by split.
Qed.
Lemma gwp_ddr_wr a v (Q : unit → flash_obs → St → Prop) c s :
  in_ddr a = true → Q tt c (Machine (mset_list (ram s) a (le_split 4 v)) (dev s)) → gwp flash_step (wr32 a v) Q c s.
Proof. intros Ha HQ. exists []. rewrite app_nil_r. unfold wr, bus_write. change (machine_of s) with s. rewrite Ha. by split. Qed.

(** Register accesses, with the memory of the state fixed. *)
Lemma reg_wr a v (Q : unit → flash_obs → St → Prop) c s :
  in_ddr a = false → (∀ s', ram s' = ram s → Q tt (flash_step c (IoWr W32 a (u32 v))) s') → gwp flash_step (wr32 a v) Q c s.
Proof. intros Ha HQ. apply gwp_wr; [done|intros m Hm]. by apply HQ. Qed.
Lemma reg_rd a (Q : Z → flash_obs → St → Prop) c s :
  in_ddr a = false → (∀ v s', ram s' = ram s → Q v c s') → gwp flash_step (rd32 a) Q c s.
Proof. intros Ha HQ. apply gwp_rd; [done|intros v m Hm]. by apply HQ. Qed.
Lemma reg_rmw a f (Q : unit → flash_obs → St → Prop) c s :
  in_ddr a = false → (∀ v s', ram s' = ram s → Q tt (flash_step c (IoWr W32 a (u32 (f v)))) s') → gwp flash_step (rmw W32 a f) Q c s.
Proof. intros Ha HQ. apply gwp_bind, reg_rd; [done|intros v s1 H1]. apply reg_wr; [done|intros s2 H2]. apply HQ. by rewrite H2. Qed.

(** [c'] differs from [c] in the registers of [P] only. *)
Definition regs_only (P : Z → Prop) c c' : Prop :=
  f_chip c' = f_chip c ∧ ∀ x, ¬ P x → f_regs c' x = f_regs c x.

Lemma gwp_seq_wait (Q : bool → flash_obs → St → Prop) c s :
  (∀ b s', ram s' = ram s → Q b c s') → gwp flash_step seq_wait Q c s.
Proof.
  intros HQ. apply gwp_bind. eapply gwp_mono.
  - apply (gwp_spin flash_step (λ c' s', c' = c ∧ ram s' = ram s) (λ _, True)); [done|].
    intros c1 s1 [-> H1]. apply gwp_bind, reg_rd; [done|intros v s2 H2]. apply gwp_ret. split; [|done]. split; [done|congruence].
  - intros r c' s' [[-> Hr] _]. apply gwp_ret. by apply HQ.
Qed.
Lemma gwp_dma_wait (Q : Z → flash_obs → St → Prop) c s :
  (∀ rc c' s', ram s' = ram s → regs_only (eq NF_DMA) c c' → Q rc c' s') → gwp flash_step dma_wait Q c s.
Proof.
  intros HQ. apply gwp_bind. eapply gwp_mono.
  - apply (gwp_spin flash_step (λ c' s', regs_only (eq NF_DMA) c c' ∧ ram s' = ram s) (λ _, True)); [by split_and!|].
    intros c1 s1 [[Hc Hr] H1]. apply gwp_bind, reg_rd; [done|intros v s2 H2].
    destruct (nonzero _); [|apply gwp_ret; split; [split; [by split|congruence]|done]].
    apply gwp_bind, reg_rmw; [done|intros w s3 H3]. apply gwp_ret. split; [split; [|congruence]|done]. split; [done|].
    intros x Hx. cbn. destruct (x =? NF_DMA) eqn:E; [apply Z.eqb_eq in E; by subst|by apply Hr].
  - intros r c' s' [[Hc Hr] _]. apply gwp_ret. by apply HQ.
Qed.

Lemma start_bit v : Z.testbit (u32 ((v .& 0x7FFFF3FF) .| 0x40008400)) 30 = true.
Proof. rewrite testbit_u32 by done. rewrite Z.lor_spec. by rewrite orb_true_r. Qed.
(** A start runs the slots. *)
Lemma gwp_seq_start (Q : unit → flash_obs → St → Prop) c s :
  (∀ v s', ram s' = ram s →
     let regs := λ x, if x =? NF_CTRL then v else f_regs c x in
     Q tt (FlashObs regs (run_slots 16 NF_SEQ regs (f_chip c))) s') →
  gwp flash_step seq_start Q c s.
Proof.
  intros HQ. apply reg_rmw; [done|intros v s' Hs]. specialize (HQ (u32 ((v .& 0x7FFFF3FF) .| 0x40008400)) s' Hs).
  unfold flash_step. rewrite start_bit. exact HQ.
Qed.

Lemma run_slots_last n a regs w k :
  regs a = w → Z.testbit w 0 = true →
  run_slots (S n) a regs k = match slot_cycle regs w with Some x => chip_cycle k x | None => k end.
Proof. intros <- Hb. cbn [run_slots]. by rewrite Hb. Qed.
Lemma run_slots_next n a regs w k :
  regs a = w → Z.testbit w 0 = false →
  run_slots (S n) a regs k = run_slots n (a + 4) regs (match slot_cycle regs w with Some x => chip_cycle k x | None => k end).
Proof. intros <- Hb. cbn [run_slots]. by rewrite Hb. Qed.

(** An address slot, and the last one with its mark. *)
Definition addr_word (b : Z) : Z := (b .<< 11) .| 0x62.
Lemma addr_slots b : byte_ok b →
  (∀ regs, slot_cycle regs (u32 (addr_word b)) = Some (CAddr b)) ∧ Z.testbit (u32 (addr_word b)) 0 = false ∧
  (∀ regs, slot_cycle regs (u32 (u32 (addr_word b) .| 1)) = Some (CAddr b)) ∧ Z.testbit (u32 (u32 (addr_word b) .| 1)) 0 = true.
Proof.
  intros Hb.
  assert (forallb (λ b, let w := u32 (addr_word b) in let w' := u32 (w .| 1) in
    (w .& 0x7FE =? 0x62) && ((w .>> 11) .& 0x7FF =? b) && negb (Z.testbit w 0) &&
    (w' .& 0x7FE =? 0x62) && ((w' .>> 11) .& 0x7FF =? b) && Z.testbit w' 0) (seqZ 0 256) = true) as H by (vm_compute; reflexivity).
  rewrite forallb_forall in H. specialize (H b). cbv zeta in H. rewrite !andb_true_iff, !Z.eqb_eq, negb_true_iff in H.
  destruct H as [[[[[H1 H2] H3] H4] H5] H6]; [apply list_elem_of_In, elem_of_seqZ; unfold byte_ok in Hb; lia|].
  split_and!; [intros regs|done|intros regs|done]; unfold slot_cycle; [by rewrite H1, H2|by rewrite H4, H5].
Qed.

Definition idle c c' : Prop := c_ops (f_chip c') = c_ops (f_chip c) ∧ f_regs c' L2_BUF_CFG = f_regs c L2_BUF_CFG.

Lemma gwp_check_status st (Q : Z * Z → flash_obs → St → Prop) c s :
  (∀ r c' s', ram s' = ram s → idle c c' → Q r c' s') → gwp flash_step (check_status st) Q c s.
Proof.
  intros HQ. apply gwp_bind. unfold read_status.
  do 3 (apply gwp_bind, reg_wr; [done|intros ? ?]).
  apply gwp_bind, gwp_seq_start; intros v s4 H4 regs.
  apply gwp_bind, gwp_seq_wait; intros b s5 H5.
  assert (idle c (FlashObs regs (run_slots 16 NF_SEQ regs (f_chip c)))) as Hi.
  { split; [|reflexivity]. cbn [f_chip]. rewrite (run_slots_next _ _ _ 0x38064) by reflexivity.
    by rewrite (run_slots_last _ _ _ 0x59) by reflexivity. }
  destruct (negb b); [apply gwp_ret, gwp_ret, HQ; [congruence|exact Hi]|].
  apply gwp_bind, reg_rd; [done|intros w s6 H6]. apply gwp_ret, gwp_ret, HQ; [congruence|exact Hi].
Qed.

(** The bytes of a row number. *)
Definition row_byte (row : Z) (i : Z) : Z := (row .>> (8 * i)) .& 0xFF.
Lemma row_byte_ok row i : byte_ok (row_byte row i).
Proof. unfold row_byte, byte_ok. rewrite (land_low _ 8) by done. apply Z.mod_pos_bound. done. Qed.
Lemma row_bytes row : le_join [row_byte row 0; row_byte row 1; row_byte row 2] = row mod 16777216.
Proof.
  change 16777216 with (256 ^ Z.of_nat 3). rewrite <-le_join_split. f_equal. unfold row_byte. cbn [le_split].
  rewrite !(land_low _ 8), !Z.shiftr_div_pow2 by done. unfold u8. change (2 ^ 8) with 256.
  change (2 ^ (8 * 0)) with 1. change (2 ^ (8 * 1)) with 256. change (2 ^ (8 * 2)) with (256 * 256).
  by rewrite Z.div_1_r, Z.div_div by done.
Qed.

Ltac slot w := rewrite (run_slots_next _ _ _ w) by reflexivity.
Ltac slot_addr b :=
  rewrite (run_slots_next _ _ _ (u32 (addr_word b))); [|reflexivity|apply (addr_slots b), row_byte_ok];
  rewrite (proj1 (addr_slots b (row_byte_ok _ _))).

Lemma gwp_erase row st (Q : Z * Z → flash_obs → St → Prop) c s :
  (∀ r c' s', ram s' = ram s → c_ops (f_chip c') = c_ops (f_chip c) ++ [Erase (row mod 16777216)] → Q r c' s') →
  gwp flash_step (nf_erase_block row st) Q c s.
Proof.
  intros HQ. unfold nf_erase_block, emit_addr.
  do 2 (apply gwp_bind, reg_wr; [done|intros ? ?]). apply gwp_bind, gwp_bind, gwp_ret. cbn [for_range ROW_CYCLES]. apply gwp_bind.
  do 3 (apply gwp_bind, reg_wr; [done|intros ? ?]). apply gwp_skip, gwp_ret.
  do 2 (apply gwp_bind, reg_wr; [done|intros ? ?]).
  apply gwp_bind, gwp_seq_start; intros v s8 H8 regs.
  assert (c_ops (run_slots 16 NF_SEQ regs (f_chip c)) = c_ops (f_chip c) ++ [Erase (row mod 16777216)]) as Hops.
  { slot 0x30064. slot_addr (row_byte row 0). slot_addr (row_byte row 1). slot_addr (row_byte row 2). slot 0x68064.
    rewrite (run_slots_last _ _ _ 0x201) by reflexivity. rewrite <-row_bytes. reflexivity. }
  apply gwp_bind, gwp_seq_wait; intros b s9 H9.
  destruct (negb b); [apply gwp_ret, HQ; [congruence|exact Hops]|].
  apply gwp_check_status. intros r c2 s10 Hr [Ho _]. apply HQ; [congruence|]. rewrite Ho. exact Hops.
Qed.

(** What every result of a computation satisfies. *)
Definition returns {T A} (P : A → Prop) (m : M T A) : Prop := ∀ t, P (fst (m t)).
Lemma returns_ret {T A} (P : A → Prop) a : P a → returns P (mret a : M T A).
Proof. by intros Ha t. Qed.
Lemma returns_bind {T A B} (P : B → Prop) (m : M T A) (k : A → M T B) : (∀ a, returns P (k a)) → returns P (m ≫= k).
Proof. intros Hk t. unfold mbind, M_bind. destruct (m t) as [a t']. apply Hk. Qed.
Lemma returns_bind_res {T A B} (P : B → Prop) (R : A → Prop) (m : M T A) (k : A → M T B) :
  returns R m → (∀ a, R a → returns P (k a)) → returns P (m ≫= k).
Proof. intros Hm Hk t. unfold mbind, M_bind. specialize (Hm t). destruct (m t) as [a t']. by apply Hk. Qed.
Lemma gwp_returns {A} (P : A → Prop) (m : M St A) Q c s :
  returns P m → gwp flash_step m Q c s → gwp flash_step m (λ a c' s', P a ∧ Q a c' s') c s.
Proof. intros HP (l & Hl & HQ). exists l. split; [done|]. split; [apply HP|done]. Qed.

(** The result codes. *)
Definition code_ok (rc : Z) : Prop := 0 <= rc <= 5.
Ltac codes := repeat first [done | apply returns_ret; (done || lia) | apply returns_bind; intros ? | match goal with |- returns _ (if ?b then _ else _) => destruct b end ].
Lemma dma_wait_code : returns code_ok (dma_wait : M St Z).
Proof. unfold dma_wait, code_ok. apply returns_bind. intros [[]|]; codes. Qed.
Lemma check_status_code st : returns (λ r, code_ok (fst r)) (check_status st : M St (Z * Z)).
Proof.
  unfold check_status. apply (returns_bind_res _ (λ r, code_ok (fst r))); [unfold read_status, code_ok; codes|].
  intros [rc out] H. cbn [fst] in H. apply returns_ret. destruct (nonzero rc); [done|]. by destruct (nonzero _).
Qed.
Lemma erase_code row st : returns (λ r, code_ok (fst r)) (nf_erase_block row st : M St (Z * Z)).
Proof. unfold nf_erase_block. do 7 (apply returns_bind; intros ?). destruct (negb _); [by apply returns_ret|apply check_status_code]. Qed.
Lemma program_chunk_code src : returns code_ok (program_chunk src : M St Z).
Proof. unfold program_chunk. do 6 (apply returns_bind; intros ?). destruct (negb _); [by apply returns_ret|apply dma_wait_code]. Qed.
Lemma program_chunks_code n i src : returns code_ok (program_chunks n i src : M St Z).
Proof.
  revert i. induction n as [|n IH]; intros i; cbn [program_chunks]; [by apply returns_ret|].
  apply (returns_bind_res _ code_ok); [apply program_chunk_code|]. intros rc Hrc. destruct (nonzero rc); [by apply returns_ret|apply IH].
Qed.
Lemma program_data_code row src : returns code_ok (program_data row src : M St Z).
Proof.
  unfold program_data. do 6 (apply returns_bind; intros ?). destruct (negb _); [by apply returns_ret|].
  apply (returns_bind_res _ code_ok); [apply program_chunks_code|]. intros rc Hrc. destruct (nonzero rc); [by apply returns_ret|].
  do 4 (apply returns_bind; intros ?). apply returns_bind; intros [|]; by apply returns_ret.
Qed.
Lemma program_page_code row src st : returns (λ r, code_ok (fst r)) (nf_program_page row src st : M St (Z * Z)).
Proof.
  unfold nf_program_page. do 2 (apply returns_bind; intros ?). apply (returns_bind_res _ code_ok); [apply program_data_code|].
  intros rc Hrc. apply returns_bind. intros _. destruct (nonzero rc); [by apply returns_ret|apply check_status_code].
Qed.
Lemma program_pages_code n p row st : returns (λ r, code_ok (fst (fst r))) (program_pages n p row st : M St (Z * Z * Z)).
Proof.
  revert p st. induction n as [|n IH]; intros p st; cbn [program_pages]; [by apply returns_ret|].
  apply (returns_bind_res _ (λ r, code_ok (fst r))); [apply program_page_code|]. intros [rc st1] Hrc.
  destruct (nonzero rc); [by apply returns_ret|apply IH].
Qed.

(** ** A page *)

Definition ram_word (m : mem) (a : Z) : Z := le_join (mget_list m a 4).
Definition ram_words (m : mem) (a n : Z) : list Z := map (λ i, ram_word m (a + 4 * i)) (seqZ 0 n).
Lemma ram_word_ok m a : word_ok (ram_word m a).
Proof. pose proof (le_join_bound _ (mget_list_ok m a 4)) as H. unfold zlen in H. by rewrite mget_list_length in H. Qed.
Lemma ram_words_app m a n k : 0 <= n → 0 <= k → ram_words m a (n + k) = ram_words m a n ++ ram_words m (a + 4 * n) k.
Proof.
  intros Hn Hk. unfold ram_words. rewrite seqZ_app, map_app, Z.add_0_l by done. f_equal.
  rewrite <-(Z.add_0_r n) at 1. rewrite <-fmap_add_seqZ. change (Z.add n <$> seqZ 0 k) with (map (Z.add n) (seqZ 0 k)).
  rewrite map_map. apply map_ext. intros i. f_equal. lia.
Qed.

Definition in_l2 (x : Z) : Prop := L2_BUF5 <= x < L2_BUF5 + NF_CHUNK.
Lemma gwp_copy src (Q : unit → flash_obs → St → Prop) c s :
  (∀ i, 0 <= i < 128 → in_ddr (src + 4 * i) = true) →
  (∀ c' s', ram s' = ram s → regs_only in_l2 c c' → (∀ i, 0 <= i < 128 → f_regs c' (L2_BUF5 + 4 * i) = ram_word (ram s) (src + 4 * i)) → Q tt c' s') →
  gwp flash_step (copy_words L2_BUF5 src (Z.to_nat (NF_CHUNK / 4))) Q c s.
Proof.
  intros Hsrc HQ. unfold copy_words. change (Z.to_nat (NF_CHUNK / 4)) with 128%nat.
  eapply gwp_mono.
  - apply (gwp_for_range flash_step (λ i c' s', ram s' = ram s ∧ regs_only in_l2 c c' ∧
      ∀ j, 0 <= j < i → f_regs c' (L2_BUF5 + 4 * j) = ram_word (ram s) (src + 4 * j))); [split_and!; [done|by split|intros; lia]|].
    intros i c1 s1 Hi (Hm & [Hc Hr] & Hw). apply gwp_bind, gwp_ddr_rd; [apply Hsrc; lia|]. rewrite Hm.
    apply reg_wr; [apply in_ddr_false; unfold L2_BUF5, DDR_END; lia|intros s2 H2]. split; [congruence|].
    assert (u32 (le_join (mget_list (ram s) (src + 4 * i) 4)) = ram_word (ram s) (src + 4 * i)) as -> by (apply u32_id, ram_word_ok).
    unfold flash_step. replace (L2_BUF5 + 4 * i =? NF_CTRL) with false by (symmetry; unfold L2_BUF5, NF_CTRL; lia).
    split; [split; [done|]|]; cbn [f_regs].
    + intros x Hx. destruct (x =? L2_BUF5 + 4 * i) eqn:E; [|by apply Hr]. exfalso. apply Hx. unfold in_l2, NF_CHUNK. lia.
    + intros j Hj. destruct (L2_BUF5 + 4 * j =? L2_BUF5 + 4 * i) eqn:E; [by replace j with i by lia|apply Hw; lia].
  - intros [] c' s' (Hm & Hc & Hw). apply HQ; [done|done|]. intros i Hi. apply Hw. lia.
Qed.

Lemma gwp_program_chunk src (Q : Z → flash_obs → St → Prop) c s :
  (∀ i, 0 <= i < 128 → in_ddr (src + 4 * i) = true) → Z.testbit (f_regs c L2_BUF_CFG) 13 = true →
  (∀ rc c' s', ram s' = ram s → f_regs c' L2_BUF_CFG = f_regs c L2_BUF_CFG →
     f_chip c' = chip_cycle (f_chip c) (CData (ram_words (ram s) src 128)) → Q rc c' s') →
  gwp flash_step (program_chunk src) Q c s.
Proof.
  intros Hsrc Hd HQ. apply gwp_bind, gwp_copy; [done|]. intros c1 s1 H1 [Hc1 Hr1] Hw.
  do 3 (apply gwp_bind, reg_wr; [done|intros ? ?]).
  apply gwp_bind, gwp_seq_start; intros v s5 H5 regs.
  assert (f_regs c1 L2_BUF_CFG = f_regs c L2_BUF_CFG) as Hcfg by (apply Hr1; unfold in_l2, L2_BUF5, L2_BUF_CFG; lia).
  assert (run_slots 16 NF_SEQ regs (f_chip c1) = chip_cycle (f_chip c) (CData (ram_words (ram s) src 128))) as Hrun.
  { rewrite (run_slots_last _ _ _ 0xFF929) by reflexivity. rewrite Hc1. unfold slot_cycle. change (0xFF929 .& 0x7FE) with 0x128.
    change ((0xFF929 .>> 11) .& 0x7FF + 1) with 512. cbn [Z.eqb Pos.eqb orb]. do 2 f_equal. unfold out_words.
    change (regs NF_DMA) with 0x11001C. change (regs L2_BUF_CFG) with (f_regs c1 L2_BUF_CFG). rewrite Hcfg, Hd.
    change (Z.testbit 0x11001C 2 && true && (((0x11001C .>> 7) .& 0x1FFF) =? 512)) with true.
    unfold l2_words, ram_words. change (512 / 4) with 128. apply map_ext_in. intros i Hi%list_elem_of_In%elem_of_seqZ.
    rewrite <-Hw by lia. unfold regs, flash_step. cbn [f_regs].
    repeat match goal with |- context [L2_BUF5 + 4 * i =? ?k] => replace (L2_BUF5 + 4 * i =? k) with false by (symmetry; unfold L2_BUF5, NF_CTRL, NF_SEQ, NF_DMA; lia) end.
    done. }
  apply gwp_bind, gwp_seq_wait; intros b s6 H6.
  destruct (negb b); [apply gwp_ret, HQ; [congruence|exact Hcfg|exact Hrun]|].
  apply gwp_dma_wait. intros rc c7 s7 H7 [Hc7 Hr7]. apply HQ; [congruence|rewrite Hr7 by done; exact Hcfg|rewrite Hc7; exact Hrun].
Qed.

(** The chip has taken the first [n] words of the page at [src], or a part of it. *)
Definition taken (k : chip) (m : mem) (src n : Z) c c' : Prop :=
  f_regs c' L2_BUF_CFG = f_regs c L2_BUF_CFG ∧ f_chip c' = Chip (c_cmd k) (c_addr k) (c_data k ++ ram_words m src n) (c_ops k).

Lemma gwp_program_chunks k src n i (Q : Z → flash_obs → St → Prop) c0 c s :
  0 <= i → (∀ j, 0 <= j < 128 * (i + Z.of_nat n) → in_ddr (src + 4 * j) = true) → Z.testbit (f_regs c0 L2_BUF_CFG) 13 = true →
  taken k (ram s) src (128 * i) c0 c →
  (∀ rc c' s', ram s' = ram s → (∃ m, taken k (ram s) src m c0 c' ∧ (rc = 0 → m = 128 * (i + Z.of_nat n))) → Q rc c' s') →
  gwp flash_step (program_chunks n i src) Q c s.
Proof.
  revert i c s. induction n as [|n IH]; intros i c s Hi Hsrc Hd Ht HQ; cbn [program_chunks].
  { apply gwp_ret, HQ; [done|]. eexists. split; [exact Ht|]. intros _. lia. }
  destruct Ht as [Hcfg Hk]. apply gwp_bind, gwp_program_chunk.
  { intros j Hj. replace (src + i * NF_CHUNK + 4 * j) with (src + 4 * (128 * i + j)) by (unfold NF_CHUNK; lia). apply Hsrc. lia. }
  { by rewrite Hcfg. }
  intros rc c1 s1 H1 Hcfg1 Hk1.
  assert (taken k (ram s) src (128 * (i + 1)) c0 c1) as Ht1.
  { split; [congruence|]. rewrite Hk1, Hk. cbn [chip_cycle c_cmd c_addr c_data c_ops]. f_equal. rewrite <-app_assoc. f_equal.
    replace (128 * (i + 1)) with (128 * i + 128) by lia. rewrite ram_words_app by lia. f_equal. f_equal. unfold NF_CHUNK. lia. }
  destruct (nonzero rc) eqn:E.
  - apply gwp_ret, HQ; [done|]. exists (128 * (i + 1)). split; [done|]. intros ->. discriminate.
  - apply IH; [lia|intros j Hj; apply Hsrc; lia|done|by rewrite H1|]. intros rc2 c2 s2 H2 (m & Hm & Hrc). apply HQ; [congruence|].
    exists m. rewrite H1 in Hm. split; [done|]. intros E2. rewrite (Hrc E2). lia.
Qed.
(** From here on the slots can be read back. *)
Context `{!SlotsReadBack D}.

Lemma slot_mark a x f (Q : unit → flash_obs → St → Prop) c s :
  NF_SEQ <= a < NF_SEQ + 0x40 →
  (∀ s', ram s' = ram s → Q tt (flash_step (flash_step c (IoWr W32 a (u32 x))) (IoWr W32 a (u32 (f (u32 x))))) s') →
  gwp flash_step (wr32 a x) (λ _ c1 s1, gwp flash_step (rmw W32 a f) Q c1 s1) c s.
Proof.
  intros Ha HQ. assert (in_ddr a = false) as Hd by (apply in_ddr_false; unfold NF_SEQ, DDR_BASE in *; lia).
  unfold gwp at 1. unfold wr, bus_write. change (machine_of s) with s. rewrite Hd. cbn [snd set_machine bare_machine].
  exists [IoWr W32 a (u32 x)]. split; [done|]. apply gwp_bind. unfold gwp at 1. unfold rd, bus_read.
  change (machine_of ?s) with s. rewrite Hd. cbn [ram dev dev_read dev_write log_device base_dev wtrunc].
  pose proof (slots_read_back a (u32 x) (base_dev (dev s)) Ha (u32_range x)) as Hrb.
  destruct (dev_read W32 a (dev_write W32 a (u32 x) (base_dev (dev s)))) as [v d]. cbn [fst snd] in *. subst v.
  eexists. split; [reflexivity|]. cbn [replay fold_left]. rewrite u32_id by apply u32_range. apply reg_wr; [done|]. intros s' Hs'. by apply HQ.
Qed.

(** What a page program adds: nothing, or the program of the page when the result is 0. *)
Definition programmed (m : mem) (row src rc : Z) c c' : Prop :=
  ∃ b : bool, c_ops (f_chip c') = c_ops (f_chip c) ++ (if b then [Program (row mod 16777216) 0 (ram_words m src 512)] else []) ∧ (rc = 0 → b = true).

Lemma gwp_program_data row src (Q : Z → flash_obs → St → Prop) c s :
  (∀ j, 0 <= j < 512 → in_ddr (src + 4 * j) = true) → Z.testbit (f_regs c L2_BUF_CFG) 13 = true →
  (∀ rc c' s', ram s' = ram s → programmed (ram s) row src rc c c' → Q rc c' s') →
  gwp flash_step (program_data row src) Q c s.
Proof.
  intros Hsrc Hd HQ. unfold program_data, emit_addr.
  do 2 (apply gwp_bind, reg_wr; [done|intros ? ?]). apply gwp_bind, gwp_bind. cbn [for_range COL_CYCLES ROW_CYCLES].
  apply gwp_bind. do 2 (apply gwp_bind, reg_wr; [done|intros ? ?]). apply gwp_skip, gwp_ret, gwp_bind.
  do 2 (apply gwp_bind, reg_wr; [done|intros ? ?]). apply gwp_bind.
  eapply gwp_mono; [|intros ? ? ? Hx; apply gwp_skip, gwp_ret, gwp_bind; exact Hx]. apply slot_mark; [done|intros s7 H7].
  set (k0 := f_chip c). set (k := Chip 0x80 [row_byte 0 0; row_byte 0 1; row_byte row 0; row_byte row 1; row_byte row 2] [] (c_ops k0)).
  apply gwp_bind, gwp_seq_start; intros v s8 H8 regs.
  assert (run_slots 16 NF_SEQ regs k0 = k) as Hrun.
  { slot 0x40064. slot_addr (row_byte 0 0). slot_addr (row_byte 0 1). slot_addr (row_byte row 0). slot_addr (row_byte row 1).
    rewrite (run_slots_last _ _ _ (u32 (u32 (addr_word (row_byte row 2)) .| 1))); [|reflexivity|apply addr_slots, row_byte_ok].
    destruct (addr_slots (row_byte row 2) (row_byte_ok _ _)) as (_ & _ & -> & _). reflexivity. }
  assert (ram s8 = ram s) as Hm by congruence.
  assert (∃ c1, FlashObs regs (run_slots 16 NF_SEQ regs k0) = c1 ∧ f_chip c1 = k ∧ f_regs c1 L2_BUF_CFG = f_regs c L2_BUF_CFG) as (c1 & Ec & Hk & Hcfg).
  { eexists. split; [reflexivity|]. by split. }
  match goal with |- gwp _ _ _ (FlashObs _ (run_slots _ _ _ ?k1)) _ => change k1 with k0 end. rewrite Ec. clear - Hsrc Hd HQ Hm Hk Hcfg.
  apply gwp_bind, gwp_seq_wait; intros b s9 H9.
  destruct (negb b). { apply gwp_ret, HQ; [congruence|]. exists false. rewrite app_nil_r, Hk. by split. }
  change (Z.to_nat (NF_PAGE_DATA / NF_CHUNK)) with 4%nat. apply gwp_bind.
  eapply (gwp_program_chunks k src 4 0); [done|intros j Hj; apply Hsrc; lia|exact Hd|split; [done|by rewrite Hk]|].
  intros rc c2 s10 H10 (m & [_ Hk2] & Hrc). destruct (nonzero rc) eqn:E.
  { apply gwp_ret, HQ; [congruence|]. exists false. rewrite app_nil_r, Hk2. by split; [|intros ->]. }
  do 3 (apply gwp_bind, reg_wr; [done|intros ? ?]).
  apply gwp_bind, gwp_seq_start; intros v2 s14 H14 regs2.
  apply gwp_bind, gwp_seq_wait; intros b2 s15 H15. apply gwp_ret, HQ; [congruence|]. exists true. split; [|done]. cbn [f_chip].
  match goal with |- context [run_slots 16 NF_SEQ regs2 ?k1] => change k1 with (f_chip c2) end.
  slot 0x8064. rewrite (run_slots_last _ _ _ 0x201) by reflexivity. rewrite Hk2, Hrc by (by apply nonzero_false).
  change (c_ops k0 ++ [Program (le_join [row_byte row 0; row_byte row 1; row_byte row 2]) 0 (ram_words (ram s9) src 512)] =
    c_ops k0 ++ [Program (row mod 16777216) 0 (ram_words (ram s) src 512)]).
  rewrite row_bytes. congruence.
Qed.

Lemma bit13_set v : Z.testbit (u32 (v .| (1 .<< 13))) 13 = true.
Proof. rewrite testbit_u32 by done. rewrite Z.lor_spec. by rewrite orb_true_r. Qed.
Lemma bit13_clear v : Z.testbit (u32 (v .& not32 (1 .<< 13))) 13 = false.
Proof. rewrite testbit_u32 by done. rewrite Z.land_spec. by rewrite andb_false_r. Qed.

Lemma gwp_program_page row src st (Q : Z * Z → flash_obs → St → Prop) c s :
  (∀ j, 0 <= j < 512 → in_ddr (src + 4 * j) = true) →
  (∀ r c' s', ram s' = ram s → Z.testbit (f_regs c' L2_BUF_CFG) 13 = false → programmed (ram s) row src (fst r) c c' → Q r c' s') →
  gwp flash_step (nf_program_page row src st) Q c s.
Proof.
  intros Hsrc HQ. unfold nf_program_page, l2_bind, l2_dir_write. apply gwp_bind.
  do 3 (apply gwp_bind, reg_rmw; [done|intros ? ? ?]). apply reg_rmw; [done|intros v4 s4 H4].
  apply gwp_bind, reg_rmw; [done|intros v5 s5 H5]. apply gwp_bind, gwp_program_data; [done|exact (bit13_set v5)|].
  intros rc c6 s6 H6 (b & Hops & Hb). apply gwp_bind, reg_rmw; [done|intros v7 s7 H7].
  assert (ram s5 = ram s) as Hm by congruence. rewrite Hm in Hops.
  destruct (nonzero rc) eqn:E.
  - apply gwp_ret, HQ; [congruence|exact (bit13_clear v7)|]. exists b. by split.
  - apply gwp_check_status. intros r c8 s8 H8 [Ho Hc]. apply HQ; [congruence|rewrite Hc; exact (bit13_clear v7)|].
    exists true. split; [|done]. rewrite Ho. rewrite (Hb (nonzero_false _ E)) in Hops. exact Hops.
Qed.

Definition page_op (m : mem) (row q : Z) : flash_op := Program ((row + q) mod 16777216) 0 (ram_words m (NF_BUF + q * NF_PAGE_RAW) 512).
Definition page_ops (m : mem) (row n : Z) : list flash_op := map (page_op m row) (seqZ 0 n).
Lemma page_ops_snoc m row n : 0 <= n → page_ops m row (n + 1) = page_ops m row n ++ [page_op m row n].
Proof. intros Hn. unfold page_ops. by rewrite seqZ_app, map_app, Z.add_0_l by lia. Qed.

Lemma gwp_program_pages ops0 n p row st (Q : Z * Z * Z → flash_obs → St → Prop) c s :
  0 <= p → p + Z.of_nat n <= NF_MAX_PAGES → c_ops (f_chip c) = ops0 ++ page_ops (ram s) row p →
  (∀ rc q st' c' s', ram s' = ram s → 0 <= q <= p + Z.of_nat n →
     (rc = 0 → q = p + Z.of_nat n ∧ c_ops (f_chip c') = ops0 ++ page_ops (ram s) row q) →
     (rc ≠ 0 → q < p + Z.of_nat n ∧ ∃ k, q <= k <= q + 1 ∧ c_ops (f_chip c') = ops0 ++ page_ops (ram s) row k) → Q (rc, q, st') c' s') →
  gwp flash_step (program_pages n p row st) Q c s.
Proof.
  revert p st c s. induction n as [|n IH]; intros p st c s Hp Hn Hc HQ; cbn [program_pages].
  { apply gwp_ret, HQ; [done|lia| |done]. intros _. split; [lia|done]. }
  apply gwp_bind, gwp_program_page.
  { intros j Hj. apply in_ddr_true. unfold NF_BUF, NF_PAGE_RAW, NF_MAX_PAGES, DDR_BASE, DDR_END in *. lia. }
  intros [rc st1] c1 s1 H1 _ (b & Hops & Hb). cbn [fst] in Hb.
  assert ((u32 (row + p)) mod 16777216 = (row + p) mod 16777216) as Hrow.
  { unfold u32. apply Z.mod_mod_divide. by exists 256. }
  rewrite Hrow, Hc in Hops. change (Program _ _ _) with (page_op (ram s) row p) in Hops.
  destruct (nonzero rc) eqn:E.
  - apply nonzero_true in E. apply gwp_ret, HQ; [done|lia|done|intros _]. split; [lia|]. exists (if b then p + 1 else p).
    split; [destruct b; lia|]. rewrite Hops. destruct b; [by rewrite page_ops_snoc, app_assoc|by rewrite app_nil_r].
  - apply nonzero_false in E. rewrite (Hb E) in Hops. apply IH; [lia|lia|rewrite H1, page_ops_snoc, app_assoc by done; exact Hops|].
    rewrite H1. intros rc2 q st' c' s' Hm Hq H0 H0'.
    apply HQ; [congruence|lia|intros Hz; destruct (H0 Hz); split; [lia|done]|intros Hz; destruct (H0' Hz); split; [lia|done]].
Qed.

(** ** The stub that writes *)

Lemma ram_word_set m a v : ram_word (mset_list m a (le_split 4 v)) a = u32 v.
Proof.
  unfold ram_word. rewrite <-(le_split_length 4 v) at 2. rewrite mget_list_mset_list by apply le_split_ok.
  by rewrite le_join_split.
Qed.
Lemma ram_word_other m a v b : b + 4 <= a ∨ a + 4 <= b → ram_word (mset_list m a (le_split 4 v)) b = ram_word m b.
Proof.
  intros Hab. unfold ram_word. f_equal. apply mget_list_ext. intros x Hx. apply mget_mset_list_out.
  unfold zlen. rewrite le_split_length. lia.
Qed.
Lemma page_ops_ext m m' row n :
  n <= NF_MAX_PAGES → (∀ a, NF_BUF <= a < NF_BUF + NF_MAX_PAGES * NF_PAGE_RAW → mget m' a = mget m a) → page_ops m' row n = page_ops m row n.
Proof.
  intros Hn Hm. unfold page_ops. apply map_ext_in. intros q Hq%list_elem_of_In%elem_of_seqZ. unfold page_op. f_equal.
  unfold ram_words. apply map_ext_in. intros i Hi%list_elem_of_In%elem_of_seqZ. unfold ram_word. f_equal. apply mget_list_ext.
  intros a Ha. apply Hm. unfold NF_PAGE_RAW, NF_MAX_PAGES in *. lia.
Qed.

Variable rom_nf_boot_hw_init : M St unit.
(** The ROM prepares the controller; it neither erases nor programs, and it leaves
    memory alone. *)
Hypothesis rom_prepares : ∀ c s,
  gwp flash_step rom_nf_boot_hw_init (λ _ c' s', ram s' = ram s ∧ c_ops (f_chip c') = c_ops (f_chip c)) c s.

Lemma gwp_hw_init (Q : unit → flash_obs → St → Prop) c s :
  (∀ c' s', ram s' = ram s → c_ops (f_chip c') = c_ops (f_chip c) → Q tt c' s') →
  gwp flash_step (nf_hw_init rom_nf_boot_hw_init) Q c s.
Proof.
  intros HQ. apply gwp_bind. eapply gwp_mono; [apply rom_prepares|]. intros ? c1 s1 [H1 Ho].
  do 2 (apply gwp_bind, reg_wr; [done|intros ? ?]). apply reg_wr; [done|intros ? ?]. apply HQ; [congruence|exact Ho].
Qed.

Definition in_cmd (cmd : Z → Z) (a : Z) : Prop := cmd CMD_RC <= a < cmd 5.
Definition kept_out (cmd : Z → Z) (m m' : mem) : Prop := ∀ a, ¬ in_cmd cmd a → mget m' a = mget m a.
Lemma kept_word cmd m m' i v : (cmd = read_cmd ∨ cmd = write_cmd) → 2 <= i < 5 → kept_out cmd m m' → kept_out cmd m (mset_list m' (cmd i) (le_split 4 v)).
Proof.
  intros Hc Hi Hm a Ha. rewrite mget_mset_list_out; [by apply Hm|]. unfold zlen. rewrite le_split_length.
  unfold in_cmd, CMD_RC in Ha. destruct Hc as [->| ->]; unfold read_cmd, write_cmd in *; lia.
Qed.

Lemma write_cmd_ddr i : 0 <= i < 8 → in_ddr (write_cmd i) = true.
Proof. intros Hi. apply in_ddr_true. unfold write_cmd, DDR_BASE, DDR_END. lia. Qed.
Lemma gwp_report fail st rc (Q : unit → flash_obs → St → Prop) m c s :
  kept_out write_cmd m (ram s) →
  (∀ s', kept_out write_cmd m (ram s') → ram_word (ram s') (write_cmd CMD_RC) = u32 rc → ram_word (ram s') (write_cmd CMD_FAIL) = u32 fail → Q tt c s') →
  gwp flash_step (wr32 (write_cmd CMD_FAIL) fail;; wr32 (write_cmd CMD_STATUS) st;; wr32 (write_cmd CMD_RC) (u32 rc)) Q c s.
Proof.
  intros Hm HQ. do 2 (apply gwp_bind, gwp_ddr_wr; [by apply write_cmd_ddr|]). apply gwp_ddr_wr; [by apply write_cmd_ddr|].
  apply HQ; cbn [ram].
  - do 3 (apply kept_word; [by right|done|]). done.
  - rewrite ram_word_set. apply u32_u32.
  - rewrite ram_word_other by (unfold write_cmd, CMD_RC, CMD_FAIL; lia). rewrite ram_word_other by (unfold write_cmd, CMD_STATUS, CMD_FAIL; lia).
    by rewrite ram_word_set.
Qed.

(** What the host reads in the command block, and what has happened to the chip. *)
Definition written (m m' : mem) (ops : list flash_op) : Prop :=
  let row := ram_word m (write_cmd CMD_ROW) in
  let count := ram_word m (write_cmd CMD_COUNT) in
  let rc := ram_word m' (write_cmd CMD_RC) in
  let fail := ram_word m' (write_cmd CMD_FAIL) in
  let erase := Erase (row mod 16777216) in
  if NF_MAX_PAGES <? count then rc = NF_E_ARG ∧ ops = []
  else
    (rc = NF_OK → fail = count ∧ ops = erase :: page_ops m row count) ∧
    (rc ≠ NF_OK → (fail = count ∧ ops = [erase]) ∨ (fail < count ∧ ∃ k, fail <= k <= fail + 1 ∧ ops = erase :: page_ops m row k)).

(** C14: what the tool does to the flash is what it reports.  For every controller whose
    slots can be read back and every ROM routine that leaves the array alone: more than
    64 pages are refused; otherwise the block is erased first, then the pages are
    programmed in order, each once, at its row and column 0, with the 2048 bytes of its
    slot in the buffer; success means all of them, a failed erase none, and with a
    failed page the ones before it are complete and the ones behind it untouched.
    Memory changes in the three result words only. *)
Theorem write_main_programs c s :
  gwp flash_step (write_main rom_nf_boot_hw_init) (λ _ c' s',
    kept_out write_cmd (ram s) (ram s') ∧
    ∃ ops, c_ops (f_chip c') = c_ops (f_chip c) ++ ops ∧ written (ram s) (ram s') ops) c s.
Proof.
  unfold write_main, written. do 2 (apply gwp_bind, gwp_ddr_rd; [by apply write_cmd_ddr|]).
  change (le_join (mget_list (ram s) (write_cmd CMD_ROW) 4)) with (ram_word (ram s) (write_cmd CMD_ROW)).
  change (le_join (mget_list (ram s) (write_cmd CMD_COUNT) 4)) with (ram_word (ram s) (write_cmd CMD_COUNT)).
  set (row := ram_word (ram s) (write_cmd CMD_ROW)). pose proof (ram_word_ok (ram s) (write_cmd CMD_COUNT)) as Hcount.
  set (count := ram_word (ram s) (write_cmd CMD_COUNT)) in *.
  do 3 (apply gwp_bind, gwp_ddr_wr; [by apply write_cmd_ddr|]).
  match goal with |- gwp _ _ _ _ ?s1 => assert (kept_out write_cmd (ram s) (ram s1)) as Hk1
    by (cbn [ram]; do 3 (apply kept_word; [by right|done|]); done); generalize dependent s1 end.
  intros s1 Hk1. destruct (NF_MAX_PAGES <? count) eqn:Ec.
  { apply gwp_ddr_wr; [by apply write_cmd_ddr|]. cbn [ram]. split; [by apply kept_word; [right|..]|].
    exists []. rewrite app_nil_r, ram_word_set. done. }
  assert (∀ n, n <= NF_MAX_PAGES → page_ops (ram s1) row n = page_ops (ram s) row n) as Hpages.
  { intros n Hn. apply page_ops_ext; [done|]. intros a Ha. apply Hk1. unfold in_cmd, write_cmd, NF_BUF, NF_MAX_PAGES, NF_PAGE_RAW, CMD_RC in *. lia. }
  apply gwp_bind, gwp_hw_init. intros c2 s2 H2 Ho2.
  apply gwp_bind. eapply gwp_mono; [eapply (gwp_returns _ _ _ _ _ (erase_code _ _)), gwp_erase; intros r c3 s3 H3 Ho3; exact (conj H3 Ho3)|].
  intros [rc st] c3 s3 [Hrc [H3 Ho3]]. cbn [fst] in Hrc. unfold code_ok in Hrc.
  assert (kept_out write_cmd (ram s) (ram s3)) as Hk3 by (rewrite H3, H2; exact Hk1). rewrite Ho2 in Ho3.
  destruct (nonzero rc) eqn:Erc.
  { apply nonzero_true in Erc. apply (gwp_report _ _ _ _ (ram s)); [done|]. intros s4 Hk4 Hw1 Hw2. split; [done|].
    eexists. split; [exact Ho3|]. rewrite Hw1, Hw2, !u32_id by (done || (unfold word_ok; lia)). split; [done|]. intros _. by left. }
  apply Z.ltb_ge in Ec. assert (Z.of_nat (Z.to_nat count) = count) as Hn by (unfold word_ok in Hcount; lia). unfold NF_MAX_PAGES in Ec.
  apply gwp_bind. eapply gwp_mono.
  { eapply (gwp_returns _ _ _ _ _ (program_pages_code _ _ _ _)).
    apply (gwp_program_pages (c_ops (f_chip c) ++ [Erase (row mod 16777216)]) (Z.to_nat count) 0 row st
      (λ r c' s', ram s' = ram s3 ∧ 0 <= snd (fst r) <= count ∧
        ∃ k, c_ops (f_chip c') = (c_ops (f_chip c) ++ [Erase (row mod 16777216)]) ++ page_ops (ram s3) row k ∧
          (fst (fst r) = 0 → snd (fst r) = count ∧ k = count) ∧
          (fst (fst r) ≠ 0 → snd (fst r) < count ∧ snd (fst r) <= k <= snd (fst r) + 1)));
      [done|rewrite Hn; unfold NF_MAX_PAGES; lia|by rewrite app_nil_r|]. rewrite Hn, Z.add_0_l.
    intros rc2 q st2 c4 s4 H4 Hq Hok Hfail. cbn [fst snd]. split_and!; [done|lia|lia|].
    destruct (decide (rc2 = 0)) as [E|E]; [destruct (Hok E) as [-> Hops]; by exists count|].
    destruct (Hfail E) as (Hq' & k & Hk & Hops). by exists k. }
  intros [[rc2 q] st2] c4 s4 [Hrc2 (H4 & Hq & k & Hops & Hok & Hfail)]. cbn [fst snd] in *. unfold code_ok in Hrc2.
  assert (ram s3 = ram s1) as Hm by congruence. rewrite Hm in Hops.
  apply (gwp_report _ _ _ _ (ram s)); [by rewrite H4|]. intros s5 Hk5 Hw1 Hw2. split; [done|]. rewrite <-app_assoc in Hops.
  eexists. split; [exact Hops|]. rewrite Hw1, Hw2, !u32_id by (unfold word_ok in *; lia).
  split; intros E; [destruct (Hok E) as [-> ->]|destruct (Hfail E) as [Hq1 Hk]; right]; rewrite Hpages by (unfold NF_MAX_PAGES; lia); [done|].
  split; [done|]. by exists k.
Qed.

(** ** The stub that reads *)

Definition kept_range (lo hi : Z) (m m' : mem) : Prop := ∀ a, ¬ (lo <= a < hi) → mget m' a = mget m a.
Lemma gwp_copy_in dst n (Q : unit → flash_obs → St → Prop) c s :
  (∀ i, 0 <= i < n → in_ddr (dst + 4 * i) = true ∧ in_ddr (L2_BUF5 + 4 * i) = false) → 0 <= n →
  (∀ s', kept_range dst (dst + 4 * n) (ram s) (ram s') → Q tt c s') →
  gwp flash_step (copy_words dst L2_BUF5 (Z.to_nat n)) Q c s.
Proof.
  intros Ha Hn HQ. unfold copy_words. eapply gwp_mono.
  - apply (gwp_for_range flash_step (λ i c' s', c' = c ∧ kept_range dst (dst + 4 * n) (ram s) (ram s'))); [by split|].
    intros i c1 s1 Hi [-> Hk]. destruct (Ha i) as [Hd Hl]; [lia|]. apply gwp_bind, reg_rd; [done|intros v s2 H2].
    apply gwp_ddr_wr; [done|]. split; [done|]. cbn [ram]. intros a Hout. rewrite mget_mset_list_out; [rewrite H2; by apply Hk|].
    unfold zlen. rewrite le_split_length. lia.
  - intros [] c' s' [-> Hk]. by apply HQ.
Qed.

Lemma gwp_read_raw row col dst len (Q : Z → flash_obs → St → Prop) c s :
  (len = 512 ∨ len = 64) → DDR_BASE <= dst → dst + len <= DDR_END →
  (∀ rc c' s', c_ops (f_chip c') = c_ops (f_chip c) → kept_range dst (dst + len) (ram s) (ram s') → Q rc c' s') →
  gwp flash_step (nf_read_raw row col dst len) Q c s.
Proof.
  intros Hlen Hlo Hhi HQ. unfold nf_read_raw, emit_addr.
  do 2 (apply gwp_bind, reg_wr; [done|intros ? ?]). apply gwp_bind, gwp_bind, gwp_bind. cbn [for_range COL_CYCLES ROW_CYCLES].
  do 2 (apply gwp_bind, reg_wr; [done|intros ? ?]). apply gwp_skip, gwp_ret, gwp_bind.
  do 3 (apply gwp_bind, reg_wr; [done|intros ? ?]). apply gwp_skip, gwp_ret.
  do 2 (apply gwp_bind, reg_wr; [done|intros ? ?]).
  apply gwp_bind, gwp_seq_start; intros v s10 H10 regs. set (k0 := f_chip c).
  assert (ram s10 = ram s) as Hm by congruence.
  assert (∃ c1, FlashObs regs (run_slots 16 NF_SEQ regs k0) = c1 ∧ c_ops (f_chip c1) = c_ops k0) as (c1 & Ec & Hk).
  { eexists. split; [reflexivity|]. cbn [f_chip]. slot 0x64. slot_addr (row_byte col 0). slot_addr (row_byte col 1).
    slot_addr (row_byte row 0). slot_addr (row_byte row 1). slot_addr (row_byte row 2). slot 0x18464.
    by rewrite (run_slots_last _ _ _ 0x201) by reflexivity. }
  match goal with |- gwp _ _ _ (FlashObs _ (run_slots _ _ _ ?k1)) _ => change k1 with k0 end. rewrite Ec. clear - Hlen Hlo Hhi HQ Hm Hk.
  unfold l2_bind. apply gwp_bind. do 3 (apply gwp_bind, reg_rmw; [done|intros ? ? ?]). apply reg_rmw; [done|intros ? ? ?].
  apply gwp_bind, gwp_seq_wait; intros b s15 H15.
  destruct (negb b); [apply gwp_ret, HQ; [exact Hk|congruence || (intros a Ha; congruence)]|].
  do 3 (apply gwp_bind, reg_wr; [done|intros ? ?]).
  apply gwp_bind, gwp_seq_start; intros w19 s19 H19 regs2.
  assert (∃ c2, FlashObs regs2 (run_slots 16 NF_SEQ regs2 (f_chip c1)) = c2 ∧ c_ops (f_chip c2) = c_ops (f_chip c)) as (c2 & Ec2 & Hk2).
  { eexists. split; [reflexivity|]. cbn [f_chip].
    destruct Hlen as [-> | ->]; [by rewrite (run_slots_last _ _ _ 0xFF919) by reflexivity|by rewrite (run_slots_last _ _ _ 0x1F919) by reflexivity]. }
  match goal with |- gwp _ _ _ (FlashObs _ (run_slots _ _ _ ?k1)) _ => change k1 with (f_chip c1) end. rewrite Ec2.
  assert (ram s19 = ram s) as Hm2 by congruence. clear - Hlen Hlo Hhi HQ Hm2 Hk2.
  apply gwp_bind, gwp_seq_wait; intros b2 s20 H20.
  destruct (negb b2); [apply gwp_ret, HQ; [done|intros a Ha; congruence]|]. apply gwp_bind. eapply gwp_mono.
  { apply (gwp_spin flash_step (λ c' s', c' = c2 ∧ ram s' = ram s) (λ _, True)); [split; [done|congruence]|].
    intros c3 s3 [-> H3]. apply gwp_bind, reg_rd; [done|intros v s4 H4]. apply gwp_ret. split; [|done]. split; [done|congruence]. }
  intros r c3 s3 [[-> H3] _]. destruct r as [[]|]; [|apply gwp_ret, HQ; [done|intros a Ha; congruence]].
  assert (len = 4 * (len .>> 2) ∧ 0 <= len .>> 2 <= 128) as [El Hn] by (destruct Hlen as [-> | ->]; done).
  apply gwp_bind, gwp_copy_in; [|lia|].
  { intros i Hi. split; [apply in_ddr_true; lia|apply in_ddr_false; unfold L2_BUF5, DDR_END; lia]. }
  intros s4 Hk4. apply gwp_dma_wait. intros rc c5 s5 H5 [Hc5 _]. apply HQ; [by rewrite Hc5|]. rewrite <-El, H3 in Hk4. by rewrite H5.
Qed.

Lemma kept_range_trans lo hi m m1 m2 : kept_range lo hi m m1 → kept_range lo hi m1 m2 → kept_range lo hi m m2.
Proof. intros H1 H2 a Ha. by rewrite H2, H1. Qed.
Lemma kept_range_mono lo hi lo' hi' m m' : lo <= lo' → hi' <= hi → kept_range lo' hi' m m' → kept_range lo hi m m'.
Proof. intros Hl Hh H a Ha. apply H. lia. Qed.

Lemma gwp_read_chunks row dst n i (Q : Z → flash_obs → St → Prop) c s :
  0 <= i → i + Z.of_nat n = 4 → DDR_BASE <= dst → dst + NF_PAGE_RAW <= DDR_END →
  (∀ rc c' s', c_ops (f_chip c') = c_ops (f_chip c) → kept_range dst (dst + NF_PAGE_RAW) (ram s) (ram s') → Q rc c' s') →
  gwp flash_step (read_chunks n i row dst) Q c s.
Proof.
  intros Hi Hn Hlo Hhi HQ. revert i c s Hi Hn HQ. induction n as [|n IH]; intros i c s Hi Hn HQ; cbn [read_chunks].
  { apply gwp_read_raw; [by right|unfold NF_PAGE_DATA; lia|unfold NF_PAGE_DATA, NF_PAGE_RAW in *; lia|]. intros rc c1 s1 Hc Hk. apply HQ; [done|].
    eapply kept_range_mono; [| |exact Hk]; unfold NF_PAGE_DATA, NF_PAGE_RAW; lia. }
  apply gwp_bind, gwp_read_raw; [by left|unfold NF_CHUNK; lia|unfold NF_CHUNK, NF_PAGE_RAW in *; lia|]. intros rc c1 s1 Hc Hk.
  apply (kept_range_mono dst (dst + NF_PAGE_RAW)) in Hk; [|unfold NF_CHUNK; lia|unfold NF_CHUNK, NF_PAGE_RAW; lia].
  destruct (nonzero rc); [by apply gwp_ret, HQ|]. apply IH; [lia|lia|]. intros rc2 c2 s2 Hc2 Hk2. apply HQ; [congruence|by eapply kept_range_trans].
Qed.
Lemma gwp_read_pages hi n p row (Q : Z * Z → flash_obs → St → Prop) c s :
  0 <= p → p + Z.of_nat n <= NF_MAX_PAGES → hi = NF_BUF + (p + Z.of_nat n) * NF_PAGE_RAW →
  (∀ r c' s', c_ops (f_chip c') = c_ops (f_chip c) → kept_range NF_BUF hi (ram s) (ram s') → Q r c' s') →
  gwp flash_step (read_pages n p row) Q c s.
Proof.
  revert p c s. induction n as [|n IH]; intros p c s Hp Hn Hhi HQ; cbn [read_pages]; [by apply gwp_ret, HQ|].
  apply gwp_bind, gwp_read_chunks; [done|done|unfold NF_BUF, NF_PAGE_RAW, DDR_BASE; lia|unfold NF_BUF, NF_PAGE_RAW, NF_MAX_PAGES, DDR_END in *; lia|].
  intros rc c1 s1 Hc Hk. apply (kept_range_mono NF_BUF hi) in Hk; [|unfold NF_PAGE_RAW; lia|unfold NF_PAGE_RAW in *; lia].
  destruct (nonzero rc); [by apply gwp_ret, HQ|]. apply IH; [lia|lia|lia|].
  intros r c2 s2 Hc2 Hk2. apply HQ; [congruence|by eapply kept_range_trans].
Qed.

Lemma read_cmd_ddr i : 0 <= i < 8 → in_ddr (read_cmd i) = true.
Proof. intros Hi. apply in_ddr_true. unfold read_cmd, DDR_BASE, DDR_END. lia. Qed.
Lemma gwp_read_id id (Q : Z * Z → flash_obs → St → Prop) c s :
  (∀ r c' s', ram s' = ram s → c_ops (f_chip c') = c_ops (f_chip c) → Q r c' s') → gwp flash_step (nf_read_id id) Q c s.
Proof.
  intros HQ. unfold nf_read_id. do 4 (apply gwp_bind, reg_wr; [done|intros ? ?]).
  apply gwp_bind, gwp_seq_start; intros v s5 H5 regs.
  assert (c_ops (run_slots 16 NF_SEQ regs (f_chip c)) = c_ops (f_chip c)) as Hops.
  { slot 0x48064. slot 0x62. by rewrite (run_slots_last _ _ _ 0x1859) by reflexivity. }
  apply gwp_bind, gwp_seq_wait; intros b s6 H6. destruct (negb b); [apply gwp_ret, HQ; [congruence|exact Hops]|].
  apply gwp_bind, reg_rd; [done|intros w s7 H7]. apply gwp_ret, HQ; [congruence|exact Hops].
Qed.

(** Memory outside the pages that are asked for and the result words. *)
Definition read_kept (m m' : mem) : Prop :=
  let count := ram_word m (read_cmd CMD_COUNT) in
  let n := if NF_MAX_PAGES <? count then 0 else count in
  ∀ a, ¬ (NF_BUF <= a < NF_BUF + n * NF_PAGE_RAW) → ¬ in_cmd read_cmd a → mget m' a = mget m a.

(** Reading the flash changes nothing in it.  For every controller and every ROM routine
    that leaves the array alone, the reading stub never makes the chip erase or
    program, and it writes memory only in the slots of the pages that it is asked for,
    at most 64, and in its three result words. *)
Theorem read_main_harmless c s :
  gwp flash_step (read_main rom_nf_boot_hw_init) (λ _ c' s',
    c_ops (f_chip c') = c_ops (f_chip c) ∧ read_kept (ram s) (ram s')) c s.
Proof.
  unfold read_main. do 2 (apply gwp_bind, gwp_ddr_rd; [by apply read_cmd_ddr|]).
  set (row := le_join (mget_list (ram s) (read_cmd CMD_ROW) 4)).
  change (le_join (mget_list (ram s) (read_cmd CMD_COUNT) 4)) with (ram_word (ram s) (read_cmd CMD_COUNT)).
  pose proof (ram_word_ok (ram s) (read_cmd CMD_COUNT)) as Hcount. unfold read_kept.
  set (count := ram_word (ram s) (read_cmd CMD_COUNT)) in *. cbv zeta.
  do 3 (apply gwp_bind, gwp_ddr_wr; [by apply read_cmd_ddr|]).
  match goal with |- gwp _ _ _ _ ?s1 => assert (kept_out read_cmd (ram s) (ram s1)) as Hk1
    by (cbn [ram]; do 3 (apply kept_word; [by left|done|]); done); generalize dependent s1 end.
  intros s1 Hk1. destruct ((count =? 0) || (NF_MAX_PAGES <? count)) eqn:Ec.
  { apply gwp_ddr_wr; [by apply read_cmd_ddr|]. split; [done|]. cbn [ram]. intros a _. by apply kept_word; [left|..]. }
  apply orb_false_iff in Ec as [Ec0 Ec]. rewrite Ec. apply Z.eqb_neq in Ec0. apply Z.ltb_ge in Ec.
  apply gwp_bind, gwp_hw_init. intros c2 s2 H2 Ho2. apply gwp_bind, gwp_read_id. intros [rc id] c3 s3 H3 Ho3.
  apply gwp_bind, gwp_ddr_wr; [by apply read_cmd_ddr|]. apply gwp_bind.
  assert (∀ (r : Z * Z) c4 s4, c_ops (f_chip c4) = c_ops (f_chip c) →
    kept_range NF_BUF (NF_BUF + count * NF_PAGE_RAW) (mset_list (ram s3) (read_cmd CMD_ID) (le_split 4 id)) (ram s4) →
    gwp flash_step (let '(rc, p) := r in wr32 (read_cmd CMD_FAIL) p;; wr32 (read_cmd CMD_RC) (u32 rc) : M St unit)
      (λ _ c' s', c_ops (f_chip c') = c_ops (f_chip c) ∧
        ∀ a, ¬ (NF_BUF <= a < NF_BUF + count * NF_PAGE_RAW) → ¬ in_cmd read_cmd a → mget (ram s') a = mget (ram s) a) c4 s4) as Hend.
  { intros [rc2 p] c4 s4 Ho4 Hk4. apply gwp_bind, gwp_ddr_wr; [by apply read_cmd_ddr|]. apply gwp_ddr_wr; [by apply read_cmd_ddr|].
    split; [done|]. cbn [ram]. intros a Ha Hb.
    assert (kept_out read_cmd (ram s4) (mset_list (mset_list (ram s4) (read_cmd CMD_FAIL) (le_split 4 p)) (read_cmd CMD_RC) (le_split 4 (u32 rc2)))) as Hk5
      by (do 2 (apply kept_word; [by left|done|]); done).
    rewrite Hk5, Hk4, <-Hk1, <-H2, <-H3 by done. rewrite H3, H2. revert Hb. clear. intros Hb. symmetry.
    assert (kept_out read_cmd (ram s1) (ram s1)) as H0 by done. pose proof (kept_word read_cmd _ _ CMD_ID id (or_introl eq_refl) ltac:(done) H0) as H1. by rewrite H1. }
  destruct (nonzero rc); [apply gwp_ret; refine (Hend (rc, 0) _ _ _ _); [congruence|done]|].
  apply (gwp_read_pages (NF_BUF + count * NF_PAGE_RAW)); [done|unfold NF_MAX_PAGES in *; unfold word_ok in Hcount; lia|unfold word_ok in Hcount; rewrite Z2Nat.id; lia|].
  intros r c4 s4 Ho4 Hk4. refine (Hend r c4 s4 _ Hk4). congruence.
Qed.
End cycles.

(** ** Examples *)

(** A controller that is always ready and keeps what is written to the other registers. *)
Definition ready_device : Device (Z → Z) := {|
  dev_read w a d := (if a =? NF_CTRL then 0x80000000 else if a =? NF_DMA then 0x40 else if a =? L2_STAT then 0x00F00000 else d a, d);
  dev_write w a v d := λ x, if x =? a then v else d x;
|}.
#[local] Existing Instance ready_device.
#[local] Instance ready_slots : SlotsReadBack (Z → Z).
Proof.
  intros a v d Ha _. cbn. unfold NF_SEQ, NF_CTRL, NF_DMA, L2_STAT in *.
  destruct (a =? 0x2002A158) eqn:E1; [lia|]. destruct (a =? 0x2002B000) eqn:E2; [lia|]. destruct (a =? 0x2002C0A0) eqn:E3; [lia|].
  by rewrite Z.eqb_refl.
Qed.
Definition blank_obs : flash_obs := FlashObs (λ _, 0) (Chip 0 [] [] []).
(** The host asks for [count] pages from page [row] on. *)
Definition asked (cmd : Z → Z) (row count : Z) : machine (logged (Z → Z)) :=
  Machine (mset_list (mset_list ∅ (cmd CMD_ROW) (le_split 4 row ++ le_split 4 count)) NF_BUF [0x41; 0x4E; 0x59; 0x4B; 0x41]) (Logged (λ _, 0) []).
Lemma rom_skip : ∀ (c : flash_obs) (s : machine (logged (Z → Z))),
  gwp flash_step skip (λ _ c' s', ram s' = ram s ∧ c_ops (f_chip c') = c_ops (f_chip c)) c s.
Proof. intros c s. by apply gwp_skip. Qed.

(** One page, with "ANYKA" at its start. *)
Example write_one_page :
  let s' := snd (write_main skip (asked write_cmd 0x20040 1)) in
  (ram_word (ram s') (write_cmd CMD_RC), ram_word (ram s') (write_cmd CMD_FAIL)) = (0, 1) ∧
  match c_ops (f_chip (replay flash_step blank_obs (log_of s'))) with
  | [Erase 0x20040; Program 0x20040 0 (0x4B594E41 :: 0x41 :: _)] => True
  | _ => False
  end.
Proof. vm_compute. done. Qed.

Theorem write_main_programs_witness :
  gwp flash_step (write_main skip) (λ _ c' s',
    kept_out write_cmd (ram (asked write_cmd 0x20040 1)) (ram s') ∧
    ∃ ops, c_ops (f_chip c') = [] ++ ops ∧ written (ram (asked write_cmd 0x20040 1)) (ram s') ops) blank_obs (asked write_cmd 0x20040 1).
Proof. exact (write_main_programs skip rom_skip blank_obs (asked write_cmd 0x20040 1)). Defined.
Theorem read_main_harmless_witness :
  gwp flash_step (read_main skip) (λ _ c' s', c_ops (f_chip c') = [] ∧ read_kept (ram (asked read_cmd 0 3)) (ram s')) blank_obs (asked read_cmd 0 3).
Proof. exact (read_main_harmless skip rom_skip blank_obs (asked read_cmd 0 3)). Defined.
