(* ===== verification/Doom.v ===== *)
(** * Doom: the keyboard of the game ([src/baremetal/doom/src/ch374_keyboard.c])

    Turns the usages of the shared keyboard driver into keys of the game, with a count
    for each key because several usages give the same one.  The codes of the keys come
    from the game's sources and are a variable.  [Doomsys] has the rest of the port. *)
From S2P Require Import Prelude Machine Soc Log Timer Partial Ring Ch374.

#[local] Existing Instance doom_log.

(** ** The keyboard ([ch374_keyboard.c]) *)

Definition KEY_QUEUE_SIZE : Z := 64.

Inductive doom_key :=
  | KEY_FIRE | KEY_RSHIFT | KEY_LALT | KEY_RALT | KEY_ENTER | KEY_ESCAPE | KEY_BACKSPACE | KEY_TAB | KEY_USE | KEY_MINUS | KEY_EQUALS
  | KEY_CAPSLOCK | KEY_F1 | KEY_F2 | KEY_F3 | KEY_F4 | KEY_F5 | KEY_F6 | KEY_F7 | KEY_F8 | KEY_F9 | KEY_F10 | KEY_F11 | KEY_F12
  | KEY_INS | KEY_HOME | KEY_PGUP | KEY_DEL | KEY_END | KEY_PGDN | KEY_RIGHTARROW | KEY_LEFTARROW | KEY_DOWNARROW | KEY_UPARROW.

Record doom_kbd := DoomKbd { d_queue : list Z; d_read_idx : Z; d_write_idx : Z; d_refcount : list Z }.
Definition doom_kbd0 : doom_kbd := DoomKbd (replicate 64 0) 0 0 (replicate 256 0).

Section Keys.
Variable code : doom_key → Z.

Definition modifier_to_doom_key (bit : Z) : Z :=
  match bit with
  | 0 => code KEY_FIRE | 1 => code KEY_RSHIFT | 2 => code KEY_LALT
  | 4 => code KEY_FIRE | 5 => code KEY_RSHIFT | 6 => code KEY_RALT
  | _ => 0
  end.

Definition usage_to_doom_key (usage : Z) : Z :=
  if (CH374_USAGE_MODIFIER_BASE <=? usage) && (usage <=? CH374_USAGE_MODIFIER_BASE + 7) then modifier_to_doom_key (usage - CH374_USAGE_MODIFIER_BASE)
  else if (0x04 <=? usage) && (usage <=? 0x1D) then u8 (97 + (usage - 0x04))
  else if (0x1E <=? usage) && (usage <=? 0x26) then u8 (49 + (usage - 0x1E))
  else
    match usage with
    | 0x27 => 48 | 0x28 => code KEY_ENTER | 0x29 => code KEY_ESCAPE | 0x2A => code KEY_BACKSPACE | 0x2B => code KEY_TAB
    | 0x2C => code KEY_USE | 0x2D => code KEY_MINUS | 0x2E => code KEY_EQUALS | 0x2F => 91 | 0x30 => 93 | 0x31 => 92 | 0x33 => 59
    | 0x34 => 39 | 0x35 => 96 | 0x36 => 44 | 0x37 => 46 | 0x38 => 47 | 0x39 => code KEY_CAPSLOCK
    | 0x3A => code KEY_F1 | 0x3B => code KEY_F2 | 0x3C => code KEY_F3 | 0x3D => code KEY_F4 | 0x3E => code KEY_F5 | 0x3F => code KEY_F6
    | 0x40 => code KEY_F7 | 0x41 => code KEY_F8 | 0x42 => code KEY_F9 | 0x43 => code KEY_F10 | 0x44 => code KEY_F11 | 0x45 => code KEY_F12
    | 0x49 => code KEY_INS | 0x4A => code KEY_HOME | 0x4B => code KEY_PGUP | 0x4C => code KEY_DEL | 0x4D => code KEY_END | 0x4E => code KEY_PGDN
    | 0x4F => code KEY_RIGHTARROW | 0x50 => code KEY_LEFTARROW | 0x51 => code KEY_DOWNARROW | 0x52 => code KEY_UPARROW
    | _ => 0
    end.

Definition doom_queue_push (pressed : bool) (key : Z) (d : doom_kbd) : doom_kbd :=
  let q := zset (d_queue d) (d_write_idx d) (u16 ((b2z pressed .<< 8) .| key)) in
  let w := (d_write_idx d + 1) mod KEY_QUEUE_SIZE in
  DoomKbd q (if w =? d_read_idx d then (d_read_idx d + 1) mod KEY_QUEUE_SIZE else d_read_idx d) w (d_refcount d).
Definition set_refcount (key v : Z) (d : doom_kbd) : doom_kbd :=
  DoomKbd (d_queue d) (d_read_idx d) (d_write_idx d) (zset (d_refcount d) key v).

Definition emit (pressed : bool) (key : Z) (d : doom_kbd) : doom_kbd :=
  if key =? 0 then d
  else if pressed then
    let d := if znth (d_refcount d) key =? 0 then doom_queue_push true key d else d in
    if negb (znth (d_refcount d) key =? 0xFF) then set_refcount key (u8 (znth (d_refcount d) key + 1)) d else d
  else if znth (d_refcount d) key =? 0 then d
  else
    let d := set_refcount key (u8 (znth (d_refcount d) key - 1)) d in
    if znth (d_refcount d) key =? 0 then doom_queue_push false key d else d.

(** [None] if the fuel ends first; the driver's ring has at most 31 events. *)
Fixpoint drain_loop (fuel : nat) (k : ch374_st) (d : doom_kbd) : option (ch374_st * doom_kbd) :=
  match fuel with
  | O => None
  | S fuel' =>
      match ch374_kbd_pop k with
      | (None, k) => Some (k, d)
      | (Some (usage, pressed), k) => drain_loop fuel' k (emit pressed (usage_to_doom_key usage) d)
      end
  end.
Definition drain (k : ch374_st) (d : doom_kbd) : option (ch374_st * doom_kbd) := drain_loop 32 k d.

Record doom (D : Type) := DoomImage { d_kbd : kbd D; d_keys : doom_kbd }.
Arguments DoomImage {D} _ _.
Arguments d_kbd {D} _.
Arguments d_keys {D} _.

Section driver.
Context {D : Type} `{!Device D} (fuel : nat).
Abbreviation St := (doom D).

Definition on_driver {A} (m : MO (kbd D) A) : MO St A := λ s,
  match m (d_kbd s) with Some (a, k) => Some (a, DoomImage k (d_keys s)) | None => None end.
Definition drain_now : MO St unit := λ s,
  match drain (k_st (d_kbd s)) (d_keys s) with
  | Some (k, d) => Some (tt, DoomImage (Kbd (k_boot (d_kbd s)) k) d)
  | None => None
  end.
Definition reset_keys : M St unit := modify (λ s, DoomImage (d_kbd s) doom_kbd0).

Definition aipc_keyboard_init : MO St unit := lift reset_keys;; on_driver (ch374_kbd_init fuel);; drain_now.
Definition aipc_keyboard_poll : MO St unit := on_driver (ch374_kbd_poll fuel);; drain_now.
(** The oldest event: the key and whether it is a press. *)
Definition aipc_keyboard_get_event : MO St (option (Z * bool)) :=
  d ← lift (gets d_keys);
  (if d_read_idx d =? d_write_idx d then aipc_keyboard_poll else mret tt);;
  d ← lift (gets d_keys);
  if d_read_idx d =? d_write_idx d then mret None
  else
    let packed := znth (d_queue d) (d_read_idx d) in
    lift (modify (λ s, DoomImage (d_kbd s) (DoomKbd (d_queue d) ((d_read_idx d + 1) mod KEY_QUEUE_SIZE) (d_write_idx d) (d_refcount d))));;
    mret (Some (u8 (packed .& 0xFF), nonzero ((packed .>> 8) .& 1))).
End driver.
End Keys.

(** ** What the game sees of the keyboard *)

Section follow.
Context (code : doom_key → Z) (code_ok : ∀ k, 0 < code k < 256).
Abbreviation key := (usage_to_doom_key code).

Definition doom_ring_ok (d : doom_kbd) : Prop :=
  zlen (d_queue d) = KEY_QUEUE_SIZE ∧ 0 <= d_read_idx d < KEY_QUEUE_SIZE ∧ 0 <= d_write_idx d < KEY_QUEUE_SIZE ∧ zlen (d_refcount d) = 256.
(** The queued events of the game, the oldest first. *)
Definition doom_queued (d : doom_kbd) : list event := map unpack (contents KEY_QUEUE_SIZE (d_queue d) (d_read_idx d) (d_write_idx d)).

(** The usages of [h] that give key [k]. *)
Definition key_count (h : gset Z) (k : Z) : nat := size (filter (λ u, key u = k) h).
(** The event that a usage event is for the game. *)
Definition doom_event (h : gset Z) (e : event) : list event :=
  let k := key (fst e) in
  if k =? 0 then []
  else if snd e then (if (key_count h k =? 0)%nat then [(k, true)] else [])
  else (if (key_count h k =? 1)%nat then [(k, false)] else []).
Fixpoint doom_events (h : gset Z) (evs : list event) : list event :=
  match evs with [] => [] | e :: evs' => doom_event h e ++ doom_events (apply_event h e) evs' end.
(** Each event is a change. *)
Fixpoint changes (h : gset Z) (evs : list event) : Prop :=
  match evs with [] => True | e :: evs' => (fst e ∈ h ↔ snd e = false) ∧ changes (apply_event h e) evs' end.
(** The keys of the game that are down. *)
Definition down (h : gset Z) : gset Z := set_map key h ∖ {[0]}.

Lemma key_ok u : 0 <= key u < 256.
Proof.
  unfold usage_to_doom_key, modifier_to_doom_key.
  assert (∀ v, 0 <= u8 v < 256) as Hu by apply u8_range.
  assert (∀ k, 0 <= code k < 256) as Hc by (intros k; pose proof (code_ok k); lia).
  repeat first [apply Hu | apply Hc | lia | case_match].
Qed.
Lemma key_low u : u < 4 → key u = 0.
Proof.
  intros Hu. unfold usage_to_doom_key. repeat (replace (_ <=? u) with false by (symmetry; unfold CH374_USAGE_MODIFIER_BASE; lia)).
  cbn [andb]. destruct u as [|[p|p|]|]; try done; destruct p as [p|p|]; try done; lia.
Qed.

Lemma key_count_press h u k : u ∉ h → key_count ({[u]} ∪ h) k = ((if decide (key u = k) then 1 else 0) + key_count h k)%nat.
Proof.
  intros Hu. unfold key_count. destruct (decide (key u = k)) as [E|E].
  - assert (filter (λ u, key u = k) ({[u]} ∪ h) = {[u]} ∪ filter (λ u, key u = k) h) as -> by set_solver.
    rewrite size_union, size_singleton; [done|]. set_solver.
  - assert (filter (λ u, key u = k) ({[u]} ∪ h) = filter (λ u, key u = k) h) as -> by set_solver. done.
Qed.
Lemma key_count_release h u k : u ∈ h → key_count h k = ((if decide (key u = k) then 1 else 0) + key_count (h ∖ {[u]}) k)%nat.
Proof.
  intros Hu. rewrite <-key_count_press by set_solver. f_equal. apply set_eq. intros x. destruct (decide (x = u)); set_solver.
Qed.
Lemma key_count_bound h k : (∀ u, u ∈ h → byte_ok u) → k ≠ 0 → (key_count h k <= 252)%nat.
Proof.
  intros Hh Hk. unfold key_count. transitivity (size (list_to_set (seqZ 4 252) : gset Z)).
  - apply subseteq_size. intros u [Hu Hin]%elem_of_filter. apply elem_of_list_to_set, elem_of_seqZ. apply Hh in Hin. unfold byte_ok in Hin.
    destruct (Z_lt_le_dec u 4); [|lia]. exfalso. apply Hk. rewrite <-Hu. by apply key_low.
  - vm_compute. lia.
Qed.
Lemma key_count_pos h k : (0 < key_count h k)%nat ↔ ∃ u, u ∈ h ∧ key u = k.
Proof.
  unfold key_count. split.
  - intros Hp. destruct (set_choose_or_empty (filter (λ u, key u = k) h)) as [[u Hu]|He].
    + apply elem_of_filter in Hu as [H1 H2]. by exists u.
    + apply size_empty_iff in He. lia.
  - intros (u & Hu & Hk). destruct (decide (size (filter (λ u, key u = k) h) = 0%nat)) as [E|E]; [|lia].
    apply size_empty_iff in E. exfalso. apply (not_elem_of_empty (C := gset Z) u). rewrite <-E. by apply elem_of_filter.
Qed.
Lemma elem_of_down h k : k ∈ down h ↔ k ≠ 0 ∧ (0 < key_count h k)%nat.
Proof. rewrite key_count_pos. unfold down. rewrite elem_of_difference, elem_of_map, not_elem_of_singleton. naive_solver. Qed.

Definition follows (h : gset Z) (d : doom_kbd) : Prop :=
  doom_ring_ok d ∧ (∀ u, u ∈ h → byte_ok u) ∧ ∀ k, 0 < k < 256 → znth (d_refcount d) k = Z.of_nat (key_count h k).

Lemma doom_push_ok p k d : doom_ring_ok d → 0 <= k < 256 →
  doom_ring_ok (doom_queue_push p k d) ∧ doom_queued (doom_queue_push p k d) = newest 63 (doom_queued d ++ [(k, p)]).
Proof.
  intros (Hq & Hr & Hw & Hc) Hk. unfold doom_queue_push, doom_ring_ok, doom_queued. cbn [d_queue d_read_idx d_write_idx d_refcount]. split.
  - unfold KEY_QUEUE_SIZE in *. split_and!; try done; [unfold zlen, zset in *; by rewrite length_insert|..]; try (apply Z.mod_pos_bound; lia).
    all: destruct (_ =? _); [apply Z.mod_pos_bound; lia|lia].
  - rewrite <-(unpack_pack p k) by done. set (v := u16 _). change [unpack v] with (map unpack [v]). rewrite <-map_app, <-newest_map.
    change 63%nat with (Z.to_nat (KEY_QUEUE_SIZE - 1)).
    by rewrite <-(contents_push KEY_QUEUE_SIZE ltac:(done) (d_queue d) (d_read_idx d) (d_write_idx d) Hq Hr Hw v).
Qed.

Lemma doom_push_counts p k d : d_refcount (doom_queue_push p k d) = d_refcount d.
Proof. done. Qed.
Lemma set_refcount_ok k v d : doom_ring_ok d → doom_ring_ok (set_refcount k v d) ∧ doom_queued (set_refcount k v d) = doom_queued d.
Proof.
  intros (Hq & Hr & Hw & Hc). split; [|done]. unfold doom_ring_ok, set_refcount. cbn [d_queue d_read_idx d_write_idx d_refcount].
  split_and!; try done; try lia. unfold zlen, zset in *. by rewrite length_insert.
Qed.
Lemma doom_queued_length d : doom_ring_ok d → (length (doom_queued d) <= 63)%nat.
Proof. intros (_ & Hr & Hw & _). unfold doom_queued. rewrite length_map. by apply (contents_length KEY_QUEUE_SIZE). Qed.

(** One usage event: the counts follow, and the queue takes what it means. *)
Lemma emit_follows h u p d :
  follows h d → byte_ok u → (u ∈ h ↔ p = false) →
  follows (apply_event h (u, p)) (emit p (key u) d) ∧ doom_queued (emit p (key u) d) = newest 63 (doom_queued d ++ doom_event h (u, p)).
Proof.
  intros (Hok & Hb & Hcnt) Hu Hp. unfold emit, doom_event, apply_event. cbn [fst snd]. pose proof (key_ok u) as Hk.
  pose proof (doom_queued_length d Hok) as Hlen.
  assert (∀ u', u' ∈ (if p then {[u]} ∪ h else h ∖ {[u]}) → byte_ok u') as Hb'.
  { intros u' Hu'. destruct p; [apply elem_of_union in Hu' as [->%elem_of_singleton|]; auto|apply elem_of_difference in Hu' as [? _]; auto]. }
  destruct (Z.eqb_spec (key u) 0) as [E|E].
  - rewrite app_nil_r, newest_short by done. split; [|done]. split; [done|]. split; [done|]. intros k' Hk'. rewrite Hcnt by done. f_equal.
    destruct p; [rewrite key_count_press by (intros Hin; by apply Hp in Hin)|rewrite (key_count_release h u) by (by apply Hp)];
      rewrite decide_False by lia; done.
  - pose proof (key_count_bound h (key u) Hb E) as Hmax. rewrite Hcnt by lia. destruct p.
    + assert (u ∉ h) as Hin by (intros Hin; by apply Hp in Hin).
      assert (∃ d1, (if Z.of_nat (key_count h (key u)) =? 0 then doom_queue_push true (key u) d else d) = d1 ∧ doom_ring_ok d1 ∧ d_refcount d1 = d_refcount d ∧
        doom_queued d1 = newest 63 (doom_queued d ++ (if (key_count h (key u) =? 0)%nat then [(key u, true)] else []))) as (d1 & -> & Hok1 & Hc1 & Hq1).
      { eexists. split; [reflexivity|]. destruct (Nat.eqb_spec (key_count h (key u)) 0) as [E0|E0].
        - rewrite E0. destruct (doom_push_ok true (key u) d Hok ltac:(lia)) as [H1 H2]. by split_and!.
        - rewrite (proj2 (Z.eqb_neq _ 0)) by lia. rewrite app_nil_r, newest_short by done. by split_and!. }
      rewrite Hc1, Hcnt by lia. rewrite (proj2 (Z.eqb_neq _ 0xFF)) by lia. cbn [negb].
      destruct (set_refcount_ok (key u) (u8 (Z.of_nat (key_count h (key u)) + 1)) d1 Hok1) as [H1 H2]. split; [|congruence].
      split; [done|]. split; [done|]. intros k' Hk'. cbn [set_refcount d_refcount]. rewrite Hc1, key_count_press by done.
      destruct (decide (key u = k')) as [<-|Hne].
      * rewrite znth_zset_eq by (destruct Hok as (_ & _ & _ & ->); lia). rewrite u8_id by (unfold byte_ok; lia). lia.
      * rewrite znth_zset_ne by (lia || done). by rewrite Hcnt.
    + assert (u ∈ h) as Hin by (by apply Hp). pose proof (key_count_release h u (key u) Hin) as Hrel. rewrite decide_True in Hrel by done.
      rewrite (proj2 (Z.eqb_neq _ 0)) by lia. set (v := u8 (Z.of_nat (key_count h (key u)) - 1)).
      assert (v = Z.of_nat (key_count (h ∖ {[u]}) (key u))) as Hv by (unfold v; rewrite u8_id by (unfold byte_ok; lia); lia).
      destruct (set_refcount_ok (key u) v d Hok) as [Hok1 Hq1].
      assert (znth (d_refcount (set_refcount (key u) v d)) (key u) = v) as -> by (cbn [set_refcount d_refcount]; apply znth_zset_eq; destruct Hok as (_ & _ & _ & ->); lia).
      assert (∀ k', 0 < k' < 256 → znth (zset (d_refcount d) (key u) v) k' = Z.of_nat (key_count (h ∖ {[u]}) k')) as Hcnt'.
      { intros k' Hk'. destruct (decide (key u = k')) as [<-|Hne]; [rewrite znth_zset_eq by (destruct Hok as (_ & _ & _ & ->); lia); done|].
        rewrite znth_zset_ne by (lia || done). rewrite Hcnt, (key_count_release h u) by done. by rewrite decide_False. }
      destruct (Nat.eqb_spec (key_count h (key u)) 1) as [E1|E1].
      * replace (v =? 0) with true by (symmetry; apply Z.eqb_eq; lia).
        destruct (doom_push_ok false (key u) (set_refcount (key u) v d) Hok1 ltac:(lia)) as [H1 H2]. rewrite Hq1 in H2. by split.
      * replace (v =? 0) with false by (symmetry; apply Z.eqb_neq; lia). rewrite app_nil_r, newest_short by done. by split.
Qed.

Lemma down_ext h h' : (∀ k, k ≠ 0 → (0 < key_count h k)%nat ↔ (0 < key_count h' k)%nat) → down h = down h'.
Proof. intros Hk. apply set_eq. intros k. rewrite !elem_of_down. naive_solver. Qed.
Lemma down_press h k u : u ∉ h → key u = k → k ≠ 0 → down ({[u]} ∪ h) = {[k]} ∪ down h.
Proof.
  intros Hu Hk H0. apply set_eq. intros x. rewrite elem_of_union, elem_of_singleton, !elem_of_down, key_count_press by done.
  destruct (decide (key u = x)); [|destruct (decide (x = k))]; naive_solver lia.
Qed.
Lemma down_release h k u : u ∈ h → key u = k → key_count h k = 1%nat → down (h ∖ {[u]}) = down h ∖ {[k]}.
Proof.
  intros Hu Hk H1. apply set_eq. intros x. rewrite elem_of_difference, elem_of_singleton, !elem_of_down, (key_count_release h u x) by done.
  rewrite (key_count_release h u k), decide_True in H1 by done. destruct (decide (key u = x)) as [E|E]; [|destruct (decide (x = k))]; subst; naive_solver lia.
Qed.
(** The events of the game follow the keys that are down. *)
Lemma doom_event_changes h e :
  (fst e ∈ h ↔ snd e = false) → changes (down h) (doom_event h e) ∧ fold_left apply_event (doom_event h e) (down h) = down (apply_event h e).
Proof.
  destruct e as [u p]. cbn [fst snd]. intros Hp. unfold doom_event, apply_event at 2. cbn [fst snd]. destruct (Z.eqb_spec (key u) 0) as [E|E].
  - split; [done|]. cbn [fold_left]. apply down_ext. intros k Hk.
    destruct p; [rewrite key_count_press by (intros Hin; by apply Hp in Hin)|rewrite (key_count_release h u) by (by apply Hp)];
      rewrite decide_False by congruence; done.
  - destruct p.
    + assert (u ∉ h) as Hin by (intros Hin; by apply Hp in Hin). destruct (Nat.eqb_spec (key_count h (key u)) 0) as [E0|E0]; cbn [fold_left changes fst snd].
      * split; [|by rewrite (down_press h (key u))]. split; [|done]. rewrite elem_of_down. split; [lia|done].
      * split; [done|]. rewrite (down_press h (key u)) by done. assert (key u ∈ down h) by (apply elem_of_down; split; [done|lia]). set_solver.
    + assert (u ∈ h) as Hin by (by apply Hp). destruct (Nat.eqb_spec (key_count h (key u)) 1) as [E1|E1]; cbn [fold_left changes fst snd].
      * split; [|by rewrite (down_release h (key u))]. split; [|done]. rewrite elem_of_down. split; [done|intros _; split; [done|lia]].
      * split; [done|]. apply down_ext. intros k Hk. rewrite (key_count_release h u k) by done. rewrite (key_count_release h u (key u)), decide_True in E1 by done.
        destruct (decide (key u = k)) as [<-|]; lia.
Qed.
Lemma changes_app h l l' : changes h (l ++ l') ↔ changes h l ∧ changes (fold_left apply_event l h) l'.
Proof. revert h. induction l as [|e l IH]; intros h; cbn [app changes fold_left]; [tauto|]. rewrite IH. tauto. Qed.

Definition emit_all (evs : list event) (d : doom_kbd) : doom_kbd := fold_left (λ d e, emit (snd e) (key (fst e)) d) evs d.
Lemma emit_all_follows evs h d :
  follows h d → Forall (λ e, byte_ok (fst e)) evs → changes h evs →
  follows (fold_left apply_event evs h) (emit_all evs d) ∧ doom_queued (emit_all evs d) = newest 63 (doom_queued d ++ doom_events h evs) ∧
  changes (down h) (doom_events h evs) ∧ fold_left apply_event (doom_events h evs) (down h) = down (fold_left apply_event evs h).
Proof.
  intros Hf Hb Hc. revert h d Hf Hc. induction Hb as [|[u p] evs Hu Hb IH]; intros h d Hf Hc; cbn [doom_events emit_all fold_left fst snd].
  { rewrite app_nil_r, newest_short by (by apply doom_queued_length, Hf). done. }
  destruct Hc as [Hp Hc]. cbn [fst snd] in Hp, Hu. destruct (emit_follows h u p d Hf Hu Hp) as [Hf1 Hq1].
  destruct (doom_event_changes h (u, p) Hp) as [Hch Hdown]. fold (emit_all evs (emit p (key u) d)).
  destruct (IH _ _ Hf1 Hc) as (Hf2 & Hq2 & Hch2 & Hdown2). split; [done|]. split; [|split].
  - by rewrite Hq2, Hq1, newest_app, <-app_assoc.
  - apply changes_app. by rewrite Hdown.
  - by rewrite fold_left_app, Hdown.
Qed.

Lemma drain_loop_spec n k d : ring_ok k → (length (events k) < n)%nat →
  ∃ k', drain_loop code n k d = Some (k', emit_all (events k) d) ∧ ring_ok k' ∧ events k' = [].
Proof.
  revert k d. induction n as [|n IH]; intros k d Hk Hn; [lia|]. cbn [drain_loop]. pose proof (pop_spec k Hk) as Hpop.
  destruct (ch374_kbd_pop k) as [[[u p]|] k1]; destruct Hpop as (Hk1 & He & Hsame & _).
  - rewrite He in Hn |- *. cbn [length] in Hn. destruct (IH k1 (emit p (key u) d) Hk1) as (k' & -> & H1 & H2); [lia|]. by exists k'.
  - rewrite He. exists k1. split; [done|]. split; [done|]. rewrite (Hsame eq_refl). done.
Qed.

(** C25: the game sees a key down exactly while one of its keyboard keys is held.  When the
    events in the driver's ring are changes of the held usages [h], draining the ring
    returns and empties it; the game's queue takes the changes of its own keys, of which
    it keeps the newest 63, two usages of one key counting once; a game that follows
    them has exactly the keys of the held usages down. *)
Theorem doom_keys_follow h k d :
  ring_ok k → follows h d → changes h (events k) →
  let h' := fold_left apply_event (events k) h in
  let outs := doom_events h (events k) in
  ∃ k' d', drain code k d = Some (k', d') ∧ events k' = [] ∧ follows h' d' ∧
    doom_queued d' = newest 63 (doom_queued d ++ outs) ∧ changes (down h) outs ∧ fold_left apply_event outs (down h) = down h'.
Proof.
  intros Hk Hf Hc h' outs. destruct (drain_loop_spec 32 k d Hk) as (k' & Hd & _ & He); [pose proof (events_length k Hk); lia|].
  exists k', (emit_all (events k) d). split; [exact Hd|]. split; [done|]. apply emit_all_follows; [done| |done].
  apply list.Forall_forall. intros [u p] Hin. unfold events in Hin. apply list_elem_of_In, in_map_iff in Hin as (v & [= <- <-] & _). apply u8_range.
Qed.
End follow.

(** ** Examples *)

(** Codes of the keys: any numbers do. *)
Definition example_code (k : doom_key) : Z := match k with KEY_FIRE => 0xA3 | _ => 0x80 end.
Lemma example_code_ok k : 0 < example_code k < 256.
Proof. destruct k; done. Qed.
Lemma follows_start : follows example_code ∅ doom_kbd0.
Proof.
  split; [done|]. split; [set_solver|]. intros k Hk. cbn [d_refcount doom_kbd0]. unfold znth.
  rewrite nth_lookup, lookup_replicate_2 by lia. assert (filter (λ u, usage_to_doom_key example_code u = k) (∅ : gset Z) = ∅) as E by set_solver.
  unfold key_count. by rewrite E, size_empty.
Qed.

(** Both controls and A go down, then the left control goes up: one press of fire. *)
Definition example_driver : ch374_st := process_report [0x10; 0; 4; 0; 0; 0; 0; 0] (process_report [0x11; 0; 4; 0; 0; 0; 0; 0] ch374_st0).
Example example_keys :
  match drain example_code example_driver doom_kbd0 with
  | Some (_, d) => (doom_queued d, znth (d_refcount d) 0xA3) = ([(0xA3, true); (97, true)], 1)
  | None => False
  end.
Proof. vm_compute. done. Qed.
Theorem doom_keys_follow_witness :
  ∃ k' d', drain example_code example_driver doom_kbd0 = Some (k', d') ∧ events k' = [] ∧
    fold_left apply_event (doom_events example_code ∅ (events example_driver)) (down example_code ∅) =
    down example_code (fold_left apply_event (events example_driver) ∅).
Proof.
  destruct (doom_keys_follow example_code example_code_ok ∅ example_driver doom_kbd0) as (k' & d' & H1 & H2 & _ & _ & _ & H3).
  - vm_compute. repeat split; try done; repeat constructor; done.
  - apply follows_start.
  - assert (events example_driver = [(0xE0, true); (0xE4, true); (4, true); (0xE0, false)]) as -> by (vm_compute; reflexivity).
    cbn [changes fst snd]. unfold apply_event. cbn [fst snd]. set_solver.
  - exists k', d'. exact (conj H1 (conj H2 H3)).
Defined.
