(* ===== verification/Doomsys.v ===== *)
(** * Doomsys: files, heap and picture of the game ([src/baremetal/doom/src])

    syscalls.c: the C library's heap, its only file, the WAD at [DDR_WAD_BASE], and the
    buffer that takes the output; doomgeneric_aipc.c: the picture, scaled at twice its
    size into the framebuffer.  The bounds of the heap come from the linker and are
    variables, as is the address of the game's picture. *)
From S2P Require Import Prelude Machine Payload.

(** ** The C library's calls ([syscalls.c]) *)

Definition ENOENT : Z := 2.
Definition EBADF : Z := 9.
Definition ENOMEM : Z := 12.
Definition EINVAL : Z := 22.
Definition EMFILE : Z := 24.
Definition DDR_WAD_BASE : Z := 0x30B00000.
Definition WAD_FD : Z := 3.
Definition WRITE_LOW : Z := 0x31D00000.
Definition WRITE_END : Z := 0x31D10000.

Record sys := Sys { s_mem : mem; s_errno : Z; heap_ptr : Z; wad_open : bool; wad_offset : Z; wad_size : Z; log_ptr : Z }.
Definition set_mem (m : mem) (s : sys) : sys := Sys m (s_errno s) (heap_ptr s) (wad_open s) (wad_offset s) (wad_size s) (log_ptr s).
Definition set_errno (e : Z) : M sys unit := modify (λ s, Sys (s_mem s) e (heap_ptr s) (wad_open s) (wad_offset s) (wad_size s) (log_ptr s)).
Definition set_heap (p : Z) (s : sys) : sys := Sys (s_mem s) (s_errno s) p (wad_open s) (wad_offset s) (wad_size s) (log_ptr s).
Definition set_wad (b : bool) (o : Z) (s : sys) : sys := Sys (s_mem s) (s_errno s) (heap_ptr s) b o (wad_size s) (log_ptr s).
Definition set_size (n : Z) (s : sys) : sys := Sys (s_mem s) (s_errno s) (heap_ptr s) (wad_open s) (wad_offset s) n (log_ptr s).
Definition set_log_ptr (p : Z) (s : sys) : sys := Sys (s_mem s) (s_errno s) (heap_ptr s) (wad_open s) (wad_offset s) (wad_size s) p.

(** [errno = e; return -1;] *)
Definition fails (e : Z) : M sys Z := set_errno e;; mret (-1).

Section sbrk.
Variables heap_start heap_end : Z.
Definition sbrk (incr : Z) : M sys Z :=
  p ← gets heap_ptr;
  when (p =? 0) (modify (set_heap heap_start));;
  prev ← gets heap_ptr;
  if heap_end <? u32 (prev + incr) then fails ENOMEM
  else modify (set_heap (u32 (prev + incr)));; mret prev.
End sbrk.

(** The end of the directory, which is the end of the file. *)
Definition wad_length (m : mem) : Z :=
  let num_lumps := le_join (mget_list m (DDR_WAD_BASE + 4) 4) in
  let dir_offset := le_join (mget_list m (DDR_WAD_BASE + 8) 4) in
  u32 (dir_offset + num_lumps * 16).
Definition wad_detect_size : M sys unit := m ← gets s_mem; modify (set_size (wad_length m)).

(** [.wad], each letter in either case, behind at least nothing. *)
Definition is_wad (name : list Z) : bool :=
  (4 <=? zlen name) &&
  match drop (length name - 4) name with
  | [c0; c1; c2; c3] => (c0 =? 46) && ((c1 =? 119) || (c1 =? 87)) && ((c2 =? 97) || (c2 =? 65)) && ((c3 =? 100) || (c3 =? 68))
  | _ => false
  end.

Definition sys_open (name : list Z) : M sys Z :=
  if is_wad name then
    already ← gets wad_open;
    if (already : bool) then fails EMFILE
    else wad_detect_size;; modify (set_wad true 0);; mret WAD_FD
  else fails ENOENT.

Definition sys_close (fd : Z) : M sys Z :=
  if fd =? WAD_FD then modify (set_wad false 0);; mret 0 else fails EBADF.

Definition sys_read (fd buf len : Z) : M sys Z :=
  if fd =? WAD_FD then
    s ← gets id;
    if wad_size s <=? wad_offset s then mret 0
    else
      let avail := u32 (wad_size s - wad_offset s) in
      let n := if u32 len <? avail then u32 len else avail in
      modify (λ s, set_mem (mset_list (s_mem s) buf (mget_list (s_mem s) (DDR_WAD_BASE + wad_offset s) (Z.to_nat n))) s);;
      modify (λ s, set_wad (wad_open s) (u32 (wad_offset s + n)) s);;
      mret (i32 n)
  else fails EBADF.

Definition SEEK_SET : Z := 0.
Definition SEEK_CUR : Z := 1.
Definition SEEK_END : Z := 2.
Definition sys_lseek (fd offset whence : Z) : M sys Z :=
  if fd =? WAD_FD then
    s ← gets id;
    let from := if whence =? SEEK_SET then Some 0 else if whence =? SEEK_CUR then Some (wad_offset s)
                else if whence =? SEEK_END then Some (wad_size s) else None in
    match from with
    | None => fails EINVAL
    | Some base =>
        let new_off := i32 (u32 (base + offset)) in
        if (new_off <? 0) || (wad_size s <? u32 new_off) then fails EINVAL
        else modify (λ s, set_wad (wad_open s) (u32 new_off) s);; mret (i32 (u32 new_off))
    end
  else fails EBADF.

(** The size of the file, if [fd] is it. *)
Definition sys_fstat (fd : Z) : M sys (Z * option Z) :=
  if fd =? WAD_FD then n ← gets wad_size; mret (0, Some n)
  else rc ← fails EBADF; mret (rc, None).

(** The bytes go to the buffer of the output while it has room. *)
Fixpoint write_loop (l : list Z) : M sys unit :=
  match l with
  | [] => skip
  | b :: l' =>
      p ← gets log_ptr;
      if p <? WRITE_END then
        modify (λ s, set_mem (mset (s_mem s) p b) s);; modify (set_log_ptr (p + 1));; write_loop l'
      else skip
  end.
Definition sys_write (l : list Z) : M sys Z := write_loop l;; mret (zlen l).
Definition sys_isatty (fd : Z) : Z := if (fd =? 1) || (fd =? 2) then 1 else 0.
Definition sys_kill : M sys Z := fails EINVAL.
Definition sys_unlink : M sys Z := fails ENOENT.

(** ** The WAD is a file *)

Inductive file_op := FRead (buf len : Z) | FSeek (offset whence : Z).
(** The result of an operation and the bytes that it put into the buffer. *)
Definition do_op (op : file_op) : M sys (Z * list Z) :=
  match op with
  | FRead buf len => rc ← sys_read WAD_FD buf len; m ← gets s_mem; mret (rc, mget_list m buf (Z.to_nat rc))
  | FSeek offset whence => rc ← sys_lseek WAD_FD offset whence; mret (rc, [])
  end.
Fixpoint do_ops (ops : list file_op) : M sys (list (Z * list Z)) :=
  match ops with [] => mret [] | op :: ops' => r ← do_op op; rs ← do_ops ops'; mret (r :: rs) end.

(** The same on a file with these bytes, at position [pos]. *)
Definition file_do (content : list Z) (pos : Z) (op : file_op) : (Z * list Z) * Z :=
  match op with
  | FRead _ len => let bytes := take (Z.to_nat len) (drop (Z.to_nat pos) content) in ((zlen bytes, bytes), pos + zlen bytes)
  | FSeek offset whence =>
      match whence with
      | 0 | 1 | 2 =>
          let new := (if whence =? SEEK_SET then 0 else if whence =? SEEK_CUR then pos else zlen content) + offset in
          if (0 <=? new) && (new <=? zlen content) then ((new, []), new) else ((-1, []), pos)
      | _ => ((-1, []), pos)
      end
  end.
Fixpoint file_run (content : list Z) (pos : Z) (ops : list file_op) : list (Z * list Z) :=
  match ops with [] => [] | op :: ops' => let '(r, pos') := file_do content pos op in r :: file_run content pos' ops' end.

(** Arguments of type int, and a buffer beside the file. *)
Definition op_ok (size : Z) (op : file_op) : Prop :=
  match op with
  | FRead buf len => 0 <= len < 2147483648 ∧ (buf + len <= DDR_WAD_BASE ∨ DDR_WAD_BASE + size <= buf)
  | FSeek offset _ => -2147483648 <= offset < 2147483648
  end.
Definition file_at (content : list Z) (pos : Z) (s : sys) : Prop :=
  wad_size s = zlen content ∧ wad_offset s = pos ∧ 0 <= pos <= zlen content ∧ mget_list (s_mem s) DDR_WAD_BASE (length content) = content.

Lemma mget_list_sub m a n k j : (k + j <= n)%nat → mget_list m (a + Z.of_nat k) j = take j (drop k (mget_list m a n)).
Proof.
  intros Hn. replace n with (k + (j + (n - k - j)))%nat by lia. rewrite !mget_list_app.
  rewrite drop_app_length' by (by rewrite mget_list_length). by rewrite take_app_length' by (by rewrite mget_list_length).
Qed.

Lemma take_length_take {A} n (l : list A) : take (length (take n l)) l = take n l.
Proof. rewrite length_take. destruct (Nat.min_spec n (length l)) as [[_ ->]|[? ->]]; [done|by rewrite !take_ge by lia]. Qed.
Lemma read_file content pos buf len s :
  file_at content pos s → zlen content < 2147483648 → op_ok (zlen content) (FRead buf len) →
  let '(r, s') := do_op (FRead buf len) s in r = fst (file_do content pos (FRead buf len)) ∧ file_at content (snd (file_do content pos (FRead buf len))) s'.
Proof.
  intros (Hs & Ho & Hp & Hm) Hsz [Hl Hd]. unfold do_op, sys_read, mbind, M_bind, gets, modify, mret, M_ret. change (WAD_FD =? WAD_FD) with true. cbn [id].
  cbn [file_do fst snd]. rewrite Hs, Ho. set (bytes := take (Z.to_nat len) (drop (Z.to_nat pos) content)).
  assert (zlen bytes = Z.min len (zlen content - pos)) as Hb by (unfold bytes, zlen in *; rewrite length_take, length_drop; lia).
  destruct (zlen content <=? pos) eqn:E.
  - assert (bytes = []) as Hnil by (apply length_zero_iff_nil; unfold zlen in *; lia). rewrite Hnil. cbn. rewrite Z.add_0_r. by split_and!.
  - apply Z.leb_gt in E. rewrite (u32_id (zlen content - pos)), (u32_id len) by (unfold word_ok; lia).
    assert ((if len <? zlen content - pos then len else zlen content - pos) = zlen bytes) as -> by (rewrite Hb; destruct (len <? _) eqn:E2; lia).
    assert (mget_list (s_mem s) (DDR_WAD_BASE + pos) (Z.to_nat (zlen bytes)) = bytes) as Hget.
    { replace pos with (Z.of_nat (Z.to_nat pos)) at 1 by lia. rewrite (mget_list_sub _ _ (length content)) by (unfold zlen in *; lia).
      rewrite Hm. unfold zlen at 1. rewrite Nat2Z.id. unfold bytes. by rewrite take_length_take. }
    cbn [s_mem set_mem set_wad wad_offset wad_size wad_open]. rewrite !Ho, Hget.
    assert (Forall byte_ok bytes) as Hok by (rewrite <-Hget; apply mget_list_ok).
    rewrite i32_small by (unfold zlen in *; lia). split.
    + f_equal. unfold zlen at 1. rewrite Nat2Z.id. by apply mget_list_mset_list.
    + split; [done|]. split; [cbn; rewrite u32_id by (unfold word_ok; lia); lia|]. split; [lia|].
      rewrite <-Hm at 2. apply mget_list_ext. intros x Hx. cbn [s_mem]. apply mget_mset_list_out. unfold zlen in *. lia.
Qed.

Lemma seek_file content pos offset whence s :
  file_at content pos s → zlen content < 2147483648 → op_ok (zlen content) (FSeek offset whence) →
  let '(r, s') := do_op (FSeek offset whence) s in r = fst (file_do content pos (FSeek offset whence)) ∧ file_at content (snd (file_do content pos (FSeek offset whence))) s'.
Proof.
  intros (Hs & Ho & Hp & Hm) Hsz Hoff. cbn [op_ok] in Hoff. unfold do_op, sys_lseek, fails, mbind, M_bind, gets, modify, mret, M_ret. change (WAD_FD =? WAD_FD) with true. cbn [id].
  assert (∀ base, 0 <= base <= zlen content →
    let new := base + offset in
    ((i32 (u32 new) <? 0) || (wad_size s <? u32 (i32 (u32 new)))) = negb ((0 <=? new) && (new <=? zlen content)) ∧
    (0 <= new <= zlen content → u32 (i32 (u32 new)) = new ∧ i32 new = new)) as Hnew.
  { intros base Hb new. rewrite Hs. destruct ((0 <=? new) && (new <=? zlen content)) eqn:E.
    - apply andb_true_iff in E as [E1%Z.leb_le E2%Z.leb_le]. assert (u32 new = new) as Hu by (apply u32_id; unfold word_ok; lia).
      rewrite Hu, i32_small, Hu by lia. split; [|done]. cbn [negb]. apply orb_false_iff. lia.
    - split; [|lia]. cbn [negb]. apply orb_true_iff. apply andb_false_iff in E. rewrite !Z.leb_gt in E. rewrite !Z.ltb_lt.
      destruct (Z_lt_le_dec new 0); [left; rewrite i32_neg by lia; lia|]. destruct (Z_lt_le_dec new 2147483648).
      + right. rewrite (u32_id new), i32_small, u32_id by (unfold word_ok; lia). lia.
      + left. replace (u32 new) with (u32 (new - 4294967296)) by (unfold u32; zlia). rewrite i32_neg by lia. lia. }
  set (from := if whence =? SEEK_SET then Some 0 else if whence =? SEEK_CUR then Some (wad_offset s) else if whence =? SEEK_END then Some (wad_size s) else None).
  assert (file_do content pos (FSeek offset whence) = match from with
    | Some base => if (0 <=? base + offset) && (base + offset <=? zlen content) then ((base + offset, []), base + offset) else ((-1, []), pos)
    | None => ((-1, []), pos) end) as ->.
  { unfold from, SEEK_SET, SEEK_CUR, SEEK_END. cbn [file_do]. rewrite Hs, Ho. unfold SEEK_SET, SEEK_CUR. destruct whence as [|[[]|[]|]|]; done. }
  assert (match from with Some base => 0 <= base <= zlen content | None => True end) as Hfrom.
  { unfold from. destruct (whence =? SEEK_SET), (whence =? SEEK_CUR), (whence =? SEEK_END); try lia; done. }
  clearbody from. destruct from as [base|]; [|done]. destruct (Hnew base Hfrom) as [Hc Hin]. rewrite Hc.
  destruct ((0 <=? base + offset) && (base + offset <=? zlen content)) eqn:E; cbn [negb]; [|done].
  apply andb_true_iff in E as [E1%Z.leb_le E2%Z.leb_le]. destruct (Hin ltac:(lia)) as [Hu Hi]. rewrite Hu, Hi. cbn [fst snd]. split; [done|]. by split_and!.
Qed.

(** C26: the WAD in memory is a file.  Opening a name that ends in .wad gives descriptor 3;
    any sequence of reads and seeks on it, with a buffer beside the file, returns and
    stores what the same operations do on a file with the bytes of memory up to the end
    of the directory: short reads at the end, seeks from start, position and end, and
    -1 with the position kept for every target outside the file, overflows included. *)
Theorem wad_is_a_file name ops s :
  is_wad name = true → wad_open s = false → wad_length (s_mem s) < 2147483648 → Forall (op_ok (wad_length (s_mem s))) ops →
  let '(fd, s1) := sys_open name s in
  fd = WAD_FD ∧ fst (do_ops ops s1) = file_run (mget_list (s_mem s) DDR_WAD_BASE (Z.to_nat (wad_length (s_mem s)))) 0 ops.
Proof.
  intros Hn Ho Hsz Hops. unfold sys_open. rewrite Hn. unfold mbind, M_bind, gets. rewrite Ho. unfold wad_detect_size, mbind, M_bind, gets, modify, mret, M_ret.
  split; [done|]. set (content := mget_list _ _ _). set (s1 := set_wad true 0 _).
  assert (zlen content = wad_length (s_mem s)) as Hlen.
  { unfold content, zlen. rewrite mget_list_length, Z2Nat.id; [done|]. apply u32_range. }
  rewrite <-Hlen in Hsz, Hops. assert (file_at content 0 s1) as Hf.
  { split; [done|]. split; [done|]. split; [pose proof (zlen_nonneg content); lia|]. unfold content. by rewrite mget_list_length. }
  clearbody s1 content. clear - Hsz Hops Hf. revert s1 Hf. generalize 0. induction Hops as [|op ops Hop Hops IH]; intros pos s1 Hf; [done|].
  cbn [do_ops file_run]. unfold mbind, M_bind.
  assert (let '(r, s') := do_op op s1 in r = fst (file_do content pos op) ∧ file_at content (snd (file_do content pos op)) s') as H
    by (destruct op; [by apply read_file|by apply seek_file]).
  destruct (do_op op s1) as [r s2]. destruct (file_do content pos op) as [r' pos']. destruct H as [-> Hf2]. specialize (IH _ _ Hf2).
  destruct (do_ops ops s2) as [rs s3]. cbn [fst] in *. by rewrite IH.
Qed.

(** One allocation: the block at the break, or nothing. *)
Lemma sbrk_step lo hi n s :
  0 < lo <= hi → hi < 2147483648 → heap_ptr s = 0 ∨ lo <= heap_ptr s <= hi → 0 <= n < 2147483648 →
  let prev := if heap_ptr s =? 0 then lo else heap_ptr s in
  let '(p, s1) := sbrk lo hi n s in
  lo <= prev <= hi ∧ (p = -1 ∧ heap_ptr s1 = prev ∧ hi < prev + n ∨ p = prev ∧ heap_ptr s1 = prev + n ∧ prev + n <= hi).
Proof.
  intros Hlo Hhi Hp Hn prev. assert (lo <= prev <= hi) as Hprev by (unfold prev; destruct (Z.eqb_spec (heap_ptr s) 0); lia).
  unfold sbrk, fails, set_errno, mbind, M_bind, gets, when, modify, mret, M_ret, skip.
  assert (∀ s0, heap_ptr s0 = prev → let '(p, s1) := (if hi <? u32 (heap_ptr s0 + n) then fails ENOMEM else modify (set_heap (u32 (heap_ptr s0 + n)));; mret (heap_ptr s0)) s0 in
    p = -1 ∧ heap_ptr s1 = prev ∧ hi < prev + n ∨ p = prev ∧ heap_ptr s1 = prev + n ∧ prev + n <= hi) as H.
  { intros s0 H0. rewrite H0, u32_id by (unfold word_ok; lia). destruct (hi <? prev + n) eqn:E; cbn; [left|right]; split_and!; try done; lia. }
  destruct (heap_ptr s =? 0) eqn:E; [specialize (H (set_heap lo s))|specialize (H s)]; unfold prev in *; rewrite ?E in *; specialize (H eq_refl);
    unfold fails, set_errno, mbind, M_bind, modify, mret, M_ret in H; cbn in H |- *; destruct (hi <? _); cbn in *; tauto.
Qed.
(** Two blocks of the heap are apart, and they end inside. *)
Lemma sbrk_apart lo hi a b s :
  0 < lo <= hi → hi < 2147483648 → heap_ptr s = 0 ∨ lo <= heap_ptr s <= hi → 0 <= a < 2147483648 → 0 <= b < 2147483648 →
  let '(p, s1) := sbrk lo hi a s in let '(q, s2) := sbrk lo hi b s1 in
  p ≠ -1 → q ≠ -1 → lo <= p ∧ p + a <= q ∧ q + b <= hi.
Proof.
  intros Hlo Hhi Hp Ha Hb. pose proof (sbrk_step lo hi a s Hlo Hhi Hp Ha) as H1. destruct (sbrk lo hi a s) as [p s1].
  set (prev := if heap_ptr s =? 0 then lo else heap_ptr s) in *. destruct H1 as [Hprev H1].
  pose proof (sbrk_step lo hi b s1 Hlo Hhi ltac:(right; lia) Hb) as H2. destruct (sbrk lo hi b s1) as [q s2].
  replace (heap_ptr s1 =? 0) with false in H2 by (symmetry; apply Z.eqb_neq; lia). cbv beta iota zeta in H2. intros Hp1 Hq1. lia.
Qed.
(** The output stays in its buffer. *)
Lemma write_bounded l s :
  WRITE_LOW <= log_ptr s <= WRITE_END →
  let s' := snd (sys_write l s) in
  WRITE_LOW <= log_ptr s' <= WRITE_END ∧ ∀ a, ¬ (WRITE_LOW <= a < WRITE_END) → mget (s_mem s') a = mget (s_mem s) a.
Proof.
  intros Hp. unfold sys_write, mbind, M_bind. revert s Hp. induction l as [|b l IH]; intros s Hp; cbn [write_loop]; [done|].
  unfold mbind, M_bind, gets. destruct (log_ptr s <? WRITE_END) eqn:E; [|done]. unfold modify.
  set (s1 := set_log_ptr _ _). destruct (IH s1) as [H1 H2]; [unfold s1; cbn; lia|]. destruct (write_loop l s1) as [[] s2]. cbn [snd mret M_ret] in *.
  split; [done|]. intros x Hx. rewrite H2 by done. unfold s1. cbn. apply mget_mset_ne. intros Heq. apply Hx. lia.
Qed.

(** ** The picture ([DG_DrawFrame] of doomgeneric_aipc.c) *)

Definition DG_SCALE : Z := 2.
Definition DG_SRC_W : Z := 320.
Definition DG_SRC_H : Z := 200.
Definition X_OFFSET : Z := (FB_WIDTH - DG_SRC_W * DG_SCALE) / 2.
Definition Y_OFFSET : Z := (FB_HEIGHT - DG_SRC_H * DG_SCALE) / 2.

Definition to_rgb565 (argb : Z) : Z :=
  let r := (argb .>> 16) .& 0xFF in
  let g := (argb .>> 8) .& 0xFF in
  let b := argb .& 0xFF in
  u16 (((r .>> 3) .<< 11) .| ((g .>> 2) .<< 5) .| (b .>> 3)).

Section Draw.
Context {S D : Type} `{!HasMachine S D, !Device D}.
Variable screen : Z.

Definition scale_pixel (y x : Z) : M S unit :=
  let dst_row0 := FB_ADDR + 2 * ((Y_OFFSET + y * DG_SCALE) * FB_WIDTH + X_OFFSET) in
  let dst_row1 := dst_row0 + 2 * FB_WIDTH in
  argb ← rd32 (screen + 4 * (y * DG_SRC_W + x));
  let rgb565 := to_rgb565 argb in
  let dst_x := x * DG_SCALE in
  wr16 (dst_row0 + 2 * dst_x) rgb565;;
  wr16 (dst_row0 + 2 * (dst_x + 1)) rgb565;;
  wr16 (dst_row1 + 2 * dst_x) rgb565;;
  wr16 (dst_row1 + 2 * (dst_x + 1)) rgb565.
Definition DG_DrawFrame : M S unit := for_to DG_SRC_H (λ y, for_to DG_SRC_W (λ x, scale_pixel y x)).

(** The pixel of the framebuffer, and of the game's picture. *)
Definition fb_pixel (m : mem) (X Y : Z) : Z := le_join (mget_list m (FB_ADDR + 2 * (X + Y * FB_WIDTH)) 2).
Definition src_pixel (m : mem) (x y : Z) : Z := to_rgb565 (le_join (mget_list m (screen + 4 * (y * DG_SRC_W + x)) 4)).
Definition in_frame (a : Z) : Prop := FB_ADDR <= a < FB_ADDR + FB_BYTES.
Definition in_picture (X Y : Z) : bool := (80 <=? X) && (X <? 720) && (40 <=? Y) && (Y <? 440).
(** The pixels before the source pixel (x, y), row by row. *)
Definition before (y x X Y : Z) : bool := in_picture X Y && (((Y - 40) / 2 <? y) || (((Y - 40) / 2 =? y) && ((X - 80) / 2 <? x))).

Lemma fb_pixel_set m X Y v X' Y' :
  0 <= X < FB_WIDTH → 0 <= X' < FB_WIDTH →
  fb_pixel (mset_list m (FB_ADDR + 2 * (X + Y * FB_WIDTH)) (le_split 2 v)) X' Y' = if (X =? X') && (Y =? Y') then u16 v else fb_pixel m X' Y'.
Proof.
  intros HX HX'. unfold fb_pixel. destruct ((X =? X') && (Y =? Y')) eqn:E.
  - apply andb_true_iff in E as [->%Z.eqb_eq ->%Z.eqb_eq].
    pose proof (mget_list_mset_list m (FB_ADDR + 2 * (X' + Y' * FB_WIDTH)) (le_split 2 v) (le_split_ok 2 v)) as H.
    rewrite le_split_length in H. rewrite H, le_join_split. done.
  - f_equal. apply mget_list_ext. intros a Ha. apply mget_mset_list_out. unfold zlen. rewrite le_split_length.
    assert (X ≠ X' ∨ Y ≠ Y') as Hne by lia. unfold FB_WIDTH in *. lia.
Qed.

Context (m0 : mem) (d0 : D) (Hscreen : ∀ a, screen <= a < screen + 4 * (DG_SRC_W * DG_SRC_H) → in_ddr a = true ∧ ¬ in_frame a).

Definition scaled (y x : Z) (s : S) : Prop :=
  dev (machine_of s) = d0 ∧ (∀ a, ¬ in_frame a → mget (ram (machine_of s)) a = mget m0 a) ∧
  ∀ X Y, 0 <= X < FB_WIDTH → 0 <= Y < FB_HEIGHT →
    fb_pixel (ram (machine_of s)) X Y = if before y x X Y then src_pixel m0 ((X - 80) / 2) ((Y - 40) / 2) else fb_pixel m0 X Y.

(** One store into the framebuffer. *)
Lemma wp_put X Y a v (Q : unit → S → Prop) s :
  0 <= X < FB_WIDTH → 0 <= Y < FB_HEIGHT → a = FB_ADDR + 2 * (X + Y * FB_WIDTH) → dev (machine_of s) = d0 →
  (∀ s', dev (machine_of s') = d0 → (∀ a, ¬ in_frame a → mget (ram (machine_of s')) a = mget (ram (machine_of s)) a) →
     (∀ X' Y', 0 <= X' < FB_WIDTH → fb_pixel (ram (machine_of s')) X' Y' = if (X =? X') && (Y =? Y') then u16 v else fb_pixel (ram (machine_of s)) X' Y') → Q tt s') →
  wp (wr16 a v) Q s.
Proof.
  intros HX HY -> Hd HQ. unfold FB_WIDTH, FB_HEIGHT in *. apply wp_wr_ddr; [apply in_ddr_true; unfold FB_ADDR, FB_WIDTH, DDR_BASE, DDR_END; lia|].
  apply HQ; rewrite machine_of_set; cbn [ram dev]; [done| |].
  - intros a Ha. apply mget_mset_list_out. unfold zlen. rewrite le_split_length. unfold in_frame, FB_BYTES, FB_WIDTH, FB_HEIGHT in *. cbn [nbytes]. lia.
  - intros X' Y' HX'. apply (fb_pixel_set _ X Y v X' Y'); done.
Qed.

Lemma to_rgb565_u16 v : u16 (to_rgb565 v) = to_rgb565 v.
Proof. unfold to_rgb565, u16. cbv zeta. by rewrite Z.mod_mod. Qed.

Lemma before_next y x X Y : 0 <= x < DG_SRC_W → 0 <= y < DG_SRC_H →
  before y (x + 1) X Y = before y x X Y || (((X =? 80 + 2 * x) || (X =? 81 + 2 * x)) && ((Y =? 40 + 2 * y) || (Y =? 41 + 2 * y))).
Proof.
  intros Hx Hy. unfold before, in_picture, DG_SRC_W, DG_SRC_H in *. apply Bool.eq_true_iff_eq.
  rewrite !orb_true_iff, !andb_true_iff, !orb_true_iff, !andb_true_iff, !Z.leb_le, !Z.ltb_lt, !Z.eqb_eq. zlia.
Qed.
Lemma before_row y X Y : before y DG_SRC_W X Y = before (y + 1) 0 X Y.
Proof.
  unfold before, in_picture, DG_SRC_W. apply Bool.eq_true_iff_eq.
  rewrite !andb_true_iff, !orb_true_iff, !andb_true_iff, !Z.leb_le, !Z.ltb_lt, !Z.eqb_eq. zlia.
Qed.

Lemma offsets : X_OFFSET = 80 ∧ Y_OFFSET = 40 ∧ FB_WIDTH = 800 ∧ FB_HEIGHT = 480 ∧ DG_SCALE = 2.
Proof. done. Qed.
(** The store to the pixel (i, j) of the four. *)
Ltac corner x y i j :=
  destruct offsets as (EX & EY & EW & EH & ES);
  apply (wp_put (80 + 2 * x + i) (40 + 2 * y + j)); [lia|lia|rewrite EX, EY, EW, ES; lia|done|clear EX EY EW EH ES].

Lemma scale_pixel_spec y x s :
  0 <= x < DG_SRC_W → 0 <= y < DG_SRC_H → scaled y x s → wp (scale_pixel y x) (λ _, scaled y (x + 1)) s.
Proof.
  intros Hx Hy (Hd & Hout & Hpx). unfold DG_SRC_W, DG_SRC_H in *. unfold scale_pixel. set (a := screen + 4 * (y * DG_SRC_W + x)).
  assert (∀ i, 0 <= i < 4 → in_ddr (a + i) = true ∧ ¬ in_frame (a + i)) as Ha
    by (intros i Hi; apply Hscreen; unfold a, DG_SRC_W, DG_SRC_H; lia).
  apply wp_bind, wp_rd_ddr; [rewrite <-(Z.add_0_r a); by apply Ha|]. change (nbytes W32) with 4%nat.
  assert (le_join (mget_list (ram (machine_of s)) a 4) = le_join (mget_list m0 a 4)) as ->.
  { f_equal. apply mget_list_ext. intros b Hb. apply Hout. replace b with (a + (b - a)) by lia. apply Ha. lia. }
  set (v := to_rgb565 _). assert (v = src_pixel m0 x y) as Hv by done.
  assert (u16 v = v) as Hu by apply to_rgb565_u16. clearbody v.
  apply wp_bind. corner x y 0 0.
  intros s1 Hd1 Ho1 Hp1.
  apply wp_bind. corner x y 1 0.
  intros s2 Hd2 Ho2 Hp2.
  apply wp_bind. corner x y 0 1.
  intros s3 Hd3 Ho3 Hp3.
  corner x y 1 1.
  intros s4 Hd4 Ho4 Hp4. split; [done|]. split; [intros b Hb; by rewrite Ho4, Ho3, Ho2, Ho1, Hout by done|].
  intros X Y HX HY. rewrite before_next by (unfold DG_SRC_W, DG_SRC_H; lia). rewrite Hp4, Hp3, Hp2, Hp1, Hpx, !Hu by done.
  assert (∀ i j, 0 <= i < 2 → 0 <= j < 2 → (80 + 2 * x + i =? X) && (40 + 2 * y + j =? Y) = true → v = src_pixel m0 ((X - 80) / 2) ((Y - 40) / 2)) as Hsrc.
  { intros i j Hi Hj [<-%Z.eqb_eq <-%Z.eqb_eq]%andb_true_iff. rewrite Hv. f_equal; zlia. }
  destruct ((80 + 2 * x + 1 =? X) && (40 + 2 * y + 1 =? Y)) eqn:E4; [rewrite <-(Hsrc 1 1) by done|
  destruct ((80 + 2 * x + 0 =? X) && (40 + 2 * y + 1 =? Y)) eqn:E3; [rewrite <-(Hsrc 0 1) by done|
  destruct ((80 + 2 * x + 1 =? X) && (40 + 2 * y + 0 =? Y)) eqn:E2; [rewrite <-(Hsrc 1 0) by done|
  destruct ((80 + 2 * x + 0 =? X) && (40 + 2 * y + 0 =? Y)) eqn:E1; [rewrite <-(Hsrc 0 0) by done|]]]].
  1-4: match goal with |- _ = if ?b then _ else _ => replace b with true by (symmetry; lia) end; done.
  match goal with |- _ = if ?b || ?c then _ else _ => replace c with false by (symmetry; lia) end. by rewrite orb_false_r.
Qed.
End Draw.

(** C27: the picture of the game fills its rectangle.  With the picture anywhere in DDR
    beside the framebuffer, every pixel of the 640 by 400 rectangle in the middle of the
    screen becomes the 565 color of the source pixel at half its coordinates, every other
    pixel and all other memory stay as they are, and no device is touched. *)
Theorem draw_frame_doubles {S D} `{!HasMachine S D, !Device D} screen (s : S) :
  (∀ a, screen <= a < screen + 4 * (DG_SRC_W * DG_SRC_H) → in_ddr a = true ∧ ¬ in_frame a) →
  let s' := snd (DG_DrawFrame screen s) in
  dev (machine_of s') = dev (machine_of s) ∧
  (∀ a, ¬ in_frame a → mget (ram (machine_of s')) a = mget (ram (machine_of s)) a) ∧
  ∀ X Y, 0 <= X < FB_WIDTH → 0 <= Y < FB_HEIGHT →
    fb_pixel (ram (machine_of s')) X Y =
      if in_picture X Y then src_pixel screen (ram (machine_of s)) ((X - 80) / 2) ((Y - 40) / 2) else fb_pixel (ram (machine_of s)) X Y.
Proof.
  intros Hscreen. set (m0 := ram (machine_of s)). set (d0 := dev (machine_of s)).
  assert (wp (DG_DrawFrame screen) (λ _, scaled screen m0 d0 DG_SRC_H 0) s) as (Hd & Hout & Hpx).
  { apply (wp_for_range (λ y, scaled screen m0 d0 y 0) 0 (Z.to_nat DG_SRC_H)).
    - split; [done|]. split; [done|]. intros X Y _ _. unfold before, in_picture. destruct ((80 <=? X) && _ && _ && _) eqn:E; [|done].
      rewrite (proj2 (Z.ltb_ge _ 0)) by zlia. rewrite (proj2 (Z.ltb_ge ((X - 80) / 2) 0)) by zlia. by rewrite andb_false_r.
    - intros y s1 Hy H1. eapply wp_mono.
      + apply (wp_for_range (λ x, scaled screen m0 d0 y x) 0 (Z.to_nat DG_SRC_W)); [done|]. intros x s2 Hx H2.
        by apply scale_pixel_spec.
      + intros _ s2 (Hd & Hout & Hpx). split; [done|]. split; [done|]. intros X Y HX HY. rewrite <-before_row. by apply Hpx. }
  split; [done|]. split; [done|]. intros X Y HX HY. rewrite Hpx by done.
  replace (before DG_SRC_H 0 X Y) with (in_picture X Y); [done|]. unfold before. destruct (in_picture X Y) eqn:E; [|done].
  unfold in_picture in E. rewrite !andb_true_iff in E. rewrite (proj2 (Z.ltb_lt _ DG_SRC_H)); [done|]. unfold DG_SRC_H. zlia.
Qed.

(** ** Examples *)

(** A WAD with one lump of four bytes, and a buffer. *)
Definition example_wad : mem :=
  mset_list ∅ DDR_WAD_BASE (bytes_of "IWAD" ++ [1; 0; 0; 0; 16; 0; 0; 0] ++ bytes_of "abcd" ++ [12; 0; 0; 0; 4; 0; 0; 0] ++ bytes_of "LUMP" ++ [0; 0; 0; 0]).
Definition example_sys : sys := Sys example_wad 0 0 false 0 0 WRITE_LOW.
Definition example_ops : list file_op := [FRead 0x31000000 4; FSeek 12 0; FRead 0x31000000 4; FSeek (-17) 2; FSeek (-4) 2; FRead 0x31000000 100].
Theorem wad_is_a_file_witness :
  let '(fd, s1) := sys_open (bytes_of "doom1.WAD") example_sys in
  fd = WAD_FD ∧ fst (do_ops example_ops s1) = file_run (mget_list (s_mem example_sys) DDR_WAD_BASE (Z.to_nat (wad_length (s_mem example_sys)))) 0 example_ops.
Proof.
  refine (wad_is_a_file (bytes_of "doom1.WAD") example_ops example_sys _ _ _ _); [vm_compute; reflexivity|reflexivity|vm_compute; reflexivity|].
  assert (wad_length (s_mem example_sys) = 32) as -> by (vm_compute; reflexivity).
  repeat constructor; cbn; unfold DDR_WAD_BASE; lia.
Defined.
Example example_reads :
  fst (do_ops example_ops (snd (sys_open (bytes_of "doom1.WAD") example_sys))) =
  [(4, bytes_of "IWAD"); (12, []); (4, bytes_of "abcd"); (15, []); (28, []); (4, [0; 0; 0; 0])].
Proof. vm_compute. reflexivity. Qed.

#[local] Existing Instance null_device.
#[local] Program Instance plain_machine {D} : HasMachine (machine D) D := {| machine_of m := m; set_machine m _ := m |}.
Solve All Obligations with done.
Definition example_picture : machine unit := Machine (mset_list ∅ 0x31000000 [0xFF; 0x80; 0x40; 0]) tt.
Theorem draw_frame_doubles_witness :
  fb_pixel (ram (machine_of (snd (DG_DrawFrame 0x31000000 example_picture)))) 81 40 =
    if in_picture 81 40 then src_pixel 0x31000000 (ram (machine_of example_picture)) ((81 - 80) / 2) ((40 - 40) / 2)
    else fb_pixel (ram (machine_of example_picture)) 81 40.
Proof.
  assert (∀ a, 0x31000000 <= a < 0x31000000 + 4 * (DG_SRC_W * DG_SRC_H) → in_ddr a = true ∧ ¬ in_frame a) as Hscreen.
  { intros a Ha. unfold DG_SRC_W, DG_SRC_H in Ha. split; [apply in_ddr_true; unfold DDR_BASE, DDR_END; lia|]. unfold in_frame, FB_ADDR. lia. }
  destruct (draw_frame_doubles 0x31000000 example_picture Hscreen) as (_ & _ & Hp). apply (Hp 81 40); unfold FB_WIDTH, FB_HEIGHT; lia.
Defined.
